(* ===== verification/_CoqProject ===== *)
-Q . S2P
Prelude.v
Operand.v
Meta.v
Decode.v
Encode.v
Codec.v
CodecSound.v
CodecRound.v
Compress.v
CodecTheorems.v
Alu.v
Machine.v
Fpu.v
Interp.v
InterpSound.v
ExecSpec.v
ExecControl.v
Proxy.v
InstEquiv.v
Runloop.v
Model.v
Csr.v
ProxyCpu.v
ExecTheorems.v
RunTheorems.v
Tlb.v
Soft.v
Memory.v
Mmu.v
MmuSound.v
MmuSpec.v
MmuTheorems.v
Cache.v
CacheSound.v
CacheCoherent.v
CacheAccess.v
CacheTheorems.v
CacheMmu.v
CacheSim.v
CacheSpec.v
CacheWalk.v
Priv.v
PrivTheorems.v
Devices.v
DeviceLaws.v
DeviceTheorems.v
Queue.v
QueueTheorems.v
Assembler.v
AssemblerSound.v
AssemblerImm.v
AssemblerLink.v
AssemblerLabels.v
AssemblerInv.v
AssemblerTheorems.v
AsmEmit.v
AsmEmitTheorems.v
Host.v
Jit.v
JitSound.v
JitAuto.v
JitInt.v
JitDiv.v
JitMem.v
JitEmit.v
JitExec.v
JitSim.v
JitFlow.v
JitPair.v
JitTrace.v
JitFunc.v
JitTheorems.v
JitFusion.v
JitRecord.v
JitReplay.v
JitRun.v
JitRunTheorems.v
JitStep.v
JitLimits.v
