(* ===== verification/Prelude.v ===== *)
(** * rv8: a verified model of the RISC-V simulator

    rv8 decodes, encodes, compresses and interprets RISC-V instructions, and
    runs them as a user process ([rv-sim]) or as a machine with privilege
    levels, paging and devices ([rv-sys]).  This library translates its core
    from the C++ under [src/src/] and proves what each part promises.  Paths
    below are relative to [src/src/].

    ** Conventions

    A C++ integer is a [Z]; [wrap w] and [swrap w] are the conversions to the
    unsigned and signed types of [w] bits (the build has [-fwrapv]).  Asserts
    are active: a failed assertion is [None] or [Undefined].  State is passed
    explicitly; a handler of the simulator is an [M P A] of [Machine]: it
    returns, leaves by the [longjmp] of [raise], or is [Undefined] (undefined
    behaviour, or the end of the program).  Logging, tracing and statistics
    are left out everywhere.

    ** The parts

    - The instruction codec.  [Operand]: the bit-segment templates of
      [asm/types.h] and the 57 operands of [asm/operands.h].  [Meta]: the
      tables of [asm/meta.cc].  [Decode], [Encode]: [asm/decode.h],
      [asm/encode.h] and the decision trees of [asm/switch.h].  [Codec]:
      [asm/codec.h] and [asm/constraints.h].  [CodecSound], [CodecRound],
      [Compress]: the tree against the tables, decoders and encoders as
      inverses through one format table, compression.  [CodecTheorems]: the
      round trips, the completeness and soundness of the opcode tree.
    - The interpreter.  [Alu] ([asm/alu.h], [asm/bits.h], [emu/amo.h]),
      [Machine] ([emu/processor-base.h], the monad, the interface [MMU] with
      its laws [MMULaws], the host's floating-point unit), [Fpu]
      ([asm/fpu.h]), [Interp] ([emu/interp.h], RV32 and RV64).
      [InterpSound]: every opcode preserves a well-formed processor.
      [ExecSpec], [ExecControl]: the integer instructions compute what the
      ISA manual says.  [ExecTheorems]: the properties.
    - The run loop.  [InstEquiv], [Runloop]: [emu/processor-runloop.h] over
      the interface [Cpu] (with [CpuLaws], [CpuSafe]); the stepper with the
      instruction cache simulates one without it ([plain_step]), that decodes
      afresh but for the all-zero word.  [Model]: the processor models of
      [emu/processor-model.h].  [Csr]: [set_csr] and [get_csr].  [Proxy],
      [ProxyCpu]: the user-mode processor.  [RunTheorems]: the properties.
    - The privileged machine.  [Tlb] ([emu/tlb-soft.h], [emu/pte.h]), [Soft]
      (the registers of [emu/processor-priv-1.9.h] and the interface [Bus]),
      [Memory] ([emu/mmu-memory.h], an instance of [Bus]), [Mmu]
      ([emu/mmu-soft.h], an instance of [MMU]), [MmuSound] (its laws),
      [MmuSpec] (the page walk against the algorithm of the privileged
      specification), [MmuTheorems], [Priv] (CSRs, traps, interrupts over the
      interface [Devices]; an instance of [Cpu]), [PrivTheorems].
    - The cache.  [Cache]: [emu/cache.h], the set-associative cache in front of
      the bus, an instance of [Bus] itself; what it stands on is any [Bus] and
      any state that has a cache ([HasCache]).  [CacheSound], [CacheCoherent],
      [CacheAccess]: what the cache and RAM hold ([coherent]), as triples
      ([does]) over the interface [CacheMemory]; lookup, eviction and the rest
      keep it.  [CacheTheorems]: the cache is memory.  [CacheMmu]:
      [emu/mmu-soft-cache.h].  [CacheSim]: that MMU with the cache against the
      same MMU with flat memory ([refines]).  [CacheSpec]: loads, stores and
      fetches as the privileged specification has them on flat memory
      ([vm_load], [vm_store], [vm_fetch]), and the MMU with its cache against
      them.  [CacheWalk]: what the cache and the MMU get wrong.
    - The devices.  [Devices]: the registers, loads, stores and interrupt
      lines of [emu/device-*.h], the console's queue ([emu/console.h]) and the
      segments [init] adds; an instance of the interface [Devices] of [Priv].
      [DeviceLaws]: its laws.  [DeviceTheorems]: claims and exclusive service
      at the interrupt controller, the timer, the UART as a stream, an
      interrupt from the console to the handler, the memory map, bounds.
    - The queue between the console's thread and the processor.  [Queue]:
      [util/queue.h], a thread as a state machine of atomic operations.
      [QueueTheorems]: it is a FIFO for one producer and one consumer.
    - The assembler and linker.  [Assembler]: [asm/assembler.h],
      [asm/assembler.cc] and the three emitters of [asm/jit.cc] that
      [load_imm] calls; label and section objects are indexes into lists.
      [AssemblerSound]: words in a buffer, immediates replaced in canonical
      instructions, straight-line code ([exec_words]).  [AssemblerImm],
      [AssemblerLink], [AssemblerLabels], [AssemblerInv]: the arithmetic of
      constants and relocations, the maps, the invariant [asm_ok].
      [AssemblerTheorems]: relocated code reaches its label when the
      interpreter runs it, the value [load_imm] loads, names and labels.
      [AsmEmit]: the other emitters of [asm/jit.cc], two functions for each
      opcode, with the operand types of [asm/types.h].  [AsmEmitTheorems]:
      every emitter against [encode_inst] and the decoder, by a table of the
      operands' types ([signature]).
    - The just-in-time compiler for RV64.  [Host]: the host's instructions
      that it emits, an interface ([Host], [HostLaws]), since the assembler and
      the host are not part of the program.  [Jit], [JitEmit]: the emitter of
      [jit/jit-emitter-rv64.h], a function for each of its functions, its
      state, and the loop of [jit_trace].  [JitSound], [JitAuto]: states of the
      host that hold the guest's registers, and the automation that runs
      emitted code on them.  [JitInt], [JitDiv], [JitMem]: what every emitter's
      code computes.  [JitExec]: what the interpreter computes, in the same
      terms.  [JitSim]: code and interpreter agree.  [JitFlow]: branches and
      jumps.  [JitTrace]: a pass over a trace's code, by induction on the
      trace.  [JitPair]: groups of instructions that are compiled as one.
      [JitFunc]: entry, exit, trampolines and loops.  [JitTheorems]: compiled
      traces.  [JitFusion]: [jit/jit-fusion.h], whose output is the emitter's
      for a list of groups.  [JitLimits]: the operands for which emitted code is wrong.
    - The just-in-time run loop, [jit/jit-runloop.h].  [JitRun]: the counts of
      [hist_pc], the recording of a trace, the trace cache and the stepper;
      compiled functions are run by a parameter, since the host is one.
      [JitRecord], [JitReplay]: one recorded instruction, and a run of the
      interpreter, grouped, as a chain for the code of the groups.
      [JitRunTheorems]: recording ends and records what it executes.
      [JitStep]: the invariant of the stepper, and what it gets wrong.

    ** The theorems

    Codec: encoding and decoding are inverse on every RV64 opcode but
    the six of the compressed [cs] format, whose encoder drops an operand; the
    decision tree is sound and complete for the match and mask tables, for the
    listed opcodes ([rv64_ops]); compression round trips when the immediate is
    representable (the constraints alone do not bound it).  Interpreter: results of the integer,
    jump, branch, load, store and atomic instructions; well-formedness of the
    processor.  Run loop: what the instruction cache changes, retirement of
    exactly the requested instructions.  Memory: RAM as a byte map, the TLB,
    translation and protection by the privileged specification, the cache as
    memory.  Privilege:
    trap and return, delegation, confinement of supervisor CSRs, interrupt
    priority.  Devices: safety and one-shot properties over all
    interleavings of device, guest and unrelated events ([trace]).  Queue: an
    invariant over all interleavings of two threads.  Assembler: an invariant
    of every sequence of operations, and what assembled code does when run.
    Compiler: a simulation of the interpreter by emitted code, for one
    instruction and for the function of a trace, with and without macro-op
    fusion, for the traces that are recorded and pass the checks
    ([trace_checks]).  Cache: refinement of flat memory by every sequence of
    physical accesses; virtual accesses against the privileged specification.
    Where the code departs from what it means to do, the theorem has the
    departure as a hypothesis or in its result, and a lemma of the same file (or
    of [JitLimits], [JitStep], [CacheWalk]) shows it on a concrete input.

    ** Fuel

    [walk_levels] has two units more than the levels of the page table; past
    that the shift count is out of range and the code is undefined.
    [step_loop] counts turns: [run_step_retires] gives the bound that is
    enough.  [push_back] and [pop_front] run alone take six
    atomic operations ([queue_alone]).  [load_imm_r] calls itself at most
    three times; it has fuel 6 ([load_imm_spec]).  [add_label_num] tries at
    most one name more than there are labels ([add_label_num_total]).  A pass over
    emitted code ends by recursion on the code; [host_loop]'s fuel counts
    passes, and the claim holds for any number of them, since a guest's loop
    need not end.  [record] needs as much fuel as [trace_length]
    ([record_total]).  The loops of the cache run over the bytes of a
    line or the ways of a set.

    ** Not modelled

    RV128 execution; the text of disassembly and of the generated string
    tables; the host's floating-point arithmetic, system calls, signals and
    terminal (parameters or left out); the RV32 emitter of the compiler and its
    access to memory through the MMU, which is never switched on; vendored code ([hash], [dtoa], sha512); the
    applications and the build-time generators.  The memory orders of the queue's atomics.
    The compiler's lookup function and the patching of jumps between traces:
    a trace leaves at the address of a trace or of the lookup.  The audit mode
    of the just-in-time run loop and [run] with the debugger.
    The PMA table ([emu/pma.h]), which no code consults. *)

From Stdlib Require Import ZArith Lia Bool List.
From stdpp Require Import base numbers list decidable.

Declare Scope rv_scope.
Delimit Scope rv_scope with rv.
#[export] Set Default Goal Selector "!".
Open Scope Z_scope.

(** ** Fixed-width integers

    A C++ integer of width [w] is a [Z].  [wrap w] is the conversion to the
    unsigned type of that width, [swrap w] the conversion to the signed one;
    the build uses [-fwrapv], so signed arithmetic is [swrap] of the exact
    result. *)
Definition wrap (w z : Z) : Z := z mod 2 ^ w.

Definition swrap (w z : Z) : Z :=
  let u := z mod 2 ^ w in if u <? 2 ^ (w - 1) then u else u - 2 ^ w.

Abbreviation u8 := (wrap 8).
Abbreviation u16 := (wrap 16).
Abbreviation u32 := (wrap 32).
Abbreviation u64 := (wrap 64).
Abbreviation s8 := (swrap 8).
Abbreviation s16 := (swrap 16).
Abbreviation s32 := (swrap 32).
Abbreviation s64 := (swrap 64).

(** A bool as the C++ integer 0 or 1. *)
Definition b2z (b : bool) : Z := if b then 1 else 0.

(** The bit field read [(x >> s) & m]. *)
Definition field (x s m : Z) : Z := Z.land (Z.shiftr x s) m.

(** ** Switch statements

    [switch z cases d] is a C++ [switch] whose cases all end in [break]:
    the first case whose label is [z], the default [d] when there is none. *)
Fixpoint switch {A : Type} (z : Z) (cases : list (Z * A)) (d : A) : A :=
  match cases with
  | [] => d
  | (k, a) :: rest => if z =? k then a else switch z rest d
  end.

Notation "k ~> a" := (@pair Z _ k%Z a) (at level 68, right associativity) : rv_scope.
Open Scope rv_scope.

(** ** Automation *)
Create HintDb rv.

Ltac destr_ltb :=
  match goal with
  | |- context [if ?a <? ?b then _ else _] => destruct (Z.ltb_spec a b)
  | |- context [if ?a <=? ?b then _ else _] => destruct (Z.leb_spec a b)
  | |- context [if ?a =? ?b then _ else _] => destruct (Z.eqb_spec a b)
  end.

(** Turn boolean hypotheses about [Z] comparisons into propositions. *)
Ltac bool_hyps :=
  repeat match goal with
  | H : _ && _ = true |- _ => apply andb_true_iff in H; destruct H
  | H : _ || _ = false |- _ => apply orb_false_iff in H; destruct H
  | H : negb _ = true |- _ => apply negb_true_iff in H
  | H : negb _ = false |- _ => apply negb_false_iff in H
  | H : (_ =? _) = true |- _ => apply Z.eqb_eq in H
  | H : (_ =? _) = false |- _ => apply Z.eqb_neq in H
  | H : (_ <? _) = true |- _ => apply Z.ltb_lt in H
  | H : (_ <? _) = false |- _ => apply Z.ltb_ge in H
  | H : (_ <=? _) = true |- _ => apply Z.leb_le in H
  | H : (_ <=? _) = false |- _ => apply Z.leb_gt in H
  end.

(** ** Wrapping: ranges, idempotence, congruence *)
Section Wrap.
Context (w : Z) (Hw : 0 < w).

Lemma pow2_pos : 0 < 2 ^ w.
Proof using Hw. apply Z.pow_pos_nonneg; lia. Qed.

Lemma pow2_half : 2 ^ w = 2 * 2 ^ (w - 1).
Proof using Hw. rewrite <- Z.pow_succ_r by lia. f_equal; lia. Qed.

Lemma wrap_range z : 0 <= wrap w z < 2 ^ w.
Proof using Hw. apply Z.mod_pos_bound, pow2_pos. Qed.

Lemma wrap_small z : 0 <= z < 2 ^ w -> wrap w z = z.
Proof using. apply Z.mod_small. Qed.

Lemma wrap_wrap z : wrap w (wrap w z) = wrap w z.
Proof using. apply Z.mod_mod_divide, Z.divide_refl. Qed.

Lemma swrap_range z : - 2 ^ (w - 1) <= swrap w z < 2 ^ (w - 1).
Proof using Hw.
  pose proof (wrap_range z). pose proof pow2_half. unfold wrap, swrap in *.
  destr_ltb; lia.
Qed.

Lemma swrap_cases z : swrap w z = wrap w z \/ swrap w z = wrap w z - 2 ^ w.
Proof using. unfold wrap, swrap. destr_ltb; auto. Qed.

Lemma wrap_sub_pow z : wrap w (z - 2 ^ w) = wrap w z.
Proof using.
  unfold wrap. replace (z - 2 ^ w) with (z + -1 * 2 ^ w) by lia.
  apply Z_mod_plus_full.
Qed.

Lemma wrap_swrap z : wrap w (swrap w z) = wrap w z.
Proof using.
  destruct (swrap_cases z) as [-> | ->]; rewrite ?wrap_sub_pow; apply wrap_wrap.
Qed.

Lemma swrap_wrap z : swrap w (wrap w z) = swrap w z.
Proof using.
  unfold swrap at 1. change (wrap w z mod 2 ^ w) with (wrap w (wrap w z)).
  rewrite wrap_wrap. reflexivity.
Qed.

Lemma swrap_eq a b : wrap w a = wrap w b -> swrap w a = swrap w b.
Proof using. intros H. rewrite <- (swrap_wrap a), <- (swrap_wrap b), H. reflexivity. Qed.

Lemma swrap_small z : - 2 ^ (w - 1) <= z < 2 ^ (w - 1) -> swrap w z = z.
Proof using Hw.
  intros Hz. pose proof pow2_half. unfold swrap.
  destruct (Z.ltb_spec z 0).
  - replace (z mod 2 ^ w) with (z + 2 ^ w).
    + destr_ltb; lia.
    + rewrite <- (Z_mod_plus_full z 1). rewrite Z.mod_small; lia.
  - rewrite Z.mod_small by lia. destr_ltb; lia.
Qed.

Lemma swrap_swrap z : swrap w (swrap w z) = swrap w z.
Proof using Hw. apply swrap_small, swrap_range. Qed.

Lemma wrap_add_l a b : wrap w (wrap w a + b) = wrap w (a + b).
Proof using. apply Zplus_mod_idemp_l. Qed.

Lemma wrap_add_r a b : wrap w (a + wrap w b) = wrap w (a + b).
Proof using. apply Zplus_mod_idemp_r. Qed.

Lemma wrap_sub_l a b : wrap w (wrap w a - b) = wrap w (a - b).
Proof using. apply Zminus_mod_idemp_l. Qed.

Lemma wrap_sub_r a b : wrap w (a - wrap w b) = wrap w (a - b).
Proof using. apply Zminus_mod_idemp_r. Qed.

Lemma wrap_mul_l a b : wrap w (wrap w a * b) = wrap w (a * b).
Proof using. apply Zmult_mod_idemp_l. Qed.

Lemma wrap_mul_r a b : wrap w (a * wrap w b) = wrap w (a * b).
Proof using. apply Zmult_mod_idemp_r. Qed.

Lemma wrap_spec z i : 0 <= i -> Z.testbit (wrap w z) i = (i <? w) && Z.testbit z i.
Proof using Hw.
  intros Hi. unfold wrap. destruct (Z.ltb_spec i w).
  - rewrite Z.mod_pow2_bits_low by lia. reflexivity.
  - rewrite Z.mod_pow2_bits_high by lia. reflexivity.
Qed.

Lemma wrap_land_ones z : wrap w z = Z.land z (Z.ones w).
Proof using Hw. unfold wrap. rewrite Z.land_ones by lia. reflexivity. Qed.

Lemma wrap_lor a b : wrap w (Z.lor a b) = Z.lor (wrap w a) (wrap w b).
Proof using Hw. rewrite !wrap_land_ones. apply Z.land_lor_distr_l. Qed.

Lemma wrap_land a b : wrap w (Z.land a b) = Z.land (wrap w a) (wrap w b).
Proof using Hw.
  rewrite !wrap_land_ones. apply Z.bits_inj'. intros i Hi.
  rewrite !Z.land_spec. destruct (Z.testbit a i), (Z.testbit b i), (Z.testbit (Z.ones w) i);
    reflexivity.
Qed.

Lemma wrap_lxor a b : wrap w (Z.lxor a b) = Z.lxor (wrap w a) (wrap w b).
Proof using Hw.
  apply Z.bits_inj'. intros i Hi. rewrite Z.lxor_spec, !wrap_spec, Z.lxor_spec by assumption.
  destruct (i <? w); reflexivity.
Qed.
End Wrap.

Create Rewrite HintDb wrap.
#[export] Hint Resolve wrap_range swrap_range : rv.
#[export] Hint Rewrite wrap_wrap wrap_swrap swrap_wrap wrap_add_l wrap_add_r
  wrap_sub_l wrap_sub_r wrap_mul_l wrap_mul_r : wrap.

(** The sign bit fills the positions above [w - 1]. *)
Lemma swrap_spec w z i :
  0 < w -> 0 <= i -> Z.testbit (swrap w z) i = Z.testbit z (Z.min i (w - 1)).
Proof.
  intros Hw Hi. pose proof (swrap_range w Hw z) as Hr.
  destruct (Z.ltb_spec i w).
  - rewrite Z.min_l by lia.
    pose proof (wrap_spec w Hw (swrap w z) i Hi) as H1.
    rewrite wrap_swrap, (wrap_spec w Hw z i Hi) in H1.
    destruct (Z.ltb_spec i w); [simpl in H1; congruence | lia].
  - rewrite Z.min_r by lia.
    assert (Hd : forall x, Z.testbit x i = Z.odd (x / 2 ^ i)).
    { intros x. rewrite <- Z.shiftr_div_pow2 by lia. rewrite <- Z.bit0_odd.
      rewrite Z.shiftr_spec by lia. f_equal; lia. }
    pose proof (Z.pow_le_mono_r 2 w i ltac:(lia) ltac:(lia)).
    pose proof (pow2_half w Hw). pose proof (wrap_range w Hw z) as Hwr.
    assert (Hb : Z.testbit z (w - 1) = negb (wrap w z <? 2 ^ (w - 1))).
    { replace (Z.testbit z (w - 1)) with (Z.testbit (wrap w z) (w - 1)).
      - destruct (Z.ltb_spec (wrap w z) (2 ^ (w - 1))); simpl.
        + rewrite <- (Z.mod_small (wrap w z) (2 ^ (w - 1))) by lia.
          apply Z.mod_pow2_bits_high. lia.
        + replace (wrap w z) with ((wrap w z - 2 ^ (w - 1)) + 1 * 2 ^ (w - 1)) by lia.
          rewrite Z.testbit_true by lia. rewrite Z.div_add by lia.
          rewrite Z.div_small by lia. reflexivity.
      - rewrite wrap_spec by lia.
        destruct (Z.ltb_spec (w - 1) w); [reflexivity | lia]. }
    rewrite Hb, Hd. unfold wrap, swrap in *. destr_ltb; simpl.
    + rewrite Z.div_small by lia. reflexivity.
    + replace ((z mod 2 ^ w - 2 ^ w) / 2 ^ i) with (-1); [reflexivity |].
      apply (Z.div_unique _ _ _ (z mod 2 ^ w - 2 ^ w + 2 ^ i)); lia.
Qed.

Lemma wrap_narrow w w' z : 0 < w <= w' -> wrap w (wrap w' z) = wrap w z.
Proof.
  intros H. apply Z.bits_inj'. intros i Hi. rewrite !wrap_spec by lia.
  destruct (Z.ltb_spec i w), (Z.ltb_spec i w'); simpl; auto; lia.
Qed.

Lemma lor_range w a b : 0 < w -> 0 <= a < 2 ^ w -> 0 <= b < 2 ^ w -> 0 <= Z.lor a b < 2 ^ w.
Proof.
  intros Hw Ha Hb. rewrite <- (wrap_small w a Ha), <- (wrap_small w b Hb), <- wrap_lor by exact Hw.
  apply wrap_range. exact Hw.
Qed.

Lemma wrap_pow_add w z : wrap w (2 ^ w + z) = wrap w z.
Proof. rewrite <- (wrap_sub_pow w (2 ^ w + z)). f_equal. lia. Qed.

(** ** Bit masks

    Facts of the form [Z.land x M = V] ("the bits of [x] under [M] are those
    of [V]") are what a decoder learns about an instruction; the next lemmas
    combine, weaken and use them. *)
Section Masks.
Context (x : Z).

Lemma land_combine M1 V1 M2 V2 :
  Z.land x M1 = V1 -> Z.land x M2 = V2 -> Z.land x (Z.lor M1 M2) = Z.lor V1 V2.
Proof using. intros <- <-. apply Z.land_lor_distr_r. Qed.

Lemma land_weaken M V M' :
  Z.land x M = V -> Z.land M M' = M' -> Z.land x M' = Z.land V M'.
Proof using. intros <- H. rewrite <- Z.land_assoc, H. reflexivity. Qed.

Lemma field_land s m k :
  0 <= s -> field x s m = k -> Z.land x (Z.shiftl m s) = Z.shiftl k s.
Proof using.
  intros Hs <-. unfold field. apply Z.bits_inj'. intros i Hi.
  rewrite Z.land_spec, !Z.shiftl_spec by lia.
  destruct (Z.ltb_spec i s).
  - rewrite !(Z.testbit_neg_r _ (i - s)) by lia. apply andb_false_r.
  - rewrite Z.land_spec, Z.shiftr_spec by lia. do 2 f_equal. lia.
Qed.

Lemma field_mask M V s m :
  Z.land x M = V -> 0 <= s -> Z.land M (Z.shiftl m s) = Z.shiftl m s ->
  field x s m = field V s m.
Proof using.
  intros <- Hs HM. unfold field. apply Z.bits_inj'. intros i Hi.
  apply (f_equal (fun z => Z.testbit z (i + s))) in HM.
  rewrite Z.land_spec, Z.shiftl_spec in HM by lia.
  replace (i + s - s) with i in HM by lia.
  rewrite !Z.land_spec, !Z.shiftr_spec, Z.land_spec by lia.
  destruct (Z.testbit x (i + s)), (Z.testbit M (i + s)), (Z.testbit m i); auto.
Qed.
End Masks.

(** ** Case analysis on a switch *)
Lemma switch_ind {A} (P : A -> Prop) z cases d :
  P d -> Forall (fun ka => z = ka.1 -> P ka.2) cases -> P (switch z cases d).
Proof.
  intros Hd H. induction H as [| [k a] rest Hk _ IH]; simpl; [assumption |].
  destr_ltb; auto.
Qed.

(** Bitwise equality of two integers, one bit at a time. *)
Ltac bitwise i Hi :=
  apply Z.bits_inj'; intros i Hi;
  rewrite ?Z.land_spec, ?Z.lor_spec, ?Z.lxor_spec, ?Z.lnot_spec by lia.

Lemma existsb_ext {A} (f g : A -> bool) l :
  (forall x, In x l -> f x = g x) -> existsb f l = existsb g l.
Proof.
  induction l as [| a l IH]; simpl; intros H; [reflexivity |].
  rewrite (H a) by auto. rewrite IH by auto. reflexivity.
Qed.

Lemma existsb_andb_r {A} (f : A -> bool) b l :
  existsb (fun x => f x && b) l = existsb f l && b.
Proof.
  induction l as [| a l IH]; simpl; [reflexivity |].
  rewrite IH. destruct (f a), b, (existsb f l); reflexivity.
Qed.

Lemma existsb_orb {A} (f g : A -> bool) l :
  existsb (fun x => f x || g x) l = existsb f l || existsb g l.
Proof.
  induction l as [| a l IH]; simpl; [reflexivity |].
  rewrite IH. destruct (f a), (g a), (existsb f l), (existsb g l); reflexivity.
Qed.
