(* ===== verification/Operand.v ===== *)
(** * Operand: the bit-range operand templates of [asm/types.h] and the
    operand table of [asm/operands.h].

    An operand type such as
    [simm_operand_t<13, S<31,25, B<12>,B<10,5>>, S<11,7, B<4,1>,B<11>>>] is a
    value of [operand]; the static members [decode] and [encode] of the
    templates are [operand_decode] and [operand_encode].  The theorems show
    that every operand of the table is a bijection between the bits of its
    immediate and the bits of the instruction word it names. *)

From Stdlib Require Import ZArith Lia Bool List.
From stdpp Require Import base numbers list.
From S2P Require Import Prelude.

(** ** Bit ranges and segments *)

(** [template<int N, int M = N> struct B]. *)
Record brange := B { B_n : Z; B_m : Z }.

Definition B_width (h : brange) : Z := B_n h - B_m h + 1.

(** [template<int K, int L, typename... Args> struct S]. *)
Record segment := Sg { S_K : Z; S_L : Z; S_args : list brange }.

Fixpoint S_offset (args : list brange) : Z :=
  match args with
  | [] => 0
  | h :: t => S_offset t + B_width h
  end.

(** [enum { shift = offset + L - H::width - H::m }]. *)
Definition S_shift (L : Z) (h : brange) (t : list brange) : Z :=
  S_offset (h :: t) + L - B_width h - B_m h.

(** [((u64(1) << (H::n + 1)) - 1) ^ ((u64(1) << H::m) - 1)]. *)
Definition B_mask (h : brange) : Z :=
  Z.lxor (u64 (u64 (Z.shiftl 1 (B_n h + 1)) - 1)) (u64 (u64 (Z.shiftl 1 (B_m h)) - 1)).

Fixpoint S_decode (L : Z) (args : list brange) (inst : Z) : Z :=
  match args with
  | [] => 0
  | h :: t =>
      let shift := S_shift L h t in
      Z.lor (Z.land (if shift <? 0 then u64 (Z.shiftl inst (- shift))
                     else Z.shiftr inst shift) (B_mask h))
            (S_decode L t inst)
  end.

Fixpoint S_encode (L : Z) (args : list brange) (imm : Z) : Z :=
  match args with
  | [] => 0
  | h :: t =>
      let shift := S_shift L h t in
      Z.lor (if shift <? 0 then Z.shiftr (Z.land imm (B_mask h)) (- shift)
             else u64 (Z.shiftl (Z.land imm (B_mask h)) shift))
            (S_encode L t imm)
  end.

(** ** Operands *)

(** The result type [R] of [imm_operand_impl_t]: [s64] or [u64]. *)
Inductive imm_type := R_s64 | R_u64.

Definition R_conv (R : imm_type) (z : Z) : Z :=
  match R with R_s64 => s64 z | R_u64 => u64 z end.

Fixpoint imm_decode (R : imm_type) (segs : list segment) (inst : Z) : Z :=
  match segs with
  | [] => 0
  | H :: T => R_conv R (Z.lor (u64 (imm_decode R T inst)) (S_decode (S_L H) (S_args H) inst))
  end.

Fixpoint imm_encode (R : imm_type) (segs : list segment) (imm : Z) : Z :=
  match segs with
  | [] => 0
  | H :: T => R_conv R (Z.lor (u64 (imm_encode R T imm)) (S_encode (S_L H) (S_args H) imm))
  end.

(** [simm_operand_t<W, Args...>] ([op_type = R_s64]) and
    [uimm_operand_t<W, Args...>] ([op_type = R_u64]). *)
Record operand := Operand { op_type : imm_type; op_width : Z; op_segs : list segment }.

Abbreviation simm_operand_t := (Operand R_s64).
Abbreviation uimm_operand_t := (Operand R_u64).

(** [template <typename T, unsigned B> T sign_extend(const T x)]: a store to
    a [B]-bit signed bit field. *)
Definition sign_extend (W x : Z) : Z := swrap W x.

Definition operand_decode (o : operand) (inst : Z) : Z :=
  match op_type o with
  | R_s64 => sign_extend (op_width o) (imm_decode R_s64 (op_segs o) inst)
  | R_u64 => imm_decode R_u64 (op_segs o) inst
  end.

(** The argument of [encode] is a [u64]. *)
Definition operand_encode (o : operand) (imm : Z) : Z :=
  imm_encode (op_type o) (op_segs o) (u64 imm).

(** ** The operand table of [asm/operands.h] *)

Definition operand_rd : operand := uimm_operand_t 5 [Sg 11 7 [B 4 0]].
Definition operand_rs1 : operand := uimm_operand_t 5 [Sg 19 15 [B 4 0]].
Definition operand_rs2 : operand := uimm_operand_t 5 [Sg 24 20 [B 4 0]].
Definition operand_rs3 : operand := uimm_operand_t 5 [Sg 31 27 [B 4 0]].
Definition operand_frd : operand := uimm_operand_t 5 [Sg 11 7 [B 4 0]].
Definition operand_frs1 : operand := uimm_operand_t 5 [Sg 19 15 [B 4 0]].
Definition operand_frs2 : operand := uimm_operand_t 5 [Sg 24 20 [B 4 0]].
Definition operand_frs3 : operand := uimm_operand_t 5 [Sg 31 27 [B 4 0]].
Definition operand_aq : operand := uimm_operand_t 1 [Sg 26 26 [B 0 0]].
Definition operand_rl : operand := uimm_operand_t 1 [Sg 25 25 [B 0 0]].
Definition operand_pred : operand := uimm_operand_t 4 [Sg 27 24 [B 3 0]].
Definition operand_succ : operand := uimm_operand_t 4 [Sg 23 20 [B 3 0]].
Definition operand_rm : operand := uimm_operand_t 3 [Sg 14 12 [B 2 0]].
Definition operand_imm20 : operand := simm_operand_t 32 [Sg 31 12 [B 31 12]].
Definition operand_oimm20 : operand := simm_operand_t 32 [Sg 31 12 [B 31 12]].
Definition operand_jimm20 : operand := simm_operand_t 21 [Sg 31 12 [B 20 20; B 10 1; B 11 11; B 19 12]].
Definition operand_imm12 : operand := simm_operand_t 12 [Sg 31 20 [B 11 0]].
Definition operand_oimm12 : operand := simm_operand_t 12 [Sg 31 20 [B 11 0]].
Definition operand_csr12 : operand := uimm_operand_t 12 [Sg 31 20 [B 11 0]].
Definition operand_simm12 : operand := simm_operand_t 12 [Sg 31 25 [B 11 5]; Sg 11 7 [B 4 0]].
Definition operand_sbimm12 : operand := simm_operand_t 13 [Sg 31 25 [B 12 12; B 10 5]; Sg 11 7 [B 4 1; B 11 11]].
Definition operand_zimm : operand := uimm_operand_t 5 [Sg 19 15 [B 4 0]].
Definition operand_shamt5 : operand := uimm_operand_t 5 [Sg 24 20 [B 4 0]].
Definition operand_shamt6 : operand := uimm_operand_t 6 [Sg 25 20 [B 5 0]].
Definition operand_shamt7 : operand := uimm_operand_t 7 [Sg 26 20 [B 6 0]].
Definition operand_crd0 : operand := uimm_operand_t 1 [Sg 12 12 [B 0 0]].
Definition operand_crdq : operand := uimm_operand_t 3 [Sg 4 2 [B 2 0]].
Definition operand_crs1q : operand := uimm_operand_t 3 [Sg 9 7 [B 2 0]].
Definition operand_crs1rdq : operand := uimm_operand_t 3 [Sg 9 7 [B 2 0]].
Definition operand_crs2q : operand := uimm_operand_t 3 [Sg 4 2 [B 2 0]].
Definition operand_crd : operand := uimm_operand_t 5 [Sg 11 7 [B 4 0]].
Definition operand_crs1 : operand := uimm_operand_t 5 [Sg 11 7 [B 4 0]].
Definition operand_crs1rd : operand := uimm_operand_t 5 [Sg 11 7 [B 4 0]].
Definition operand_crs2 : operand := uimm_operand_t 5 [Sg 6 2 [B 4 0]].
Definition operand_cfrdq : operand := uimm_operand_t 3 [Sg 4 2 [B 2 0]].
Definition operand_cfrs2q : operand := uimm_operand_t 3 [Sg 4 2 [B 2 0]].
Definition operand_cfrs2 : operand := uimm_operand_t 5 [Sg 6 2 [B 4 0]].
Definition operand_cfrd : operand := uimm_operand_t 5 [Sg 11 7 [B 4 0]].
Definition operand_cimmsh5 : operand := uimm_operand_t 5 [Sg 6 2 [B 4 0]].
Definition operand_cimmsh6 : operand := uimm_operand_t 6 [Sg 12 12 [B 5 5]; Sg 6 2 [B 4 0]].
Definition operand_cimmi : operand := simm_operand_t 6 [Sg 12 12 [B 5 5]; Sg 6 2 [B 4 0]].
Definition operand_cnzimmi : operand := simm_operand_t 6 [Sg 12 12 [B 5 5]; Sg 6 2 [B 4 0]].
Definition operand_cimmui : operand := simm_operand_t 18 [Sg 12 12 [B 17 17]; Sg 6 2 [B 16 12]].
Definition operand_cimmlwsp : operand := uimm_operand_t 8 [Sg 12 12 [B 5 5]; Sg 6 2 [B 4 2; B 7 6]].
Definition operand_cimmldsp : operand := uimm_operand_t 9 [Sg 12 12 [B 5 5]; Sg 6 2 [B 4 3; B 8 6]].
Definition operand_cimmlqsp : operand := uimm_operand_t 10 [Sg 12 12 [B 5 5]; Sg 6 2 [B 4 4; B 9 6]].
Definition operand_cimm16sp : operand := simm_operand_t 10 [Sg 12 12 [B 9 9]; Sg 6 2 [B 4 4; B 6 6; B 8 7; B 5 5]].
Definition operand_cimmj : operand := simm_operand_t 12 [Sg 12 2 [B 11 11; B 4 4; B 9 8; B 10 10; B 6 6; B 7 7; B 3 1; B 5 5]].
Definition operand_cimmb : operand := simm_operand_t 9 [Sg 12 10 [B 8 8; B 4 3]; Sg 6 2 [B 7 6; B 2 1; B 5 5]].
Definition operand_cimmswsp : operand := uimm_operand_t 8 [Sg 12 7 [B 5 2; B 7 6]].
Definition operand_cimmsdsp : operand := uimm_operand_t 9 [Sg 12 7 [B 5 3; B 8 6]].
Definition operand_cimmsqsp : operand := uimm_operand_t 10 [Sg 12 7 [B 5 4; B 9 6]].
Definition operand_cimm4spn : operand := uimm_operand_t 10 [Sg 12 5 [B 5 4; B 9 6; B 2 2; B 3 3]].
Definition operand_cimmw : operand := uimm_operand_t 7 [Sg 12 10 [B 5 3]; Sg 6 5 [B 2 2; B 6 6]].
Definition operand_cimmd : operand := uimm_operand_t 8 [Sg 12 10 [B 5 3]; Sg 6 5 [B 7 6]].
Definition operand_cimmq : operand := uimm_operand_t 9 [Sg 12 10 [B 5 4; B 8 8]; Sg 6 5 [B 7 6]].

(** All of them. *)
Definition all_operands : list operand :=
  [operand_rd; operand_rs1; operand_rs2; operand_rs3;
   operand_frd; operand_frs1; operand_frs2; operand_frs3;
   operand_aq; operand_rl; operand_pred; operand_succ;
   operand_rm; operand_imm20; operand_oimm20; operand_jimm20;
   operand_imm12; operand_oimm12; operand_csr12; operand_simm12;
   operand_sbimm12; operand_zimm; operand_shamt5; operand_shamt6;
   operand_shamt7; operand_crd0; operand_crdq; operand_crs1q;
   operand_crs1rdq; operand_crs2q; operand_crd; operand_crs1;
   operand_crs1rd; operand_crs2; operand_cfrdq; operand_cfrs2q;
   operand_cfrs2; operand_cfrd; operand_cimmsh5; operand_cimmsh6;
   operand_cimmi; operand_cnzimmi; operand_cimmui; operand_cimmlwsp;
   operand_cimmldsp; operand_cimmlqsp; operand_cimm16sp; operand_cimmj;
   operand_cimmb; operand_cimmswsp; operand_cimmsdsp; operand_cimmsqsp;
   operand_cimm4spn; operand_cimmw; operand_cimmd; operand_cimmq].

(** ** Specification: pieces

    An operand is a list of pieces; the piece [(B n m, s)] says that bit [i]
    of the immediate, [m <= i <= n], is bit [i + s] of the instruction. *)
Fixpoint S_pieces (L : Z) (args : list brange) : list (brange * Z) :=
  match args with
  | [] => []
  | h :: t => (h, S_shift L h t) :: S_pieces L t
  end.

Definition pieces (segs : list segment) : list (brange * Z) :=
  flat_map (fun s => S_pieces (S_L s) (S_args s)) segs.

Definition in_piece (p : brange * Z) (i : Z) : bool := (B_m p.1 <=? i) && (i <=? B_n p.1).

Definition piece_ok (p : brange * Z) : bool :=
  (0 <=? B_m p.1) && (B_m p.1 <=? B_n p.1) && (B_n p.1 <=? 62) &&
  (0 <=? B_m p.1 + p.2) && (B_n p.1 + p.2 <=? 62).

Definition piece_eqb (p q : brange * Z) : bool :=
  (B_n p.1 =? B_n q.1) && (B_m p.1 =? B_m q.1) && (p.2 =? q.2).

(** Two pieces share no immediate bit and no instruction bit. *)
Definition apart (p q : brange * Z) : bool :=
  ((B_n p.1 <? B_m q.1) || (B_n q.1 <? B_m p.1)) &&
  ((B_n p.1 + p.2 <? B_m q.1 + q.2) || (B_n q.1 + q.2 <? B_m p.1 + p.2)).

Definition pieces_ok (l : list (brange * Z)) : bool :=
  forallb piece_ok l && forallb (fun p => forallb (fun q => piece_eqb p q || apart p q) l) l.

(** A segment's bit ranges fill its instruction bits [K..L] exactly. *)
Definition seg_exact (s : segment) : bool := S_offset (S_args s) =? S_K s - S_L s + 1.

Definition operand_ok (o : operand) : bool :=
  (0 <? op_width o) && (op_width o <=? 62) &&
  forallb seg_exact (op_segs o) && pieces_ok (pieces (op_segs o)) &&
  forallb (fun p => B_n p.1 <? op_width o) (pieces (op_segs o)).

(** The immediate bits and the instruction bits of an operand. *)
Definition imm_mask (o : operand) : Z :=
  fold_right (fun p acc => Z.lor (B_mask p.1) acc) 0 (pieces (op_segs o)).

Definition inst_mask (o : operand) : Z :=
  fold_right (fun p acc =>
      Z.lor (if p.2 <? 0 then Z.shiftr (B_mask p.1) (- p.2)
             else Z.shiftl (B_mask p.1) p.2) acc) 0 (pieces (op_segs o)).

(** The immediates an operand can represent. *)
Definition operand_valid (o : operand) (imm : Z) : bool :=
  match op_type o with
  | R_s64 => swrap (op_width o) (Z.land (u64 imm) (imm_mask o)) =? imm
  | R_u64 => Z.land imm (imm_mask o) =? imm
  end.

Lemma operands_ok : forallb operand_ok all_operands = true.
Proof. vm_compute. reflexivity. Qed.

(** ** Bits of the masks, of [decode] and of [encode] *)
Lemma ones_sub1 n : 0 <= n <= 63 -> u64 (u64 (Z.shiftl 1 n) - 1) = Z.ones n.
Proof.
  intros Hn. pose proof (Z.pow_pos_nonneg 2 n ltac:(lia) ltac:(lia)).
  pose proof (Z.pow_lt_mono_r 2 n 64 ltac:(lia) ltac:(lia) ltac:(lia)).
  rewrite Z.shiftl_1_l, (wrap_small 64 (2 ^ n)) by lia.
  rewrite wrap_small by lia. rewrite Z.ones_equiv. lia.
Qed.

Lemma B_mask_spec p i :
  piece_ok p = true -> 0 <= i -> Z.testbit (B_mask p.1) i = in_piece p i.
Proof.
  unfold piece_ok, B_mask, in_piece. intros H Hi. bool_hyps.
  rewrite !ones_sub1 by lia. rewrite Z.lxor_spec, !Z.testbit_ones_nonneg by lia.
  destruct (Z.ltb_spec i (B_n p.1 + 1)), (Z.ltb_spec i (B_m p.1)),
    (Z.leb_spec (B_m p.1) i), (Z.leb_spec i (B_n p.1)); simpl; auto; lia.
Qed.

Definition sel_decode (inst i : Z) (p : brange * Z) : bool :=
  in_piece p i && Z.testbit inst (i + p.2).

Definition sel_encode (imm j : Z) (p : brange * Z) : bool :=
  in_piece p (j - p.2) && Z.testbit imm (j - p.2).

Lemma piece_decode_spec p inst i :
  piece_ok p = true -> 0 <= i ->
  Z.testbit (Z.land (if p.2 <? 0 then u64 (Z.shiftl inst (- p.2)) else Z.shiftr inst p.2)
                    (B_mask p.1)) i = sel_decode inst i p.
Proof.
  intros H Hi. rewrite Z.land_spec, B_mask_spec by assumption. unfold sel_decode.
  destruct (in_piece p i) eqn:E; [| apply andb_false_r].
  rewrite andb_true_r. simpl. unfold piece_ok, in_piece in *. bool_hyps. destr_ltb.
  - rewrite wrap_spec by lia. rewrite Z.shiftl_spec by lia.
    replace (i - - p.2) with (i + p.2) by lia.
    destruct (Z.ltb_spec i 64); [reflexivity | lia].
  - rewrite Z.shiftr_spec by lia. reflexivity.
Qed.

Lemma piece_encode_spec p imm j :
  piece_ok p = true -> 0 <= j ->
  Z.testbit (if p.2 <? 0 then Z.shiftr (Z.land imm (B_mask p.1)) (- p.2)
             else u64 (Z.shiftl (Z.land imm (B_mask p.1)) p.2)) j = sel_encode imm j p.
Proof.
  intros H Hj. unfold sel_encode. assert (H' := H). unfold piece_ok in H'. bool_hyps.
  destr_ltb.
  - rewrite Z.shiftr_spec, Z.land_spec, B_mask_spec by (assumption || lia).
    replace (j + - p.2) with (j - p.2) by lia. apply andb_comm.
  - rewrite wrap_spec by lia. rewrite Z.shiftl_spec by lia.
    destruct (Z.ltb_spec (j - p.2) 0).
    { rewrite !(Z.testbit_neg_r _ (j - p.2)) by lia. rewrite !andb_false_r. reflexivity. }
    rewrite Z.land_spec, B_mask_spec by (assumption || lia).
    destruct (in_piece p (j - p.2)) eqn:E; [| rewrite !andb_false_r; reflexivity].
    unfold in_piece in E. bool_hyps.
    destruct (Z.ltb_spec j 64); [rewrite andb_true_r; reflexivity | lia].
Qed.

Lemma S_decode_spec L args inst i :
  forallb piece_ok (S_pieces L args) = true -> 0 <= i ->
  Z.testbit (S_decode L args inst) i = existsb (sel_decode inst i) (S_pieces L args).
Proof.
  intros H Hi. induction args as [| h t IH]; [apply Z.testbit_0_l |].
  cbn [S_pieces forallb] in H. bool_hyps. cbn [S_decode S_pieces existsb].
  rewrite Z.lor_spec, IH by assumption. f_equal.
  apply (piece_decode_spec (h, S_shift L h t)); assumption.
Qed.

Lemma S_encode_spec L args imm j :
  forallb piece_ok (S_pieces L args) = true -> 0 <= j ->
  Z.testbit (S_encode L args imm) j = existsb (sel_encode imm j) (S_pieces L args).
Proof.
  intros H Hj. induction args as [| h t IH]; [apply Z.testbit_0_l |].
  cbn [S_pieces forallb] in H. bool_hyps. cbn [S_encode S_pieces existsb].
  rewrite Z.lor_spec, IH by assumption. f_equal.
  apply (piece_encode_spec (h, S_shift L h t)); assumption.
Qed.

(** A number whose bits from 63 up are clear is not changed by the
    conversions to [s64] and [u64]. *)
Lemma high_bits_range z :
  (forall i, 63 <= i -> Z.testbit z i = false) -> 0 <= z < 2 ^ 63.
Proof.
  intros H. replace z with (wrap 63 z); [apply wrap_range; lia |].
  apply Z.bits_inj'. intros i Hi. rewrite wrap_spec by lia.
  destruct (Z.ltb_spec i 63); [reflexivity | symmetry; apply H; lia].
Qed.

Lemma R_conv_small R z : 0 <= z < 2 ^ 63 -> R_conv R z = z.
Proof. intros H. destruct R; [apply swrap_small | apply wrap_small]; simpl in *; lia. Qed.

Lemma sel_decode_high inst i l :
  forallb piece_ok l = true -> 63 <= i -> existsb (sel_decode inst i) l = false.
Proof.
  induction l as [| p l IH]; simpl; intros H Hi; [reflexivity |]. bool_hyps.
  rewrite IH by assumption. unfold sel_decode, piece_ok, in_piece in *. bool_hyps.
  destruct (Z.leb_spec i (B_n p.1)); [lia |]. rewrite andb_false_r. reflexivity.
Qed.

Lemma sel_encode_high imm j l :
  forallb piece_ok l = true -> 63 <= j -> existsb (sel_encode imm j) l = false.
Proof.
  induction l as [| p l IH]; simpl; intros H Hi; [reflexivity |]. bool_hyps.
  rewrite IH by assumption. unfold sel_encode, piece_ok, in_piece in *. bool_hyps.
  destruct (Z.leb_spec (j - p.2) (B_n p.1)); [lia |]. rewrite andb_false_r. reflexivity.
Qed.

Lemma forallb_app_inv {A} (f : A -> bool) l1 l2 :
  forallb f (l1 ++ l2) = true -> forallb f l1 = true /\ forallb f l2 = true.
Proof. rewrite forallb_app. apply andb_true_iff. Qed.

Lemma imm_decode_spec R segs inst i :
  forallb piece_ok (pieces segs) = true -> 0 <= i ->
  Z.testbit (imm_decode R segs inst) i = existsb (sel_decode inst i) (pieces segs).
Proof.
  intros H. revert i. induction segs as [| s segs IH]; intros i Hi; [apply Z.testbit_0_l |].
  change (pieces (s :: segs)) with (S_pieces (S_L s) (S_args s) ++ pieces segs) in *.
  apply forallb_app_inv in H as [H1 H2].
  assert (Hraw : forall k, 0 <= k ->
    Z.testbit (Z.lor (imm_decode R segs inst) (S_decode (S_L s) (S_args s) inst)) k =
    existsb (sel_decode inst k) (S_pieces (S_L s) (S_args s) ++ pieces segs)).
  { intros k Hk. rewrite Z.lor_spec, existsb_app, S_decode_spec, IH by assumption.
    apply orb_comm. }
  assert (Hr : 0 <= imm_decode R segs inst < 2 ^ 63).
  { apply high_bits_range. intros k Hk. rewrite IH by (assumption || lia).
    apply sel_decode_high; assumption. }
  cbn [imm_decode]. rewrite (wrap_small 64) by lia. rewrite R_conv_small; [auto |].
  apply high_bits_range. intros k Hk. rewrite Hraw by lia.
  apply sel_decode_high; [rewrite forallb_app, H1, H2; reflexivity | assumption].
Qed.

Lemma imm_encode_spec R segs imm j :
  forallb piece_ok (pieces segs) = true -> 0 <= j ->
  Z.testbit (imm_encode R segs imm) j = existsb (sel_encode imm j) (pieces segs).
Proof.
  intros H. revert j. induction segs as [| s segs IH]; intros j Hj; [apply Z.testbit_0_l |].
  change (pieces (s :: segs)) with (S_pieces (S_L s) (S_args s) ++ pieces segs) in *.
  apply forallb_app_inv in H as [H1 H2].
  assert (Hraw : forall k, 0 <= k ->
    Z.testbit (Z.lor (imm_encode R segs imm) (S_encode (S_L s) (S_args s) imm)) k =
    existsb (sel_encode imm k) (S_pieces (S_L s) (S_args s) ++ pieces segs)).
  { intros k Hk. rewrite Z.lor_spec, existsb_app, S_encode_spec, IH by assumption.
    apply orb_comm. }
  assert (Hr : 0 <= imm_encode R segs imm < 2 ^ 63).
  { apply high_bits_range. intros k Hk. rewrite IH by (assumption || lia).
    apply sel_encode_high; assumption. }
  cbn [imm_encode]. rewrite (wrap_small 64) by lia. rewrite R_conv_small; [auto |].
  apply high_bits_range. intros k Hk. rewrite Hraw by lia.
  apply sel_encode_high; [rewrite forallb_app, H1, H2; reflexivity | assumption].
Qed.

Lemma imm_mask_spec o i :
  forallb piece_ok (pieces (op_segs o)) = true -> 0 <= i ->
  Z.testbit (imm_mask o) i = existsb (fun p => in_piece p i) (pieces (op_segs o)).
Proof.
  unfold imm_mask. generalize (pieces (op_segs o)) as l. intros l H Hi.
  induction l as [| p l IH]; simpl in *; [apply Z.testbit_0_l |]. bool_hyps.
  rewrite Z.lor_spec, B_mask_spec, IH by assumption. reflexivity.
Qed.

Lemma inst_mask_spec o j :
  forallb piece_ok (pieces (op_segs o)) = true -> 0 <= j ->
  Z.testbit (inst_mask o) j = existsb (fun p => in_piece p (j - p.2)) (pieces (op_segs o)).
Proof.
  unfold inst_mask. generalize (pieces (op_segs o)) as l. intros l H Hj.
  induction l as [| p l IH]; simpl in *; [apply Z.testbit_0_l |]. bool_hyps.
  rewrite Z.lor_spec, IH by assumption. f_equal. destr_ltb.
  - rewrite Z.shiftr_spec, B_mask_spec by (assumption || lia). reflexivity.
  - rewrite Z.shiftl_spec by lia. destruct (Z.ltb_spec (j - p.2) 0).
    + rewrite Z.testbit_neg_r by lia. unfold piece_ok, in_piece in *. bool_hyps.
      destruct (Z.leb_spec (B_m p.1) (j - p.2)); [lia | reflexivity].
    + rewrite B_mask_spec by (assumption || lia). reflexivity.
Qed.

(** ** The general facts about one operand *)
Section Operand_facts.
Context (o : operand) (Hok : operand_ok o = true).

Abbreviation ps := (pieces (op_segs o)).

Lemma ok_pieces : forallb piece_ok ps = true.
Proof using Hok. unfold operand_ok, pieces_ok in Hok. bool_hyps. assumption. Qed.

Lemma ok_apart p q : In p ps -> In q ps -> piece_eqb p q = true \/ apart p q = true.
Proof using Hok.
  unfold operand_ok, pieces_ok in Hok. bool_hyps. intros Hp Hq.
  match goal with H : forallb (fun p => forallb _ _) _ = true |- _ =>
    rewrite forallb_forall in H; specialize (H p Hp); rewrite forallb_forall in H;
    specialize (H q Hq) end.
  apply orb_true_iff. assumption.
Qed.

Lemma ok_width p : In p ps -> B_n p.1 < op_width o.
Proof using Hok.
  unfold operand_ok in Hok. bool_hyps. intros Hp.
  match goal with H : forallb (fun p => _ <? _) _ = true |- _ =>
    rewrite forallb_forall in H; specialize (H p Hp) end. bool_hyps. lia.
Qed.

Lemma width_pos : 0 < op_width o <= 62.
Proof using Hok. unfold operand_ok in Hok. bool_hyps. lia. Qed.

(** Decoding is monotone in the instruction bits. *)
Lemma imm_decode_lor R a b :
  imm_decode R (op_segs o) (Z.lor a b) =
  Z.lor (imm_decode R (op_segs o) a) (imm_decode R (op_segs o) b).
Proof using Hok.
  bitwise i Hi. rewrite !imm_decode_spec by (assumption || apply ok_pieces).
  rewrite <- existsb_orb. apply existsb_ext. intros p _. unfold sel_decode.
  rewrite Z.lor_spec. apply andb_orb_distrib_r.
Qed.

Lemma imm_decode_disjoint R a :
  Z.land a (inst_mask o) = 0 -> imm_decode R (op_segs o) a = 0.
Proof using Hok.
  intros H. bitwise i Hi. rewrite imm_decode_spec by (assumption || apply ok_pieces).
  rewrite Z.testbit_0_l. apply not_true_iff_false. rewrite existsb_exists.
  intros (p & Hp & E). unfold sel_decode in E. bool_hyps.
  assert (Hpp := ok_pieces). rewrite forallb_forall in Hpp. specialize (Hpp p Hp).
  assert (0 <= i + p.2) by (unfold piece_ok, in_piece in *; bool_hyps; lia).
  apply (f_equal (fun z => Z.testbit z (i + p.2))) in H.
  rewrite Z.land_spec, Z.testbit_0_l, inst_mask_spec in H by (assumption || apply ok_pieces).
  enough (existsb (fun q => in_piece q (i + p.2 - q.2)) ps = true) by
    (destruct (Z.testbit a (i + p.2)); simpl in *; congruence).
  apply existsb_exists. exists p. split; [assumption |].
  replace (i + p.2 - p.2) with i by lia. assumption.
Qed.

(** Encoding sets no bit outside the operand's instruction bits. *)
Lemma imm_encode_in_mask R imm :
  Z.land (imm_encode R (op_segs o) imm) (inst_mask o) = imm_encode R (op_segs o) imm.
Proof using Hok.
  bitwise j Hj. rewrite imm_encode_spec, inst_mask_spec by (assumption || apply ok_pieces).
  destruct (existsb (sel_encode imm j) ps) eqn:E; [simpl | reflexivity].
  apply existsb_exists in E as (p & Hp & E). unfold sel_encode in E. bool_hyps.
  apply existsb_exists. exists p. auto.
Qed.

(** Two pieces that meet at an instruction bit (an immediate bit) are one. *)
Lemma same_inst_piece p q j :
  In p ps -> In q ps -> in_piece p (j - p.2) = true -> in_piece q (j - q.2) = true ->
  p.2 = q.2.
Proof using Hok.
  intros Hp Hq H1 H2. destruct (ok_apart p q Hp Hq) as [H | H];
    unfold piece_eqb, apart, in_piece in *; bool_hyps; [assumption |].
  match goal with H : _ || _ = true |- _ => apply orb_true_iff in H as [H | H]; bool_hyps; lia end.
Qed.

Lemma same_imm_piece p q i :
  In p ps -> In q ps -> in_piece p i = true -> in_piece q i = true -> p.2 = q.2.
Proof using Hok.
  intros Hp Hq H1 H2. destruct (ok_apart p q Hp Hq) as [H | H];
    unfold piece_eqb, apart, in_piece in *; bool_hyps; [assumption |].
  match goal with H : (_ <? _) || _ = true |- _ =>
    apply orb_true_iff in H as [H | H]; bool_hyps; lia end.
Qed.

(** Decoding an encoded immediate returns the immediate's bits. *)
Lemma imm_decode_encode R R' imm :
  imm_decode R (op_segs o) (imm_encode R' (op_segs o) imm) = Z.land imm (imm_mask o).
Proof using Hok.
  bitwise i Hi. rewrite imm_decode_spec, imm_mask_spec by (assumption || apply ok_pieces).
  rewrite andb_comm, <- existsb_andb_r. apply existsb_ext. intros p Hp. unfold sel_decode.
  destruct (in_piece p i) eqn:E; [simpl | reflexivity].
  assert (Hpp := ok_pieces). rewrite forallb_forall in Hpp. specialize (Hpp p Hp).
  assert (0 <= i + p.2) by (unfold piece_ok, in_piece in *; bool_hyps; lia).
  rewrite imm_encode_spec by (assumption || apply ok_pieces).
  destruct (existsb (sel_encode imm (i + p.2)) ps) eqn:Ex.
  - apply existsb_exists in Ex as (q & Hq & Eq). unfold sel_encode in Eq. bool_hyps.
    assert (p.2 = q.2) as Hs.
    { apply (same_inst_piece p q (i + p.2)); auto.
      replace (i + p.2 - p.2) with i by lia. assumption. }
    replace (i + p.2 - q.2) with i in * by lia. congruence.
  - symmetry. apply not_true_iff_false. intros Ht. apply not_true_iff_false in Ex.
    apply Ex, existsb_exists. exists p. unfold sel_encode.
    replace (i + p.2 - p.2) with i by lia. rewrite E, Ht. auto.
Qed.

(** Encoding a decoded instruction returns the operand's instruction bits. *)
Lemma imm_encode_decode R R' inst :
  imm_encode R (op_segs o) (imm_decode R' (op_segs o) inst) = Z.land inst (inst_mask o).
Proof using Hok.
  bitwise j Hj. rewrite imm_encode_spec, inst_mask_spec by (assumption || apply ok_pieces).
  rewrite andb_comm, <- existsb_andb_r. apply existsb_ext. intros p Hp. unfold sel_encode.
  destruct (in_piece p (j - p.2)) eqn:E; [simpl | reflexivity].
  assert (Hpp := ok_pieces). rewrite forallb_forall in Hpp. specialize (Hpp p Hp).
  assert (0 <= j - p.2) by (unfold piece_ok, in_piece in *; bool_hyps; lia).
  rewrite imm_decode_spec by (assumption || apply ok_pieces).
  destruct (existsb (sel_decode inst (j - p.2)) ps) eqn:Ex.
  - apply existsb_exists in Ex as (q & Hq & Eq). unfold sel_decode in Eq. bool_hyps.
    assert (p.2 = q.2) as Hs by (apply (same_imm_piece p q (j - p.2)); auto).
    replace (j - p.2 + q.2) with j in * by lia. congruence.
  - symmetry. apply not_true_iff_false. intros Ht. apply not_true_iff_false in Ex.
    apply Ex, existsb_exists. exists p. unfold sel_decode.
    replace (j - p.2 + p.2) with j by lia. rewrite E, Ht. auto.
Qed.
End Operand_facts.

(** ** Which immediates are valid

    The immediate bits of every operand are contiguous, [op_width - 1] down
    to [operand_align]; the bits below are zero in every valid immediate. *)
Definition operand_align (o : operand) : Z :=
  fold_right (fun p acc => Z.min (B_m p.1) acc) (op_width o) (pieces (op_segs o)).

Definition mask_contiguous (o : operand) : bool :=
  (0 <=? operand_align o) && (operand_align o <=? op_width o) &&
  (imm_mask o =? Z.shiftl (Z.ones (op_width o - operand_align o)) (operand_align o)).

Lemma masks_contiguous : forallb mask_contiguous all_operands = true.
Proof. vm_compute. reflexivity. Qed.

Definition operand_range (o : operand) (imm : Z) : Prop :=
  match op_type o with
  | R_s64 => - 2 ^ (op_width o - 1) <= imm < 2 ^ (op_width o - 1)
  | R_u64 => 0 <= imm < 2 ^ op_width o
  end.

Lemma land_contiguous a W k :
  0 < W -> 0 <= k <= W ->
  Z.land a (Z.shiftl (Z.ones (W - k)) k) = wrap W (a - a mod 2 ^ k).
Proof.
  intros HW Hk. pose proof (Z.pow_pos_nonneg 2 k ltac:(lia) ltac:(lia)).
  replace (a - a mod 2 ^ k) with (Z.shiftl (Z.shiftr a k) k).
  2: { rewrite Z.shiftl_mul_pow2, Z.shiftr_div_pow2 by lia.
       pose proof (Z.div_mod a (2 ^ k) ltac:(lia)). lia. }
  bitwise i Hi. rewrite wrap_spec, !Z.shiftl_spec by lia.
  destruct (Z.ltb_spec i k).
  { rewrite !(Z.testbit_neg_r _ (i - k)) by lia. rewrite !andb_false_r. reflexivity. }
  rewrite Z.testbit_ones_nonneg, Z.shiftr_spec by lia.
  replace (i - k + k) with i by lia.
  destruct (Z.ltb_spec (i - k) (W - k)), (Z.ltb_spec i W); try lia;
    rewrite ?andb_true_r, ?andb_false_r; reflexivity.
Qed.

Lemma align_sub_wrap W k imm :
  0 < W <= 62 -> 0 <= k <= W ->
  wrap W (u64 imm - u64 imm mod 2 ^ k) = wrap W (imm - imm mod 2 ^ k).
Proof.
  intros HW Hk. rewrite <- !(land_contiguous _ W k) by lia.
  bitwise i Hi. rewrite wrap_spec, !Z.shiftl_spec by lia.
  destruct (Z.ltb_spec i 64); [reflexivity |].
  rewrite Z.testbit_ones_nonneg by lia.
  destruct (Z.ltb_spec (i - k) (W - k)); [lia |]. rewrite !andb_false_r. reflexivity.
Qed.

Lemma aligned_sub W k imm :
  0 < W -> 0 <= k <= W -> wrap W (imm - imm mod 2 ^ k) = wrap W imm -> imm mod 2 ^ k = 0.
Proof.
  intros HW Hk H. pose proof (Z.pow_pos_nonneg 2 k ltac:(lia) ltac:(lia)) as Hp.
  pose proof (Z.mod_pos_bound imm (2 ^ k) Hp).
  pose proof (Z.pow_le_mono_r 2 k W ltac:(lia) ltac:(lia)).
  assert (wrap W (imm mod 2 ^ k) = 0) as Hz.
  { replace (imm mod 2 ^ k) with (imm - (imm - imm mod 2 ^ k)) by lia.
    rewrite <- wrap_sub_l, <- wrap_sub_r, H, wrap_sub_l, wrap_sub_r, Z.sub_diag.
    apply Z.mod_0_l. lia. }
  destruct (Z.eq_dec (imm mod 2 ^ k) 0); [assumption |].
  rewrite wrap_small in Hz; [lia |].
  destruct (Z.eq_dec k W); [subst; lia | lia].
Qed.

(** ** Round trips, for every operand of the table *)
Section Operand_round_trips.
Context (o : operand) (Ho : In o all_operands).

Lemma all_operand_ok : operand_ok o = true.
Proof using Ho. pose proof operands_ok as H. rewrite forallb_forall in H. auto. Qed.

Lemma inst_mask_pieces_lt a p :
  In p (pieces (op_segs o)) -> in_piece p a = true -> 0 <= a < op_width o.
Proof using Ho.
  intros Hp Hi. pose proof (ok_width o all_operand_ok p Hp).
  pose proof (ok_pieces o all_operand_ok) as Hpp. rewrite forallb_forall in Hpp.
  specialize (Hpp p Hp). unfold piece_ok, in_piece in *. bool_hyps. lia.
Qed.

(** Encoding only reads the operand's immediate bits. *)
Lemma imm_encode_ext R a b :
  (forall i, 0 <= i < op_width o -> Z.testbit a i = Z.testbit b i) ->
  imm_encode R (op_segs o) a = imm_encode R (op_segs o) b.
Proof using Ho.
  intros H. bitwise j Hj.
  rewrite !imm_encode_spec by (assumption || apply ok_pieces, all_operand_ok).
  apply existsb_ext. intros p Hp. unfold sel_encode.
  destruct (in_piece p (j - p.2)) eqn:E; [simpl | reflexivity].
  apply H. eapply inst_mask_pieces_lt; eauto.
Qed.

Lemma operand_valid_unsigned imm :
  op_type o = R_u64 -> operand_valid o imm = true -> 0 <= imm < 2 ^ 63.
Proof using Ho.
  unfold operand_valid. intros -> H. bool_hyps. rewrite <- H.
  apply high_bits_range. intros i Hi. rewrite Z.land_spec, imm_mask_spec
    by (lia || apply ok_pieces, all_operand_ok).
  apply andb_false_iff. right. apply not_true_iff_false. rewrite existsb_exists.
  intros (p & Hp & E). pose proof (inst_mask_pieces_lt i p Hp E).
  pose proof (width_pos o all_operand_ok). lia.
Qed.

(** Decoding an instruction word that holds an encoded immediate, whatever
    the other bits are. *)
Lemma operand_decode_lor_encode rest imm :
  Z.land rest (inst_mask o) = 0 -> operand_valid o imm = true ->
  operand_decode o (Z.lor rest (operand_encode o imm)) = imm.
Proof using Ho.
  intros Hr Hv. pose proof all_operand_ok as Hok. unfold operand_decode, operand_encode.
  assert (E : forall R, imm_decode R (op_segs o)
      (Z.lor rest (imm_encode (op_type o) (op_segs o) (u64 imm))) =
      Z.land (u64 imm) (imm_mask o)).
  { intros R. rewrite imm_decode_lor, imm_decode_disjoint, imm_decode_encode by assumption.
    apply Z.lor_0_l. }
  rewrite !E. destruct (op_type o) eqn:ET.
  - unfold operand_valid in Hv. rewrite ET in Hv. bool_hyps. exact Hv.
  - pose proof (operand_valid_unsigned imm ET Hv). unfold operand_valid in Hv.
    rewrite ET in Hv. bool_hyps. rewrite (wrap_small 64) by lia. exact Hv.
Qed.

Lemma operand_encode_in_mask imm :
  Z.land (operand_encode o imm) (inst_mask o) = operand_encode o imm.
Proof using Ho. apply imm_encode_in_mask, all_operand_ok. Qed.

Lemma operand_encode_decode_mask inst :
  operand_encode o (operand_decode o inst) = Z.land inst (inst_mask o).
Proof using Ho.
  pose proof all_operand_ok as Hok. unfold operand_encode, operand_decode.
  rewrite <- (imm_encode_decode o Hok (op_type o) (op_type o)).
  apply imm_encode_ext. intros i Hi. pose proof (width_pos o Hok).
  rewrite wrap_spec by lia. destruct (Z.ltb_spec i 64); [simpl | lia].
  destruct (op_type o); [| reflexivity].
  unfold sign_extend. rewrite swrap_spec by lia. rewrite Z.min_l by lia. reflexivity.
Qed.

Lemma operand_valid_spec imm :
  operand_valid o imm = true <-> operand_range o imm /\ imm mod 2 ^ operand_align o = 0.
Proof using Ho.
  pose proof (width_pos o all_operand_ok) as HW. pose proof masks_contiguous as HC.
  rewrite forallb_forall in HC. specialize (HC o Ho). unfold mask_contiguous in HC. bool_hyps.
  unfold operand_valid, operand_range.
  match goal with H : imm_mask o = _ |- _ => rewrite H end.
  rewrite !land_contiguous by lia. rewrite align_sub_wrap by lia.
  destruct (op_type o); rewrite Z.eqb_eq, ?swrap_wrap; split.
  - intros Hv. split; [rewrite <- Hv; apply swrap_range; lia |].
    apply (aligned_sub (op_width o)); [lia | lia |].
    rewrite <- (wrap_swrap _ (imm - _)), Hv. reflexivity.
  - intros [Hr ->]. rewrite Z.sub_0_r. apply swrap_small; lia.
  - intros Hv. split; [rewrite <- Hv; apply wrap_range; lia |].
    apply (aligned_sub (op_width o)); [lia | lia |]. rewrite Hv.
    symmetry. rewrite <- Hv at 1. rewrite wrap_wrap. assumption.
  - intros [Hr ->]. rewrite Z.sub_0_r. apply wrap_small; lia.
Qed.
End Operand_round_trips.

(** ** What decoding returns *)
Section Operand_decoded.
Context (o : operand) (Ho : In o all_operands).

Lemma imm_decode_in_mask R inst :
  Z.land (imm_decode R (op_segs o) inst) (imm_mask o) = imm_decode R (op_segs o) inst.
Proof using Ho.
  pose proof (ok_pieces o (all_operand_ok o Ho)) as Hp. bitwise i Hi.
  rewrite imm_decode_spec, imm_mask_spec by assumption.
  destruct (existsb (sel_decode inst i) _) eqn:E; [simpl | reflexivity].
  apply existsb_exists in E as (p & Hin & E). unfold sel_decode in E. bool_hyps.
  apply existsb_exists. exists p. auto.
Qed.

Lemma imm_mask_wrap x :
  Z.land (wrap (op_width o) x) (imm_mask o) = Z.land x (imm_mask o).
Proof using Ho.
  pose proof (all_operand_ok o Ho) as Hok. pose proof (width_pos o Hok). bitwise i Hi.
  rewrite wrap_spec, imm_mask_spec by (lia || apply ok_pieces, Hok).
  destruct (existsb _ _) eqn:E; [| rewrite !andb_false_r; reflexivity].
  apply existsb_exists in E as (p & Hin & E).
  pose proof (inst_mask_pieces_lt o Ho i p Hin E).
  destruct (Z.ltb_spec i (op_width o)); [reflexivity | lia].
Qed.

(** Every decoded immediate is one the operand can represent. *)
Lemma operand_decode_valid inst : operand_valid o (operand_decode o inst) = true.
Proof using Ho.
  pose proof (width_pos o (all_operand_ok o Ho)) as HW.
  unfold operand_valid, operand_decode, sign_extend. destruct (op_type o); apply Z.eqb_eq.
  - rewrite <- imm_mask_wrap, wrap_narrow, wrap_swrap, imm_mask_wrap by lia.
    rewrite imm_decode_in_mask. reflexivity.
  - apply imm_decode_in_mask.
Qed.

Lemma operand_decode_range inst : operand_range o (operand_decode o inst).
Proof using Ho. apply operand_valid_spec, operand_decode_valid; assumption. Qed.

(** Decoding reads the operand's instruction bits only. *)
Lemma operand_decode_masked a v :
  Z.land a (inst_mask o) = operand_encode o v -> operand_valid o v = true ->
  operand_decode o a = v.
Proof using Ho.
  intros Ha Hv. rewrite <- (operand_decode_lor_encode o Ho (Z.ldiff a (inst_mask o)) v);
    [| apply Z.bits_inj'; intros i Hi; rewrite Z.land_spec, Z.ldiff_spec, Z.testbit_0_l;
       destruct (Z.testbit a i), (Z.testbit (inst_mask o) i); reflexivity | assumption].
  rewrite <- Ha, Z.lor_ldiff_and. reflexivity.
Qed.

(** Encoding reads the low [op_width] bits of the immediate only. *)
Lemma operand_encode_mod a b :
  wrap (op_width o) a = wrap (op_width o) b -> operand_encode o a = operand_encode o b.
Proof using Ho.
  intros H. pose proof (width_pos o (all_operand_ok o Ho)). unfold operand_encode.
  apply (imm_encode_ext o Ho). intros i Hi.
  apply (f_equal (fun z => Z.testbit z i)) in H.
  rewrite !wrap_spec in * by lia. destruct (Z.ltb_spec i (op_width o)); [| lia].
  destruct (Z.ltb_spec i 64); [exact H | lia].
Qed.
End Operand_decoded.
