(* ===== verification/Meta.v ===== *)
(** * Meta: the ISA metadata of [asm/meta.h] and [asm/meta.cc].

    The enumerations are inductive types with the source's constructors; the
    arrays indexed by [rv_op] are functions of [rv_op].  An array of
    constraints ended by [rvc_end], or of [rv_comp_data] ended by a null
    constraint pointer, is the list of the entries before the end; a null
    pointer in a table of pointers is [None]. *)

From Stdlib Require Import ZArith List.
From stdpp Require Import base numbers list.
From S2P Require Import Prelude.

(** ** Enumerations *)

(** [enum rv_op]. *)
Inductive rv_op :=
  | rv_op_illegal | rv_op_lui | rv_op_auipc | rv_op_jal | rv_op_jalr | rv_op_beq | rv_op_bne
  | rv_op_blt | rv_op_bge | rv_op_bltu | rv_op_bgeu | rv_op_lb | rv_op_lh | rv_op_lw
  | rv_op_lbu | rv_op_lhu | rv_op_sb | rv_op_sh | rv_op_sw | rv_op_addi | rv_op_slti
  | rv_op_sltiu | rv_op_xori | rv_op_ori | rv_op_andi | rv_op_slli | rv_op_srli | rv_op_srai
  | rv_op_add | rv_op_sub | rv_op_sll | rv_op_slt | rv_op_sltu | rv_op_xor | rv_op_srl
  | rv_op_sra | rv_op_or | rv_op_and | rv_op_fence | rv_op_fence_i | rv_op_lwu | rv_op_ld
  | rv_op_sd | rv_op_addiw | rv_op_slliw | rv_op_srliw | rv_op_sraiw | rv_op_addw
  | rv_op_subw | rv_op_sllw | rv_op_srlw | rv_op_sraw | rv_op_ldu | rv_op_lq | rv_op_sq
  | rv_op_addid | rv_op_sllid | rv_op_srlid | rv_op_sraid | rv_op_addd | rv_op_subd
  | rv_op_slld | rv_op_srld | rv_op_srad | rv_op_mul | rv_op_mulh | rv_op_mulhsu
  | rv_op_mulhu | rv_op_div | rv_op_divu | rv_op_rem | rv_op_remu | rv_op_mulw | rv_op_divw
  | rv_op_divuw | rv_op_remw | rv_op_remuw | rv_op_muld | rv_op_divd | rv_op_divud
  | rv_op_remd | rv_op_remud | rv_op_lr_w | rv_op_sc_w | rv_op_amoswap_w | rv_op_amoadd_w
  | rv_op_amoxor_w | rv_op_amoor_w | rv_op_amoand_w | rv_op_amomin_w | rv_op_amomax_w
  | rv_op_amominu_w | rv_op_amomaxu_w | rv_op_lr_d | rv_op_sc_d | rv_op_amoswap_d
  | rv_op_amoadd_d | rv_op_amoxor_d | rv_op_amoor_d | rv_op_amoand_d | rv_op_amomin_d
  | rv_op_amomax_d | rv_op_amominu_d | rv_op_amomaxu_d | rv_op_lr_q | rv_op_sc_q
  | rv_op_amoswap_q | rv_op_amoadd_q | rv_op_amoxor_q | rv_op_amoor_q | rv_op_amoand_q
  | rv_op_amomin_q | rv_op_amomax_q | rv_op_amominu_q | rv_op_amomaxu_q | rv_op_ecall
  | rv_op_ebreak | rv_op_uret | rv_op_sret | rv_op_hret | rv_op_mret | rv_op_dret
  | rv_op_sfence_vm | rv_op_wfi | rv_op_csrrw | rv_op_csrrs | rv_op_csrrc | rv_op_csrrwi
  | rv_op_csrrsi | rv_op_csrrci | rv_op_flw | rv_op_fsw | rv_op_fmadd_s | rv_op_fmsub_s
  | rv_op_fnmsub_s | rv_op_fnmadd_s | rv_op_fadd_s | rv_op_fsub_s | rv_op_fmul_s
  | rv_op_fdiv_s | rv_op_fsgnj_s | rv_op_fsgnjn_s | rv_op_fsgnjx_s | rv_op_fmin_s
  | rv_op_fmax_s | rv_op_fsqrt_s | rv_op_fle_s | rv_op_flt_s | rv_op_feq_s | rv_op_fcvt_w_s
  | rv_op_fcvt_wu_s | rv_op_fcvt_s_w | rv_op_fcvt_s_wu | rv_op_fmv_x_s | rv_op_fclass_s
  | rv_op_fmv_s_x | rv_op_fcvt_l_s | rv_op_fcvt_lu_s | rv_op_fcvt_s_l | rv_op_fcvt_s_lu
  | rv_op_fld | rv_op_fsd | rv_op_fmadd_d | rv_op_fmsub_d | rv_op_fnmsub_d | rv_op_fnmadd_d
  | rv_op_fadd_d | rv_op_fsub_d | rv_op_fmul_d | rv_op_fdiv_d | rv_op_fsgnj_d
  | rv_op_fsgnjn_d | rv_op_fsgnjx_d | rv_op_fmin_d | rv_op_fmax_d | rv_op_fcvt_s_d
  | rv_op_fcvt_d_s | rv_op_fsqrt_d | rv_op_fle_d | rv_op_flt_d | rv_op_feq_d | rv_op_fcvt_w_d
  | rv_op_fcvt_wu_d | rv_op_fcvt_d_w | rv_op_fcvt_d_wu | rv_op_fclass_d | rv_op_fcvt_l_d
  | rv_op_fcvt_lu_d | rv_op_fmv_x_d | rv_op_fcvt_d_l | rv_op_fcvt_d_lu | rv_op_fmv_d_x
  | rv_op_flq | rv_op_fsq | rv_op_fmadd_q | rv_op_fmsub_q | rv_op_fnmsub_q | rv_op_fnmadd_q
  | rv_op_fadd_q | rv_op_fsub_q | rv_op_fmul_q | rv_op_fdiv_q | rv_op_fsgnj_q
  | rv_op_fsgnjn_q | rv_op_fsgnjx_q | rv_op_fmin_q | rv_op_fmax_q | rv_op_fcvt_s_q
  | rv_op_fcvt_q_s | rv_op_fcvt_d_q | rv_op_fcvt_q_d | rv_op_fsqrt_q | rv_op_fle_q
  | rv_op_flt_q | rv_op_feq_q | rv_op_fcvt_w_q | rv_op_fcvt_wu_q | rv_op_fcvt_q_w
  | rv_op_fcvt_q_wu | rv_op_fclass_q | rv_op_fcvt_l_q | rv_op_fcvt_lu_q | rv_op_fcvt_q_l
  | rv_op_fcvt_q_lu | rv_op_fmv_x_q | rv_op_fmv_q_x | rv_op_c_addi4spn | rv_op_c_fld
  | rv_op_c_lw | rv_op_c_flw | rv_op_c_fsd | rv_op_c_sw | rv_op_c_fsw | rv_op_c_nop
  | rv_op_c_addi | rv_op_c_jal | rv_op_c_li | rv_op_c_addi16sp | rv_op_c_lui | rv_op_c_srli
  | rv_op_c_srai | rv_op_c_andi | rv_op_c_sub | rv_op_c_xor | rv_op_c_or | rv_op_c_and
  | rv_op_c_subw | rv_op_c_addw | rv_op_c_j | rv_op_c_beqz | rv_op_c_bnez | rv_op_c_slli
  | rv_op_c_fldsp | rv_op_c_lwsp | rv_op_c_flwsp | rv_op_c_jr | rv_op_c_mv | rv_op_c_ebreak
  | rv_op_c_jalr | rv_op_c_add | rv_op_c_fsdsp | rv_op_c_swsp | rv_op_c_fswsp | rv_op_c_ld
  | rv_op_c_sd | rv_op_c_addiw | rv_op_c_ldsp | rv_op_c_sdsp | rv_op_c_lq | rv_op_c_sq
  | rv_op_c_lqsp | rv_op_c_sqsp | rv_op_nop | rv_op_mv | rv_op_not | rv_op_neg | rv_op_negw
  | rv_op_sext_w | rv_op_seqz | rv_op_snez | rv_op_sltz | rv_op_sgtz | rv_op_fmv_s
  | rv_op_fabs_s | rv_op_fneg_s | rv_op_fmv_d | rv_op_fabs_d | rv_op_fneg_d | rv_op_fmv_q
  | rv_op_fabs_q | rv_op_fneg_q | rv_op_beqz | rv_op_bnez | rv_op_blez | rv_op_bgez
  | rv_op_bltz | rv_op_bgtz | rv_op_ble | rv_op_bleu | rv_op_bgt | rv_op_bgtu | rv_op_j
  | rv_op_ret | rv_op_jr | rv_op_rdcycle | rv_op_rdtime | rv_op_rdinstret | rv_op_rdcycleh
  | rv_op_rdtimeh | rv_op_rdinstreth | rv_op_frcsr | rv_op_frrm | rv_op_frflags | rv_op_fscsr
  | rv_op_fsrm | rv_op_fsflags | rv_op_fsrmi | rv_op_fsflagsi.

(** [enum rv_codec]. *)
Inductive rv_codec :=
  | rv_codec_illegal | rv_codec_none | rv_codec_u | rv_codec_uj | rv_codec_i | rv_codec_i_sh5
  | rv_codec_i_sh6 | rv_codec_i_sh7 | rv_codec_i_csr | rv_codec_s | rv_codec_sb | rv_codec_r
  | rv_codec_r_m | rv_codec_r4_m | rv_codec_r_a | rv_codec_r_l | rv_codec_r_f | rv_codec_cb
  | rv_codec_cb_imm | rv_codec_cb_sh5 | rv_codec_cb_sh6 | rv_codec_ci | rv_codec_ci_sh5
  | rv_codec_ci_sh6 | rv_codec_ci_16sp | rv_codec_ci_lwsp | rv_codec_ci_ldsp
  | rv_codec_ci_lqsp | rv_codec_ci_li | rv_codec_ci_lui | rv_codec_ci_none
  | rv_codec_ciw_4spn | rv_codec_cj | rv_codec_cj_jal | rv_codec_cl_lw | rv_codec_cl_ld
  | rv_codec_cl_lq | rv_codec_cr | rv_codec_cr_mv | rv_codec_cr_jalr | rv_codec_cr_jr
  | rv_codec_cs | rv_codec_cs_sw | rv_codec_cs_sd | rv_codec_cs_sq | rv_codec_css_swsp
  | rv_codec_css_sdsp | rv_codec_css_sqsp.

(** [enum rvc_constraint]; the terminator [rvc_end] is the end of a list. *)
Inductive rvc_constraint :=
  | rvc_simm_6 | rvc_imm_6 | rvc_imm_7 | rvc_imm_8 | rvc_imm_9 | rvc_imm_10 | rvc_imm_12
  | rvc_imm_18 | rvc_imm_nz | rvc_imm_x2 | rvc_imm_x4 | rvc_imm_x8 | rvc_imm_x16 | rvc_rd_b3
  | rvc_rs1_b3 | rvc_rs2_b3 | rvc_rd_eq_rs1 | rvc_rd_eq_ra | rvc_rd_eq_sp | rvc_rd_eq_x0
  | rvc_rs1_eq_sp | rvc_rs1_eq_x0 | rvc_rs2_eq_x0 | rvc_rd_ne_x0_x2 | rvc_rd_ne_x0
  | rvc_rs1_ne_x0 | rvc_rs2_ne_x0 | rvc_rs2_eq_rs1 | rvc_rs1_eq_ra | rvc_imm_eq_zero
  | rvc_imm_eq_n1 | rvc_imm_eq_p1 | rvc_csr_eq_0x001 | rvc_csr_eq_0x002 | rvc_csr_eq_0x003
  | rvc_csr_eq_0xc00 | rvc_csr_eq_0xc01 | rvc_csr_eq_0xc02 | rvc_csr_eq_0xc80
  | rvc_csr_eq_0xc81 | rvc_csr_eq_0xc82.

(** The opcodes, in the order of their enumeration values. *)
Definition all_ops : list rv_op :=
  [rv_op_illegal; rv_op_lui; rv_op_auipc; rv_op_jal; rv_op_jalr; rv_op_beq; rv_op_bne;
   rv_op_blt; rv_op_bge; rv_op_bltu; rv_op_bgeu; rv_op_lb; rv_op_lh; rv_op_lw; rv_op_lbu;
   rv_op_lhu; rv_op_sb; rv_op_sh; rv_op_sw; rv_op_addi; rv_op_slti; rv_op_sltiu; rv_op_xori;
   rv_op_ori; rv_op_andi; rv_op_slli; rv_op_srli; rv_op_srai; rv_op_add; rv_op_sub;
   rv_op_sll; rv_op_slt; rv_op_sltu; rv_op_xor; rv_op_srl; rv_op_sra; rv_op_or; rv_op_and;
   rv_op_fence; rv_op_fence_i; rv_op_lwu; rv_op_ld; rv_op_sd; rv_op_addiw; rv_op_slliw;
   rv_op_srliw; rv_op_sraiw; rv_op_addw; rv_op_subw; rv_op_sllw; rv_op_srlw; rv_op_sraw;
   rv_op_ldu; rv_op_lq; rv_op_sq; rv_op_addid; rv_op_sllid; rv_op_srlid; rv_op_sraid;
   rv_op_addd; rv_op_subd; rv_op_slld; rv_op_srld; rv_op_srad; rv_op_mul; rv_op_mulh;
   rv_op_mulhsu; rv_op_mulhu; rv_op_div; rv_op_divu; rv_op_rem; rv_op_remu; rv_op_mulw;
   rv_op_divw; rv_op_divuw; rv_op_remw; rv_op_remuw; rv_op_muld; rv_op_divd; rv_op_divud;
   rv_op_remd; rv_op_remud; rv_op_lr_w; rv_op_sc_w; rv_op_amoswap_w; rv_op_amoadd_w;
   rv_op_amoxor_w; rv_op_amoor_w; rv_op_amoand_w; rv_op_amomin_w; rv_op_amomax_w;
   rv_op_amominu_w; rv_op_amomaxu_w; rv_op_lr_d; rv_op_sc_d; rv_op_amoswap_d;
   rv_op_amoadd_d; rv_op_amoxor_d; rv_op_amoor_d; rv_op_amoand_d; rv_op_amomin_d;
   rv_op_amomax_d; rv_op_amominu_d; rv_op_amomaxu_d; rv_op_lr_q; rv_op_sc_q;
   rv_op_amoswap_q; rv_op_amoadd_q; rv_op_amoxor_q; rv_op_amoor_q; rv_op_amoand_q;
   rv_op_amomin_q; rv_op_amomax_q; rv_op_amominu_q; rv_op_amomaxu_q; rv_op_ecall;
   rv_op_ebreak; rv_op_uret; rv_op_sret; rv_op_hret; rv_op_mret; rv_op_dret;
   rv_op_sfence_vm; rv_op_wfi; rv_op_csrrw; rv_op_csrrs; rv_op_csrrc; rv_op_csrrwi;
   rv_op_csrrsi; rv_op_csrrci; rv_op_flw; rv_op_fsw; rv_op_fmadd_s; rv_op_fmsub_s;
   rv_op_fnmsub_s; rv_op_fnmadd_s; rv_op_fadd_s; rv_op_fsub_s; rv_op_fmul_s; rv_op_fdiv_s;
   rv_op_fsgnj_s; rv_op_fsgnjn_s; rv_op_fsgnjx_s; rv_op_fmin_s; rv_op_fmax_s; rv_op_fsqrt_s;
   rv_op_fle_s; rv_op_flt_s; rv_op_feq_s; rv_op_fcvt_w_s; rv_op_fcvt_wu_s; rv_op_fcvt_s_w;
   rv_op_fcvt_s_wu; rv_op_fmv_x_s; rv_op_fclass_s; rv_op_fmv_s_x; rv_op_fcvt_l_s;
   rv_op_fcvt_lu_s; rv_op_fcvt_s_l; rv_op_fcvt_s_lu; rv_op_fld; rv_op_fsd; rv_op_fmadd_d;
   rv_op_fmsub_d; rv_op_fnmsub_d; rv_op_fnmadd_d; rv_op_fadd_d; rv_op_fsub_d; rv_op_fmul_d;
   rv_op_fdiv_d; rv_op_fsgnj_d; rv_op_fsgnjn_d; rv_op_fsgnjx_d; rv_op_fmin_d; rv_op_fmax_d;
   rv_op_fcvt_s_d; rv_op_fcvt_d_s; rv_op_fsqrt_d; rv_op_fle_d; rv_op_flt_d; rv_op_feq_d;
   rv_op_fcvt_w_d; rv_op_fcvt_wu_d; rv_op_fcvt_d_w; rv_op_fcvt_d_wu; rv_op_fclass_d;
   rv_op_fcvt_l_d; rv_op_fcvt_lu_d; rv_op_fmv_x_d; rv_op_fcvt_d_l; rv_op_fcvt_d_lu;
   rv_op_fmv_d_x; rv_op_flq; rv_op_fsq; rv_op_fmadd_q; rv_op_fmsub_q; rv_op_fnmsub_q;
   rv_op_fnmadd_q; rv_op_fadd_q; rv_op_fsub_q; rv_op_fmul_q; rv_op_fdiv_q; rv_op_fsgnj_q;
   rv_op_fsgnjn_q; rv_op_fsgnjx_q; rv_op_fmin_q; rv_op_fmax_q; rv_op_fcvt_s_q;
   rv_op_fcvt_q_s; rv_op_fcvt_d_q; rv_op_fcvt_q_d; rv_op_fsqrt_q; rv_op_fle_q; rv_op_flt_q;
   rv_op_feq_q; rv_op_fcvt_w_q; rv_op_fcvt_wu_q; rv_op_fcvt_q_w; rv_op_fcvt_q_wu;
   rv_op_fclass_q; rv_op_fcvt_l_q; rv_op_fcvt_lu_q; rv_op_fcvt_q_l; rv_op_fcvt_q_lu;
   rv_op_fmv_x_q; rv_op_fmv_q_x; rv_op_c_addi4spn; rv_op_c_fld; rv_op_c_lw; rv_op_c_flw;
   rv_op_c_fsd; rv_op_c_sw; rv_op_c_fsw; rv_op_c_nop; rv_op_c_addi; rv_op_c_jal; rv_op_c_li;
   rv_op_c_addi16sp; rv_op_c_lui; rv_op_c_srli; rv_op_c_srai; rv_op_c_andi; rv_op_c_sub;
   rv_op_c_xor; rv_op_c_or; rv_op_c_and; rv_op_c_subw; rv_op_c_addw; rv_op_c_j;
   rv_op_c_beqz; rv_op_c_bnez; rv_op_c_slli; rv_op_c_fldsp; rv_op_c_lwsp; rv_op_c_flwsp;
   rv_op_c_jr; rv_op_c_mv; rv_op_c_ebreak; rv_op_c_jalr; rv_op_c_add; rv_op_c_fsdsp;
   rv_op_c_swsp; rv_op_c_fswsp; rv_op_c_ld; rv_op_c_sd; rv_op_c_addiw; rv_op_c_ldsp;
   rv_op_c_sdsp; rv_op_c_lq; rv_op_c_sq; rv_op_c_lqsp; rv_op_c_sqsp; rv_op_nop; rv_op_mv;
   rv_op_not; rv_op_neg; rv_op_negw; rv_op_sext_w; rv_op_seqz; rv_op_snez; rv_op_sltz;
   rv_op_sgtz; rv_op_fmv_s; rv_op_fabs_s; rv_op_fneg_s; rv_op_fmv_d; rv_op_fabs_d;
   rv_op_fneg_d; rv_op_fmv_q; rv_op_fabs_q; rv_op_fneg_q; rv_op_beqz; rv_op_bnez;
   rv_op_blez; rv_op_bgez; rv_op_bltz; rv_op_bgtz; rv_op_ble; rv_op_bleu; rv_op_bgt;
   rv_op_bgtu; rv_op_j; rv_op_ret; rv_op_jr; rv_op_rdcycle; rv_op_rdtime; rv_op_rdinstret;
   rv_op_rdcycleh; rv_op_rdtimeh; rv_op_rdinstreth; rv_op_frcsr; rv_op_frrm; rv_op_frflags;
   rv_op_fscsr; rv_op_fsrm; rv_op_fsflags; rv_op_fsrmi; rv_op_fsflagsi].

(** The enumeration value of an opcode: the index into the tables. *)
Definition rv_op_num (op : rv_op) : Z :=
  match op with
  | rv_op_illegal => 0
  | rv_op_lui => 1
  | rv_op_auipc => 2
  | rv_op_jal => 3
  | rv_op_jalr => 4
  | rv_op_beq => 5
  | rv_op_bne => 6
  | rv_op_blt => 7
  | rv_op_bge => 8
  | rv_op_bltu => 9
  | rv_op_bgeu => 10
  | rv_op_lb => 11
  | rv_op_lh => 12
  | rv_op_lw => 13
  | rv_op_lbu => 14
  | rv_op_lhu => 15
  | rv_op_sb => 16
  | rv_op_sh => 17
  | rv_op_sw => 18
  | rv_op_addi => 19
  | rv_op_slti => 20
  | rv_op_sltiu => 21
  | rv_op_xori => 22
  | rv_op_ori => 23
  | rv_op_andi => 24
  | rv_op_slli => 25
  | rv_op_srli => 26
  | rv_op_srai => 27
  | rv_op_add => 28
  | rv_op_sub => 29
  | rv_op_sll => 30
  | rv_op_slt => 31
  | rv_op_sltu => 32
  | rv_op_xor => 33
  | rv_op_srl => 34
  | rv_op_sra => 35
  | rv_op_or => 36
  | rv_op_and => 37
  | rv_op_fence => 38
  | rv_op_fence_i => 39
  | rv_op_lwu => 40
  | rv_op_ld => 41
  | rv_op_sd => 42
  | rv_op_addiw => 43
  | rv_op_slliw => 44
  | rv_op_srliw => 45
  | rv_op_sraiw => 46
  | rv_op_addw => 47
  | rv_op_subw => 48
  | rv_op_sllw => 49
  | rv_op_srlw => 50
  | rv_op_sraw => 51
  | rv_op_ldu => 52
  | rv_op_lq => 53
  | rv_op_sq => 54
  | rv_op_addid => 55
  | rv_op_sllid => 56
  | rv_op_srlid => 57
  | rv_op_sraid => 58
  | rv_op_addd => 59
  | rv_op_subd => 60
  | rv_op_slld => 61
  | rv_op_srld => 62
  | rv_op_srad => 63
  | rv_op_mul => 64
  | rv_op_mulh => 65
  | rv_op_mulhsu => 66
  | rv_op_mulhu => 67
  | rv_op_div => 68
  | rv_op_divu => 69
  | rv_op_rem => 70
  | rv_op_remu => 71
  | rv_op_mulw => 72
  | rv_op_divw => 73
  | rv_op_divuw => 74
  | rv_op_remw => 75
  | rv_op_remuw => 76
  | rv_op_muld => 77
  | rv_op_divd => 78
  | rv_op_divud => 79
  | rv_op_remd => 80
  | rv_op_remud => 81
  | rv_op_lr_w => 82
  | rv_op_sc_w => 83
  | rv_op_amoswap_w => 84
  | rv_op_amoadd_w => 85
  | rv_op_amoxor_w => 86
  | rv_op_amoor_w => 87
  | rv_op_amoand_w => 88
  | rv_op_amomin_w => 89
  | rv_op_amomax_w => 90
  | rv_op_amominu_w => 91
  | rv_op_amomaxu_w => 92
  | rv_op_lr_d => 93
  | rv_op_sc_d => 94
  | rv_op_amoswap_d => 95
  | rv_op_amoadd_d => 96
  | rv_op_amoxor_d => 97
  | rv_op_amoor_d => 98
  | rv_op_amoand_d => 99
  | rv_op_amomin_d => 100
  | rv_op_amomax_d => 101
  | rv_op_amominu_d => 102
  | rv_op_amomaxu_d => 103
  | rv_op_lr_q => 104
  | rv_op_sc_q => 105
  | rv_op_amoswap_q => 106
  | rv_op_amoadd_q => 107
  | rv_op_amoxor_q => 108
  | rv_op_amoor_q => 109
  | rv_op_amoand_q => 110
  | rv_op_amomin_q => 111
  | rv_op_amomax_q => 112
  | rv_op_amominu_q => 113
  | rv_op_amomaxu_q => 114
  | rv_op_ecall => 115
  | rv_op_ebreak => 116
  | rv_op_uret => 117
  | rv_op_sret => 118
  | rv_op_hret => 119
  | rv_op_mret => 120
  | rv_op_dret => 121
  | rv_op_sfence_vm => 122
  | rv_op_wfi => 123
  | rv_op_csrrw => 124
  | rv_op_csrrs => 125
  | rv_op_csrrc => 126
  | rv_op_csrrwi => 127
  | rv_op_csrrsi => 128
  | rv_op_csrrci => 129
  | rv_op_flw => 130
  | rv_op_fsw => 131
  | rv_op_fmadd_s => 132
  | rv_op_fmsub_s => 133
  | rv_op_fnmsub_s => 134
  | rv_op_fnmadd_s => 135
  | rv_op_fadd_s => 136
  | rv_op_fsub_s => 137
  | rv_op_fmul_s => 138
  | rv_op_fdiv_s => 139
  | rv_op_fsgnj_s => 140
  | rv_op_fsgnjn_s => 141
  | rv_op_fsgnjx_s => 142
  | rv_op_fmin_s => 143
  | rv_op_fmax_s => 144
  | rv_op_fsqrt_s => 145
  | rv_op_fle_s => 146
  | rv_op_flt_s => 147
  | rv_op_feq_s => 148
  | rv_op_fcvt_w_s => 149
  | rv_op_fcvt_wu_s => 150
  | rv_op_fcvt_s_w => 151
  | rv_op_fcvt_s_wu => 152
  | rv_op_fmv_x_s => 153
  | rv_op_fclass_s => 154
  | rv_op_fmv_s_x => 155
  | rv_op_fcvt_l_s => 156
  | rv_op_fcvt_lu_s => 157
  | rv_op_fcvt_s_l => 158
  | rv_op_fcvt_s_lu => 159
  | rv_op_fld => 160
  | rv_op_fsd => 161
  | rv_op_fmadd_d => 162
  | rv_op_fmsub_d => 163
  | rv_op_fnmsub_d => 164
  | rv_op_fnmadd_d => 165
  | rv_op_fadd_d => 166
  | rv_op_fsub_d => 167
  | rv_op_fmul_d => 168
  | rv_op_fdiv_d => 169
  | rv_op_fsgnj_d => 170
  | rv_op_fsgnjn_d => 171
  | rv_op_fsgnjx_d => 172
  | rv_op_fmin_d => 173
  | rv_op_fmax_d => 174
  | rv_op_fcvt_s_d => 175
  | rv_op_fcvt_d_s => 176
  | rv_op_fsqrt_d => 177
  | rv_op_fle_d => 178
  | rv_op_flt_d => 179
  | rv_op_feq_d => 180
  | rv_op_fcvt_w_d => 181
  | rv_op_fcvt_wu_d => 182
  | rv_op_fcvt_d_w => 183
  | rv_op_fcvt_d_wu => 184
  | rv_op_fclass_d => 185
  | rv_op_fcvt_l_d => 186
  | rv_op_fcvt_lu_d => 187
  | rv_op_fmv_x_d => 188
  | rv_op_fcvt_d_l => 189
  | rv_op_fcvt_d_lu => 190
  | rv_op_fmv_d_x => 191
  | rv_op_flq => 192
  | rv_op_fsq => 193
  | rv_op_fmadd_q => 194
  | rv_op_fmsub_q => 195
  | rv_op_fnmsub_q => 196
  | rv_op_fnmadd_q => 197
  | rv_op_fadd_q => 198
  | rv_op_fsub_q => 199
  | rv_op_fmul_q => 200
  | rv_op_fdiv_q => 201
  | rv_op_fsgnj_q => 202
  | rv_op_fsgnjn_q => 203
  | rv_op_fsgnjx_q => 204
  | rv_op_fmin_q => 205
  | rv_op_fmax_q => 206
  | rv_op_fcvt_s_q => 207
  | rv_op_fcvt_q_s => 208
  | rv_op_fcvt_d_q => 209
  | rv_op_fcvt_q_d => 210
  | rv_op_fsqrt_q => 211
  | rv_op_fle_q => 212
  | rv_op_flt_q => 213
  | rv_op_feq_q => 214
  | rv_op_fcvt_w_q => 215
  | rv_op_fcvt_wu_q => 216
  | rv_op_fcvt_q_w => 217
  | rv_op_fcvt_q_wu => 218
  | rv_op_fclass_q => 219
  | rv_op_fcvt_l_q => 220
  | rv_op_fcvt_lu_q => 221
  | rv_op_fcvt_q_l => 222
  | rv_op_fcvt_q_lu => 223
  | rv_op_fmv_x_q => 224
  | rv_op_fmv_q_x => 225
  | rv_op_c_addi4spn => 226
  | rv_op_c_fld => 227
  | rv_op_c_lw => 228
  | rv_op_c_flw => 229
  | rv_op_c_fsd => 230
  | rv_op_c_sw => 231
  | rv_op_c_fsw => 232
  | rv_op_c_nop => 233
  | rv_op_c_addi => 234
  | rv_op_c_jal => 235
  | rv_op_c_li => 236
  | rv_op_c_addi16sp => 237
  | rv_op_c_lui => 238
  | rv_op_c_srli => 239
  | rv_op_c_srai => 240
  | rv_op_c_andi => 241
  | rv_op_c_sub => 242
  | rv_op_c_xor => 243
  | rv_op_c_or => 244
  | rv_op_c_and => 245
  | rv_op_c_subw => 246
  | rv_op_c_addw => 247
  | rv_op_c_j => 248
  | rv_op_c_beqz => 249
  | rv_op_c_bnez => 250
  | rv_op_c_slli => 251
  | rv_op_c_fldsp => 252
  | rv_op_c_lwsp => 253
  | rv_op_c_flwsp => 254
  | rv_op_c_jr => 255
  | rv_op_c_mv => 256
  | rv_op_c_ebreak => 257
  | rv_op_c_jalr => 258
  | rv_op_c_add => 259
  | rv_op_c_fsdsp => 260
  | rv_op_c_swsp => 261
  | rv_op_c_fswsp => 262
  | rv_op_c_ld => 263
  | rv_op_c_sd => 264
  | rv_op_c_addiw => 265
  | rv_op_c_ldsp => 266
  | rv_op_c_sdsp => 267
  | rv_op_c_lq => 268
  | rv_op_c_sq => 269
  | rv_op_c_lqsp => 270
  | rv_op_c_sqsp => 271
  | rv_op_nop => 272
  | rv_op_mv => 273
  | rv_op_not => 274
  | rv_op_neg => 275
  | rv_op_negw => 276
  | rv_op_sext_w => 277
  | rv_op_seqz => 278
  | rv_op_snez => 279
  | rv_op_sltz => 280
  | rv_op_sgtz => 281
  | rv_op_fmv_s => 282
  | rv_op_fabs_s => 283
  | rv_op_fneg_s => 284
  | rv_op_fmv_d => 285
  | rv_op_fabs_d => 286
  | rv_op_fneg_d => 287
  | rv_op_fmv_q => 288
  | rv_op_fabs_q => 289
  | rv_op_fneg_q => 290
  | rv_op_beqz => 291
  | rv_op_bnez => 292
  | rv_op_blez => 293
  | rv_op_bgez => 294
  | rv_op_bltz => 295
  | rv_op_bgtz => 296
  | rv_op_ble => 297
  | rv_op_bleu => 298
  | rv_op_bgt => 299
  | rv_op_bgtu => 300
  | rv_op_j => 301
  | rv_op_ret => 302
  | rv_op_jr => 303
  | rv_op_rdcycle => 304
  | rv_op_rdtime => 305
  | rv_op_rdinstret => 306
  | rv_op_rdcycleh => 307
  | rv_op_rdtimeh => 308
  | rv_op_rdinstreth => 309
  | rv_op_frcsr => 310
  | rv_op_frrm => 311
  | rv_op_frflags => 312
  | rv_op_fscsr => 313
  | rv_op_fsrm => 314
  | rv_op_fsflags => 315
  | rv_op_fsrmi => 316
  | rv_op_fsflagsi => 317
  end.

(** ** Encoding tables *)

(** The operand layout of each opcode. *)
Definition rv_inst_codec (op : rv_op) : rv_codec :=
  match op with
  | rv_op_illegal => rv_codec_illegal
  | rv_op_lui => rv_codec_u
  | rv_op_auipc => rv_codec_u
  | rv_op_jal => rv_codec_uj
  | rv_op_jalr => rv_codec_i
  | rv_op_beq => rv_codec_sb
  | rv_op_bne => rv_codec_sb
  | rv_op_blt => rv_codec_sb
  | rv_op_bge => rv_codec_sb
  | rv_op_bltu => rv_codec_sb
  | rv_op_bgeu => rv_codec_sb
  | rv_op_lb => rv_codec_i
  | rv_op_lh => rv_codec_i
  | rv_op_lw => rv_codec_i
  | rv_op_lbu => rv_codec_i
  | rv_op_lhu => rv_codec_i
  | rv_op_sb => rv_codec_s
  | rv_op_sh => rv_codec_s
  | rv_op_sw => rv_codec_s
  | rv_op_addi => rv_codec_i
  | rv_op_slti => rv_codec_i
  | rv_op_sltiu => rv_codec_i
  | rv_op_xori => rv_codec_i
  | rv_op_ori => rv_codec_i
  | rv_op_andi => rv_codec_i
  | rv_op_slli => rv_codec_i_sh7
  | rv_op_srli => rv_codec_i_sh7
  | rv_op_srai => rv_codec_i_sh7
  | rv_op_add => rv_codec_r
  | rv_op_sub => rv_codec_r
  | rv_op_sll => rv_codec_r
  | rv_op_slt => rv_codec_r
  | rv_op_sltu => rv_codec_r
  | rv_op_xor => rv_codec_r
  | rv_op_srl => rv_codec_r
  | rv_op_sra => rv_codec_r
  | rv_op_or => rv_codec_r
  | rv_op_and => rv_codec_r
  | rv_op_fence => rv_codec_r_f
  | rv_op_fence_i => rv_codec_none
  | rv_op_lwu => rv_codec_i
  | rv_op_ld => rv_codec_i
  | rv_op_sd => rv_codec_s
  | rv_op_addiw => rv_codec_i
  | rv_op_slliw => rv_codec_i_sh5
  | rv_op_srliw => rv_codec_i_sh5
  | rv_op_sraiw => rv_codec_i_sh5
  | rv_op_addw => rv_codec_r
  | rv_op_subw => rv_codec_r
  | rv_op_sllw => rv_codec_r
  | rv_op_srlw => rv_codec_r
  | rv_op_sraw => rv_codec_r
  | rv_op_ldu => rv_codec_i
  | rv_op_lq => rv_codec_i
  | rv_op_sq => rv_codec_s
  | rv_op_addid => rv_codec_i
  | rv_op_sllid => rv_codec_i_sh6
  | rv_op_srlid => rv_codec_i_sh6
  | rv_op_sraid => rv_codec_i_sh6
  | rv_op_addd => rv_codec_r
  | rv_op_subd => rv_codec_r
  | rv_op_slld => rv_codec_r
  | rv_op_srld => rv_codec_r
  | rv_op_srad => rv_codec_r
  | rv_op_mul => rv_codec_r
  | rv_op_mulh => rv_codec_r
  | rv_op_mulhsu => rv_codec_r
  | rv_op_mulhu => rv_codec_r
  | rv_op_div => rv_codec_r
  | rv_op_divu => rv_codec_r
  | rv_op_rem => rv_codec_r
  | rv_op_remu => rv_codec_r
  | rv_op_mulw => rv_codec_r
  | rv_op_divw => rv_codec_r
  | rv_op_divuw => rv_codec_r
  | rv_op_remw => rv_codec_r
  | rv_op_remuw => rv_codec_r
  | rv_op_muld => rv_codec_r
  | rv_op_divd => rv_codec_r
  | rv_op_divud => rv_codec_r
  | rv_op_remd => rv_codec_r
  | rv_op_remud => rv_codec_r
  | rv_op_lr_w => rv_codec_r_l
  | rv_op_sc_w => rv_codec_r_a
  | rv_op_amoswap_w => rv_codec_r_a
  | rv_op_amoadd_w => rv_codec_r_a
  | rv_op_amoxor_w => rv_codec_r_a
  | rv_op_amoor_w => rv_codec_r_a
  | rv_op_amoand_w => rv_codec_r_a
  | rv_op_amomin_w => rv_codec_r_a
  | rv_op_amomax_w => rv_codec_r_a
  | rv_op_amominu_w => rv_codec_r_a
  | rv_op_amomaxu_w => rv_codec_r_a
  | rv_op_lr_d => rv_codec_r_l
  | rv_op_sc_d => rv_codec_r_a
  | rv_op_amoswap_d => rv_codec_r_a
  | rv_op_amoadd_d => rv_codec_r_a
  | rv_op_amoxor_d => rv_codec_r_a
  | rv_op_amoor_d => rv_codec_r_a
  | rv_op_amoand_d => rv_codec_r_a
  | rv_op_amomin_d => rv_codec_r_a
  | rv_op_amomax_d => rv_codec_r_a
  | rv_op_amominu_d => rv_codec_r_a
  | rv_op_amomaxu_d => rv_codec_r_a
  | rv_op_lr_q => rv_codec_r_l
  | rv_op_sc_q => rv_codec_r_a
  | rv_op_amoswap_q => rv_codec_r_a
  | rv_op_amoadd_q => rv_codec_r_a
  | rv_op_amoxor_q => rv_codec_r_a
  | rv_op_amoor_q => rv_codec_r_a
  | rv_op_amoand_q => rv_codec_r_a
  | rv_op_amomin_q => rv_codec_r_a
  | rv_op_amomax_q => rv_codec_r_a
  | rv_op_amominu_q => rv_codec_r_a
  | rv_op_amomaxu_q => rv_codec_r_a
  | rv_op_ecall => rv_codec_none
  | rv_op_ebreak => rv_codec_none
  | rv_op_uret => rv_codec_none
  | rv_op_sret => rv_codec_none
  | rv_op_hret => rv_codec_none
  | rv_op_mret => rv_codec_none
  | rv_op_dret => rv_codec_none
  | rv_op_sfence_vm => rv_codec_r
  | rv_op_wfi => rv_codec_none
  | rv_op_csrrw => rv_codec_i_csr
  | rv_op_csrrs => rv_codec_i_csr
  | rv_op_csrrc => rv_codec_i_csr
  | rv_op_csrrwi => rv_codec_i_csr
  | rv_op_csrrsi => rv_codec_i_csr
  | rv_op_csrrci => rv_codec_i_csr
  | rv_op_flw => rv_codec_i
  | rv_op_fsw => rv_codec_s
  | rv_op_fmadd_s => rv_codec_r4_m
  | rv_op_fmsub_s => rv_codec_r4_m
  | rv_op_fnmsub_s => rv_codec_r4_m
  | rv_op_fnmadd_s => rv_codec_r4_m
  | rv_op_fadd_s => rv_codec_r_m
  | rv_op_fsub_s => rv_codec_r_m
  | rv_op_fmul_s => rv_codec_r_m
  | rv_op_fdiv_s => rv_codec_r_m
  | rv_op_fsgnj_s => rv_codec_r
  | rv_op_fsgnjn_s => rv_codec_r
  | rv_op_fsgnjx_s => rv_codec_r
  | rv_op_fmin_s => rv_codec_r
  | rv_op_fmax_s => rv_codec_r
  | rv_op_fsqrt_s => rv_codec_r_m
  | rv_op_fle_s => rv_codec_r
  | rv_op_flt_s => rv_codec_r
  | rv_op_feq_s => rv_codec_r
  | rv_op_fcvt_w_s => rv_codec_r_m
  | rv_op_fcvt_wu_s => rv_codec_r_m
  | rv_op_fcvt_s_w => rv_codec_r_m
  | rv_op_fcvt_s_wu => rv_codec_r_m
  | rv_op_fmv_x_s => rv_codec_r
  | rv_op_fclass_s => rv_codec_r
  | rv_op_fmv_s_x => rv_codec_r
  | rv_op_fcvt_l_s => rv_codec_r_m
  | rv_op_fcvt_lu_s => rv_codec_r_m
  | rv_op_fcvt_s_l => rv_codec_r_m
  | rv_op_fcvt_s_lu => rv_codec_r_m
  | rv_op_fld => rv_codec_i
  | rv_op_fsd => rv_codec_s
  | rv_op_fmadd_d => rv_codec_r4_m
  | rv_op_fmsub_d => rv_codec_r4_m
  | rv_op_fnmsub_d => rv_codec_r4_m
  | rv_op_fnmadd_d => rv_codec_r4_m
  | rv_op_fadd_d => rv_codec_r_m
  | rv_op_fsub_d => rv_codec_r_m
  | rv_op_fmul_d => rv_codec_r_m
  | rv_op_fdiv_d => rv_codec_r_m
  | rv_op_fsgnj_d => rv_codec_r
  | rv_op_fsgnjn_d => rv_codec_r
  | rv_op_fsgnjx_d => rv_codec_r
  | rv_op_fmin_d => rv_codec_r
  | rv_op_fmax_d => rv_codec_r
  | rv_op_fcvt_s_d => rv_codec_r_m
  | rv_op_fcvt_d_s => rv_codec_r_m
  | rv_op_fsqrt_d => rv_codec_r_m
  | rv_op_fle_d => rv_codec_r
  | rv_op_flt_d => rv_codec_r
  | rv_op_feq_d => rv_codec_r
  | rv_op_fcvt_w_d => rv_codec_r_m
  | rv_op_fcvt_wu_d => rv_codec_r_m
  | rv_op_fcvt_d_w => rv_codec_r_m
  | rv_op_fcvt_d_wu => rv_codec_r_m
  | rv_op_fclass_d => rv_codec_r
  | rv_op_fcvt_l_d => rv_codec_r_m
  | rv_op_fcvt_lu_d => rv_codec_r_m
  | rv_op_fmv_x_d => rv_codec_r
  | rv_op_fcvt_d_l => rv_codec_r_m
  | rv_op_fcvt_d_lu => rv_codec_r_m
  | rv_op_fmv_d_x => rv_codec_r
  | rv_op_flq => rv_codec_i
  | rv_op_fsq => rv_codec_s
  | rv_op_fmadd_q => rv_codec_r4_m
  | rv_op_fmsub_q => rv_codec_r4_m
  | rv_op_fnmsub_q => rv_codec_r4_m
  | rv_op_fnmadd_q => rv_codec_r4_m
  | rv_op_fadd_q => rv_codec_r_m
  | rv_op_fsub_q => rv_codec_r_m
  | rv_op_fmul_q => rv_codec_r_m
  | rv_op_fdiv_q => rv_codec_r_m
  | rv_op_fsgnj_q => rv_codec_r
  | rv_op_fsgnjn_q => rv_codec_r
  | rv_op_fsgnjx_q => rv_codec_r
  | rv_op_fmin_q => rv_codec_r
  | rv_op_fmax_q => rv_codec_r
  | rv_op_fcvt_s_q => rv_codec_r_m
  | rv_op_fcvt_q_s => rv_codec_r_m
  | rv_op_fcvt_d_q => rv_codec_r_m
  | rv_op_fcvt_q_d => rv_codec_r_m
  | rv_op_fsqrt_q => rv_codec_r_m
  | rv_op_fle_q => rv_codec_r
  | rv_op_flt_q => rv_codec_r
  | rv_op_feq_q => rv_codec_r
  | rv_op_fcvt_w_q => rv_codec_r_m
  | rv_op_fcvt_wu_q => rv_codec_r_m
  | rv_op_fcvt_q_w => rv_codec_r_m
  | rv_op_fcvt_q_wu => rv_codec_r_m
  | rv_op_fclass_q => rv_codec_r
  | rv_op_fcvt_l_q => rv_codec_r_m
  | rv_op_fcvt_lu_q => rv_codec_r_m
  | rv_op_fcvt_q_l => rv_codec_r_m
  | rv_op_fcvt_q_lu => rv_codec_r_m
  | rv_op_fmv_x_q => rv_codec_r
  | rv_op_fmv_q_x => rv_codec_r
  | rv_op_c_addi4spn => rv_codec_ciw_4spn
  | rv_op_c_fld => rv_codec_cl_ld
  | rv_op_c_lw => rv_codec_cl_lw
  | rv_op_c_flw => rv_codec_cl_lw
  | rv_op_c_fsd => rv_codec_cs_sd
  | rv_op_c_sw => rv_codec_cs_sw
  | rv_op_c_fsw => rv_codec_cs_sw
  | rv_op_c_nop => rv_codec_ci_none
  | rv_op_c_addi => rv_codec_ci
  | rv_op_c_jal => rv_codec_cj_jal
  | rv_op_c_li => rv_codec_ci_li
  | rv_op_c_addi16sp => rv_codec_ci_16sp
  | rv_op_c_lui => rv_codec_ci_lui
  | rv_op_c_srli => rv_codec_cb_sh6
  | rv_op_c_srai => rv_codec_cb_sh6
  | rv_op_c_andi => rv_codec_cb_imm
  | rv_op_c_sub => rv_codec_cs
  | rv_op_c_xor => rv_codec_cs
  | rv_op_c_or => rv_codec_cs
  | rv_op_c_and => rv_codec_cs
  | rv_op_c_subw => rv_codec_cs
  | rv_op_c_addw => rv_codec_cs
  | rv_op_c_j => rv_codec_cj
  | rv_op_c_beqz => rv_codec_cb
  | rv_op_c_bnez => rv_codec_cb
  | rv_op_c_slli => rv_codec_ci_sh6
  | rv_op_c_fldsp => rv_codec_ci_ldsp
  | rv_op_c_lwsp => rv_codec_ci_lwsp
  | rv_op_c_flwsp => rv_codec_ci_lwsp
  | rv_op_c_jr => rv_codec_cr_jr
  | rv_op_c_mv => rv_codec_cr_mv
  | rv_op_c_ebreak => rv_codec_ci_none
  | rv_op_c_jalr => rv_codec_cr_jalr
  | rv_op_c_add => rv_codec_cr
  | rv_op_c_fsdsp => rv_codec_css_sdsp
  | rv_op_c_swsp => rv_codec_css_swsp
  | rv_op_c_fswsp => rv_codec_css_swsp
  | rv_op_c_ld => rv_codec_cl_ld
  | rv_op_c_sd => rv_codec_cs_sd
  | rv_op_c_addiw => rv_codec_ci
  | rv_op_c_ldsp => rv_codec_ci_ldsp
  | rv_op_c_sdsp => rv_codec_css_sdsp
  | rv_op_c_lq => rv_codec_cl_lq
  | rv_op_c_sq => rv_codec_cs_sq
  | rv_op_c_lqsp => rv_codec_ci_lqsp
  | rv_op_c_sqsp => rv_codec_css_sqsp
  | rv_op_nop => rv_codec_i
  | rv_op_mv => rv_codec_i
  | rv_op_not => rv_codec_i
  | rv_op_neg => rv_codec_r
  | rv_op_negw => rv_codec_r
  | rv_op_sext_w => rv_codec_i
  | rv_op_seqz => rv_codec_i
  | rv_op_snez => rv_codec_r
  | rv_op_sltz => rv_codec_r
  | rv_op_sgtz => rv_codec_r
  | rv_op_fmv_s => rv_codec_r
  | rv_op_fabs_s => rv_codec_r
  | rv_op_fneg_s => rv_codec_r
  | rv_op_fmv_d => rv_codec_r
  | rv_op_fabs_d => rv_codec_r
  | rv_op_fneg_d => rv_codec_r
  | rv_op_fmv_q => rv_codec_r
  | rv_op_fabs_q => rv_codec_r
  | rv_op_fneg_q => rv_codec_r
  | rv_op_beqz => rv_codec_sb
  | rv_op_bnez => rv_codec_sb
  | rv_op_blez => rv_codec_sb
  | rv_op_bgez => rv_codec_sb
  | rv_op_bltz => rv_codec_sb
  | rv_op_bgtz => rv_codec_sb
  | rv_op_ble => rv_codec_sb
  | rv_op_bleu => rv_codec_sb
  | rv_op_bgt => rv_codec_sb
  | rv_op_bgtu => rv_codec_sb
  | rv_op_j => rv_codec_uj
  | rv_op_ret => rv_codec_i
  | rv_op_jr => rv_codec_i
  | rv_op_rdcycle => rv_codec_i_csr
  | rv_op_rdtime => rv_codec_i_csr
  | rv_op_rdinstret => rv_codec_i_csr
  | rv_op_rdcycleh => rv_codec_i_csr
  | rv_op_rdtimeh => rv_codec_i_csr
  | rv_op_rdinstreth => rv_codec_i_csr
  | rv_op_frcsr => rv_codec_i_csr
  | rv_op_frrm => rv_codec_i_csr
  | rv_op_frflags => rv_codec_i_csr
  | rv_op_fscsr => rv_codec_i_csr
  | rv_op_fsrm => rv_codec_i_csr
  | rv_op_fsflags => rv_codec_i_csr
  | rv_op_fsrmi => rv_codec_i_csr
  | rv_op_fsflagsi => rv_codec_i_csr
  end.

(** The fixed bits of each opcode. *)
Definition rv_inst_match (op : rv_op) : Z :=
  match op with
  | rv_op_illegal => 0x0
  | rv_op_lui => 0x37
  | rv_op_auipc => 0x17
  | rv_op_jal => 0x6f
  | rv_op_jalr => 0x67
  | rv_op_beq => 0x63
  | rv_op_bne => 0x1063
  | rv_op_blt => 0x4063
  | rv_op_bge => 0x5063
  | rv_op_bltu => 0x6063
  | rv_op_bgeu => 0x7063
  | rv_op_lb => 0x3
  | rv_op_lh => 0x1003
  | rv_op_lw => 0x2003
  | rv_op_lbu => 0x4003
  | rv_op_lhu => 0x5003
  | rv_op_sb => 0x23
  | rv_op_sh => 0x1023
  | rv_op_sw => 0x2023
  | rv_op_addi => 0x13
  | rv_op_slti => 0x2013
  | rv_op_sltiu => 0x3013
  | rv_op_xori => 0x4013
  | rv_op_ori => 0x6013
  | rv_op_andi => 0x7013
  | rv_op_slli => 0x1013
  | rv_op_srli => 0x5013
  | rv_op_srai => 0x40005013
  | rv_op_add => 0x33
  | rv_op_sub => 0x40000033
  | rv_op_sll => 0x1033
  | rv_op_slt => 0x2033
  | rv_op_sltu => 0x3033
  | rv_op_xor => 0x4033
  | rv_op_srl => 0x5033
  | rv_op_sra => 0x40005033
  | rv_op_or => 0x6033
  | rv_op_and => 0x7033
  | rv_op_fence => 0xf
  | rv_op_fence_i => 0x100f
  | rv_op_lwu => 0x6003
  | rv_op_ld => 0x3003
  | rv_op_sd => 0x3023
  | rv_op_addiw => 0x1b
  | rv_op_slliw => 0x101b
  | rv_op_srliw => 0x501b
  | rv_op_sraiw => 0x4000501b
  | rv_op_addw => 0x3b
  | rv_op_subw => 0x4000003b
  | rv_op_sllw => 0x103b
  | rv_op_srlw => 0x503b
  | rv_op_sraw => 0x4000503b
  | rv_op_ldu => 0x7003
  | rv_op_lq => 0x200f
  | rv_op_sq => 0x4023
  | rv_op_addid => 0x5b
  | rv_op_sllid => 0x105b
  | rv_op_srlid => 0x505b
  | rv_op_sraid => 0x4000505b
  | rv_op_addd => 0x7b
  | rv_op_subd => 0x4000007b
  | rv_op_slld => 0x107b
  | rv_op_srld => 0x507b
  | rv_op_srad => 0x4000507b
  | rv_op_mul => 0x2000033
  | rv_op_mulh => 0x2001033
  | rv_op_mulhsu => 0x2002033
  | rv_op_mulhu => 0x2003033
  | rv_op_div => 0x2004033
  | rv_op_divu => 0x2005033
  | rv_op_rem => 0x2006033
  | rv_op_remu => 0x2007033
  | rv_op_mulw => 0x200003b
  | rv_op_divw => 0x200403b
  | rv_op_divuw => 0x200503b
  | rv_op_remw => 0x200603b
  | rv_op_remuw => 0x200703b
  | rv_op_muld => 0x200007b
  | rv_op_divd => 0x200407b
  | rv_op_divud => 0x200507b
  | rv_op_remd => 0x200607b
  | rv_op_remud => 0x200707b
  | rv_op_lr_w => 0x1000202f
  | rv_op_sc_w => 0x1800202f
  | rv_op_amoswap_w => 0x800202f
  | rv_op_amoadd_w => 0x202f
  | rv_op_amoxor_w => 0x2000202f
  | rv_op_amoor_w => 0x4000202f
  | rv_op_amoand_w => 0x6000202f
  | rv_op_amomin_w => 0x8000202f
  | rv_op_amomax_w => 0xa000202f
  | rv_op_amominu_w => 0xc000202f
  | rv_op_amomaxu_w => 0xe000202f
  | rv_op_lr_d => 0x1000302f
  | rv_op_sc_d => 0x1800302f
  | rv_op_amoswap_d => 0x800302f
  | rv_op_amoadd_d => 0x302f
  | rv_op_amoxor_d => 0x2000302f
  | rv_op_amoor_d => 0x4000302f
  | rv_op_amoand_d => 0x6000302f
  | rv_op_amomin_d => 0x8000302f
  | rv_op_amomax_d => 0xa000302f
  | rv_op_amominu_d => 0xc000302f
  | rv_op_amomaxu_d => 0xe000302f
  | rv_op_lr_q => 0x1000402f
  | rv_op_sc_q => 0x1800402f
  | rv_op_amoswap_q => 0x800402f
  | rv_op_amoadd_q => 0x402f
  | rv_op_amoxor_q => 0x2000402f
  | rv_op_amoor_q => 0x4000402f
  | rv_op_amoand_q => 0x6000402f
  | rv_op_amomin_q => 0x8000402f
  | rv_op_amomax_q => 0xa000402f
  | rv_op_amominu_q => 0xc000402f
  | rv_op_amomaxu_q => 0xe000402f
  | rv_op_ecall => 0x73
  | rv_op_ebreak => 0x100073
  | rv_op_uret => 0x200073
  | rv_op_sret => 0x10200073
  | rv_op_hret => 0x20200073
  | rv_op_mret => 0x30200073
  | rv_op_dret => 0x7b200073
  | rv_op_sfence_vm => 0x10400073
  | rv_op_wfi => 0x10500073
  | rv_op_csrrw => 0x1073
  | rv_op_csrrs => 0x2073
  | rv_op_csrrc => 0x3073
  | rv_op_csrrwi => 0x5073
  | rv_op_csrrsi => 0x6073
  | rv_op_csrrci => 0x7073
  | rv_op_flw => 0x2007
  | rv_op_fsw => 0x2027
  | rv_op_fmadd_s => 0x43
  | rv_op_fmsub_s => 0x47
  | rv_op_fnmsub_s => 0x4b
  | rv_op_fnmadd_s => 0x4f
  | rv_op_fadd_s => 0x53
  | rv_op_fsub_s => 0x8000053
  | rv_op_fmul_s => 0x10000053
  | rv_op_fdiv_s => 0x18000053
  | rv_op_fsgnj_s => 0x20000053
  | rv_op_fsgnjn_s => 0x20001053
  | rv_op_fsgnjx_s => 0x20002053
  | rv_op_fmin_s => 0x28000053
  | rv_op_fmax_s => 0x28001053
  | rv_op_fsqrt_s => 0x58000053
  | rv_op_fle_s => 0xa0000053
  | rv_op_flt_s => 0xa0001053
  | rv_op_feq_s => 0xa0002053
  | rv_op_fcvt_w_s => 0xc0000053
  | rv_op_fcvt_wu_s => 0xc0100053
  | rv_op_fcvt_s_w => 0xd0000053
  | rv_op_fcvt_s_wu => 0xd0100053
  | rv_op_fmv_x_s => 0xe0000053
  | rv_op_fclass_s => 0xe0001053
  | rv_op_fmv_s_x => 0xf0000053
  | rv_op_fcvt_l_s => 0xc0200053
  | rv_op_fcvt_lu_s => 0xc0300053
  | rv_op_fcvt_s_l => 0xd0200053
  | rv_op_fcvt_s_lu => 0xd0300053
  | rv_op_fld => 0x3007
  | rv_op_fsd => 0x3027
  | rv_op_fmadd_d => 0x2000043
  | rv_op_fmsub_d => 0x2000047
  | rv_op_fnmsub_d => 0x200004b
  | rv_op_fnmadd_d => 0x200004f
  | rv_op_fadd_d => 0x2000053
  | rv_op_fsub_d => 0xa000053
  | rv_op_fmul_d => 0x12000053
  | rv_op_fdiv_d => 0x1a000053
  | rv_op_fsgnj_d => 0x22000053
  | rv_op_fsgnjn_d => 0x22001053
  | rv_op_fsgnjx_d => 0x22002053
  | rv_op_fmin_d => 0x2a000053
  | rv_op_fmax_d => 0x2a001053
  | rv_op_fcvt_s_d => 0x40100053
  | rv_op_fcvt_d_s => 0x42000053
  | rv_op_fsqrt_d => 0x5a000053
  | rv_op_fle_d => 0xa2000053
  | rv_op_flt_d => 0xa2001053
  | rv_op_feq_d => 0xa2002053
  | rv_op_fcvt_w_d => 0xc2000053
  | rv_op_fcvt_wu_d => 0xc2100053
  | rv_op_fcvt_d_w => 0xd2000053
  | rv_op_fcvt_d_wu => 0xd2100053
  | rv_op_fclass_d => 0xe2001053
  | rv_op_fcvt_l_d => 0xc2200053
  | rv_op_fcvt_lu_d => 0xc2300053
  | rv_op_fmv_x_d => 0xe2000053
  | rv_op_fcvt_d_l => 0xd2200053
  | rv_op_fcvt_d_lu => 0xd2300053
  | rv_op_fmv_d_x => 0xf2000053
  | rv_op_flq => 0x4007
  | rv_op_fsq => 0x4027
  | rv_op_fmadd_q => 0x6000043
  | rv_op_fmsub_q => 0x6000047
  | rv_op_fnmsub_q => 0x600004b
  | rv_op_fnmadd_q => 0x600004f
  | rv_op_fadd_q => 0x6000053
  | rv_op_fsub_q => 0xe000053
  | rv_op_fmul_q => 0x16000053
  | rv_op_fdiv_q => 0x1e000053
  | rv_op_fsgnj_q => 0x26000053
  | rv_op_fsgnjn_q => 0x26001053
  | rv_op_fsgnjx_q => 0x26002053
  | rv_op_fmin_q => 0x2e000053
  | rv_op_fmax_q => 0x2e001053
  | rv_op_fcvt_s_q => 0x40300053
  | rv_op_fcvt_q_s => 0x46000053
  | rv_op_fcvt_d_q => 0x42300053
  | rv_op_fcvt_q_d => 0x46100053
  | rv_op_fsqrt_q => 0x5e000053
  | rv_op_fle_q => 0xa6000053
  | rv_op_flt_q => 0xa6001053
  | rv_op_feq_q => 0xa6002053
  | rv_op_fcvt_w_q => 0xc6000053
  | rv_op_fcvt_wu_q => 0xc6100053
  | rv_op_fcvt_q_w => 0xd6000053
  | rv_op_fcvt_q_wu => 0xd6100053
  | rv_op_fclass_q => 0xe6001053
  | rv_op_fcvt_l_q => 0xc6200053
  | rv_op_fcvt_lu_q => 0xc6300053
  | rv_op_fcvt_q_l => 0xd6200053
  | rv_op_fcvt_q_lu => 0xd6300053
  | rv_op_fmv_x_q => 0xe6000053
  | rv_op_fmv_q_x => 0xf6000053
  | rv_op_c_addi4spn => 0x0
  | rv_op_c_fld => 0x2000
  | rv_op_c_lw => 0x4000
  | rv_op_c_flw => 0x6000
  | rv_op_c_fsd => 0xa000
  | rv_op_c_sw => 0xc000
  | rv_op_c_fsw => 0xe000
  | rv_op_c_nop => 0x1
  | rv_op_c_addi => 0x1
  | rv_op_c_jal => 0x2001
  | rv_op_c_li => 0x4001
  | rv_op_c_addi16sp => 0x6101
  | rv_op_c_lui => 0x6001
  | rv_op_c_srli => 0x8001
  | rv_op_c_srai => 0x8401
  | rv_op_c_andi => 0x8801
  | rv_op_c_sub => 0x8c01
  | rv_op_c_xor => 0x8c21
  | rv_op_c_or => 0x8c41
  | rv_op_c_and => 0x8c61
  | rv_op_c_subw => 0x9c01
  | rv_op_c_addw => 0x9c21
  | rv_op_c_j => 0xa001
  | rv_op_c_beqz => 0xc001
  | rv_op_c_bnez => 0xe001
  | rv_op_c_slli => 0x2
  | rv_op_c_fldsp => 0x2002
  | rv_op_c_lwsp => 0x4002
  | rv_op_c_flwsp => 0x6002
  | rv_op_c_jr => 0x8002
  | rv_op_c_mv => 0x8002
  | rv_op_c_ebreak => 0x9002
  | rv_op_c_jalr => 0x9002
  | rv_op_c_add => 0x9002
  | rv_op_c_fsdsp => 0xa002
  | rv_op_c_swsp => 0xc002
  | rv_op_c_fswsp => 0xe002
  | rv_op_c_ld => 0x6000
  | rv_op_c_sd => 0xe000
  | rv_op_c_addiw => 0x2001
  | rv_op_c_ldsp => 0x6002
  | rv_op_c_sdsp => 0xe002
  | rv_op_c_lq => 0x2000
  | rv_op_c_sq => 0xa000
  | rv_op_c_lqsp => 0x2002
  | rv_op_c_sqsp => 0xa002
  | rv_op_nop => 0x0
  | rv_op_mv => 0x0
  | rv_op_not => 0x0
  | rv_op_neg => 0x0
  | rv_op_negw => 0x0
  | rv_op_sext_w => 0x0
  | rv_op_seqz => 0x0
  | rv_op_snez => 0x0
  | rv_op_sltz => 0x0
  | rv_op_sgtz => 0x0
  | rv_op_fmv_s => 0x0
  | rv_op_fabs_s => 0x0
  | rv_op_fneg_s => 0x0
  | rv_op_fmv_d => 0x0
  | rv_op_fabs_d => 0x0
  | rv_op_fneg_d => 0x0
  | rv_op_fmv_q => 0x0
  | rv_op_fabs_q => 0x0
  | rv_op_fneg_q => 0x0
  | rv_op_beqz => 0x0
  | rv_op_bnez => 0x0
  | rv_op_blez => 0x0
  | rv_op_bgez => 0x0
  | rv_op_bltz => 0x0
  | rv_op_bgtz => 0x0
  | rv_op_ble => 0x0
  | rv_op_bleu => 0x0
  | rv_op_bgt => 0x0
  | rv_op_bgtu => 0x0
  | rv_op_j => 0x0
  | rv_op_ret => 0x0
  | rv_op_jr => 0x0
  | rv_op_rdcycle => 0x0
  | rv_op_rdtime => 0x0
  | rv_op_rdinstret => 0x0
  | rv_op_rdcycleh => 0x0
  | rv_op_rdtimeh => 0x0
  | rv_op_rdinstreth => 0x0
  | rv_op_frcsr => 0x0
  | rv_op_frrm => 0x0
  | rv_op_frflags => 0x0
  | rv_op_fscsr => 0x0
  | rv_op_fsrm => 0x0
  | rv_op_fsflags => 0x0
  | rv_op_fsrmi => 0x0
  | rv_op_fsflagsi => 0x0
  end.

(** Which bits of the instruction are fixed. *)
Definition rv_inst_mask (op : rv_op) : Z :=
  match op with
  | rv_op_illegal => 0x0
  | rv_op_lui => 0x7f
  | rv_op_auipc => 0x7f
  | rv_op_jal => 0x7f
  | rv_op_jalr => 0x707f
  | rv_op_beq => 0x707f
  | rv_op_bne => 0x707f
  | rv_op_blt => 0x707f
  | rv_op_bge => 0x707f
  | rv_op_bltu => 0x707f
  | rv_op_bgeu => 0x707f
  | rv_op_lb => 0x707f
  | rv_op_lh => 0x707f
  | rv_op_lw => 0x707f
  | rv_op_lbu => 0x707f
  | rv_op_lhu => 0x707f
  | rv_op_sb => 0x707f
  | rv_op_sh => 0x707f
  | rv_op_sw => 0x707f
  | rv_op_addi => 0x707f
  | rv_op_slti => 0x707f
  | rv_op_sltiu => 0x707f
  | rv_op_xori => 0x707f
  | rv_op_ori => 0x707f
  | rv_op_andi => 0x707f
  | rv_op_slli => 0xf800707f
  | rv_op_srli => 0xf800707f
  | rv_op_srai => 0xf800707f
  | rv_op_add => 0xfe00707f
  | rv_op_sub => 0xfe00707f
  | rv_op_sll => 0xfe00707f
  | rv_op_slt => 0xfe00707f
  | rv_op_sltu => 0xfe00707f
  | rv_op_xor => 0xfe00707f
  | rv_op_srl => 0xfe00707f
  | rv_op_sra => 0xfe00707f
  | rv_op_or => 0xfe00707f
  | rv_op_and => 0xfe00707f
  | rv_op_fence => 0x707f
  | rv_op_fence_i => 0x707f
  | rv_op_lwu => 0x707f
  | rv_op_ld => 0x707f
  | rv_op_sd => 0x707f
  | rv_op_addiw => 0x707f
  | rv_op_slliw => 0xfe00707f
  | rv_op_srliw => 0xfe00707f
  | rv_op_sraiw => 0xfe00707f
  | rv_op_addw => 0xfe00707f
  | rv_op_subw => 0xfe00707f
  | rv_op_sllw => 0xfe00707f
  | rv_op_srlw => 0xfe00707f
  | rv_op_sraw => 0xfe00707f
  | rv_op_ldu => 0x707f
  | rv_op_lq => 0x707f
  | rv_op_sq => 0x707f
  | rv_op_addid => 0x707f
  | rv_op_sllid => 0xfc00707f
  | rv_op_srlid => 0xfc00707f
  | rv_op_sraid => 0xfc00707f
  | rv_op_addd => 0xfe00707f
  | rv_op_subd => 0xfe00707f
  | rv_op_slld => 0xfe00707f
  | rv_op_srld => 0xfe00707f
  | rv_op_srad => 0xfe00707f
  | rv_op_mul => 0xfe00707f
  | rv_op_mulh => 0xfe00707f
  | rv_op_mulhsu => 0xfe00707f
  | rv_op_mulhu => 0xfe00707f
  | rv_op_div => 0xfe00707f
  | rv_op_divu => 0xfe00707f
  | rv_op_rem => 0xfe00707f
  | rv_op_remu => 0xfe00707f
  | rv_op_mulw => 0xfe00707f
  | rv_op_divw => 0xfe00707f
  | rv_op_divuw => 0xfe00707f
  | rv_op_remw => 0xfe00707f
  | rv_op_remuw => 0xfe00707f
  | rv_op_muld => 0xfe00707f
  | rv_op_divd => 0xfe00707f
  | rv_op_divud => 0xfe00707f
  | rv_op_remd => 0xfe00707f
  | rv_op_remud => 0xfe00707f
  | rv_op_lr_w => 0xf9f0707f
  | rv_op_sc_w => 0xf800707f
  | rv_op_amoswap_w => 0xf800707f
  | rv_op_amoadd_w => 0xf800707f
  | rv_op_amoxor_w => 0xf800707f
  | rv_op_amoor_w => 0xf800707f
  | rv_op_amoand_w => 0xf800707f
  | rv_op_amomin_w => 0xf800707f
  | rv_op_amomax_w => 0xf800707f
  | rv_op_amominu_w => 0xf800707f
  | rv_op_amomaxu_w => 0xf800707f
  | rv_op_lr_d => 0xf9f0707f
  | rv_op_sc_d => 0xf800707f
  | rv_op_amoswap_d => 0xf800707f
  | rv_op_amoadd_d => 0xf800707f
  | rv_op_amoxor_d => 0xf800707f
  | rv_op_amoor_d => 0xf800707f
  | rv_op_amoand_d => 0xf800707f
  | rv_op_amomin_d => 0xf800707f
  | rv_op_amomax_d => 0xf800707f
  | rv_op_amominu_d => 0xf800707f
  | rv_op_amomaxu_d => 0xf800707f
  | rv_op_lr_q => 0xf9f0707f
  | rv_op_sc_q => 0xf800707f
  | rv_op_amoswap_q => 0xf800707f
  | rv_op_amoadd_q => 0xf800707f
  | rv_op_amoxor_q => 0xf800707f
  | rv_op_amoor_q => 0xf800707f
  | rv_op_amoand_q => 0xf800707f
  | rv_op_amomin_q => 0xf800707f
  | rv_op_amomax_q => 0xf800707f
  | rv_op_amominu_q => 0xf800707f
  | rv_op_amomaxu_q => 0xf800707f
  | rv_op_ecall => 0xffffffff
  | rv_op_ebreak => 0xffffffff
  | rv_op_uret => 0xffffffff
  | rv_op_sret => 0xffffffff
  | rv_op_hret => 0xffffffff
  | rv_op_mret => 0xffffffff
  | rv_op_dret => 0xffffffff
  | rv_op_sfence_vm => 0xfff07fff
  | rv_op_wfi => 0xffffffff
  | rv_op_csrrw => 0x707f
  | rv_op_csrrs => 0x707f
  | rv_op_csrrc => 0x707f
  | rv_op_csrrwi => 0x707f
  | rv_op_csrrsi => 0x707f
  | rv_op_csrrci => 0x707f
  | rv_op_flw => 0x707f
  | rv_op_fsw => 0x707f
  | rv_op_fmadd_s => 0x600007f
  | rv_op_fmsub_s => 0x600007f
  | rv_op_fnmsub_s => 0x600007f
  | rv_op_fnmadd_s => 0x600007f
  | rv_op_fadd_s => 0xfe00007f
  | rv_op_fsub_s => 0xfe00007f
  | rv_op_fmul_s => 0xfe00007f
  | rv_op_fdiv_s => 0xfe00007f
  | rv_op_fsgnj_s => 0xfe00707f
  | rv_op_fsgnjn_s => 0xfe00707f
  | rv_op_fsgnjx_s => 0xfe00707f
  | rv_op_fmin_s => 0xfe00707f
  | rv_op_fmax_s => 0xfe00707f
  | rv_op_fsqrt_s => 0xfff0007f
  | rv_op_fle_s => 0xfe00707f
  | rv_op_flt_s => 0xfe00707f
  | rv_op_feq_s => 0xfe00707f
  | rv_op_fcvt_w_s => 0xfff0007f
  | rv_op_fcvt_wu_s => 0xfff0007f
  | rv_op_fcvt_s_w => 0xfff0007f
  | rv_op_fcvt_s_wu => 0xfff0007f
  | rv_op_fmv_x_s => 0xfff0707f
  | rv_op_fclass_s => 0xfff0707f
  | rv_op_fmv_s_x => 0xfff0707f
  | rv_op_fcvt_l_s => 0xfff0007f
  | rv_op_fcvt_lu_s => 0xfff0007f
  | rv_op_fcvt_s_l => 0xfff0007f
  | rv_op_fcvt_s_lu => 0xfff0007f
  | rv_op_fld => 0x707f
  | rv_op_fsd => 0x707f
  | rv_op_fmadd_d => 0x600007f
  | rv_op_fmsub_d => 0x600007f
  | rv_op_fnmsub_d => 0x600007f
  | rv_op_fnmadd_d => 0x600007f
  | rv_op_fadd_d => 0xfe00007f
  | rv_op_fsub_d => 0xfe00007f
  | rv_op_fmul_d => 0xfe00007f
  | rv_op_fdiv_d => 0xfe00007f
  | rv_op_fsgnj_d => 0xfe00707f
  | rv_op_fsgnjn_d => 0xfe00707f
  | rv_op_fsgnjx_d => 0xfe00707f
  | rv_op_fmin_d => 0xfe00707f
  | rv_op_fmax_d => 0xfe00707f
  | rv_op_fcvt_s_d => 0xfff0007f
  | rv_op_fcvt_d_s => 0xfff0007f
  | rv_op_fsqrt_d => 0xfff0007f
  | rv_op_fle_d => 0xfe00707f
  | rv_op_flt_d => 0xfe00707f
  | rv_op_feq_d => 0xfe00707f
  | rv_op_fcvt_w_d => 0xfff0007f
  | rv_op_fcvt_wu_d => 0xfff0007f
  | rv_op_fcvt_d_w => 0xfff0007f
  | rv_op_fcvt_d_wu => 0xfff0007f
  | rv_op_fclass_d => 0xfff0707f
  | rv_op_fcvt_l_d => 0xfff0007f
  | rv_op_fcvt_lu_d => 0xfff0007f
  | rv_op_fmv_x_d => 0xfff0707f
  | rv_op_fcvt_d_l => 0xfff0007f
  | rv_op_fcvt_d_lu => 0xfff0007f
  | rv_op_fmv_d_x => 0xfff0707f
  | rv_op_flq => 0x707f
  | rv_op_fsq => 0x707f
  | rv_op_fmadd_q => 0x600007f
  | rv_op_fmsub_q => 0x600007f
  | rv_op_fnmsub_q => 0x600007f
  | rv_op_fnmadd_q => 0x600007f
  | rv_op_fadd_q => 0xfe00007f
  | rv_op_fsub_q => 0xfe00007f
  | rv_op_fmul_q => 0xfe00007f
  | rv_op_fdiv_q => 0xfe00007f
  | rv_op_fsgnj_q => 0xfe00707f
  | rv_op_fsgnjn_q => 0xfe00707f
  | rv_op_fsgnjx_q => 0xfe00707f
  | rv_op_fmin_q => 0xfe00707f
  | rv_op_fmax_q => 0xfe00707f
  | rv_op_fcvt_s_q => 0xfff0007f
  | rv_op_fcvt_q_s => 0xfff0007f
  | rv_op_fcvt_d_q => 0xfff0007f
  | rv_op_fcvt_q_d => 0xfff0007f
  | rv_op_fsqrt_q => 0xfff0007f
  | rv_op_fle_q => 0xfe00707f
  | rv_op_flt_q => 0xfe00707f
  | rv_op_feq_q => 0xfe00707f
  | rv_op_fcvt_w_q => 0xfff0007f
  | rv_op_fcvt_wu_q => 0xfff0007f
  | rv_op_fcvt_q_w => 0xfff0007f
  | rv_op_fcvt_q_wu => 0xfff0007f
  | rv_op_fclass_q => 0xfff0707f
  | rv_op_fcvt_l_q => 0xfff0007f
  | rv_op_fcvt_lu_q => 0xfff0007f
  | rv_op_fcvt_q_l => 0xfff0007f
  | rv_op_fcvt_q_lu => 0xfff0007f
  | rv_op_fmv_x_q => 0xfff0707f
  | rv_op_fmv_q_x => 0xfff0707f
  | rv_op_c_addi4spn => 0xe003
  | rv_op_c_fld => 0xe003
  | rv_op_c_lw => 0xe003
  | rv_op_c_flw => 0xe003
  | rv_op_c_fsd => 0xe003
  | rv_op_c_sw => 0xe003
  | rv_op_c_fsw => 0xe003
  | rv_op_c_nop => 0xffff
  | rv_op_c_addi => 0xe003
  | rv_op_c_jal => 0xe003
  | rv_op_c_li => 0xe003
  | rv_op_c_addi16sp => 0xef83
  | rv_op_c_lui => 0xe003
  | rv_op_c_srli => 0xec03
  | rv_op_c_srai => 0xec03
  | rv_op_c_andi => 0xec03
  | rv_op_c_sub => 0xfc63
  | rv_op_c_xor => 0xfc63
  | rv_op_c_or => 0xfc63
  | rv_op_c_and => 0xfc63
  | rv_op_c_subw => 0xfc63
  | rv_op_c_addw => 0xfc63
  | rv_op_c_j => 0xe003
  | rv_op_c_beqz => 0xe003
  | rv_op_c_bnez => 0xe003
  | rv_op_c_slli => 0xe003
  | rv_op_c_fldsp => 0xe003
  | rv_op_c_lwsp => 0xe003
  | rv_op_c_flwsp => 0xe003
  | rv_op_c_jr => 0xf07f
  | rv_op_c_mv => 0xf003
  | rv_op_c_ebreak => 0xffff
  | rv_op_c_jalr => 0xf07f
  | rv_op_c_add => 0xf003
  | rv_op_c_fsdsp => 0xe003
  | rv_op_c_swsp => 0xe003
  | rv_op_c_fswsp => 0xe003
  | rv_op_c_ld => 0xe003
  | rv_op_c_sd => 0xe003
  | rv_op_c_addiw => 0xe003
  | rv_op_c_ldsp => 0xe003
  | rv_op_c_sdsp => 0xe003
  | rv_op_c_lq => 0xe003
  | rv_op_c_sq => 0xe003
  | rv_op_c_lqsp => 0xe003
  | rv_op_c_sqsp => 0xe003
  | rv_op_nop => 0x0
  | rv_op_mv => 0x0
  | rv_op_not => 0x0
  | rv_op_neg => 0x0
  | rv_op_negw => 0x0
  | rv_op_sext_w => 0x0
  | rv_op_seqz => 0x0
  | rv_op_snez => 0x0
  | rv_op_sltz => 0x0
  | rv_op_sgtz => 0x0
  | rv_op_fmv_s => 0x0
  | rv_op_fabs_s => 0x0
  | rv_op_fneg_s => 0x0
  | rv_op_fmv_d => 0x0
  | rv_op_fabs_d => 0x0
  | rv_op_fneg_d => 0x0
  | rv_op_fmv_q => 0x0
  | rv_op_fabs_q => 0x0
  | rv_op_fneg_q => 0x0
  | rv_op_beqz => 0x0
  | rv_op_bnez => 0x0
  | rv_op_blez => 0x0
  | rv_op_bgez => 0x0
  | rv_op_bltz => 0x0
  | rv_op_bgtz => 0x0
  | rv_op_ble => 0x0
  | rv_op_bleu => 0x0
  | rv_op_bgt => 0x0
  | rv_op_bgtu => 0x0
  | rv_op_j => 0x0
  | rv_op_ret => 0x0
  | rv_op_jr => 0x0
  | rv_op_rdcycle => 0x0
  | rv_op_rdtime => 0x0
  | rv_op_rdinstret => 0x0
  | rv_op_rdcycleh => 0x0
  | rv_op_rdtimeh => 0x0
  | rv_op_rdinstreth => 0x0
  | rv_op_frcsr => 0x0
  | rv_op_frrm => 0x0
  | rv_op_frflags => 0x0
  | rv_op_fscsr => 0x0
  | rv_op_fsrm => 0x0
  | rv_op_fsflags => 0x0
  | rv_op_fsrmi => 0x0
  | rv_op_fsflagsi => 0x0
  end.

(** ** Constraints *)

Definition rvcc_c_addi4spn : list rvc_constraint := [rvc_imm_10; rvc_imm_x4; rvc_imm_nz; rvc_rd_b3; rvc_rs1_eq_sp].
Definition rvcc_c_fld : list rvc_constraint := [rvc_imm_8; rvc_imm_x8; rvc_rd_b3; rvc_rs1_b3].
Definition rvcc_c_lw : list rvc_constraint := [rvc_imm_7; rvc_imm_x4; rvc_rd_b3; rvc_rs1_b3].
Definition rvcc_c_flw : list rvc_constraint := [rvc_imm_7; rvc_imm_x4; rvc_rd_b3; rvc_rs1_b3].
Definition rvcc_c_fsd : list rvc_constraint := [rvc_imm_8; rvc_imm_x8; rvc_rs1_b3; rvc_rs2_b3].
Definition rvcc_c_sw : list rvc_constraint := [rvc_imm_7; rvc_imm_x4; rvc_rs1_b3; rvc_rs2_b3].
Definition rvcc_c_fsw : list rvc_constraint := [rvc_imm_7; rvc_imm_x4; rvc_rs1_b3; rvc_rs2_b3].
Definition rvcc_c_nop : list rvc_constraint := [rvc_rd_eq_x0; rvc_rs1_eq_x0; rvc_rs2_eq_x0].
Definition rvcc_c_addi : list rvc_constraint := [rvc_simm_6; rvc_rd_ne_x0; rvc_rd_eq_rs1].
Definition rvcc_c_jal : list rvc_constraint := [rvc_imm_12; rvc_imm_x2; rvc_rd_eq_ra].
Definition rvcc_c_li : list rvc_constraint := [rvc_imm_6; rvc_rd_ne_x0; rvc_rs1_eq_x0].
Definition rvcc_c_addi16sp : list rvc_constraint := [rvc_imm_10; rvc_imm_x4; rvc_imm_nz; rvc_rd_eq_sp; rvc_rs1_eq_sp].
Definition rvcc_c_lui : list rvc_constraint := [rvc_imm_18; rvc_imm_nz; rvc_rd_ne_x0_x2].
Definition rvcc_c_srli_rv32c : list rvc_constraint := [rvc_imm_nz; rvc_rd_eq_rs1; rvc_rd_b3; rvc_rs1_b3].
Definition rvcc_c_srai_rv32c : list rvc_constraint := [rvc_imm_nz; rvc_rd_eq_rs1; rvc_rd_b3; rvc_rs1_b3].
Definition rvcc_c_andi : list rvc_constraint := [rvc_imm_nz; rvc_rd_eq_rs1; rvc_rd_b3; rvc_rs1_b3].
Definition rvcc_c_sub : list rvc_constraint := [rvc_rd_eq_rs1; rvc_rd_b3; rvc_rs1_b3; rvc_rs2_b3].
Definition rvcc_c_xor : list rvc_constraint := [rvc_rd_eq_rs1; rvc_rd_b3; rvc_rs1_b3; rvc_rs2_b3].
Definition rvcc_c_or : list rvc_constraint := [rvc_rd_eq_rs1; rvc_rd_b3; rvc_rs1_b3; rvc_rs2_b3].
Definition rvcc_c_and : list rvc_constraint := [rvc_rd_eq_rs1; rvc_rd_b3; rvc_rs1_b3; rvc_rs2_b3].
Definition rvcc_c_subw : list rvc_constraint := [rvc_rd_eq_rs1; rvc_rd_b3; rvc_rs1_b3; rvc_rs2_b3].
Definition rvcc_c_addw : list rvc_constraint := [rvc_rd_eq_rs1; rvc_rd_b3; rvc_rs1_b3; rvc_rs2_b3].
Definition rvcc_c_j : list rvc_constraint := [rvc_imm_12; rvc_imm_x2; rvc_rd_eq_x0].
Definition rvcc_c_beqz : list rvc_constraint := [rvc_imm_9; rvc_imm_x2; rvc_rs1_b3; rvc_rs2_eq_x0].
Definition rvcc_c_bnez : list rvc_constraint := [rvc_imm_9; rvc_imm_x2; rvc_rs1_b3; rvc_rs2_eq_x0].
Definition rvcc_c_slli_rv32c : list rvc_constraint := [rvc_imm_nz; rvc_rd_ne_x0; rvc_rd_eq_rs1].
Definition rvcc_c_fldsp : list rvc_constraint := [rvc_imm_9; rvc_imm_x8; rvc_rs1_eq_sp].
Definition rvcc_c_lwsp : list rvc_constraint := [rvc_imm_8; rvc_imm_x4; rvc_rd_ne_x0; rvc_rs1_eq_sp].
Definition rvcc_c_flwsp : list rvc_constraint := [rvc_imm_8; rvc_imm_x4; rvc_rs1_eq_sp].
Definition rvcc_c_jr : list rvc_constraint := [rvc_rd_eq_x0; rvc_rs1_ne_x0].
Definition rvcc_c_mv : list rvc_constraint := [rvc_imm_eq_zero; rvc_rd_ne_x0].
Definition rvcc_c_ebreak : list rvc_constraint := [].
Definition rvcc_c_jalr : list rvc_constraint := [rvc_rd_eq_ra; rvc_rs1_ne_x0].
Definition rvcc_c_add : list rvc_constraint := [rvc_rd_eq_rs1; rvc_rd_ne_x0; rvc_rs2_ne_x0].
Definition rvcc_c_fsdsp : list rvc_constraint := [rvc_imm_9; rvc_imm_x8; rvc_rs1_eq_sp].
Definition rvcc_c_swsp : list rvc_constraint := [rvc_imm_8; rvc_imm_x4; rvc_rs1_eq_sp].
Definition rvcc_c_fswsp : list rvc_constraint := [rvc_imm_8; rvc_imm_x4; rvc_rs1_eq_sp].
Definition rvcc_c_ld : list rvc_constraint := [rvc_imm_8; rvc_imm_x8; rvc_rd_b3; rvc_rs1_b3].
Definition rvcc_c_sd : list rvc_constraint := [rvc_imm_8; rvc_imm_x8; rvc_rs1_b3; rvc_rs2_b3].
Definition rvcc_c_addiw : list rvc_constraint := [rvc_imm_6; rvc_rd_ne_x0; rvc_rd_eq_rs1].
Definition rvcc_c_srli_rv64c : list rvc_constraint := [rvc_imm_nz; rvc_rd_eq_rs1; rvc_rd_b3; rvc_rs1_b3].
Definition rvcc_c_srai_rv64c : list rvc_constraint := [rvc_imm_nz; rvc_rd_eq_rs1; rvc_rd_b3; rvc_rs1_b3].
Definition rvcc_c_slli_rv64c : list rvc_constraint := [rvc_imm_nz; rvc_rd_ne_x0; rvc_rd_eq_rs1].
Definition rvcc_c_ldsp : list rvc_constraint := [rvc_imm_9; rvc_imm_x8; rvc_rd_ne_x0; rvc_rs1_eq_sp].
Definition rvcc_c_sdsp : list rvc_constraint := [rvc_imm_9; rvc_imm_x8; rvc_rs1_eq_sp].
Definition rvcc_c_lq : list rvc_constraint := [rvc_imm_9; rvc_imm_x16].
Definition rvcc_c_sq : list rvc_constraint := [rvc_imm_9; rvc_imm_x16].
Definition rvcc_c_lqsp : list rvc_constraint := [rvc_imm_10; rvc_imm_x16; rvc_rs1_eq_sp].
Definition rvcc_c_sqsp : list rvc_constraint := [rvc_imm_10; rvc_imm_x16; rvc_rs1_eq_sp].
Definition rvcc_jal : list rvc_constraint := [rvc_rd_eq_ra].
Definition rvcc_jalr : list rvc_constraint := [rvc_rd_eq_ra; rvc_imm_eq_zero].
Definition rvcc_nop : list rvc_constraint := [rvc_rd_eq_x0; rvc_rs1_eq_x0; rvc_imm_eq_zero].
Definition rvcc_mv : list rvc_constraint := [rvc_imm_eq_zero].
Definition rvcc_not : list rvc_constraint := [rvc_imm_eq_n1].
Definition rvcc_neg : list rvc_constraint := [rvc_rs1_eq_x0].
Definition rvcc_negw : list rvc_constraint := [rvc_rs1_eq_x0].
Definition rvcc_sext_w : list rvc_constraint := [rvc_rs2_eq_x0].
Definition rvcc_seqz : list rvc_constraint := [rvc_imm_eq_p1].
Definition rvcc_snez : list rvc_constraint := [rvc_rs1_eq_x0].
Definition rvcc_sltz : list rvc_constraint := [rvc_rs2_eq_x0].
Definition rvcc_sgtz : list rvc_constraint := [rvc_rs1_eq_x0].
Definition rvcc_fmv_s : list rvc_constraint := [rvc_rs2_eq_rs1].
Definition rvcc_fabs_s : list rvc_constraint := [rvc_rs2_eq_rs1].
Definition rvcc_fneg_s : list rvc_constraint := [rvc_rs2_eq_rs1].
Definition rvcc_fmv_d : list rvc_constraint := [rvc_rs2_eq_rs1].
Definition rvcc_fabs_d : list rvc_constraint := [rvc_rs2_eq_rs1].
Definition rvcc_fneg_d : list rvc_constraint := [rvc_rs2_eq_rs1].
Definition rvcc_fmv_q : list rvc_constraint := [rvc_rs2_eq_rs1].
Definition rvcc_fabs_q : list rvc_constraint := [rvc_rs2_eq_rs1].
Definition rvcc_fneg_q : list rvc_constraint := [rvc_rs2_eq_rs1].
Definition rvcc_beqz : list rvc_constraint := [rvc_rs2_eq_x0].
Definition rvcc_bnez : list rvc_constraint := [rvc_rs2_eq_x0].
Definition rvcc_blez : list rvc_constraint := [rvc_rs1_eq_x0].
Definition rvcc_bgez : list rvc_constraint := [rvc_rs2_eq_x0].
Definition rvcc_bltz : list rvc_constraint := [rvc_rs2_eq_x0].
Definition rvcc_bgtz : list rvc_constraint := [rvc_rs1_eq_x0].
Definition rvcc_ble : list rvc_constraint := [].
Definition rvcc_bleu : list rvc_constraint := [].
Definition rvcc_bgt : list rvc_constraint := [].
Definition rvcc_bgtu : list rvc_constraint := [].
Definition rvcc_j : list rvc_constraint := [rvc_rd_eq_x0].
Definition rvcc_ret : list rvc_constraint := [rvc_rd_eq_x0; rvc_rs1_eq_ra].
Definition rvcc_jr : list rvc_constraint := [rvc_rd_eq_x0; rvc_imm_eq_zero].
Definition rvcc_rdcycle : list rvc_constraint := [rvc_rs1_eq_x0; rvc_csr_eq_0xc00].
Definition rvcc_rdtime : list rvc_constraint := [rvc_rs1_eq_x0; rvc_csr_eq_0xc01].
Definition rvcc_rdinstret : list rvc_constraint := [rvc_rs1_eq_x0; rvc_csr_eq_0xc02].
Definition rvcc_rdcycleh : list rvc_constraint := [rvc_rs1_eq_x0; rvc_csr_eq_0xc80].
Definition rvcc_rdtimeh : list rvc_constraint := [rvc_rs1_eq_x0; rvc_csr_eq_0xc81].
Definition rvcc_rdinstreth : list rvc_constraint := [rvc_rs1_eq_x0; rvc_csr_eq_0xc80].
Definition rvcc_frcsr : list rvc_constraint := [rvc_rs1_eq_x0; rvc_csr_eq_0x003].
Definition rvcc_frrm : list rvc_constraint := [rvc_rs1_eq_x0; rvc_csr_eq_0x002].
Definition rvcc_frflags : list rvc_constraint := [rvc_rs1_eq_x0; rvc_csr_eq_0x001].
Definition rvcc_fscsr : list rvc_constraint := [rvc_csr_eq_0x003].
Definition rvcc_fsrm : list rvc_constraint := [rvc_csr_eq_0x002].
Definition rvcc_fsflags : list rvc_constraint := [rvc_csr_eq_0x001].
Definition rvcc_fsrmi : list rvc_constraint := [rvc_csr_eq_0x002].
Definition rvcc_fsflagsi : list rvc_constraint := [rvc_csr_eq_0x001].

(** ** Compression, pseudo-instruction and decompression tables *)

(** [struct rv_comp_data]. *)
Record rv_comp_data := CompData { comp_op : rv_op; comp_constraints : list rvc_constraint }.

Definition rvcd_rv32_lui : list rv_comp_data :=
  [CompData rv_op_c_lui rvcc_c_lui].
Definition rvcd_rv32_jal : list rv_comp_data :=
  [CompData rv_op_c_jal rvcc_c_jal;
   CompData rv_op_c_j rvcc_c_j].
Definition rvcd_rv32_jalr : list rv_comp_data :=
  [CompData rv_op_c_jr rvcc_c_jr;
   CompData rv_op_c_jalr rvcc_c_jalr].
Definition rvcd_rv32_beq : list rv_comp_data :=
  [CompData rv_op_c_beqz rvcc_c_beqz].
Definition rvcd_rv32_bne : list rv_comp_data :=
  [CompData rv_op_c_bnez rvcc_c_bnez].
Definition rvcd_rv32_lw : list rv_comp_data :=
  [CompData rv_op_c_lw rvcc_c_lw;
   CompData rv_op_c_lwsp rvcc_c_lwsp].
Definition rvcd_rv32_sw : list rv_comp_data :=
  [CompData rv_op_c_sw rvcc_c_sw;
   CompData rv_op_c_swsp rvcc_c_swsp].
Definition rvcd_rv32_addi : list rv_comp_data :=
  [CompData rv_op_c_addi4spn rvcc_c_addi4spn;
   CompData rv_op_c_nop rvcc_c_nop;
   CompData rv_op_c_addi rvcc_c_addi;
   CompData rv_op_c_li rvcc_c_li;
   CompData rv_op_c_addi16sp rvcc_c_addi16sp;
   CompData rv_op_c_mv rvcc_c_mv].
Definition rvcd_rv32_andi : list rv_comp_data :=
  [CompData rv_op_c_andi rvcc_c_andi].
Definition rvcd_rv32_slli : list rv_comp_data :=
  [CompData rv_op_c_slli rvcc_c_slli_rv32c].
Definition rvcd_rv32_srli : list rv_comp_data :=
  [CompData rv_op_c_srli rvcc_c_srli_rv32c].
Definition rvcd_rv32_srai : list rv_comp_data :=
  [CompData rv_op_c_srai rvcc_c_srai_rv32c].
Definition rvcd_rv32_add : list rv_comp_data :=
  [CompData rv_op_c_add rvcc_c_add].
Definition rvcd_rv32_sub : list rv_comp_data :=
  [CompData rv_op_c_sub rvcc_c_sub].
Definition rvcd_rv32_xor : list rv_comp_data :=
  [CompData rv_op_c_xor rvcc_c_xor].
Definition rvcd_rv32_or : list rv_comp_data :=
  [CompData rv_op_c_or rvcc_c_or].
Definition rvcd_rv32_and : list rv_comp_data :=
  [CompData rv_op_c_and rvcc_c_and].
Definition rvcd_rv32_ebreak : list rv_comp_data :=
  [CompData rv_op_c_ebreak rvcc_c_ebreak].
Definition rvcd_rv32_flw : list rv_comp_data :=
  [CompData rv_op_c_flw rvcc_c_flw;
   CompData rv_op_c_flwsp rvcc_c_flwsp].
Definition rvcd_rv32_fsw : list rv_comp_data :=
  [CompData rv_op_c_fsw rvcc_c_fsw;
   CompData rv_op_c_fswsp rvcc_c_fswsp].
Definition rvcd_rv32_fld : list rv_comp_data :=
  [CompData rv_op_c_fld rvcc_c_fld;
   CompData rv_op_c_fldsp rvcc_c_fldsp].
Definition rvcd_rv32_fsd : list rv_comp_data :=
  [CompData rv_op_c_fsd rvcc_c_fsd;
   CompData rv_op_c_fsdsp rvcc_c_fsdsp].
Definition rvcd_rv64_lui : list rv_comp_data :=
  [CompData rv_op_c_lui rvcc_c_lui].
Definition rvcd_rv64_jal : list rv_comp_data :=
  [CompData rv_op_c_j rvcc_c_j].
Definition rvcd_rv64_jalr : list rv_comp_data :=
  [CompData rv_op_c_jr rvcc_c_jr;
   CompData rv_op_c_jalr rvcc_c_jalr].
Definition rvcd_rv64_beq : list rv_comp_data :=
  [CompData rv_op_c_beqz rvcc_c_beqz].
Definition rvcd_rv64_bne : list rv_comp_data :=
  [CompData rv_op_c_bnez rvcc_c_bnez].
Definition rvcd_rv64_lw : list rv_comp_data :=
  [CompData rv_op_c_lw rvcc_c_lw;
   CompData rv_op_c_lwsp rvcc_c_lwsp].
Definition rvcd_rv64_sw : list rv_comp_data :=
  [CompData rv_op_c_sw rvcc_c_sw;
   CompData rv_op_c_swsp rvcc_c_swsp].
Definition rvcd_rv64_addi : list rv_comp_data :=
  [CompData rv_op_c_addi4spn rvcc_c_addi4spn;
   CompData rv_op_c_nop rvcc_c_nop;
   CompData rv_op_c_addi rvcc_c_addi;
   CompData rv_op_c_li rvcc_c_li;
   CompData rv_op_c_addi16sp rvcc_c_addi16sp;
   CompData rv_op_c_mv rvcc_c_mv].
Definition rvcd_rv64_andi : list rv_comp_data :=
  [CompData rv_op_c_andi rvcc_c_andi].
Definition rvcd_rv64_add : list rv_comp_data :=
  [CompData rv_op_c_add rvcc_c_add].
Definition rvcd_rv64_sub : list rv_comp_data :=
  [CompData rv_op_c_sub rvcc_c_sub].
Definition rvcd_rv64_xor : list rv_comp_data :=
  [CompData rv_op_c_xor rvcc_c_xor].
Definition rvcd_rv64_or : list rv_comp_data :=
  [CompData rv_op_c_or rvcc_c_or].
Definition rvcd_rv64_and : list rv_comp_data :=
  [CompData rv_op_c_and rvcc_c_and].
Definition rvcd_rv64_ld : list rv_comp_data :=
  [CompData rv_op_c_ld rvcc_c_ld;
   CompData rv_op_c_ldsp rvcc_c_ldsp].
Definition rvcd_rv64_sd : list rv_comp_data :=
  [CompData rv_op_c_sd rvcc_c_sd;
   CompData rv_op_c_sdsp rvcc_c_sdsp].
Definition rvcd_rv64_slli : list rv_comp_data :=
  [CompData rv_op_c_slli rvcc_c_slli_rv64c].
Definition rvcd_rv64_srli : list rv_comp_data :=
  [CompData rv_op_c_srli rvcc_c_srli_rv64c].
Definition rvcd_rv64_srai : list rv_comp_data :=
  [CompData rv_op_c_srai rvcc_c_srai_rv64c].
Definition rvcd_rv64_addiw : list rv_comp_data :=
  [CompData rv_op_c_addiw rvcc_c_addiw].
Definition rvcd_rv64_addw : list rv_comp_data :=
  [CompData rv_op_c_addw rvcc_c_addw].
Definition rvcd_rv64_subw : list rv_comp_data :=
  [CompData rv_op_c_subw rvcc_c_subw].
Definition rvcd_rv64_ebreak : list rv_comp_data :=
  [CompData rv_op_c_ebreak rvcc_c_ebreak].
Definition rvcd_rv64_fld : list rv_comp_data :=
  [CompData rv_op_c_fld rvcc_c_fld;
   CompData rv_op_c_fldsp rvcc_c_fldsp].
Definition rvcd_rv64_fsd : list rv_comp_data :=
  [CompData rv_op_c_fsd rvcc_c_fsd;
   CompData rv_op_c_fsdsp rvcc_c_fsdsp].
Definition rvcd_rv128_lq : list rv_comp_data :=
  [CompData rv_op_c_lq rvcc_c_lq;
   CompData rv_op_c_lqsp rvcc_c_lqsp].
Definition rvcd_rv128_sq : list rv_comp_data :=
  [CompData rv_op_c_sq rvcc_c_sq;
   CompData rv_op_c_sqsp rvcc_c_sqsp].
Definition rvcp_jal : list rv_comp_data :=
  [CompData rv_op_j rvcc_j;
   CompData rv_op_jal rvcc_jal].
Definition rvcp_jalr : list rv_comp_data :=
  [CompData rv_op_ret rvcc_ret;
   CompData rv_op_jr rvcc_jr;
   CompData rv_op_jalr rvcc_jalr].
Definition rvcp_beq : list rv_comp_data :=
  [CompData rv_op_beqz rvcc_beqz].
Definition rvcp_bne : list rv_comp_data :=
  [CompData rv_op_bnez rvcc_bnez].
Definition rvcp_blt : list rv_comp_data :=
  [CompData rv_op_bltz rvcc_bltz;
   CompData rv_op_bgtz rvcc_bgtz;
   CompData rv_op_bgt rvcc_bgt].
Definition rvcp_bge : list rv_comp_data :=
  [CompData rv_op_blez rvcc_blez;
   CompData rv_op_bgez rvcc_bgez;
   CompData rv_op_ble rvcc_ble].
Definition rvcp_bltu : list rv_comp_data :=
  [CompData rv_op_bgtu rvcc_bgtu].
Definition rvcp_bgeu : list rv_comp_data :=
  [CompData rv_op_bleu rvcc_bleu].
Definition rvcp_addi : list rv_comp_data :=
  [CompData rv_op_nop rvcc_nop;
   CompData rv_op_mv rvcc_mv].
Definition rvcp_sltiu : list rv_comp_data :=
  [CompData rv_op_seqz rvcc_seqz].
Definition rvcp_xori : list rv_comp_data :=
  [CompData rv_op_not rvcc_not].
Definition rvcp_sub : list rv_comp_data :=
  [CompData rv_op_neg rvcc_neg].
Definition rvcp_slt : list rv_comp_data :=
  [CompData rv_op_sltz rvcc_sltz;
   CompData rv_op_sgtz rvcc_sgtz].
Definition rvcp_sltu : list rv_comp_data :=
  [CompData rv_op_snez rvcc_snez].
Definition rvcp_addiw : list rv_comp_data :=
  [CompData rv_op_sext_w rvcc_sext_w].
Definition rvcp_subw : list rv_comp_data :=
  [CompData rv_op_negw rvcc_negw].
Definition rvcp_csrrw : list rv_comp_data :=
  [CompData rv_op_fscsr rvcc_fscsr;
   CompData rv_op_fsrm rvcc_fsrm;
   CompData rv_op_fsflags rvcc_fsflags].
Definition rvcp_csrrs : list rv_comp_data :=
  [CompData rv_op_rdcycle rvcc_rdcycle;
   CompData rv_op_rdtime rvcc_rdtime;
   CompData rv_op_rdinstret rvcc_rdinstret;
   CompData rv_op_rdcycleh rvcc_rdcycleh;
   CompData rv_op_rdtimeh rvcc_rdtimeh;
   CompData rv_op_rdinstreth rvcc_rdinstreth;
   CompData rv_op_frcsr rvcc_frcsr;
   CompData rv_op_frrm rvcc_frrm;
   CompData rv_op_frflags rvcc_frflags].
Definition rvcp_csrrwi : list rv_comp_data :=
  [CompData rv_op_fsrmi rvcc_fsrmi;
   CompData rv_op_fsflagsi rvcc_fsflagsi].
Definition rvcp_fsgnj_s : list rv_comp_data :=
  [CompData rv_op_fmv_s rvcc_fmv_s].
Definition rvcp_fsgnjn_s : list rv_comp_data :=
  [CompData rv_op_fneg_s rvcc_fneg_s].
Definition rvcp_fsgnjx_s : list rv_comp_data :=
  [CompData rv_op_fabs_s rvcc_fabs_s].
Definition rvcp_fsgnj_d : list rv_comp_data :=
  [CompData rv_op_fmv_d rvcc_fmv_d].
Definition rvcp_fsgnjn_d : list rv_comp_data :=
  [CompData rv_op_fneg_d rvcc_fneg_d].
Definition rvcp_fsgnjx_d : list rv_comp_data :=
  [CompData rv_op_fabs_d rvcc_fabs_d].
Definition rvcp_fsgnj_q : list rv_comp_data :=
  [CompData rv_op_fmv_q rvcc_fmv_q].
Definition rvcp_fsgnjn_q : list rv_comp_data :=
  [CompData rv_op_fneg_q rvcc_fneg_q].
Definition rvcp_fsgnjx_q : list rv_comp_data :=
  [CompData rv_op_fabs_q rvcc_fabs_q].

(** The pseudo-instructions of each opcode. *)
Definition rv_inst_pseudo (op : rv_op) : option (list rv_comp_data) :=
  match op with
  | rv_op_jal => Some rvcp_jal
  | rv_op_jalr => Some rvcp_jalr
  | rv_op_beq => Some rvcp_beq
  | rv_op_bne => Some rvcp_bne
  | rv_op_blt => Some rvcp_blt
  | rv_op_bge => Some rvcp_bge
  | rv_op_bltu => Some rvcp_bltu
  | rv_op_bgeu => Some rvcp_bgeu
  | rv_op_addi => Some rvcp_addi
  | rv_op_sltiu => Some rvcp_sltiu
  | rv_op_xori => Some rvcp_xori
  | rv_op_sub => Some rvcp_sub
  | rv_op_slt => Some rvcp_slt
  | rv_op_sltu => Some rvcp_sltu
  | rv_op_addiw => Some rvcp_addiw
  | rv_op_subw => Some rvcp_subw
  | rv_op_csrrw => Some rvcp_csrrw
  | rv_op_csrrs => Some rvcp_csrrs
  | rv_op_csrrwi => Some rvcp_csrrwi
  | rv_op_fsgnj_s => Some rvcp_fsgnj_s
  | rv_op_fsgnjn_s => Some rvcp_fsgnjn_s
  | rv_op_fsgnjx_s => Some rvcp_fsgnjx_s
  | rv_op_fsgnj_d => Some rvcp_fsgnj_d
  | rv_op_fsgnjn_d => Some rvcp_fsgnjn_d
  | rv_op_fsgnjx_d => Some rvcp_fsgnjx_d
  | rv_op_fsgnj_q => Some rvcp_fsgnj_q
  | rv_op_fsgnjn_q => Some rvcp_fsgnjn_q
  | rv_op_fsgnjx_q => Some rvcp_fsgnjx_q
  | _ => None
  end.

(** The compressed forms of each opcode, RV32. *)
Definition rv_inst_comp_rv32 (op : rv_op) : option (list rv_comp_data) :=
  match op with
  | rv_op_lui => Some rvcd_rv32_lui
  | rv_op_jal => Some rvcd_rv32_jal
  | rv_op_jalr => Some rvcd_rv32_jalr
  | rv_op_beq => Some rvcd_rv32_beq
  | rv_op_bne => Some rvcd_rv32_bne
  | rv_op_lw => Some rvcd_rv32_lw
  | rv_op_sw => Some rvcd_rv32_sw
  | rv_op_addi => Some rvcd_rv32_addi
  | rv_op_andi => Some rvcd_rv32_andi
  | rv_op_slli => Some rvcd_rv32_slli
  | rv_op_srli => Some rvcd_rv32_srli
  | rv_op_srai => Some rvcd_rv32_srai
  | rv_op_add => Some rvcd_rv32_add
  | rv_op_sub => Some rvcd_rv32_sub
  | rv_op_xor => Some rvcd_rv32_xor
  | rv_op_or => Some rvcd_rv32_or
  | rv_op_and => Some rvcd_rv32_and
  | rv_op_ebreak => Some rvcd_rv32_ebreak
  | rv_op_flw => Some rvcd_rv32_flw
  | rv_op_fsw => Some rvcd_rv32_fsw
  | rv_op_fld => Some rvcd_rv32_fld
  | rv_op_fsd => Some rvcd_rv32_fsd
  | _ => None
  end.

(** The compressed forms of each opcode, RV64. *)
Definition rv_inst_comp_rv64 (op : rv_op) : option (list rv_comp_data) :=
  match op with
  | rv_op_lui => Some rvcd_rv64_lui
  | rv_op_jal => Some rvcd_rv64_jal
  | rv_op_jalr => Some rvcd_rv64_jalr
  | rv_op_beq => Some rvcd_rv64_beq
  | rv_op_bne => Some rvcd_rv64_bne
  | rv_op_lw => Some rvcd_rv64_lw
  | rv_op_sw => Some rvcd_rv64_sw
  | rv_op_addi => Some rvcd_rv64_addi
  | rv_op_andi => Some rvcd_rv64_andi
  | rv_op_slli => Some rvcd_rv64_slli
  | rv_op_srli => Some rvcd_rv64_srli
  | rv_op_srai => Some rvcd_rv64_srai
  | rv_op_add => Some rvcd_rv64_add
  | rv_op_sub => Some rvcd_rv64_sub
  | rv_op_xor => Some rvcd_rv64_xor
  | rv_op_or => Some rvcd_rv64_or
  | rv_op_and => Some rvcd_rv64_and
  | rv_op_ld => Some rvcd_rv64_ld
  | rv_op_sd => Some rvcd_rv64_sd
  | rv_op_addiw => Some rvcd_rv64_addiw
  | rv_op_addw => Some rvcd_rv64_addw
  | rv_op_subw => Some rvcd_rv64_subw
  | rv_op_ebreak => Some rvcd_rv64_ebreak
  | rv_op_fld => Some rvcd_rv64_fld
  | rv_op_fsd => Some rvcd_rv64_fsd
  | _ => None
  end.

(** The compressed forms of each opcode, RV128. *)
Definition rv_inst_comp_rv128 (op : rv_op) : option (list rv_comp_data) :=
  match op with
  | rv_op_lq => Some rvcd_rv128_lq
  | rv_op_sq => Some rvcd_rv128_sq
  | _ => None
  end.

(** The instruction behind each pseudo-instruction. *)
Definition rv_inst_depseudo (op : rv_op) : option rv_comp_data :=
  match op with
  | rv_op_jal => Some (CompData rv_op_jal rvcc_jal)
  | rv_op_jalr => Some (CompData rv_op_jalr rvcc_jalr)
  | rv_op_nop => Some (CompData rv_op_addi rvcc_nop)
  | rv_op_mv => Some (CompData rv_op_addi rvcc_mv)
  | rv_op_not => Some (CompData rv_op_xori rvcc_not)
  | rv_op_neg => Some (CompData rv_op_sub rvcc_neg)
  | rv_op_negw => Some (CompData rv_op_subw rvcc_negw)
  | rv_op_sext_w => Some (CompData rv_op_addiw rvcc_sext_w)
  | rv_op_seqz => Some (CompData rv_op_sltiu rvcc_seqz)
  | rv_op_snez => Some (CompData rv_op_sltu rvcc_snez)
  | rv_op_sltz => Some (CompData rv_op_slt rvcc_sltz)
  | rv_op_sgtz => Some (CompData rv_op_slt rvcc_sgtz)
  | rv_op_fmv_s => Some (CompData rv_op_fsgnj_s rvcc_fmv_s)
  | rv_op_fabs_s => Some (CompData rv_op_fsgnjx_s rvcc_fabs_s)
  | rv_op_fneg_s => Some (CompData rv_op_fsgnjn_s rvcc_fneg_s)
  | rv_op_fmv_d => Some (CompData rv_op_fsgnj_d rvcc_fmv_d)
  | rv_op_fabs_d => Some (CompData rv_op_fsgnjx_d rvcc_fabs_d)
  | rv_op_fneg_d => Some (CompData rv_op_fsgnjn_d rvcc_fneg_d)
  | rv_op_fmv_q => Some (CompData rv_op_fsgnj_q rvcc_fmv_q)
  | rv_op_fabs_q => Some (CompData rv_op_fsgnjx_q rvcc_fabs_q)
  | rv_op_fneg_q => Some (CompData rv_op_fsgnjn_q rvcc_fneg_q)
  | rv_op_beqz => Some (CompData rv_op_beq rvcc_beqz)
  | rv_op_bnez => Some (CompData rv_op_bne rvcc_bnez)
  | rv_op_blez => Some (CompData rv_op_bge rvcc_blez)
  | rv_op_bgez => Some (CompData rv_op_bge rvcc_bgez)
  | rv_op_bltz => Some (CompData rv_op_blt rvcc_bltz)
  | rv_op_bgtz => Some (CompData rv_op_blt rvcc_bgtz)
  | rv_op_ble => Some (CompData rv_op_bge rvcc_ble)
  | rv_op_bleu => Some (CompData rv_op_bgeu rvcc_bleu)
  | rv_op_bgt => Some (CompData rv_op_blt rvcc_bgt)
  | rv_op_bgtu => Some (CompData rv_op_bltu rvcc_bgtu)
  | rv_op_j => Some (CompData rv_op_jal rvcc_j)
  | rv_op_ret => Some (CompData rv_op_jalr rvcc_ret)
  | rv_op_jr => Some (CompData rv_op_jalr rvcc_jr)
  | rv_op_rdcycle => Some (CompData rv_op_csrrs rvcc_rdcycle)
  | rv_op_rdtime => Some (CompData rv_op_csrrs rvcc_rdtime)
  | rv_op_rdinstret => Some (CompData rv_op_csrrs rvcc_rdinstret)
  | rv_op_rdcycleh => Some (CompData rv_op_csrrs rvcc_rdcycleh)
  | rv_op_rdtimeh => Some (CompData rv_op_csrrs rvcc_rdtimeh)
  | rv_op_rdinstreth => Some (CompData rv_op_csrrs rvcc_rdinstreth)
  | rv_op_frcsr => Some (CompData rv_op_csrrs rvcc_frcsr)
  | rv_op_frrm => Some (CompData rv_op_csrrs rvcc_frrm)
  | rv_op_frflags => Some (CompData rv_op_csrrs rvcc_frflags)
  | rv_op_fscsr => Some (CompData rv_op_csrrw rvcc_fscsr)
  | rv_op_fsrm => Some (CompData rv_op_csrrw rvcc_fsrm)
  | rv_op_fsflags => Some (CompData rv_op_csrrw rvcc_fsflags)
  | rv_op_fsrmi => Some (CompData rv_op_csrrwi rvcc_fsrmi)
  | rv_op_fsflagsi => Some (CompData rv_op_csrrwi rvcc_fsflagsi)
  | _ => None
  end.

(** The instruction behind each compressed opcode, RV32. *)
Definition rv_inst_decomp_rv32 (op : rv_op) : rv_op :=
  match op with
  | rv_op_c_addi4spn => rv_op_addi
  | rv_op_c_fld => rv_op_fld
  | rv_op_c_lw => rv_op_lw
  | rv_op_c_flw => rv_op_flw
  | rv_op_c_fsd => rv_op_fsd
  | rv_op_c_sw => rv_op_sw
  | rv_op_c_fsw => rv_op_fsw
  | rv_op_c_nop => rv_op_addi
  | rv_op_c_addi => rv_op_addi
  | rv_op_c_jal => rv_op_jal
  | rv_op_c_li => rv_op_addi
  | rv_op_c_addi16sp => rv_op_addi
  | rv_op_c_lui => rv_op_lui
  | rv_op_c_srli => rv_op_srli
  | rv_op_c_srai => rv_op_srai
  | rv_op_c_andi => rv_op_andi
  | rv_op_c_sub => rv_op_sub
  | rv_op_c_xor => rv_op_xor
  | rv_op_c_or => rv_op_or
  | rv_op_c_and => rv_op_and
  | rv_op_c_subw => rv_op_subw
  | rv_op_c_addw => rv_op_addw
  | rv_op_c_j => rv_op_jal
  | rv_op_c_beqz => rv_op_beq
  | rv_op_c_bnez => rv_op_bne
  | rv_op_c_slli => rv_op_slli
  | rv_op_c_fldsp => rv_op_fld
  | rv_op_c_lwsp => rv_op_lw
  | rv_op_c_flwsp => rv_op_flw
  | rv_op_c_jr => rv_op_jalr
  | rv_op_c_mv => rv_op_addi
  | rv_op_c_ebreak => rv_op_ebreak
  | rv_op_c_jalr => rv_op_jalr
  | rv_op_c_add => rv_op_add
  | rv_op_c_fsdsp => rv_op_fsd
  | rv_op_c_swsp => rv_op_sw
  | rv_op_c_fswsp => rv_op_fsw
  | _ => rv_op_illegal
  end.

(** The instruction behind each compressed opcode, RV64. *)
Definition rv_inst_decomp_rv64 (op : rv_op) : rv_op :=
  match op with
  | rv_op_c_addi4spn => rv_op_addi
  | rv_op_c_fld => rv_op_fld
  | rv_op_c_lw => rv_op_lw
  | rv_op_c_fsd => rv_op_fsd
  | rv_op_c_sw => rv_op_sw
  | rv_op_c_nop => rv_op_addi
  | rv_op_c_addi => rv_op_addi
  | rv_op_c_li => rv_op_addi
  | rv_op_c_addi16sp => rv_op_addi
  | rv_op_c_lui => rv_op_lui
  | rv_op_c_srli => rv_op_srli
  | rv_op_c_srai => rv_op_srai
  | rv_op_c_andi => rv_op_andi
  | rv_op_c_sub => rv_op_sub
  | rv_op_c_xor => rv_op_xor
  | rv_op_c_or => rv_op_or
  | rv_op_c_and => rv_op_and
  | rv_op_c_subw => rv_op_subw
  | rv_op_c_addw => rv_op_addw
  | rv_op_c_j => rv_op_jal
  | rv_op_c_beqz => rv_op_beq
  | rv_op_c_bnez => rv_op_bne
  | rv_op_c_slli => rv_op_slli
  | rv_op_c_fldsp => rv_op_fld
  | rv_op_c_lwsp => rv_op_lw
  | rv_op_c_jr => rv_op_jalr
  | rv_op_c_mv => rv_op_addi
  | rv_op_c_ebreak => rv_op_ebreak
  | rv_op_c_jalr => rv_op_jalr
  | rv_op_c_add => rv_op_add
  | rv_op_c_fsdsp => rv_op_fsd
  | rv_op_c_swsp => rv_op_sw
  | rv_op_c_ld => rv_op_ld
  | rv_op_c_sd => rv_op_sd
  | rv_op_c_addiw => rv_op_addiw
  | rv_op_c_ldsp => rv_op_ld
  | rv_op_c_sdsp => rv_op_sd
  | _ => rv_op_illegal
  end.

(** The instruction behind each compressed opcode, RV128. *)
Definition rv_inst_decomp_rv128 (op : rv_op) : rv_op :=
  match op with
  | rv_op_c_lq => rv_op_lq
  | rv_op_c_sq => rv_op_sq
  | rv_op_c_lqsp => rv_op_lq
  | rv_op_c_sqsp => rv_op_sq
  | _ => rv_op_illegal
  end.

(** ** Properties of the opcode type used by the other components *)
Lemma all_ops_num op : nth_error all_ops (Z.to_nat (rv_op_num op)) = Some op.
Proof. destruct op; reflexivity. Qed.

#[export] Instance rv_op_eq_dec : EqDecision rv_op.
Proof.
  intros a b. destruct (Z.eq_dec (rv_op_num a) (rv_op_num b)) as [H | H].
  - left. pose proof (all_ops_num a) as Ha. rewrite H, all_ops_num in Ha. congruence.
  - right. congruence.
Defined.

#[export] Instance rv_codec_eq_dec : EqDecision rv_codec.
Proof. solve_decision. Defined.

#[export] Instance rvc_constraint_eq_dec : EqDecision rvc_constraint.
Proof. solve_decision. Defined.

(** A boolean property of opcodes holds of all when it holds of the list. *)
Lemma all_ops_forallb (P : rv_op -> bool) :
  forallb P all_ops = true -> forall op, P op = true.
Proof.
  intros H op. rewrite forallb_forall in H. apply H.
  eapply nth_error_In, all_ops_num.
Qed.
