(* ===== verification/Decode.v ===== *)
(** * Decode: the decoded instruction, the operand decoders of
    [asm/decode.h] and the opcode decision tree of [asm/switch.h]. *)

From Stdlib Require Import ZArith List.
From stdpp Require Import base numbers list.
From S2P Require Import Prelude Operand Meta.

(** ** The decoded instruction *)

(** [struct decode]. *)
Record decode := mkDecode {
  d_imm : Z; d_rd : Z; d_rs1 : Z; d_rs2 : Z; d_rs3 : Z;
  d_op : rv_op; d_codec : rv_codec;
  d_rm : Z; d_aq : Z; d_rl : Z; d_pred : Z; d_succ : Z }.

(** The constructor [decode()]: every field is zero. *)
Definition decode_init : decode :=
  mkDecode 0 0 0 0 0 rv_op_illegal rv_codec_illegal 0 0 0 0 0.

(** [enum rv_ireg_name], the members the decoders name. *)
Definition rv_ireg_zero : Z := 0.
Definition rv_ireg_ra : Z := 1.
Definition rv_ireg_sp : Z := 2.

(** Assignments to the fields of a [decode], with the conversion to the type
    of the field. *)
Definition set_imm (v : Z) (d : decode) : decode :=
  mkDecode (s32 v) (d_rd d) (d_rs1 d) (d_rs2 d) (d_rs3 d) (d_op d) (d_codec d)
    (d_rm d) (d_aq d) (d_rl d) (d_pred d) (d_succ d).
Definition set_rd (v : Z) (d : decode) : decode :=
  mkDecode (d_imm d) (u8 v) (d_rs1 d) (d_rs2 d) (d_rs3 d) (d_op d) (d_codec d)
    (d_rm d) (d_aq d) (d_rl d) (d_pred d) (d_succ d).
Definition set_rs1 (v : Z) (d : decode) : decode :=
  mkDecode (d_imm d) (d_rd d) (u8 v) (d_rs2 d) (d_rs3 d) (d_op d) (d_codec d)
    (d_rm d) (d_aq d) (d_rl d) (d_pred d) (d_succ d).
Definition set_rs2 (v : Z) (d : decode) : decode :=
  mkDecode (d_imm d) (d_rd d) (d_rs1 d) (u8 v) (d_rs3 d) (d_op d) (d_codec d)
    (d_rm d) (d_aq d) (d_rl d) (d_pred d) (d_succ d).
Definition set_rs3 (v : Z) (d : decode) : decode :=
  mkDecode (d_imm d) (d_rd d) (d_rs1 d) (d_rs2 d) (u8 v) (d_op d) (d_codec d)
    (d_rm d) (d_aq d) (d_rl d) (d_pred d) (d_succ d).
Definition set_op (v : rv_op) (d : decode) : decode :=
  mkDecode (d_imm d) (d_rd d) (d_rs1 d) (d_rs2 d) (d_rs3 d) v (d_codec d)
    (d_rm d) (d_aq d) (d_rl d) (d_pred d) (d_succ d).
Definition set_codec (v : rv_codec) (d : decode) : decode :=
  mkDecode (d_imm d) (d_rd d) (d_rs1 d) (d_rs2 d) (d_rs3 d) (d_op d) v
    (d_rm d) (d_aq d) (d_rl d) (d_pred d) (d_succ d).
Definition set_rm (v : Z) (d : decode) : decode :=
  mkDecode (d_imm d) (d_rd d) (d_rs1 d) (d_rs2 d) (d_rs3 d) (d_op d) (d_codec d)
    (wrap 3 v) (d_aq d) (d_rl d) (d_pred d) (d_succ d).
Definition set_aq (v : Z) (d : decode) : decode :=
  mkDecode (d_imm d) (d_rd d) (d_rs1 d) (d_rs2 d) (d_rs3 d) (d_op d) (d_codec d)
    (d_rm d) (wrap 1 v) (d_rl d) (d_pred d) (d_succ d).
Definition set_rl (v : Z) (d : decode) : decode :=
  mkDecode (d_imm d) (d_rd d) (d_rs1 d) (d_rs2 d) (d_rs3 d) (d_op d) (d_codec d)
    (d_rm d) (d_aq d) (wrap 1 v) (d_pred d) (d_succ d).
Definition set_pred (v : Z) (d : decode) : decode :=
  mkDecode (d_imm d) (d_rd d) (d_rs1 d) (d_rs2 d) (d_rs3 d) (d_op d) (d_codec d)
    (d_rm d) (d_aq d) (d_rl d) (wrap 4 v) (d_succ d).
Definition set_succ (v : Z) (d : decode) : decode :=
  mkDecode (d_imm d) (d_rd d) (d_rs1 d) (d_rs2 d) (d_rs3 d) (d_op d) (d_codec d)
    (d_rm d) (d_aq d) (d_rl d) (d_pred d) (wrap 4 v).

(** Sequencing of assignments: [d |> set_rd v |> ...]. *)
Notation "d |> f" := (f d) (at level 50, left associativity, only parsing) : rv_scope.

(** ** The operand decoders *)

(** Decode none. *)
Definition decode_none (d : decode) (inst : Z) : decode :=
  d |> set_rd rv_ireg_zero
    |> set_rs1 rv_ireg_zero
    |> set_rs2 rv_ireg_zero
    |> set_imm 0.

(** Decode C nop. *)
Definition decode_ci_none (d : decode) (inst : Z) : decode :=
  d |> set_rd rv_ireg_zero
    |> set_rs1 rv_ireg_zero
    |> set_rs2 rv_ireg_zero
    |> set_imm 0.

(** Decode CR. *)
Definition decode_cr (d : decode) (inst : Z) : decode :=
  d |> set_rd (operand_decode operand_crs1rd inst)
    |> set_rs1 (operand_decode operand_crs1rd inst)
    |> set_rs2 (operand_decode operand_crs2 inst)
    |> set_imm 0.

(** Decode CR mv. *)
Definition decode_cr_mv (d : decode) (inst : Z) : decode :=
  d |> set_rd (operand_decode operand_crd inst)
    |> set_rs1 (operand_decode operand_crs2 inst)
    |> set_rs2 rv_ireg_zero
    |> set_imm 0.

(** Decode CR jalr. *)
Definition decode_cr_jalr (d : decode) (inst : Z) : decode :=
  d |> set_rd rv_ireg_ra
    |> set_rs1 (operand_decode operand_crs1 inst)
    |> set_rs2 rv_ireg_zero
    |> set_imm 0.

(** Decode CR jr. *)
Definition decode_cr_jr (d : decode) (inst : Z) : decode :=
  d |> set_rd rv_ireg_zero
    |> set_rs1 (operand_decode operand_crs1 inst)
    |> set_rs2 rv_ireg_zero
    |> set_imm 0.

(** Decode CI. *)
Definition decode_ci (d : decode) (inst : Z) : decode :=
  d |> set_rd (operand_decode operand_crs1rd inst)
    |> set_rs1 (operand_decode operand_crs1rd inst)
    |> set_rs2 rv_ireg_zero
    |> set_imm (operand_decode operand_cimmi inst).

(** Decode CI shamt5. *)
Definition decode_ci_sh5 (d : decode) (inst : Z) : decode :=
  d |> set_rd (operand_decode operand_crs1rd inst)
    |> set_rs1 (operand_decode operand_crs1rd inst)
    |> set_rs2 rv_ireg_zero
    |> set_imm (operand_decode operand_cimmsh5 inst).

(** Decode CI shamt6. *)
Definition decode_ci_sh6 (d : decode) (inst : Z) : decode :=
  d |> set_rd (operand_decode operand_crs1rd inst)
    |> set_rs1 (operand_decode operand_crs1rd inst)
    |> set_rs2 rv_ireg_zero
    |> set_imm (operand_decode operand_cimmsh6 inst).

(** Decode CI li. *)
Definition decode_ci_li (d : decode) (inst : Z) : decode :=
  d |> set_rd (operand_decode operand_crd inst)
    |> set_rs1 rv_ireg_zero
    |> set_rs2 rv_ireg_zero
    |> set_imm (operand_decode operand_cimmi inst).

(** Decode CI lui. *)
Definition decode_ci_lui (d : decode) (inst : Z) : decode :=
  d |> set_rd (operand_decode operand_crd inst)
    |> set_rs1 rv_ireg_zero
    |> set_rs2 rv_ireg_zero
    |> set_imm (operand_decode operand_cimmui inst).

(** Decode CI lwsp. *)
Definition decode_ci_lwsp (d : decode) (inst : Z) : decode :=
  d |> set_rd (operand_decode operand_crd inst)
    |> set_rs1 rv_ireg_sp
    |> set_rs2 rv_ireg_zero
    |> set_imm (operand_decode operand_cimmlwsp inst).

(** Decode CI ldsp. *)
Definition decode_ci_ldsp (d : decode) (inst : Z) : decode :=
  d |> set_rd (operand_decode operand_crd inst)
    |> set_rs1 rv_ireg_sp
    |> set_rs2 rv_ireg_zero
    |> set_imm (operand_decode operand_cimmldsp inst).

(** Decode CI lqsp. *)
Definition decode_ci_lqsp (d : decode) (inst : Z) : decode :=
  d |> set_rd (operand_decode operand_crd inst)
    |> set_rs1 rv_ireg_sp
    |> set_rs2 rv_ireg_zero
    |> set_imm (operand_decode operand_cimmlqsp inst).

(** Decode CI 16sp. *)
Definition decode_ci_16sp (d : decode) (inst : Z) : decode :=
  d |> set_rd rv_ireg_sp
    |> set_rs1 rv_ireg_sp
    |> set_rs2 rv_ireg_zero
    |> set_imm (operand_decode operand_cimm16sp inst).

(** Decode CSS swsp. *)
Definition decode_css_swsp (d : decode) (inst : Z) : decode :=
  d |> set_rd rv_ireg_zero
    |> set_rs1 rv_ireg_sp
    |> set_rs2 (operand_decode operand_crs2 inst)
    |> set_imm (operand_decode operand_cimmswsp inst).

(** Decode CSS sdsp. *)
Definition decode_css_sdsp (d : decode) (inst : Z) : decode :=
  d |> set_rd rv_ireg_zero
    |> set_rs1 rv_ireg_sp
    |> set_rs2 (operand_decode operand_crs2 inst)
    |> set_imm (operand_decode operand_cimmsdsp inst).

(** Decode CSS sqsp. *)
Definition decode_css_sqsp (d : decode) (inst : Z) : decode :=
  d |> set_rd rv_ireg_zero
    |> set_rs1 rv_ireg_sp
    |> set_rs2 (operand_decode operand_crs2 inst)
    |> set_imm (operand_decode operand_cimmsqsp inst).

(** Decode CIW 4spn. *)
Definition decode_ciw_4spn (d : decode) (inst : Z) : decode :=
  d |> set_rd (operand_decode operand_crdq inst + 8)
    |> set_rs1 rv_ireg_sp
    |> set_rs2 rv_ireg_zero
    |> set_imm (operand_decode operand_cimm4spn inst).

(** Decode CL lw. *)
Definition decode_cl_lw (d : decode) (inst : Z) : decode :=
  d |> set_rd (operand_decode operand_crdq inst + 8)
    |> set_rs1 (operand_decode operand_crs1q inst + 8)
    |> set_rs2 rv_ireg_zero
    |> set_imm (operand_decode operand_cimmw inst).

(** Decode CL ld. *)
Definition decode_cl_ld (d : decode) (inst : Z) : decode :=
  d |> set_rd (operand_decode operand_crdq inst + 8)
    |> set_rs1 (operand_decode operand_crs1q inst + 8)
    |> set_rs2 rv_ireg_zero
    |> set_imm (operand_decode operand_cimmd inst).

(** Decode CL lq. *)
Definition decode_cl_lq (d : decode) (inst : Z) : decode :=
  d |> set_rd (operand_decode operand_crdq inst + 8)
    |> set_rs1 (operand_decode operand_crs1q inst + 8)
    |> set_rs2 rv_ireg_zero
    |> set_imm (operand_decode operand_cimmq inst).

(** Decode CS f. *)
Definition decode_cs (d : decode) (inst : Z) : decode :=
  d |> set_rd (operand_decode operand_crs1rdq inst + 8)
    |> set_rs1 (operand_decode operand_crs1rdq inst + 8)
    |> set_rs2 (operand_decode operand_crs2q inst + 8)
    |> set_imm 0.

(** Decode CS sw. *)
Definition decode_cs_sw (d : decode) (inst : Z) : decode :=
  d |> set_rd rv_ireg_zero
    |> set_rs1 (operand_decode operand_crs1q inst + 8)
    |> set_rs2 (operand_decode operand_crs2q inst + 8)
    |> set_imm (operand_decode operand_cimmw inst).

(** Decode CS sd. *)
Definition decode_cs_sd (d : decode) (inst : Z) : decode :=
  d |> set_rd rv_ireg_zero
    |> set_rs1 (operand_decode operand_crs1q inst + 8)
    |> set_rs2 (operand_decode operand_crs2q inst + 8)
    |> set_imm (operand_decode operand_cimmd inst).

(** Decode CS sq. *)
Definition decode_cs_sq (d : decode) (inst : Z) : decode :=
  d |> set_rd rv_ireg_zero
    |> set_rs1 (operand_decode operand_crs1q inst + 8)
    |> set_rs2 (operand_decode operand_crs2q inst + 8)
    |> set_imm (operand_decode operand_cimmq inst).

(** Decode CB. *)
Definition decode_cb (d : decode) (inst : Z) : decode :=
  d |> set_rd rv_ireg_zero
    |> set_rs1 (operand_decode operand_crs1q inst + 8)
    |> set_rs2 rv_ireg_zero
    |> set_imm (operand_decode operand_cimmb inst).

(** Decode CB imm. *)
Definition decode_cb_imm (d : decode) (inst : Z) : decode :=
  d |> set_rd (operand_decode operand_crs1rdq inst + 8)
    |> set_rs1 (operand_decode operand_crs1rdq inst + 8)
    |> set_rs2 rv_ireg_zero
    |> set_imm (operand_decode operand_cimmi inst).

(** Decode CB shamt5. *)
Definition decode_cb_sh5 (d : decode) (inst : Z) : decode :=
  d |> set_rd (operand_decode operand_crs1rdq inst + 8)
    |> set_rs1 (operand_decode operand_crs1rdq inst + 8)
    |> set_rs2 rv_ireg_zero
    |> set_imm (operand_decode operand_cimmsh5 inst).

(** Decode CB shamt6. *)
Definition decode_cb_sh6 (d : decode) (inst : Z) : decode :=
  d |> set_rd (operand_decode operand_crs1rdq inst + 8)
    |> set_rs1 (operand_decode operand_crs1rdq inst + 8)
    |> set_rs2 rv_ireg_zero
    |> set_imm (operand_decode operand_cimmsh6 inst).

(** Decode CJ. *)
Definition decode_cj (d : decode) (inst : Z) : decode :=
  d |> set_rd rv_ireg_zero
    |> set_rs1 rv_ireg_zero
    |> set_rs2 rv_ireg_zero
    |> set_imm (operand_decode operand_cimmj inst).

(** Decode CJ jal. *)
Definition decode_cj_jal (d : decode) (inst : Z) : decode :=
  d |> set_rd rv_ireg_ra
    |> set_rs1 rv_ireg_zero
    |> set_rs2 rv_ireg_zero
    |> set_imm (operand_decode operand_cimmj inst).

(** Decode R. *)
Definition decode_r (d : decode) (inst : Z) : decode :=
  d |> set_rd (operand_decode operand_rd inst)
    |> set_rs1 (operand_decode operand_rs1 inst)
    |> set_rs2 (operand_decode operand_rs2 inst)
    |> set_imm 0.

(** Decode R RM. *)
Definition decode_r_m (d : decode) (inst : Z) : decode :=
  d |> set_rd (operand_decode operand_rd inst)
    |> set_rs1 (operand_decode operand_rs1 inst)
    |> set_rs2 (operand_decode operand_rs2 inst)
    |> set_imm 0
    |> set_rm (operand_decode operand_rm inst).

(** Decode R AMO L. *)
Definition decode_r_l (d : decode) (inst : Z) : decode :=
  d |> set_rd (operand_decode operand_rd inst)
    |> set_rs1 (operand_decode operand_rs1 inst)
    |> set_rs2 rv_ireg_zero
    |> set_imm 0
    |> set_aq (operand_decode operand_aq inst)
    |> set_rl (operand_decode operand_rl inst).

(** Decode R AMO S. *)
Definition decode_r_a (d : decode) (inst : Z) : decode :=
  d |> set_rd (operand_decode operand_rd inst)
    |> set_rs1 (operand_decode operand_rs1 inst)
    |> set_rs2 (operand_decode operand_rs2 inst)
    |> set_imm 0
    |> set_aq (operand_decode operand_aq inst)
    |> set_rl (operand_decode operand_rl inst).

(** Decode R 4f. *)
Definition decode_r4_m (d : decode) (inst : Z) : decode :=
  d |> set_rd (operand_decode operand_rd inst)
    |> set_rs1 (operand_decode operand_rs1 inst)
    |> set_rs2 (operand_decode operand_rs2 inst)
    |> set_rs3 (operand_decode operand_rs3 inst)
    |> set_imm 0
    |> set_rm (operand_decode operand_rm inst).

(** Decode R fence. *)
Definition decode_r_f (d : decode) (inst : Z) : decode :=
  d |> set_rd rv_ireg_zero
    |> set_rs1 rv_ireg_zero
    |> set_rs2 rv_ireg_zero
    |> set_pred (operand_decode operand_pred inst)
    |> set_succ (operand_decode operand_succ inst)
    |> set_imm 0.

(** Decode I. *)
Definition decode_i (d : decode) (inst : Z) : decode :=
  d |> set_rd (operand_decode operand_rd inst)
    |> set_rs1 (operand_decode operand_rs1 inst)
    |> set_rs2 rv_ireg_zero
    |> set_imm (operand_decode operand_imm12 inst).

(** Decode I CSR. *)
Definition decode_i_csr (d : decode) (inst : Z) : decode :=
  d |> set_rd (operand_decode operand_rd inst)
    |> set_rs1 (operand_decode operand_rs1 inst)
    |> set_rs2 rv_ireg_zero
    |> set_imm (operand_decode operand_csr12 inst).

(** Decode I sh5. *)
Definition decode_i_sh5 (d : decode) (inst : Z) : decode :=
  d |> set_rd (operand_decode operand_rd inst)
    |> set_rs1 (operand_decode operand_rs1 inst)
    |> set_rs2 rv_ireg_zero
    |> set_imm (operand_decode operand_shamt5 inst).

(** Decode I sh6. *)
Definition decode_i_sh6 (d : decode) (inst : Z) : decode :=
  d |> set_rd (operand_decode operand_rd inst)
    |> set_rs1 (operand_decode operand_rs1 inst)
    |> set_rs2 rv_ireg_zero
    |> set_imm (operand_decode operand_shamt6 inst).

(** Decode I sh7. *)
Definition decode_i_sh7 (d : decode) (inst : Z) : decode :=
  d |> set_rd (operand_decode operand_rd inst)
    |> set_rs1 (operand_decode operand_rs1 inst)
    |> set_rs2 rv_ireg_zero
    |> set_imm (operand_decode operand_shamt7 inst).

(** Decode S Store. *)
Definition decode_s (d : decode) (inst : Z) : decode :=
  d |> set_rd rv_ireg_zero
    |> set_rs1 (operand_decode operand_rs1 inst)
    |> set_rs2 (operand_decode operand_rs2 inst)
    |> set_imm (operand_decode operand_simm12 inst).

(** Decode SB Branch. *)
Definition decode_sb (d : decode) (inst : Z) : decode :=
  d |> set_rd rv_ireg_zero
    |> set_rs1 (operand_decode operand_rs1 inst)
    |> set_rs2 (operand_decode operand_rs2 inst)
    |> set_imm (operand_decode operand_sbimm12 inst).

(** Decode U. *)
Definition decode_u (d : decode) (inst : Z) : decode :=
  d |> set_rd (operand_decode operand_rd inst)
    |> set_rs1 rv_ireg_zero
    |> set_rs2 rv_ireg_zero
    |> set_imm (operand_decode operand_imm20 inst).

(** Decode UJ. *)
Definition decode_uj (d : decode) (inst : Z) : decode :=
  d |> set_rd (operand_decode operand_rd inst)
    |> set_rs1 rv_ireg_zero
    |> set_rs2 rv_ireg_zero
    |> set_imm (operand_decode operand_jimm20 inst).

(** ** The opcode decision tree

    The template parameters of [decode_inst_op]: which base ISA and which
    extensions are decoded. *)
Record isa := mkIsa {
  rv32 : bool; rv64 : bool; rv128 : bool; rvi : bool; rvm : bool; rva : bool;
  rvs : bool; rvf : bool; rvd : bool; rvq : bool; rvc : bool }.

(** Major opcode [inst[6:2] = 0]. *)
Definition decode_op_load (F : isa) (inst : Z) : rv_op :=
  switch (field inst 12 0x7)
    [0 ~> if rvi F then rv_op_lb else rv_op_illegal;
     1 ~> if rvi F then rv_op_lh else rv_op_illegal;
     2 ~> if rvi F then rv_op_lw else rv_op_illegal;
     3 ~> if rvi F then rv_op_ld else rv_op_illegal;
     4 ~> if rvi F then rv_op_lbu else rv_op_illegal;
     5 ~> if rvi F then rv_op_lhu else rv_op_illegal;
     6 ~> if rvi F then rv_op_lwu else rv_op_illegal;
     7 ~> if rvi F && rv128 F then rv_op_ldu else rv_op_illegal]
    rv_op_illegal.

(** Major opcode [inst[6:2] = 1]. *)
Definition decode_op_load_fp (F : isa) (inst : Z) : rv_op :=
  switch (field inst 12 0x7)
    [2 ~> if rvf F then rv_op_flw else rv_op_illegal;
     3 ~> if rvd F then rv_op_fld else rv_op_illegal;
     4 ~> if rvq F then rv_op_flq else rv_op_illegal]
    rv_op_illegal.

(** Major opcode [inst[6:2] = 3]. *)
Definition decode_op_misc_mem (F : isa) (inst : Z) : rv_op :=
  switch (field inst 12 0x7)
    [0 ~> if rvi F then rv_op_fence else rv_op_illegal;
     1 ~> if rvi F then rv_op_fence_i else rv_op_illegal;
     2 ~> if rvi F && rv128 F then rv_op_lq else rv_op_illegal]
    rv_op_illegal.

(** Major opcode [inst[6:2] = 4]. *)
Definition decode_op_op_imm (F : isa) (inst : Z) : rv_op :=
  switch (field inst 12 0x7)
    [0 ~> if rvi F then rv_op_addi else rv_op_illegal;
     1 ~> (switch (field inst 27 0x1f)
          [0 ~> if rvi F && rv32 F then rv_op_slli else if rvi F && rv64 F then rv_op_slli else if rvi F && rv128 F then rv_op_slli else rv_op_illegal]
          rv_op_illegal);
     2 ~> if rvi F then rv_op_slti else rv_op_illegal;
     3 ~> if rvi F then rv_op_sltiu else rv_op_illegal;
     4 ~> if rvi F then rv_op_xori else rv_op_illegal;
     5 ~> (switch (field inst 27 0x1f)
          [0 ~> if rvi F && rv32 F then rv_op_srli else if rvi F && rv64 F then rv_op_srli else if rvi F && rv128 F then rv_op_srli else rv_op_illegal;
           8 ~> if rvi F && rv32 F then rv_op_srai else if rvi F && rv64 F then rv_op_srai else if rvi F && rv128 F then rv_op_srai else rv_op_illegal]
          rv_op_illegal);
     6 ~> if rvi F then rv_op_ori else rv_op_illegal;
     7 ~> if rvi F then rv_op_andi else rv_op_illegal]
    rv_op_illegal.

(** Major opcode [inst[6:2] = 6]. *)
Definition decode_op_op_imm_32 (F : isa) (inst : Z) : rv_op :=
  switch (field inst 12 0x7)
    [0 ~> if rvi F then rv_op_addiw else rv_op_illegal;
     1 ~> (switch (field inst 25 0x7f)
          [0 ~> if rvi F then rv_op_slliw else rv_op_illegal]
          rv_op_illegal);
     5 ~> (switch (field inst 25 0x7f)
          [0 ~> if rvi F then rv_op_srliw else rv_op_illegal;
           32 ~> if rvi F then rv_op_sraiw else rv_op_illegal]
          rv_op_illegal)]
    rv_op_illegal.

(** Major opcode [inst[6:2] = 8]. *)
Definition decode_op_store (F : isa) (inst : Z) : rv_op :=
  switch (field inst 12 0x7)
    [0 ~> if rvi F then rv_op_sb else rv_op_illegal;
     1 ~> if rvi F then rv_op_sh else rv_op_illegal;
     2 ~> if rvi F then rv_op_sw else rv_op_illegal;
     3 ~> if rvi F then rv_op_sd else rv_op_illegal;
     4 ~> if rvi F && rv128 F then rv_op_sq else rv_op_illegal]
    rv_op_illegal.

(** Major opcode [inst[6:2] = 9]. *)
Definition decode_op_store_fp (F : isa) (inst : Z) : rv_op :=
  switch (field inst 12 0x7)
    [2 ~> if rvf F then rv_op_fsw else rv_op_illegal;
     3 ~> if rvd F then rv_op_fsd else rv_op_illegal;
     4 ~> if rvq F then rv_op_fsq else rv_op_illegal]
    rv_op_illegal.

(** Major opcode [inst[6:2] = 11]. *)
Definition decode_op_amo (F : isa) (inst : Z) : rv_op :=
  switch (Z.lor (field inst 24 0xf8) (field inst 12 0x7))
    [2 ~> if rva F then rv_op_amoadd_w else rv_op_illegal;
     3 ~> if rva F then rv_op_amoadd_d else rv_op_illegal;
     4 ~> if rva F && rv128 F then rv_op_amoadd_q else rv_op_illegal;
     10 ~> if rva F then rv_op_amoswap_w else rv_op_illegal;
     11 ~> if rva F then rv_op_amoswap_d else rv_op_illegal;
     12 ~> if rva F && rv128 F then rv_op_amoswap_q else rv_op_illegal;
     18 ~> (switch (field inst 20 0x1f)
          [0 ~> if rva F then rv_op_lr_w else rv_op_illegal]
          rv_op_illegal);
     19 ~> (switch (field inst 20 0x1f)
          [0 ~> if rva F then rv_op_lr_d else rv_op_illegal]
          rv_op_illegal);
     20 ~> (switch (field inst 20 0x1f)
          [0 ~> if rva F && rv128 F then rv_op_lr_q else rv_op_illegal]
          rv_op_illegal);
     26 ~> if rva F then rv_op_sc_w else rv_op_illegal;
     27 ~> if rva F then rv_op_sc_d else rv_op_illegal;
     28 ~> if rva F && rv128 F then rv_op_sc_q else rv_op_illegal;
     34 ~> if rva F then rv_op_amoxor_w else rv_op_illegal;
     35 ~> if rva F then rv_op_amoxor_d else rv_op_illegal;
     36 ~> if rva F && rv128 F then rv_op_amoxor_q else rv_op_illegal;
     66 ~> if rva F then rv_op_amoor_w else rv_op_illegal;
     67 ~> if rva F then rv_op_amoor_d else rv_op_illegal;
     68 ~> if rva F && rv128 F then rv_op_amoor_q else rv_op_illegal;
     98 ~> if rva F then rv_op_amoand_w else rv_op_illegal;
     99 ~> if rva F then rv_op_amoand_d else rv_op_illegal;
     100 ~> if rva F && rv128 F then rv_op_amoand_q else rv_op_illegal;
     130 ~> if rva F then rv_op_amomin_w else rv_op_illegal;
     131 ~> if rva F then rv_op_amomin_d else rv_op_illegal;
     132 ~> if rva F && rv128 F then rv_op_amomin_q else rv_op_illegal;
     162 ~> if rva F then rv_op_amomax_w else rv_op_illegal;
     163 ~> if rva F then rv_op_amomax_d else rv_op_illegal;
     164 ~> if rva F && rv128 F then rv_op_amomax_q else rv_op_illegal;
     194 ~> if rva F then rv_op_amominu_w else rv_op_illegal;
     195 ~> if rva F then rv_op_amominu_d else rv_op_illegal;
     196 ~> if rva F && rv128 F then rv_op_amominu_q else rv_op_illegal;
     226 ~> if rva F then rv_op_amomaxu_w else rv_op_illegal;
     227 ~> if rva F then rv_op_amomaxu_d else rv_op_illegal;
     228 ~> if rva F && rv128 F then rv_op_amomaxu_q else rv_op_illegal]
    rv_op_illegal.

(** Major opcode [inst[6:2] = 12]. *)
Definition decode_op_op (F : isa) (inst : Z) : rv_op :=
  switch (Z.lor (field inst 22 0x3f8) (field inst 12 0x7))
    [0 ~> if rvi F then rv_op_add else rv_op_illegal;
     1 ~> if rvi F then rv_op_sll else rv_op_illegal;
     2 ~> if rvi F then rv_op_slt else rv_op_illegal;
     3 ~> if rvi F then rv_op_sltu else rv_op_illegal;
     4 ~> if rvi F then rv_op_xor else rv_op_illegal;
     5 ~> if rvi F then rv_op_srl else rv_op_illegal;
     6 ~> if rvi F then rv_op_or else rv_op_illegal;
     7 ~> if rvi F then rv_op_and else rv_op_illegal;
     8 ~> if rvm F then rv_op_mul else rv_op_illegal;
     9 ~> if rvm F then rv_op_mulh else rv_op_illegal;
     10 ~> if rvm F then rv_op_mulhsu else rv_op_illegal;
     11 ~> if rvm F then rv_op_mulhu else rv_op_illegal;
     12 ~> if rvm F then rv_op_div else rv_op_illegal;
     13 ~> if rvm F then rv_op_divu else rv_op_illegal;
     14 ~> if rvm F then rv_op_rem else rv_op_illegal;
     15 ~> if rvm F then rv_op_remu else rv_op_illegal;
     256 ~> if rvi F then rv_op_sub else rv_op_illegal;
     261 ~> if rvi F then rv_op_sra else rv_op_illegal]
    rv_op_illegal.

(** Major opcode [inst[6:2] = 14]. *)
Definition decode_op_op_32 (F : isa) (inst : Z) : rv_op :=
  switch (Z.lor (field inst 22 0x3f8) (field inst 12 0x7))
    [0 ~> if rvi F then rv_op_addw else rv_op_illegal;
     1 ~> if rvi F then rv_op_sllw else rv_op_illegal;
     5 ~> if rvi F then rv_op_srlw else rv_op_illegal;
     8 ~> if rvm F then rv_op_mulw else rv_op_illegal;
     12 ~> if rvm F then rv_op_divw else rv_op_illegal;
     13 ~> if rvm F then rv_op_divuw else rv_op_illegal;
     14 ~> if rvm F then rv_op_remw else rv_op_illegal;
     15 ~> if rvm F then rv_op_remuw else rv_op_illegal;
     256 ~> if rvi F then rv_op_subw else rv_op_illegal;
     261 ~> if rvi F then rv_op_sraw else rv_op_illegal]
    rv_op_illegal.

(** Major opcode [inst[6:2] = 16]. *)
Definition decode_op_madd (F : isa) (inst : Z) : rv_op :=
  switch (field inst 25 0x3)
    [0 ~> if rvf F then rv_op_fmadd_s else rv_op_illegal;
     1 ~> if rvd F then rv_op_fmadd_d else rv_op_illegal;
     3 ~> if rvq F then rv_op_fmadd_q else rv_op_illegal]
    rv_op_illegal.

(** Major opcode [inst[6:2] = 17]. *)
Definition decode_op_msub (F : isa) (inst : Z) : rv_op :=
  switch (field inst 25 0x3)
    [0 ~> if rvf F then rv_op_fmsub_s else rv_op_illegal;
     1 ~> if rvd F then rv_op_fmsub_d else rv_op_illegal;
     3 ~> if rvq F then rv_op_fmsub_q else rv_op_illegal]
    rv_op_illegal.

(** Major opcode [inst[6:2] = 18]. *)
Definition decode_op_nmsub (F : isa) (inst : Z) : rv_op :=
  switch (field inst 25 0x3)
    [0 ~> if rvf F then rv_op_fnmsub_s else rv_op_illegal;
     1 ~> if rvd F then rv_op_fnmsub_d else rv_op_illegal;
     3 ~> if rvq F then rv_op_fnmsub_q else rv_op_illegal]
    rv_op_illegal.

(** Major opcode [inst[6:2] = 19]. *)
Definition decode_op_nmadd (F : isa) (inst : Z) : rv_op :=
  switch (field inst 25 0x3)
    [0 ~> if rvf F then rv_op_fnmadd_s else rv_op_illegal;
     1 ~> if rvd F then rv_op_fnmadd_d else rv_op_illegal;
     3 ~> if rvq F then rv_op_fnmadd_q else rv_op_illegal]
    rv_op_illegal.

(** Major opcode [inst[6:2] = 20]. *)
Definition decode_op_op_fp (F : isa) (inst : Z) : rv_op :=
  switch (field inst 25 0x7f)
    [0 ~> if rvf F then rv_op_fadd_s else rv_op_illegal;
     1 ~> if rvd F then rv_op_fadd_d else rv_op_illegal;
     3 ~> if rvq F then rv_op_fadd_q else rv_op_illegal;
     4 ~> if rvf F then rv_op_fsub_s else rv_op_illegal;
     5 ~> if rvd F then rv_op_fsub_d else rv_op_illegal;
     7 ~> if rvq F then rv_op_fsub_q else rv_op_illegal;
     8 ~> if rvf F then rv_op_fmul_s else rv_op_illegal;
     9 ~> if rvd F then rv_op_fmul_d else rv_op_illegal;
     11 ~> if rvq F then rv_op_fmul_q else rv_op_illegal;
     12 ~> if rvf F then rv_op_fdiv_s else rv_op_illegal;
     13 ~> if rvd F then rv_op_fdiv_d else rv_op_illegal;
     15 ~> if rvq F then rv_op_fdiv_q else rv_op_illegal;
     16 ~> (switch (field inst 12 0x7)
          [0 ~> if rvf F then rv_op_fsgnj_s else rv_op_illegal;
           1 ~> if rvf F then rv_op_fsgnjn_s else rv_op_illegal;
           2 ~> if rvf F then rv_op_fsgnjx_s else rv_op_illegal]
          rv_op_illegal);
     17 ~> (switch (field inst 12 0x7)
          [0 ~> if rvd F then rv_op_fsgnj_d else rv_op_illegal;
           1 ~> if rvd F then rv_op_fsgnjn_d else rv_op_illegal;
           2 ~> if rvd F then rv_op_fsgnjx_d else rv_op_illegal]
          rv_op_illegal);
     19 ~> (switch (field inst 12 0x7)
          [0 ~> if rvq F then rv_op_fsgnj_q else rv_op_illegal;
           1 ~> if rvq F then rv_op_fsgnjn_q else rv_op_illegal;
           2 ~> if rvq F then rv_op_fsgnjx_q else rv_op_illegal]
          rv_op_illegal);
     20 ~> (switch (field inst 12 0x7)
          [0 ~> if rvf F then rv_op_fmin_s else rv_op_illegal;
           1 ~> if rvf F then rv_op_fmax_s else rv_op_illegal]
          rv_op_illegal);
     21 ~> (switch (field inst 12 0x7)
          [0 ~> if rvd F then rv_op_fmin_d else rv_op_illegal;
           1 ~> if rvd F then rv_op_fmax_d else rv_op_illegal]
          rv_op_illegal);
     23 ~> (switch (field inst 12 0x7)
          [0 ~> if rvq F then rv_op_fmin_q else rv_op_illegal;
           1 ~> if rvq F then rv_op_fmax_q else rv_op_illegal]
          rv_op_illegal);
     32 ~> (switch (field inst 20 0x1f)
          [1 ~> if rvd F then rv_op_fcvt_s_d else rv_op_illegal;
           3 ~> if rvq F then rv_op_fcvt_s_q else rv_op_illegal]
          rv_op_illegal);
     33 ~> (switch (field inst 20 0x1f)
          [0 ~> if rvd F then rv_op_fcvt_d_s else rv_op_illegal;
           3 ~> if rvq F then rv_op_fcvt_d_q else rv_op_illegal]
          rv_op_illegal);
     35 ~> (switch (field inst 20 0x1f)
          [0 ~> if rvq F then rv_op_fcvt_q_s else rv_op_illegal;
           1 ~> if rvq F then rv_op_fcvt_q_d else rv_op_illegal]
          rv_op_illegal);
     44 ~> (switch (field inst 20 0x1f)
          [0 ~> if rvf F then rv_op_fsqrt_s else rv_op_illegal]
          rv_op_illegal);
     45 ~> (switch (field inst 20 0x1f)
          [0 ~> if rvd F then rv_op_fsqrt_d else rv_op_illegal]
          rv_op_illegal);
     47 ~> (switch (field inst 20 0x1f)
          [0 ~> if rvq F then rv_op_fsqrt_q else rv_op_illegal]
          rv_op_illegal);
     80 ~> (switch (field inst 12 0x7)
          [0 ~> if rvf F then rv_op_fle_s else rv_op_illegal;
           1 ~> if rvf F then rv_op_flt_s else rv_op_illegal;
           2 ~> if rvf F then rv_op_feq_s else rv_op_illegal]
          rv_op_illegal);
     81 ~> (switch (field inst 12 0x7)
          [0 ~> if rvd F then rv_op_fle_d else rv_op_illegal;
           1 ~> if rvd F then rv_op_flt_d else rv_op_illegal;
           2 ~> if rvd F then rv_op_feq_d else rv_op_illegal]
          rv_op_illegal);
     83 ~> (switch (field inst 12 0x7)
          [0 ~> if rvq F then rv_op_fle_q else rv_op_illegal;
           1 ~> if rvq F then rv_op_flt_q else rv_op_illegal;
           2 ~> if rvq F then rv_op_feq_q else rv_op_illegal]
          rv_op_illegal);
     96 ~> (switch (field inst 20 0x1f)
          [0 ~> if rvf F then rv_op_fcvt_w_s else rv_op_illegal;
           1 ~> if rvf F then rv_op_fcvt_wu_s else rv_op_illegal;
           2 ~> if rvf F then rv_op_fcvt_l_s else rv_op_illegal;
           3 ~> if rvf F then rv_op_fcvt_lu_s else rv_op_illegal]
          rv_op_illegal);
     97 ~> (switch (field inst 20 0x1f)
          [0 ~> if rvd F then rv_op_fcvt_w_d else rv_op_illegal;
           1 ~> if rvd F then rv_op_fcvt_wu_d else rv_op_illegal;
           2 ~> if rvd F then rv_op_fcvt_l_d else rv_op_illegal;
           3 ~> if rvd F then rv_op_fcvt_lu_d else rv_op_illegal]
          rv_op_illegal);
     99 ~> (switch (field inst 20 0x1f)
          [0 ~> if rvq F then rv_op_fcvt_w_q else rv_op_illegal;
           1 ~> if rvq F then rv_op_fcvt_wu_q else rv_op_illegal;
           2 ~> if rvq F then rv_op_fcvt_l_q else rv_op_illegal;
           3 ~> if rvq F then rv_op_fcvt_lu_q else rv_op_illegal]
          rv_op_illegal);
     104 ~> (switch (field inst 20 0x1f)
          [0 ~> if rvf F then rv_op_fcvt_s_w else rv_op_illegal;
           1 ~> if rvf F then rv_op_fcvt_s_wu else rv_op_illegal;
           2 ~> if rvf F then rv_op_fcvt_s_l else rv_op_illegal;
           3 ~> if rvf F then rv_op_fcvt_s_lu else rv_op_illegal]
          rv_op_illegal);
     105 ~> (switch (field inst 20 0x1f)
          [0 ~> if rvd F then rv_op_fcvt_d_w else rv_op_illegal;
           1 ~> if rvd F then rv_op_fcvt_d_wu else rv_op_illegal;
           2 ~> if rvd F then rv_op_fcvt_d_l else rv_op_illegal;
           3 ~> if rvd F then rv_op_fcvt_d_lu else rv_op_illegal]
          rv_op_illegal);
     107 ~> (switch (field inst 20 0x1f)
          [0 ~> if rvq F then rv_op_fcvt_q_w else rv_op_illegal;
           1 ~> if rvq F then rv_op_fcvt_q_wu else rv_op_illegal;
           2 ~> if rvq F then rv_op_fcvt_q_l else rv_op_illegal;
           3 ~> if rvq F then rv_op_fcvt_q_lu else rv_op_illegal]
          rv_op_illegal);
     112 ~> (switch (Z.lor (field inst 17 0xf8) (field inst 12 0x7))
          [0 ~> if rvf F then rv_op_fmv_x_s else rv_op_illegal;
           1 ~> if rvf F then rv_op_fclass_s else rv_op_illegal]
          rv_op_illegal);
     113 ~> (switch (Z.lor (field inst 17 0xf8) (field inst 12 0x7))
          [0 ~> if rvd F then rv_op_fmv_x_d else rv_op_illegal;
           1 ~> if rvd F then rv_op_fclass_d else rv_op_illegal]
          rv_op_illegal);
     115 ~> (switch (Z.lor (field inst 17 0xf8) (field inst 12 0x7))
          [0 ~> if rvq F then rv_op_fmv_x_q else rv_op_illegal;
           1 ~> if rvq F then rv_op_fclass_q else rv_op_illegal]
          rv_op_illegal);
     120 ~> (switch (Z.lor (field inst 17 0xf8) (field inst 12 0x7))
          [0 ~> if rvf F then rv_op_fmv_s_x else rv_op_illegal]
          rv_op_illegal);
     121 ~> (switch (Z.lor (field inst 17 0xf8) (field inst 12 0x7))
          [0 ~> if rvd F then rv_op_fmv_d_x else rv_op_illegal]
          rv_op_illegal);
     123 ~> (switch (Z.lor (field inst 17 0xf8) (field inst 12 0x7))
          [0 ~> if rvq F then rv_op_fmv_q_x else rv_op_illegal]
          rv_op_illegal)]
    rv_op_illegal.

(** Major opcode [inst[6:2] = 22]. *)
Definition decode_op_op_imm_64 (F : isa) (inst : Z) : rv_op :=
  switch (field inst 12 0x7)
    [0 ~> if rvi F && rv128 F then rv_op_addid else rv_op_illegal;
     1 ~> (switch (field inst 26 0x3f)
          [0 ~> if rvi F && rv128 F then rv_op_sllid else rv_op_illegal]
          rv_op_illegal);
     5 ~> (switch (field inst 26 0x3f)
          [0 ~> if rvi F && rv128 F then rv_op_srlid else rv_op_illegal;
           16 ~> if rvi F && rv128 F then rv_op_sraid else rv_op_illegal]
          rv_op_illegal)]
    rv_op_illegal.

(** Major opcode [inst[6:2] = 24]. *)
Definition decode_op_branch (F : isa) (inst : Z) : rv_op :=
  switch (field inst 12 0x7)
    [0 ~> if rvi F then rv_op_beq else rv_op_illegal;
     1 ~> if rvi F then rv_op_bne else rv_op_illegal;
     4 ~> if rvi F then rv_op_blt else rv_op_illegal;
     5 ~> if rvi F then rv_op_bge else rv_op_illegal;
     6 ~> if rvi F then rv_op_bltu else rv_op_illegal;
     7 ~> if rvi F then rv_op_bgeu else rv_op_illegal]
    rv_op_illegal.

(** Major opcode [inst[6:2] = 25]. *)
Definition decode_op_jalr (F : isa) (inst : Z) : rv_op :=
  switch (field inst 12 0x7)
    [0 ~> if rvi F then rv_op_jalr else rv_op_illegal]
    rv_op_illegal.

(** Major opcode [inst[6:2] = 28]. *)
Definition decode_op_system (F : isa) (inst : Z) : rv_op :=
  switch (field inst 12 0x7)
    [0 ~> (switch (Z.lor (field inst 15 0x1ffe0) (field inst 7 0x1f))
          [0 ~> (switch (field inst 15 0x1f)
                [0 ~> if rvs F then rv_op_ecall else rv_op_illegal]
                rv_op_illegal);
           32 ~> (switch (field inst 15 0x1f)
                [0 ~> if rvs F then rv_op_ebreak else rv_op_illegal]
                rv_op_illegal);
           64 ~> (switch (field inst 15 0x1f)
                [0 ~> if rvs F then rv_op_uret else rv_op_illegal]
                rv_op_illegal);
           8256 ~> (switch (field inst 15 0x1f)
                [0 ~> if rvs F then rv_op_sret else rv_op_illegal]
                rv_op_illegal);
           8320 ~> if rvs F then rv_op_sfence_vm else rv_op_illegal;
           8352 ~> (switch (field inst 15 0x1f)
                [0 ~> if rvs F then rv_op_wfi else rv_op_illegal]
                rv_op_illegal);
           16448 ~> (switch (field inst 15 0x1f)
                [0 ~> if rvs F then rv_op_hret else rv_op_illegal]
                rv_op_illegal);
           24640 ~> (switch (field inst 15 0x1f)
                [0 ~> if rvs F then rv_op_mret else rv_op_illegal]
                rv_op_illegal);
           63040 ~> (switch (field inst 15 0x1f)
                [0 ~> if rvs F then rv_op_dret else rv_op_illegal]
                rv_op_illegal)]
          rv_op_illegal);
     1 ~> if rvs F then rv_op_csrrw else rv_op_illegal;
     2 ~> if rvs F then rv_op_csrrs else rv_op_illegal;
     3 ~> if rvs F then rv_op_csrrc else rv_op_illegal;
     5 ~> if rvs F then rv_op_csrrwi else rv_op_illegal;
     6 ~> if rvs F then rv_op_csrrsi else rv_op_illegal;
     7 ~> if rvs F then rv_op_csrrci else rv_op_illegal]
    rv_op_illegal.

(** Major opcode [inst[6:2] = 30]. *)
Definition decode_op_op_64 (F : isa) (inst : Z) : rv_op :=
  switch (Z.lor (field inst 22 0x3f8) (field inst 12 0x7))
    [0 ~> if rvi F && rv128 F then rv_op_addd else rv_op_illegal;
     1 ~> if rvi F && rv128 F then rv_op_slld else rv_op_illegal;
     5 ~> if rvi F && rv128 F then rv_op_srld else rv_op_illegal;
     8 ~> if rvm F && rv128 F then rv_op_muld else rv_op_illegal;
     12 ~> if rvm F && rv128 F then rv_op_divd else rv_op_illegal;
     13 ~> if rvm F && rv128 F then rv_op_divud else rv_op_illegal;
     14 ~> if rvm F && rv128 F then rv_op_remd else rv_op_illegal;
     15 ~> if rvm F && rv128 F then rv_op_remud else rv_op_illegal;
     256 ~> if rvi F && rv128 F then rv_op_subd else rv_op_illegal;
     261 ~> if rvi F && rv128 F then rv_op_srad else rv_op_illegal]
    rv_op_illegal.

(** Compressed quadrant 0 ([inst[1:0] = 0]). *)
Definition decode_op_q0 (F : isa) (inst : Z) : rv_op :=
  switch (field inst 13 0x7)
    [0 ~> if rvc F then rv_op_c_addi4spn else rv_op_illegal;
     1 ~> if rvc F then rv_op_c_fld else rv_op_illegal;
     2 ~> if rvc F then rv_op_c_lw else rv_op_illegal;
     3 ~> if rvc F && rv32 F then rv_op_c_flw else if rvc F && rv64 F then rv_op_c_ld else rv_op_illegal;
     5 ~> if rvc F then rv_op_c_fsd else rv_op_illegal;
     6 ~> if rvc F then rv_op_c_sw else rv_op_illegal;
     7 ~> if rvc F && rv32 F then rv_op_c_fsw else if rvc F && rv64 F then rv_op_c_sd else rv_op_illegal]
    rv_op_illegal.

(** Compressed quadrant 1 ([inst[1:0] = 1]). *)
Definition decode_op_q1 (F : isa) (inst : Z) : rv_op :=
  switch (field inst 13 0x7)
    [0 ~> (switch (field inst 2 0x7ff)
          [0 ~> if rvc F then rv_op_c_nop else rv_op_illegal]
          (if rvc F then rv_op_c_addi else rv_op_illegal));
     1 ~> if rvc F && rv32 F then rv_op_c_jal else if rvc F && rv64 F then rv_op_c_addiw else rv_op_illegal;
     2 ~> if rvc F then rv_op_c_li else rv_op_illegal;
     3 ~> (switch (field inst 7 0x1f)
          [2 ~> if rvc F then rv_op_c_addi16sp else rv_op_illegal]
          (if rvc F then rv_op_c_lui else rv_op_illegal));
     4 ~> (switch (field inst 10 0x3)
          [0 ~> if rvc F && rv32 F then rv_op_c_srli else if rvc F && rv64 F then rv_op_c_srli else rv_op_illegal;
           1 ~> if rvc F && rv32 F then rv_op_c_srai else if rvc F && rv64 F then rv_op_c_srai else rv_op_illegal;
           2 ~> if rvc F then rv_op_c_andi else rv_op_illegal;
           3 ~> (switch (Z.lor (field inst 10 0x4) (field inst 5 0x3))
                [0 ~> if rvc F then rv_op_c_sub else rv_op_illegal;
                 1 ~> if rvc F then rv_op_c_xor else rv_op_illegal;
                 2 ~> if rvc F then rv_op_c_or else rv_op_illegal;
                 3 ~> if rvc F then rv_op_c_and else rv_op_illegal;
                 4 ~> if rvc F then rv_op_c_subw else rv_op_illegal;
                 5 ~> if rvc F then rv_op_c_addw else rv_op_illegal]
                rv_op_illegal)]
          rv_op_illegal);
     5 ~> if rvc F then rv_op_c_j else rv_op_illegal;
     6 ~> if rvc F then rv_op_c_beqz else rv_op_illegal;
     7 ~> if rvc F then rv_op_c_bnez else rv_op_illegal]
    rv_op_illegal.

(** Compressed quadrant 2 ([inst[1:0] = 2]). *)
Definition decode_op_q2 (F : isa) (inst : Z) : rv_op :=
  switch (field inst 13 0x7)
    [0 ~> if rvc F && rv32 F then rv_op_c_slli else if rvc F && rv64 F then rv_op_c_slli else rv_op_illegal;
     1 ~> if rvc F then rv_op_c_fldsp else rv_op_illegal;
     2 ~> if rvc F then rv_op_c_lwsp else rv_op_illegal;
     3 ~> if rvc F && rv32 F then rv_op_c_flwsp else if rvc F && rv64 F then rv_op_c_ldsp else rv_op_illegal;
     4 ~> (switch (field inst 12 0x1)
          [0 ~> (switch (field inst 2 0x1f)
                [0 ~> if rvc F then rv_op_c_jr else rv_op_illegal]
                (if rvc F then rv_op_c_mv else rv_op_illegal));
           1 ~> (switch (field inst 2 0x1f)
                [0 ~> (switch (field inst 7 0x1f)
                      [0 ~> if rvc F then rv_op_c_ebreak else rv_op_illegal]
                      (if rvc F then rv_op_c_jalr else rv_op_illegal))]
                (if rvc F then rv_op_c_add else rv_op_illegal))]
          rv_op_illegal);
     5 ~> if rvc F then rv_op_c_fsdsp else rv_op_illegal;
     6 ~> if rvc F then rv_op_c_swsp else rv_op_illegal;
     7 ~> if rvc F && rv32 F then rv_op_c_fswsp else if rvc F && rv64 F then rv_op_c_sdsp else rv_op_illegal]
    rv_op_illegal.

(** The 32-bit opcodes ([inst[1:0] = 3]), by major opcode. *)
Definition decode_op_q3 (F : isa) (inst : Z) : rv_op :=
  switch (field inst 2 0x1f)
    [0 ~> decode_op_load F inst;
     1 ~> decode_op_load_fp F inst;
     3 ~> decode_op_misc_mem F inst;
     4 ~> decode_op_op_imm F inst;
     5 ~> if rvi F then rv_op_auipc else rv_op_illegal;
     6 ~> decode_op_op_imm_32 F inst;
     8 ~> decode_op_store F inst;
     9 ~> decode_op_store_fp F inst;
     11 ~> decode_op_amo F inst;
     12 ~> decode_op_op F inst;
     13 ~> if rvi F then rv_op_lui else rv_op_illegal;
     14 ~> decode_op_op_32 F inst;
     16 ~> decode_op_madd F inst;
     17 ~> decode_op_msub F inst;
     18 ~> decode_op_nmsub F inst;
     19 ~> decode_op_nmadd F inst;
     20 ~> decode_op_op_fp F inst;
     22 ~> decode_op_op_imm_64 F inst;
     24 ~> decode_op_branch F inst;
     25 ~> decode_op_jalr F inst;
     27 ~> if rvi F then rv_op_jal else rv_op_illegal;
     28 ~> decode_op_system F inst;
     30 ~> decode_op_op_64 F inst]
    rv_op_illegal.

(** [decode_inst_op]. *)
Definition decode_inst_op (F : isa) (inst : Z) : rv_op :=
  switch (field inst 0 0x3)
    [0 ~> decode_op_q0 F inst;
     1 ~> decode_op_q1 F inst;
     2 ~> decode_op_q2 F inst;
     3 ~> decode_op_q3 F inst]
    rv_op_illegal.

(** ** [decode_inst_type]: the operands, by codec *)
Definition decode_operands (codec : rv_codec) (d : decode) (inst : Z) : decode :=
  match codec with
  | rv_codec_none => decode_none d inst
  | rv_codec_u => decode_u d inst
  | rv_codec_uj => decode_uj d inst
  | rv_codec_i => decode_i d inst
  | rv_codec_i_sh5 => decode_i_sh5 d inst
  | rv_codec_i_sh6 => decode_i_sh6 d inst
  | rv_codec_i_sh7 => decode_i_sh7 d inst
  | rv_codec_i_csr => decode_i_csr d inst
  | rv_codec_s => decode_s d inst
  | rv_codec_sb => decode_sb d inst
  | rv_codec_r => decode_r d inst
  | rv_codec_r_m => decode_r_m d inst
  | rv_codec_r4_m => decode_r4_m d inst
  | rv_codec_r_a => decode_r_a d inst
  | rv_codec_r_l => decode_r_l d inst
  | rv_codec_r_f => decode_r_f d inst
  | rv_codec_cb => decode_cb d inst
  | rv_codec_cb_imm => decode_cb_imm d inst
  | rv_codec_cb_sh5 => decode_cb_sh5 d inst
  | rv_codec_cb_sh6 => decode_cb_sh6 d inst
  | rv_codec_ci => decode_ci d inst
  | rv_codec_ci_sh5 => decode_ci_sh5 d inst
  | rv_codec_ci_sh6 => decode_ci_sh6 d inst
  | rv_codec_ci_16sp => decode_ci_16sp d inst
  | rv_codec_ci_lwsp => decode_ci_lwsp d inst
  | rv_codec_ci_ldsp => decode_ci_ldsp d inst
  | rv_codec_ci_lqsp => decode_ci_lqsp d inst
  | rv_codec_ci_li => decode_ci_li d inst
  | rv_codec_ci_lui => decode_ci_lui d inst
  | rv_codec_ci_none => decode_ci_none d inst
  | rv_codec_ciw_4spn => decode_ciw_4spn d inst
  | rv_codec_cj => decode_cj d inst
  | rv_codec_cj_jal => decode_cj_jal d inst
  | rv_codec_cl_lw => decode_cl_lw d inst
  | rv_codec_cl_ld => decode_cl_ld d inst
  | rv_codec_cl_lq => decode_cl_lq d inst
  | rv_codec_cr => decode_cr d inst
  | rv_codec_cr_mv => decode_cr_mv d inst
  | rv_codec_cr_jalr => decode_cr_jalr d inst
  | rv_codec_cr_jr => decode_cr_jr d inst
  | rv_codec_cs => decode_cs d inst
  | rv_codec_cs_sw => decode_cs_sw d inst
  | rv_codec_cs_sd => decode_cs_sd d inst
  | rv_codec_cs_sq => decode_cs_sq d inst
  | rv_codec_css_swsp => decode_css_swsp d inst
  | rv_codec_css_sdsp => decode_css_sdsp d inst
  | rv_codec_css_sqsp => decode_css_sqsp d inst
  | rv_codec_illegal => d
  end.

Definition decode_inst_type (d : decode) (inst : Z) : decode :=
  let d := set_codec (rv_inst_codec (d_op d)) d in
  decode_operands (d_codec d) d inst.
