(* ===== verification/Encode.v ===== *)
(** * Encode: the operand encoders of [asm/encode.h] and [encode_inst] of
    [asm/switch.h].

    The encoders [assert] the operands their format fixes; the build does not
    define [NDEBUG], so a failed assertion aborts: the result is [None]. *)

From Stdlib Require Import ZArith List.
From stdpp Require Import base numbers list.
From S2P Require Import Prelude Operand Meta Decode.


(** Encode none. *)
Definition encode_none (d : decode) : option Z :=
  Some 0.

(** Encode C nop. *)
Definition encode_ci_none (d : decode) : option Z :=
  if (d_rd d =? rv_ireg_zero) && (d_rs1 d =? rv_ireg_zero) && (d_rs2 d =? rv_ireg_zero)
  then Some 0
  else None.

(** Encode CR. *)
Definition encode_cr (d : decode) : option Z :=
  if (d_rd d =? d_rs1 d)
  then Some (Z.lor (operand_encode operand_crs1rd (d_rd d))
      (operand_encode operand_crs2 (d_rs2 d)))
  else None.

(** Encode CR mv. *)
Definition encode_cr_mv (d : decode) : option Z :=
  if (d_imm d =? 0)
  then Some (Z.lor (operand_encode operand_crd (d_rd d))
      (operand_encode operand_crs2 (d_rs1 d)))
  else None.

(** Encode CR jalr. *)
Definition encode_cr_jalr (d : decode) : option Z :=
  if (d_rd d =? rv_ireg_ra)
  then Some (operand_encode operand_crs1 (d_rs1 d))
  else None.

(** Encode CR jr. *)
Definition encode_cr_jr (d : decode) : option Z :=
  if (d_rd d =? rv_ireg_zero)
  then Some (operand_encode operand_crs1 (d_rs1 d))
  else None.

(** Encode CI. *)
Definition encode_ci (d : decode) : option Z :=
  if (d_rd d =? d_rs1 d)
  then Some (Z.lor (operand_encode operand_crs1rd (d_rs1 d))
      (operand_encode operand_cimmi (d_imm d)))
  else None.

(** Encode CI shamt5. *)
Definition encode_ci_sh5 (d : decode) : option Z :=
  if (d_rd d =? d_rs1 d)
  then Some (Z.lor (operand_encode operand_crs1rd (d_rs1 d))
      (operand_encode operand_cimmsh5 (d_imm d)))
  else None.

(** Encode CI shamt6. *)
Definition encode_ci_sh6 (d : decode) : option Z :=
  if (d_rd d =? d_rs1 d)
  then Some (Z.lor (operand_encode operand_crs1rd (d_rs1 d))
      (operand_encode operand_cimmsh6 (d_imm d)))
  else None.

(** Encode CI li. *)
Definition encode_ci_li (d : decode) : option Z :=
  if (d_rs1 d =? rv_ireg_zero)
  then Some (Z.lor (operand_encode operand_crd (d_rd d))
      (operand_encode operand_cimmi (d_imm d)))
  else None.

(** Encode CI lui. *)
Definition encode_ci_lui (d : decode) : option Z :=
  if (d_rs1 d =? rv_ireg_zero)
  then Some (Z.lor (operand_encode operand_crd (d_rd d))
      (operand_encode operand_cimmui (d_imm d)))
  else None.

(** Encode CI lwsp. *)
Definition encode_ci_lwsp (d : decode) : option Z :=
  if (d_rs1 d =? rv_ireg_sp)
  then Some (Z.lor (operand_encode operand_crd (d_rd d))
      (operand_encode operand_cimmlwsp (d_imm d)))
  else None.

(** Encode CI ldsp. *)
Definition encode_ci_ldsp (d : decode) : option Z :=
  if (d_rs1 d =? rv_ireg_sp)
  then Some (Z.lor (operand_encode operand_crd (d_rd d))
      (operand_encode operand_cimmldsp (d_imm d)))
  else None.

(** Encode CI lqsp. *)
Definition encode_ci_lqsp (d : decode) : option Z :=
  if (d_rs1 d =? rv_ireg_sp)
  then Some (Z.lor (operand_encode operand_crd (d_rd d))
      (operand_encode operand_cimmlqsp (d_imm d)))
  else None.

(** Encode CI 16sp. *)
Definition encode_ci_16sp (d : decode) : option Z :=
  if (d_rd d =? rv_ireg_sp) && (d_rs1 d =? rv_ireg_sp)
  then Some (operand_encode operand_cimm16sp (d_imm d))
  else None.

(** Encode CSS swsp. *)
Definition encode_css_swsp (d : decode) : option Z :=
  if (d_rs1 d =? rv_ireg_sp)
  then Some (Z.lor (operand_encode operand_crs2 (d_rs2 d))
      (operand_encode operand_cimmswsp (d_imm d)))
  else None.

(** Encode CSS sdsp. *)
Definition encode_css_sdsp (d : decode) : option Z :=
  if (d_rs1 d =? rv_ireg_sp)
  then Some (Z.lor (operand_encode operand_crs2 (d_rs2 d))
      (operand_encode operand_cimmsdsp (d_imm d)))
  else None.

(** Encode CSS sqsp. *)
Definition encode_css_sqsp (d : decode) : option Z :=
  if (d_rs1 d =? rv_ireg_sp)
  then Some (Z.lor (operand_encode operand_crs2 (d_rs2 d))
      (operand_encode operand_cimmsqsp (d_imm d)))
  else None.

(** Encode CIW 4spn. *)
Definition encode_ciw_4spn (d : decode) : option Z :=
  if (d_rs1 d =? rv_ireg_sp)
  then Some (Z.lor (operand_encode operand_crdq (d_rd d + 8))
      (operand_encode operand_cimm4spn (d_imm d)))
  else None.

(** Encode CL lw. *)
Definition encode_cl_lw (d : decode) : option Z :=
  Some (Z.lor (Z.lor (operand_encode operand_crdq (d_rd d + 8))
      (operand_encode operand_crs1q (d_rs1 d + 8)))
      (operand_encode operand_cimmw (d_imm d))).

(** Encode CL ld. *)
Definition encode_cl_ld (d : decode) : option Z :=
  Some (Z.lor (Z.lor (operand_encode operand_crdq (d_rd d + 8))
      (operand_encode operand_crs1q (d_rs1 d + 8)))
      (operand_encode operand_cimmd (d_imm d))).

(** Encode CL lq. *)
Definition encode_cl_lq (d : decode) : option Z :=
  Some (Z.lor (Z.lor (operand_encode operand_crdq (d_rd d + 8))
      (operand_encode operand_crs1q (d_rs1 d + 8)))
      (operand_encode operand_cimmq (d_imm d))).

(** Encode CS f. *)
Definition encode_cs (d : decode) : option Z :=
  if (d_rd d =? d_rs1 d)
  then Some (Z.lor (operand_encode operand_crdq (d_rd d + 8))
      (operand_encode operand_crs1q (d_rs1 d + 8)))
  else None.

(** Encode CS sw. *)
Definition encode_cs_sw (d : decode) : option Z :=
  Some (Z.lor (Z.lor (operand_encode operand_crs1q (d_rs1 d + 8))
      (operand_encode operand_crs2q (d_rs2 d + 8)))
      (operand_encode operand_cimmw (d_imm d))).

(** Encode CS sd. *)
Definition encode_cs_sd (d : decode) : option Z :=
  Some (Z.lor (Z.lor (operand_encode operand_crs1q (d_rs1 d + 8))
      (operand_encode operand_crs2q (d_rs2 d + 8)))
      (operand_encode operand_cimmd (d_imm d))).

(** Encode CS sq. *)
Definition encode_cs_sq (d : decode) : option Z :=
  Some (Z.lor (Z.lor (operand_encode operand_crs1q (d_rs1 d + 8))
      (operand_encode operand_crs2q (d_rs2 d + 8)))
      (operand_encode operand_cimmq (d_imm d))).

(** Encode CB. *)
Definition encode_cb (d : decode) : option Z :=
  Some (Z.lor (operand_encode operand_crs1q (d_rs1 d + 8))
      (operand_encode operand_cimmb (d_imm d))).

(** Encode CB imm. *)
Definition encode_cb_imm (d : decode) : option Z :=
  if (d_rd d =? d_rs1 d)
  then Some (Z.lor (operand_encode operand_crs1rdq (d_rs1 d + 8))
      (operand_encode operand_cimmi (d_imm d)))
  else None.

(** Encode CB shamt5. *)
Definition encode_cb_sh5 (d : decode) : option Z :=
  if (d_rd d =? d_rs1 d)
  then Some (Z.lor (operand_encode operand_crs1rdq (d_rs1 d + 8))
      (operand_encode operand_cimmsh5 (d_imm d)))
  else None.

(** Encode CB shamt6. *)
Definition encode_cb_sh6 (d : decode) : option Z :=
  if (d_rd d =? d_rs1 d)
  then Some (Z.lor (operand_encode operand_crs1rdq (d_rs1 d + 8))
      (operand_encode operand_cimmsh6 (d_imm d)))
  else None.

(** Encode CJ. *)
Definition encode_cj (d : decode) : option Z :=
  Some (operand_encode operand_cimmj (d_imm d)).

(** Encode CJ jal. *)
Definition encode_cj_jal (d : decode) : option Z :=
  Some (operand_encode operand_cimmj (d_imm d)).

(** Encode R. *)
Definition encode_r (d : decode) : option Z :=
  Some (Z.lor (Z.lor (operand_encode operand_rd (d_rd d))
      (operand_encode operand_rs1 (d_rs1 d)))
      (operand_encode operand_rs2 (d_rs2 d))).

(** Encode R RM. *)
Definition encode_r_m (d : decode) : option Z :=
  Some (Z.lor (Z.lor (Z.lor (operand_encode operand_rd (d_rd d))
      (operand_encode operand_rs1 (d_rs1 d)))
      (operand_encode operand_rs2 (d_rs2 d)))
      (operand_encode operand_rm (d_rm d))).

(** Encode R AMO Load. *)
Definition encode_r_l (d : decode) : option Z :=
  if (d_rs2 d =? 0)
  then Some (Z.lor (Z.lor (Z.lor (operand_encode operand_rd (d_rd d))
      (operand_encode operand_rs1 (d_rs1 d)))
      (operand_encode operand_aq (d_aq d)))
      (operand_encode operand_rl (d_rl d)))
  else None.

(** Encode R AMO. *)
Definition encode_r_a (d : decode) : option Z :=
  Some (Z.lor (Z.lor (Z.lor (Z.lor (operand_encode operand_rd (d_rd d))
      (operand_encode operand_rs1 (d_rs1 d)))
      (operand_encode operand_rs2 (d_rs2 d)))
      (operand_encode operand_aq (d_aq d)))
      (operand_encode operand_rl (d_rl d))).

(** Encode R 4f. *)
Definition encode_r4_m (d : decode) : option Z :=
  Some (Z.lor (Z.lor (Z.lor (Z.lor (operand_encode operand_rd (d_rd d))
      (operand_encode operand_rs1 (d_rs1 d)))
      (operand_encode operand_rs2 (d_rs2 d)))
      (operand_encode operand_rs3 (d_rs3 d)))
      (operand_encode operand_rm (d_rm d))).

(** Encode R fence. *)
Definition encode_r_f (d : decode) : option Z :=
  Some (Z.lor (operand_encode operand_pred (d_pred d))
      (operand_encode operand_succ (d_succ d))).

(** Encode I. *)
Definition encode_i (d : decode) : option Z :=
  Some (Z.lor (Z.lor (operand_encode operand_rd (d_rd d))
      (operand_encode operand_rs1 (d_rs1 d)))
      (operand_encode operand_imm12 (d_imm d))).

(** Encode I CSR. *)
Definition encode_i_csr (d : decode) : option Z :=
  Some (Z.lor (Z.lor (operand_encode operand_rd (d_rd d))
      (operand_encode operand_rs1 (d_rs1 d)))
      (operand_encode operand_csr12 (d_imm d))).

(** Encode I sh5. *)
Definition encode_i_sh5 (d : decode) : option Z :=
  Some (Z.lor (Z.lor (operand_encode operand_rd (d_rd d))
      (operand_encode operand_rs1 (d_rs1 d)))
      (operand_encode operand_shamt5 (d_imm d))).

(** Encode I sh6. *)
Definition encode_i_sh6 (d : decode) : option Z :=
  Some (Z.lor (Z.lor (operand_encode operand_rd (d_rd d))
      (operand_encode operand_rs1 (d_rs1 d)))
      (operand_encode operand_shamt6 (d_imm d))).

(** Encode I sh7. *)
Definition encode_i_sh7 (d : decode) : option Z :=
  Some (Z.lor (Z.lor (operand_encode operand_rd (d_rd d))
      (operand_encode operand_rs1 (d_rs1 d)))
      (operand_encode operand_shamt7 (d_imm d))).

(** Encode S Store. *)
Definition encode_s (d : decode) : option Z :=
  Some (Z.lor (Z.lor (operand_encode operand_rs1 (d_rs1 d))
      (operand_encode operand_rs2 (d_rs2 d)))
      (operand_encode operand_simm12 (d_imm d))).

(** Encode SB Branch. *)
Definition encode_sb (d : decode) : option Z :=
  Some (Z.lor (Z.lor (operand_encode operand_rs1 (d_rs1 d))
      (operand_encode operand_rs2 (d_rs2 d)))
      (operand_encode operand_sbimm12 (d_imm d))).

(** Encode U. *)
Definition encode_u (d : decode) : option Z :=
  Some (Z.lor (operand_encode operand_rd (d_rd d))
      (operand_encode operand_imm20 (d_imm d))).

(** Encode UJ. *)
Definition encode_uj (d : decode) : option Z :=
  Some (Z.lor (operand_encode operand_rd (d_rd d))
      (operand_encode operand_jimm20 (d_imm d))).

(** ** [encode_inst]: the operand bits, by codec, and the fixed bits *)
Definition encode_operands (codec : rv_codec) (d : decode) : option Z :=
  match codec with
  | rv_codec_none => encode_none d
  | rv_codec_u => encode_u d
  | rv_codec_uj => encode_uj d
  | rv_codec_i => encode_i d
  | rv_codec_i_sh5 => encode_i_sh5 d
  | rv_codec_i_sh6 => encode_i_sh6 d
  | rv_codec_i_sh7 => encode_i_sh7 d
  | rv_codec_i_csr => encode_i_csr d
  | rv_codec_s => encode_s d
  | rv_codec_sb => encode_sb d
  | rv_codec_r => encode_r d
  | rv_codec_r_m => encode_r_m d
  | rv_codec_r4_m => encode_r4_m d
  | rv_codec_r_a => encode_r_a d
  | rv_codec_r_l => encode_r_l d
  | rv_codec_r_f => encode_r_f d
  | rv_codec_cb => encode_cb d
  | rv_codec_cb_imm => encode_cb_imm d
  | rv_codec_cb_sh5 => encode_cb_sh5 d
  | rv_codec_cb_sh6 => encode_cb_sh6 d
  | rv_codec_ci => encode_ci d
  | rv_codec_ci_sh5 => encode_ci_sh5 d
  | rv_codec_ci_sh6 => encode_ci_sh6 d
  | rv_codec_ci_16sp => encode_ci_16sp d
  | rv_codec_ci_lwsp => encode_ci_lwsp d
  | rv_codec_ci_ldsp => encode_ci_ldsp d
  | rv_codec_ci_lqsp => encode_ci_lqsp d
  | rv_codec_ci_li => encode_ci_li d
  | rv_codec_ci_lui => encode_ci_lui d
  | rv_codec_ci_none => encode_ci_none d
  | rv_codec_ciw_4spn => encode_ciw_4spn d
  | rv_codec_cj => encode_cj d
  | rv_codec_cj_jal => encode_cj_jal d
  | rv_codec_cl_lw => encode_cl_lw d
  | rv_codec_cl_ld => encode_cl_ld d
  | rv_codec_cl_lq => encode_cl_lq d
  | rv_codec_cr => encode_cr d
  | rv_codec_cr_mv => encode_cr_mv d
  | rv_codec_cr_jalr => encode_cr_jalr d
  | rv_codec_cr_jr => encode_cr_jr d
  | rv_codec_cs => encode_cs d
  | rv_codec_cs_sw => encode_cs_sw d
  | rv_codec_cs_sd => encode_cs_sd d
  | rv_codec_cs_sq => encode_cs_sq d
  | rv_codec_css_swsp => encode_css_swsp d
  | rv_codec_css_sdsp => encode_css_sdsp d
  | rv_codec_css_sqsp => encode_css_sqsp d
  | rv_codec_illegal => Some 0
  end.

(** [encode_inst] also stores the opcode's codec in [dec]; the instruction
    word is the result. *)
Definition encode_inst (d : decode) : option Z :=
  let d := set_codec (rv_inst_codec (d_op d)) d in
  bits ← encode_operands (d_codec d) d;
  Some (Z.lor (rv_inst_match (d_op d)) bits).
