(* ===== verification/Codec.v ===== *)
(** * Codec: the instruction codec of [asm/codec.h] and the compression
    constraints of [asm/constraints.h]. *)

From Stdlib Require Import ZArith List.
From stdpp Require Import base numbers list.
From S2P Require Import Prelude Operand Meta Decode Encode.

(** ** Instruction length and fetch *)

(** [inst_length]: 2, 4, 6 or 8 bytes, 0 for a longer encoding. *)
Definition inst_length (inst : Z) : Z :=
  if negb (Z.land inst 0x3 =? 0x3) then 2
  else if negb (Z.land inst 0x1c =? 0x1c) then 4
  else if Z.land inst 0x3f =? 0x1f then 6
  else if Z.land inst 0x7f =? 0x3f then 8
  else 0.

(** Little-endian reads of host memory, given as its bytes; [htole16] and
    [htole32] make the value independent of the host's byte order. *)
Section Fetch.
Context (mem : Z -> Z).

Definition le16 (addr : Z) : Z := Z.lor (mem addr) (Z.shiftl (mem (addr + 1)) 8).
Definition le32 (addr : Z) : Z := Z.lor (le16 addr) (Z.shiftl (le16 (addr + 2)) 16).

(** [inst_fetch]: the instruction and [pc_offset]; [(0, 0)] is an illegal
    instruction. *)
Definition inst_fetch (addr : Z) : Z * Z :=
  let inst := le32 addr in
  if negb (Z.land inst 0x3 =? 0x3) then (Z.land inst 0xffff, 2)
  else if negb (Z.land inst 0x1c =? 0x1c) then (inst, 4)
  else if Z.land inst 0x3f =? 0x1f then
    (Z.lor inst (Z.shiftl (le16 (addr + 4)) 32), 6)
  else if Z.land inst 0x7f =? 0x3f then
    (Z.lor inst (Z.shiftl (le32 (addr + 4)) 32), 8)
  else (0, 0).
End Fetch.

(** ** Decompression *)
Definition decompress (decomp_op : rv_op) (d : decode) : decode :=
  if decide (decomp_op = rv_op_illegal) then d
  else set_codec (rv_inst_codec decomp_op) (set_op decomp_op d).

Definition decompress_inst_rv32 (d : decode) : decode := decompress (rv_inst_decomp_rv32 (d_op d)) d.
Definition decompress_inst_rv64 (d : decode) : decode := decompress (rv_inst_decomp_rv64 (d_op d)) d.
Definition decompress_inst_rv128 (d : decode) : decode := decompress (rv_inst_decomp_rv128 (d_op d)) d.

(** ** Decoding *)
Definition decode_inst (F : isa) (d : decode) (inst : Z) : decode :=
  decode_inst_type (set_op (decode_inst_op F inst) d) inst.

(** The default template arguments: every extension is decoded. *)
Definition isa_rv32 : isa := mkIsa true false false true true true true true true true true.
Definition isa_rv64 : isa := mkIsa false true false true true true true true true true true.
Definition isa_rv128 : isa := mkIsa false false true true true true true true true true true.

Definition decode_inst_rv32 (d : decode) (inst : Z) : decode :=
  decompress_inst_rv32 (decode_inst isa_rv32 d inst).
Definition decode_inst_rv64 (d : decode) (inst : Z) : decode :=
  decompress_inst_rv64 (decode_inst isa_rv64 d inst).
Definition decode_inst_rv128 (d : decode) (inst : Z) : decode :=
  decompress_inst_rv128 (decode_inst isa_rv128 d inst).

(** ** Constraints *)

(** One [case] of [constraint_check]. *)
Definition constraint_holds (d : decode) (c : rvc_constraint) : bool :=
  let imm := d_imm d in let rd := d_rd d in let rs1 := d_rs1 d in let rs2 := d_rs2 d in
  match c with
  | rvc_simm_6 => ((-32) <=? imm) && (imm <? 32)
  | rvc_imm_6 => (imm <=? 0x3f)
  | rvc_imm_7 => (imm <=? 0x7f)
  | rvc_imm_8 => (imm <=? 0xff)
  | rvc_imm_9 => (imm <=? 0x1ff)
  | rvc_imm_10 => (imm <=? 0x3ff)
  | rvc_imm_12 => (imm <=? 0xfff)
  | rvc_imm_18 => (imm <=? 0x3ffff)
  | rvc_imm_nz => negb (imm =? 0)
  | rvc_imm_x2 => (Z.land imm 0x1 =? 0)
  | rvc_imm_x4 => (Z.land imm 0x3 =? 0)
  | rvc_imm_x8 => (Z.land imm 0x7 =? 0)
  | rvc_imm_x16 => (Z.land imm 0xf =? 0)
  | rvc_rd_b3 => (8 <=? rd) && (rd <=? 15)
  | rvc_rs1_b3 => (8 <=? rs1) && (rs1 <=? 15)
  | rvc_rs2_b3 => (8 <=? rs2) && (rs2 <=? 15)
  | rvc_rd_eq_rs1 => (rd =? rs1)
  | rvc_rd_eq_ra => (rd =? 1)
  | rvc_rd_eq_sp => (rd =? 2)
  | rvc_rd_eq_x0 => (rd =? 0)
  | rvc_rs1_eq_sp => (rs1 =? 2)
  | rvc_rs1_eq_x0 => (rs1 =? 0)
  | rvc_rs2_eq_x0 => (rs2 =? 0)
  | rvc_rd_ne_x0_x2 => negb (rd =? 0) && negb (rd =? 2)
  | rvc_rd_ne_x0 => negb (rd =? 0)
  | rvc_rs1_ne_x0 => negb (rs1 =? 0)
  | rvc_rs2_ne_x0 => negb (rs2 =? 0)
  | rvc_rs2_eq_rs1 => (rs2 =? rs1)
  | rvc_rs1_eq_ra => (rs1 =? 1)
  | rvc_imm_eq_zero => (imm =? 0)
  | rvc_imm_eq_n1 => (imm =? (-1))
  | rvc_imm_eq_p1 => (imm =? 1)
  | rvc_csr_eq_0x001 => (imm =? 0x001)
  | rvc_csr_eq_0x002 => (imm =? 0x002)
  | rvc_csr_eq_0x003 => (imm =? 0x003)
  | rvc_csr_eq_0xc00 => (imm =? 0xc00)
  | rvc_csr_eq_0xc01 => (imm =? 0xc01)
  | rvc_csr_eq_0xc02 => (imm =? 0xc02)
  | rvc_csr_eq_0xc80 => (imm =? 0xc80)
  | rvc_csr_eq_0xc81 => (imm =? 0xc81)
  | rvc_csr_eq_0xc82 => (imm =? 0xc82)
  end.

(** The loop over the constraints. *)
Definition constraint_check (d : decode) (cs : list rvc_constraint) : bool :=
  forallb (constraint_holds d) cs.

(** One [case] of [constraint_set]. *)
Definition constraint_assign (d : decode) (c : rvc_constraint) : decode :=
  match c with
  | rvc_rd_eq_rs1 => set_rd (d_rs1 d) d
  | rvc_rd_eq_ra => set_rd 1 d
  | rvc_rd_eq_sp => set_rd 2 d
  | rvc_rd_eq_x0 => set_rd 0 d
  | rvc_rs1_eq_sp => set_rs1 2 d
  | rvc_rs1_eq_x0 => set_rs1 0 d
  | rvc_rs2_eq_x0 => set_rs2 0 d
  | rvc_rs2_eq_rs1 => set_rs2 (d_rs1 d) d
  | rvc_rs1_eq_ra => set_rs1 1 d
  | rvc_imm_eq_zero => set_imm 0 d
  | rvc_imm_eq_n1 => set_imm (-1) d
  | rvc_imm_eq_p1 => set_imm 1 d
  | rvc_csr_eq_0x001 => set_imm 0x001 d
  | rvc_csr_eq_0x002 => set_imm 0x002 d
  | rvc_csr_eq_0x003 => set_imm 0x003 d
  | rvc_csr_eq_0xc00 => set_imm 0xc00 d
  | rvc_csr_eq_0xc01 => set_imm 0xc01 d
  | rvc_csr_eq_0xc02 => set_imm 0xc02 d
  | rvc_csr_eq_0xc80 => set_imm 0xc80 d
  | rvc_csr_eq_0xc81 => set_imm 0xc81 d
  | rvc_csr_eq_0xc82 => set_imm 0xc82 d
  | _ => d
  end.

Definition constraint_set (d : decode) (cs : list rvc_constraint) : decode :=
  fold_left constraint_assign cs d.

(** ** Compression and pseudo-instructions

    The loop of [compress_inst_rv*] and [decode_pseudo_inst]: the first entry
    whose constraints hold; [None] is the result [false]. *)
Fixpoint comp_search (d : decode) (comp_data : list rv_comp_data) : option decode :=
  match comp_data with
  | [] => None
  | c :: rest =>
      if constraint_check d (comp_constraints c)
      then Some (set_codec (rv_inst_codec (comp_op c)) (set_op (comp_op c) d))
      else comp_search d rest
  end.

Definition decode_pseudo_inst (d : decode) : option decode :=
  comp_data ← rv_inst_pseudo (d_op d); comp_search d comp_data.
Definition compress_inst_rv32 (d : decode) : option decode :=
  comp_data ← rv_inst_comp_rv32 (d_op d); comp_search d comp_data.
Definition compress_inst_rv64 (d : decode) : option decode :=
  comp_data ← rv_inst_comp_rv64 (d_op d); comp_search d comp_data.
Definition compress_inst_rv128 (d : decode) : option decode :=
  comp_data ← rv_inst_comp_rv128 (d_op d); comp_search d comp_data.

(** [encode_pseudo]. *)
Definition encode_pseudo (d : decode) : option decode :=
  comp_data ← rv_inst_depseudo (d_op d);
  let d := set_codec (rv_inst_codec (comp_op comp_data)) (set_op (comp_op comp_data) d) in
  Some (constraint_set d (comp_constraints comp_data)).
