(* ===== verification/CodecSound.v ===== *)
(** * CodecSound: the opcode decision tree against the match/mask tables.

    [decode_inst_op_mask]: an opcode returned by the tree has the fixed bits
    the tables give it.  [decode_inst_op_match]: an instruction with the
    fixed bits of an opcode of the base ISA is decoded as that opcode. *)

From Stdlib Require Import ZArith Lia Bool List.
From stdpp Require Import base numbers list.
From S2P Require Import Prelude Operand Meta Decode Encode Codec.

(** ** Soundness *)

(** [op] is illegal or its fixed bits are those of [inst]. *)
Definition op_matches (inst : Z) (op : rv_op) : Prop :=
  op = rv_op_illegal \/ Z.land inst (rv_inst_mask op) = rv_inst_match op.

Section Sound.
Context (F : isa) (inst : Z).

Lemma op_matches_switch M V s m cases d :
  Z.land inst M = V -> 0 <= s -> op_matches inst d ->
  Forall (fun ka => Z.land inst (Z.lor M (Z.shiftl m s)) = Z.lor V (Z.shiftl ka.1 s) ->
                    op_matches inst ka.2) cases ->
  op_matches inst (switch (field inst s m) cases d).
Proof using.
  intros HM Hs Hd Hc. apply switch_ind; [assumption |].
  eapply Forall_impl; [exact Hc |]. intros [k a] H Hk. apply H.
  apply land_combine; [assumption | apply field_land; assumption].
Qed.

Lemma field_lor_split s1 m1 s2 m2 k :
  Z.land m1 m2 = 0 -> Z.lor (field inst s1 m1) (field inst s2 m2) = k ->
  field inst s1 m1 = Z.land k m1 /\ field inst s2 m2 = Z.land k m2.
Proof using.
  intros H <-. unfold field.
  rewrite !Z.land_lor_distr_l, <- !Z.land_assoc, (Z.land_comm m2 m1), H, !Z.land_diag.
  rewrite !Z.land_0_r, Z.lor_0_r, Z.lor_0_l. auto.
Qed.

Lemma op_matches_switch2 M V s1 m1 s2 m2 cases d :
  Z.land inst M = V -> 0 <= s1 -> 0 <= s2 -> Z.land m1 m2 = 0 -> op_matches inst d ->
  Forall (fun ka =>
      Z.land inst (Z.lor M (Z.lor (Z.shiftl m1 s1) (Z.shiftl m2 s2))) =
      Z.lor V (Z.lor (Z.shiftl (Z.land ka.1 m1) s1) (Z.shiftl (Z.land ka.1 m2) s2)) ->
      op_matches inst ka.2) cases ->
  op_matches inst (switch (Z.lor (field inst s1 m1) (field inst s2 m2)) cases d).
Proof using.
  intros HM Hs1 Hs2 H0 Hd Hc. apply switch_ind; [assumption |].
  eapply Forall_impl; [exact Hc |]. intros [k a] H Hk. apply H.
  destruct (field_lor_split _ _ _ _ _ H0 Hk) as [H1 H2].
  apply land_combine; [assumption |].
  apply land_combine; apply field_land; assumption.
Qed.

Lemma op_matches_leaf M V op :
  Z.land inst M = V -> Z.land M (rv_inst_mask op) = rv_inst_mask op ->
  Z.land V (rv_inst_mask op) = rv_inst_match op -> op_matches inst op.
Proof using. intros HK HM HV. right. rewrite <- HV. eapply land_weaken; eassumption. Qed.
End Sound.

(** Walk a decision tree; [K] is what is known of the bits of [inst]. *)
Ltac walk K :=
  lazymatch goal with
  | |- op_matches _ (switch (field _ _ _) _ _) =>
      eapply (op_matches_switch _ _ _ _ _ _ _ K); [lia | walk K | walk_cases]
  | |- op_matches _ (switch (Z.lor _ _) _ _) =>
      eapply (op_matches_switch2 _ _ _ _ _ _ _ _ _ K);
        [lia | lia | reflexivity | walk K | walk_cases]
  | |- op_matches _ (if ?b then _ else _) => destruct b; walk K
  | |- op_matches _ rv_op_illegal => left; reflexivity
  | |- op_matches _ _ => apply (op_matches_leaf _ _ _ _ K); vm_compute; reflexivity
  end
with walk_cases :=
  repeat first [apply Forall_nil; exact I | apply Forall_cons; split];
  cbn [fst snd]; let K := fresh "K" in intros K; walk K.

Section Sound_tree.
Context (F : isa) (inst : Z).

Lemma load_sound : Z.land inst 0x7f = 0x03 -> op_matches inst (decode_op_load F inst).
Proof using. intros K. unfold decode_op_load. walk K. Qed.
Lemma load_fp_sound : Z.land inst 0x7f = 0x07 -> op_matches inst (decode_op_load_fp F inst).
Proof using. intros K. unfold decode_op_load_fp. walk K. Qed.
Lemma misc_mem_sound : Z.land inst 0x7f = 0x0f -> op_matches inst (decode_op_misc_mem F inst).
Proof using. intros K. unfold decode_op_misc_mem. walk K. Qed.
Lemma op_imm_sound : Z.land inst 0x7f = 0x13 -> op_matches inst (decode_op_op_imm F inst).
Proof using. intros K. unfold decode_op_op_imm. walk K. Qed.
Lemma op_imm_32_sound : Z.land inst 0x7f = 0x1b -> op_matches inst (decode_op_op_imm_32 F inst).
Proof using. intros K. unfold decode_op_op_imm_32. walk K. Qed.
Lemma store_sound : Z.land inst 0x7f = 0x23 -> op_matches inst (decode_op_store F inst).
Proof using. intros K. unfold decode_op_store. walk K. Qed.
Lemma store_fp_sound : Z.land inst 0x7f = 0x27 -> op_matches inst (decode_op_store_fp F inst).
Proof using. intros K. unfold decode_op_store_fp. walk K. Qed.
Lemma amo_sound : Z.land inst 0x7f = 0x2f -> op_matches inst (decode_op_amo F inst).
Proof using. intros K. unfold decode_op_amo. walk K. Qed.
Lemma op_sound : Z.land inst 0x7f = 0x33 -> op_matches inst (decode_op_op F inst).
Proof using. intros K. unfold decode_op_op. walk K. Qed.
Lemma op_32_sound : Z.land inst 0x7f = 0x3b -> op_matches inst (decode_op_op_32 F inst).
Proof using. intros K. unfold decode_op_op_32. walk K. Qed.
Lemma madd_sound : Z.land inst 0x7f = 0x43 -> op_matches inst (decode_op_madd F inst).
Proof using. intros K. unfold decode_op_madd. walk K. Qed.
Lemma msub_sound : Z.land inst 0x7f = 0x47 -> op_matches inst (decode_op_msub F inst).
Proof using. intros K. unfold decode_op_msub. walk K. Qed.
Lemma nmsub_sound : Z.land inst 0x7f = 0x4b -> op_matches inst (decode_op_nmsub F inst).
Proof using. intros K. unfold decode_op_nmsub. walk K. Qed.
Lemma nmadd_sound : Z.land inst 0x7f = 0x4f -> op_matches inst (decode_op_nmadd F inst).
Proof using. intros K. unfold decode_op_nmadd. walk K. Qed.
Lemma op_fp_sound : Z.land inst 0x7f = 0x53 -> op_matches inst (decode_op_op_fp F inst).
Proof using. intros K. unfold decode_op_op_fp. walk K. Qed.
Lemma op_imm_64_sound : Z.land inst 0x7f = 0x5b -> op_matches inst (decode_op_op_imm_64 F inst).
Proof using. intros K. unfold decode_op_op_imm_64. walk K. Qed.
Lemma branch_sound : Z.land inst 0x7f = 0x63 -> op_matches inst (decode_op_branch F inst).
Proof using. intros K. unfold decode_op_branch. walk K. Qed.
Lemma jalr_sound : Z.land inst 0x7f = 0x67 -> op_matches inst (decode_op_jalr F inst).
Proof using. intros K. unfold decode_op_jalr. walk K. Qed.
Lemma system_sound : Z.land inst 0x7f = 0x73 -> op_matches inst (decode_op_system F inst).
Proof using. intros K. unfold decode_op_system. walk K. Qed.
Lemma op_64_sound : Z.land inst 0x7f = 0x7b -> op_matches inst (decode_op_op_64 F inst).
Proof using. intros K. unfold decode_op_op_64. walk K. Qed.
Lemma q0_sound : Z.land inst 0x3 = 0 -> op_matches inst (decode_op_q0 F inst).
Proof using. intros K. unfold decode_op_q0. walk K. Qed.
Lemma q1_sound : Z.land inst 0x3 = 1 -> op_matches inst (decode_op_q1 F inst).
Proof using. intros K. unfold decode_op_q1. walk K. Qed.
Lemma q2_sound : Z.land inst 0x3 = 2 -> op_matches inst (decode_op_q2 F inst).
Proof using. intros K. unfold decode_op_q2. walk K. Qed.

Lemma land_eq M V M' V' : Z.land inst M = V -> M = M' -> V = V' -> Z.land inst M' = V'.
Proof using. intros; subst; reflexivity. Qed.

Lemma q3_sound : Z.land inst 0x3 = 3 -> op_matches inst (decode_op_q3 F inst).
Proof using.
  intros K. unfold decode_op_q3.
  eapply (op_matches_switch _ _ _ _ _ _ _ K); [lia | left; reflexivity |]. clear K.
  repeat first [apply Forall_nil; exact I | apply Forall_cons; split];
    cbn [fst snd]; intros K;
    lazymatch goal with
    | |- op_matches _ (if _ then _ else _) => walk K
    | |- op_matches _ (decode_op_load _ _) => apply load_sound
    | |- op_matches _ (decode_op_load_fp _ _) => apply load_fp_sound
    | |- op_matches _ (decode_op_misc_mem _ _) => apply misc_mem_sound
    | |- op_matches _ (decode_op_op_imm _ _) => apply op_imm_sound
    | |- op_matches _ (decode_op_op_imm_32 _ _) => apply op_imm_32_sound
    | |- op_matches _ (decode_op_store _ _) => apply store_sound
    | |- op_matches _ (decode_op_store_fp _ _) => apply store_fp_sound
    | |- op_matches _ (decode_op_amo _ _) => apply amo_sound
    | |- op_matches _ (decode_op_op _ _) => apply op_sound
    | |- op_matches _ (decode_op_op_32 _ _) => apply op_32_sound
    | |- op_matches _ (decode_op_madd _ _) => apply madd_sound
    | |- op_matches _ (decode_op_msub _ _) => apply msub_sound
    | |- op_matches _ (decode_op_nmsub _ _) => apply nmsub_sound
    | |- op_matches _ (decode_op_nmadd _ _) => apply nmadd_sound
    | |- op_matches _ (decode_op_op_fp _ _) => apply op_fp_sound
    | |- op_matches _ (decode_op_op_imm_64 _ _) => apply op_imm_64_sound
    | |- op_matches _ (decode_op_branch _ _) => apply branch_sound
    | |- op_matches _ (decode_op_jalr _ _) => apply jalr_sound
    | |- op_matches _ (decode_op_system _ _) => apply system_sound
    | |- op_matches _ (decode_op_op_64 _ _) => apply op_64_sound
    end;
    (eapply land_eq; [exact K | vm_compute; reflexivity ..]).
Qed.

Lemma decode_inst_op_sound : op_matches inst (decode_inst_op F inst).
Proof using.
  unfold decode_inst_op.
  eapply (op_matches_switch _ _ 0 0); [apply Z.land_0_r | lia | left; reflexivity |].
  repeat first [apply Forall_nil; exact I | apply Forall_cons; split];
    cbn [fst snd]; intros K; [apply q0_sound | apply q1_sound | apply q2_sound | apply q3_sound];
    (eapply land_eq; [exact K | vm_compute; reflexivity ..]).
Qed.
End Sound_tree.

(** ** Completeness

    Five compressed opcodes share their fixed bits with another opcode and
    are told apart by an operand field that must not have a given value. *)
Definition op_side (op : rv_op) (inst : Z) : bool :=
  match op with
  | rv_op_c_addi => negb (field inst 2 0x7ff =? 0)
  | rv_op_c_lui => negb (field inst 7 0x1f =? 2)
  | rv_op_c_mv | rv_op_c_add => negb (field inst 2 0x1f =? 0)
  | rv_op_c_jalr => negb (field inst 7 0x1f =? 0)
  | _ => true
  end.

(** Operand bits with which the smallest instruction of [op] satisfies [op_side]. *)
Definition side_bits (op : rv_op) : Z :=
  match op with
  | rv_op_c_addi | rv_op_c_mv | rv_op_c_add => 0x4
  | rv_op_c_jalr => 0x80
  | _ => 0
  end.

(** The opcodes of RV64IMAFDQC and of the privileged architecture, by extension,
    from the list of instructions of the ISA ([src/meta/opcodes]). *)
Definition rv64i_ops : list rv_op :=
  [rv_op_lui; rv_op_auipc; rv_op_jal; rv_op_jalr; rv_op_beq; rv_op_bne; rv_op_blt; rv_op_bge; rv_op_bltu;
   rv_op_bgeu; rv_op_lb; rv_op_lh; rv_op_lw; rv_op_lbu; rv_op_lhu; rv_op_sb; rv_op_sh; rv_op_sw; rv_op_addi;
   rv_op_slti; rv_op_sltiu; rv_op_xori; rv_op_ori; rv_op_andi; rv_op_slli; rv_op_srli; rv_op_srai; rv_op_add;
   rv_op_sub; rv_op_sll; rv_op_slt; rv_op_sltu; rv_op_xor; rv_op_srl; rv_op_sra; rv_op_or; rv_op_and;
   rv_op_fence; rv_op_fence_i; rv_op_lwu; rv_op_ld; rv_op_sd; rv_op_addiw; rv_op_slliw; rv_op_srliw;
   rv_op_sraiw; rv_op_addw; rv_op_subw; rv_op_sllw; rv_op_srlw; rv_op_sraw].
Definition rv64m_ops : list rv_op :=
  [rv_op_mul; rv_op_mulh; rv_op_mulhsu; rv_op_mulhu; rv_op_div; rv_op_divu; rv_op_rem; rv_op_remu; rv_op_mulw;
   rv_op_divw; rv_op_divuw; rv_op_remw; rv_op_remuw].
Definition rv64a_ops : list rv_op :=
  [rv_op_lr_w; rv_op_sc_w; rv_op_amoswap_w; rv_op_amoadd_w; rv_op_amoxor_w; rv_op_amoor_w; rv_op_amoand_w;
   rv_op_amomin_w; rv_op_amomax_w; rv_op_amominu_w; rv_op_amomaxu_w; rv_op_lr_d; rv_op_sc_d; rv_op_amoswap_d;
   rv_op_amoadd_d; rv_op_amoxor_d; rv_op_amoor_d; rv_op_amoand_d; rv_op_amomin_d; rv_op_amomax_d;
   rv_op_amominu_d; rv_op_amomaxu_d].
Definition rv64s_ops : list rv_op :=
  [rv_op_ecall; rv_op_ebreak; rv_op_uret; rv_op_sret; rv_op_hret; rv_op_mret; rv_op_dret; rv_op_sfence_vm;
   rv_op_wfi; rv_op_csrrw; rv_op_csrrs; rv_op_csrrc; rv_op_csrrwi; rv_op_csrrsi; rv_op_csrrci].
Definition rv64f_ops : list rv_op :=
  [rv_op_flw; rv_op_fsw; rv_op_fmadd_s; rv_op_fmsub_s; rv_op_fnmsub_s; rv_op_fnmadd_s; rv_op_fadd_s;
   rv_op_fsub_s; rv_op_fmul_s; rv_op_fdiv_s; rv_op_fsgnj_s; rv_op_fsgnjn_s; rv_op_fsgnjx_s; rv_op_fmin_s;
   rv_op_fmax_s; rv_op_fsqrt_s; rv_op_fle_s; rv_op_flt_s; rv_op_feq_s; rv_op_fcvt_w_s; rv_op_fcvt_wu_s;
   rv_op_fcvt_s_w; rv_op_fcvt_s_wu; rv_op_fmv_x_s; rv_op_fclass_s; rv_op_fmv_s_x; rv_op_fcvt_l_s;
   rv_op_fcvt_lu_s; rv_op_fcvt_s_l; rv_op_fcvt_s_lu].
Definition rv64d_ops : list rv_op :=
  [rv_op_fld; rv_op_fsd; rv_op_fmadd_d; rv_op_fmsub_d; rv_op_fnmsub_d; rv_op_fnmadd_d; rv_op_fadd_d;
   rv_op_fsub_d; rv_op_fmul_d; rv_op_fdiv_d; rv_op_fsgnj_d; rv_op_fsgnjn_d; rv_op_fsgnjx_d; rv_op_fmin_d;
   rv_op_fmax_d; rv_op_fcvt_s_d; rv_op_fcvt_d_s; rv_op_fsqrt_d; rv_op_fle_d; rv_op_flt_d; rv_op_feq_d;
   rv_op_fcvt_w_d; rv_op_fcvt_wu_d; rv_op_fcvt_d_w; rv_op_fcvt_d_wu; rv_op_fclass_d; rv_op_fcvt_l_d;
   rv_op_fcvt_lu_d; rv_op_fmv_x_d; rv_op_fcvt_d_l; rv_op_fcvt_d_lu; rv_op_fmv_d_x].
Definition rv64q_ops : list rv_op :=
  [rv_op_flq; rv_op_fsq; rv_op_fmadd_q; rv_op_fmsub_q; rv_op_fnmsub_q; rv_op_fnmadd_q; rv_op_fadd_q;
   rv_op_fsub_q; rv_op_fmul_q; rv_op_fdiv_q; rv_op_fsgnj_q; rv_op_fsgnjn_q; rv_op_fsgnjx_q; rv_op_fmin_q;
   rv_op_fmax_q; rv_op_fcvt_s_q; rv_op_fcvt_q_s; rv_op_fcvt_d_q; rv_op_fcvt_q_d; rv_op_fsqrt_q; rv_op_fle_q;
   rv_op_flt_q; rv_op_feq_q; rv_op_fcvt_w_q; rv_op_fcvt_wu_q; rv_op_fcvt_q_w; rv_op_fcvt_q_wu; rv_op_fclass_q;
   rv_op_fcvt_l_q; rv_op_fcvt_lu_q; rv_op_fcvt_q_l; rv_op_fcvt_q_lu; rv_op_fmv_x_q; rv_op_fmv_q_x].
Definition rv64c_ops : list rv_op :=
  [rv_op_c_addi4spn; rv_op_c_fld; rv_op_c_lw; rv_op_c_fsd; rv_op_c_sw; rv_op_c_nop; rv_op_c_addi; rv_op_c_li;
   rv_op_c_addi16sp; rv_op_c_lui; rv_op_c_srli; rv_op_c_srai; rv_op_c_andi; rv_op_c_sub; rv_op_c_xor;
   rv_op_c_or; rv_op_c_and; rv_op_c_subw; rv_op_c_addw; rv_op_c_j; rv_op_c_beqz; rv_op_c_bnez; rv_op_c_slli;
   rv_op_c_fldsp; rv_op_c_lwsp; rv_op_c_jr; rv_op_c_mv; rv_op_c_ebreak; rv_op_c_jalr; rv_op_c_add;
   rv_op_c_fsdsp; rv_op_c_swsp; rv_op_c_ld; rv_op_c_sd; rv_op_c_addiw; rv_op_c_ldsp; rv_op_c_sdsp].

Definition rv64_ops : list rv_op :=
  rv64i_ops ++ rv64m_ops ++ rv64a_ops ++ rv64s_ops ++ rv64f_ops ++ rv64d_ops ++ rv64q_ops ++ rv64c_ops.

Definition rv64_op (op : rv_op) : bool := existsb (fun o => bool_decide (o = op)) rv64_ops.

(** [F] decodes some instruction as [op]. *)
Definition decodable (F : isa) (op : rv_op) : bool :=
  bool_decide (decode_inst_op F (Z.lor (rv_inst_match op) (side_bits op)) = op).

Section Complete.
Context (inst M V : Z) (K : Z.land inst M = V).

Lemma field_known s m k :
  (0 <=? s) && (Z.land M (Z.shiftl m s) =? Z.shiftl m s) && (field V s m =? k) = true ->
  field inst s m = k.
Proof using K.
  intros H. bool_hyps. rewrite (field_mask inst M V s m) by assumption. assumption.
Qed.

Lemma fields_known s1 m1 s2 m2 k :
  (0 <=? s1) && (Z.land M (Z.shiftl m1 s1) =? Z.shiftl m1 s1) &&
  (0 <=? s2) && (Z.land M (Z.shiftl m2 s2) =? Z.shiftl m2 s2) &&
  (Z.lor (field V s1 m1) (field V s2 m2) =? k) = true ->
  Z.lor (field inst s1 m1) (field inst s2 m2) = k.
Proof using K.
  intros H. bool_hyps. rewrite !(field_mask inst M V) by assumption. assumption.
Qed.
End Complete.

(** Evaluate a decision tree on an instruction whose bits under a mask are
    known ([K]); [S] is the side condition of the opcode.  A test that reads
    only known bits is replaced by its value, a test that [S] decides is
    skipped. *)
Ltac pick_case :=
  lazymatch goal with
  | |- switch _ [] ?d = ?r => change (d = r)
  | |- switch ?c ((?k, ?a) :: ?rest) ?d = ?r =>
      let b := eval vm_compute in (c =? k) in
      lazymatch b with
      | true => change (a = r)
      | false => change (switch c rest d = r); pick_case
      end
  end.

Lemma switch_skip {A} z k (a : A) rest d r :
  (z =? k) = false -> switch z rest d = r -> switch z ((k, a) :: rest) d = r.
Proof. intros H <-. simpl. rewrite H. reflexivity. Qed.

Ltac eval_test K S :=
  let V := match type of K with _ = ?V => V end in
  lazymatch goal with
  | |- switch (field ?i ?s ?m) _ _ = _ =>
      let c := eval vm_compute in (field V s m) in
      first [rewrite (field_known _ _ _ K s m c) by (vm_compute; reflexivity); pick_case
            | apply switch_skip; [exact S |]; lazymatch goal with |- switch _ [] ?d = ?r => change (d = r) end]
  | |- switch (Z.lor (field ?i ?s ?m) (field ?i ?s' ?m')) _ _ = _ =>
      let c := eval vm_compute in (Z.lor (field V s m) (field V s' m')) in
      rewrite (fields_known _ _ _ K s m s' m' c) by (vm_compute; reflexivity); pick_case
  end.

Ltac eval_tree K S :=
  lazymatch goal with
  | |- switch _ _ _ = _ => eval_test K S; eval_tree K S
  | |- (if _ then _ else _) = _ => reflexivity
  | |- ?f ?F ?inst = _ => unfold f; eval_tree K S
  | |- _ => reflexivity
  end.

(** Case analysis on the opcode; the opcodes that are not [decodable] are
    discharged by computation. *)
Ltac decode_complete :=
  let op := fresh "op" in let inst := fresh "inst" in
  let D := fresh "D" in let K := fresh "K" in let S := fresh "S" in
  intros op inst D K S; destruct op;
  first [vm_compute in D; discriminate D | clear D];
  cbn [rv_inst_mask rv_inst_match op_side] in K, S;
  try apply negb_true_iff in S;
  unfold decode_inst_op; eval_tree K S.

Lemma decode_inst_op_match_rv64 : forall op inst,
  decodable isa_rv64 op = true ->
  Z.land inst (rv_inst_mask op) = rv_inst_match op -> op_side op inst = true ->
  decode_inst_op isa_rv64 inst = op.
Proof. decode_complete. Qed.

Lemma decode_inst_op_match_rv32 : forall op inst,
  decodable isa_rv32 op = true ->
  Z.land inst (rv_inst_mask op) = rv_inst_match op -> op_side op inst = true ->
  decode_inst_op isa_rv32 inst = op.
Proof. decode_complete. Qed.

(** The tree has a path to each of those opcodes, and to no other one. *)
Lemma rv64_decodable op : rv64_op op = decodable isa_rv64 op.
Proof.
  assert (H : forall op, Bool.eqb (rv64_op op) (decodable isa_rv64 op) = true) by (apply all_ops_forallb; vm_compute; reflexivity).
  apply eqb_prop, H.
Qed.

Definition rv64_result (op : rv_op) : Prop := op = rv_op_illegal \/ rv64_op op = true.

Ltac rv64_tree :=
  lazymatch goal with
  | |- rv64_result (switch _ _ _) =>
      apply switch_ind; [rv64_tree | repeat first [apply Forall_nil; exact I | apply Forall_cons; split]; cbn [fst snd]; intros _; rv64_tree]
  | |- rv64_result (if _ then _ else _) => first [left; vm_compute; reflexivity | right; vm_compute; reflexivity]
  | |- rv64_result (?f isa_rv64 ?inst) => unfold f; rv64_tree
  | |- _ => first [left; vm_compute; reflexivity | right; vm_compute; reflexivity]
  end.

Lemma decode_inst_op_rv64 inst : rv64_result (decode_inst_op isa_rv64 inst).
Proof. rv64_tree. Qed.
