(* ===== verification/CodecRound.v ===== *)
(** * CodecRound: the encoders and the decoders are inverse.

    [codec_layout] is the instruction format table: which operand of the
    instruction word holds which field of a [decode], codec by codec.  The
    decoders of [Decode] and the encoders of [Encode] are shown to implement
    it; the round trips follow from the table and from the operand lemmas. *)

From Stdlib Require Import ZArith Lia Bool List.
From stdpp Require Import base numbers list.
From S2P Require Import Prelude Operand Meta Decode Encode Codec CodecSound.

(** ** The format table *)

(** The operand fields of [decode]. *)
Inductive dfield := F_imm | F_rd | F_rs1 | F_rs2 | F_rs3 | F_rm | F_aq | F_rl | F_pred | F_succ.

#[export] Instance dfield_eq_dec : EqDecision dfield.
Proof. solve_decision. Defined.
#[export] Instance brange_eq_dec : EqDecision brange.
Proof. solve_decision. Defined.
#[export] Instance segment_eq_dec : EqDecision segment.
Proof. solve_decision. Defined.
#[export] Instance imm_type_eq_dec : EqDecision imm_type.
Proof. solve_decision. Defined.
#[export] Instance operand_eq_dec : EqDecision operand.
Proof. solve_decision. Defined.

Definition all_fields : list dfield :=
  [F_imm; F_rd; F_rs1; F_rs2; F_rs3; F_rm; F_aq; F_rl; F_pred; F_succ].

Lemma all_fields_in f : In f all_fields.
Proof. destruct f; simpl; tauto. Qed.

Definition get (f : dfield) (d : decode) : Z :=
  match f with
  | F_imm => d_imm d | F_rd => d_rd d | F_rs1 => d_rs1 d | F_rs2 => d_rs2 d
  | F_rs3 => d_rs3 d | F_rm => d_rm d | F_aq => d_aq d | F_rl => d_rl d
  | F_pred => d_pred d | F_succ => d_succ d
  end.

(** The conversion an assignment to the field makes. *)
Definition conv (f : dfield) (v : Z) : Z :=
  match f with
  | F_imm => s32 v
  | F_rd | F_rs1 | F_rs2 | F_rs3 => u8 v
  | F_rm => wrap 3 v
  | F_aq | F_rl => wrap 1 v
  | F_pred | F_succ => wrap 4 v
  end.

(** A field holds the bits of an operand, plus a bias (8 for the three-bit
    register numbers of the compressed formats), or a fixed value. *)
Inductive source := Bits (o : operand) (bias : Z) | Fixed (v : Z).

#[export] Instance source_eq_dec : EqDecision source.
Proof. solve_decision. Defined.

(** A field that is not listed is zero. *)
Definition codec_layout (c : rv_codec) : list (dfield * source) :=
  match c with
  | rv_codec_none => []
  | rv_codec_u => [(F_rd, Bits operand_rd 0); (F_imm, Bits operand_imm20 0)]
  | rv_codec_uj => [(F_rd, Bits operand_rd 0); (F_imm, Bits operand_jimm20 0)]
  | rv_codec_i =>
      [(F_rd, Bits operand_rd 0); (F_rs1, Bits operand_rs1 0); (F_imm, Bits operand_imm12 0)]
  | rv_codec_i_sh5 =>
      [(F_rd, Bits operand_rd 0); (F_rs1, Bits operand_rs1 0); (F_imm, Bits operand_shamt5 0)]
  | rv_codec_i_sh6 =>
      [(F_rd, Bits operand_rd 0); (F_rs1, Bits operand_rs1 0); (F_imm, Bits operand_shamt6 0)]
  | rv_codec_i_sh7 =>
      [(F_rd, Bits operand_rd 0); (F_rs1, Bits operand_rs1 0); (F_imm, Bits operand_shamt7 0)]
  | rv_codec_i_csr =>
      [(F_rd, Bits operand_rd 0); (F_rs1, Bits operand_rs1 0); (F_imm, Bits operand_csr12 0)]
  | rv_codec_s =>
      [(F_rs1, Bits operand_rs1 0); (F_rs2, Bits operand_rs2 0); (F_imm, Bits operand_simm12 0)]
  | rv_codec_sb =>
      [(F_rs1, Bits operand_rs1 0); (F_rs2, Bits operand_rs2 0); (F_imm, Bits operand_sbimm12 0)]
  | rv_codec_r =>
      [(F_rd, Bits operand_rd 0); (F_rs1, Bits operand_rs1 0); (F_rs2, Bits operand_rs2 0)]
  | rv_codec_r_m =>
      [(F_rd, Bits operand_rd 0); (F_rs1, Bits operand_rs1 0); (F_rs2, Bits operand_rs2 0);
       (F_rm, Bits operand_rm 0)]
  | rv_codec_r4_m =>
      [(F_rd, Bits operand_rd 0); (F_rs1, Bits operand_rs1 0); (F_rs2, Bits operand_rs2 0);
       (F_rs3, Bits operand_rs3 0); (F_rm, Bits operand_rm 0)]
  | rv_codec_r_a =>
      [(F_rd, Bits operand_rd 0); (F_rs1, Bits operand_rs1 0); (F_rs2, Bits operand_rs2 0);
       (F_aq, Bits operand_aq 0); (F_rl, Bits operand_rl 0)]
  | rv_codec_r_l =>
      [(F_rd, Bits operand_rd 0); (F_rs1, Bits operand_rs1 0); (F_aq, Bits operand_aq 0);
       (F_rl, Bits operand_rl 0)]
  | rv_codec_r_f => [(F_pred, Bits operand_pred 0); (F_succ, Bits operand_succ 0)]
  | rv_codec_cb => [(F_rs1, Bits operand_crs1q 8); (F_imm, Bits operand_cimmb 0)]
  | rv_codec_cb_imm => [(F_rd, Bits operand_crs1rdq 8); (F_rs1, Bits operand_crs1rdq 8);
       (F_imm, Bits operand_cimmi 0)]
  | rv_codec_cb_sh5 => [(F_rd, Bits operand_crs1rdq 8); (F_rs1, Bits operand_crs1rdq 8);
       (F_imm, Bits operand_cimmsh5 0)]
  | rv_codec_cb_sh6 => [(F_rd, Bits operand_crs1rdq 8); (F_rs1, Bits operand_crs1rdq 8);
       (F_imm, Bits operand_cimmsh6 0)]
  | rv_codec_ci => [(F_rd, Bits operand_crs1rd 0); (F_rs1, Bits operand_crs1rd 0);
       (F_imm, Bits operand_cimmi 0)]
  | rv_codec_ci_sh5 => [(F_rd, Bits operand_crs1rd 0); (F_rs1, Bits operand_crs1rd 0);
       (F_imm, Bits operand_cimmsh5 0)]
  | rv_codec_ci_sh6 => [(F_rd, Bits operand_crs1rd 0); (F_rs1, Bits operand_crs1rd 0);
       (F_imm, Bits operand_cimmsh6 0)]
  | rv_codec_ci_16sp =>
      [(F_rd, Fixed rv_ireg_sp); (F_rs1, Fixed rv_ireg_sp); (F_imm, Bits operand_cimm16sp 0)]
  | rv_codec_ci_lwsp =>
      [(F_rd, Bits operand_crd 0); (F_rs1, Fixed rv_ireg_sp); (F_imm, Bits operand_cimmlwsp 0)]
  | rv_codec_ci_ldsp =>
      [(F_rd, Bits operand_crd 0); (F_rs1, Fixed rv_ireg_sp); (F_imm, Bits operand_cimmldsp 0)]
  | rv_codec_ci_lqsp =>
      [(F_rd, Bits operand_crd 0); (F_rs1, Fixed rv_ireg_sp); (F_imm, Bits operand_cimmlqsp 0)]
  | rv_codec_ci_li => [(F_rd, Bits operand_crd 0); (F_imm, Bits operand_cimmi 0)]
  | rv_codec_ci_lui => [(F_rd, Bits operand_crd 0); (F_imm, Bits operand_cimmui 0)]
  | rv_codec_ci_none => []
  | rv_codec_ciw_4spn =>
      [(F_rd, Bits operand_crdq 8); (F_rs1, Fixed rv_ireg_sp); (F_imm, Bits operand_cimm4spn 0)]
  | rv_codec_cj => [(F_imm, Bits operand_cimmj 0)]
  | rv_codec_cj_jal => [(F_rd, Fixed rv_ireg_ra); (F_imm, Bits operand_cimmj 0)]
  | rv_codec_cl_lw =>
      [(F_rd, Bits operand_crdq 8); (F_rs1, Bits operand_crs1q 8); (F_imm, Bits operand_cimmw 0)]
  | rv_codec_cl_ld =>
      [(F_rd, Bits operand_crdq 8); (F_rs1, Bits operand_crs1q 8); (F_imm, Bits operand_cimmd 0)]
  | rv_codec_cl_lq =>
      [(F_rd, Bits operand_crdq 8); (F_rs1, Bits operand_crs1q 8); (F_imm, Bits operand_cimmq 0)]
  | rv_codec_cr => [(F_rd, Bits operand_crs1rd 0); (F_rs1, Bits operand_crs1rd 0);
       (F_rs2, Bits operand_crs2 0)]
  | rv_codec_cr_mv => [(F_rd, Bits operand_crd 0); (F_rs1, Bits operand_crs2 0)]
  | rv_codec_cr_jalr => [(F_rd, Fixed rv_ireg_ra); (F_rs1, Bits operand_crs1 0)]
  | rv_codec_cr_jr => [(F_rs1, Bits operand_crs1 0)]
  | rv_codec_cs => [(F_rd, Bits operand_crs1rdq 8); (F_rs1, Bits operand_crs1rdq 8);
       (F_rs2, Bits operand_crs2q 8)]
  | rv_codec_cs_sw => [(F_rs1, Bits operand_crs1q 8); (F_rs2, Bits operand_crs2q 8);
       (F_imm, Bits operand_cimmw 0)]
  | rv_codec_cs_sd => [(F_rs1, Bits operand_crs1q 8); (F_rs2, Bits operand_crs2q 8);
       (F_imm, Bits operand_cimmd 0)]
  | rv_codec_cs_sq => [(F_rs1, Bits operand_crs1q 8); (F_rs2, Bits operand_crs2q 8);
       (F_imm, Bits operand_cimmq 0)]
  | rv_codec_css_swsp =>
      [(F_rs1, Fixed rv_ireg_sp); (F_rs2, Bits operand_crs2 0); (F_imm, Bits operand_cimmswsp 0)]
  | rv_codec_css_sdsp =>
      [(F_rs1, Fixed rv_ireg_sp); (F_rs2, Bits operand_crs2 0); (F_imm, Bits operand_cimmsdsp 0)]
  | rv_codec_css_sqsp =>
      [(F_rs1, Fixed rv_ireg_sp); (F_rs2, Bits operand_crs2 0); (F_imm, Bits operand_cimmsqsp 0)]
  | rv_codec_illegal => []
  end.

Fixpoint field_source (l : list (dfield * source)) (f : dfield) : source :=
  match l with
  | [] => Fixed 0
  | (g, s) :: rest => if decide (f = g) then s else field_source rest f
  end.

(** The fields that are taken from the instruction, with their operands. *)
Fixpoint slots (l : list (dfield * source)) : list (dfield * operand * Z) :=
  match l with
  | [] => []
  | (f, Bits o b) :: rest => (f, o, b) :: slots rest
  | (_, Fixed _) :: rest => slots rest
  end.

(** ** The decoders implement the table *)
Definition no_operands (d : decode) : Prop := forall f, get f d = 0.

Lemma decode_operands_get c f d inst :
  no_operands d ->
  get f (decode_operands c d inst) =
  match field_source (codec_layout c) f with
  | Bits o b => conv f (operand_decode o inst + b)
  | Fixed v => v
  end.
Proof.
  intros H. specialize (H f).
  destruct c, f; cbn [codec_layout field_source]; cbv [decide decide_rel dfield_eq_dec];
    cbn; rewrite ?Z.add_0_r; try reflexivity; exact H.
Qed.

(** ** Well-formedness of the table, by computation *)
(** The values a field can hold, as a half-open interval. *)
Definition field_min (f : dfield) : Z := match f with F_imm => - 2 ^ 31 | _ => 0 end.
Definition field_max (f : dfield) : Z :=
  match f with
  | F_imm => 2 ^ 31
  | F_rd | F_rs1 | F_rs2 | F_rs3 => 2 ^ 8
  | F_rm => 2 ^ 3
  | F_aq | F_rl => 2 ^ 1
  | F_pred | F_succ => 2 ^ 4
  end.

Lemma conv_small f v : field_min f <= v < field_max f -> conv f v = v.
Proof.
  destruct f; cbn [conv field_min field_max]; intros H;
    first [apply wrap_small | apply swrap_small]; lia.
Qed.

Definition op_min (o : operand) : Z :=
  match op_type o with R_s64 => - 2 ^ (op_width o - 1) | R_u64 => 0 end.
Definition op_max (o : operand) : Z :=
  match op_type o with R_s64 => 2 ^ (op_width o - 1) | R_u64 => 2 ^ op_width o end.

Lemma operand_decode_bounds o inst :
  In o all_operands -> op_min o <= operand_decode o inst < op_max o.
Proof.
  intros Ho. pose proof (operand_decode_range o Ho inst) as H.
  unfold operand_range, op_min, op_max in *. destruct (op_type o); exact H.
Qed.

Lemma operands_used o : In o all_operands -> inst_mask o <> 0.
Proof.
  assert (H : forallb (fun o => negb (inst_mask o =? 0)) all_operands = true)
    by (vm_compute; reflexivity).
  rewrite forallb_forall in H. intros Ho. specialize (H o Ho). bool_hyps. assumption.
Qed.

(** An operand fits its field, and its bias is not seen by the encoder. *)
Definition slot_ok (s : dfield * operand * Z) : bool :=
  let '(f, o, b) := s in
  bool_decide (o ∈ all_operands) && (field_min f <=? op_min o + b) &&
  (op_max o + b <=? field_max f) && (b mod 2 ^ op_width o =? 0).

(** Two operands of a format are the same or have no common bit. *)
Definition slot_apart (s t : dfield * operand * Z) : bool :=
  let '(_, o, b) := s in let '(_, o', b') := t in
  (bool_decide (o = o') && (b =? b')) || (Z.land (inst_mask o') (inst_mask o) =? 0).

Definition layout_ok (c : rv_codec) : bool :=
  let l := slots (codec_layout c) in
  forallb slot_ok l && forallb (fun s => forallb (slot_apart s) l) l &&
  forallb (fun s => bool_decide (field_source (codec_layout c) s.1.1 = Bits s.1.2 s.2)) l.

Lemma layouts_ok : forall c, layout_ok c = true.
Proof. destruct c; vm_compute; reflexivity. Qed.

Section Layout.
Context (c : rv_codec).

Lemma layout_slot f o b :
  In (f, o, b) (slots (codec_layout c)) ->
  In o all_operands /\ field_min f <= op_min o + b /\ op_max o + b <= field_max f /\
  b mod 2 ^ op_width o = 0 /\ field_source (codec_layout c) f = Bits o b.
Proof using.
  intros Hin. pose proof (layouts_ok c) as H. unfold layout_ok in H. bool_hyps.
  repeat match goal with H : forallb _ _ = true |- _ => rewrite forallb_forall in H end.
  match goal with H : forall x, _ -> slot_ok x = true |- _ => specialize (H _ Hin) end.
  match goal with H : forall x, _ -> bool_decide (field_source _ _ = _) = true |- _ =>
    specialize (H _ Hin); apply bool_decide_eq_true in H end.
  unfold slot_ok in *. bool_hyps.
  repeat match goal with H : bool_decide _ = true |- _ => apply bool_decide_eq_true in H end.
  rewrite list_elem_of_In in *. auto.
Qed.

Lemma layout_apart f o b f' o' b' :
  In (f, o, b) (slots (codec_layout c)) -> In (f', o', b') (slots (codec_layout c)) ->
  (o = o' /\ b = b') \/ Z.land (inst_mask o') (inst_mask o) = 0.
Proof using.
  intros H1 H2. pose proof (layouts_ok c) as H. unfold layout_ok in H. bool_hyps.
  repeat match goal with H : forallb _ _ = true |- _ => rewrite forallb_forall in H end.
  match goal with H : forall x, _ -> forallb _ _ = true |- _ =>
    specialize (H _ H1); rewrite forallb_forall in H; specialize (H _ H2) end.
  unfold slot_apart in *.
  match goal with H : _ || _ = true |- _ => apply orb_true_iff in H as [H | H] end; bool_hyps;
    [left | auto]. split; [eapply bool_decide_eq_true |]; eassumption.
Qed.

Lemma source_slot f o b :
  field_source (codec_layout c) f = Bits o b -> In (f, o, b) (slots (codec_layout c)).
Proof using.
  induction (codec_layout c) as [| [g s] rest IH]; simpl; [discriminate |].
  destruct (decide (f = g)) as [<- |]; [intros -> |]; [simpl; auto |].
  intros H. destruct s; simpl; auto.
Qed.
End Layout.

(** The assignments of the decoders convert nothing away. *)
Lemma decode_operands_field c f d inst :
  no_operands d ->
  get f (decode_operands c d inst) =
  match field_source (codec_layout c) f with
  | Bits o b => operand_decode o inst + b
  | Fixed v => v
  end.
Proof.
  intros H. rewrite decode_operands_get by assumption.
  destruct (field_source (codec_layout c) f) as [o b |] eqn:E; [| reflexivity].
  destruct (layout_slot c f o b (source_slot c f o b E)) as (Ho & ? & ? & _).
  pose proof (operand_decode_bounds o inst Ho). apply conv_small. lia.
Qed.

(** ** Canonical instructions

    A decoded instruction of which every operand is representable in its
    format and every other field has the value the format fixes. *)
Definition source_valid (d : decode) (f : dfield) (s : source) : bool :=
  match s with
  | Bits o b => operand_valid o (get f d - b)
  | Fixed v => get f d =? v
  end.

Definition shared_equal (d : decode) (l : list (dfield * operand * Z)) : bool :=
  forallb (fun s => forallb (fun t =>
    negb (bool_decide (s.1.2 = t.1.2)) || (get s.1.1 d =? get t.1.1 d)) l) l.

Definition canonical_at (c : rv_codec) (d : decode) : bool :=
  forallb (fun f => source_valid d f (field_source (codec_layout c) f)) all_fields &&
  shared_equal d (slots (codec_layout c)).

Section Canonical.
Context (c : rv_codec) (d : decode) (Hd : canonical_at c d = true).

Lemma canonical_field f : source_valid d f (field_source (codec_layout c) f) = true.
Proof using Hd.
  unfold canonical_at in Hd. bool_hyps.
  match goal with H : forallb _ all_fields = true |- _ => rewrite forallb_forall in H; apply H end.
  apply all_fields_in.
Qed.

Lemma canonical_fixed f v :
  field_source (codec_layout c) f = Fixed v -> get f d = v.
Proof using Hd.
  intros E. pose proof (canonical_field f) as H. rewrite E in H. simpl in H. bool_hyps.
  assumption.
Qed.

Lemma canonical_shared f b f' b' o :
  In (f, o, b) (slots (codec_layout c)) -> In (f', o, b') (slots (codec_layout c)) ->
  get f d = get f' d.
Proof using Hd.
  intros H1 H2. unfold canonical_at, shared_equal in Hd. bool_hyps.
  repeat match goal with H : forallb _ _ = true |- _ => rewrite forallb_forall in H end.
  match goal with H : forall x, In x (slots _) -> _ |- _ =>
    specialize (H _ H1); rewrite forallb_forall in H; specialize (H _ H2); simpl in H;
    rewrite bool_decide_true in H by reflexivity; simpl in H end. bool_hyps. assumption.
Qed.

Lemma canonical_slot f o b :
  In (f, o, b) (slots (codec_layout c)) -> operand_valid o (get f d - b) = true.
Proof using Hd.
  intros H. pose proof (canonical_field f) as Hf.
  destruct (layout_slot c f o b H) as (_ & _ & _ & _ & E). rewrite E in Hf. exact Hf.
Qed.

(** Fields taken from the same operand, or fixed to the same value, agree. *)
Lemma canonical_same f f' :
  field_source (codec_layout c) f = field_source (codec_layout c) f' -> get f d = get f' d.
Proof using Hd.
  intros E. destruct (field_source (codec_layout c) f) as [o b | v] eqn:Ef.
  - eapply (canonical_shared f b f' b o); apply source_slot; auto.
  - rewrite (canonical_fixed f v), (canonical_fixed f' v); auto.
Qed.
End Canonical.

(** ** The encoders implement the table *)
Definition enc_bits (c : rv_codec) (d : decode) : Z :=
  fold_right (fun s acc => Z.lor (operand_encode s.1.2 (get s.1.1 d)) acc) 0
    (slots (codec_layout c)).

(** Equality of disjunctions of words, up to order and repetition. *)
Ltac lor_eq :=
  let i := fresh "i" in let Hi := fresh "Hi" in
  bitwise i Hi; rewrite ?Z.land_spec, ?Z.testbit_0_l;
  repeat match goal with |- context [Z.testbit ?x i] => destruct (Z.testbit x i) end; reflexivity.

(** A bias that is a multiple of the operand's range is not encoded: the
    three-bit register operands are encoded from [x + 8]. *)
Lemma operand_encode_bias o v b :
  In o all_operands -> b mod 2 ^ op_width o = 0 -> operand_encode o (v + b) = operand_encode o v.
Proof.
  intros Ho Hb. apply operand_encode_mod; [assumption |].
  rewrite <- wrap_add_r. unfold wrap at 2. rewrite Hb, Z.add_0_r. reflexivity.
Qed.

Ltac drop_bias :=
  repeat match goal with
  | |- context [operand_encode ?o (?v + 8)] =>
      rewrite (operand_encode_bias o v 8) by
        (first [apply list_elem_of_In, (bool_decide_unpack (o ∈ all_operands)); vm_compute; exact I
               | reflexivity])
  end.

Lemma encode_operands_bits c d :
  c <> rv_codec_cs -> canonical_at c d = true -> encode_operands c d = Some (enc_bits c d).
Proof.
  intros Hc Hd. pose proof (canonical_fixed c d Hd) as HF. pose proof (canonical_same c d Hd) as HS.
  destruct c; try congruence; cbn [encode_operands];
    try match goal with |- ?f d = _ => unfold f end;
    repeat match goal with
    | |- context [?a =? ?b] =>
        replace (a =? b) with true
          by (symmetry; apply Z.eqb_eq;
              first [apply (HF F_rd); reflexivity | apply (HF F_rs1); reflexivity
                    | apply (HF F_rs2); reflexivity | apply (HF F_imm); reflexivity
                    | apply (HS F_rd F_rs1); reflexivity])
    end; cbn [andb]; drop_bias; f_equal; unfold enc_bits; cbn [codec_layout slots fold_right fst snd get];
    try (let E := fresh in pose proof (HS F_rd F_rs1 eq_refl) as E; cbn [get] in E; rewrite E);
    lor_eq.
Qed.

(** ** Decoding yields canonical instructions; encoding them gives the word back *)
Lemma decode_operands_op c d inst :
  d_op (decode_operands c d inst) = d_op d /\ d_codec (decode_operands c d inst) = d_codec d.
Proof. destruct c; split; reflexivity. Qed.

(** The bits of the instruction word that hold the operands. *)
Definition layout_mask (c : rv_codec) : Z :=
  fold_right (fun s acc => Z.lor (inst_mask s.1.2) acc) 0 (slots (codec_layout c)).

Section Decoded.
Context (c : rv_codec) (d : decode) (inst : Z) (Hd : no_operands d).
Abbreviation d' := (decode_operands c d inst).

Lemma decoded_slot f o b :
  In (f, o, b) (slots (codec_layout c)) -> get f d' = operand_decode o inst + b.
Proof using Hd.
  intros H. destruct (layout_slot c f o b H) as (_ & _ & _ & _ & E).
  rewrite decode_operands_field, E by assumption. reflexivity.
Qed.

Lemma decode_operands_canonical : canonical_at c d' = true.
Proof using Hd.
  unfold canonical_at, shared_equal. apply andb_true_iff.
  split; apply forallb_forall; [intros f _ | intros [[f o] b] H1; apply forallb_forall;
    intros [[f' o'] b'] H2].
  - unfold source_valid. rewrite decode_operands_field by assumption.
    destruct (field_source (codec_layout c) f) as [o b | v] eqn:E; [| apply Z.eqb_refl].
    replace (operand_decode o inst + b - b) with (operand_decode o inst) by lia.
    apply operand_decode_valid. apply (layout_slot c f o b), source_slot, E.
  - cbn [fst snd]. destruct (decide (o = o')) as [<- |]; [| rewrite bool_decide_false; auto].
    apply orb_true_iff. right. apply Z.eqb_eq.
    rewrite (decoded_slot f o b), (decoded_slot f' o b') by assumption.
    destruct (layout_apart c _ _ _ _ _ _ H1 H2) as [[_ ->] | E]; [reflexivity |].
    pose proof (layout_slot c f o b H1) as (Ho & _).
    pose proof (operands_used o Ho). rewrite Z.land_diag in E. congruence.
Qed.

Lemma enc_bits_decoded : enc_bits c d' = Z.land inst (layout_mask c).
Proof using Hd.
  unfold enc_bits, layout_mask.
  assert (H : forall s, In s (slots (codec_layout c)) ->
    operand_encode s.1.2 (get s.1.1 d') = Z.land inst (inst_mask s.1.2)).
  { intros [[f o] b] H. cbn [fst snd]. rewrite (decoded_slot f o b) by assumption.
    destruct (layout_slot c f o b H) as (Ho & _ & _ & Hb & _).
    rewrite operand_encode_bias by assumption. apply operand_encode_decode_mask. assumption. }
  induction (slots (codec_layout c)) as [| s l IH]; simpl; [rewrite Z.land_0_r; reflexivity |].
  rewrite H, IH by (simpl; auto; intros; apply H; simpl; auto).
  symmetry. apply Z.land_lor_distr_r.
Qed.
End Decoded.

(** ** Encoding a canonical instruction; decoding gives it back *)
Lemma land_fold_lor {A} (g : A -> Z) (l : list A) m a x :
  In x l -> Z.land (g x) m = a -> (forall y, In y l -> Z.land (g y) m = a \/ Z.land (g y) m = 0) ->
  Z.land (fold_right (fun s acc => Z.lor (g s) acc) 0 l) m = a.
Proof.
  intros Hx Hg H.
  assert (G : forall l', (forall y, In y l' -> Z.land (g y) m = a \/ Z.land (g y) m = 0) ->
    Z.land (fold_right (fun s acc => Z.lor (g s) acc) 0 l') m = 0 \/
    Z.land (fold_right (fun s acc => Z.lor (g s) acc) 0 l') m = a).
  { induction l' as [| y l' IH]; intros Hl; [left; apply Z.land_0_l |]. simpl.
    rewrite Z.land_lor_distr_l. destruct (Hl y) as [-> | ->]; [simpl; auto | |];
    (destruct IH as [-> | ->]; [intros; apply Hl; simpl; auto | |]);
    rewrite ?Z.lor_0_r, ?Z.lor_0_l, ?Z.lor_diag; auto. }
  induction l as [| y l IH]; [destruct Hx |]. simpl. rewrite Z.land_lor_distr_l.
  destruct Hx as [-> | Hx].
  - rewrite Hg. destruct (G l) as [-> | ->]; [intros; apply H; simpl; auto | |];
      rewrite ?Z.lor_0_r, ?Z.lor_diag; reflexivity.
  - rewrite IH by (auto; intros; apply H; simpl; auto).
    destruct (H y) as [-> | ->]; [simpl; auto | |]; rewrite ?Z.lor_0_l, ?Z.lor_diag; reflexivity.
Qed.

Section Encoded.
Context (c : rv_codec) (d : decode) (Hd : canonical_at c d = true).

(** The operand bits of a format, in the word that holds them all. *)
Lemma enc_bits_slot f o b :
  In (f, o, b) (slots (codec_layout c)) ->
  Z.land (enc_bits c d) (inst_mask o) = operand_encode o (get f d).
Proof using Hd.
  intros H. destruct (layout_slot c f o b H) as (Ho & _).
  apply (land_fold_lor _ _ _ _ _ H); cbn [fst snd]; [apply operand_encode_in_mask, Ho |].
  intros [[f' o'] b'] H'. cbn [fst snd].
  destruct (layout_apart c _ _ _ _ _ _ H H') as [[<- <-] | E].
  - left. rewrite (canonical_shared c d Hd f' b f b o H' H). apply operand_encode_in_mask, Ho.
  - right. destruct (layout_slot c _ _ _ H') as (Ho' & _).
    rewrite <- (operand_encode_in_mask o' Ho'), <- Z.land_assoc, E. apply Z.land_0_r.
Qed.

Lemma slot_in_layout_mask f o b :
  In (f, o, b) (slots (codec_layout c)) ->
  Z.land (inst_mask o) (layout_mask c) = inst_mask o.
Proof using.
  unfold layout_mask. induction (slots (codec_layout c)) as [| s l IH]; [intros [] |].
  cbn [fold_right]. rewrite Z.land_lor_distr_r. intros [-> | H]; cbn [fst snd].
  - lor_eq.
  - rewrite IH by assumption. lor_eq.
Qed.

Lemma enc_bits_mask : Z.land (enc_bits c d) (layout_mask c) = enc_bits c d.
Proof using.
  pose proof (fun s => layout_slot c s.1.1 s.1.2 s.2) as H. unfold enc_bits, layout_mask.
  induction (slots (codec_layout c)) as [| [[f o] b] l IH]; [reflexivity |].
  cbn [fold_right fst snd] in *.
  assert (Ho : In o all_operands) by (apply (H (f, o, b)); simpl; auto).
  specialize (IH (fun s Hs => H s (or_intror Hs))).
  rewrite Z.land_lor_distr_l, !Z.land_lor_distr_r.
  rewrite (operand_encode_in_mask o Ho).
  match goal with H : Z.land ?a ?b = ?a |- _ => rewrite H; generalize a b end.
  intros a b0. lor_eq.
Qed.
End Encoded.

(** ** The opcodes' fixed bits *)
Definition match_ok (op : rv_op) : bool :=
  (Z.land (rv_inst_match op) (rv_inst_mask op) =? rv_inst_match op).

Lemma match_in_mask op : Z.land (rv_inst_match op) (rv_inst_mask op) = rv_inst_match op.
Proof.
  assert (H : forall op, match_ok op = true) by (intros []; vm_compute; reflexivity).
  specialize (H op). unfold match_ok in H. bool_hyps. assumption.
Qed.

(** Some opcodes fix the bits of an operand of their format (the unary
    floating-point operations fix [rs2]): that operand has the fixed value.
    For every other opcode this holds of any operands. *)
Definition op_agrees (d : decode) : bool :=
  Z.land (enc_bits (rv_inst_codec (d_op d)) d) (rv_inst_mask (d_op d)) =?
  Z.land (rv_inst_match (d_op d)) (layout_mask (rv_inst_codec (d_op d))).

Definition canonical (d : decode) : bool :=
  bool_decide (d_codec d = rv_inst_codec (d_op d)) &&
  canonical_at (rv_inst_codec (d_op d)) d && op_agrees d.

Lemma canonical_inv d :
  canonical d = true ->
  d_codec d = rv_inst_codec (d_op d) /\ canonical_at (rv_inst_codec (d_op d)) d = true /\
  Z.land (enc_bits (rv_inst_codec (d_op d)) d) (rv_inst_mask (d_op d)) =
  Z.land (rv_inst_match (d_op d)) (layout_mask (rv_inst_codec (d_op d))).
Proof.
  unfold canonical, op_agrees. intros H. bool_hyps.
  repeat match goal with H : bool_decide _ = true |- _ => apply bool_decide_eq_true in H end. auto.
Qed.

Lemma set_codec_same d c : d_codec d = c -> set_codec c d = d.
Proof. intros <-. destruct d; reflexivity. Qed.

Lemma get_ext d d' :
  d_op d = d_op d' -> d_codec d = d_codec d' -> (forall f, get f d = get f d') -> d = d'.
Proof.
  intros Ho Hc H. pose proof (H F_imm). pose proof (H F_rd). pose proof (H F_rs1).
  pose proof (H F_rs2). pose proof (H F_rs3). pose proof (H F_rm). pose proof (H F_aq).
  pose proof (H F_rl). pose proof (H F_pred). pose proof (H F_succ).
  destruct d, d'; simpl in *; subst; reflexivity.
Qed.

(** ** [encode_inst] on canonical instructions *)
Section Encode_canonical.
Context (d : decode) (Hd : canonical d = true).
Abbreviation op := (d_op d).
Abbreviation c := (rv_inst_codec (d_op d)).

Definition enc_word : Z := Z.lor (rv_inst_match op) (enc_bits c d).

Lemma encode_inst_canonical : c <> rv_codec_cs -> encode_inst d = Some enc_word.
Proof using Hd.
  intros Hc. destruct (canonical_inv d Hd) as (H1 & H2 & _). unfold encode_inst.
  rewrite set_codec_same by assumption. rewrite H1, encode_operands_bits by assumption.
  reflexivity.
Qed.

Lemma enc_word_op : Z.land enc_word (rv_inst_mask op) = rv_inst_match op.
Proof using Hd.
  destruct (canonical_inv d Hd) as (_ & _ & H). unfold enc_word.
  rewrite Z.land_lor_distr_l, H, match_in_mask.
  bitwise i Hi. rewrite Z.land_spec. destruct (Z.testbit (rv_inst_match op) i); reflexivity.
Qed.

Lemma enc_word_slot f o b :
  In (f, o, b) (slots (codec_layout c)) ->
  Z.land enc_word (inst_mask o) = operand_encode o (get f d - b).
Proof using Hd.
  intros Hs. destruct (canonical_inv d Hd) as (_ & H2 & H3).
  destruct (layout_slot c f o b Hs) as (Ho & _ & _ & Hb & _).
  rewrite <- (operand_encode_bias o _ b) by assumption. replace (get f d - b + b) with (get f d) by lia.
  rewrite <- (enc_bits_slot c d H2 f o b Hs). unfold enc_word.
  pose proof (match_in_mask op) as HM. pose proof (slot_in_layout_mask c f o b Hs) as HL.
  bitwise i Hi.
  apply (f_equal (fun z => Z.testbit z i)) in HM, HL, H3.
  rewrite !Z.land_spec in HM, HL. rewrite 2!Z.land_spec in H3.
  destruct (Z.testbit (rv_inst_match op) i), (Z.testbit (rv_inst_mask op) i),
    (Z.testbit (inst_mask o) i), (Z.testbit (layout_mask c) i), (Z.testbit (enc_bits c d) i);
    cbn [andb orb] in *; congruence.
Qed.

Lemma decode_enc_word F :
  decode_inst_op F enc_word = op -> decode_inst F decode_init enc_word = d.
Proof using Hd.
  intros Hop. destruct (canonical_inv d Hd) as (H1 & H2 & _).
  unfold decode_inst, decode_inst_type. rewrite Hop. cbn [d_op d_codec set_op set_codec].
  set (d0 := set_codec _ _). assert (H0 : no_operands d0) by (intros []; reflexivity).
  destruct (decode_operands_op c d0 enc_word) as [E1 E2].
  apply get_ext; [rewrite E1; reflexivity | rewrite E2, H1; reflexivity |]. intros f.
  rewrite decode_operands_field by assumption.
  destruct (field_source (codec_layout c) f) as [o b | v] eqn:E.
  - assert (Hs := source_slot c f o b E). destruct (layout_slot c f o b Hs) as (Ho & _).
    rewrite (operand_decode_masked o Ho enc_word (get f d - b)); [lia | |].
    + apply (enc_word_slot f o b Hs).
    + apply (canonical_slot c d H2 f o b Hs).
  - symmetry. apply (canonical_fixed c d H2 f v E).
Qed.
End Encode_canonical.

(** ** [encode_inst] on decoded instructions *)
Section Decode_encode.
Context (F : isa) (inst : Z).
Abbreviation d := (decode_inst F decode_init inst).
Abbreviation op := (decode_inst_op F inst).

Lemma decode_inst_fields : d_op d = op /\ d_codec d = rv_inst_codec op.
Proof using. apply decode_operands_op. Qed.

Lemma decode_inst_canonical : op <> rv_op_illegal -> canonical d = true.
Proof using.
  intros Hop. destruct decode_inst_fields as [H1 H2].
  unfold canonical, op_agrees. rewrite H1, H2. unfold decode_inst, decode_inst_type.
  cbn [d_op d_codec set_op set_codec]. set (d0 := set_codec _ _).
  assert (H0 : no_operands d0) by (intros []; reflexivity).
  rewrite bool_decide_true by reflexivity. rewrite decode_operands_canonical by assumption.
  rewrite enc_bits_decoded by assumption. apply Z.eqb_eq.
  destruct (decode_inst_op_sound F inst) as [E | E]; [congruence |].
  rewrite <- E, <- !Z.land_assoc. f_equal. apply Z.land_comm.
Qed.

Lemma encode_decode_masked :
  op <> rv_op_illegal -> rv_inst_codec op <> rv_codec_cs ->
  encode_inst d = Some (Z.land inst (Z.lor (rv_inst_mask op) (layout_mask (rv_inst_codec op)))).
Proof using.
  intros Hop Hc. destruct decode_inst_fields as [H1 H2].
  rewrite encode_inst_canonical by (rewrite ?H1; auto using decode_inst_canonical).
  f_equal. unfold enc_word. rewrite H1. rewrite Z.land_lor_distr_r. f_equal.
  - destruct (decode_inst_op_sound F inst) as [E | E]; congruence.
  - unfold decode_inst, decode_inst_type. cbn [d_op d_codec set_op set_codec].
    apply enc_bits_decoded. intros []; reflexivity.
Qed.
End Decode_encode.
