(* ===== verification/Compress.v ===== *)
(** * Compress: encoding and decoding through the compressed formats.

    [compress_inst_rv64] and [compress_inst_rv32] replace an instruction by
    the first compressed opcode whose constraints hold; the decoders
    decompress again.  The constraints fix the registers of the compressed
    format; they do not always bound its immediate, so the round trip asks
    for a representable immediate. *)

From Stdlib Require Import ZArith Lia Bool List.
From stdpp Require Import base numbers list.
From S2P Require Import Prelude Operand Meta Decode Encode Codec CodecSound CodecRound.

(** ** Side conditions on a decoded instruction

    The operands with which an opcode would be another one ([c.mv] with
    [rs2 = 0] is [c.jr], ...). *)
Definition dec_side (d : decode) : bool :=
  match d_op d with
  | rv_op_c_addi => negb ((d_rd d =? 0) && (d_imm d =? 0))
  | rv_op_c_lui => negb (d_rd d =? 2)
  | rv_op_c_mv | rv_op_c_jalr => negb (d_rs1 d =? 0)
  | rv_op_c_add => negb (d_rs2 d =? 0)
  | _ => true
  end.

Section Side.
Context (d : decode) (Hd : canonical d = true).
Abbreviation w := (enc_word d).

Lemma enc_word_value f o b s m k :
  In (f, o, b) (slots (codec_layout (rv_inst_codec (d_op d)))) ->
  field w s m = k -> (0 <=? s) && (Z.land (Z.shiftl m s) (inst_mask o) =? inst_mask o) = true ->
  forall v, Z.land (Z.shiftl k s) (inst_mask o) = operand_encode o v ->
  operand_valid o v = true -> get f d = v + b.
Proof using Hd.
  intros Hs Hf Hm v Hv Hok. bool_hyps.
  destruct (layout_slot _ f o b Hs) as (Ho & _).
  destruct (canonical_inv d Hd) as (_ & H2 & _).
  pose proof (enc_word_slot d Hd f o b Hs) as E1.
  pose proof (operand_decode_masked o Ho w _ E1 (canonical_slot _ d H2 f o b Hs)) as D1.
  apply field_land in Hf; [| assumption].
  assert (E2 : Z.land w (inst_mask o) = operand_encode o v).
  { rewrite <- Hv, <- Hf, <- Z.land_assoc. congruence. }
  pose proof (operand_decode_masked o Ho w v E2 Hok). lia.
Qed.

Lemma enc_word_side : dec_side d = true -> op_side (d_op d) w = true.
Proof using Hd.
  pose proof enc_word_value as V. unfold dec_side, op_side.
  intros H. destruct (d_op d) eqn:E; try reflexivity; apply negb_true_iff, Z.eqb_neq; intros Hf;
    bool_hyps.
  - apply andb_false_iff in H as [H | H]; bool_hyps; apply H.
    + apply (V F_rd operand_crs1rd 0 _ _ _ ltac:(simpl; auto) Hf eq_refl 0); reflexivity.
    + apply (V F_imm operand_cimmi 0 _ _ _ ltac:(simpl; auto) Hf eq_refl 0); reflexivity.
  - apply H. apply (V F_rd operand_crd 0 _ _ _ ltac:(simpl; auto) Hf eq_refl 2); reflexivity.
  - apply H. apply (V F_rs1 operand_crs2 0 _ _ _ ltac:(simpl; auto) Hf eq_refl 0); reflexivity.
  - apply H. apply (V F_rs1 operand_crs1 0 _ _ _ ltac:(simpl; auto) Hf eq_refl 0); reflexivity.
  - apply H. apply (V F_rs2 operand_crs2 0 _ _ _ ltac:(simpl; auto) Hf eq_refl 0); reflexivity.
Qed.
End Side.

(** ** Decoding an encoded instruction *)
Lemma decode_encode_rv64 d :
  canonical d = true -> decodable isa_rv64 (d_op d) = true -> dec_side d = true ->
  rv_inst_codec (d_op d) <> rv_codec_cs ->
  exists inst, encode_inst d = Some inst /\ decode_inst isa_rv64 decode_init inst = d.
Proof.
  intros Hd HD HS Hc. exists (enc_word d). split; [apply encode_inst_canonical; assumption |].
  apply decode_enc_word; [assumption |].
  apply decode_inst_op_match_rv64; [assumption | apply enc_word_op; assumption |].
  apply enc_word_side; assumption.
Qed.

Lemma decode_encode_rv32 d :
  canonical d = true -> decodable isa_rv32 (d_op d) = true -> dec_side d = true ->
  rv_inst_codec (d_op d) <> rv_codec_cs ->
  exists inst, encode_inst d = Some inst /\ decode_inst isa_rv32 decode_init inst = d.
Proof.
  intros Hd HD HS Hc. exists (enc_word d). split; [apply encode_inst_canonical; assumption |].
  apply decode_enc_word; [assumption |].
  apply decode_inst_op_match_rv32; [assumption | apply enc_word_op; assumption |].
  apply enc_word_side; assumption.
Qed.

(** ** Compression *)

(** When the opcode's fixed bits are apart from its operands, any operands
    agree with the opcode. *)
Lemma op_agrees_apart d :
  Z.land (rv_inst_mask (d_op d)) (layout_mask (rv_inst_codec (d_op d))) = 0 -> op_agrees d = true.
Proof.
  intros H. unfold op_agrees. apply Z.eqb_eq.
  rewrite <- (match_in_mask (d_op d)), <- enc_bits_mask, <- !Z.land_assoc, H, Z.land_0_r.
  rewrite (Z.land_comm (layout_mask _)), H. apply Z.land_0_r.
Qed.

(** What is known of the fields of a canonical instruction, as equalities
    and inequalities. *)
Definition source_prop (d : decode) (f : dfield) (s : source) : Prop :=
  match s with
  | Bits o b => op_min o + b <= get f d < op_max o + b
  | Fixed v => get f d = v
  end.

Lemma canonical_prop c d f :
  canonical_at c d = true -> source_prop d f (field_source (codec_layout c) f).
Proof.
  intros H. pose proof (canonical_field c d H f) as Hf.
  destruct (field_source (codec_layout c) f) as [o b | v] eqn:E; simpl in *; bool_hyps; [| assumption].
  destruct (layout_slot c f o b (source_slot c f o b E)) as (Ho & _).
  apply operand_valid_spec in Hf as [Hr _]; [| assumption].
  unfold operand_range, op_min, op_max in *. destruct (op_type o); lia.
Qed.

(** A register operand is valid when it is in range. *)
Lemma operand_valid_reg o v :
  In o all_operands -> op_type o = R_u64 -> operand_align o = 0 -> 0 <= v < 2 ^ op_width o ->
  operand_valid o v = true.
Proof.
  intros Ho Ht Ha Hv. apply operand_valid_spec; [assumption |].
  unfold operand_range. rewrite Ht, Ha. split; [assumption | apply Z.mod_1_r].
Qed.

(** The field facts of [H : canonical_at c d = true], for a concrete [c]. *)
Ltac field_fact c d H f :=
  let s := eval vm_compute in (field_source (codec_layout c) f) in
  let E := fresh "Hf" in
  assert (E : source_prop d f s) by exact (canonical_prop c d f H);
  cbv [source_prop op_min op_max op_type op_width get] in E.

Ltac field_facts c d H :=
  field_fact c d H F_rd; field_fact c d H F_rs1; field_fact c d H F_rs2; field_fact c d H F_rs3;
  field_fact c d H F_rm; field_fact c d H F_aq; field_fact c d H F_rl; field_fact c d H F_pred;
  field_fact c d H F_succ.

(** [source_valid d f (field_source (codec_layout c) f) = true] for a concrete
    [c], from facts about the field. *)
Ltac in_operands := apply list_elem_of_In, (bool_decide_unpack _); vm_compute; exact I.

Ltac solve_source :=
  lazymatch goal with
  | |- source_valid ?d ?f (field_source ?l ?f) = true =>
      let s := eval vm_compute in (field_source l f) in
      change (source_valid d f s = true); cbn [source_valid get set_op set_codec
        d_imm d_rd d_rs1 d_rs2 d_rs3 d_rm d_aq d_rl d_pred d_succ];
      lazymatch goal with
      | |- (_ =? _) = true => apply Z.eqb_eq; lia
      | |- _ => apply operand_valid_reg;
                [in_operands | reflexivity | reflexivity | cbv [op_width]; lia]
      end
  end.

(** The immediate of [d] can be represented in its format. *)
Definition imm_representable (d : decode) : bool :=
  source_valid d F_imm (field_source (codec_layout (rv_inst_codec (d_op d))) F_imm).

(** What the constraints of a compressed opcode establish. *)
Definition compress_ok (F : isa) (decomp : rv_op -> rv_op) (d d' : decode) : Prop :=
  canonical d' = true /\ dec_side d' = true /\ decodable F (d_op d') = true /\
  decomp (d_op d') = d_op d /\ d_op d <> rv_op_illegal /\
  set_codec (rv_inst_codec (d_op d)) (set_op (d_op d) d') = d.

Lemma canonical_at_intro c d :
  source_valid d F_imm (field_source (codec_layout c) F_imm) = true ->
  source_valid d F_rd (field_source (codec_layout c) F_rd) = true ->
  source_valid d F_rs1 (field_source (codec_layout c) F_rs1) = true ->
  source_valid d F_rs2 (field_source (codec_layout c) F_rs2) = true ->
  source_valid d F_rs3 (field_source (codec_layout c) F_rs3) = true ->
  source_valid d F_rm (field_source (codec_layout c) F_rm) = true ->
  source_valid d F_aq (field_source (codec_layout c) F_aq) = true ->
  source_valid d F_rl (field_source (codec_layout c) F_rl) = true ->
  source_valid d F_pred (field_source (codec_layout c) F_pred) = true ->
  source_valid d F_succ (field_source (codec_layout c) F_succ) = true ->
  shared_equal d (slots (codec_layout c)) = true -> canonical_at c d = true.
Proof.
  intros. unfold canonical_at. apply andb_true_iff. split; [| assumption].
  apply forallb_forall. intros []; auto.
Qed.

(** Fields that share an operand: none, or [rd] and [rs1], which a constraint
    makes equal. *)
Definition only_rd_rs1_shared (rd_rs1 : bool) (l : list (dfield * operand * Z)) : bool :=
  forallb (fun s => forallb (fun t =>
    negb (bool_decide (s.1.2 = t.1.2)) || bool_decide (s.1.1 = t.1.1) ||
    (rd_rs1 && bool_decide (s.1.1 ∈ [F_rd; F_rs1]) && bool_decide (t.1.1 ∈ [F_rd; F_rs1]))) l) l.

Lemma shared_equal_intro rd_rs1 l d :
  only_rd_rs1_shared rd_rs1 l = true -> (rd_rs1 = true -> d_rd d = d_rs1 d) ->
  shared_equal d l = true.
Proof.
  unfold shared_equal, only_rd_rs1_shared. intros H E. rewrite forallb_forall in *. intros s Hs.
  specialize (H s Hs). rewrite forallb_forall in *. intros t Ht. specialize (H t Ht).
  apply orb_true_iff in H as [H | H]; [apply orb_true_iff in H as [H | H] |].
  - rewrite H. reflexivity.
  - apply bool_decide_eq_true in H. rewrite H, Z.eqb_refl. apply orb_true_r.
  - bool_hyps. repeat match goal with H : bool_decide _ = true |- _ =>
      apply bool_decide_eq_true, list_elem_of_In in H; simpl in H end.
    apply orb_true_iff. right. apply Z.eqb_eq. specialize (E H).
    repeat match goal with H : _ \/ _ |- _ => destruct H as [H | H] end;
      try contradiction;
      repeat match goal with H : _ = _.1.1 |- _ => rewrite <- H end; simpl; congruence.
Qed.

Ltac solve_shared :=
  first [apply (shared_equal_intro false); [vm_compute; reflexivity | discriminate]
        | apply (shared_equal_intro true); [vm_compute; reflexivity | intros _; cbn; lia]].

Lemma compress_ok_intro F decomp d op :
  let d' := set_codec (rv_inst_codec op) (set_op op d) in
  canonical_at (rv_inst_codec op) d' = true ->
  Z.land (rv_inst_mask op) (layout_mask (rv_inst_codec op)) = 0 ->
  dec_side d' = true -> decodable F op = true -> decomp op = d_op d -> d_op d <> rv_op_illegal ->
  d_codec d = rv_inst_codec (d_op d) -> compress_ok F decomp d d'.
Proof.
  intros d' Hc Ha Hs HD HF Hop Hcd. unfold compress_ok. split; [| repeat (split; [assumption |])].
  - unfold canonical. rewrite bool_decide_true by reflexivity.
    rewrite op_agrees_apart by assumption. rewrite andb_true_r. exact Hc.
  - destruct d; simpl in *. subst. reflexivity.
Qed.

(** The obligations of [compress_ok] for one entry of the compression table. *)
Ltac solve_compressed Hi E :=
  apply compress_ok_intro;
  [ apply canonical_at_intro; [exact Hi | solve_source .. | solve_shared]
  | vm_compute; reflexivity
  | cbn; first [reflexivity | lia]
  | vm_compute; reflexivity
  | rewrite E; reflexivity
  | rewrite E; discriminate
  | rewrite E; assumption ].

(** Case analysis on the table of [op] and on the entry the search returns. *)
Ltac compress_cases Hc :=
  cbn [mbind option_bind] in Hc;
  match type of Hc with comp_search _ ?l = _ => unfold l in Hc end;
  cbn [comp_search comp_constraints] in Hc;
  repeat match type of Hc with
  | (if constraint_check ?d ?cs then _ else _) = _ =>
      let K := fresh "K" in destruct (constraint_check d cs) eqn:K;
      unfold cs in K; cbv [constraint_check] in K; cbn [forallb constraint_holds] in K;
      [injection Hc as <- |]
  end; [.. | discriminate Hc].

Lemma compress_inst_rv64_ok d d' :
  canonical d = true -> compress_inst_rv64 d = Some d' -> imm_representable d' = true ->
  compress_ok isa_rv64 rv_inst_decomp_rv64 d d'.
Proof.
  intros Hd Hc Hi. destruct (canonical_inv d Hd) as (H1 & H2 & _). clear Hd.
  unfold compress_inst_rv64 in Hc. destruct (d_op d) eqn:E; try discriminate Hc;
    cbn [rv_inst_codec rv_inst_comp_rv64] in H1, H2, Hc; compress_cases Hc;
    (match type of H2 with canonical_at ?c ?d = _ => field_facts c d H2 end); bool_hyps;
    solve_compressed Hi E.
Qed.

Lemma compress_inst_rv32_ok d d' :
  canonical d = true -> compress_inst_rv32 d = Some d' -> imm_representable d' = true ->
  compress_ok isa_rv32 rv_inst_decomp_rv32 d d'.
Proof.
  intros Hd Hc Hi. destruct (canonical_inv d Hd) as (H1 & H2 & _). clear Hd.
  unfold compress_inst_rv32 in Hc. destruct (d_op d) eqn:E; try discriminate Hc;
    cbn [rv_inst_codec rv_inst_comp_rv32] in H1, H2, Hc; compress_cases Hc;
    (match type of H2 with canonical_at ?c ?d = _ => field_facts c d H2 end); bool_hyps;
    solve_compressed Hi E.
Qed.

(** ** The way through a compressed word and back *)
Definition compressed_bits (op : rv_op) : bool :=
  (Z.land (rv_inst_mask op) 3 =? 3) && negb (Z.land (rv_inst_match op) 3 =? 3).

Lemma decomp_compressed_rv64 op : rv_inst_decomp_rv64 op <> rv_op_illegal -> compressed_bits op = true.
Proof. destruct op; first [intros _; vm_compute; reflexivity | intros H; destruct (H eq_refl)]. Qed.
Lemma decomp_compressed_rv32 op : rv_inst_decomp_rv32 op <> rv_op_illegal -> compressed_bits op = true.
Proof. destruct op; first [intros _; vm_compute; reflexivity | intros H; destruct (H eq_refl)]. Qed.

Lemma compressed_length d :
  canonical d = true -> compressed_bits (d_op d) = true -> inst_length (enc_word d) = 2.
Proof.
  unfold compressed_bits. intros Hd H. bool_hyps. pose proof (enc_word_op d Hd) as K.
  apply (land_weaken _ _ _ 3) in K; [| assumption].
  unfold inst_length. rewrite K.
  destruct (Z.eqb_spec (Z.land (rv_inst_match (d_op d)) 3) 3); [congruence | reflexivity].
Qed.

Section Round_trip.
Context (F : isa) (decomp : rv_op -> rv_op).
Hypothesis decomp_compressed : forall op, decomp op <> rv_op_illegal -> compressed_bits op = true.
Hypothesis op_match : forall op inst, decodable F op = true ->
  Z.land inst (rv_inst_mask op) = rv_inst_match op -> op_side op inst = true ->
  decode_inst_op F inst = op.

Lemma compressed_round_trip d d' :
  compress_ok F decomp d d' -> rv_inst_codec (d_op d') <> rv_codec_cs ->
  exists inst, encode_inst d' = Some inst /\ inst_length inst = 2 /\
    decompress (decomp (d_op (decode_inst F decode_init inst)))
      (decode_inst F decode_init inst) = d.
Proof using decomp_compressed op_match.
  intros (Hd & HS & HD & Hop & Hne & E) Hc. exists (enc_word d').
  assert (D : decode_inst F decode_init (enc_word d') = d').
  { apply decode_enc_word; [assumption |]. apply op_match; [assumption | |].
    - apply enc_word_op. assumption.
    - apply enc_word_side; assumption. }
  split; [apply encode_inst_canonical; assumption |]. split.
  - apply compressed_length; [assumption |]. apply decomp_compressed. congruence.
  - rewrite D. unfold decompress. rewrite Hop. destruct (decide _); [contradiction |]. assumption.
Qed.
End Round_trip.

(** ** Pseudo-instructions *)

(** The fields of a [decode] hold values of their types. *)
Definition fields_in_range (d : decode) : Prop :=
  forall f, field_min f <= get f d < field_max f.

Lemma fixed_in_range c f :
  match field_source (codec_layout c) f with
  | Fixed v => (field_min f <=? v) && (v <? field_max f)
  | Bits _ _ => true
  end = true.
Proof. destruct c, f; vm_compute; reflexivity. Qed.

Lemma canonical_fields_in_range d : canonical d = true -> fields_in_range d.
Proof.
  intros Hd f. destruct (canonical_inv d Hd) as (_ & H & _).
  pose proof (canonical_prop _ d f H) as Hf.
  destruct (field_source _ f) as [o b | v] eqn:E; simpl in Hf.
  - destruct (layout_slot _ f o b (source_slot _ f o b E)) as (_ & ? & ? & _). lia.
  - pose proof (fixed_in_range (rv_inst_codec (d_op d)) f) as Hv. rewrite E in Hv.
    bool_hyps. lia.
Qed.

(** A constraint that holds assigns nothing new. *)
Lemma constraint_assign_holds d c :
  fields_in_range d -> constraint_holds d c = true -> constraint_assign d c = d.
Proof.
  intros HR H. pose proof (HR F_rd) as Hrd. pose proof (HR F_rs1) as Hrs1.
  destruct d, c; try reflexivity; simpl in *; bool_hyps; subst;
    unfold set_rd, set_rs1, set_rs2, set_imm; simpl; f_equal; first [reflexivity | apply wrap_small; lia].
Qed.

Lemma constraint_set_holds d cs :
  fields_in_range d -> constraint_check d cs = true -> constraint_set d cs = d.
Proof.
  intros HR. induction cs as [| c cs IH]; [reflexivity |].
  unfold constraint_check, constraint_set in *. simpl. intros H. bool_hyps.
  rewrite constraint_assign_holds by assumption. auto.
Qed.

Lemma comp_search_inv d l d' :
  comp_search d l = Some d' ->
  exists c, In c l /\ constraint_check d (comp_constraints c) = true /\
    d' = set_codec (rv_inst_codec (comp_op c)) (set_op (comp_op c) d).
Proof.
  induction l as [| c l IH]; simpl; [discriminate |].
  destruct (constraint_check d (comp_constraints c)) eqn:E.
  - intros [= <-]. exists c. auto.
  - intros H. destruct (IH H) as (c' & ? & ?). exists c'. auto.
Qed.

(** Every pseudo-instruction leads back to the instruction it stands for,
    under constraints it was recognised by. *)
Definition pseudo_back (op : rv_op) (c : rv_comp_data) : bool :=
  match rv_inst_depseudo (comp_op c) with
  | None => false
  | Some c' => bool_decide (comp_op c' = op) &&
               bool_decide (comp_constraints c' = comp_constraints c)
  end.

Lemma pseudo_table op l c :
  rv_inst_pseudo op = Some l -> In c l -> pseudo_back op c = true.
Proof.
  enough (H : forall op, match rv_inst_pseudo op with
    | None => true | Some l => forallb (pseudo_back op) l end = true).
  { intros E Hc. specialize (H op). rewrite E in H. rewrite forallb_forall in H. auto. }
  intros []; vm_compute; reflexivity.
Qed.

Lemma pseudo_round_trip d d' :
  canonical d = true -> decode_pseudo_inst d = Some d' -> encode_pseudo d' = Some d.
Proof.
  intros Hd H. destruct (canonical_inv d Hd) as (H1 & _ & _).
  unfold decode_pseudo_inst in H. apply bind_Some in H as (l & Hl & H).
  apply comp_search_inv in H as (c & Hc & K & ->).
  pose proof (pseudo_table _ _ _ Hl Hc) as T. unfold pseudo_back in T.
  unfold encode_pseudo. cbn [d_op set_op set_codec].
  destruct (rv_inst_depseudo (comp_op c)) as [c' |]; [| discriminate].
  apply andb_true_iff in T as [T1 T2]. apply bool_decide_eq_true in T1, T2.
  cbn [mbind option_bind]. rewrite T1, T2.
  f_equal. replace (set_codec _ _) with d.
  - apply constraint_set_holds; [apply canonical_fields_in_range; assumption | assumption].
  - destruct d; simpl in *. subst. reflexivity.
Qed.

(** ** Fetch and length *)
Section Fetch.
Context (mem : Z -> Z) (Hmem : forall a, 0 <= mem a < 2 ^ 8).

Lemma lor_shift_range a b k m :
  0 <= k -> 0 <= m -> 0 <= a < 2 ^ k -> 0 <= b < 2 ^ m ->
  0 <= Z.lor a (Z.shiftl b k) < 2 ^ (m + k).
Proof using.
  intros Hk Hm Ha Hb.
  replace (Z.lor a (Z.shiftl b k)) with (a + Z.shiftl b k).
  - rewrite Z.shiftl_mul_pow2, Z.pow_add_r by lia. nia.
  - symmetry. rewrite Z.add_nocarry_lxor.
    + apply Z.bits_inj'. intros i Hi. rewrite Z.lor_spec, Z.lxor_spec, Z.shiftl_spec by lia.
      destruct (Z.ltb_spec i k); [rewrite (Z.testbit_neg_r _ (i - k)) by lia;
        destruct (Z.testbit a i); reflexivity |].
      rewrite <- (Z.mod_small a (2 ^ k)) by lia. rewrite Z.mod_pow2_bits_high by lia.
      destruct (Z.testbit b (i - k)); reflexivity.
    + apply Z.bits_inj'. intros i Hi. rewrite Z.land_spec, Z.shiftl_spec, Z.testbit_0_l by lia.
      destruct (Z.ltb_spec i k); [rewrite (Z.testbit_neg_r _ (i - k)) by lia; apply andb_false_r |].
      rewrite <- (Z.mod_small a (2 ^ k)) by lia. rewrite Z.mod_pow2_bits_high by lia. reflexivity.
Qed.

Lemma le16_range a : 0 <= le16 mem a < 2 ^ 16.
Proof using Hmem. apply (lor_shift_range _ _ 8 8); auto; lia. Qed.

Lemma le32_range a : 0 <= le32 mem a < 2 ^ 32.
Proof using Hmem. apply (lor_shift_range _ _ 16 16); auto using le16_range; lia. Qed.

(** The length depends on the low seven bits only. *)
Lemma inst_length_low a b : Z.land a 0x7f = Z.land b 0x7f -> inst_length a = inst_length b.
Proof using.
  intros H. unfold inst_length.
  assert (W : forall m, Z.land 0x7f m = m -> Z.land a m = Z.land b m).
  { intros m Hm. rewrite <- Hm, !Z.land_assoc, H. reflexivity. }
  rewrite !W by reflexivity. reflexivity.
Qed.

Lemma land_lor_high a b k : 7 <= k -> Z.land (Z.lor a (Z.shiftl b k)) 0x7f = Z.land a 0x7f.
Proof using.
  intros Hk. change 0x7f with (Z.ones 7). bitwise i Hi.
  rewrite Z.testbit_ones_nonneg, Z.shiftl_spec by lia.
  destruct (Z.ltb_spec i 7); [| rewrite !andb_false_r; reflexivity].
  rewrite (Z.testbit_neg_r _ (i - k)) by lia. rewrite orb_false_r. reflexivity.
Qed.

Lemma land_ffff_range a : 0 <= Z.land a 0xffff < 2 ^ 16.
Proof using. change 0xffff with (Z.ones 16). rewrite Z.land_ones by lia. apply Z.mod_pos_bound. lia. Qed.

Lemma inst_fetch_spec addr :
  (inst_fetch mem addr).2 = inst_length (le32 mem addr) /\
  0 <= (inst_fetch mem addr).1 < 2 ^ (8 * (inst_fetch mem addr).2) /\
  ((inst_fetch mem addr).2 <> 0 -> inst_length (inst_fetch mem addr).1 = (inst_fetch mem addr).2).
Proof using Hmem.
  pose proof (le32_range addr) as HR. pose proof (land_ffff_range (le32 mem addr)) as HF.
  unfold inst_fetch.
  assert (L : (inst_fetch mem addr).2 = inst_length (le32 mem addr)).
  { unfold inst_fetch, inst_length. repeat match goal with |- context [if ?c then _ else _] =>
      destruct c end; reflexivity. }
  unfold inst_fetch in L.
  repeat match goal with |- context [if ?c then _ else _] =>
    let E := fresh "E" in destruct c eqn:E end; cbn [fst snd] in *;
    (split; [assumption |]); split; try (intros Hne; rewrite L).
  - exact HF.
  - apply inst_length_low. rewrite <- Z.land_assoc. reflexivity.
  - exact HR.
  - reflexivity.
  - apply (lor_shift_range _ _ 32 16); auto using le16_range; lia.
  - apply inst_length_low, land_lor_high. lia.
  - apply (lor_shift_range _ _ 32 32); auto using le32_range; lia.
  - apply inst_length_low, land_lor_high. lia.
  - simpl. lia.
  - congruence.
Qed.
End Fetch.
