(* ===== verification/CodecTheorems.v ===== *)
(** * CodecTheorems: what the instruction codec promises. *)

From Stdlib Require Import ZArith Lia Bool List.
From stdpp Require Import base numbers list.
From S2P Require Import Prelude Operand Meta Decode Encode Codec CodecSound CodecRound Compress.

(** Every operand of the table: decoding a word that holds an encoded
    immediate, whatever its other bits, gives the immediate back, for every
    immediate in the operand's range and alignment. *)
Theorem operand_round_trip o rest imm :
  In o all_operands -> Z.land rest (inst_mask o) = 0 ->
  operand_range o imm -> imm mod 2 ^ operand_align o = 0 ->
  operand_decode o (Z.lor rest (operand_encode o imm)) = imm.
Proof.
  intros Ho Hr Hi Ha. apply operand_decode_lor_encode; [assumption.. |].
  apply operand_valid_spec; auto.
Qed.

Lemma operand_round_trip_witness :
  operand_decode operand_sbimm12 (Z.lor 0x63 (operand_encode operand_sbimm12 (-4096))) = -4096.
Proof.
  apply operand_round_trip; [in_operands | reflexivity | | reflexivity].
  split; [discriminate | reflexivity].
Defined.

(** Every operand of the table: encoding a decoded immediate gives the
    operand's bits of the instruction back, and the decoded immediate is in
    the operand's range and aligned. *)
Theorem operand_decode_inverse o inst :
  In o all_operands ->
  operand_encode o (operand_decode o inst) = Z.land inst (inst_mask o) /\
  operand_range o (operand_decode o inst) /\
  operand_decode o inst mod 2 ^ operand_align o = 0.
Proof.
  intros Ho. split; [apply operand_encode_decode_mask, Ho |].
  apply operand_valid_spec, operand_decode_valid; assumption.
Qed.

Lemma operand_decode_inverse_witness :
  operand_encode operand_cimmj (operand_decode operand_cimmj 0xb7e5) =
  Z.land 0xb7e5 (inst_mask operand_cimmj).
Proof. apply (operand_decode_inverse operand_cimmj 0xb7e5). in_operands. Defined.

(** C8 The decision tree of [decode_inst_op] is sound for the opcode tables,
    under any ISA flags: the opcode it returns is [illegal] or has its fixed
    bits in the instruction. *)
Theorem decode_inst_op_fixed_bits F inst :
  decode_inst_op F inst = rv_op_illegal \/
  Z.land inst (rv_inst_mask (decode_inst_op F inst)) = rv_inst_match (decode_inst_op F inst).
Proof. apply decode_inst_op_sound. Qed.

(** C7 The decision tree is complete for RV64: an instruction with the fixed
    bits of any of the 234 opcodes of RV64IMAFDQC and the privileged architecture
    ([rv64_ops], listed from the ISA) is decoded as that opcode, except that five
    compressed opcodes also need an operand that is not reserved ([op_side]);
    and no opcode that is not listed is ever the result. *)
Theorem decode_inst_op_complete_rv64 op inst :
  (rv64_op op = true ->
   Z.land inst (rv_inst_mask op) = rv_inst_match op -> op_side op inst = true ->
   decode_inst_op isa_rv64 inst = op) /\
  (decode_inst_op isa_rv64 inst = op -> op = rv_op_illegal \/ rv64_op op = true).
Proof.
  split; [rewrite rv64_decodable; apply decode_inst_op_match_rv64 | intros <-; apply decode_inst_op_rv64].
Qed.

Lemma decode_inst_op_complete_rv64_witness :
  decode_inst_op isa_rv64 0x00b50533 = rv_op_add.
Proof. apply (proj1 (decode_inst_op_complete_rv64 rv_op_add 0x00b50533)); vm_compute; reflexivity. Defined.

(** C2 Re-encoding a decoded instruction: the assertions of the encoder hold
    and the word is the instruction, on the bits that belong to the opcode or
    to an operand; the [cs] format is excepted (its encoder drops [rs2]). *)
Theorem encode_decode_inst F inst :
  decode_inst_op F inst <> rv_op_illegal ->
  rv_inst_codec (decode_inst_op F inst) <> rv_codec_cs ->
  let d := decode_inst F decode_init inst in
  encode_inst d =
  Some (Z.land inst (Z.lor (rv_inst_mask (d_op d)) (layout_mask (d_codec d)))).
Proof.
  intros Hop Hc d. destruct (decode_inst_fields F inst) as [E1 E2]. subst d. rewrite E1, E2.
  apply encode_decode_masked; assumption.
Qed.

Lemma encode_decode_inst_witness :
  encode_inst (decode_inst isa_rv64 decode_init 0xfe0790e3) = Some 0xfe0790e3.
Proof.
  rewrite (encode_decode_inst isa_rv64 0xfe0790e3) by (vm_compute; discriminate).
  vm_compute. reflexivity.
Defined.

(** C1 Encoding a canonical instruction of any of the opcodes of RV64IMAFDQC and
    the privileged architecture ([rv64_ops]) succeeds and decoding the word gives
    the instruction back, field by field.  Excepted are the six compressed
    opcodes of the [cs] format, whose encoder drops [rs2], and the operands that
    five compressed opcodes reserve ([dec_side]). *)
Theorem decode_encode_inst_rv64 d :
  canonical d = true -> rv64_op (d_op d) = true -> dec_side d = true ->
  rv_inst_codec (d_op d) <> rv_codec_cs ->
  exists inst, encode_inst d = Some inst /\ decode_inst isa_rv64 decode_init inst = d.
Proof. rewrite rv64_decodable. apply decode_encode_rv64. Qed.

(** [bne a5, zero, -32]. *)
Definition bne_example : decode :=
  mkDecode (-32) 0 15 0 0 rv_op_bne rv_codec_sb 0 0 0 0 0.

Lemma decode_encode_inst_rv64_witness :
  exists inst, encode_inst bne_example = Some inst /\
    decode_inst isa_rv64 decode_init inst = bne_example.
Proof.
  apply decode_encode_inst_rv64; [vm_compute; reflexivity .. | vm_compute; discriminate].
Defined.

(** C9 Compression is invisible, RV64: when [compress_inst_rv64] compresses a
    canonical instruction and the immediate is representable in the
    compressed format, the compressed instruction encodes to a two-byte word
    that [decode_inst_rv64] decodes to the original instruction; the six opcodes
    of the [cs] format, whose encoder drops [rs2], are excepted. *)
Theorem compress_round_trip_rv64 d d' :
  canonical d = true -> compress_inst_rv64 d = Some d' -> imm_representable d' = true ->
  rv_inst_codec (d_op d') <> rv_codec_cs ->
  exists inst, encode_inst d' = Some inst /\ inst_length inst = 2 /\
    decode_inst_rv64 decode_init inst = d.
Proof.
  intros Hd Hc Hi. unfold decode_inst_rv64, decompress_inst_rv64.
  apply (compressed_round_trip isa_rv64 rv_inst_decomp_rv64).
  - apply decomp_compressed_rv64.
  - apply decode_inst_op_match_rv64.
  - apply compress_inst_rv64_ok; assumption.
Qed.

(** [ld a0, 24(a1)]. *)
Definition ld_example : decode :=
  mkDecode 24 10 11 0 0 rv_op_ld rv_codec_i 0 0 0 0 0.

Lemma compress_round_trip_rv64_witness :
  exists d', compress_inst_rv64 ld_example = Some d' /\
  exists inst, encode_inst d' = Some inst /\ inst_length inst = 2 /\
    decode_inst_rv64 decode_init inst = ld_example.
Proof.
  eexists. split; [vm_compute; reflexivity |].
  apply compress_round_trip_rv64; [vm_compute; reflexivity .. | vm_compute; discriminate].
Defined.

(** Compression is invisible, RV32. *)
Theorem compress_round_trip_rv32 d d' :
  canonical d = true -> compress_inst_rv32 d = Some d' -> imm_representable d' = true ->
  rv_inst_codec (d_op d') <> rv_codec_cs ->
  exists inst, encode_inst d' = Some inst /\ inst_length inst = 2 /\
    decode_inst_rv32 decode_init inst = d.
Proof.
  intros Hd Hc Hi. unfold decode_inst_rv32, decompress_inst_rv32.
  apply (compressed_round_trip isa_rv32 rv_inst_decomp_rv32).
  - apply decomp_compressed_rv32.
  - apply decode_inst_op_match_rv32.
  - apply compress_inst_rv32_ok; assumption.
Qed.

(** [jal ra, 0x7fe]. *)
Definition jal_example : decode :=
  mkDecode 0x7fe 1 0 0 0 rv_op_jal rv_codec_uj 0 0 0 0 0.

Lemma compress_round_trip_rv32_witness :
  exists d', compress_inst_rv32 jal_example = Some d' /\
  exists inst, encode_inst d' = Some inst /\ inst_length inst = 2 /\
    decode_inst_rv32 decode_init inst = jal_example.
Proof.
  eexists. split; [vm_compute; reflexivity |].
  apply compress_round_trip_rv32; [vm_compute; reflexivity .. | vm_compute; discriminate].
Defined.

(** [encode_pseudo] undoes [decode_pseudo_inst] on canonical instructions. *)
Theorem pseudo_inverse d d' :
  canonical d = true -> decode_pseudo_inst d = Some d' -> encode_pseudo d' = Some d.
Proof. apply pseudo_round_trip. Qed.

(** [csrrs a0, cycle, x0], that is [rdcycle a0]. *)
Definition rdcycle_example : decode :=
  mkDecode 0xc00 10 0 0 0 rv_op_csrrs rv_codec_i_csr 0 0 0 0 0.

Lemma pseudo_inverse_witness :
  exists d', decode_pseudo_inst rdcycle_example = Some d' /\ d_op d' = rv_op_rdcycle /\
    encode_pseudo d' = Some rdcycle_example.
Proof.
  eexists. split; [vm_compute; reflexivity |]. split; [reflexivity |].
  apply pseudo_inverse; vm_compute; reflexivity.
Defined.

(** [inst_fetch] consumes the length [inst_length] gives the first word,
    returns a value of that many bytes, and the value has that length. *)
Theorem inst_fetch_length mem addr :
  (forall a, 0 <= mem a < 2 ^ 8) ->
  let (inst, pc_offset) := inst_fetch mem addr in
  pc_offset = inst_length (le32 mem addr) /\ 0 <= inst < 2 ^ (8 * pc_offset) /\
  (pc_offset <> 0 -> inst_length inst = pc_offset).
Proof.
  intros Hm. pose proof (inst_fetch_spec mem Hm addr) as H.
  destruct (inst_fetch mem addr). exact H.
Qed.

Lemma inst_fetch_length_witness :
  inst_fetch (fun _ => 0x13) 0 = (0x13131313, 4) /\
  (let (inst, pc_offset) := inst_fetch (fun _ => 0x13) 0 in
   pc_offset = inst_length (le32 (fun _ => 0x13) 0) /\ 0 <= inst < 2 ^ (8 * pc_offset) /\
   (pc_offset <> 0 -> inst_length inst = pc_offset)).
Proof. split; [reflexivity | apply inst_fetch_length; intros; lia]. Defined.

(** ** What the source gets wrong *)

(** [c.sub s0, s1] is encoded as [c.sub s0, s0]: [encode_cs] drops [rs2]. *)
Example encode_cs_drops_rs2 :
  let d := mkDecode 0 8 8 9 0 rv_op_c_sub rv_codec_cs 0 0 0 0 0 in
  canonical d = true /\
  exists inst, encode_inst d = Some inst /\ decode_inst isa_rv64 decode_init inst <> d.
Proof. split; [vm_compute; reflexivity |]. eexists. split; [vm_compute; reflexivity | discriminate]. Qed.

(** [ld a0, -8(a1)] is compressed although [c.ld] has no negative offset: the
    word decodes to [ld a0, 248(a1)]. *)
Example compress_negative_offset :
  let d := mkDecode (-8) 10 11 0 0 rv_op_ld rv_codec_i 0 0 0 0 0 in
  exists d' inst, compress_inst_rv64 d = Some d' /\ encode_inst d' = Some inst /\
    d_imm (decode_inst_rv64 decode_init inst) = 248.
Proof. do 2 eexists. repeat split; vm_compute; reflexivity. Qed.

(** [jalr zero, 4(ra)] is compressed to [c.jr ra], which drops the offset. *)
Example compress_jalr_offset :
  let d := mkDecode 4 0 1 0 0 rv_op_jalr rv_codec_i 0 0 0 0 0 in
  exists d' inst, compress_inst_rv64 d = Some d' /\ encode_inst d' = Some inst /\
    d_imm (decode_inst_rv64 decode_init inst) = 0.
Proof. do 2 eexists. repeat split; vm_compute; reflexivity. Qed.

(** [addiw a0, a1, 5] is printed as [sext.w]: its constraint tests [rs2]
    where the others test the immediate. *)
Example addiw_is_sext_w :
  exists d', decode_pseudo_inst (mkDecode 5 10 11 0 0 rv_op_addiw rv_codec_i 0 0 0 0 0) = Some d' /\
    d_op d' = rv_op_sext_w.
Proof. eexists. split; vm_compute; reflexivity. Qed.
