(* ===== verification/Alu.v ===== *)
(** * Alu: the integer helpers of [asm/alu.h], the atomic operations of
    [emu/amo.h] and the bit functions of [asm/bits.h].

    The width [w] of the template argument [U] or [S] is a parameter; the
    interpreter uses 32 and 64.  An unsigned operand is in [0 .. 2^w), a
    signed one in [-2^(w-1) .. 2^(w-1)); every intermediate of type [U] is
    written with its [wrap w]. *)

From Stdlib Require Import ZArith Lia Bool List.
From stdpp Require Import base numbers list.
From S2P Require Import Prelude.

(** ** Multiply high *)
Section Mul_high.
Context (w : Z).

Abbreviation qb := (w / 2).
Abbreviation U := (wrap w).
Abbreviation mask := (U (U (Z.shiftl 1 qb) - 1)).

Definition mulhu (x y : Z) : Z :=
  let x0 := Z.land x mask in
  let x1 := Z.land (Z.shiftr x qb) mask in
  let y0 := Z.land y mask in
  let y1 := Z.land (Z.shiftr y qb) mask in
  let z0 := U (x0 * y0) in
  let z1 := U (x1 * y0) in
  let z2 := U (x0 * y1) in
  let z3 := U (x1 * y1) in
  let z4 := U (z1 + z2) in
  let c1 := b2z (z4 <? z1) in
  let lo := U (z0 + U (Z.shiftl z4 qb)) in
  let c2 := b2z (lo <? z0) in
  let hi := U (z3 + Z.shiftr z4 qb + U (Z.shiftl c1 qb) + c2) in
  hi.

Definition mulh (x y : Z) : Z :=
  let xs := b2z (x <? 0) in
  let ys := b2z (y <? 0) in
  let xu := Z.lxor (U (U (Z.lnot xs) + 1)) (U (U x - xs)) in
  let yu := Z.lxor (U (U (Z.lnot ys) + 1)) (U (U y - ys)) in
  let x0 := Z.land xu mask in
  let x1 := Z.land (Z.shiftr xu qb) mask in
  let y0 := Z.land yu mask in
  let y1 := Z.land (Z.shiftr yu qb) mask in
  let z0 := U (x0 * y0) in
  let z1 := U (x1 * y0) in
  let z2 := U (x0 * y1) in
  let z3 := U (x1 * y1) in
  let z4 := U (z1 + z2) in
  let c1 := b2z (z4 <? z1) in
  let l1 := U (z0 + U (Z.shiftl z4 qb)) in
  let c2 := b2z (l1 <? z0) in
  let rs := Z.lxor xs ys in
  let h1 := U (z3 + Z.shiftr z4 qb + U (Z.shiftl c1 qb) + c2) in
  let l2 := U (l1 - rs) in
  let hb := b2z (l1 <? l2) in
  let h2 := U (h1 - hb) in
  let hi := Z.lxor (U (- rs)) h2 in
  swrap w hi.

Definition mulhsu (x y : Z) : Z :=
  let xs := b2z (x <? 0) in
  let xu := Z.lxor (U (U (Z.lnot xs) + 1)) (U (U x - xs)) in
  let x0 := Z.land xu mask in
  let x1 := Z.land (Z.shiftr xu qb) mask in
  let y0 := Z.land y mask in
  let y1 := Z.land (Z.shiftr y qb) mask in
  let z0 := U (x0 * y0) in
  let z1 := U (x1 * y0) in
  let z2 := U (x0 * y1) in
  let z3 := U (x1 * y1) in
  let z4 := U (z1 + z2) in
  let c1 := b2z (z4 <? z1) in
  let l1 := U (z0 + U (Z.shiftl z4 qb)) in
  let c2 := b2z (l1 <? z0) in
  let h1 := U (z3 + Z.shiftr z4 qb + U (Z.shiftl c1 qb) + c2) in
  let l2 := U (l1 - xs) in
  let hb := b2z (l1 <? l2) in
  let h2 := U (h1 - hb) in
  let hi := Z.lxor (U (- xs)) h2 in
  swrap w hi.
End Mul_high.

(** ** Division

    C++ division truncates: [Z.quot] and [Z.rem].  [INT_MIN] is
    [std::numeric_limits<S>::min()]. *)
Definition INT_MIN (w : Z) : Z := - 2 ^ (w - 1).

Definition div (w x y : Z) : Z :=
  if (x =? INT_MIN w) && (y =? -1) then INT_MIN w
  else if y =? 0 then -1 else swrap w (Z.quot x y).

Definition divu (w x y : Z) : Z := if y =? 0 then wrap w (-1) else wrap w (Z.quot x y).

Definition rem (w x y : Z) : Z :=
  if (x =? INT_MIN w) && (y =? -1) then 0 else if y =? 0 then x else swrap w (Z.rem x y).

Definition remu (w x y : Z) : Z := if y =? 0 then x else wrap w (Z.rem x y).

(** ** Atomic operations, [UX] of width [w] *)
Inductive amo_op :=
  amoswap | amoadd | amoxor | amoor | amoand | amomin | amomax | amominu | amomaxu.

#[export] Instance amo_op_eq_dec : EqDecision amo_op.
Proof. solve_decision. Defined.

Definition amoswap_fn (w x y : Z) : Z := y.
Definition amoadd_fn (w x y : Z) : Z := wrap w (x + y).
Definition amoxor_fn (w x y : Z) : Z := Z.lxor x y.
Definition amoor_fn (w x y : Z) : Z := Z.lor x y.
Definition amoand_fn (w x y : Z) : Z := Z.land x y.
Definition amomin_fn (w x y : Z) : Z := wrap w (Z.min (swrap w x) (swrap w y)).
Definition amomax_fn (w x y : Z) : Z := wrap w (Z.max (swrap w x) (swrap w y)).
Definition amominu_fn (w x y : Z) : Z := Z.min x y.
Definition amomaxu_fn (w x y : Z) : Z := Z.max x y.

(** [amo_fn<UX>(op, x, y)]; the arguments are converted to [UX]. *)
Definition amo_fn (w : Z) (op : amo_op) (x y : Z) : Z :=
  let x := wrap w x in
  let y := wrap w y in
  match op with
  | amoswap => amoswap_fn w x y
  | amoadd => amoadd_fn w x y
  | amoxor => amoxor_fn w x y
  | amoor => amoor_fn w x y
  | amoand => amoand_fn w x y
  | amomin => amomin_fn w x y
  | amomax => amomax_fn w x y
  | amominu => amominu_fn w x y
  | amomaxu => amomaxu_fn w x y
  end.

(** ** Bit functions, [T] unsigned of width [w] *)
Definition ispow2 (w val : Z) : bool :=
  negb (val =? 0) && (Z.land val (wrap w (val - 1)) =? 0).

Definition round_up (addr page_size : Z) : Z :=
  Z.land (u64 (u64 (addr + page_size) - 1)) (u64 (Z.lnot (u64 (page_size - 1)))).

(** [bitextend], [T] signed of width [w]. *)
Definition bitextend (w val b : Z) : Z :=
  let mask := swrap w (Z.shiftl 1 (b - 1)) in
  let val := Z.land val (swrap w (swrap w (Z.shiftl 1 b) - 1)) in
  swrap w (Z.lxor val mask - mask).

(** The loops of the generic [popcount], [clz] and [ctz]; [idx] is the sequence
    of values of the loop variable. *)
Definition bit_range (w : Z) : list Z := map Z.of_nat (seq 0 (Z.to_nat w)).

Definition popcount (w val : Z) : Z :=
  fold_left (fun count i => u32 (count + (if Z.land val (wrap w (Z.shiftl 1 i)) =? 0 then 0 else 1)))
    (bit_range w) 0.

Fixpoint count_zeros (w val : Z) (idx : list Z) (count found : Z) : Z :=
  match idx with
  | [] => count
  | i :: idx =>
      let found := Z.lor found (if Z.land val (wrap w (Z.shiftl 1 i)) =? 0 then 0 else 1) in
      count_zeros w val idx (u32 (count + (if found =? 0 then 1 else 0))) found
  end.

Definition clz (w val : Z) : Z := count_zeros w val (rev (bit_range w)) 0 0.
Definition ctz (w val : Z) : Z := count_zeros w val (bit_range w) 0 0.

(** ** Correctness of the multiplications

    [w] is twice the half width; the product of two [w]-bit numbers is
    computed from the four half-width products. *)
Section Mul_facts.
Context (w : Z) (Hw : 2 <= w) (Hev : w = 2 * (w / 2)).
Abbreviation qb := (w / 2).
Abbreviation B := (2 ^ (w / 2)).

Lemma B_pos : 2 <= B.
Proof using Hw Hev. apply (Z.pow_le_mono_r 2 1 qb); lia. Qed.

Lemma B_sq : 2 ^ w = B * B.
Proof using Hw Hev. rewrite Hev at 1. rewrite <- Z.pow_add_r by lia. f_equal. lia. Qed.

Lemma mask_ones : wrap w (wrap w (Z.shiftl 1 qb) - 1) = Z.ones qb.
Proof using Hw Hev.
  rewrite wrap_sub_l, Z.shiftl_mul_pow2, Z.mul_1_l, Z.ones_equiv by lia.
  pose proof B_pos. pose proof B_sq. rewrite wrap_small; [lia | nia].
Qed.

Lemma low_half x : Z.land x (Z.ones qb) = x mod B.
Proof using Hw Hev. apply Z.land_ones. lia. Qed.

Lemma high_half x : 0 <= x < 2 ^ w -> Z.land (Z.shiftr x qb) (Z.ones qb) = x / B.
Proof using Hw Hev.
  intros Hx. rewrite low_half, Z.shiftr_div_pow2 by lia. pose proof B_pos. rewrite B_sq in Hx.
  apply Z.mod_small. split; [apply Z.div_pos; lia | apply Z.div_lt_upper_bound; lia].
Qed.

(** The carry of an addition of two [w]-bit numbers. *)
Lemma carry a b :
  0 <= a < 2 ^ w -> 0 <= b < 2 ^ w ->
  a + b = wrap w (a + b) + 2 ^ w * b2z (wrap w (a + b) <? a).
Proof using Hw.
  intros Ha Hb. unfold wrap.
  destruct (Z.ltb_spec (a + b) (2 ^ w)).
  - rewrite Z.mod_small by lia. destruct (Z.ltb_spec (a + b) a); simpl; lia.
  - replace ((a + b) mod 2 ^ w) with (a + b - 2 ^ w).
    + destruct (Z.ltb_spec (a + b - 2 ^ w) a); simpl; lia.
    + apply (Z.mod_unique _ _ 1); lia.
Qed.

Lemma shiftl_half z : 0 <= z < 2 ^ w -> wrap w (Z.shiftl z qb) = (z mod B) * B.
Proof using Hw Hev.
  intros Hz. pose proof B_pos. unfold wrap. rewrite Z.shiftl_mul_pow2, B_sq by lia.
  rewrite Z.mul_mod_distr_r by lia. reflexivity.
Qed.

Lemma mul_bound a b M : 0 <= a < M -> 0 <= b < M -> 0 <= a * b < M * M.
Proof using. nia. Qed.

Lemma mul_algebra b x0 x1 y0 y1 z4 d4 r4 c1 c2 lo :
  x1 * y0 + x0 * y1 = z4 + b * b * c1 -> z4 = b * d4 + r4 ->
  x0 * y0 + r4 * b = lo + b * b * c2 ->
  (b * x1 + x0) * (b * y1 + y0) = (x1 * y1 + d4 + c1 * b + c2) * (b * b) + lo.
Proof using.
  intros H1 H2 H3.
  replace ((b * x1 + x0) * (b * y1 + y0)) with
    (b * b * (x1 * y1) + b * (x1 * y0 + x0 * y1) + x0 * y0) by ring.
  rewrite H1, H2. replace (x0 * y0) with (lo + b * b * c2 - r4 * b) by lia. ring.
Qed.

(** The quotient of a product of two [M]-bounded numbers. *)
Lemma high_word_range M h lo p : 0 <= p < M * M -> 0 <= lo < M -> p = h * M + lo -> 0 <= h < M.
Proof using. intros Hp Hlo ->. split; nia. Qed.

(** The double-width product from the half-width products. *)
Lemma mul_halves x y :
  0 <= x < 2 ^ w -> 0 <= y < 2 ^ w ->
  let z0 := wrap w (x mod B * (y mod B)) in
  let z1 := wrap w (x / B * (y mod B)) in
  let z2 := wrap w (x mod B * (y / B)) in
  let z3 := wrap w (x / B * (y / B)) in
  let z4 := wrap w (z1 + z2) in
  let c1 := b2z (z4 <? z1) in
  let lo := wrap w (z0 + wrap w (Z.shiftl z4 qb)) in
  let c2 := b2z (lo <? z0) in
  let hi := wrap w (z3 + Z.shiftr z4 qb + wrap w (Z.shiftl c1 qb) + c2) in
  x * y = hi * 2 ^ w + lo /\ 0 <= lo < 2 ^ w /\ 0 <= hi < 2 ^ w.
Proof using Hw Hev.
  intros Hx Hy z0 z1 z2 z3 z4 c1 lo c2 hi. pose proof B_pos as HB. pose proof B_sq as HS.
  pose proof (wrap_range w ltac:(lia)) as WR.
  split; [| split; apply WR].
  assert (Hx0 : 0 <= x mod B < B) by (apply Z.mod_pos_bound; lia).
  assert (Hy0 : 0 <= y mod B < B) by (apply Z.mod_pos_bound; lia).
  assert (Hx1 : 0 <= x / B < B)
    by (split; [apply Z.div_pos | apply Z.div_lt_upper_bound]; lia).
  assert (Hy1 : 0 <= y / B < B)
    by (split; [apply Z.div_pos | apply Z.div_lt_upper_bound]; lia).
  assert (E0 : z0 = x mod B * (y mod B))
    by (apply wrap_small; rewrite HS; apply mul_bound; assumption).
  assert (E1 : z1 = x / B * (y mod B))
    by (apply wrap_small; rewrite HS; apply mul_bound; assumption).
  assert (E2 : z2 = x mod B * (y / B))
    by (apply wrap_small; rewrite HS; apply mul_bound; assumption).
  assert (E3 : z3 = x / B * (y / B))
    by (apply wrap_small; rewrite HS; apply mul_bound; assumption).
  pose proof (carry z1 z2 (WR _) (WR _)) as K1. fold z4 c1 in K1.
  assert (Hz4 : 0 <= z4 < 2 ^ w) by apply WR.
  pose proof (carry z0 _ (WR _) (WR (Z.shiftl z4 qb))) as K2. fold lo c2 in K2.
  rewrite shiftl_half in K2 by assumption.
  assert (Hc1 : c1 = 0 \/ c1 = 1) by (unfold c1, b2z; destruct (_ <? _); auto).
  assert (HC : wrap w (Z.shiftl c1 qb) = c1 * B).
  { rewrite shiftl_half by (destruct Hc1; subst c1; lia). rewrite Z.mod_small; lia. }
  pose proof (Z.div_mod z4 B ltac:(lia)) as D4.
  pose proof (Z.div_mod x B ltac:(lia)) as Dx. pose proof (Z.div_mod y B ltac:(lia)) as Dy.
  set (h := z3 + z4 / B + c1 * B + c2).
  assert (Hprod : x * y = h * 2 ^ w + lo).
  { rewrite Dx, Dy at 1. unfold h. rewrite E3, HS.
    apply mul_algebra with (z4 := z4) (r4 := z4 mod B); [| exact D4 |];
      rewrite <- HS; [rewrite <- E1, <- E2; exact K1 | rewrite <- E0; exact K2]. }
  assert (Hlo : 0 <= lo < 2 ^ w) by apply WR.
  assert (Hh : 0 <= h < 2 ^ w)
    by (apply (high_word_range _ h lo (x * y)); [apply mul_bound; assumption | assumption..]).
  assert (hi = h) as ->; [| assumption].
  unfold hi. rewrite HC, Z.shiftr_div_pow2 by lia. apply wrap_small. exact Hh.
Qed.

(** [mulhu] is the high word of the product. *)
Lemma mulhu_spec x y :
  0 <= x < 2 ^ w -> 0 <= y < 2 ^ w -> mulhu w x y = x * y / 2 ^ w.
Proof using Hw Hev.
  intros Hx Hy. unfold mulhu. rewrite mask_ones, !high_half, !low_half by assumption.
  destruct (mul_halves x y Hx Hy) as (E & Hlo & _).
  eapply Z.div_unique; [left; exact Hlo |]. rewrite (Z.mul_comm (2 ^ w)). exact E.
Qed.

(** The absolute value, computed without a branch. *)
Lemma lxor_sign s a :
  0 <= s <= 1 -> 0 <= a < 2 ^ w ->
  Z.lxor (wrap w (- s)) a = if s =? 0 then a else 2 ^ w - 1 - a.
Proof using Hw.
  intros Hs Ha. assert (s = 0 \/ s = 1) as [-> | ->] by lia; simpl.
  - apply Z.lxor_0_l.
  - rewrite <- (wrap_small w a) by assumption.
    replace (2 ^ w - 1 - wrap w a) with (wrap w (-1 - wrap w a)).
    + replace (-1 - wrap w a) with (Z.lnot (wrap w a)) by (unfold Z.lnot; lia).
      apply Z.bits_inj'. intros i Hi.
      rewrite Z.lxor_spec, !wrap_spec, Z.lnot_spec, wrap_spec, Z.bits_m1 by lia.
      destruct (i <? w), (Z.testbit a i); reflexivity.
    + pose proof (wrap_range w ltac:(lia) a). unfold wrap at 1.
      symmetry. apply (Z.mod_unique _ _ (-1)); lia.
Qed.

Lemma neg_of_not s : 0 <= s <= 1 -> wrap w (wrap w (Z.lnot s) + 1) = wrap w (- s).
Proof using. intros. rewrite wrap_add_l. f_equal. unfold Z.lnot. lia. Qed.

Lemma abs_word x :
  - 2 ^ (w - 1) <= x < 2 ^ (w - 1) ->
  Z.lxor (wrap w (wrap w (Z.lnot (b2z (x <? 0))) + 1)) (wrap w (wrap w x - b2z (x <? 0))) =
  Z.abs x.
Proof using Hw.
  intros Hx. pose proof (pow2_half w ltac:(lia)).
  rewrite neg_of_not, wrap_sub_l, lxor_sign by
    (unfold b2z; destruct (_ <? _); first [lia | apply wrap_range; lia]).
  destruct (Z.ltb_spec x 0); simpl.
  - replace (wrap w (x - 1)) with (x - 1 + 2 ^ w); [lia |].
    unfold wrap. apply (Z.mod_unique _ _ (-1)); lia.
  - rewrite wrap_small; lia.
Qed.

(** Negating a double word, high word first. *)
Lemma negate_high s h l :
  0 <= s <= 1 -> 0 <= h < 2 ^ w -> 0 <= l < 2 ^ w ->
  let l2 := wrap w (l - s) in
  let h2 := wrap w (h - b2z (l <? l2)) in
  swrap w (Z.lxor (wrap w (- s)) h2) =
  swrap w ((if s =? 0 then h * 2 ^ w + l else - (h * 2 ^ w + l)) / 2 ^ w).
Proof using Hw.
  intros Hs Hh Hl l2 h2. pose proof (Z.pow_le_mono_r 2 2 w ltac:(lia) Hw) as HM.
  rewrite lxor_sign by (assumption || apply wrap_range; lia).
  assert (s = 0 \/ s = 1) as [-> | ->] by lia; simpl.
  - assert (l2 = l) as E by (unfold l2; rewrite Z.sub_0_r; apply wrap_small; lia).
    unfold h2. rewrite E, Z.ltb_irrefl. simpl. rewrite Z.sub_0_r, wrap_small by lia.
    rewrite Z.div_add_l, (Z.div_small l) by lia. f_equal. lia.
  - apply swrap_eq. unfold h2, l2. destruct (Z.eq_dec l 0) as [-> |].
    + replace (wrap w (0 - 1)) with (2 ^ w - 1) by (unfold wrap; apply (Z.mod_unique _ _ (-1)); lia).
      destruct (Z.ltb_spec 0 (2 ^ w - 1)); [simpl | lia].
      replace (- (h * 2 ^ w + 0)) with ((- h) * 2 ^ w) by lia. rewrite Z.div_mul by lia.
      replace (2 ^ w - 1 - wrap w (h - 1)) with (2 ^ w + (-1 - wrap w (h - 1))) by lia.
      rewrite wrap_pow_add, wrap_sub_r. f_equal. lia.
    + rewrite (wrap_small w (l - 1)) by lia.
      destruct (Z.ltb_spec l (l - 1)); [lia | simpl]. rewrite Z.sub_0_r, (wrap_small w h) by lia.
      replace ((- (h * 2 ^ w + l)) / 2 ^ w) with (- h - 1).
      * replace (2 ^ w - 1 - h) with (2 ^ w + (- h - 1)) by lia. apply wrap_pow_add.
      * apply (Z.div_unique _ _ _ (2 ^ w - l)); [left; lia | lia].
Qed.

Lemma high_range p : - 2 ^ (w - 1) * 2 ^ w <= p < 2 ^ (w - 1) * 2 ^ w ->
  - 2 ^ (w - 1) <= p / 2 ^ w < 2 ^ (w - 1).
Proof using Hw.
  intros H. pose proof (pow2_pos w ltac:(lia)).
  split; [apply Z.div_le_lower_bound | apply Z.div_lt_upper_bound]; lia.
Qed.

Lemma mulh_spec x y :
  - 2 ^ (w - 1) <= x < 2 ^ (w - 1) -> - 2 ^ (w - 1) <= y < 2 ^ (w - 1) ->
  mulh w x y = x * y / 2 ^ w.
Proof using Hw Hev.
  intros Hx Hy. pose proof (pow2_half w ltac:(lia)) as HP.
  pose proof (pow2_pos (w - 1) ltac:(lia)) as HP1.
  assert (HX : 0 <= Z.abs x < 2 ^ w) by lia. assert (HY : 0 <= Z.abs y < 2 ^ w) by lia.
  unfold mulh. rewrite !abs_word by assumption.
  rewrite mask_ones, !high_half, !low_half by assumption.
  destruct (mul_halves (Z.abs x) (Z.abs y) HX HY) as (E & Hlo & Hhi).
  assert (HR : 0 <= Z.lxor (b2z (x <? 0)) (b2z (y <? 0)) <= 1)
    by (destruct (x <? 0), (y <? 0); vm_compute; split; congruence).
  cbv zeta in *. rewrite (negate_high _ _ _ HR Hhi Hlo), <- E.
  replace (if _ =? 0 then _ else _) with (x * y).
  - apply swrap_small; [lia |]. apply high_range. nia.
  - rewrite <- Z.abs_mul.
    destruct (Z.ltb_spec x 0), (Z.ltb_spec y 0);
      cbv [b2z Z.lxor Pos.lxor Z.of_N Z.eqb]; nia.
Qed.

Lemma mulhsu_spec x y :
  - 2 ^ (w - 1) <= x < 2 ^ (w - 1) -> 0 <= y < 2 ^ w -> mulhsu w x y = x * y / 2 ^ w.
Proof using Hw Hev.
  intros Hx Hy. pose proof (pow2_half w ltac:(lia)) as HP.
  pose proof (pow2_pos (w - 1) ltac:(lia)) as HP1.
  assert (HX : 0 <= Z.abs x < 2 ^ w) by lia.
  unfold mulhsu. rewrite !abs_word by assumption.
  rewrite mask_ones, !high_half, !low_half by assumption.
  destruct (mul_halves (Z.abs x) y HX Hy) as (E & Hlo & Hhi).
  assert (HR : 0 <= b2z (x <? 0) <= 1) by (destruct (x <? 0); simpl; lia).
  cbv zeta in *. rewrite (negate_high _ _ _ HR Hhi Hlo), <- E.
  replace (if _ =? 0 then _ else _) with (x * y).
  - apply swrap_small; [lia |]. apply high_range. nia.
  - destruct (Z.ltb_spec x 0); simpl; nia.
Qed.
End Mul_facts.

(** ** Division: the RISC-V results *)
Section Div_facts.
Context (w : Z) (Hw : 2 <= w).

Lemma quot_range x y :
  - 2 ^ (w - 1) <= x < 2 ^ (w - 1) -> y <> 0 -> ~ (x = - 2 ^ (w - 1) /\ y = -1) ->
  - 2 ^ (w - 1) <= Z.quot x y < 2 ^ (w - 1).
Proof using Hw.
  intros Hx Hy Hn. pose proof (pow2_pos (w - 1) ltac:(lia)).
  pose proof (Z.quot_rem x y Hy) as E. pose proof (Z.rem_bound_abs x y Hy).
  pose proof (Z.rem_sign_nz x y Hy) as S.
  destruct (Z.eq_dec y 1) as [-> | H1]; [rewrite Z.quot_1_r; lia |].
  destruct (Z.eq_dec y (-1)) as [-> | H2].
  - change (-1) with (- (1)). rewrite Z.quot_opp_r, Z.quot_1_r by lia. lia.
  - assert (Z.abs (Z.quot x y) * 2 <= Z.abs x).
    { rewrite <- Z.quot_abs by assumption.
      pose proof (Z.mul_quot_le (Z.abs x) (Z.abs y) ltac:(lia) ltac:(lia)).
      pose proof (Z.quot_pos (Z.abs x) (Z.abs y) ltac:(lia) ltac:(lia)). nia. }
    lia.
Qed.

Lemma rem_range x y : y <> 0 ->
  - 2 ^ (w - 1) <= y < 2 ^ (w - 1) -> - 2 ^ (w - 1) <= Z.rem x y < 2 ^ (w - 1).
Proof using Hw. intros H0 Hy. pose proof (Z.rem_bound_abs x y H0). lia. Qed.

Lemma div_rem_regular x y :
  - 2 ^ (w - 1) <= x < 2 ^ (w - 1) -> - 2 ^ (w - 1) <= y < 2 ^ (w - 1) ->
  y <> 0 -> ~ (x = - 2 ^ (w - 1) /\ y = -1) ->
  div w x y = Z.quot x y /\ rem w x y = Z.rem x y.
Proof using Hw.
  intros Hx Hy H0 Hn. unfold div, rem, INT_MIN.
  destruct (Z.eqb_spec x (- 2 ^ (w - 1))), (Z.eqb_spec y (-1)); simpl; try tauto;
    (destruct (Z.eqb_spec y 0); [tauto |];
     split; apply swrap_small; [lia | apply quot_range; tauto | lia | apply rem_range; tauto]).
Qed.

Lemma divu_remu_regular x y :
  0 <= x < 2 ^ w -> 0 < y -> divu w x y = x / y /\ remu w x y = x mod y.
Proof using Hw.
  intros Hx Hy. unfold divu, remu. destruct (Z.eqb_spec y 0); [lia |].
  rewrite Z.quot_div_nonneg, Z.rem_mod_nonneg by lia.
  split; apply wrap_small.
  - split; [apply Z.div_pos; lia | apply Z.div_lt_upper_bound; nia].
  - pose proof (Z.mod_pos_bound x y Hy). pose proof (Z.mod_le x y ltac:(lia) Hy). lia.
Qed.
End Div_facts.

(** ** 32-bit atomics on 64-bit operands *)
Section Amo_facts.
Context (a b : Z).

(** [x] is the 64-bit sign extension of its low 32 bits. *)
Abbreviation sx x := (u64 (s32 x)).

Lemma wrap_sx x : u32 (sx x) = u32 x.
Proof using. rewrite wrap_narrow, wrap_swrap by lia. reflexivity. Qed.

Lemma swrap_sx x : s64 (sx x) = s32 x.
Proof using. rewrite swrap_wrap. apply swrap_small; [lia |]. pose proof (swrap_range 32 ltac:(lia) x). lia. Qed.

(** Sign extension preserves the unsigned order. *)
Lemma sx_le x y : (sx x <= sx y) <-> (u32 x <= u32 y).
Proof using.
  pose proof (wrap_range 32 ltac:(lia) x). pose proof (wrap_range 32 ltac:(lia) y).
  assert (C : forall z, sx z = u32 z \/ (2 ^ 31 <= u32 z /\ sx z = u32 z + (2 ^ 64 - 2 ^ 32))).
  { intros z. pose proof (wrap_range 32 ltac:(lia) z) as Hz. unfold swrap.
    change (z mod 2 ^ 32) with (u32 z). destr_ltb.
    - left. apply wrap_small. lia.
    - right. split; [lia |]. rewrite <- (wrap_pow_add 64). rewrite wrap_small; lia. }
  assert (D : forall z, sx z = u32 z -> u32 z < 2 ^ 31).
  { intros z E. pose proof (swrap_range 32 ltac:(lia) z) as R.
    destruct (swrap_cases 32 z) as [S | S]; rewrite S in *; [lia |].
    pose proof (wrap_range 32 ltac:(lia) z).
    rewrite <- (wrap_pow_add 64) in E. rewrite wrap_small in E; lia. }
  destruct (C x) as [Ex | [Hx Ex]], (C y) as [Ey | [Hy Ey]];
    try (pose proof (D x Ex)); try (pose proof (D y Ey)); rewrite Ex, Ey; lia.
Qed.

Lemma amo_fn_word op : u32 (amo_fn 64 op (s32 a) (s32 b)) = amo_fn 32 op a b.
Proof using.
  pose proof (wrap_sx a) as Ha. pose proof (wrap_sx b) as Hb.
  destruct op; cbv [amo_fn amoswap_fn amoadd_fn amoxor_fn amoor_fn amoand_fn amomin_fn amomax_fn
    amominu_fn amomaxu_fn].
  - assumption.
  - rewrite wrap_narrow, <- wrap_add_l, <- wrap_add_r, Ha, Hb by lia. reflexivity.
  - bitwise i Hi. rewrite wrap_spec, Z.lxor_spec by lia. rewrite <- Ha, <- Hb, !wrap_spec by lia.
    destruct (i <? 32); reflexivity.
  - rewrite wrap_lor, Ha, Hb by lia. reflexivity.
  - rewrite wrap_land, Ha, Hb by lia. reflexivity.
  - rewrite !swrap_sx, !swrap_wrap. destruct (Z.min_spec (s32 a) (s32 b)) as [[_ ->] | [_ ->]];
      rewrite wrap_sx, wrap_swrap; reflexivity.
  - rewrite !swrap_sx, !swrap_wrap. destruct (Z.max_spec (s32 a) (s32 b)) as [[_ ->] | [_ ->]];
      rewrite wrap_sx, wrap_swrap; reflexivity.
  - pose proof (sx_le a b). pose proof (sx_le b a).
    destruct (Z.min_spec (sx a) (sx b)) as [[? ->] | [? ->]]; rewrite ?Ha, ?Hb; lia.
  - pose proof (sx_le a b). pose proof (sx_le b a).
    destruct (Z.max_spec (sx a) (sx b)) as [[? ->] | [? ->]]; rewrite ?Ha, ?Hb; lia.
Qed.
End Amo_facts.

(** ** The bit functions *)
Lemma testbit_land_pow2 val i : 0 <= i -> (Z.land val (2 ^ i) =? 0) = negb (Z.testbit val i).
Proof.
  intros Hi. destruct (Z.testbit val i) eqn:E; simpl.
  - apply Z.eqb_neq. intros H. apply (f_equal (fun z => Z.testbit z i)) in H.
    rewrite Z.land_spec, Z.pow2_bits_true, E, Z.testbit_0_l in H by lia. discriminate.
  - apply Z.eqb_eq. bitwise j Hj. rewrite Z.pow2_bits_eqb, Z.testbit_0_l by lia.
    destruct (Z.eqb_spec i j) as [-> |]; [rewrite E; reflexivity | apply andb_false_r].
Qed.

Section Bit_facts.
Context (w : Z) (Hw : 0 < w < 2 ^ 32).

Lemma test_bit val i :
  0 <= i < w -> (Z.land val (wrap w (Z.shiftl 1 i)) =? 0) = negb (Z.testbit val i).
Proof using Hw.
  intros Hi. rewrite Z.shiftl_1_l, wrap_small by
    (split; [apply Z.pow_nonneg; lia | apply Z.pow_lt_mono_r; lia]).
  apply testbit_land_pow2. lia.
Qed.

Lemma count_zeros_found val idx c : 0 <= c < 2 ^ 32 -> count_zeros w val idx c 1 = c.
Proof using Hw.
  intros Hc. revert c Hc. induction idx as [| i idx IH]; intros c Hc; [reflexivity |].
  cbn [count_zeros]. replace (Z.lor 1 _) with 1 by (destruct (_ =? 0); reflexivity).
  simpl. rewrite Z.add_0_r, wrap_small by lia. auto.
Qed.

(** The loop counts the elements before the first set bit. *)
Lemma count_zeros_spec val idx c :
  Forall (fun i => 0 <= i < w) idx -> 0 <= c -> c + Z.of_nat (length idx) < 2 ^ 32 ->
  exists n, (n <= length idx)%nat /\ count_zeros w val idx c 0 = c + Z.of_nat n /\
    (forall k, (k < n)%nat -> Z.testbit val (nth k idx 0) = false) /\
    ((n < length idx)%nat -> Z.testbit val (nth n idx 0) = true).
Proof using Hw.
  intros HF. revert c. induction HF as [| i idx Hi _ IH]; intros c Hc HL.
  - exists 0%nat. simpl. repeat split; intros; lia.
  - cbn [count_zeros length] in *. rewrite test_bit by assumption.
    destruct (Z.testbit val i) eqn:E; cbn [negb].
    + exists 0%nat. change (Z.lor 0 1) with 1. cbn [Z.eqb].
      rewrite Z.add_0_r, wrap_small, count_zeros_found by lia.
      repeat split; intros; [lia | lia | lia | exact E].
    + change (Z.lor 0 0) with 0. cbn [Z.eqb]. rewrite wrap_small by lia.
      destruct (IH (c + 1)) as (n & Hn & -> & Hz & Hs); [lia | lia |].
      exists (S n). split; [lia |]. split; [lia |]. split.
      * intros [| k] Hk; [exact E | apply Hz; lia].
      * intros H. apply Hs. lia.
Qed.

Lemma bit_range_length : length (bit_range w) = Z.to_nat w.
Proof using. unfold bit_range. rewrite length_map, length_seq. reflexivity. Qed.

Lemma bit_range_nth k : (k < Z.to_nat w)%nat -> nth k (bit_range w) 0 = Z.of_nat k.
Proof using.
  intros H. unfold bit_range. rewrite (map_nth Z.of_nat _ 0%nat), seq_nth by lia. reflexivity.
Qed.

Lemma bit_range_in : Forall (fun i => 0 <= i < w) (bit_range w).
Proof using Hw.
  apply List.Forall_forall. intros i H. apply in_map_iff in H as (k & <- & H).
  apply in_seq in H. lia.
Qed.

(** [ctz]: the position of the lowest set bit, [w] when there is none. *)
Lemma ctz_spec val :
  0 <= ctz w val <= w /\
  (forall i, 0 <= i < ctz w val -> Z.testbit val i = false) /\
  (ctz w val < w -> Z.testbit val (ctz w val) = true).
Proof using Hw.
  destruct (count_zeros_spec val (bit_range w) 0) as (n & Hn & E & Hz & Hs);
    [apply bit_range_in | lia | rewrite bit_range_length; lia |].
  unfold ctz. rewrite E, Z.add_0_l. rewrite bit_range_length in *. split; [lia |]. split.
  - intros i Hi. specialize (Hz (Z.to_nat i) ltac:(lia)).
    rewrite bit_range_nth, Z2Nat.id in Hz by lia. assumption.
  - intros H. specialize (Hs ltac:(lia)). rewrite bit_range_nth in Hs by lia. assumption.
Qed.

(** [clz]: the number of zero bits above the highest set bit. *)
Lemma clz_spec val :
  0 <= clz w val <= w /\
  (forall i, w - clz w val <= i < w -> Z.testbit val i = false) /\
  (clz w val < w -> Z.testbit val (w - 1 - clz w val) = true).
Proof using Hw.
  destruct (count_zeros_spec val (rev (bit_range w)) 0) as (n & Hn & E & Hz & Hs);
    [apply Forall_rev, bit_range_in | lia | rewrite length_rev, bit_range_length; lia |].
  unfold clz. rewrite E, Z.add_0_l. rewrite length_rev, bit_range_length in *.
  assert (R : forall k, (k < Z.to_nat w)%nat ->
    nth k (rev (bit_range w)) 0 = w - 1 - Z.of_nat k).
  { intros k Hk. rewrite rev_nth, bit_range_length by (rewrite bit_range_length; lia).
    rewrite bit_range_nth; lia. }
  split; [lia |]. split.
  - intros i Hi. specialize (Hz (Z.to_nat (w - 1 - i)) ltac:(lia)).
    rewrite R, Z2Nat.id in Hz by lia. rewrite <- Hz. f_equal. lia.
  - intros H. specialize (Hs ltac:(lia)). rewrite R in Hs by lia. assumption.
Qed.

(** A number is an odd multiple of the power of two [ctz] tells. *)
Lemma ctz_factor val :
  0 < val < 2 ^ w -> 0 <= ctz w val < w /\ exists k, 0 <= k /\ val = 2 ^ ctz w val * (2 * k + 1).
Proof using Hw.
  intros Hv. destruct (ctz_spec val) as (Hc & Hz & Ho). set (c := ctz w val) in *.
  assert (Hcw : c < w).
  { destruct (Z.lt_ge_cases c w); [assumption |]. assert (val = 0); [| lia].
    rewrite <- (wrap_small w val) by lia. bitwise i Hi. rewrite wrap_spec, Z.bits_0 by lia.
    destruct (Z.ltb_spec i w); [apply Hz; lia | reflexivity]. }
  split; [lia |]. exists (val / 2 ^ (c + 1)).
  assert (0 < 2 ^ c) by (apply Z.pow_pos_nonneg; lia).
  split; [apply Z.div_pos; [lia | apply Z.pow_pos_nonneg; lia] |].
  assert (E0 : val mod 2 ^ c = 0).
  { bitwise i Hi. rewrite Z.bits_0. destruct (Z.ltb_spec i c).
    - rewrite Z.mod_pow2_bits_low by lia. apply Hz. lia.
    - apply Z.mod_pow2_bits_high. lia. }
  specialize (Ho Hcw). rewrite Z.testbit_true in Ho by lia.
  rewrite Z.pow_add_r, <- Z.div_div by lia. change (2 ^ 1) with 2.
  pose proof (Z.div_mod val (2 ^ c) ltac:(lia)). pose proof (Z.div_mod (val / 2 ^ c) 2 ltac:(lia)). nia.
Qed.

(** [ispow2] finds the powers of two. *)
Lemma ispow2_factor val : 0 <= val < 2 ^ w -> ispow2 w val = true -> 0 <= ctz w val < w /\ val = 2 ^ ctz w val.
Proof using Hw.
  unfold ispow2. intros Hv H. bool_hyps. rewrite wrap_small in * by lia.
  destruct (ctz_factor val) as (Hc & k & Hk & E); [lia |]. split; [exact Hc |].
  set (c := ctz w val) in *. assert (k = 0); [| subst k; lia].
  assert (0 < 2 ^ c) by (apply Z.pow_pos_nonneg; lia).
  assert (Ek : forall r, 0 <= r < 2 ^ (c + 1) -> Z.shiftr (2 ^ (c + 1) * k + r) (c + 1) = k).
  { intros r Hr. rewrite Z.shiftr_div_pow2 by lia. symmetry. apply (Z.div_unique _ _ _ r); lia. }
  rewrite Z.pow_add_r in Ek by lia. change (2 ^ 1) with 2 in Ek.
  match goal with H : Z.land _ _ = 0 |- _ => apply (f_equal (fun z => Z.shiftr z (c + 1))) in H; rewrite Z.shiftr_land, Z.shiftr_0_l in H end.
  replace (val - 1) with (2 ^ c * 2 * k + (2 ^ c - 1)) in * by lia.
  replace val with (2 ^ c * 2 * k + 2 ^ c) in * by lia.
  rewrite !Ek, Z.land_diag in * by lia. assumption.
Qed.
End Bit_facts.

(** [bitextend] sign-extends the low [b] bits. *)
Lemma bitextend_spec w val b :
  0 < b < w -> - 2 ^ (w - 1) <= val < 2 ^ (w - 1) -> bitextend w val b = swrap b val.
Proof.
  intros Hb Hv. unfold bitextend.
  assert (HP : 2 ^ b = 2 * 2 ^ (b - 1)) by (apply pow2_half; lia).
  assert (HQ : 2 ^ b <= 2 ^ (w - 1)) by (apply Z.pow_le_mono_r; lia).
  assert (HR : 0 < 2 ^ (b - 1)) by (apply Z.pow_pos_nonneg; lia).
  rewrite !Z.shiftl_1_l, (swrap_small w ltac:(lia) (2 ^ (b - 1))) by lia.
  replace (swrap w (swrap w (2 ^ b) - 1)) with (Z.ones b).
  2: { rewrite Z.ones_equiv. rewrite (swrap_eq w (swrap w (2 ^ b) - 1) (2 ^ b - 1)).
       - rewrite swrap_small; lia.
       - rewrite <- wrap_sub_l, wrap_swrap, wrap_sub_l. reflexivity. }
  rewrite <- wrap_land_ones by lia.
  pose proof (wrap_range b ltac:(lia) val) as HU.
  assert (E : Z.lxor (wrap b val) (2 ^ (b - 1)) - 2 ^ (b - 1) = swrap b val).
  { unfold swrap. change (val mod 2 ^ b) with (wrap b val). destr_ltb.
    - rewrite <- Z.add_nocarry_lxor; [lia |]. apply Z.eqb_eq. rewrite testbit_land_pow2 by lia.
      rewrite <- (Z.mod_small (wrap b val) (2 ^ (b - 1))) by lia.
      rewrite Z.mod_pow2_bits_high by lia. reflexivity.
    - assert (Hl : Z.land (wrap b val) (2 ^ (b - 1)) = 2 ^ (b - 1)).
      { bitwise i Hi. rewrite Z.pow2_bits_eqb by lia.
        destruct (Z.eqb_spec (b - 1) i) as [<- |]; [| apply andb_false_r].
        rewrite andb_true_r. replace (wrap b val) with (wrap b val - 2 ^ (b - 1) + 1 * 2 ^ (b - 1)) by lia.
        rewrite Z.testbit_true by lia. rewrite Z.div_add, Z.div_small by lia. reflexivity. }
      assert (Hx : Z.lxor (wrap b val) (2 ^ (b - 1)) = wrap b val - 2 ^ (b - 1)); [| lia].
      assert (Hd : Z.ldiff (2 ^ (b - 1)) (wrap b val) = 0) by
        (rewrite <- Hl; apply Z.bits_inj'; intros i Hi; rewrite Z.ldiff_spec, Z.land_spec, Z.testbit_0_l;
         destruct (Z.testbit (2 ^ (b - 1)) i), (Z.testbit (wrap b val) i); reflexivity).
      rewrite (Z.sub_nocarry_ldiff _ _ Hd). apply Z.bits_inj'. intros i Hi.
      apply (f_equal (fun z => Z.testbit z i)) in Hl. rewrite Z.land_spec in Hl.
      rewrite Z.lxor_spec, Z.ldiff_spec.
      destruct (Z.testbit (2 ^ (b - 1)) i), (Z.testbit (wrap b val) i); simpl in *; congruence. }
  rewrite E. apply swrap_small; [lia |]. pose proof (swrap_range b ltac:(lia) val).
  assert (2 ^ (b - 1) <= 2 ^ (w - 1)) by (apply Z.pow_le_mono_r; lia). lia.
Qed.
