(* ===== verification/Machine.v ===== *)
(** * Machine: the processor state of [emu/processor-base.h], the monad the
    interpreter runs in, and the interfaces of the host floating-point unit
    and of the memory management unit. *)

From Stdlib Require Import ZArith Lia Bool List.
From stdpp Require Import base numbers list.
From S2P Require Import Prelude Alu.

(** ** State *)

(** The host's floating-point environment (C11 [fenv.h]): the rounding mode
    and the accrued exception flags. *)
Inductive host_rm := FE_TONEAREST | FE_TOWARDZERO | FE_DOWNWARD | FE_UPWARD.

Record fenv := mkFenv { fe_round : host_rm; fe_flags : Z }.

(** [struct processor_base].  A register is its raw bits, an unsigned integer
    of [xlen] (integer registers) or 64 (floating-point registers) bits; [lr],
    [cause] and [badaddr] are of type [SX].  Logging state is left out. *)
Record proc := mkProc {
  pc : Z; ireg : list Z; freg : list Z;
  lr : Z; cause : Z; badaddr : Z;
  running : bool; debugging : bool; exceptions : bool; breakpoint : Z;
  time : Z; instret : Z; fcsr : Z;
  env : fenv }.

(** [processor_base()]. *)
Definition proc_init : proc :=
  mkProc 0 (replicate 32 0) (replicate 32 0) 0 0 0 true false true 0 0 0 0
    (mkFenv FE_TONEAREST 0).

Section Updates.
Context (p : proc).
Definition set_pc v := mkProc v (ireg p) (freg p) (lr p) (cause p) (badaddr p) (running p)
  (debugging p) (exceptions p) (breakpoint p) (time p) (instret p) (fcsr p) (env p).
Definition set_ireg v := mkProc (pc p) v (freg p) (lr p) (cause p) (badaddr p) (running p)
  (debugging p) (exceptions p) (breakpoint p) (time p) (instret p) (fcsr p) (env p).
Definition set_freg v := mkProc (pc p) (ireg p) v (lr p) (cause p) (badaddr p) (running p)
  (debugging p) (exceptions p) (breakpoint p) (time p) (instret p) (fcsr p) (env p).
Definition set_lr v := mkProc (pc p) (ireg p) (freg p) v (cause p) (badaddr p) (running p)
  (debugging p) (exceptions p) (breakpoint p) (time p) (instret p) (fcsr p) (env p).
Definition set_cause v := mkProc (pc p) (ireg p) (freg p) (lr p) v (badaddr p) (running p)
  (debugging p) (exceptions p) (breakpoint p) (time p) (instret p) (fcsr p) (env p).
Definition set_badaddr v := mkProc (pc p) (ireg p) (freg p) (lr p) (cause p) v (running p)
  (debugging p) (exceptions p) (breakpoint p) (time p) (instret p) (fcsr p) (env p).
Definition set_time v := mkProc (pc p) (ireg p) (freg p) (lr p) (cause p) (badaddr p) (running p)
  (debugging p) (exceptions p) (breakpoint p) v (instret p) (fcsr p) (env p).
Definition set_instret v := mkProc (pc p) (ireg p) (freg p) (lr p) (cause p) (badaddr p)
  (running p) (debugging p) (exceptions p) (breakpoint p) (time p) v (fcsr p) (env p).
Definition set_fcsr v := mkProc (pc p) (ireg p) (freg p) (lr p) (cause p) (badaddr p) (running p)
  (debugging p) (exceptions p) (breakpoint p) (time p) (instret p) v (env p).
Definition set_env v := mkProc (pc p) (ireg p) (freg p) (lr p) (cause p) (badaddr p) (running p)
  (debugging p) (exceptions p) (breakpoint p) (time p) (instret p) (fcsr p) v.
End Updates.

(** Well-formed states: 32 registers of each file, values in range, [x0 = 0]. *)
Record proc_ok (xlen : Z) (p : proc) : Prop := {
  ok_pc : 0 <= pc p < 2 ^ xlen;
  ok_ireg_length : length (ireg p) = 32%nat;
  ok_ireg : Forall (fun v => 0 <= v < 2 ^ xlen) (ireg p);
  ok_x0 : ireg p !! 0%nat = Some 0;
  ok_freg_length : length (freg p) = 32%nat;
  ok_freg : Forall (fun v => 0 <= v < 2 ^ 64) (freg p);
  ok_fcsr : 0 <= fcsr p < 2 ^ 32 }.

(** ** Computations

    The processor a handler runs on is a [P] that extends [proc] (it also
    holds the memory, the TLBs, ...).  A handler returns normally, leaves by
    the [longjmp] of [raise] with a cause, or has undefined behaviour in C++
    (a shift count out of range, a register index out of bounds). *)
Class Processor (P : Type) := {
  base : P -> proc;
  set_base : proc -> P -> P }.

Class ProcessorLaws (P : Type) `{Processor P} : Prop := {
  base_set : forall b p, base (set_base b p) = b;
  set_base_base : forall p, set_base (base p) p = p;
  set_base_set : forall b b' p, set_base b (set_base b' p) = set_base b p }.

Inductive res (P A : Type) :=
  | Ok (a : A) (p : P)
  | Raise (cause : Z) (p : P)
  | Undefined.
Arguments Ok {P A}.
Arguments Raise {P A}.
Arguments Undefined {P A}.

Definition M (P A : Type) : Type := P -> res P A.

Section Monad.
Context {P : Type}.

Definition ret {A} (a : A) : M P A := fun p => Ok a p.

Definition bind {A B} (m : M P A) (f : A -> M P B) : M P B := fun p =>
  match m p with
  | Ok a p => f a p
  | Raise c p => Raise c p
  | Undefined => Undefined
  end.

Definition undefined {A} : M P A := fun _ => Undefined.
End Monad.

Notation "x <- m ;; k" := (bind m (fun x => k))
  (at level 100, m at next level, right associativity) : rv_scope.
Notation "m ;; k" := (bind m (fun _ => k)) (at level 100, right associativity) : rv_scope.

Section Operations.
Context {P : Type} `{Processor P}.

Definition gets {A} (f : proc -> A) : M P A := fun p => Ok (f (base p)) p.
Definition modify (f : proc -> proc) : M P unit := fun p => Ok tt (set_base (f (base p)) p).

(** [raise(ex_cause, ex_addr)]: it returns when [exceptions] is false. *)
Definition raise (ex_cause ex_addr : Z) : M P unit :=
  modify (fun b => set_badaddr b ex_addr) ;;
  ex <- gets exceptions ;;
  if ex : bool then (fun p => Raise ex_cause p)
  else modify (fun b => set_cause b ex_cause).

(** Register files; an index out of the array is undefined. *)
Definition get_raw (file : proc -> list Z) (i : Z) : M P Z :=
  l <- gets file ;;
  match (if 0 <=? i then l !! Z.to_nat i else None) with
  | Some v => ret v
  | None => undefined
  end.

Definition in_bounds (l : list Z) (i : Z) : bool := (0 <=? i) && (i <? Z.of_nat (length l)).

(** [ireg[i] = v], [v] of the [xlen]-bit type [SX]. *)
Definition put_ireg (xlen i v : Z) : M P unit :=
  l <- gets ireg ;;
  if in_bounds l i then modify (fun b => set_ireg b (<[Z.to_nat i := wrap xlen v]> (ireg b)))
  else undefined.

Definition put_freg (i v : Z) : M P unit :=
  l <- gets freg ;;
  if in_bounds l i then modify (fun b => set_freg b (<[Z.to_nat i := v]> (freg b)))
  else undefined.
End Operations.

(** ** The host's floating-point unit

    The C++ operators on [float] and [double] are the host's: [fmt] is 32 or
    64, a float is its bits, and an operation returns the exception flags it
    raises.  Nothing is assumed of them. *)
Record host_fpu := {
  f_add : Z -> host_rm -> Z -> Z -> Z * Z;
  f_sub : Z -> host_rm -> Z -> Z -> Z * Z;
  f_mul : Z -> host_rm -> Z -> Z -> Z * Z;
  f_div : Z -> host_rm -> Z -> Z -> Z * Z;
  f_sqrt : Z -> host_rm -> Z -> Z * Z;
  f_lt : Z -> Z -> Z -> bool * Z;
  f_le : Z -> Z -> Z -> bool * Z;
  f_eq : Z -> Z -> Z -> bool * Z;
  f_of_int : Z -> host_rm -> Z -> Z * Z;   (* from an integer of any type *)
  f_to_s32 : Z -> Z -> Z * Z;              (* [s32(f)], [u32(f)], ... truncate *)
  f_to_u32 : Z -> Z -> Z * Z;
  f_to_s64 : Z -> Z -> Z * Z;
  f_to_u64 : Z -> Z -> Z * Z;
  f_widen : host_rm -> Z -> Z * Z;         (* [f64(f32)] *)
  f_narrow : host_rm -> Z -> Z * Z }.      (* [f32(f64)] *)

(** ** The memory management unit

    [load<P,T>], [store<P,T>] and [amo<P,T>] for an integer type [T] of [w]
    bits, as raw bits; [amo] returns the old value.  [mmu_store_f] is
    [store<P,f32>] and [store<P,f64>]: it is given the bits of the float. *)
Class MMU (P : Type) := {
  mmu_load : Z -> Z -> M P Z;
  mmu_store : Z -> Z -> Z -> M P unit;
  mmu_store_f : host_fpu -> Z -> Z -> Z -> M P unit;
  mmu_amo : Z -> amo_op -> Z -> Z -> M P Z }.

(** What the interpreter's theorems ask of the MMU: it changes no
    architectural register, and a loaded value has its width; the store of a
    float may use the host's floating-point unit. *)
Definition same_regs (b b' : proc) : Prop :=
  pc b' = pc b /\ ireg b' = ireg b /\ freg b' = freg b /\ lr b' = lr b /\
  instret b' = instret b /\ fcsr b' = fcsr b /\ env b' = env b /\ exceptions b' = exceptions b.

Definition preserves_regs {P A} `{Processor P} (m : M P A) (Q : A -> Prop) : Prop :=
  forall p, match m p with
  | Ok a p' => same_regs (base p) (base p') /\ Q a
  | Raise _ p' => same_regs (base p) (base p')
  | Undefined => True
  end.

Class MMULaws (P : Type) `{Processor P} `{MMU P} : Prop := {
  load_regs : forall w va, preserves_regs (mmu_load w va) (fun v => 0 < w -> 0 <= v < 2 ^ w);
  store_regs : forall w va v, preserves_regs (mmu_store w va v) (fun _ => True);
  store_f_regs : forall fpu w va v p,
    match mmu_store_f fpu w va v p with
    | Ok _ p' | Raise _ p' => exists e, same_regs (set_env (base p) e) (base p')
    | Undefined => True
    end;
  amo_regs : forall w op va v, preserves_regs (mmu_amo w op va v) (fun v => 0 < w -> 0 <= v < 2 ^ w) }.
