(* ===== verification/Fpu.v ===== *)
(** * Fpu: the floating-point helpers of [asm/fpu.h] (the C11 branches: the
    build does not define [USE_SSE_MATH]). *)

From Stdlib Require Import ZArith Lia Bool List.
From stdpp Require Import base numbers list.
From S2P Require Import Prelude Machine.

(** ** Floating-point numbers as bits *)

(** [f32_type] and [f64_type]. *)
Record float_type := mkFloat { man_size : Z; exp_size : Z }.
Definition f32_type : float_type := mkFloat 23 8.
Definition f64_type : float_type := mkFloat 52 11.
Definition exp_denorm : Z := 0.
Definition exp_inf (F : float_type) : Z := 2 ^ exp_size F - 1.
Definition float_width (F : float_type) : Z := man_size F + exp_size F + 1.

(** The bit fields of [f32_bits] and [f64_bits]. *)
Definition f_man (F : float_type) (u : Z) : Z := Z.land u (Z.ones (man_size F)).
Definition f_exp (F : float_type) (u : Z) : Z :=
  Z.land (Z.shiftr u (man_size F)) (Z.ones (exp_size F)).
Definition f_sign (F : float_type) (u : Z) : Z := Z.shiftr u (man_size F + exp_size F).

(** [std::isnan] and [std::isinf], and the unary minus. *)
Definition isnan (F : float_type) (u : Z) : bool :=
  (f_exp F u =? exp_inf F) && negb (f_man F u =? 0).
Definition isinf (F : float_type) (u : Z) : bool :=
  (f_exp F u =? exp_inf F) && (f_man F u =? 0).
Definition f_neg (F : float_type) (u : Z) : Z := Z.lxor u (2 ^ (man_size F + exp_size F)).

(** [enum rv_fclass]. *)
Definition rv_fclass_neg_inf : Z := 1.
Definition rv_fclass_neg_norm : Z := 2.
Definition rv_fclass_neg_subnorm : Z := 4.
Definition rv_fclass_neg_zero : Z := 8.
Definition rv_fclass_pos_zero : Z := 16.
Definition rv_fclass_pos_subnorm : Z := 32.
Definition rv_fclass_pos_norm : Z := 64.
Definition rv_fclass_pos_inf : Z := 128.
Definition rv_fclass_signaling_nan : Z := 256.
Definition rv_fclass_quiet_nan : Z := 512.

Definition float_classify (F : float_type) (f : Z) : Z :=
  let neg := negb (f_sign F f =? 0) in
  let exp := f_exp F f in
  let man := f_man F f in
  if exp =? exp_denorm then
    if man =? 0 then if neg then rv_fclass_neg_zero else rv_fclass_pos_zero
    else if neg then rv_fclass_neg_subnorm else rv_fclass_pos_subnorm
  else if exp =? exp_inf F then
    if man =? 0 then if neg then rv_fclass_neg_inf else rv_fclass_pos_inf
    else if negb (Z.land man 1 =? 0) then rv_fclass_signaling_nan else rv_fclass_quiet_nan
  else if neg then rv_fclass_neg_norm else rv_fclass_pos_norm.

(** [float_classify] returns exactly one class bit. *)
Lemma float_classify_one_bit F f : exists k, 0 <= k < 10 /\ float_classify F f = 2 ^ k.
Proof.
  unfold float_classify.
  let k n := (exists n; split; [lia | reflexivity]) in
  repeat match goal with |- context [if ?b then _ else _] => destruct b end;
    first [k 0 | k 1 | k 2 | k 3 | k 4 | k 5 | k 6 | k 7 | k 8 | k 9].
Qed.

(** ** The floating-point environment *)

(** [rv_fcsr_*] and [enum rv_rm]. *)
Definition rv_fcsr_NX : Z := 1.
Definition rv_fcsr_UF : Z := 2.
Definition rv_fcsr_OF : Z := 4.
Definition rv_fcsr_DZ : Z := 8.
Definition rv_fcsr_NV : Z := 16.

Definition rv_rm_rne : Z := 0.
Definition rv_rm_rtz : Z := 1.
Definition rv_rm_rdn : Z := 2.
Definition rv_rm_rup : Z := 3.
Definition rv_rm_rmm : Z := 4.

(** The host's [FE_*] flags: distinct bits. *)
Definition FE_INVALID : Z := 0x01.
Definition FE_DIVBYZERO : Z := 0x04.
Definition FE_OVERFLOW : Z := 0x08.
Definition FE_UNDERFLOW : Z := 0x10.
Definition FE_INEXACT : Z := 0x20.

Section Fenv.
Context {P : Type} `{Processor P}.

Definition set_fenv (f : fenv -> fenv) : M P unit :=
  modify (fun b => set_env b (f (env b))).

(** The flags an operation raises accrue. *)
Definition accrue {A} (r : A * Z) : M P A :=
  set_fenv (fun e => mkFenv (fe_round e) (Z.lor (fe_flags e) r.2)) ;; ret r.1.

Definition feclearexcept (flags : Z) : M P unit :=
  set_fenv (fun e => mkFenv (fe_round e) (Z.ldiff (fe_flags e) flags)).

Definition fesetround (r : host_rm) : M P unit := set_fenv (fun e => mkFenv r (fe_flags e)).

Definition fenv_getflags : M P unit :=
  modify (fun b =>
    let flags := fe_flags (env b) in
    let test m v := if Z.land flags m =? 0 then 0 else v in
    set_fcsr b (Z.lor (Z.lor (Z.lor (Z.lor (Z.lor (fcsr b)
      (test FE_DIVBYZERO rv_fcsr_DZ)) (test FE_INEXACT rv_fcsr_NX))
      (test FE_INVALID rv_fcsr_NV)) (test FE_OVERFLOW rv_fcsr_OF))
      (test FE_UNDERFLOW rv_fcsr_UF))).

Definition fenv_clearflags : M P unit :=
  c <- gets fcsr ;;
  let test v m := if Z.land c v =? 0 then m else 0 in
  feclearexcept (Z.lor (Z.lor (Z.lor (Z.lor
    (test rv_fcsr_DZ FE_DIVBYZERO) (test rv_fcsr_NX FE_INEXACT))
    (test rv_fcsr_NV FE_INVALID)) (test rv_fcsr_OF FE_OVERFLOW))
    (test rv_fcsr_UF FE_UNDERFLOW)).

Definition fenv_setrm (rm : Z) : M P unit :=
  if rm =? 7 then ret tt
  else switch rm
    [rv_rm_rne ~> fesetround FE_TONEAREST;
     rv_rm_rtz ~> fesetround FE_TOWARDZERO;
     rv_rm_rdn ~> fesetround FE_DOWNWARD;
     rv_rm_rup ~> fesetround FE_UPWARD;
     rv_rm_rmm ~> fesetround FE_TONEAREST]
    (ret tt).

(** [fenv_setrm((proc.fcsr >> 5) & 0b111)]. *)
Definition fenv_setrm_dyn : M P unit := c <- gets fcsr ;; fenv_setrm (Z.land (Z.shiftr c 5) 7).

(** ** Operations of the host, under the current rounding mode *)
Context (fpu : host_fpu).

Definition fmt (F : float_type) : Z := float_width F.

Definition f_binop (op : Z -> host_rm -> Z -> Z -> Z * Z) (F : float_type) (a b : Z) : M P Z :=
  r <- gets (fun b => fe_round (env b)) ;; accrue (op (fmt F) r a b).

Definition f_sqrt_m (F : float_type) (a : Z) : M P Z :=
  r <- gets (fun b => fe_round (env b)) ;; accrue (f_sqrt fpu (fmt F) r a).

Definition f_of_int_m (F : float_type) (z : Z) : M P Z :=
  r <- gets (fun b => fe_round (env b)) ;; accrue (f_of_int fpu (fmt F) r z).

Definition f_cvt_m (op : host_rm -> Z -> Z * Z) (a : Z) : M P Z :=
  r <- gets (fun b => fe_round (env b)) ;; accrue (op r a).

Definition lt_m (F : float_type) (a b : Z) : M P bool := accrue (f_lt fpu (fmt F) a b).
Definition le_m (F : float_type) (a b : Z) : M P bool := accrue (f_le fpu (fmt F) a b).
Definition eq_m (F : float_type) (a b : Z) : M P bool := accrue (f_eq fpu (fmt F) a b).

Definition or_fcsr (v : Z) : M P unit := modify (fun b => set_fcsr b (Z.lor (fcsr b) v)).

(** Integer constants converted to [F] by the compiler: [2^k] and [-1];
    [INT32_MAX] is exact in a double and rounds to [2^31] in a float, and
    [INT64_MAX] rounds to [2^63] in both. *)
Definition f_pow2 (F : float_type) (k : Z) : Z :=
  Z.shiftl (2 ^ (exp_size F - 1) - 1 + k) (man_size F).
Definition f_minus_one (F : float_type) : Z := f_neg F (f_pow2 F 0).
Definition f_s32_max (F : float_type) : Z :=
  if float_width F =? 32 then f_pow2 F 31 else 0x41dfffffffc00000.
Definition f_s64_max (F : float_type) : Z := f_pow2 F 63.

Definition fcvt_w (F : float_type) (f : Z) : M P Z :=
  gt <- lt_m F (f_s32_max F) f ;;
  v <- accrue (f_to_s32 fpu (fmt F) f) ;;
  if (gt && (v <? 0)) || isnan F f then ret (2 ^ 31 - 1) else ret v.

Definition fcvt_wu (F : float_type) (f : Z) : M P Z :=
  ge <- le_m F 0 f ;;
  if isnan F f || (ge && isinf F f) then ret (s32 (2 ^ 32 - 1))
  else
    ge <- le_m F 0 f ;;
    if ge : bool then v <- accrue (f_to_u32 fpu (fmt F) f) ;; ret (s32 v)
    else
      gt <- lt_m F (f_minus_one F) f ;;
      if gt : bool then or_fcsr rv_fcsr_NX ;; ret 0 else or_fcsr rv_fcsr_NV ;; ret 0.

Definition fcvt_l (F : float_type) (f : Z) : M P Z :=
  gt <- lt_m F (f_s64_max F) f ;;
  v <- accrue (f_to_s64 fpu (fmt F) f) ;;
  if (gt && (v <? 0)) || isnan F f then ret (2 ^ 63 - 1) else ret v.

(** The x86-64 specialisations of [fcvt_lu]; [cvttss2siq] and [cvttsd2siq]
    are the host's truncating conversion. *)
Definition fcvt_lu (F : float_type) (f : Z) : M P Z :=
  ge <- le_m F 0 f ;;
  if isnan F f || (ge && isinf F f) then ret (s64 (2 ^ 64 - 1))
  else
    le <- le_m F f (f_minus_one F) ;;
    if le : bool then or_fcsr rv_fcsr_NV ;; ret 0
    else
      lt <- lt_m F f 0 ;;
      if lt : bool then or_fcsr rv_fcsr_NX ;; ret 0
      else
        gt <- lt_m F (f_pow2 F 63) f ;;
        if gt : bool then
          d <- f_binop (f_sub fpu) F f (f_pow2 F 63) ;;
          v <- accrue (f_to_s64 fpu (fmt F) d) ;;
          ret (s64 (Z.lxor v (2 ^ 63)))
        else accrue (f_to_s64 fpu (fmt F) f).
End Fenv.
