(* ===== verification/Interp.v ===== *)
(** * Interp: the interpreter of [emu/interp.h].

    One definition per group of opcodes; each case is the body of the C++
    [case] with the same opcode.  [xlen] is 32 in [exec_inst_rv32] and 64 in
    [exec_inst_rv64]; the cases both have are the same text in the source.
    The result of a case is the new [pc_offset]; -1 is an illegal instruction. *)

From Stdlib Require Import ZArith Lia Bool List.
From stdpp Require Import base numbers list.
From S2P Require Import Prelude Operand Meta Decode Codec Alu Machine Fpu.

(** A shift count that is not below the width of the shifted type is
    undefined in C++. *)
Section Shift.
Context {P : Type}.

Definition shl (w a n : Z) : M P Z :=
  if (0 <=? n) && (n <? w) then ret (wrap w (Z.shiftl a n)) else undefined.
Definition shr (w a n : Z) : M P Z :=
  if (0 <=? n) && (n <? w) then ret (Z.shiftr a n) else undefined.
End Shift.

Section Interp.
Context {P : Type} `{Processor P} `{MMU P} (fpu : host_fpu) (xlen : Z) (F : isa).
Context (dec : decode) (pc_offset : Z).

Abbreviation sx := (swrap xlen).
Abbreviation ux := (wrap xlen).
Abbreviation rd := (d_rd dec).
Abbreviation rs1 := (d_rs1 dec).
Abbreviation rs2 := (d_rs2 dec).
Abbreviation rs3 := (d_rs3 dec).
Abbreviation imm := (d_imm dec).

(** The members of the register unions: [r.x.val] (also [operator sx]),
    [r.xu.val], [r.w.val], [r.wu.val], [r.l.val], [r.lu.val]. *)
Definition x_val (i : Z) : M P Z := v <- get_raw ireg i ;; ret (sx v).
Definition xu_val (i : Z) : M P Z := get_raw ireg i.
Definition w_val (i : Z) : M P Z := v <- get_raw ireg i ;; ret (s32 v).
Definition wu_val (i : Z) : M P Z := v <- get_raw ireg i ;; ret (u32 v).
Definition l_val (i : Z) : M P Z := v <- get_raw ireg i ;; ret (s64 v).
Definition lu_val (i : Z) : M P Z := v <- get_raw ireg i ;; ret (u64 v).

(** [freg[i].r.s.val] / [r.wu.val] and [freg[i].r.d.val] / [r.lu.val], as
    bits; writing the 32-bit member leaves the upper half of the union. *)
Definition f_val (T : float_type) (i : Z) : M P Z :=
  v <- get_raw freg i ;; ret (wrap (float_width T) v).
Definition put_f (T : float_type) (i v : Z) : M P unit :=
  old <- get_raw freg i ;;
  put_freg i (if float_width T =? 32
              then Z.lor (Z.shiftl (Z.shiftr old 32) 32) (u32 v) else u64 v).

(** [proc.ireg[dec.rd] = (dec.rd == 0) ? 0 : e]: [e] is not evaluated when
    [rd] is 0. *)
Definition set_rd (e : M P Z) : M P unit :=
  v <- (if rd =? 0 then ret 0 else e) ;; put_ireg xlen rd v.

(** [if (ext) { body }; break;], for a body that does not assign
    [pc_offset] and for one that does. *)
Definition guarded (ext : bool) (body : M P unit) : option (M P Z) :=
  Some (if ext then body ;; ret pc_offset else ret pc_offset).
Definition guarded_jump (ext : bool) (body : M P Z) : option (M P Z) :=
  Some (if ext then body else ret pc_offset).

(** The effective address [proc.ireg[dec.rs1] + dec.imm], a [UX]. *)
Definition eff_addr : M P Z := a <- x_val rs1 ;; ret (ux (a + imm)).
Definition reg_addr : M P Z := a <- x_val rs1 ;; ret (ux a).

Definition branch (cond : M P bool) : M P Z :=
  c <- cond ;; ret (if c : bool then ux imm else pc_offset).

Definition load_rd (w : Z) (conv : Z -> Z) : M P unit :=
  va <- eff_addr ;; t <- mmu_load w va ;; set_rd (ret (conv t)).

(** [lui] to [bgeu]. *)
Definition exec_rvi_jump : option (M P Z) :=
  let cmp (val : Z -> M P Z) (f : Z -> Z -> bool) : M P bool :=
    a <- val rs1 ;; b <- val rs2 ;; ret (f a b) in
  match d_op dec with
  | rv_op_lui => guarded (rvi F) (set_rd (ret imm))
  | rv_op_auipc => guarded (rvi F) (set_rd (p <- gets pc ;; ret (ux (p + imm))))
  | rv_op_jal => guarded_jump (rvi F)
      (set_rd (p <- gets pc ;; ret (ux (p + pc_offset))) ;; ret (ux imm))
  | rv_op_jalr => guarded_jump (rvi F)
      (a <- x_val rs1 ;; p <- gets pc ;;
       let new_offset := Z.land (ux (a + imm - p)) (ux (Z.lnot 1)) in
       set_rd (p <- gets pc ;; ret (ux (p + pc_offset))) ;; ret new_offset)
  | rv_op_beq => guarded_jump (rvi F) (branch (cmp x_val Z.eqb))
  | rv_op_bne => guarded_jump (rvi F) (branch (cmp x_val (fun a b => negb (a =? b))))
  | rv_op_blt => guarded_jump (rvi F) (branch (cmp x_val Z.ltb))
  | rv_op_bge => guarded_jump (rvi F) (branch (cmp x_val Z.geb))
  | rv_op_bltu => guarded_jump (rvi F) (branch (cmp xu_val Z.ltb))
  | rv_op_bgeu => guarded_jump (rvi F) (branch (cmp xu_val Z.geb))
  | _ => None
  end.

(** [lb] to [sw]. *)
Definition exec_rvi_mem : option (M P Z) :=
  match d_op dec with
  | rv_op_lb => guarded (rvi F) (load_rd 8 s8)
  | rv_op_lh => guarded (rvi F) (load_rd 16 s16)
  | rv_op_lw => guarded (rvi F) (load_rd 32 s32)
  | rv_op_lbu => guarded (rvi F) (load_rd 8 u8)
  | rv_op_lhu => guarded (rvi F) (load_rd 16 u16)
  | rv_op_sb => guarded (rvi F) (va <- eff_addr ;; v <- x_val rs2 ;; mmu_store 8 va (u8 v))
  | rv_op_sh => guarded (rvi F) (va <- eff_addr ;; v <- x_val rs2 ;; mmu_store 16 va (u16 v))
  | rv_op_sw => guarded (rvi F) (va <- eff_addr ;; v <- w_val rs2 ;; mmu_store 32 va (u32 v))
  | _ => None
  end.

(** [addi] to [srai]. *)
Definition exec_rvi_imm : option (M P Z) :=
  match d_op dec with
  | rv_op_addi => guarded (rvi F) (set_rd (a <- x_val rs1 ;; ret (sx (a + sx imm))))
  | rv_op_slti => guarded (rvi F) (set_rd (a <- x_val rs1 ;; ret (b2z (a <? sx imm))))
  | rv_op_sltiu => guarded (rvi F) (set_rd (a <- xu_val rs1 ;; ret (b2z (a <? ux imm))))
  | rv_op_xori => guarded (rvi F) (set_rd (a <- xu_val rs1 ;; ret (Z.lxor a (ux imm))))
  | rv_op_ori => guarded (rvi F) (set_rd (a <- xu_val rs1 ;; ret (Z.lor a (ux imm))))
  | rv_op_andi => guarded (rvi F) (set_rd (a <- xu_val rs1 ;; ret (Z.land a (ux imm))))
  | rv_op_slli => guarded (rvi F) (set_rd (a <- xu_val rs1 ;; shl xlen a imm))
  | rv_op_srli => guarded (rvi F) (set_rd (a <- xu_val rs1 ;; shr xlen a imm))
  | rv_op_srai => guarded (rvi F) (set_rd (a <- x_val rs1 ;; shr xlen a imm))
  | _ => None
  end.

(** [add] to [and]; the shift count is [proc.ireg[dec.rs2] & 0b1111111]. *)
Definition exec_rvi_reg : option (M P Z) :=
  let op2 (val : Z -> M P Z) (f : Z -> Z -> Z) : M P unit :=
    set_rd (a <- val rs1 ;; b <- val rs2 ;; ret (f a b)) in
  match d_op dec with
  | rv_op_add => guarded (rvi F) (op2 x_val (fun a b => sx (a + b)))
  | rv_op_sub => guarded (rvi F) (op2 x_val (fun a b => sx (a - b)))
  | rv_op_sll => guarded (rvi F)
      (set_rd (a <- xu_val rs1 ;; b <- x_val rs2 ;; shl xlen a (Z.land b 0x7f)))
  | rv_op_slt => guarded (rvi F) (op2 x_val (fun a b => b2z (a <? b)))
  | rv_op_sltu => guarded (rvi F) (op2 xu_val (fun a b => b2z (a <? b)))
  | rv_op_xor => guarded (rvi F) (op2 xu_val Z.lxor)
  | rv_op_srl => guarded (rvi F)
      (set_rd (a <- xu_val rs1 ;; b <- x_val rs2 ;; shr xlen a (Z.land b 0x7f)))
  | rv_op_sra => guarded (rvi F)
      (set_rd (a <- x_val rs1 ;; b <- x_val rs2 ;; shr xlen a (Z.land b 0x7f)))
  | rv_op_or => guarded (rvi F) (op2 xu_val Z.lor)
  | rv_op_and => guarded (rvi F) (op2 xu_val Z.land)
  | _ => None
  end.

(** [mul] to [remu]. *)
Definition exec_rvm : option (M P Z) :=
  match d_op dec with
  | rv_op_mul => guarded (rvm F)
      (set_rd (a <- x_val rs1 ;; b <- x_val rs2 ;; ret (sx (a * b))))
  | rv_op_mulh => guarded (rvm F)
      (set_rd (a <- x_val rs1 ;; b <- x_val rs2 ;; ret (mulh xlen a b)))
  | rv_op_mulhsu => guarded (rvm F)
      (set_rd (a <- x_val rs1 ;; b <- xu_val rs2 ;; ret (mulhsu xlen a b)))
  | rv_op_mulhu => guarded (rvm F)
      (set_rd (a <- xu_val rs1 ;; b <- xu_val rs2 ;; ret (mulhu xlen a b)))
  | rv_op_div => guarded (rvm F)
      (set_rd (a <- x_val rs1 ;; b <- x_val rs2 ;;
        ret (if (a =? INT_MIN xlen) && (b =? -1) then INT_MIN xlen
             else if b =? 0 then -1 else Z.quot a b)))
  | rv_op_divu => guarded (rvm F)
      (set_rd (a <- xu_val rs1 ;; b <- xu_val rs2 ;;
        ret (if b =? 0 then -1 else sx (Z.quot a b))))
  | rv_op_rem => guarded (rvm F)
      (set_rd (a <- x_val rs1 ;; b <- x_val rs2 ;;
        ret (if (a =? INT_MIN xlen) && (b =? -1) then 0
             else if b =? 0 then a else Z.rem a b)))
  | rv_op_remu => guarded (rvm F)
      (set_rd (a <- xu_val rs1 ;; b <- xu_val rs2 ;;
        ret (if b =? 0 then sx a else sx (Z.rem a b))))
  | _ => None
  end.

(** [lr], [sc] and the atomics; [w] is the width of [T]. *)
Definition exec_lr (w : Z) (conv : Z -> Z) : M P unit :=
  a <- x_val rs1 ;; modify (fun b => set_lr b a) ;;
  va <- reg_addr ;; t <- mmu_load w va ;; set_rd (ret (conv t)).

Definition exec_sc (w : Z) : M P unit :=
  l <- gets lr ;; a <- x_val rs1 ;;
  res <- (if negb (l =? a) then ret 1
          else va <- reg_addr ;; v <- xu_val rs2 ;; mmu_store w va (wrap w v) ;; ret 0) ;;
  set_rd (ret res).

Definition exec_amo (w : Z) (conv : Z -> Z) (op : amo_op) : M P unit :=
  v2 <- xu_val rs2 ;; va <- reg_addr ;; t1 <- mmu_amo w op va (wrap w v2) ;;
  set_rd (ret (conv t1)).

(** [lr.w] to [amomaxu.w]. *)
Definition exec_rva_w : option (M P Z) :=
  match d_op dec with
  | rv_op_lr_w => guarded (rva F) (exec_lr 32 s32)
  | rv_op_sc_w => guarded (rva F) (exec_sc 32)
  | rv_op_amoswap_w => guarded (rva F) (exec_amo 32 s32 amoswap)
  | rv_op_amoadd_w => guarded (rva F) (exec_amo 32 s32 amoadd)
  | rv_op_amoxor_w => guarded (rva F) (exec_amo 32 s32 amoxor)
  | rv_op_amoor_w => guarded (rva F) (exec_amo 32 s32 amoor)
  | rv_op_amoand_w => guarded (rva F) (exec_amo 32 s32 amoand)
  | rv_op_amomin_w => guarded (rva F) (exec_amo 32 s32 amomin)
  | rv_op_amomax_w => guarded (rva F) (exec_amo 32 s32 amomax)
  | rv_op_amominu_w => guarded (rva F) (exec_amo 32 s32 amominu)
  | rv_op_amomaxu_w => guarded (rva F) (exec_amo 32 s32 amomaxu)
  | _ => None
  end.

(** [flw] to [fmv.s.x]; [a * b + c] is a product and a sum. *)
Definition exec_rvf : option (M P Z) :=
  match d_op dec with
  | rv_op_flw => guarded (rvf F) (va <- eff_addr ;; t <- mmu_load 32 va ;; put_f f32_type rd t)
  | rv_op_fsw => guarded (rvf F)
      (va <- eff_addr ;; v <- f_val f32_type rs2 ;; mmu_store_f fpu 32 va v)
  | rv_op_fmadd_s => guarded (rvf F)
      (fenv_setrm_dyn ;; a <- f_val f32_type rs1 ;; b <- f_val f32_type rs2 ;; c <- f_val f32_type rs3 ;;
       t <- f_binop (f_mul fpu) f32_type a b ;; v <- f_binop (f_add fpu) f32_type t c ;; put_f f32_type rd v)
  | rv_op_fmsub_s => guarded (rvf F)
      (fenv_setrm_dyn ;; a <- f_val f32_type rs1 ;; b <- f_val f32_type rs2 ;; c <- f_val f32_type rs3 ;;
       t <- f_binop (f_mul fpu) f32_type a b ;; v <- f_binop (f_sub fpu) f32_type t c ;; put_f f32_type rd v)
  | rv_op_fnmsub_s => guarded (rvf F)
      (fenv_setrm_dyn ;; a <- f_val f32_type rs1 ;; b <- f_val f32_type rs2 ;; c <- f_val f32_type rs3 ;;
       t <- f_binop (f_mul fpu) f32_type a (f_neg f32_type b) ;; v <- f_binop (f_add fpu) f32_type t c ;; put_f f32_type rd v)
  | rv_op_fnmadd_s => guarded (rvf F)
      (fenv_setrm_dyn ;; a <- f_val f32_type rs1 ;; b <- f_val f32_type rs2 ;; c <- f_val f32_type rs3 ;;
       t <- f_binop (f_mul fpu) f32_type a (f_neg f32_type b) ;; v <- f_binop (f_sub fpu) f32_type t c ;; put_f f32_type rd v)
  | rv_op_fadd_s => guarded (rvf F)
      (fenv_setrm_dyn ;; a <- f_val f32_type rs1 ;; b <- f_val f32_type rs2 ;;
       v <- f_binop (f_add fpu) f32_type a b ;; put_f f32_type rd v)
  | rv_op_fsub_s => guarded (rvf F)
      (fenv_setrm_dyn ;; a <- f_val f32_type rs1 ;; b <- f_val f32_type rs2 ;;
       v <- f_binop (f_sub fpu) f32_type a b ;; put_f f32_type rd v)
  | rv_op_fmul_s => guarded (rvf F)
      (fenv_setrm_dyn ;; a <- f_val f32_type rs1 ;; b <- f_val f32_type rs2 ;;
       v <- f_binop (f_mul fpu) f32_type a b ;; put_f f32_type rd v)
  | rv_op_fdiv_s => guarded (rvf F)
      (fenv_setrm_dyn ;; a <- f_val f32_type rs1 ;; b <- f_val f32_type rs2 ;;
       v <- f_binop (f_div fpu) f32_type a b ;; put_f f32_type rd v)
  | rv_op_fsgnj_s => guarded (rvf F)
      (a <- f_val f32_type rs1 ;; b <- f_val f32_type rs2 ;;
       put_f f32_type rd (Z.lor (Z.land a (2 ^ 31 - 1)) (Z.land b (2 ^ 31))))
  | rv_op_fsgnjn_s => guarded (rvf F)
      (a <- f_val f32_type rs1 ;; b <- f_val f32_type rs2 ;;
       put_f f32_type rd (Z.lor (Z.land a (2 ^ 31 - 1)) (Z.land (u32 (Z.lnot b)) (2 ^ 31))))
  | rv_op_fsgnjx_s => guarded (rvf F)
      (a <- f_val f32_type rs1 ;; b <- f_val f32_type rs2 ;;
       put_f f32_type rd (Z.lxor a (Z.land b (2 ^ 31))))
  | rv_op_fmin_s => guarded (rvf F)
      (a <- f_val f32_type rs1 ;; b <- f_val f32_type rs2 ;; lt <- lt_m fpu f32_type a b ;;
       put_f f32_type rd (if lt || isnan f32_type b then a else b))
  | rv_op_fmax_s => guarded (rvf F)
      (a <- f_val f32_type rs1 ;; b <- f_val f32_type rs2 ;; gt <- lt_m fpu f32_type b a ;;
       put_f f32_type rd (if gt || isnan f32_type b then a else b))
  | rv_op_fsqrt_s => guarded (rvf F)
      (fenv_setrm_dyn ;; a <- f_val f32_type rs1 ;; v <- f_sqrt_m fpu f32_type a ;; put_f f32_type rd v)
  | rv_op_fle_s => guarded (rvf F)
      (set_rd (a <- f_val f32_type rs1 ;; b <- f_val f32_type rs2 ;; c <- le_m fpu f32_type a b ;; ret (b2z c)))
  | rv_op_flt_s => guarded (rvf F)
      (set_rd (a <- f_val f32_type rs1 ;; b <- f_val f32_type rs2 ;; c <- lt_m fpu f32_type a b ;; ret (b2z c)))
  | rv_op_feq_s => guarded (rvf F)
      (set_rd (a <- f_val f32_type rs1 ;; b <- f_val f32_type rs2 ;; c <- eq_m fpu f32_type a b ;; ret (b2z c)))
  | rv_op_fcvt_w_s => guarded (rvf F)
      (fenv_setrm_dyn ;; set_rd (a <- f_val f32_type rs1 ;; fcvt_w fpu f32_type a))
  | rv_op_fcvt_wu_s => guarded (rvf F)
      (fenv_setrm_dyn ;; set_rd (a <- f_val f32_type rs1 ;; fcvt_wu fpu f32_type a))
  | rv_op_fcvt_s_w => guarded (rvf F)
      (fenv_setrm_dyn ;; a <- w_val rs1 ;; v <- f_of_int_m fpu f32_type a ;; put_f f32_type rd v)
  | rv_op_fcvt_s_wu => guarded (rvf F)
      (fenv_setrm_dyn ;; a <- wu_val rs1 ;; v <- f_of_int_m fpu f32_type a ;; put_f f32_type rd v)
  | rv_op_fmv_x_s => guarded (rvf F)
      (set_rd (a <- f_val f32_type rs1 ;;
               ret (if isnan f32_type a then s32 0x7fc00000 else s32 a)))
  | rv_op_fclass_s => guarded (rvf F)
      (set_rd (a <- f_val f32_type rs1 ;; ret (float_classify f32_type a)))
  | rv_op_fmv_s_x => guarded (rvf F) (a <- wu_val rs1 ;; put_f f32_type rd a)
  | _ => None
  end.

(** [fld] to [fclass.d]. *)
Definition exec_rvd : option (M P Z) :=
  match d_op dec with
  | rv_op_fld => guarded (rvd F) (va <- eff_addr ;; t <- mmu_load 64 va ;; put_f f64_type rd t)
  | rv_op_fsd => guarded (rvd F)
      (va <- eff_addr ;; v <- f_val f64_type rs2 ;; mmu_store_f fpu 64 va v)
  | rv_op_fmadd_d => guarded (rvd F)
      (fenv_setrm_dyn ;; a <- f_val f64_type rs1 ;; b <- f_val f64_type rs2 ;; c <- f_val f64_type rs3 ;;
       t <- f_binop (f_mul fpu) f64_type a b ;; v <- f_binop (f_add fpu) f64_type t c ;; put_f f64_type rd v)
  | rv_op_fmsub_d => guarded (rvd F)
      (fenv_setrm_dyn ;; a <- f_val f64_type rs1 ;; b <- f_val f64_type rs2 ;; c <- f_val f64_type rs3 ;;
       t <- f_binop (f_mul fpu) f64_type a b ;; v <- f_binop (f_sub fpu) f64_type t c ;; put_f f64_type rd v)
  | rv_op_fnmsub_d => guarded (rvd F)
      (fenv_setrm_dyn ;; a <- f_val f64_type rs1 ;; b <- f_val f64_type rs2 ;; c <- f_val f64_type rs3 ;;
       t <- f_binop (f_mul fpu) f64_type a (f_neg f64_type b) ;; v <- f_binop (f_add fpu) f64_type t c ;; put_f f64_type rd v)
  | rv_op_fnmadd_d => guarded (rvd F)
      (fenv_setrm_dyn ;; a <- f_val f64_type rs1 ;; b <- f_val f64_type rs2 ;; c <- f_val f64_type rs3 ;;
       t <- f_binop (f_mul fpu) f64_type a (f_neg f64_type b) ;; v <- f_binop (f_sub fpu) f64_type t c ;; put_f f64_type rd v)
  | rv_op_fadd_d => guarded (rvd F)
      (fenv_setrm_dyn ;; a <- f_val f64_type rs1 ;; b <- f_val f64_type rs2 ;;
       v <- f_binop (f_add fpu) f64_type a b ;; put_f f64_type rd v)
  | rv_op_fsub_d => guarded (rvd F)
      (fenv_setrm_dyn ;; a <- f_val f64_type rs1 ;; b <- f_val f64_type rs2 ;;
       v <- f_binop (f_sub fpu) f64_type a b ;; put_f f64_type rd v)
  | rv_op_fmul_d => guarded (rvd F)
      (fenv_setrm_dyn ;; a <- f_val f64_type rs1 ;; b <- f_val f64_type rs2 ;;
       v <- f_binop (f_mul fpu) f64_type a b ;; put_f f64_type rd v)
  | rv_op_fdiv_d => guarded (rvd F)
      (fenv_setrm_dyn ;; a <- f_val f64_type rs1 ;; b <- f_val f64_type rs2 ;;
       v <- f_binop (f_div fpu) f64_type a b ;; put_f f64_type rd v)
  | rv_op_fsgnj_d => guarded (rvd F)
      (a <- f_val f64_type rs1 ;; b <- f_val f64_type rs2 ;;
       put_f f64_type rd (Z.lor (Z.land a (2 ^ 63 - 1)) (Z.land b (2 ^ 63))))
  | rv_op_fsgnjn_d => guarded (rvd F)
      (a <- f_val f64_type rs1 ;; b <- f_val f64_type rs2 ;;
       put_f f64_type rd (Z.lor (Z.land a (2 ^ 63 - 1)) (Z.land (u64 (Z.lnot b)) (2 ^ 63))))
  | rv_op_fsgnjx_d => guarded (rvd F)
      (a <- f_val f64_type rs1 ;; b <- f_val f64_type rs2 ;;
       put_f f64_type rd (Z.lxor a (Z.land b (2 ^ 63))))
  | rv_op_fmin_d => guarded (rvd F)
      (a <- f_val f64_type rs1 ;; b <- f_val f64_type rs2 ;; lt <- lt_m fpu f64_type a b ;;
       put_f f64_type rd (if lt || isnan f64_type b then a else b))
  | rv_op_fmax_d => guarded (rvd F)
      (a <- f_val f64_type rs1 ;; b <- f_val f64_type rs2 ;; gt <- lt_m fpu f64_type b a ;;
       put_f f64_type rd (if gt || isnan f64_type b then a else b))
  | rv_op_fcvt_s_d => guarded (rvd F)
      (fenv_setrm_dyn ;; a <- f_val f64_type rs1 ;; v <- f_cvt_m (f_narrow fpu) a ;; put_f f32_type rd v)
  | rv_op_fcvt_d_s => guarded (rvd F)
      (fenv_setrm_dyn ;; a <- f_val f32_type rs1 ;; v <- f_cvt_m (f_widen fpu) a ;; put_f f64_type rd v)
  | rv_op_fsqrt_d => guarded (rvd F)
      (fenv_setrm_dyn ;; a <- f_val f64_type rs1 ;; v <- f_sqrt_m fpu f64_type a ;; put_f f64_type rd v)
  | rv_op_fle_d => guarded (rvd F)
      (set_rd (a <- f_val f64_type rs1 ;; b <- f_val f64_type rs2 ;; c <- le_m fpu f64_type a b ;; ret (b2z c)))
  | rv_op_flt_d => guarded (rvd F)
      (set_rd (a <- f_val f64_type rs1 ;; b <- f_val f64_type rs2 ;; c <- lt_m fpu f64_type a b ;; ret (b2z c)))
  | rv_op_feq_d => guarded (rvd F)
      (set_rd (a <- f_val f64_type rs1 ;; b <- f_val f64_type rs2 ;; c <- eq_m fpu f64_type a b ;; ret (b2z c)))
  | rv_op_fcvt_w_d => guarded (rvd F)
      (fenv_setrm_dyn ;; set_rd (a <- f_val f64_type rs1 ;; fcvt_w fpu f64_type a))
  | rv_op_fcvt_wu_d => guarded (rvd F)
      (fenv_setrm_dyn ;; set_rd (a <- f_val f64_type rs1 ;; fcvt_wu fpu f64_type a))
  | rv_op_fcvt_d_w => guarded (rvd F)
      (fenv_setrm_dyn ;; a <- w_val rs1 ;; v <- f_of_int_m fpu f64_type a ;; put_f f64_type rd v)
  | rv_op_fcvt_d_wu => guarded (rvd F)
      (fenv_setrm_dyn ;; a <- wu_val rs1 ;; v <- f_of_int_m fpu f64_type a ;; put_f f64_type rd v)
  | rv_op_fclass_d => guarded (rvd F)
      (set_rd (a <- f_val f64_type rs1 ;; ret (float_classify f64_type a)))
  | _ => None
  end.

(** [lwu], [ld], [sd]. *)
Definition exec_rv64_mem : option (M P Z) :=
  match d_op dec with
  | rv_op_lwu => guarded (rvi F) (load_rd 32 u32)
  | rv_op_ld => guarded (rvi F) (load_rd 64 s64)
  | rv_op_sd => guarded (rvi F) (va <- eff_addr ;; v <- l_val rs2 ;; mmu_store 64 va (u64 v))
  | _ => None
  end.

(** [addiw] to [sraw]. *)
Definition exec_rv64_word : option (M P Z) :=
  match d_op dec with
  | rv_op_addiw => guarded (rvi F) (set_rd (a <- w_val rs1 ;; ret (s32 (a + imm))))
  | rv_op_slliw => guarded (rvi F) (set_rd (a <- wu_val rs1 ;; v <- shl 32 a imm ;; ret (s32 v)))
  | rv_op_srliw => guarded (rvi F) (set_rd (a <- wu_val rs1 ;; v <- shr 32 a imm ;; ret (s32 v)))
  | rv_op_sraiw => guarded (rvi F) (set_rd (a <- w_val rs1 ;; shr 32 a imm))
  | rv_op_addw => guarded (rvi F)
      (set_rd (a <- w_val rs1 ;; b <- w_val rs2 ;; ret (s32 (a + b))))
  | rv_op_subw => guarded (rvi F)
      (set_rd (a <- w_val rs1 ;; b <- w_val rs2 ;; ret (s32 (a - b))))
  | rv_op_sllw => guarded (rvi F)
      (set_rd (a <- wu_val rs1 ;; b <- x_val rs2 ;; v <- shl 32 a (Z.land b 0x1f) ;; ret (s32 v)))
  | rv_op_srlw => guarded (rvi F)
      (set_rd (a <- wu_val rs1 ;; b <- x_val rs2 ;; v <- shr 32 a (Z.land b 0x1f) ;; ret (s32 v)))
  | rv_op_sraw => guarded (rvi F)
      (set_rd (a <- w_val rs1 ;; b <- x_val rs2 ;; v <- shr 32 a (Z.land b 0x1f) ;; ret (s32 v)))
  | _ => None
  end.

(** [mulw] to [remuw]. *)
Definition exec_rv64_mword : option (M P Z) :=
  match d_op dec with
  | rv_op_mulw => guarded (rvm F)
      (set_rd (a <- wu_val rs1 ;; b <- wu_val rs2 ;; ret (s32 (u32 (a * b)))))
  | rv_op_divw => guarded (rvm F)
      (set_rd (a <- w_val rs1 ;; b <- w_val rs2 ;;
        ret (if (a =? INT_MIN 32) && (b =? -1) then INT_MIN 32
             else if b =? 0 then -1 else Z.quot a b)))
  | rv_op_divuw => guarded (rvm F)
      (set_rd (a <- wu_val rs1 ;; b <- wu_val rs2 ;;
        ret (if b =? 0 then -1 else s32 (Z.quot a b))))
  | rv_op_remw => guarded (rvm F)
      (set_rd (a <- w_val rs1 ;; b <- w_val rs2 ;;
        ret (if (a =? INT_MIN 32) && (b =? -1) then 0
             else if b =? 0 then a else Z.rem a b)))
  | rv_op_remuw => guarded (rvm F)
      (set_rd (a <- wu_val rs1 ;; b <- wu_val rs2 ;;
        ret (if b =? 0 then s32 a else s32 (Z.rem a b))))
  | _ => None
  end.

(** [lr.d] to [amomaxu.d]. *)
Definition exec_rva_d : option (M P Z) :=
  match d_op dec with
  | rv_op_lr_d => guarded (rva F) (exec_lr 64 s64)
  | rv_op_sc_d => guarded (rva F) (exec_sc 64)
  | rv_op_amoswap_d => guarded (rva F) (exec_amo 64 s64 amoswap)
  | rv_op_amoadd_d => guarded (rva F) (exec_amo 64 s64 amoadd)
  | rv_op_amoxor_d => guarded (rva F) (exec_amo 64 s64 amoxor)
  | rv_op_amoor_d => guarded (rva F) (exec_amo 64 s64 amoor)
  | rv_op_amoand_d => guarded (rva F) (exec_amo 64 s64 amoand)
  | rv_op_amomin_d => guarded (rva F) (exec_amo 64 s64 amomin)
  | rv_op_amomax_d => guarded (rva F) (exec_amo 64 s64 amomax)
  | rv_op_amominu_d => guarded (rva F) (exec_amo 64 s64 amominu)
  | rv_op_amomaxu_d => guarded (rva F) (exec_amo 64 s64 amomaxu)
  | _ => None
  end.

(** [fcvt.l.s] to [fcvt.s.lu] and [fcvt.l.d] to [fmv.d.x]. *)
Definition exec_rvf_long : option (M P Z) :=
  match d_op dec with
  | rv_op_fcvt_l_s => guarded (rvf F)
      (fenv_setrm_dyn ;; set_rd (a <- f_val f32_type rs1 ;; fcvt_l fpu f32_type a))
  | rv_op_fcvt_lu_s => guarded (rvf F)
      (fenv_setrm_dyn ;; set_rd (a <- f_val f32_type rs1 ;; fcvt_lu fpu f32_type a))
  | rv_op_fcvt_s_l => guarded (rvf F)
      (fenv_setrm_dyn ;; a <- l_val rs1 ;; v <- f_of_int_m fpu f32_type a ;; put_f f32_type rd v)
  | rv_op_fcvt_s_lu => guarded (rvf F)
      (fenv_setrm_dyn ;; a <- lu_val rs1 ;; v <- f_of_int_m fpu f32_type a ;; put_f f32_type rd v)
  | _ => None
  end.

Definition exec_rvd_long : option (M P Z) :=
  match d_op dec with
  | rv_op_fcvt_l_d => guarded (rvd F)
      (fenv_setrm_dyn ;; set_rd (a <- f_val f64_type rs1 ;; fcvt_l fpu f64_type a))
  | rv_op_fcvt_lu_d => guarded (rvd F)
      (fenv_setrm_dyn ;; set_rd (a <- f_val f64_type rs1 ;; fcvt_lu fpu f64_type a))
  | rv_op_fmv_x_d => guarded (rvd F)
      (set_rd (a <- f_val f64_type rs1 ;;
               ret (if isnan f64_type a then s64 0x7ff8000000000000 else s64 a)))
  | rv_op_fcvt_d_l => guarded (rvd F)
      (fenv_setrm_dyn ;; a <- l_val rs1 ;; v <- f_of_int_m fpu f64_type a ;; put_f f64_type rd v)
  | rv_op_fcvt_d_lu => guarded (rvd F)
      (fenv_setrm_dyn ;; a <- lu_val rs1 ;; v <- f_of_int_m fpu f64_type a ;; put_f f64_type rd v)
  | rv_op_fmv_d_x => guarded (rvd F) (a <- lu_val rs1 ;; put_f f64_type rd a)
  | _ => None
  end.

(** The [switch]: the groups have no opcode in common; the default case
    returns -1. *)
Fixpoint dispatch (groups : list (option (M P Z))) : M P Z :=
  match groups with
  | [] => ret (ux (-1))
  | Some body :: _ => body
  | None :: rest => dispatch rest
  end.

Definition exec_common : list (option (M P Z)) :=
  [exec_rvi_jump; exec_rvi_mem; exec_rvi_imm; exec_rvi_reg; exec_rvm; exec_rva_w;
   exec_rvf; exec_rvd].

Definition exec_inst_rv32_groups : list (option (M P Z)) := exec_common.
Definition exec_inst_rv64_groups : list (option (M P Z)) :=
  exec_common ++ [exec_rv64_mem; exec_rv64_word; exec_rv64_mword; exec_rva_d; exec_rvf_long;
                  exec_rvd_long].
End Interp.

(** [exec_inst_rv32<...>(dec, proc, pc_offset)] and [exec_inst_rv64]. *)
Definition exec_inst_rv32 {P} `{Processor P} `{MMU P} (fpu : host_fpu) (F : isa) (dec : decode)
    (pc_offset : Z) : M P Z :=
  dispatch 32 (exec_inst_rv32_groups fpu 32 F dec pc_offset).

Definition exec_inst_rv64 {P} `{Processor P} `{MMU P} (fpu : host_fpu) (F : isa) (dec : decode)
    (pc_offset : Z) : M P Z :=
  dispatch 64 (exec_inst_rv64_groups fpu 64 F dec pc_offset).
