(* ===== verification/InterpSound.v ===== *)
(** * InterpSound: invariants of the interpreter.

    [safe I m Q]: from a state that satisfies [I], the handler [m] ends in
    one that satisfies [I], whether it returns a value (which satisfies [Q])
    or raises.  The rules below follow the structure of a handler; the
    opcodes of the interpreter are discharged by [safe_tac]. *)

From Stdlib Require Import ZArith Lia Bool List.
From stdpp Require Import base numbers list.
From S2P Require Import Prelude Operand Meta Decode Codec CodecRound Alu Machine Fpu Interp.

Section Safe.
Context {P : Type} `{ProcessorLaws P}.
Context (I : proc -> Prop).

Definition safe {A} (m : M P A) (Q : A -> Prop) : Prop :=
  forall p, I (base p) ->
  match m p with
  | Ok a p' => I (base p') /\ Q a
  | Raise _ p' => I (base p')
  | Undefined => True
  end.

Lemma safe_ret {A} (a : A) (Q : A -> Prop) : Q a -> safe (ret a) Q.
Proof using. intros HQ p HI. simpl. auto. Qed.

Lemma safe_undefined {A} (Q : A -> Prop) : safe undefined Q.
Proof using. intros p HI. exact Logic.I. Qed.

Lemma safe_bind {A B} (m : M P A) (f : A -> M P B) (R : A -> Prop) (Q : B -> Prop) :
  safe m R -> (forall a, R a -> safe (f a) Q) -> safe (bind m f) Q.
Proof using.
  intros Hm Hf p HI. unfold bind. specialize (Hm p HI).
  destruct (m p) as [a p' | c p' |]; [| assumption | exact Logic.I].
  destruct Hm as [HI' HR]. exact (Hf a HR p' HI').
Qed.

Lemma safe_weaken {A} (m : M P A) (R Q : A -> Prop) :
  safe m R -> (forall a, R a -> Q a) -> safe m Q.
Proof using.
  intros Hm HQ p HI. specialize (Hm p HI). destruct (m p); [| assumption | exact Logic.I].
  destruct Hm. auto.
Qed.

Lemma safe_gets {A} (f : proc -> A) (Q : A -> Prop) :
  (forall b, I b -> Q (f b)) -> safe (gets f) Q.
Proof using. intros HQ p HI. simpl. auto. Qed.

Lemma safe_modify (f : proc -> proc) (Q : unit -> Prop) :
  (forall b, I b -> I (f b)) -> Q tt -> safe (modify f) Q.
Proof using H0. intros Hf HQ p HI. simpl. rewrite base_set. auto. Qed.

Lemma safe_preserves {A} (m : M P A) (Q : A -> Prop) :
  (forall b b', same_regs b b' -> I b -> I b') -> preserves_regs m Q -> safe m Q.
Proof using.
  intros HR Hm p HI. specialize (Hm p). destruct (m p); [| eauto | exact Logic.I].
  destruct Hm. eauto.
Qed.
End Safe.

(** ** The invariant: a well-formed processor whose [pc] and [instret] do not move;
    [exceptions] is set, so [raise] does not return. *)
Definition step_inv (xlen pc0 n0 : Z) (b : proc) : Prop :=
  proc_ok xlen b /\ pc b = pc0 /\ instret b = n0 /\ exceptions b = true.

Lemma same_regs_step_inv xlen pc0 n0 b b' :
  same_regs b b' -> step_inv xlen pc0 n0 b -> step_inv xlen pc0 n0 b'.
Proof.
  intros (E1 & E2 & E3 & _ & E4 & E5 & _ & E6) ([] & H1 & H2). unfold step_inv.
  rewrite E1, E4, E6. split; [| auto]. split; rewrite ?E1, ?E2, ?E3, ?E5; assumption.
Qed.

Section Step_inv.
Context {P : Type} `{ProcessorLaws P} `{!MMU P} `{!MMULaws P}.
Context (fpu : host_fpu) (xlen : Z) (Hxlen : xlen = 32 \/ xlen = 64) (pc0 n0 : Z).

Abbreviation inv := (step_inv xlen pc0 n0).
Abbreviation any := (fun _ => True).
Abbreviation word := (fun v => 0 <= v < 2 ^ xlen).

Lemma xlen_pos : 0 < xlen.
Proof using Hxlen. lia. Qed.

(** Updates of fields that no register depends on. *)
Lemma inv_update b f :
  inv b -> pc (f b) = pc b -> ireg (f b) = ireg b -> freg (f b) = freg b ->
  instret (f b) = instret b -> exceptions (f b) = exceptions b -> 0 <= fcsr (f b) < 2 ^ 32 ->
  inv (f b).
Proof using.
  intros ([] & H1 & H2) E1 E2 E3 E4 E5 E6. unfold step_inv. rewrite E1, E4, E5.
  split; [| auto]. split; rewrite ?E1, ?E2, ?E3; assumption.
Qed.

Lemma safe_get_ireg i : safe inv (get_raw ireg i) word.
Proof using.
  unfold get_raw. eapply safe_bind.
  - apply (safe_gets _ _ (Forall (fun v => 0 <= v < 2 ^ xlen))). intros b ([] & _). assumption.
  - intros l Hl. destruct (if 0 <=? i then l !! Z.to_nat i else None) as [v |] eqn:E;
      [| apply safe_undefined].
    apply safe_ret. destruct (0 <=? i); [| discriminate].
    eapply (Forall_lookup_1 (fun v => 0 <= v < 2 ^ xlen)); eassumption.
Qed.

Lemma safe_get_freg i : safe inv (get_raw freg i) (fun v => 0 <= v < 2 ^ 64).
Proof using.
  unfold get_raw. eapply safe_bind.
  - apply (safe_gets _ _ (Forall (fun v => 0 <= v < 2 ^ 64))). intros b ([] & _). assumption.
  - intros l Hl. destruct (if 0 <=? i then l !! Z.to_nat i else None) as [v |] eqn:E;
      [| apply safe_undefined].
    apply safe_ret. destruct (0 <=? i); [| discriminate].
    eapply (Forall_lookup_1 (fun v => 0 <= v < 2 ^ 64)); eassumption.
Qed.

Lemma inv_put_ireg b i v :
  inv b -> (i = 0%nat -> v = 0) -> 0 <= v < 2 ^ xlen ->
  inv (set_ireg b (<[i := v]> (ireg b))).
Proof using Hxlen.
  intros ([] & H1 & H2) H0' Hv. split; [| auto]. split; simpl; try assumption.
  - rewrite length_insert. assumption.
  - apply Forall_insert; assumption.
  - destruct (decide (i = 0%nat)) as [-> |].
    + rewrite list_lookup_insert_eq by lia. rewrite H0' by reflexivity. reflexivity.
    + rewrite list_lookup_insert_ne by assumption. assumption.
Qed.

Lemma safe_put_ireg i v : (i = 0 -> v = 0) -> safe inv (put_ireg xlen i v) any.
Proof using H0 Hxlen.
  intros Hv. unfold put_ireg. eapply safe_bind; [apply (safe_gets _ _ any); auto |].
  intros l _. destruct (in_bounds l i) eqn:E; [| apply safe_undefined].
  apply safe_modify; [| exact Logic.I]. intros b Hb. apply inv_put_ireg; [assumption | |].
  - unfold in_bounds in E. bool_hyps. intros Hi. rewrite Hv by lia. reflexivity.
  - apply wrap_range, xlen_pos.
Qed.

Lemma safe_put_freg i v : 0 <= v < 2 ^ 64 -> safe inv (put_freg i v) any.
Proof using H0.
  intros Hv. unfold put_freg. eapply safe_bind; [apply (safe_gets _ _ any); auto |].
  intros l _. destruct (in_bounds l i) eqn:E; [| apply safe_undefined].
  apply safe_modify; [| exact Logic.I]. intros b ([] & H1 & H2).
  split; [| auto]. split; simpl; try assumption.
  - rewrite length_insert. assumption.
  - apply Forall_insert; assumption.
Qed.

Lemma safe_set_rd dec (e : M P Z) : safe inv e any -> safe inv (set_rd xlen dec e) any.
Proof using H0 Hxlen.
  intros He. unfold set_rd. destruct (Z.eqb_spec (d_rd dec) 0).
  - eapply (safe_bind _ _ _ (fun v => v = 0)); [apply safe_ret; reflexivity |].
    intros v ->. apply safe_put_ireg. auto.
  - eapply safe_bind; [exact He |]. intros v _. apply safe_put_ireg. lia.
Qed.

Lemma safe_x_val i : safe inv (x_val xlen i) any.
Proof using. unfold x_val. eapply safe_bind; [apply safe_get_ireg |]. intros. apply safe_ret; auto. Qed.
Lemma safe_xu_val i : safe inv (xu_val i) any.
Proof using. eapply safe_weaken; [apply safe_get_ireg | auto]. Qed.
Lemma safe_w_val i : safe inv (w_val i) any.
Proof using. unfold w_val. eapply safe_bind; [apply safe_get_ireg |]. intros. apply safe_ret; auto. Qed.
Lemma safe_wu_val i : safe inv (wu_val i) any.
Proof using. unfold wu_val. eapply safe_bind; [apply safe_get_ireg |]. intros. apply safe_ret; auto. Qed.
Lemma safe_l_val i : safe inv (l_val i) any.
Proof using. unfold l_val. eapply safe_bind; [apply safe_get_ireg |]. intros. apply safe_ret; auto. Qed.
Lemma safe_lu_val i : safe inv (lu_val i) any.
Proof using. unfold lu_val. eapply safe_bind; [apply safe_get_ireg |]. intros. apply safe_ret; auto. Qed.
Lemma safe_f_val T i : safe inv (f_val T i) any.
Proof using. unfold f_val. eapply safe_bind; [apply safe_get_freg |]. intros. apply safe_ret; auto. Qed.

Lemma safe_put_f T i v : safe inv (put_f T i v) any.
Proof using H0.
  unfold put_f. eapply safe_bind; [apply safe_get_freg |]. intros old Ho. cbv beta in Ho.
  apply safe_put_freg. destruct (float_width T =? 32); [| apply wrap_range; lia].
  replace (Z.lor _ _) with (wrap 64 (Z.lor (Z.shiftl (Z.shiftr old 32) 32) (u32 v))).
  - apply wrap_range. lia.
  - apply Z.bits_inj'. intros k Hk. rewrite wrap_spec by lia. destruct (Z.ltb_spec k 64); [reflexivity |].
    rewrite Z.lor_spec, Z.shiftl_spec, Z.shiftr_spec, wrap_spec by lia.
    destruct (Z.ltb_spec k 32); [lia |]. replace (k - 32 + 32) with k by lia. simpl.
    rewrite orb_false_r, <- (Z.mod_small old (2 ^ 64)) by lia.
    rewrite Z.mod_pow2_bits_high by lia. reflexivity.
Qed.

Lemma safe_shl w a n : safe (P := P) inv (shl w a n) any.
Proof using. unfold shl. destruct (_ && _); [apply safe_ret; auto | apply safe_undefined]. Qed.
Lemma safe_shr w a n : safe (P := P) inv (shr w a n) any.
Proof using. unfold shr. destruct (_ && _); [apply safe_ret; auto | apply safe_undefined]. Qed.

Lemma safe_gets_any {A} (f : proc -> A) : safe inv (gets f) any.
Proof using. apply safe_gets. auto. Qed.

Lemma safe_fenv f : safe inv (set_fenv f) any.
Proof using H0.
  apply safe_modify; [| auto]. intros b Hb. apply (inv_update b (fun b => set_env b _) Hb); try reflexivity.
  destruct Hb as [[] _]. assumption.
Qed.

Lemma safe_accrue {A} (r : A * Z) : safe inv (accrue r) any.
Proof using H0. unfold accrue. eapply safe_bind; [apply safe_fenv | intros; apply safe_ret; auto]. Qed.

Lemma safe_setrm rm : safe inv (fenv_setrm rm) any.
Proof using H0.
  unfold fenv_setrm. destruct (rm =? 7); [apply safe_ret; auto |].
  apply switch_ind; [apply safe_ret; auto |].
  repeat (apply Forall_cons; split; [intros _; apply safe_fenv |]). apply Forall_nil. exact Logic.I.
Qed.

Lemma safe_setrm_dyn : safe inv fenv_setrm_dyn any.
Proof using H0. unfold fenv_setrm_dyn. eapply safe_bind; [apply safe_gets_any | intros; apply safe_setrm]. Qed.

Lemma safe_or_fcsr v : 0 <= v < 2 ^ 32 -> safe inv (or_fcsr v) any.
Proof using H0.
  intros Hv. apply safe_modify; [| auto]. intros b Hb.
  apply (inv_update b (fun b => set_fcsr b _) Hb); try reflexivity.
  destruct Hb as [[_ _ _ _ _ _ Hf] _]. cbn [fcsr set_fcsr]. rewrite <- (wrap_small 32 (fcsr b)) by assumption.
  rewrite <- (wrap_small 32 v), <- wrap_lor by lia. apply wrap_range. lia.
Qed.

Lemma safe_set_lr v : safe inv (modify (fun b => set_lr b v)) any.
Proof using H0.
  apply safe_modify; [| auto]. intros b Hb. apply (inv_update b (fun b => set_lr b _) Hb); try reflexivity.
  destruct Hb as [[] _]. assumption.
Qed.

Lemma safe_load w va : safe inv (mmu_load w va) any.
Proof using MMULaws0.
  apply safe_preserves; [intros b b'; apply same_regs_step_inv |].
  intros p. pose proof (load_regs w va p) as L.
  destruct (mmu_load w va p); [split; [apply L | exact Logic.I] | exact L | exact Logic.I].
Qed.
Lemma safe_store w va v : safe inv (mmu_store w va v) any.
Proof using MMULaws0. apply safe_preserves; [intros b b'; apply same_regs_step_inv | apply store_regs]. Qed.
Lemma safe_store_f fp w va v : safe inv (mmu_store_f fp w va v) any.
Proof using MMULaws0.
  intros p Hp. pose proof (store_f_regs fp w va v p) as L.
  assert (Hk : forall p' : P, (exists e, same_regs (set_env (base p) e) (base p')) -> inv (base p')).
  { intros p' [e He]. refine (same_regs_step_inv _ _ _ _ _ He _). apply (inv_update (base p) (fun b => set_env b e) Hp); try reflexivity. destruct Hp as [[] _]. assumption. }
  destruct (mmu_store_f fp w va v p); [split; [apply Hk, L | exact Logic.I] | apply Hk, L | exact Logic.I].
Qed.
Lemma safe_amo w op va v : safe inv (mmu_amo w op va v) any.
Proof using MMULaws0.
  apply safe_preserves; [intros b b'; apply same_regs_step_inv |].
  intros p. pose proof (amo_regs w op va v p) as L.
  destruct (mmu_amo w op va v p); [split; [apply L | exact Logic.I] | exact L | exact Logic.I].
Qed.

(** ** The structure of a handler *)
Lemma safe_bind_any {A B} (m : M P A) (f : A -> M P B) Q :
  safe inv m any -> (forall a, safe inv (f a) Q) -> safe inv (bind m f) Q.
Proof using. intros Hm Hf. eapply safe_bind; [exact Hm |]. intros a _. apply Hf. Qed.

Lemma safe_ret_any {A} (a : A) : safe (P := P) inv (ret a) any.
Proof using. apply safe_ret. exact Logic.I. Qed.
End Step_inv.

Create HintDb safe.
#[export] Hint Resolve safe_ret_any safe_undefined safe_gets_any safe_x_val safe_xu_val safe_w_val
  safe_wu_val safe_l_val safe_lu_val safe_f_val safe_put_f safe_shl safe_shr safe_accrue
  safe_setrm_dyn safe_set_lr safe_load safe_store safe_store_f safe_amo safe_fenv : safe.

(** Walk a handler: one rule per construct, the operations by hints. *)
Ltac safe_step :=
  lazymatch goal with
  | |- safe _ (bind _ _) _ => apply safe_bind_any; [| intros ?]
  | |- safe _ (set_rd _ _ _) _ => apply safe_set_rd; [assumption |]
  | |- safe _ (or_fcsr _) _ => apply safe_or_fcsr; cbv; split; congruence
  | |- safe _ (if ?b then _ else _) _ => destruct b
  | |- safe _ (match ?b with left _ => _ | right _ => _ end) _ => destruct b
  | |- safe _ _ _ => solve [eauto 2 with safe]
  end.
Ltac safe_tac := repeat safe_step.

(** ** Every opcode

    The offset a handler returns is even; -1, the mark of an illegal
    instruction, is returned by the default case only. *)

(** The opcodes whose immediate is a branch offset; the decoder gives them
    even immediates. *)
Definition is_jump (op : rv_op) : bool :=
  match op with
  | rv_op_jal | rv_op_beq | rv_op_bne | rv_op_blt | rv_op_bge | rv_op_bltu | rv_op_bgeu => true
  | _ => false
  end.

Definition jump_even (dec : decode) : Prop := is_jump (d_op dec) = true -> Z.even (d_imm dec) = true.

Lemma wrap_even w z : 0 < w -> Z.even (wrap w z) = Z.even z.
Proof.
  intros Hw. rewrite <- !Z.negb_odd, <- !Z.bit0_odd, wrap_spec by lia.
  destruct (Z.ltb_spec 0 w); [reflexivity | lia].
Qed.

Section Exec_safe.
Context {P : Type} `{ProcessorLaws P} `{!MMU P} `{!MMULaws P}.
Context (fpu : host_fpu) (xlen : Z) (Hxlen : xlen = 32 \/ xlen = 64) (pc0 n0 : Z).
Context (F : isa) (dec : decode) (pc_offset : Z) (Hoff : 0 <= pc_offset < 2 ^ xlen /\ Z.even pc_offset = true)
  (Himm : jump_even dec).

Abbreviation inv := (step_inv xlen pc0 n0).
Abbreviation any := (fun _ => True).
Abbreviation offset := (fun v => 0 <= v < 2 ^ xlen /\ Z.even v = true).

Definition group_safe (g : option (M P Z)) : Prop :=
  match g with Some m => safe inv m offset | None => True end.

Lemma guarded_safe ext (m : M P unit) :
  safe inv m any -> group_safe (guarded pc_offset ext m).
Proof using Hoff.
  intros Hm. simpl. destruct ext; [| apply safe_ret; exact Hoff].
  apply safe_bind_any; [exact Hm |]. intros _. apply safe_ret. exact Hoff.
Qed.

Lemma guarded_jump_safe ext (m : M P Z) :
  safe inv m offset -> group_safe (guarded_jump pc_offset ext m).
Proof using Hoff. intros Hm. simpl. destruct ext; [exact Hm | apply safe_ret; exact Hoff]. Qed.

Lemma ux_offset z : Z.even z = true -> offset (wrap xlen z).
Proof using Hxlen. intros Hz. split; [apply wrap_range; lia | rewrite wrap_even; [exact Hz | lia]]. Qed.

Lemma branch_safe cond :
  is_jump (d_op dec) = true -> safe inv cond any ->
  safe inv (branch xlen dec pc_offset cond) offset.
Proof using Hxlen Hoff Himm.
  intros Hj Hc. apply safe_bind_any; [exact Hc |]. intros c. apply safe_ret.
  destruct c; [apply ux_offset, Himm, Hj | exact Hoff].
Qed.

Lemma load_rd_safe w conv : safe inv (load_rd xlen dec w conv) any.
Proof using H0 Hxlen MMULaws0. unfold load_rd, eff_addr. safe_tac. Qed.

Lemma fcvt_w_safe T f : safe inv (fcvt_w fpu T f) any.
Proof using H0. unfold fcvt_w, lt_m. safe_tac. Qed.
Lemma fcvt_wu_safe T f : safe inv (fcvt_wu fpu T f) any.
Proof using H0. unfold fcvt_wu, lt_m, le_m. safe_tac. Qed.
Lemma fcvt_l_safe T f : safe inv (fcvt_l fpu T f) any.
Proof using H0. unfold fcvt_l, lt_m. safe_tac. Qed.
Lemma fcvt_lu_safe T f : safe inv (fcvt_lu fpu T f) any.
Proof using H0. unfold fcvt_lu, lt_m, le_m, f_binop. safe_tac. Qed.

Lemma exec_lr_safe w conv : safe inv (exec_lr xlen dec w conv) any.
Proof using H0 Hxlen MMULaws0. unfold exec_lr, reg_addr. safe_tac. Qed.
Lemma exec_sc_safe w : safe inv (exec_sc xlen dec w) any.
Proof using H0 Hxlen MMULaws0. unfold exec_sc, reg_addr. safe_tac. Qed.
Lemma exec_amo_safe w conv op : safe inv (exec_amo xlen dec w conv op) any.
Proof using H0 Hxlen MMULaws0. unfold exec_amo, reg_addr. safe_tac. Qed.

Hint Resolve load_rd_safe fcvt_w_safe fcvt_wu_safe fcvt_l_safe fcvt_lu_safe exec_lr_safe
  exec_sc_safe exec_amo_safe : safe.

(** One opcode of a group: the body is a guarded handler. *)
Ltac group_tac :=
  cbv [exec_rvi_mem exec_rvi_imm exec_rvi_reg exec_rvm exec_rva_w exec_rvf exec_rvd exec_rv64_mem
       exec_rv64_word exec_rv64_mword exec_rva_d exec_rvf_long exec_rvd_long];
  destruct (d_op dec); try exact Logic.I; apply guarded_safe;
  unfold eff_addr, f_binop, f_sqrt_m, f_of_int_m, f_cvt_m, lt_m, le_m, eq_m; safe_tac.

Lemma exec_rvi_jump_safe : group_safe (exec_rvi_jump xlen F dec pc_offset).
Proof using H0 Hxlen Hoff Himm.
  unfold exec_rvi_jump.
  destruct (d_op dec) eqn:E; try exact Logic.I;
    lazymatch goal with
    | |- group_safe (guarded _ _ _) => apply guarded_safe; safe_tac
    | |- group_safe (guarded_jump _ _ (branch _ _ _ _)) =>
        apply guarded_jump_safe, branch_safe; [rewrite E; reflexivity | safe_tac]
    | |- _ => apply guarded_jump_safe
    end.
  - apply safe_bind_any; [safe_tac |]. intros _. apply safe_ret, ux_offset, Himm.
    rewrite E. reflexivity.
  - do 2 (apply safe_bind_any; [safe_tac |]; intros ?). apply safe_bind_any; [safe_tac |].
    intros _. apply safe_ret. cbv beta.
    rewrite <- (wrap_land xlen) by lia. apply ux_offset.
    rewrite <- Z.negb_odd, <- Z.bit0_odd, Z.land_spec. apply negb_true_iff, andb_false_r.
Qed.
Lemma exec_rvi_mem_safe : group_safe (exec_rvi_mem xlen F dec pc_offset).
Proof using H0 Hxlen Hoff MMULaws0. group_tac. Qed.
Lemma exec_rvi_imm_safe : group_safe (exec_rvi_imm xlen F dec pc_offset).
Proof using H0 Hxlen Hoff. group_tac. Qed.
Lemma exec_rvi_reg_safe : group_safe (exec_rvi_reg xlen F dec pc_offset).
Proof using H0 Hxlen Hoff. group_tac. Qed.
Lemma exec_rvm_safe : group_safe (exec_rvm xlen F dec pc_offset).
Proof using H0 Hxlen Hoff. group_tac. Qed.
Lemma exec_rva_w_safe : group_safe (exec_rva_w xlen F dec pc_offset).
Proof using H0 Hxlen Hoff MMULaws0. group_tac. Qed.
Lemma exec_rvf_safe : group_safe (exec_rvf fpu xlen F dec pc_offset).
Proof using H0 Hxlen Hoff MMULaws0. group_tac. Qed.
Lemma exec_rvd_safe : group_safe (exec_rvd fpu xlen F dec pc_offset).
Proof using H0 Hxlen Hoff MMULaws0. group_tac. Qed.
Lemma exec_rv64_mem_safe : group_safe (exec_rv64_mem xlen F dec pc_offset).
Proof using H0 Hxlen Hoff MMULaws0. group_tac. Qed.
Lemma exec_rv64_word_safe : group_safe (exec_rv64_word xlen F dec pc_offset).
Proof using H0 Hxlen Hoff. group_tac. Qed.
Lemma exec_rv64_mword_safe : group_safe (exec_rv64_mword xlen F dec pc_offset).
Proof using H0 Hxlen Hoff. group_tac. Qed.
Lemma exec_rva_d_safe : group_safe (exec_rva_d xlen F dec pc_offset).
Proof using H0 Hxlen Hoff MMULaws0. group_tac. Qed.
Lemma exec_rvf_long_safe : group_safe (exec_rvf_long fpu xlen F dec pc_offset).
Proof using H0 Hxlen Hoff. group_tac. Qed.
Lemma exec_rvd_long_safe : group_safe (exec_rvd_long fpu xlen F dec pc_offset).
Proof using H0 Hxlen Hoff. group_tac. Qed.

Lemma dispatch_safe groups :
  Forall group_safe groups ->
  safe inv (dispatch xlen groups)
    (fun v => offset v \/ (v = wrap xlen (-1) /\ Forall (fun g => g = None) groups)).
Proof using Hxlen.
  induction 1 as [| [m |] groups Hg _ IH]; simpl.
  - apply safe_ret. right. split; [reflexivity | apply Forall_nil; exact Logic.I].
  - eapply safe_weaken; [exact Hg | auto].
  - eapply safe_weaken; [exact IH |]. intros v [Hv | [Hv Hn]]; [auto |].
    right. split; [assumption | constructor; auto].
Qed.

Lemma exec_common_safe : Forall group_safe (exec_common fpu xlen F dec pc_offset).
Proof using H0 Hxlen Hoff Himm MMULaws0.
  unfold exec_common. repeat (apply Forall_cons; split); [.. | apply Forall_nil; exact Logic.I];
    auto using exec_rvi_jump_safe, exec_rvi_mem_safe, exec_rvi_imm_safe, exec_rvi_reg_safe,
      exec_rvm_safe, exec_rva_w_safe, exec_rvf_safe, exec_rvd_safe.
Qed.

Lemma exec_rv64_safe : Forall group_safe (exec_inst_rv64_groups fpu xlen F dec pc_offset).
Proof using H0 Hxlen Hoff Himm MMULaws0.
  unfold exec_inst_rv64_groups. apply Forall_app. split; [apply exec_common_safe |].
  repeat (apply Forall_cons; split); [.. | apply Forall_nil; exact Logic.I];
    auto using exec_rv64_mem_safe, exec_rv64_word_safe, exec_rv64_mword_safe, exec_rva_d_safe,
      exec_rvf_long_safe, exec_rvd_long_safe.
Qed.
End Exec_safe.

(** ** The decoder gives even branch offsets *)
Definition even_operand (s : source) : bool :=
  match s with
  | Bits o 0 => 1 <=? operand_align o
  | Bits _ _ => false
  | Fixed v => Z.even v
  end.

Lemma jump_operand_even op :
  is_jump op || is_jump (rv_inst_decomp_rv64 op) || is_jump (rv_inst_decomp_rv32 op) = true ->
  even_operand (field_source (codec_layout (rv_inst_codec op)) F_imm) = true.
Proof. destruct op; vm_compute; intros H; first [reflexivity | discriminate H]. Qed.

Lemma even_mod_pow2 z k : 1 <= k -> z mod 2 ^ k = 0 -> Z.even z = true.
Proof.
  intros Hk Hz. apply Z.mod_divide in Hz as [q ->]; [| apply Z.pow_nonzero; lia].
  replace k with (1 + (k - 1)) by lia. rewrite Z.pow_add_r, Z.even_mul, Z.even_mul by lia.
  rewrite orb_true_r. reflexivity.
Qed.

Lemma decompress_imm op d : d_imm (decompress op d) = d_imm d.
Proof. unfold decompress. destruct (decide _); reflexivity. Qed.

Lemma decompress_op op d :
  d_op (decompress op d) = if decide (op = rv_op_illegal) then d_op d else op.
Proof. unfold decompress. destruct (decide _); reflexivity. Qed.

Lemma decode_inst_imm F inst :
  d_imm (decode_inst F decode_init inst) =
  match field_source (codec_layout (rv_inst_codec (decode_inst_op F inst))) F_imm with
  | Bits o b => operand_decode o inst + b
  | Fixed v => v
  end.
Proof. apply (decode_operands_field _ F_imm). intros []; reflexivity. Qed.

Lemma even_imm F inst :
  even_operand (field_source (codec_layout (rv_inst_codec (decode_inst_op F inst))) F_imm) = true ->
  Z.even (d_imm (decode_inst F decode_init inst)) = true.
Proof.
  rewrite decode_inst_imm. destruct (field_source _ F_imm) as [o b | v] eqn:E; [| trivial].
  destruct b; try discriminate. simpl. intros Ha. bool_hyps. rewrite Z.add_0_r.
  destruct (layout_slot _ F_imm o 0 (source_slot _ _ _ _ E)) as (Ho & _).
  apply (even_mod_pow2 _ (operand_align o)); [assumption |].
  apply operand_valid_spec, operand_decode_valid; assumption.
Qed.

(** What the RV64 and RV32 decoders return has even branch offsets. *)
Lemma decode_rv64_jump_even inst : jump_even (decode_inst_rv64 decode_init inst).
Proof.
  unfold jump_even, decode_inst_rv64, decompress_inst_rv64.
  rewrite decompress_op, decompress_imm, (proj1 (decode_inst_fields isa_rv64 inst)).
  intros H. apply even_imm, jump_operand_even. destruct (decide _); rewrite H; simpl;
    rewrite ?orb_true_r; reflexivity.
Qed.

Lemma decode_rv32_jump_even inst : jump_even (decode_inst_rv32 decode_init inst).
Proof.
  unfold jump_even, decode_inst_rv32, decompress_inst_rv32.
  rewrite decompress_op, decompress_imm, (proj1 (decode_inst_fields isa_rv32 inst)).
  intros H. apply even_imm, jump_operand_even. destruct (decide _); rewrite H; simpl;
    rewrite ?orb_true_r; reflexivity.
Qed.
