(* ===== verification/ExecSpec.v ===== *)
(** * ExecSpec: the integer instructions against the RISC-V specification.

    [rtype_spec] gives the result of a register-register instruction as a
    function of the two source registers (unsigned words), in the terms of the
    ISA manual; an immediate instruction is the register form applied to the
    sign-extended immediate.  The interpreter is shown to compute it. *)

From Stdlib Require Import ZArith Lia Bool List.
From stdpp Require Import base numbers list.
From S2P Require Import Prelude Operand Meta Decode Codec Alu Machine Fpu Interp InterpSound.

(** ** Specification *)

(** The sign extension of a 32-bit result to 64 bits. *)
Definition sext32 (z : Z) : Z := wrap 64 (swrap 32 z).

Section Spec.
Context (xlen : Z).
Abbreviation S := (swrap xlen).
Abbreviation U := (wrap xlen).

Definition rtype_spec (op : rv_op) : option (Z -> Z -> Z) :=
  match op with
  | rv_op_add => Some (fun a b => U (a + b))
  | rv_op_sub => Some (fun a b => U (a - b))
  | rv_op_sll => Some (fun a b => U (a * 2 ^ (b mod xlen)))
  | rv_op_srl => Some (fun a b => a / 2 ^ (b mod xlen))
  | rv_op_sra => Some (fun a b => U (S a / 2 ^ (b mod xlen)))
  | rv_op_slt => Some (fun a b => if S a <? S b then 1 else 0)
  | rv_op_sltu => Some (fun a b => if a <? b then 1 else 0)
  | rv_op_xor => Some Z.lxor
  | rv_op_or => Some Z.lor
  | rv_op_and => Some Z.land
  | rv_op_mul => Some (fun a b => U (a * b))
  | rv_op_mulh => Some (fun a b => U (S a * S b / 2 ^ xlen))
  | rv_op_mulhsu => Some (fun a b => U (S a * b / 2 ^ xlen))
  | rv_op_mulhu => Some (fun a b => a * b / 2 ^ xlen)
  | rv_op_div => Some (fun a b => if b =? 0 then 2 ^ xlen - 1 else U (Z.quot (S a) (S b)))
  | rv_op_divu => Some (fun a b => if b =? 0 then 2 ^ xlen - 1 else a / b)
  | rv_op_rem => Some (fun a b => if b =? 0 then a else U (Z.rem (S a) (S b)))
  | rv_op_remu => Some (fun a b => if b =? 0 then a else a mod b)
  | _ => None
  end.

(** The extension an opcode belongs to. *)
Definition op_ext (F : isa) (op : rv_op) : bool :=
  match op with
  | rv_op_mul | rv_op_mulh | rv_op_mulhsu | rv_op_mulhu | rv_op_div | rv_op_divu
  | rv_op_rem | rv_op_remu | rv_op_mulw | rv_op_divw | rv_op_divuw | rv_op_remw
  | rv_op_remuw => rvm F
  | _ => rvi F
  end.

(** The count of a register shift is masked with seven bits; the model is
    defined when it is below [xlen]. *)
Definition shift_ok (op : rv_op) (b : Z) : Prop :=
  match op with
  | rv_op_sll | rv_op_srl | rv_op_sra => b mod 128 < xlen
  | _ => True
  end.
End Spec.

(** The RV64 word instructions. *)
Definition rtype_word_spec (op : rv_op) : option (Z -> Z -> Z) :=
  match op with
  | rv_op_addw => Some (fun a b => sext32 (a + b))
  | rv_op_subw => Some (fun a b => sext32 (a - b))
  | rv_op_sllw => Some (fun a b => sext32 (a * 2 ^ (b mod 32)))
  | rv_op_srlw => Some (fun a b => sext32 (u32 a / 2 ^ (b mod 32)))
  | rv_op_sraw => Some (fun a b => sext32 (s32 a / 2 ^ (b mod 32)))
  | rv_op_mulw => Some (fun a b => sext32 (a * b))
  | rv_op_divw => Some (fun a b =>
      if u32 b =? 0 then 2 ^ 64 - 1 else sext32 (Z.quot (s32 a) (s32 b)))
  | rv_op_divuw => Some (fun a b => if u32 b =? 0 then 2 ^ 64 - 1 else sext32 (u32 a / u32 b))
  | rv_op_remw => Some (fun a b => if u32 b =? 0 then sext32 a else sext32 (Z.rem (s32 a) (s32 b)))
  | rv_op_remuw => Some (fun a b => if u32 b =? 0 then sext32 a else sext32 (u32 a mod u32 b))
  | _ => None
  end.

(** ** Arithmetic *)
Section Arith.
Context (xlen : Z) (Hxlen : xlen = 32 \/ xlen = 64).
Abbreviation S := (swrap xlen).
Abbreviation U := (wrap xlen).

Lemma xlen_facts : 2 <= xlen /\ xlen = 2 * (xlen / 2) /\ 0 < xlen.
Proof using Hxlen. destruct Hxlen as [-> | ->]; cbv; repeat split; congruence. Qed.

Lemma U_add a b : U (S (S a + S b)) = U (a + b).
Proof using. rewrite wrap_swrap, <- wrap_add_l, <- wrap_add_r, !wrap_swrap, wrap_add_l, wrap_add_r. reflexivity. Qed.
Lemma U_sub a b : U (S (S a - S b)) = U (a - b).
Proof using. rewrite wrap_swrap, <- wrap_sub_l, <- wrap_sub_r, !wrap_swrap, wrap_sub_l, wrap_sub_r. reflexivity. Qed.
Lemma U_mul a b : U (S (S a * S b)) = U (a * b).
Proof using. rewrite wrap_swrap, <- wrap_mul_l, <- wrap_mul_r, !wrap_swrap, wrap_mul_l, wrap_mul_r. reflexivity. Qed.

Lemma S_range a : - 2 ^ (xlen - 1) <= S a < 2 ^ (xlen - 1).
Proof using Hxlen. apply swrap_range, xlen_facts. Qed.

(** A value of the signed type, stored and read as a word. *)
Lemma U_small z : 0 <= z < 2 ^ xlen -> U z = z.
Proof using. apply wrap_small. Qed.

Lemma U_minus_1 : U (-1) = 2 ^ xlen - 1.
Proof using Hxlen. destruct Hxlen as [-> | ->]; reflexivity. Qed.

Lemma U_INT_MIN : U (INT_MIN xlen) = 2 ^ (xlen - 1).
Proof using Hxlen. destruct Hxlen as [-> | ->]; reflexivity. Qed.

Lemma S_zero b : 0 <= b < 2 ^ xlen -> (S b =? 0) = (b =? 0).
Proof using Hxlen.
  intros Hb. pose proof (wrap_swrap xlen b) as E. rewrite (U_small b Hb) in E.
  destruct (Z.eqb_spec (S b) 0) as [E1 | E1], (Z.eqb_spec b 0) as [E2 | E2]; try reflexivity.
  - rewrite E1 in E. change (U 0) with (0 mod 2 ^ xlen) in E.
    rewrite Z.mod_0_l in E; destruct Hxlen; subst; lia.
  - subst b. destruct Hxlen; subst; vm_compute in E1; congruence.
Qed.

(** The overflow case of the division is what the exact quotient wraps to. *)
Lemma U_div a b :
  0 <= b < 2 ^ xlen ->
  U (if (S a =? INT_MIN xlen) && (S b =? -1) then INT_MIN xlen
     else if S b =? 0 then -1 else Z.quot (S a) (S b)) =
  if b =? 0 then 2 ^ xlen - 1 else U (Z.quot (S a) (S b)).
Proof using Hxlen.
  intros Hb. rewrite (S_zero b Hb).
  destruct (Z.eqb_spec (S a) (INT_MIN xlen)) as [Ea |], (Z.eqb_spec (S b) (-1)) as [Eb |]; simpl;
    try (destruct (b =? 0); [apply U_minus_1 | reflexivity]).
  rewrite <- (S_zero b Hb), Ea, Eb. simpl. destruct Hxlen; subst; reflexivity.
Qed.

Lemma U_rem a b :
  0 <= a < 2 ^ xlen -> 0 <= b < 2 ^ xlen ->
  U (if (S a =? INT_MIN xlen) && (S b =? -1) then 0
     else if S b =? 0 then S a else Z.rem (S a) (S b)) =
  if b =? 0 then a else U (Z.rem (S a) (S b)).
Proof using Hxlen.
  intros Ha Hb. rewrite (S_zero b Hb).
  destruct (Z.eqb_spec (S a) (INT_MIN xlen)) as [Ea |], (Z.eqb_spec (S b) (-1)) as [Eb |]; simpl;
    try (destruct (b =? 0); [rewrite wrap_swrap; apply U_small; assumption | reflexivity]).
  rewrite <- (S_zero b Hb), Ea, Eb. simpl. destruct Hxlen; subst; reflexivity.
Qed.

Lemma U_divu a b :
  0 <= a < 2 ^ xlen -> 0 <= b < 2 ^ xlen ->
  U (if b =? 0 then -1 else S (Z.quot a b)) = if b =? 0 then 2 ^ xlen - 1 else a / b.
Proof using Hxlen.
  intros Ha Hb. destruct (Z.eqb_spec b 0); [apply U_minus_1 |].
  rewrite wrap_swrap, Z.quot_div_nonneg by lia. apply U_small.
  split; [apply Z.div_pos; lia | apply Z.div_lt_upper_bound; nia].
Qed.

Lemma U_remu a b :
  0 <= a < 2 ^ xlen -> 0 <= b < 2 ^ xlen ->
  U (if b =? 0 then S a else S (Z.rem a b)) = if b =? 0 then a else a mod b.
Proof using Hxlen.
  intros Ha Hb. destruct (Z.eqb_spec b 0); rewrite wrap_swrap; [apply U_small; assumption |].
  rewrite Z.rem_mod_nonneg by lia. apply U_small.
  pose proof (Z.mod_pos_bound a b ltac:(lia)). lia.
Qed.

(** Seven bits of the count, when they are below [xlen], are the count
    modulo [xlen]. *)
Lemma count_mod b : b mod 128 < xlen -> Z.land (S b) 0x7f = b mod xlen.
Proof using Hxlen.
  intros Hb. change 0x7f with (Z.ones 7). rewrite <- wrap_land_ones by lia.
  assert (E : wrap 7 (S b) = b mod 128).
  { rewrite <- (wrap_narrow 7 xlen) by (destruct Hxlen; subst; lia).
    rewrite wrap_swrap, wrap_narrow by (destruct Hxlen; subst; lia). reflexivity. }
  rewrite E. pose proof (Z.mod_pos_bound b 128 ltac:(lia)).
  rewrite <- (Z.mod_mod_divide b 128 xlen); [symmetry; apply Z.mod_small; lia |].
  destruct Hxlen; subst; [exists 4 | exists 2]; reflexivity.
Qed.

Lemma count_range b : 0 <= b mod xlen < xlen.
Proof using Hxlen. apply Z.mod_pos_bound. destruct Hxlen; lia. Qed.

Lemma b2z_word c : U (b2z c) = if c : bool then 1 else 0.
Proof using Hxlen. destruct Hxlen as [-> | ->], c; reflexivity. Qed.

Lemma div_pow_word c n : 0 <= c < 2 ^ xlen -> 0 <= n -> U (c / 2 ^ n) = c / 2 ^ n.
Proof using Hxlen.
  intros Hc Hn. apply wrap_small. pose proof (Z.pow_pos_nonneg 2 n ltac:(lia) Hn).
  split; [apply Z.div_pos; lia | apply Z.div_lt_upper_bound; nia].
Qed.

Lemma imm_count i w : 0 <= i < w -> w <= 64 -> w <= xlen -> wrap xlen i mod w = i.
Proof using Hxlen.
  intros Hi Hw Hx. assert (64 < 2 ^ xlen) by (destruct Hxlen; subst; reflexivity).
  rewrite wrap_small by lia. apply Z.mod_small. assumption.
Qed.
End Arith.

(** ** Running a handler *)
Section Run.
Context {P : Type} `{ProcessorLaws P}.

Lemma get_raw_run (file : proc -> list Z) i v p :
  0 <= i -> file (base p) !! Z.to_nat i = Some v -> get_raw file i p = Ok v p.
Proof using.
  intros Hi Hl. unfold get_raw, bind, gets. destruct (Z.leb_spec 0 i); [| lia].
  rewrite Hl. reflexivity.
Qed.

Definition write_rd (xlen rd v : Z) (p : P) : P :=
  set_base (set_ireg (base p) (<[Z.to_nat rd := wrap xlen v]> (ireg (base p)))) p.

Lemma put_ireg_run xlen i v p :
  0 <= i < Z.of_nat (length (ireg (base p))) -> put_ireg xlen i v p = Ok tt (write_rd xlen i v p).
Proof using.
  intros Hi. unfold put_ireg, bind, gets, in_bounds.
  destruct (Z.leb_spec 0 i), (Z.ltb_spec i (Z.of_nat (length (ireg (base p))))); simpl; try lia.
  reflexivity.
Qed.

(** [rd] gets the value of the expression, when it is not [x0]. *)
Lemma set_rd_run xlen dec (e : M P Z) v p :
  0 < d_rd dec < Z.of_nat (length (ireg (base p))) -> e p = Ok v p ->
  set_rd xlen dec e p = Ok tt (write_rd xlen (d_rd dec) v p).
Proof using.
  intros Hrd He. unfold set_rd, bind. destruct (Z.eqb_spec (d_rd dec) 0); [lia |].
  rewrite He. apply put_ireg_run. lia.
Qed.

Lemma guarded_run off (ext : bool) (m : M P unit) p p' :
  ext = true -> m p = Ok tt p' ->
  match guarded off ext m with Some b => b p | None => Undefined end = Ok off p'.
Proof using. intros -> Hm. simpl. unfold bind. rewrite Hm. reflexivity. Qed.

(** The values read by an instruction: [a] from [rs1] and [b] from [rs2]. *)
Record reads1 (xlen : Z) (dec : decode) (p : P) (a : Z) : Prop := {
  rd_ok : 0 < d_rd dec < Z.of_nat (length (ireg (base p)));
  rs1_ok : 0 <= d_rs1 dec;
  rs1_val : ireg (base p) !! Z.to_nat (d_rs1 dec) = Some a;
  a_word : 0 <= a < 2 ^ xlen }.

Record reads (xlen : Z) (dec : decode) (p : P) (a b : Z) : Prop := {
  reads_rs1 : reads1 xlen dec p a;
  rs2_ok : 0 <= d_rs2 dec;
  rs2_val : ireg (base p) !! Z.to_nat (d_rs2 dec) = Some b;
  b_word : 0 <= b < 2 ^ xlen }.
End Run.

(** ** The interpreter computes the specification *)
Section Itype_reads.
Context {P : Type} `{ProcessorLaws P} `{!MMU P}.
Context (xlen : Z) (dec : decode) (pc_offset : Z) (p : P) (a : Z).
Hypothesis R : reads1 xlen dec p a.

Lemma xu1 : xu_val (d_rs1 dec) p = Ok a p.
Proof using R. apply get_raw_run; apply R. Qed.
Lemma x1 : x_val xlen (d_rs1 dec) p = Ok (swrap xlen a) p.
Proof using R. unfold x_val, bind. rewrite (get_raw_run ireg _ a); [reflexivity | apply R..]. Qed.
Lemma w1 : w_val (d_rs1 dec) p = Ok (s32 a) p.
Proof using R. unfold w_val, bind. rewrite (get_raw_run ireg _ a); [reflexivity | apply R..]. Qed.
Lemma wu1 : wu_val (d_rs1 dec) p = Ok (u32 a) p.
Proof using R. unfold wu_val, bind. rewrite (get_raw_run ireg _ a); [reflexivity | apply R..]. Qed.

(** A guarded assignment to [rd] of an expression that evaluates to [v]. *)
Lemma set_rd_case (ext : bool) (e : M P Z) v r :
  ext = true -> e p = Ok v p -> wrap xlen v = r ->
  (if ext then (set_rd xlen dec e ;; ret pc_offset) else ret pc_offset) p =
  Ok pc_offset (write_rd xlen (d_rd dec) r p).
Proof using R.
  intros -> He <-. unfold bind at 1. rewrite (set_rd_run xlen dec e v p) by (assumption || apply R).
  unfold ret, write_rd. rewrite wrap_wrap. reflexivity.
Qed.

Lemma shl_run w c n : 0 <= n < w -> shl (P := P) w c n p = Ok (wrap w (c * 2 ^ n)) p.
Proof using.
  intros Hn. unfold shl. destruct (Z.leb_spec 0 n), (Z.ltb_spec n w); simpl; try lia.
  rewrite Z.shiftl_mul_pow2 by lia. reflexivity.
Qed.
Lemma shr_run w c n : 0 <= n < w -> shr (P := P) w c n p = Ok (c / 2 ^ n) p.
Proof using.
  intros Hn. unfold shr. destruct (Z.leb_spec 0 n), (Z.ltb_spec n w); simpl; try lia.
  rewrite Z.shiftr_div_pow2 by lia. reflexivity.
Qed.
End Itype_reads.

Section Rtype.
Context {P : Type} `{ProcessorLaws P} `{!MMU P}.
Context (fpu : host_fpu) (xlen : Z) (Hxlen : xlen = 32 \/ xlen = 64) (F : isa).
Context (dec : decode) (pc_offset : Z) (p : P) (a b : Z).
Hypothesis R : reads xlen dec p a b.

Lemma xu2 : xu_val (d_rs2 dec) p = Ok b p.
Proof using R. apply get_raw_run; apply R. Qed.
Lemma x2 : x_val xlen (d_rs2 dec) p = Ok (swrap xlen b) p.
Proof using R. unfold x_val, bind. rewrite (get_raw_run ireg _ b); [reflexivity | apply R..]. Qed.
Lemma w2 : w_val (d_rs2 dec) p = Ok (s32 b) p.
Proof using R. unfold w_val, bind. rewrite (get_raw_run ireg _ b); [reflexivity | apply R..]. Qed.
Lemma wu2 : wu_val (d_rs2 dec) p = Ok (u32 b) p.
Proof using R. unfold wu_val, bind. rewrite (get_raw_run ireg _ b); [reflexivity | apply R..]. Qed.

Lemma exec_common_rtype rest f :
  rtype_spec xlen (d_op dec) = Some f -> op_ext F (d_op dec) = true ->
  shift_ok xlen (d_op dec) b ->
  dispatch xlen (exec_common fpu xlen F dec pc_offset ++ rest) p =
  Ok pc_offset (write_rd xlen (d_rd dec) (f a b) p).
Proof using R Hxlen.
  pose proof (xlen_facts xlen Hxlen) as (X1 & X2 & X3). pose proof (reads_rs1 _ _ _ _ _ R) as R1.
  pose proof (a_word _ _ _ _ R1) as Ha.
  pose proof (b_word _ _ _ _ _ R) as Hb. pose proof (S_range xlen Hxlen) as HS.
  intros Hf Hext Hsh. destruct (d_op dec) eqn:E; try discriminate Hf; injection Hf as <-;
    cbn [op_ext] in Hext; cbn [shift_ok] in Hsh;
    cbv [exec_common app exec_rvi_jump exec_rvi_mem exec_rvi_imm exec_rvi_reg exec_rvm];
    rewrite E; cbn [dispatch guarded];
    (eapply (set_rd_case _ _ _ _ _ R1);
      [exact Hext
      | unfold bind; repeat (rewrite ?(x1 _ _ _ _ R1), ?x2, ?(xu1 _ _ _ _ R1), ?xu2; cbv beta iota);
        rewrite ?(count_mod xlen Hxlen b Hsh);
        first [reflexivity | apply shl_run, count_range, Hxlen | apply shr_run, count_range, Hxlen]
      |]).
  - apply U_add.
  - apply U_sub.
  - apply wrap_wrap.
  - apply b2z_word, Hxlen.
  - apply b2z_word, Hxlen.
  - rewrite wrap_lxor, !wrap_small by assumption. reflexivity.
  - apply div_pow_word; [assumption.. |]. apply count_range, Hxlen.
  - reflexivity.
  - rewrite wrap_lor, !wrap_small by assumption. reflexivity.
  - rewrite wrap_land, !wrap_small by assumption. reflexivity.
  - apply U_mul.
  - rewrite mulh_spec by auto. reflexivity.
  - rewrite mulhsu_spec by auto. reflexivity.
  - rewrite mulhu_spec by auto. apply wrap_small. pose proof (mul_bound a b (2 ^ xlen) Ha Hb).
    split; [apply Z.div_pos; lia | apply Z.div_lt_upper_bound; lia].
  - apply U_div; assumption.
  - apply U_divu; assumption.
  - apply U_rem; assumption.
  - apply U_remu; assumption.
Qed.
End Rtype.

(** ** The word instructions *)
Section Word_arith.
Context (a b : Z).

Lemma sext32_eq x y : u32 x = u32 y -> wrap 64 (s32 x) = sext32 y.
Proof using. intros E. unfold sext32. f_equal. apply swrap_eq. exact E. Qed.

Lemma u32_add : u32 (s32 a + s32 b) = u32 (a + b).
Proof using. rewrite <- wrap_add_l, <- wrap_add_r, !wrap_swrap, wrap_add_l, wrap_add_r. reflexivity. Qed.
Lemma u32_sub : u32 (s32 a - s32 b) = u32 (a - b).
Proof using. rewrite <- wrap_sub_l, <- wrap_sub_r, !wrap_swrap, wrap_sub_l, wrap_sub_r. reflexivity. Qed.

Lemma count_mod5 : Z.land (s64 b) 0x1f = b mod 32.
Proof using.
  change 0x1f with (Z.ones 5). rewrite <- wrap_land_ones by lia.
  rewrite <- (wrap_narrow 5 64), wrap_swrap, wrap_narrow by lia. reflexivity.
Qed.

Lemma s32_zero : (s32 b =? 0) = (u32 b =? 0).
Proof using. rewrite <- swrap_wrap. apply (S_zero 32); [auto |]. apply wrap_range. lia. Qed.

Lemma word_div :
  wrap 64 (if (s32 a =? INT_MIN 32) && (s32 b =? -1) then INT_MIN 32
           else if s32 b =? 0 then -1 else Z.quot (s32 a) (s32 b)) =
  if u32 b =? 0 then 2 ^ 64 - 1 else sext32 (Z.quot (s32 a) (s32 b)).
Proof using.
  rewrite <- s32_zero. pose proof (swrap_range 32 ltac:(lia) a) as Ra.
  destruct (Z.eqb_spec (s32 a) (INT_MIN 32)) as [Ea | Ea], (Z.eqb_spec (s32 b) (-1)) as [Eb | Eb];
    simpl; try (rewrite Ea, Eb; reflexivity);
    (destruct (Z.eqb_spec (s32 b) 0) as [E0 | E0]; [reflexivity |]);
    unfold sext32; rewrite (swrap_small 32 ltac:(lia) (Z.quot _ _)) by
      (lia || (apply (quot_range 32); [lia | assumption | assumption | unfold INT_MIN in *; lia]));
    reflexivity.
Qed.

Lemma word_rem :
  wrap 64 (if (s32 a =? INT_MIN 32) && (s32 b =? -1) then 0
           else if s32 b =? 0 then s32 a else Z.rem (s32 a) (s32 b)) =
  if u32 b =? 0 then sext32 a else sext32 (Z.rem (s32 a) (s32 b)).
Proof using.
  rewrite <- s32_zero. pose proof (swrap_range 32 ltac:(lia) b) as Rb.
  destruct (Z.eqb_spec (s32 a) (INT_MIN 32)) as [Ea | Ea], (Z.eqb_spec (s32 b) (-1)) as [Eb | Eb];
    simpl; try (rewrite Ea, Eb; reflexivity);
    (destruct (Z.eqb_spec (s32 b) 0) as [E0 | E0]; [reflexivity |]);
    unfold sext32; rewrite (swrap_small 32 ltac:(lia) (Z.rem _ _)) by
      (lia || (apply (rem_range 32); [lia | assumption | assumption]));
    reflexivity.
Qed.

Lemma word_divu :
  wrap 64 (if u32 b =? 0 then -1 else s32 (Z.quot (u32 a) (u32 b))) =
  if u32 b =? 0 then 2 ^ 64 - 1 else sext32 (u32 a / u32 b).
Proof using.
  pose proof (wrap_range 32 ltac:(lia) a). pose proof (wrap_range 32 ltac:(lia) b).
  destruct (Z.eqb_spec (u32 b) 0); [reflexivity |].
  rewrite Z.quot_div_nonneg by lia. reflexivity.
Qed.

Lemma word_remu :
  wrap 64 (if u32 b =? 0 then s32 (u32 a) else s32 (Z.rem (u32 a) (u32 b))) =
  if u32 b =? 0 then sext32 a else sext32 (u32 a mod u32 b).
Proof using.
  pose proof (wrap_range 32 ltac:(lia) a). pose proof (wrap_range 32 ltac:(lia) b).
  destruct (Z.eqb_spec (u32 b) 0); [rewrite swrap_wrap; reflexivity |].
  rewrite Z.rem_mod_nonneg by lia. reflexivity.
Qed.
End Word_arith.

Section Word.
Context {P : Type} `{ProcessorLaws P} `{!MMU P}.
Context (fpu : host_fpu) (F : isa).
Context (dec : decode) (pc_offset : Z) (p : P) (a b : Z).
Hypothesis R : reads 64 dec p a b.

Lemma exec_word_rtype f :
  rtype_word_spec (d_op dec) = Some f -> op_ext F (d_op dec) = true ->
  exec_inst_rv64 fpu F dec pc_offset p = Ok pc_offset (write_rd 64 (d_rd dec) (f a b) p).
Proof using R.
  pose proof (reads_rs1 _ _ _ _ _ R) as R1. pose proof (Z.mod_pos_bound b 32 ltac:(lia)) as Hc.
  intros Hf Hext. destruct (d_op dec) eqn:E; try discriminate Hf; injection Hf as <-;
    cbn [op_ext] in Hext; unfold exec_inst_rv64, exec_inst_rv64_groups;
    cbv [exec_common app exec_rvi_jump exec_rvi_mem exec_rvi_imm exec_rvi_reg exec_rvm exec_rva_w
         exec_rvf exec_rvd exec_rv64_mem exec_rv64_word exec_rv64_mword];
    rewrite E; cbn [dispatch guarded];
    (eapply (set_rd_case _ _ _ _ _ R1);
      [exact Hext
      | unfold bind;
        repeat (rewrite ?(w1 _ _ _ _ R1), ?(w2 _ _ _ _ _ R), ?(wu1 _ _ _ _ R1),
                  ?(wu2 _ _ _ _ _ R), ?(x2 _ _ _ _ _ R); cbv beta iota);
        rewrite ?count_mod5, ?shl_run, ?shr_run by exact Hc; reflexivity
      |]).
  - apply sext32_eq, u32_add.
  - apply sext32_eq, u32_sub.
  - apply sext32_eq. rewrite wrap_wrap. apply wrap_mul_l.
  - apply sext32_eq. reflexivity.
  - apply sext32_eq. reflexivity.
  - apply sext32_eq. rewrite wrap_wrap, wrap_mul_l, wrap_mul_r. reflexivity.
  - apply word_div.
  - apply word_divu.
  - apply word_rem.
  - apply word_remu.
Qed.
End Word.

(** ** Every register-register instruction *)

(** The result of a register-register instruction of a machine of [xlen]
    bits: the word instructions are RV64's. *)
Definition rr_spec (xlen : Z) (op : rv_op) : option (Z -> Z -> Z) :=
  match rtype_spec xlen op with
  | Some f => Some f
  | None => if xlen =? 64 then rtype_word_spec op else None
  end.

(** The count of a register shift is masked with seven bits, and a C++ shift
    by [xlen] bits or more is undefined. *)
Definition shift_defined (xlen : Z) (op : rv_op) (b : Z) : bool :=
  match op with
  | rv_op_sll | rv_op_srl | rv_op_sra => b mod 128 <? xlen
  | _ => true
  end.

(** The operands: two words, and a destination that may be [x0]. *)
Record operands {P} `{Processor P} (xlen : Z) (dec : decode) (p : P) (a b : Z) : Prop := {
  op_rd : 0 <= d_rd dec < Z.of_nat (length (ireg (base p)));
  op_rs1 : 0 <= d_rs1 dec /\ ireg (base p) !! Z.to_nat (d_rs1 dec) = Some a /\ 0 <= a < 2 ^ xlen;
  op_rs2 : 0 <= d_rs2 dec /\ ireg (base p) !! Z.to_nat (d_rs2 dec) = Some b /\ 0 <= b < 2 ^ xlen }.

Section Rr.
Context {P : Type} `{ProcessorLaws P} `{!MMU P}.

Lemma operands_reads xlen dec (p : P) a b :
  operands xlen dec p a b -> d_rd dec <> 0 -> reads xlen dec p a b.
Proof using. intros [Hd (? & ? & ?) (? & ? & ?)] Hn. repeat split; auto; lia. Qed.

Lemma set_rd_zero xlen dec (e : M P Z) p :
  d_rd dec = 0 -> 0 < Z.of_nat (length (ireg (base p))) ->
  set_rd xlen dec e p = Ok tt (write_rd xlen 0 0 p).
Proof using. intros E Hl. unfold set_rd. rewrite E. apply put_ireg_run. lia. Qed.

Lemma set_rd_undef xlen dec (e : M P Z) p :
  d_rd dec <> 0 -> e p = Undefined -> set_rd xlen dec e p = Undefined.
Proof using. intros E He. unfold set_rd, bind. destruct (Z.eqb_spec (d_rd dec) 0); [lia |]. rewrite He. reflexivity. Qed.

(** A guarded assignment to [x0], and one whose expression is undefined. *)
Lemma set_rd_case_x0 xlen dec (off : Z) (ext : bool) (e : M P Z) p :
  ext = true -> d_rd dec = 0 -> 0 < Z.of_nat (length (ireg (base p))) ->
  (if ext then (set_rd xlen dec e ;; ret off) else ret off) p = Ok off (write_rd xlen 0 0 p).
Proof using. intros -> E Hl. unfold bind at 1. rewrite set_rd_zero by assumption. reflexivity. Qed.

Lemma set_rd_case_undef xlen dec (off : Z) (ext : bool) (e : M P Z) p :
  ext = true -> d_rd dec <> 0 -> e p = Undefined ->
  (if ext then (set_rd xlen dec e ;; ret off) else ret off) p = Undefined.
Proof using. intros -> E He. unfold bind at 1. rewrite set_rd_undef by assumption. reflexivity. Qed.

Lemma shift_out w c n : w <= n -> shl (P := P) w c n = undefined /\ shr (P := P) w c n = undefined.
Proof using. intros Hn. unfold shl, shr. destruct (Z.ltb_spec n w); [lia |]. rewrite andb_false_r. auto. Qed.

Lemma count_seven xlen b : xlen = 32 \/ xlen = 64 -> Z.land (swrap xlen b) 0x7f = b mod 128.
Proof using.
  intros Hx. change 0x7f with (Z.ones 7). rewrite <- wrap_land_ones by lia.
  rewrite <- (wrap_narrow 7 xlen) by (destruct Hx; subst; lia).
  rewrite wrap_swrap, wrap_narrow by (destruct Hx; subst; lia). reflexivity.
Qed.

Context (fpu : host_fpu) (F : isa) (dec : decode) (off : Z) (p : P) (a b : Z).

Lemma exec_common_x0 xlen rest f :
  operands xlen dec p a b -> d_rd dec = 0 ->
  rtype_spec xlen (d_op dec) = Some f -> op_ext F (d_op dec) = true ->
  dispatch xlen (exec_common fpu xlen F dec off ++ rest) p = Ok off (write_rd xlen 0 0 p).
Proof using.
  intros O E0 Hf He. pose proof (op_rd _ _ _ _ _ O) as Hd.
  destruct (d_op dec) eqn:E; try discriminate Hf; cbn [op_ext] in He;
    cbv [exec_common app exec_rvi_jump exec_rvi_mem exec_rvi_imm exec_rvi_reg exec_rvm];
    rewrite E; cbn [dispatch guarded];
    (apply set_rd_case_x0; [exact He | exact E0 | lia]).
Qed.

Lemma exec_common_undefined xlen rest f :
  xlen = 32 \/ xlen = 64 -> operands xlen dec p a b -> d_rd dec <> 0 ->
  rtype_spec xlen (d_op dec) = Some f -> op_ext F (d_op dec) = true ->
  shift_defined xlen (d_op dec) b = false ->
  dispatch xlen (exec_common fpu xlen F dec off ++ rest) p = Undefined.
Proof using.
  intros Hx O E0 Hf He Hs. pose proof (operands_reads _ _ _ _ _ O E0) as R.
  pose proof (reads_rs1 _ _ _ _ _ R) as R1.
  destruct (d_op dec) eqn:E; try discriminate Hs; cbn [op_ext] in He; cbn [shift_defined] in Hs;
    apply Z.ltb_ge in Hs; destruct (shift_out xlen (swrap xlen a) (b mod 128) Hs) as [S1 S2];
    destruct (shift_out xlen a (b mod 128) Hs) as [S3 S4];
    cbv [exec_common app exec_rvi_jump exec_rvi_mem exec_rvi_imm exec_rvi_reg];
    rewrite E; cbn [dispatch guarded];
    (apply set_rd_case_undef; [exact He | exact E0 |]);
    unfold bind; repeat (rewrite ?(x1 _ _ _ _ R1), ?(x2 _ _ _ _ _ R), ?(xu1 _ _ _ _ R1), ?(xu2 _ _ _ _ _ R); cbv beta iota);
    rewrite (count_seven xlen b Hx), ?S1, ?S2, ?S3, ?S4; reflexivity.
Qed.

Lemma exec_word_x0 f :
  operands 64 dec p a b -> d_rd dec = 0 ->
  rtype_word_spec (d_op dec) = Some f -> op_ext F (d_op dec) = true ->
  exec_inst_rv64 fpu F dec off p = Ok off (write_rd 64 0 0 p).
Proof using.
  intros O E0 Hf He. pose proof (op_rd _ _ _ _ _ O) as Hd.
  destruct (d_op dec) eqn:E; try discriminate Hf; cbn [op_ext] in He;
    unfold exec_inst_rv64, exec_inst_rv64_groups;
    cbv [exec_common app exec_rvi_jump exec_rvi_mem exec_rvi_imm exec_rvi_reg exec_rvm exec_rva_w
         exec_rvf exec_rvd exec_rv64_mem exec_rv64_word exec_rv64_mword];
    rewrite E; cbn [dispatch guarded];
    (apply set_rd_case_x0; [exact He | exact E0 | lia]).
Qed.

(** What a register-register instruction does to the state. *)
Definition rr_result xlen (f : Z -> Z -> Z) : res P Z :=
  if d_rd dec =? 0 then Ok off (write_rd xlen 0 0 p)
  else if shift_defined xlen (d_op dec) b then Ok off (write_rd xlen (d_rd dec) (f a b) p)
  else Undefined.

Lemma exec_common_rr xlen rest f :
  xlen = 32 \/ xlen = 64 -> operands xlen dec p a b ->
  rtype_spec xlen (d_op dec) = Some f -> op_ext F (d_op dec) = true ->
  dispatch xlen (exec_common fpu xlen F dec off ++ rest) p = rr_result xlen f.
Proof using.
  intros Hx O Hf He. unfold rr_result. destruct (Z.eqb_spec (d_rd dec) 0) as [E0 | E0].
  { eapply exec_common_x0; eassumption. }
  destruct (shift_defined _ _ _) eqn:Hs; [| eapply exec_common_undefined; eassumption].
  apply exec_common_rtype; auto using operands_reads.
  unfold shift_defined, shift_ok in *. destruct (d_op dec); try exact I; apply Z.ltb_lt, Hs.
Qed.

Lemma exec_word_rr f :
  operands 64 dec p a b -> rtype_word_spec (d_op dec) = Some f -> op_ext F (d_op dec) = true ->
  exec_inst_rv64 fpu F dec off p = rr_result 64 f.
Proof using.
  intros O Hf He. unfold rr_result. destruct (Z.eqb_spec (d_rd dec) 0) as [E0 | E0].
  { eapply exec_word_x0; eassumption. }
  replace (shift_defined _ _ _) with true by (destruct (d_op dec); (discriminate Hf || reflexivity)).
  apply exec_word_rtype; auto using operands_reads.
Qed.

Lemma rr_word_64 xlen op f :
  rtype_spec xlen op = None -> rr_spec xlen op = Some f -> xlen = 64 /\ rtype_word_spec op = Some f.
Proof using. unfold rr_spec. intros ->. destruct (Z.eqb_spec xlen 64); [auto | discriminate]. Qed.
End Rr.

(** ** The immediate instructions *)

(** The register form of an immediate instruction. *)
Definition itype_base (op : rv_op) : option rv_op :=
  match op with
  | rv_op_addi => Some rv_op_add | rv_op_slti => Some rv_op_slt | rv_op_sltiu => Some rv_op_sltu
  | rv_op_xori => Some rv_op_xor | rv_op_ori => Some rv_op_or | rv_op_andi => Some rv_op_and
  | rv_op_slli => Some rv_op_sll | rv_op_srli => Some rv_op_srl | rv_op_srai => Some rv_op_sra
  | _ => None
  end.

Definition itype_word_base (op : rv_op) : option rv_op :=
  match op with
  | rv_op_addiw => Some rv_op_addw | rv_op_slliw => Some rv_op_sllw
  | rv_op_srliw => Some rv_op_srlw | rv_op_sraiw => Some rv_op_sraw
  | _ => None
  end.

(** A shift amount is below the width of the shifted register. *)
Definition imm_ok (xlen : Z) (op : rv_op) (imm : Z) : Prop :=
  match op with
  | rv_op_slli | rv_op_srli | rv_op_srai => 0 <= imm < xlen
  | rv_op_slliw | rv_op_srliw | rv_op_sraiw => 0 <= imm < 32
  | _ => True
  end.

Section Itype.
Context {P : Type} `{ProcessorLaws P} `{!MMU P}.
Context (fpu : host_fpu) (xlen : Z) (Hxlen : xlen = 32 \/ xlen = 64) (F : isa).
Context (dec : decode) (pc_offset : Z) (p : P) (a : Z).
Hypothesis R : reads1 xlen dec p a.

Lemma exec_common_itype rest rop f :
  itype_base (d_op dec) = Some rop -> rtype_spec xlen rop = Some f -> rvi F = true ->
  imm_ok xlen (d_op dec) (d_imm dec) ->
  dispatch xlen (exec_common fpu xlen F dec pc_offset ++ rest) p =
  Ok pc_offset (write_rd xlen (d_rd dec) (f a (wrap xlen (d_imm dec))) p).
Proof using R Hxlen.
  pose proof (xlen_facts xlen Hxlen) as (_ & _ & X3). pose proof (a_word _ _ _ _ R) as Ha.
  pose proof (wrap_range xlen X3 (d_imm dec)) as Hb.
  intros Hop Hf Hext Hi. destruct (d_op dec) eqn:E; try discriminate Hop; injection Hop as <-;
    injection Hf as <-; cbn [imm_ok] in Hi;
    cbv [exec_common app exec_rvi_jump exec_rvi_mem exec_rvi_imm];
    rewrite E; cbn [dispatch guarded];
    (eapply (set_rd_case _ _ _ _ _ R);
      [exact Hext
      | unfold bind; rewrite ?(x1 _ _ _ _ R), ?(xu1 _ _ _ _ R); cbv beta iota;
        rewrite ?shl_run, ?shr_run by exact Hi; reflexivity
      |]); rewrite ?imm_count by lia.
  - rewrite U_add. rewrite wrap_add_r. reflexivity.
  - rewrite swrap_wrap. apply b2z_word, Hxlen.
  - apply b2z_word, Hxlen.
  - rewrite wrap_lxor, !(wrap_small _ a), wrap_wrap by assumption. reflexivity.
  - rewrite wrap_lor, !(wrap_small _ a), wrap_wrap by assumption. reflexivity.
  - rewrite wrap_land, !(wrap_small _ a), wrap_wrap by assumption. reflexivity.
  - apply wrap_wrap.
  - apply div_pow_word; [assumption.. | lia].
  - reflexivity.
Qed.
End Itype.

Section Itype_word.
Context {P : Type} `{ProcessorLaws P} `{!MMU P}.
Context (fpu : host_fpu) (F : isa).
Context (dec : decode) (pc_offset : Z) (p : P) (a : Z).
Hypothesis R : reads1 64 dec p a.

Lemma exec_word_itype rop f :
  itype_word_base (d_op dec) = Some rop -> rtype_word_spec rop = Some f -> rvi F = true ->
  imm_ok 64 (d_op dec) (d_imm dec) ->
  exec_inst_rv64 fpu F dec pc_offset p =
  Ok pc_offset (write_rd 64 (d_rd dec) (f a (wrap 64 (d_imm dec))) p).
Proof using R.
  intros Hop Hf Hext Hi. destruct (d_op dec) eqn:E; try discriminate Hop; injection Hop as <-;
    injection Hf as <-; cbn [imm_ok] in Hi; unfold exec_inst_rv64, exec_inst_rv64_groups;
    cbv [exec_common app exec_rvi_jump exec_rvi_mem exec_rvi_imm exec_rvi_reg exec_rvm exec_rva_w
         exec_rvf exec_rvd exec_rv64_mem exec_rv64_word];
    rewrite E; cbn [dispatch guarded];
    (eapply (set_rd_case _ _ _ _ _ R);
      [exact Hext
      | unfold bind; rewrite ?(w1 _ _ _ _ R), ?(wu1 _ _ _ _ R); cbv beta iota;
        rewrite ?shl_run, ?shr_run by exact Hi; reflexivity
      |]); rewrite ?(imm_count 64) by (lia || auto).
  - apply sext32_eq. rewrite <- (wrap_narrow 32 64 (a + wrap 64 _)), wrap_add_r, wrap_narrow by lia.
    rewrite <- wrap_add_l, wrap_swrap, wrap_add_l. reflexivity.
  - apply sext32_eq. rewrite wrap_wrap. apply wrap_mul_l.
  - apply sext32_eq. reflexivity.
  - unfold sext32. rewrite (swrap_small 32 ltac:(lia) (s32 a / 2 ^ d_imm dec)); [reflexivity |].
    pose proof (swrap_range 32 ltac:(lia) a) as Ra.
    pose proof (Z.pow_pos_nonneg 2 (d_imm dec) ltac:(lia) ltac:(lia)).
    split; [apply Z.div_le_lower_bound; nia | apply Z.div_lt_upper_bound; nia].
Qed.
End Itype_word.
