(* ===== verification/ExecControl.v ===== *)
(** * ExecControl: jumps, branches, loads, stores and reservations against
    the RISC-V specification. *)

From Stdlib Require Import ZArith Lia Bool List.
From stdpp Require Import base numbers list.
From S2P Require Import Prelude Operand Meta Decode Codec Alu Machine Fpu Interp InterpSound ExecSpec.

(** ** Specifications *)

(** When a branch is taken, from the two source registers. *)
Definition branch_spec (xlen : Z) (op : rv_op) : option (Z -> Z -> bool) :=
  match op with
  | rv_op_beq => Some (fun a b => a =? b)
  | rv_op_bne => Some (fun a b => negb (a =? b))
  | rv_op_blt => Some (fun a b => swrap xlen a <? swrap xlen b)
  | rv_op_bge => Some (fun a b => swrap xlen b <=? swrap xlen a)
  | rv_op_bltu => Some (fun a b => a <? b)
  | rv_op_bgeu => Some (fun a b => b <=? a)
  | _ => None
  end.

(** The width of a load and how the value is extended to a register. *)
Definition load_spec (xlen : Z) (op : rv_op) : option (Z * (Z -> Z)) :=
  match op with
  | rv_op_lb => Some (8, fun v => wrap xlen (s8 v))
  | rv_op_lh => Some (16, fun v => wrap xlen (s16 v))
  | rv_op_lw => Some (32, fun v => wrap xlen (s32 v))
  | rv_op_lbu => Some (8, fun v => v)
  | rv_op_lhu => Some (16, fun v => v)
  | _ => None
  end.

Definition store_spec (op : rv_op) : option Z :=
  match op with
  | rv_op_sb => Some 8 | rv_op_sh => Some 16 | rv_op_sw => Some 32
  | _ => None
  end.

Section Control.
Context {P : Type} `{ProcessorLaws P} `{!MMU P}.
Context (fpu : host_fpu) (xlen : Z) (Hxlen : xlen = 32 \/ xlen = 64) (F : isa).
Context (dec : decode) (pc_offset : Z) (p : P) (a b : Z).
Abbreviation U := (wrap xlen).
Abbreviation exec rest := (dispatch xlen (exec_common fpu xlen F dec pc_offset ++ rest)).

Lemma bind_run {A B} (m : M P A) (f : A -> M P B) v p0 p1 :
  m p0 = Ok v p1 -> bind m f p0 = f v p1.
Proof using. intros E. unfold bind. rewrite E. reflexivity. Qed.

(** The program counter a handler that returns [off] leads to. *)
Definition next_pc (off : Z) : Z := U (pc (base p) + off).

(** [rd = pc + pc_offset], the address of the next instruction; nothing is
    written to [x0]. *)
Definition link (rd : Z) : P :=
  if rd =? 0 then write_rd xlen 0 0 p else write_rd xlen rd (pc (base p) + pc_offset) p.

Lemma link_run :
  0 <= d_rd dec < Z.of_nat (length (ireg (base p))) ->
  set_rd xlen dec (q <- gets pc ;; ret (U (q + pc_offset))) p = Ok tt (link (d_rd dec)).
Proof using.
  intros Hrd. unfold set_rd, link, bind at 1. destruct (Z.eqb_spec (d_rd dec) 0) as [E | E].
  - cbv beta iota delta [ret]. rewrite E in *. apply put_ireg_run. lia.
  - cbv beta iota delta [bind gets ret]. rewrite put_ireg_run by lia.
    unfold write_rd. rewrite wrap_wrap. reflexivity.
Qed.

Lemma exec_jal_run rest :
  d_op dec = rv_op_jal -> rvi F = true ->
  0 <= d_rd dec < Z.of_nat (length (ireg (base p))) ->
  exec rest p = Ok (U (d_imm dec)) (link (d_rd dec)).
Proof using.
  intros E Hext Hrd. cbv [exec_common app exec_rvi_jump]. rewrite E.
  cbn [dispatch guarded_jump]. rewrite Hext. unfold bind at 1. rewrite link_run by assumption.
  reflexivity.
Qed.

Lemma exec_jalr_run rest :
  d_op dec = rv_op_jalr -> rvi F = true ->
  0 <= d_rd dec < Z.of_nat (length (ireg (base p))) ->
  0 <= d_rs1 dec -> ireg (base p) !! Z.to_nat (d_rs1 dec) = Some a ->
  exec rest p =
  Ok (Z.land (U (a + d_imm dec - pc (base p))) (U (-2))) (link (d_rd dec)).
Proof using.
  intros E Hext Hrd Hrs Ha. cbv [exec_common app exec_rvi_jump]. rewrite E.
  cbn [dispatch guarded_jump]. rewrite Hext.
  rewrite (bind_run _ _ (swrap xlen a) p p) by (unfold x_val; erewrite bind_run by
    (apply get_raw_run; eassumption); reflexivity).
  rewrite (bind_run (gets pc) _ (pc (base p)) p p) by reflexivity.
  rewrite (bind_run _ _ tt p (link (d_rd dec))) by (apply link_run; assumption).
  unfold ret. cbv zeta. f_equal.
  f_equal. rewrite <- (wrap_sub_l _ (swrap xlen a + _)), <- wrap_add_l, wrap_swrap, wrap_add_l.
  rewrite wrap_sub_l. reflexivity.
Qed.

(** With an even [pc], the target of [jalr] is [(rs1 + imm) & ~1]. *)
Lemma jalr_target imm :
  Z.even (pc (base p)) = true ->
  next_pc (Z.land (U (a + imm - pc (base p))) (U (-2))) = Z.land (U (a + imm)) (U (-2)).
Proof using Hxlen.
  intros He. unfold next_pc. set (q := pc (base p)) in *.
  assert (L : forall z, Z.land (U z) (U (-2)) = U (z - z mod 2)).
  { intros z. rewrite <- wrap_land by (destruct Hxlen; lia). f_equal.
    replace (-2) with (Z.lnot (Z.ones 1)) by reflexivity. rewrite <- Z.ldiff_land.
    rewrite Z.ldiff_ones_r, Z.shiftl_mul_pow2, Z.shiftr_div_pow2 by lia. change (2 ^ 1) with 2.
    pose proof (Z.div_mod z 2). lia. }
  rewrite !L, wrap_add_r. f_equal.
  assert (q mod 2 = 0) as Hq by (rewrite Zmod_even, He; reflexivity).
  assert ((a + imm - q) mod 2 = (a + imm) mod 2) as ->; [| lia].
  rewrite <- Zminus_mod_idemp_r, Hq, Z.sub_0_r. reflexivity.
Qed.

Hypothesis R1 : ireg (base p) !! Z.to_nat (d_rs1 dec) = Some a.
Hypothesis R2 : ireg (base p) !! Z.to_nat (d_rs2 dec) = Some b.
Hypothesis Hrs1 : 0 <= d_rs1 dec.
Hypothesis Hrs2 : 0 <= d_rs2 dec.

Lemma exec_branch_run rest cond :
  branch_spec xlen (d_op dec) = Some cond -> rvi F = true ->
  0 <= a < 2 ^ xlen -> 0 <= b < 2 ^ xlen ->
  exec rest p = Ok (if cond a b then U (d_imm dec) else pc_offset) p.
Proof using R1 R2 Hrs1 Hrs2.
  intros Hc Hext Ha Hb.
  assert (EQ : (swrap xlen a =? swrap xlen b) = (a =? b)).
  { destruct (Z.eqb_spec a b) as [-> | Hn]; [apply Z.eqb_refl |]. apply Z.eqb_neq. intros E.
    apply Hn. apply (f_equal U) in E. rewrite !wrap_swrap, !wrap_small in E by assumption. exact E. } destruct (d_op dec) eqn:E; try discriminate Hc; injection Hc as <-;
    cbv [exec_common app exec_rvi_jump]; rewrite E; cbn [dispatch guarded_jump]; rewrite Hext;
    unfold branch, x_val, xu_val, bind;
    rewrite (get_raw_run ireg _ a) by assumption; cbv beta iota delta [ret];
    rewrite (get_raw_run ireg _ b) by assumption; rewrite ?Z.geb_leb, ?EQ; reflexivity.
Qed.

(** The effective address. *)
Lemma eff_addr_run : eff_addr xlen dec p = Ok (U (a + d_imm dec)) p.
Proof using R1 Hrs1.
  unfold eff_addr, x_val, bind. rewrite (get_raw_run ireg _ a) by assumption.
  cbv beta iota delta [ret]. f_equal. rewrite <- wrap_add_l, wrap_swrap, wrap_add_l. reflexivity.
Qed.

(** A load reads the MMU at the effective address and writes the extended
    value to [rd]; a fault of the MMU is a fault of the instruction, with
    [rd] unchanged. *)
Lemma exec_load_run rest w ext `{!MMULaws P} :
  load_spec xlen (d_op dec) = Some (w, ext) -> rvi F = true ->
  0 < d_rd dec < Z.of_nat (length (ireg (base p))) ->
  exec rest p =
  match mmu_load w (U (a + d_imm dec)) p with
  | Ok v p' => Ok pc_offset (write_rd xlen (d_rd dec) (ext v) p')
  | Raise c p' => Raise c p'
  | Undefined => Undefined
  end.
Proof using R1 Hrs1.
  intros Hl Hext Hrd. destruct (d_op dec) eqn:E; try discriminate Hl; injection Hl as <- <-;
    cbv [exec_common app exec_rvi_jump exec_rvi_mem]; rewrite E; cbn [dispatch guarded];
    rewrite Hext; unfold load_rd, bind; rewrite eff_addr_run;
    match goal with |- context [mmu_load ?w ?va p] =>
      pose proof (load_regs w va p) as L; destruct (mmu_load w va p) as [v p' | c p' |] end;
    try reflexivity;
    destruct L as [(_ & EI & _) Hv]; specialize (Hv ltac:(lia)); rewrite set_rd_run with (v := _) by
      (try rewrite EI; first [assumption | reflexivity]);
    unfold ret, write_rd; rewrite ?wrap_wrap; rewrite ?(wrap_small 8), ?(wrap_small 16) by assumption;
    reflexivity.
Qed.

(** A store writes the low bits of [rs2] at the effective address. *)
Lemma exec_store_run rest w :
  store_spec (d_op dec) = Some w -> rvi F = true ->
  exec rest p =
  match mmu_store w (U (a + d_imm dec)) (wrap w b) p with
  | Ok _ p' => Ok pc_offset p'
  | Raise c p' => Raise c p'
  | Undefined => Undefined
  end.
Proof using R1 R2 Hrs1 Hrs2 Hxlen.
  assert (N : forall n, 0 < n <= 32 -> wrap n (swrap xlen b) = wrap n b).
  { intros n Hn. rewrite <- (wrap_narrow n xlen), wrap_swrap, wrap_narrow by (destruct Hxlen; lia).
    reflexivity. }
  intros Hs Hext. destruct (d_op dec) eqn:E; try discriminate Hs; injection Hs as <-;
    cbv [exec_common app exec_rvi_jump exec_rvi_mem]; rewrite E; cbn [dispatch guarded];
    rewrite Hext; unfold bind; rewrite eff_addr_run; unfold x_val, w_val, bind;
    rewrite (get_raw_run ireg _ b) by assumption; cbv beta iota delta [ret];
    rewrite ?N, ?wrap_swrap by lia; reflexivity.
Qed.

(** [sc.w] stores when the reservation is the address, and then only; [rd]
    gets 0 on success and 1 otherwise. *)
Lemma exec_sc_run w :
  0 < d_rd dec < Z.of_nat (length (ireg (base p))) ->
  exec_sc xlen dec w p =
  if lr (base p) =? swrap xlen a then
    match mmu_store w (U a) (wrap w b) p with
    | Ok _ p' => set_rd xlen dec (ret 0) p'
    | Raise c p' => Raise c p'
    | Undefined => Undefined
    end
  else Ok tt (write_rd xlen (d_rd dec) 1 p).
Proof using R1 R2 Hrs1 Hrs2.
  intros Hrd. unfold exec_sc, bind at 1. unfold gets at 1. cbv beta iota. unfold x_val, bind at 1 2.
  rewrite (get_raw_run ireg _ a) by assumption. cbv beta iota delta [ret]. unfold bind at 1.
  destruct (Z.eqb_spec (lr (base p)) (swrap xlen a)); cbn [negb].
  - unfold reg_addr, x_val, bind. rewrite (get_raw_run ireg _ a) by assumption.
    cbv beta iota delta [ret]. unfold xu_val. rewrite (get_raw_run ireg _ b) by assumption.
    rewrite wrap_swrap. destruct (mmu_store _ _ _ p); reflexivity.
  - apply (set_rd_run xlen dec _ 1 p); [assumption | reflexivity].
Qed.
End Control.
