(* ===== verification/Proxy.v ===== *)
(** * Proxy: the user-mode machine, a processor with the flat memory of
    [emu/mmu-proxy.h].

    The guest's addresses are the host's: memory is a function from addresses
    to bytes, and a [T] is read and written in the host's little-endian byte
    order.  An unmapped address is a signal of the host and is left out. *)

From Stdlib Require Import ZArith Lia Bool List.
From stdpp Require Import base numbers list.
From S2P Require Import Prelude Alu Machine Codec.

(** ** Host memory *)

(** A read of [n] bytes, little-endian. *)
Fixpoint read_bytes (n : nat) (mem : Z -> Z) (addr : Z) : Z :=
  match n with
  | O => 0
  | S n => u8 (mem addr) + Z.shiftl (read_bytes n mem (addr + 1)) 8
  end.

(** A write of the low [n] bytes of [v]. *)
Fixpoint write_bytes (n : nat) (mem : Z -> Z) (addr v : Z) : Z -> Z :=
  match n with
  | O => mem
  | S n => write_bytes n (fun a => if a =? addr then u8 v else mem a) (addr + 1) (Z.shiftr v 8)
  end.

Definition bytes_of (w : Z) : nat := Z.to_nat (w / 8).

(** A [T] of [w] bits read at [addr]. *)
Definition read_T (w : Z) (mem : Z -> Z) (addr : Z) : Z := wrap w (read_bytes (bytes_of w) mem addr).

(** [processor_proxy]: the processor, the host's memory, and the values the
    host's clock will give. *)
Record proxy := mkProxy { px_proc : proc; px_mem : Z -> Z; px_clock : nat -> Z }.

#[export] Instance proxy_processor : Processor proxy := {
  base := px_proc;
  set_base b p := mkProxy b (px_mem p) (px_clock p) }.

#[export] Instance proxy_processor_laws : ProcessorLaws proxy.
Proof. split; intros; try destruct p; reflexivity. Qed.

(** ** The MMU *)
Section Mmu_proxy.
Context (xlen : Z).

Definition memory_top : Z := if xlen =? 32 then 0x80000000 else 0x7f0000000000.

(** [val = UX( *(T* )va)]: the value goes through [UX]. *)
Definition proxy_load (w va : Z) : M proxy Z :=
  fun p => Ok (wrap xlen (read_T w (px_mem p) va)) p.

Definition proxy_store (w va v : Z) : M proxy unit :=
  fun p => Ok tt (mkProxy (px_proc p) (write_bytes (bytes_of w) (px_mem p) va v) (px_clock p)).

(** [store<P,f32>] and [store<P,f64>] copy the float's bits. *)
Definition proxy_store_f (fpu : host_fpu) (w va v : Z) : M proxy unit := proxy_store w va v.

(** [amo<P,T>]: [T] is signed, of width [w]; the operation is at [UX]. *)
Definition proxy_amo (w : Z) (a_op : amo_op) (va val2 : Z) : M proxy Z :=
  fun p =>
    let addr := Z.land va (memory_top - 1) in
    let val1 := read_T w (px_mem p) addr in
    let val2 := wrap w (amo_fn xlen a_op (swrap w val1) (swrap w val2)) in
    Ok val1 (mkProxy (px_proc p) (write_bytes (bytes_of w) (px_mem p) addr val2) (px_clock p)).

Definition proxy_mmu : MMU proxy := {|
  mmu_load := proxy_load; mmu_store := proxy_store; mmu_store_f := proxy_store_f; mmu_amo := proxy_amo |}.
End Mmu_proxy.

(** ** Memory laws *)
Lemma read_bytes_range n mem addr : 0 <= read_bytes n mem addr < 2 ^ (8 * Z.of_nat n).
Proof.
  revert addr. induction n as [| n IH]; intros addr; [simpl; lia |].
  cbn [read_bytes]. specialize (IH (addr + 1)).
  pose proof (wrap_range 8 ltac:(lia) (mem addr)).
  rewrite Z.shiftl_mul_pow2 by lia.
  replace (8 * Z.of_nat (S n)) with (8 * Z.of_nat n + 8) by lia. rewrite Z.pow_add_r by lia. nia.
Qed.

Lemma write_bytes_out n mem addr v a :
  ~ (addr <= a < addr + Z.of_nat n) -> write_bytes n mem addr v a = mem a.
Proof.
  revert mem addr v. induction n as [| n IH]; intros mem addr v Ha; [reflexivity |].
  cbn [write_bytes]. rewrite IH by lia. destruct (Z.eqb_spec a addr); [lia | reflexivity].
Qed.

Lemma read_bytes_ext n mem mem' addr :
  (forall a, addr <= a < addr + Z.of_nat n -> mem a = mem' a) ->
  read_bytes n mem addr = read_bytes n mem' addr.
Proof.
  revert addr. induction n as [| n IH]; intros addr H; [reflexivity |].
  cbn [read_bytes]. rewrite H by lia. rewrite (IH (addr + 1)); [reflexivity |].
  intros a Ha. apply H. lia.
Qed.

(** Reading what was written. *)
Lemma read_write_bytes n mem addr v :
  read_bytes n (write_bytes n mem addr v) addr = wrap (8 * Z.of_nat n) v.
Proof.
  revert mem addr v. induction n as [| n IH]; intros mem addr v.
  - cbn [read_bytes Z.of_nat]. unfold wrap. rewrite Z.mod_1_r. reflexivity.
  - cbn [read_bytes write_bytes]. rewrite IH, write_bytes_out by lia.
    rewrite Z.eqb_refl, wrap_wrap. replace (8 * Z.of_nat (S n)) with (8 + 8 * Z.of_nat n) by lia.
    unfold wrap. rewrite Z.shiftl_mul_pow2, Z.shiftr_div_pow2, Z.pow_add_r by lia.
    rewrite Z.rem_mul_r by (try apply Z.pow_nonzero; lia). lia.
Qed.

(** A write does not disturb a disjoint read. *)
Lemma read_write_bytes_disjoint n m mem addr addr' v :
  addr' + Z.of_nat m <= addr \/ addr + Z.of_nat n <= addr' ->
  read_bytes m (write_bytes n mem addr v) addr' = read_bytes m mem addr'.
Proof. intros H. apply read_bytes_ext. intros a Ha. apply write_bytes_out. lia. Qed.

(** A value of a whole number of bytes, read back. *)
Lemma read_write_T w mem addr v :
  0 < w -> w mod 8 = 0 -> read_T w (write_bytes (bytes_of w) mem addr v) addr = wrap w v.
Proof.
  intros Hw H8. unfold read_T, bytes_of. rewrite read_write_bytes.
  rewrite Z2Nat.id by (apply Z.div_pos; lia).
  replace (8 * (w / 8)) with w by (pose proof (Z.div_mod w 8); lia). apply wrap_wrap.
Qed.

(** A value that goes through a type of another width does not grow. *)
Lemma wrap_le u x : 0 <= x -> 0 <= wrap u x <= x.
Proof.
  intros Hx. unfold wrap. destruct (Z.le_gt_cases 0 u) as [Hu | Hu].
  - pose proof (Z.pow_pos_nonneg 2 u). pose proof (Z.mod_pos_bound x (2 ^ u)). pose proof (Z.mod_le x (2 ^ u)). lia.
  - rewrite (Z.pow_neg_r 2 u) by exact Hu. rewrite Z.mod_0_r. lia.
Qed.

(** ** The interpreter's hypotheses on its MMU *)
#[export] Instance proxy_mmu_laws xlen : @MMULaws proxy _ (proxy_mmu xlen).
Proof.
  split; intros.
  - intros p. split; [repeat split |]. intros Hw. pose proof (wrap_range w Hw (read_bytes (bytes_of w) (px_mem p) va)) as Hr.
    fold (read_T w (px_mem p) va) in Hr. pose proof (wrap_le xlen (read_T w (px_mem p) va)). lia.
  - intros p. split; [repeat split | exact I].
  - exists (env (base p)). cbn. destruct (px_proc p). repeat split.
  - intros p. split; [repeat split | intros; apply wrap_range; assumption].
Qed.

(** An atomic word operation: the old word is returned and replaced by the
    32-bit result, in either base ISA; it is the location a load and a store
    use when the address is below the top of memory's mask. *)
Lemma proxy_amo_word op va v p :
  Z.land va (memory_top 64 - 1) = va ->
  proxy_amo 64 32 op va v p =
  Ok (read_T 32 (px_mem p) va)
    (mkProxy (px_proc p)
      (write_bytes 4 (px_mem p) va (amo_fn 32 op (read_T 32 (px_mem p) va) v)) (px_clock p)).
Proof. intros Hva. unfold proxy_amo. rewrite Hva, amo_fn_word. reflexivity. Qed.
