(* ===== verification/InstEquiv.v ===== *)
(** * InstEquiv: decoded instructions up to the fields an opcode reads.

    [dec_equiv] relates two [decode]s of the same opcode that agree on the
    operands the interpreter reads; the decoders produce related results
    whatever the [decode] they overwrite held, and the interpreter does not
    tell related instructions apart.  The run loop's instruction cache rests
    on these two facts. *)

From Stdlib Require Import ZArith Lia Bool List.
From stdpp Require Import base numbers list.
From S2P Require Import Prelude Operand Meta Decode Codec CodecSound CodecRound Machine Fpu Interp.

(** ** Decoded instructions, up to the fields an opcode reads

    A [decode] is reused from one instruction to the next, so the fields its
    format does not set keep old values; no handler reads them. *)
Definition reads_rs3 (op : rv_op) : bool :=
  match rv_inst_codec op with rv_codec_r4_m => true | _ => false end.

Definition dec_equiv (d d' : decode) : Prop :=
  d_op d = d_op d' /\
  (d_op d <> rv_op_illegal ->
   d_imm d = d_imm d' /\ d_rd d = d_rd d' /\ d_rs1 d = d_rs1 d' /\ d_rs2 d = d_rs2 d' /\
   (reads_rs3 (d_op d) = true -> d_rs3 d = d_rs3 d')).

#[export] Instance dec_equiv_equivalence : Equivalence dec_equiv.
Proof.
  unfold dec_equiv. split; red.
  - intros d. auto 10.
  - intros d d' [E H]. rewrite <- E. split; [reflexivity |]. intros Hn.
    destruct (H Hn) as (? & ? & ? & ? & H3).
    repeat split; auto. intros Hr. symmetry. auto.
  - intros d d' d'' [E H] [E' H']. rewrite <- E in *. split; [assumption |]. intros Hn.
    destruct (H Hn) as (-> & -> & -> & -> & H3). destruct (H' Hn) as (? & ? & ? & ? & H3').
    repeat split; auto. intros Hr. rewrite H3 by assumption. auto.
Qed.

Section Exec_equiv.
Context {P : Type} `{Processor P} `{MMU P} (fpu : host_fpu) (F : isa).

Context (xlen off : Z).

(** Each group reads the opcode's operands only. *)
Definition group_equiv (g : decode -> option (M P Z)) : Prop :=
  forall d d', dec_equiv d d' -> g d = g d'.

Ltac group_equiv_tac g :=
  intros d d' [E H']; unfold g; rewrite <- E;
  destruct (d_op d) eqn:Ed; try reflexivity;
  (destruct H' as (E1 & E2 & E3 & E4 & H3); [discriminate |]);
  destruct d as [imm rd rs1 rs2 rs3 op codec rm aq rl pred succ];
  destruct d' as [imm' rd' rs1' rs2' rs3' op' codec' rm' aq' rl' pred' succ'];
  cbn [d_op d_imm d_rd d_rs1 d_rs2 d_rs3] in *; subst;
  try (specialize (H3 eq_refl); subst); reflexivity.

Lemma exec_rvi_jump_equiv : group_equiv (fun d => exec_rvi_jump xlen F d off).
Proof using. group_equiv_tac @exec_rvi_jump. Qed.
Lemma exec_rvi_mem_equiv : group_equiv (fun d => exec_rvi_mem xlen F d off).
Proof using. group_equiv_tac @exec_rvi_mem. Qed.
Lemma exec_rvi_imm_equiv : group_equiv (fun d => exec_rvi_imm xlen F d off).
Proof using. group_equiv_tac @exec_rvi_imm. Qed.
Lemma exec_rvi_reg_equiv : group_equiv (fun d => exec_rvi_reg xlen F d off).
Proof using. group_equiv_tac @exec_rvi_reg. Qed.
Lemma exec_rvm_equiv : group_equiv (fun d => exec_rvm xlen F d off).
Proof using. group_equiv_tac @exec_rvm. Qed.
Lemma exec_rva_w_equiv : group_equiv (fun d => exec_rva_w xlen F d off).
Proof using. group_equiv_tac @exec_rva_w. Qed.
Lemma exec_rvf_equiv : group_equiv (fun d => exec_rvf fpu xlen F d off).
Proof using. group_equiv_tac @exec_rvf. Qed.
Lemma exec_rvd_equiv : group_equiv (fun d => exec_rvd fpu xlen F d off).
Proof using. group_equiv_tac @exec_rvd. Qed.
Lemma exec_rv64_mem_equiv : group_equiv (fun d => exec_rv64_mem xlen F d off).
Proof using. group_equiv_tac @exec_rv64_mem. Qed.
Lemma exec_rv64_word_equiv : group_equiv (fun d => exec_rv64_word xlen F d off).
Proof using. group_equiv_tac @exec_rv64_word. Qed.
Lemma exec_rv64_mword_equiv : group_equiv (fun d => exec_rv64_mword xlen F d off).
Proof using. group_equiv_tac @exec_rv64_mword. Qed.
Lemma exec_rva_d_equiv : group_equiv (fun d => exec_rva_d xlen F d off).
Proof using. group_equiv_tac @exec_rva_d. Qed.
Lemma exec_rvf_long_equiv : group_equiv (fun d => exec_rvf_long fpu xlen F d off).
Proof using. group_equiv_tac @exec_rvf_long. Qed.
Lemma exec_rvd_long_equiv : group_equiv (fun d => exec_rvd_long fpu xlen F d off).
Proof using. group_equiv_tac @exec_rvd_long. Qed.

Lemma exec_common_equiv d d' :
  dec_equiv d d' -> exec_common fpu xlen F d off = exec_common fpu xlen F d' off.
Proof using.
  intros E. unfold exec_common.
  rewrite (exec_rvi_jump_equiv _ _ E), (exec_rvi_mem_equiv _ _ E), (exec_rvi_imm_equiv _ _ E),
    (exec_rvi_reg_equiv _ _ E), (exec_rvm_equiv _ _ E), (exec_rva_w_equiv _ _ E),
    (exec_rvf_equiv _ _ E), (exec_rvd_equiv _ _ E). reflexivity.
Qed.

Lemma exec_rv64_groups_equiv d d' :
  dec_equiv d d' -> exec_inst_rv64_groups fpu xlen F d off = exec_inst_rv64_groups fpu xlen F d' off.
Proof using.
  intros E. unfold exec_inst_rv64_groups.
  rewrite (exec_common_equiv _ _ E), (exec_rv64_mem_equiv _ _ E), (exec_rv64_word_equiv _ _ E),
    (exec_rv64_mword_equiv _ _ E), (exec_rva_d_equiv _ _ E), (exec_rvf_long_equiv _ _ E),
    (exec_rvd_long_equiv _ _ E). reflexivity.
Qed.
End Exec_equiv.

Lemma exec_inst_rv64_equiv {P} `{Processor P} `{!MMU P} fpu F d d' off :
  dec_equiv d d' -> exec_inst_rv64 (P := P) fpu F d off = exec_inst_rv64 fpu F d' off.
Proof. intros E. unfold exec_inst_rv64. f_equal. apply exec_rv64_groups_equiv, E. Qed.

Lemma exec_inst_rv32_equiv {P} `{Processor P} `{!MMU P} fpu F d d' off :
  dec_equiv d d' -> exec_inst_rv32 (P := P) fpu F d off = exec_inst_rv32 fpu F d' off.
Proof. intros E. unfold exec_inst_rv32. f_equal. apply exec_common_equiv, E. Qed.

(** Decoding forgets the old contents of the [decode]. *)
Lemma decode_operands_equiv c d d' inst :
  c <> rv_codec_illegal ->
  let e := decode_operands c d inst in let e' := decode_operands c d' inst in
  d_imm e = d_imm e' /\ d_rd e = d_rd e' /\ d_rs1 e = d_rs1 e' /\ d_rs2 e = d_rs2 e' /\
  (c = rv_codec_r4_m -> d_rs3 e = d_rs3 e').
Proof.
  intros Hc. destruct c; try congruence;
    unfold decode_operands, decode_none, decode_ci_none, decode_cr, decode_cr_mv,
      decode_cr_jalr, decode_cr_jr, decode_ci, decode_ci_sh5, decode_ci_sh6,
      decode_ci_li, decode_ci_lui, decode_ci_lwsp, decode_ci_ldsp, decode_ci_lqsp,
      decode_ci_16sp, decode_css_swsp, decode_css_sdsp, decode_css_sqsp,
      decode_ciw_4spn, decode_cl_lw, decode_cl_ld, decode_cl_lq, decode_cs,
      decode_cs_sw, decode_cs_sd, decode_cs_sq, decode_cb, decode_cb_imm, decode_cb_sh5,
      decode_cb_sh6, decode_cj, decode_cj_jal, decode_r, decode_r_m, decode_r_l,
      decode_r_a, decode_r4_m, decode_r_f, decode_i, decode_i_csr, decode_i_sh5,
      decode_i_sh6, decode_i_sh7, decode_s, decode_sb, decode_u, decode_uj,
      decode_inst_type;
    cbn [set_imm set_rd set_rs1 set_rs2 set_rs3 set_rm set_aq set_rl set_pred set_succ
      d_imm d_rd d_rs1 d_rs2 d_rs3];
    repeat split; intros; first [reflexivity | discriminate].
Qed.

Lemma codec_illegal op : rv_inst_codec op = rv_codec_illegal -> op = rv_op_illegal.
Proof. destruct op; first [reflexivity | discriminate]. Qed.

Lemma decode_inst_equiv F d d' inst : dec_equiv (decode_inst F d inst) (decode_inst F d' inst).
Proof.
  unfold decode_inst, decode_inst_type. cbn [d_op d_codec set_op set_codec].
  set (c := rv_inst_codec _).
  assert (Hop : forall e, d_op (decode_operands c e inst) = d_op e) by (intros; apply (decode_operands_op c e inst)).
  unfold dec_equiv. rewrite !Hop. cbn [d_op set_op set_codec]. split; [reflexivity |]. intros Hn.
  destruct (decode_operands_equiv c (set_codec c (set_op (decode_inst_op F inst) d))
    (set_codec c (set_op (decode_inst_op F inst) d')) inst) as (? & ? & ? & ? & H3).
  { intros E. apply Hn, codec_illegal, E. }
  repeat split; auto. intros Hr. apply H3. unfold reads_rs3 in Hr. fold c in Hr.
  destruct c; first [reflexivity | discriminate].
Qed.

Lemma decomp_not_r4 op :
  reads_rs3 (rv_inst_decomp_rv64 op) = false /\ reads_rs3 (rv_inst_decomp_rv32 op) = false.
Proof. destruct op; split; reflexivity. Qed.

Lemma decompress_equiv (decomp : rv_op -> rv_op) d d' :
  (forall op, reads_rs3 (decomp op) = false) -> decomp rv_op_illegal = rv_op_illegal ->
  dec_equiv d d' -> dec_equiv (decompress (decomp (d_op d)) d) (decompress (decomp (d_op d')) d').
Proof.
  intros H3 H0 [E H]. rewrite <- E. unfold decompress. destruct (decide _) as [| Hn]; [split; assumption |].
  split; [reflexivity |]. cbn [d_op set_op set_codec]. intros _.
  destruct H as (? & ? & ? & ? & _); [congruence |].
  repeat split; auto. rewrite H3. discriminate.
Qed.

Lemma decode_inst_rv64_equiv d d' inst : dec_equiv (decode_inst_rv64 d inst) (decode_inst_rv64 d' inst).
Proof.
  apply decompress_equiv; [intros; apply decomp_not_r4 | reflexivity | apply decode_inst_equiv].
Qed.

Lemma decode_inst_rv32_equiv d d' inst : dec_equiv (decode_inst_rv32 d inst) (decode_inst_rv32 d' inst).
Proof.
  apply decompress_equiv; [intros; apply decomp_not_r4 | reflexivity | apply decode_inst_equiv].
Qed.
