(* ===== verification/Runloop.v ===== *)
(** * Runloop: the processor stepper of [emu/processor-runloop.h], with its
    instruction cache.

    The processor underneath is an interface, [Cpu]: the instruction fetch of
    its MMU, its decoder, the interpreter, the privileged instructions, the
    interrupt service routine and the trap handler.  The cached stepper is
    shown to do what a stepper that decodes every instruction does, and to
    retire exactly the instructions it is asked for. *)

From Stdlib Require Import ZArith Lia Bool List.
From stdpp Require Import base numbers list.
From S2P Require Import Prelude Decode Codec Machine InterpSound InstEquiv.

(** The members of [processor_runloop]'s template parameter [P]. *)
Class Cpu (P : Type) := {
  cpu_xlen : Z;
  cpu_fetch : Z -> M P (Z * Z);            (* [mmu.inst_fetch(proc, pc, pc_offset)] *)
  cpu_decode : decode -> Z -> decode;      (* [inst_decode(dec, inst)] *)
  cpu_exec : decode -> Z -> M P Z;         (* [inst_exec(dec, pc_offset)] *)
  cpu_priv : decode -> Z -> M P Z;         (* [inst_priv(dec, pc_offset)] *)
  cpu_isr : M P unit;                      (* [isr()] *)
  cpu_trap : decode -> Z -> M P unit;      (* [trap(dec, cause)] *)
  cpu_cycle_clock : P -> Z * P }.          (* the host's clock *)

(** What the instruction cache asks of the processor. *)
Class CpuLaws (P : Type) `{Cpu P} : Prop := {
  cpu_decode_equiv : forall d d' inst, dec_equiv (cpu_decode d inst) (cpu_decode d' inst);
  #[global] cpu_exec_proper :: Proper (dec_equiv ==> eq ==> eq) cpu_exec;
  #[global] cpu_priv_proper :: Proper (dec_equiv ==> eq ==> eq) cpu_priv;
  #[global] cpu_trap_proper :: Proper (dec_equiv ==> eq ==> eq) cpu_trap }.

Definition inst_cache_size : Z := 8191.

(** [rv_inst_cache_ent]. *)
Record rv_inst_cache_ent := mkEnt { ent_inst : Z; ent_dec : decode }.

(** [processor_runloop]: the processor, the array [inst_cache] (its index is
    below [inst_cache_size]) and [step]'s local [dec]. *)
Record runloop (P : Type) := mkRunloop {
  rl_proc : P; inst_cache : Z -> rv_inst_cache_ent; rl_dec : decode }.
Arguments mkRunloop {P}.
Arguments rl_proc {P}.
Arguments inst_cache {P}.
Arguments rl_dec {P}.

Inductive exit_cause := exit_cause_continue | exit_cause_cli | exit_cause_poweroff.

(** The internal causes of [processor_base]. *)
Definition internal_cause_reset : Z := 0x1000.
Definition internal_cause_cli : Z := 0x1001.
Definition internal_cause_poweroff : Z := 0x1002.
Definition internal_cause_fatal : Z := 0x1003.
Definition internal_cause_hotspot : Z := 0x1004.

Definition rv_cause_illegal_instruction : Z := 2.

(** How [step] ends: a returned [exit_cause], undefined behaviour, or the
    fuel of the definition was not enough. *)
Inductive outcome (P : Type) :=
  | Exit (e : exit_cause) (s : runloop P)
  | Stuck
  | OutOfFuel.
Arguments Exit {P}.
Arguments Stuck {P}.
Arguments OutOfFuel {P}.

Section Step.
Context {P : Type} `{Processor P} `{!Cpu P}.

Abbreviation ux := (wrap cpu_xlen).
Abbreviation illegal := (ux (-1)).

(** [processor_runloop()]: [inst_cache()] zeroes every entry. *)
Definition runloop_init (p : P) : runloop P :=
  mkRunloop p (fun _ => mkEnt 0 decode_init) decode_init.

(** A computation of the processor, and the two assignments to [dec] and
    to the cache. *)
Definition on_proc {A} (m : M P A) : M (runloop P) A := fun s =>
  match m (rl_proc s) with
  | Ok a p => Ok a (mkRunloop p (inst_cache s) (rl_dec s))
  | Raise c p => Raise c (mkRunloop p (inst_cache s) (rl_dec s))
  | Undefined => Undefined
  end.

Definition set_dec (d : decode) : M (runloop P) unit := fun s =>
  Ok tt (mkRunloop (rl_proc s) (inst_cache s) d).

Definition set_cache (key : Z) (e : rv_inst_cache_ent) : M (runloop P) unit := fun s =>
  Ok tt (mkRunloop (rl_proc s) (fun k => if k =? key then e else inst_cache s k) (rl_dec s)).

Definition inst_cache_key (inst : Z) : Z := inst mod inst_cache_size.

(** The lookup in the instruction cache, decoding on a miss. *)
Definition cached_decode (inst : Z) : M (runloop P) decode := fun s =>
  let e := inst_cache s (inst_cache_key inst) in
  (if ent_inst e =? inst then set_dec (ent_dec e) ;; ret (ent_dec e)
   else
     let d := cpu_decode (rl_dec s) inst in
     set_dec d ;; set_cache (inst_cache_key inst) (mkEnt inst d) ;; ret d) s.

(** [P::pc += new_offset; P::instret++]. *)
Definition retire (new_offset : Z) : M P unit :=
  modify (fun b => set_instret (set_pc b (ux (pc b + new_offset))) (u64 (instret b + 1))).

(** [inst_exec], then [inst_priv], then the illegal instruction trap. *)
Definition execute (d : decode) (pc_offset : Z) : M P unit :=
  new_offset <- cpu_exec d pc_offset ;;
  if negb (new_offset =? illegal) then retire new_offset
  else
    new_offset <- cpu_priv d pc_offset ;;
    if negb (new_offset =? illegal) then retire new_offset
    else a <- gets pc ;; raise rv_cause_illegal_instruction a.

(** The body of the [while] loop after the breakpoint test. *)
Definition step_inst : M (runloop P) unit :=
  a <- on_proc (gets pc) ;;
  f <- on_proc (cpu_fetch a) ;;
  d <- cached_decode f.1 ;;
  on_proc (execute d f.2).

(** From [setjmp] on; [resume] is the cause [setjmp] returned with, less
    its offset, [None] the first time.  One unit of fuel is one turn of the
    loop or one return to [setjmp]. *)
Section Loop.
Context (body : M (runloop P) unit) (inststop : Z).

Definition rl_base (s : runloop P) : proc := base (rl_proc s).

Fixpoint step_loop (fuel : nat) (resume : option Z) (s : runloop P) : outcome P :=
  match fuel with
  | O => OutOfFuel
  | S fuel =>
      match resume with
      | Some cause =>
          if cause =? internal_cause_cli then Exit exit_cause_cli s
          else if cause =? internal_cause_fatal then Exit exit_cause_poweroff s
          else if cause =? internal_cause_poweroff then Exit exit_cause_poweroff s
          else
            match on_proc (cpu_trap (rl_dec s) cause) s with
            | Ok _ s => if negb (running (rl_base s)) then Exit exit_cause_poweroff s
                        else step_loop fuel None s
            | Raise c s => step_loop fuel (Some c) s
            | Undefined => Stuck
            end
      | None =>
          if instret (rl_base s) =? inststop then Exit exit_cause_continue s
          else if (pc (rl_base s) =? breakpoint (rl_base s)) &&
                  negb (breakpoint (rl_base s) =? 0)
          then Exit exit_cause_cli s
          else
            match body s with
            | Ok _ s => step_loop fuel None s
            | Raise c s => step_loop fuel (Some c) s
            | Undefined => Stuck
            end
      end
  end.
End Loop.

(** [P::time = cpu_cycle_clock()]. *)
Definition read_clock : M P unit := fun p =>
  let '(t, p) := cpu_cycle_clock p in modify (fun b => set_time b t) p.

(** [step(count)].  [isr] runs before [setjmp]: a [longjmp] out of it goes
    to a frame that has returned. *)
Definition step_with (body : M (runloop P) unit) (fuel : nat) (count : Z) (s : runloop P) :
    outcome P :=
  let inststop := ux (instret (rl_base s) + count) in
  match on_proc (read_clock ;; cpu_isr)
          (mkRunloop (rl_proc s) (inst_cache s) decode_init) with
  | Ok _ s => step_loop body inststop fuel None s
  | _ => Stuck
  end.

Definition step : nat -> Z -> runloop P -> outcome P := step_with step_inst.
End Step.

(** ** The instruction cache is transparent *)

(** The stepper without a cache: it decodes every instruction afresh, but for
    the word 0.  The zeroed cache has an entry for that word that was never
    decoded, and so it is illegal, until a word other than 0 has been fetched
    that is kept in the same entry, a multiple of 8191; from then on it is
    decoded too.  Entry 0 of the reference's own cache only remembers whether
    that has happened. *)
Section Reference.
Context {P : Type} `{Processor P} `{!Cpu P}.

Definition untouched (s : runloop P) : bool := ent_inst (inst_cache s 0) =? 0.

Definition plain_decode (inst : Z) : M (runloop P) decode := fun s =>
  let d := if (inst =? 0) && untouched s then decode_init else cpu_decode decode_init inst in
  (set_dec d ;;
   (if negb (inst =? 0) && (inst mod inst_cache_size =? 0) then set_cache 0 (mkEnt inst d) else ret tt) ;;
   ret d) s.

Definition plain_step_inst : M (runloop P) unit :=
  a <- on_proc (gets pc) ;;
  f <- on_proc (cpu_fetch a) ;;
  d <- plain_decode f.1 ;;
  on_proc (execute d f.2).

Definition plain_step : nat -> Z -> runloop P -> outcome P := step_with plain_step_inst.
End Reference.

Section Transparent.
Context {P : Type} `{Processor P} `{!Cpu P} `{!CpuLaws P}.

(** An entry in use holds its instruction's decoding; the entry of the word 0
    is as the reference [s'] remembers. *)
Definition cache_ok (c : Z -> rv_inst_cache_ent) (s' : runloop P) : Prop :=
  (forall k, ent_inst (c k) <> 0 -> dec_equiv (ent_dec (c k)) (cpu_decode decode_init (ent_inst (c k)))) /\
  (if untouched s' then ent_inst (c 0) = 0 /\ dec_equiv (ent_dec (c 0)) decode_init
   else ent_inst (c 0) = 0 -> dec_equiv (ent_dec (c 0)) (cpu_decode decode_init 0)).

(** The cached state against the plain one. *)
Definition rl_sim (s s' : runloop P) : Prop :=
  rl_proc s = rl_proc s' /\ dec_equiv (rl_dec s) (rl_dec s') /\ cache_ok (inst_cache s) s'.

(** The cached computation does what the plain one promises. *)
Inductive res_sim {A} (R : A -> A -> Prop) :
    res (runloop P) A -> res (runloop P) A -> Prop :=
  | sim_ok a a' s s' : R a a' -> rl_sim s s' -> res_sim R (Ok a s) (Ok a' s')
  | sim_raise c s s' : rl_sim s s' -> res_sim R (Raise c s) (Raise c s')
  | sim_undefined : res_sim R Undefined Undefined.

Definition m_sim {A} (R : A -> A -> Prop) (m m' : M (runloop P) A) : Prop :=
  forall s s', rl_sim s s' -> res_sim R (m s) (m' s').

Lemma m_sim_bind {A B} (R : A -> A -> Prop) (Q : B -> B -> Prop) m m' f f' :
  m_sim R m m' -> (forall a a', R a a' -> m_sim Q (f a) (f' a')) ->
  m_sim Q (bind m f) (bind m' f').
Proof using.
  intros Hm Hf s s' Hs. unfold bind. destruct (Hm s s' Hs) as [a a' t t' Ha Ht | c t t' Ht |].
  - apply Hf; assumption.
  - constructor; assumption.
  - constructor.
Qed.

Lemma m_sim_on_proc {A} (m : M P A) : m_sim eq (on_proc m) (on_proc m).
Proof using.
  intros s s' (E & Hd & Hc). unfold on_proc. rewrite <- E.
  destruct (m (rl_proc s)); [apply sim_ok; [reflexivity |] | apply sim_raise | apply sim_undefined];
    (split; [reflexivity | split; assumption]).
Qed.

Lemma m_sim_decode inst : m_sim dec_equiv (cached_decode inst) (plain_decode inst).
Proof using CpuLaws0.
  intros s s' (E & Hd & Hc & Hz). unfold cached_decode, plain_decode, inst_cache_key. set (k := inst mod inst_cache_size).
  assert (Hdec := cpu_decode_equiv (rl_dec s) decode_init inst).
  destruct (Z.eqb_spec inst 0) as [E0 | E0].
  - subst inst. change k with 0. clear k. destruct (untouched s') eqn:Eu; cbn [andb negb].
    + destruct Hz as [Hz1 Hz2]. rewrite Hz1. cbn. constructor; [assumption |]. split; [assumption |]. split; [assumption |].
      split; [assumption |]. unfold untouched in *. cbn [inst_cache]. rewrite Eu. auto.
    + destruct (Z.eqb_spec (ent_inst (inst_cache s 0)) 0) as [Hi | Hi].
      * cbn. constructor; [apply Hz, Hi |]. split; [assumption |]. split; [apply Hz, Hi |]. split; [assumption |].
        unfold untouched in *. cbn [inst_cache]. rewrite Eu. exact Hz.
      * cbn. constructor; [assumption |]. split; [assumption |]. split; [assumption |]. split.
        -- intros j. cbn [inst_cache]. destruct (j =? 0); [intros Hj; contradiction Hj; reflexivity | apply Hc].
        -- unfold untouched in *. cbn [inst_cache]. rewrite Eu. cbn. intros _. exact Hdec.
  - cbn [andb negb]. assert (Hk : k = 0 \/ k <> 0) by lia.
    destruct (Z.eqb_spec (ent_inst (inst_cache s k)) inst) as [Hi | Hi].
    + assert (Hh := Hc k ltac:(congruence)). rewrite Hi in Hh. destruct (Z.eqb_spec k 0) as [Ek | Ek]; cbn.
      * constructor; [assumption |]. split; [assumption |]. split; [assumption |]. split; [assumption |].
        unfold untouched. cbn. destruct (Z.eqb_spec inst 0); [contradiction |]. rewrite Ek in Hi. rewrite Hi. contradiction.
      * constructor; [assumption |]. split; [assumption |]. split; [assumption |]. split; assumption.
    + destruct (Z.eqb_spec k 0) as [Ek | Ek]; cbn; (constructor; [assumption |]; split; [assumption |]; split; [assumption |]; split).
      * intros j. cbn [inst_cache]. destruct (j =? k); [intros _; assumption | apply Hc].
      * unfold untouched. cbn. destruct (Z.eqb_spec inst 0); [contradiction |]. rewrite Ek. cbn. contradiction.
      * intros j. cbn [inst_cache]. destruct (j =? k); [intros _; assumption | apply Hc].
      * unfold untouched in *. cbn [inst_cache]. destruct (Z.eqb_spec 0 k); [congruence |]. exact Hz.
Qed.

Lemma execute_equiv d d' off : dec_equiv d d' -> execute d off = execute d' off.
Proof using CpuLaws0. 
  intros E. unfold execute.
  assert (Ee : cpu_exec d off = cpu_exec d' off) by (rewrite E; reflexivity).
  assert (Ep : cpu_priv d off = cpu_priv d' off) by (rewrite E; reflexivity).
  rewrite Ee, Ep. reflexivity.
Qed.

Lemma m_sim_step : m_sim eq step_inst plain_step_inst.
Proof using CpuLaws0.
  unfold step_inst, plain_step_inst.
  apply (m_sim_bind eq); [apply m_sim_on_proc | intros a _ <-].
  apply (m_sim_bind eq); [apply m_sim_on_proc | intros f _ <-].
  apply (m_sim_bind dec_equiv); [apply m_sim_decode | intros d d' Hd].
  rewrite (execute_equiv d d') by assumption. apply m_sim_on_proc.
Qed.

(** What the plain stepper ends with, the cached one ends with too. *)
Inductive outcome_sim : outcome P -> outcome P -> Prop :=
  | osim_exit e s s' : rl_sim s s' -> outcome_sim (Exit e s) (Exit e s')
  | osim_fuel : outcome_sim OutOfFuel OutOfFuel
  | osim_stuck : outcome_sim Stuck Stuck.

Lemma step_loop_sim body body' stop fuel resume s s' :
  m_sim eq body body' -> rl_sim s s' ->
  outcome_sim (step_loop body stop fuel resume s) (step_loop body' stop fuel resume s').
Proof using CpuLaws0.
  intros Hb. revert resume s s'. induction fuel as [| fuel IH]; intros resume s s' Hs;
    [constructor |].
  destruct resume as [c |]; cbn [step_loop].
  - repeat (destruct (c =? _); [constructor; assumption |]).
    assert (Et : cpu_trap (rl_dec s) c = cpu_trap (rl_dec s') c)
      by (destruct Hs as (_ & Hd & _); rewrite Hd; reflexivity).
    rewrite Et. assert (Ht := m_sim_on_proc (cpu_trap (rl_dec s') c) s s' Hs).
    destruct Ht as [a a' t t' _ Ht | c' t t' Ht |]; [| apply IH; assumption | constructor].
    unfold rl_base. destruct Ht as (E & Ht). rewrite <- E.
    destruct (negb _); [constructor | apply IH]; split; assumption.
  - unfold rl_base in *. assert (E := proj1 Hs). rewrite <- E.
    destruct (_ =? stop); [constructor; assumption |].
    destruct (_ && _); [constructor; assumption |].
    destruct (Hb s s' Hs) as [a a' t t' _ Ht | c' t t' Ht |];
      [apply IH; assumption | apply IH; assumption | constructor].
Qed.

Lemma step_sim fuel count s s' :
  rl_sim s s' -> outcome_sim (step fuel count s) (plain_step fuel count s').
Proof using CpuLaws0.
  intros (E & Hd & Hc). unfold step, plain_step, step_with, rl_base. rewrite <- E.
  destruct (m_sim_on_proc (read_clock ;; cpu_isr)
    (mkRunloop (rl_proc s) (inst_cache s) decode_init)
    (mkRunloop (rl_proc s) (inst_cache s') decode_init))
    as [a a' t t' _ Ht | c t t' Ht |]; [split; [reflexivity | split; [reflexivity | assumption]] | | constructor | constructor].
  apply step_loop_sim; [apply m_sim_step | assumption].
Qed.

Lemma runloop_init_sim p : rl_sim (runloop_init p) (runloop_init p).
Proof using.
  split; [reflexivity | split; [reflexivity |]]. split; [intros k Hk; exfalso; apply Hk; reflexivity |]. split; reflexivity.
Qed.
End Transparent.

(** ** What a turn of the loop preserves *)

(** A processor between two instructions. *)
Definition hart_ok (xlen : Z) (b : proc) : Prop :=
  proc_ok xlen b /\ Z.even (pc b) = true /\ exceptions b = true.

(** A handler that takes a well-formed processor to one with the same
    instruction count. *)
Definition keeps_hart {P} `{Processor P} (xlen : Z) (m : M P unit) : Prop :=
  forall p, hart_ok xlen (base p) ->
  match m p with
  | Ok _ p' | Raise _ p' => hart_ok xlen (base p') /\ instret (base p') = instret (base p)
  | Undefined => True
  end.

(** What the loop asks of the processor's operations: each keeps a well-formed
    processor and its [pc] and [instret], and offsets are even. *)
Class CpuSafe (P : Type) `{Processor P} `{!Cpu P} : Prop := {
  cpu_xlen_ok : cpu_xlen = 32 \/ cpu_xlen = 64;
  decode_safe : forall d inst, jump_even (cpu_decode d inst);
  fetch_safe : forall pc0 n0 a, safe (step_inv cpu_xlen pc0 n0) (cpu_fetch a)
    (fun f => 0 <= f.2 < 2 ^ cpu_xlen /\ Z.even f.2 = true);
  exec_safe : forall pc0 n0 d off,
    0 <= off < 2 ^ cpu_xlen -> Z.even off = true -> jump_even d ->
    safe (step_inv cpu_xlen pc0 n0) (cpu_exec d off)
      (fun v => 0 <= v < 2 ^ cpu_xlen /\ (Z.even v = true \/ v = wrap cpu_xlen (-1)));
  priv_safe : forall pc0 n0 d off,
    0 <= off < 2 ^ cpu_xlen -> Z.even off = true ->
    safe (step_inv cpu_xlen pc0 n0) (cpu_priv d off)
      (fun v => 0 <= v < 2 ^ cpu_xlen /\ (Z.even v = true \/ v = wrap cpu_xlen (-1)));
  trap_safe : forall d cause, keeps_hart cpu_xlen (cpu_trap d cause);
  isr_safe : keeps_hart cpu_xlen (read_clock ;; cpu_isr) }.

Section Retire.
Context {P : Type} `{ProcessorLaws P} `{!Cpu P} `{!CpuSafe P}.

Abbreviation hart_ok := (hart_ok cpu_xlen).

Definition cache_even (c : Z -> rv_inst_cache_ent) : Prop := forall k, jump_even (ent_dec (c k)).

Definition rl_ok (s : runloop P) : Prop := hart_ok (rl_base s) /\ cache_even (inst_cache s).

Lemma runloop_init_ok p : hart_ok (base p) -> rl_ok (runloop_init p).
Proof using. intros Hp. split; [exact Hp |]. intros k Hk. discriminate. Qed.

Lemma step_inv_hart pc0 n0 b :
  Z.even pc0 = true -> step_inv cpu_xlen pc0 n0 b -> hart_ok b /\ pc b = pc0 /\ instret b = n0.
Proof using. intros Hpc (Hb & E1 & E2 & E3). unfold Runloop.hart_ok. rewrite E1. auto. Qed.

Lemma retire_ok pc0 n0 off p :
  Z.even pc0 = true -> Z.even off = true -> step_inv cpu_xlen pc0 n0 (base p) ->
  exists p', retire off p = Ok tt p' /\ hart_ok (base p') /\ instret (base p') = u64 (n0 + 1).
Proof using H0 CpuSafe0.
  intros Hpc Hoff (Hb & E1 & E2 & E3). eexists. split; [reflexivity |]. rewrite base_set.
  assert (Hx : 0 < cpu_xlen) by (destruct cpu_xlen_ok; lia).
  split; [| cbn; congruence]. split; [| split].
  - destruct Hb. split; cbn; try assumption. apply wrap_range; assumption.
  - cbn. rewrite wrap_even, Z.even_add, E1, Hpc, Hoff by assumption. reflexivity.
  - exact E3.
Qed.

Lemma execute_turn pc0 n0 d off p :
  Z.even pc0 = true -> 0 <= off < 2 ^ cpu_xlen -> Z.even off = true -> jump_even d ->
  step_inv cpu_xlen pc0 n0 (base p) ->
  match execute d off p with
  | Ok _ p' => hart_ok (base p') /\ instret (base p') = u64 (n0 + 1)
  | Raise _ p' => hart_ok (base p') /\ pc (base p') = pc0 /\ instret (base p') = n0
  | Undefined => True
  end.
Proof using H0 CpuSafe0.
  intros Hpc Ho He Hj Hp. unfold execute, bind.
  pose proof (exec_safe pc0 n0 d off Ho He Hj p Hp) as Hx.
  destruct (cpu_exec d off p) as [v p1 | c p1 |];
    [destruct Hx as [Hp1 [Hv Hv']] | eapply step_inv_hart; eassumption | exact Logic.I].
  destruct (Z.eqb_spec v (wrap cpu_xlen (-1))) as [Ev | Ev]; cbn [negb].
  2: { destruct Hv' as [Hv' |]; [| congruence].
       destruct (retire_ok pc0 n0 v p1 Hpc Hv' Hp1) as (p2 & -> & Hp2). exact Hp2. }
  pose proof (priv_safe pc0 n0 d off Ho He p1 Hp1) as Hx.
  destruct (cpu_priv d off p1) as [v2 p2 | c p2 |];
    [destruct Hx as [Hp2 [Hv2 Hv2']] | eapply step_inv_hart; eassumption | exact Logic.I].
  destruct (Z.eqb_spec v2 (wrap cpu_xlen (-1))) as [Ev2 | Ev2]; cbn [negb].
  2: { destruct Hv2' as [Hv2' |]; [| congruence].
       destruct (retire_ok pc0 n0 v2 p2 Hpc Hv2' Hp2) as (p3 & -> & Hp3). exact Hp3. }
  unfold raise, gets, modify, bind. rewrite !base_set.
  destruct Hp2 as (Hb2 & E1 & E2 & E3). cbn [exceptions set_badaddr]. rewrite E3. rewrite base_set.
  eapply step_inv_hart; [exact Hpc |]. split; [destruct Hb2; split; assumption |]. auto.
Qed.

Lemma cached_decode_ok inst s :
  cache_even (inst_cache s) ->
  exists d s', cached_decode inst s = Ok d s' /\ rl_proc s' = rl_proc s /\
    jump_even d /\ cache_even (inst_cache s').
Proof using CpuSafe0.
  intros Hc. unfold cached_decode. destruct (_ =? inst).
  - do 2 eexists. split; [reflexivity |]. auto.
  - do 2 eexists. split; [reflexivity |]. split; [reflexivity |]. split; [apply decode_safe |].
    intros k. cbn [inst_cache]. destruct (k =? _); [apply decode_safe | apply Hc].
Qed.

(** One instruction: it retires and is counted, or it traps and [pc] and
    [instret] stay. *)
Lemma step_inst_turn s :
  rl_ok s ->
  match step_inst s with
  | Ok _ s' => rl_ok s' /\ instret (rl_base s') = u64 (instret (rl_base s) + 1)
  | Raise _ s' => rl_ok s' /\ pc (rl_base s') = pc (rl_base s) /\
                  instret (rl_base s') = instret (rl_base s)
  | Undefined => True
  end.
Proof using H0 CpuSafe0.
  intros [(Hb & Hpc & Hex) Hc]. unfold rl_base in *. unfold step_inst, bind, on_proc at 1. cbn [gets].
  assert (Hi : step_inv cpu_xlen (pc (base (rl_proc s))) (instret (base (rl_proc s)))
    (base (rl_proc s))) by (split; auto).
  unfold on_proc at 1. cbn [rl_proc inst_cache rl_dec].
  pose proof (fetch_safe _ _ (pc (base (rl_proc s))) _ Hi) as Hf.
  destruct (cpu_fetch (pc (base (rl_proc s))) (rl_proc s)) as [f p1 | c p1 |];
    [destruct Hf as [Hp1 [Hf1 Hf2]] | split; [split |]; cbn; [| assumption |];
       eapply step_inv_hart; eassumption | exact Logic.I].
  set (s1 := mkRunloop p1 (inst_cache s) (rl_dec s)).
  destruct (cached_decode_ok (f.1) s1 Hc) as (d & s2 & -> & E2 & Hd & Hc2).
  unfold on_proc. rewrite E2. cbn [rl_proc s1].
  pose proof (execute_turn _ _ d f.2 p1 Hpc Hf1 Hf2 Hd Hp1) as Hx.
  destruct (execute d f.2 p1) as [[] p2 | c p2 |]; cbn; [| | exact Logic.I];
    destruct Hx as [Hx1 Hx2]; (split; [split; assumption | exact Hx2]).
Qed.

Lemma trap_turn d c s :
  rl_ok s ->
  match on_proc (cpu_trap d c) s with
  | Ok _ s' | Raise _ s' => rl_ok s' /\ instret (rl_base s') = instret (rl_base s)
  | Undefined => True
  end.
Proof using CpuSafe0.
  intros [Hb Hc]. unfold on_proc. pose proof (trap_safe d c (rl_proc s) Hb) as Ht.
  destruct (cpu_trap d c (rl_proc s)); cbn; [| | exact Logic.I];
    destruct Ht; (split; [split; assumption | assumption]).
Qed.

(** [step] keeps the processor well-formed however it ends, and it ends
    with [exit_cause_continue] only when the instructions are done. *)
Lemma step_loop_ok stop fuel resume s e s' :
  rl_ok s -> step_loop step_inst stop fuel resume s = Exit e s' ->
  rl_ok s' /\ (e = exit_cause_continue -> instret (rl_base s') = stop).
Proof using H0 CpuSafe0.
  revert resume s. induction fuel as [| fuel IH]; intros resume s Hs; [discriminate |].
  destruct resume as [c |]; cbn [step_loop].
  - repeat (destruct (c =? _); [intros [= <- <-]; split; [assumption | discriminate] |]).
    pose proof (trap_turn (rl_dec s) c s Hs) as Ht.
    destruct (on_proc _ s) as [a t | c' t |]; [| apply IH, Ht | discriminate].
    destruct (negb _); [| apply IH, Ht]. intros [= <- <-]. split; [apply Ht | discriminate].
  - destruct (Z.eqb_spec (instret (rl_base s)) stop); [intros [= <- <-]; auto |].
    destruct (_ && _); [intros [= <- <-]; split; [assumption | discriminate] |].
    pose proof (step_inst_turn s Hs) as Ht.
    destruct (step_inst s) as [a t | c' t |]; [apply IH, Ht | apply IH, Ht | discriminate].
Qed.

Lemma step_ok fuel count s e s' :
  rl_ok s -> step fuel count s = Exit e s' ->
  rl_ok s' /\ (e = exit_cause_continue ->
               instret (rl_base s') = wrap cpu_xlen (instret (rl_base s) + count)).
Proof using H0 CpuSafe0.
  intros [Hb Hc]. unfold step, step_with, on_proc. cbn [rl_proc].
  pose proof (isr_safe (rl_proc s) Hb) as Hi.
  destruct ((read_clock ;; cpu_isr) (rl_proc s)) as [a p | c p |]; [| discriminate ..].
  apply step_loop_ok. split; [apply Hi | exact Hc].
Qed.

(** [n] instructions, when none of them traps or is at the breakpoint. *)
Fixpoint turns (n : nat) (s : runloop P) : option (runloop P) :=
  match n with
  | O => Some s
  | S n =>
      if (pc (rl_base s) =? breakpoint (rl_base s)) && negb (breakpoint (rl_base s) =? 0) then None
      else match step_inst s with Ok _ s' => turns n s' | _ => None end
  end.

(** The loop does them and stops. *)
Lemma step_loop_retires stop n s s' :
  rl_ok s -> turns n s = Some s' -> stop = u64 (instret (rl_base s) + Z.of_nat n) ->
  0 <= instret (rl_base s) < 2 ^ 64 -> Z.of_nat n < 2 ^ 64 ->
  step_loop step_inst stop (S n) None s = Exit exit_cause_continue s' /\
  instret (rl_base s') = stop.
Proof using H0 CpuSafe0.
  revert s. induction n as [| n IH]; intros s Hok Ht Hstop Hr Hn.
  - rewrite Z.add_0_r, wrap_small in Hstop by assumption. subst stop. injection Ht as <-.
    cbn [step_loop]. rewrite Z.eqb_refl. auto.
  - cbn [turns] in Ht. destruct (_ && _) eqn:Hbp; [discriminate |].
    pose proof (step_inst_turn s Hok) as Hs.
    destruct (step_inst s) as [a s1 | |] eqn:Es; [| discriminate ..]. destruct Hs as [Hs1 Hi].
    destruct (IH s1 Hs1 Ht) as (El & E); [| | lia |].
    { rewrite Hi, Hstop. unfold wrap. rewrite Zplus_mod_idemp_l. f_equal. lia. }
    { rewrite Hi. apply wrap_range. lia. }
    split; [| assumption]. rewrite <- El. cbn [step_loop].
    replace (instret (rl_base s) =? stop) with false; [rewrite Hbp, Es; reflexivity |].
    symmetry. apply Z.eqb_neq. intros E'. rewrite Hstop in E'.
    unfold wrap in E'. pose proof (Z.div_mod (instret (rl_base s) + Z.of_nat (S n)) (2 ^ 64)).
    lia.
Qed.

(** [step] does the instructions it is asked for, when none of them traps. *)
Lemma step_retires n s s1 s' :
  rl_ok s -> on_proc (read_clock ;; cpu_isr) (mkRunloop (rl_proc s) (inst_cache s) decode_init) = Ok tt s1 ->
  turns n s1 = Some s' ->
  wrap cpu_xlen (instret (rl_base s) + Z.of_nat n) = u64 (instret (rl_base s) + Z.of_nat n) ->
  0 <= instret (rl_base s) < 2 ^ 64 -> Z.of_nat n < 2 ^ 64 ->
  step (S n) (Z.of_nat n) s = Exit exit_cause_continue s' /\
  instret (rl_base s') = u64 (instret (rl_base s) + Z.of_nat n).
Proof using H0 CpuSafe0.
  intros [Hb Hc] Hi Ht Hw Hr Hn. unfold step, step_with. rewrite Hi.
  unfold on_proc in Hi. cbn [rl_proc inst_cache] in Hi.
  pose proof (isr_safe (rl_proc s) Hb) as Hs.
  destruct ((read_clock ;; cpu_isr) (rl_proc s)) as [a p | |]; try discriminate.
  destruct a. injection Hi as <-. destruct Hs as [Hs1 Hs2].
  rewrite Hw. apply step_loop_retires; try assumption; unfold rl_base; cbn [rl_proc];
    [split; assumption | rewrite Hs2; reflexivity | rewrite Hs2; exact Hr].
Qed.

(** On RV32 the bound is a 32-bit number and the count a 64-bit one: once
    the count has passed 2^32 the loop does not stop for it. *)
Lemma step_loop_rv32_overrun stop fuel resume s s' :
  stop < 2 ^ 32 -> rl_ok s -> 2 ^ 32 <= instret (rl_base s) ->
  instret (rl_base s) + Z.of_nat fuel < 2 ^ 64 ->
  step_loop step_inst stop fuel resume s <> Exit exit_cause_continue s'.
Proof using H0 CpuSafe0.
  intros Hstop. revert resume s. induction fuel as [| fuel IH]; intros resume s Hs Hge Hf; [discriminate |].
  destruct resume as [c |]; cbn [step_loop].
  - repeat (destruct (c =? _); [discriminate |]).
    pose proof (trap_turn (rl_dec s) c s Hs) as Ht.
    destruct (on_proc _ s) as [a t | c' t |]; [| apply IH; [apply Ht | lia ..] | discriminate].
    destruct (negb _); [discriminate | apply IH; [apply Ht | lia ..]].
  - destruct (Z.eqb_spec (instret (rl_base s)) stop); [lia |].
    destruct (_ && _); [discriminate |].
    pose proof (step_inst_turn s Hs) as Ht.
    destruct (step_inst s) as [a t | c' t |]; [| | discriminate].
    + destruct Ht as [Ht E]. rewrite wrap_small in E by lia. apply IH; [assumption | lia ..].
    + destruct Ht as (Ht & _ & E). apply IH; [assumption | lia ..].
Qed.
End Retire.
