(* ===== verification/Model.v ===== *)
(** * Model: the processor models of [emu/processor-model.h]: a decoder and an
    interpreter for a base ISA and a set of extensions. *)

From Stdlib Require Import ZArith Lia Bool List.
From stdpp Require Import base numbers list.
From S2P Require Import Prelude Operand Meta Decode Codec CodecRound Machine Fpu Interp InterpSound InstEquiv.

(** The template arguments a model passes to [decode_inst] and to
    [exec_inst_rv32] or [exec_inst_rv64]. *)
Record model := mkModel { m_xlen : Z; m_isa : isa }.

(** [RV_32]/[RV_64] with [RV_I], [RV_IMA], [RV_IMAC], [RV_IMAFD], [RV_IMAFDC]. *)
Definition RV_I (rv32 rv64 : bool) : isa :=
  mkIsa rv32 rv64 false true false false true false false false false.
Definition RV_IMA (rv32 rv64 : bool) : isa :=
  mkIsa rv32 rv64 false true true true true false false false false.
Definition RV_IMAC (rv32 rv64 : bool) : isa :=
  mkIsa rv32 rv64 false true true true true false false false true.
Definition RV_IMAFD (rv32 rv64 : bool) : isa :=
  mkIsa rv32 rv64 false true true true true true true false false.
Definition RV_IMAFDC (rv32 rv64 : bool) : isa :=
  mkIsa rv32 rv64 false true true true true true true false true.

Definition processor_rv32i_model : model := mkModel 32 (RV_I true false).
Definition processor_rv32ima_model : model := mkModel 32 (RV_IMA true false).
Definition processor_rv32imac_model : model := mkModel 32 (RV_IMAC true false).
Definition processor_rv32imafd_model : model := mkModel 32 (RV_IMAFD true false).
Definition processor_rv32imafdc_model : model := mkModel 32 (RV_IMAFDC true false).
Definition processor_rv64i_model : model := mkModel 64 (RV_I false true).
Definition processor_rv64ima_model : model := mkModel 64 (RV_IMA false true).
Definition processor_rv64imac_model : model := mkModel 64 (RV_IMAC false true).
Definition processor_rv64imafd_model : model := mkModel 64 (RV_IMAFD false true).
Definition processor_rv64imafdc_model : model := mkModel 64 (RV_IMAFDC false true).

Definition model_ok (m : model) : Prop := m_xlen m = 32 \/ m_xlen m = 64.

(** [inst_decode]: the models with C decompress what they decoded. *)
Definition inst_decode (m : model) (d : decode) (inst : Z) : decode :=
  let d := decode_inst (m_isa m) d inst in
  if rvc (m_isa m)
  then (if m_xlen m =? 32 then decompress_inst_rv32 d else decompress_inst_rv64 d)
  else d.

(** [inst_exec]. *)
Definition inst_exec {P} `{Processor P} `{MMU P} (fpu : host_fpu) (m : model) (d : decode)
    (pc_offset : Z) : M P Z :=
  if m_xlen m =? 32 then exec_inst_rv32 fpu (m_isa m) d pc_offset
  else exec_inst_rv64 fpu (m_isa m) d pc_offset.

(** ** The decoder *)
Lemma inst_decode_equiv m d d' inst : dec_equiv (inst_decode m d inst) (inst_decode m d' inst).
Proof.
  unfold inst_decode. pose proof (decode_inst_equiv (m_isa m) d d' inst).
  destruct (rvc (m_isa m)); [| assumption].
  destruct (m_xlen m =? 32); apply decompress_equiv; try assumption; try reflexivity;
    intros op; apply decomp_not_r4.
Qed.

Lemma jump_even_equiv d d' : dec_equiv d d' -> jump_even d -> jump_even d'.
Proof.
  intros [E H] Hd Hj. rewrite <- E in Hj. specialize (Hd Hj).
  destruct H as (<- & _); [| assumption]. intros E0. rewrite E0 in Hj. discriminate.
Qed.

Lemma inst_decode_jump_even m d inst : jump_even (inst_decode m d inst).
Proof.
  apply (jump_even_equiv (inst_decode m decode_init inst)); [apply inst_decode_equiv |].
  unfold jump_even, inst_decode. pose proof (proj1 (decode_inst_fields (m_isa m) inst)) as Eop.
  destruct (rvc (m_isa m)); [destruct (m_xlen m =? 32) |];
    unfold decompress_inst_rv32, decompress_inst_rv64; rewrite ?decompress_op, ?decompress_imm, Eop;
    intros H; apply even_imm, jump_operand_even; try destruct (decide _); rewrite H; simpl;
    rewrite ?orb_true_r; reflexivity.
Qed.

(** ** The interpreter *)
Section Model_exec.
Context {P : Type} `{ProcessorLaws P} `{!MMU P} `{!MMULaws P} (fpu : host_fpu) (m : model).

#[export] Instance inst_exec_proper : Proper (dec_equiv ==> eq ==> eq) (inst_exec (P := P) fpu m).
Proof using.
  intros d d' E off _ <-. unfold inst_exec. destruct (m_xlen m =? 32);
    [apply exec_inst_rv32_equiv | apply exec_inst_rv64_equiv]; exact E.
Qed.

(** An instruction leaves a well-formed processor, with [pc] and [instret]
    as they were; it returns an even offset or the mark of an illegal
    instruction. *)
Lemma inst_exec_safe pc0 n0 d off :
  model_ok m -> 0 <= off < 2 ^ m_xlen m -> Z.even off = true -> jump_even d ->
  safe (step_inv (m_xlen m) pc0 n0) (inst_exec fpu m d off)
    (fun v => 0 <= v < 2 ^ m_xlen m /\ (Z.even v = true \/ v = wrap (m_xlen m) (-1))).
Proof using H0 MMULaws0.
  intros Hm Ho He Hj. unfold inst_exec, exec_inst_rv32, exec_inst_rv64.
  assert (Hw : forall v, v = wrap (m_xlen m) (-1) -> 0 <= v < 2 ^ m_xlen m)
    by (intros v ->; apply wrap_range; destruct Hm; lia).
  destruct (Z.eqb_spec (m_xlen m) 32) as [E | E]; [| destruct Hm as [Hm | Hm]; [congruence |]].
  - rewrite E in *. eapply safe_weaken; [apply dispatch_safe; [lia |] |].
    + apply exec_common_safe; auto.
    + intros v [[? ?] | [Hv _]]; auto.
  - rewrite Hm in *. eapply safe_weaken; [apply dispatch_safe; [lia |] |].
    + apply exec_rv64_safe; auto.
    + intros v [[? ?] | [Hv _]]; auto.
Qed.
End Model_exec.
