(* ===== verification/Csr.v ===== *)
(** * Csr: access to control and status registers, [set_csr] and [get_csr] of
    [emu/processor-impl.h]. *)

From Stdlib Require Import ZArith Lia Bool List.
From stdpp Require Import base numbers list.
From S2P Require Import Prelude Decode Codec Machine.

(** [enum csr_perm] of [asm/codec.h]. *)
Inductive csr_perm := csr_rw | csr_rs | csr_rc.

(** [enum rv_mode], the members the code names. *)
Definition rv_mode_U : Z := 0.
Definition rv_mode_S : Z := 1.
Definition rv_mode_H : Z := 2.
Definition rv_mode_M : Z := 3.

(** A [R &reg]: a register of the processor of a [reg_width]-bit type. *)
Record csr_reg (P : Type) := mkCsr {
  reg_width : Z; reg_get : P -> Z; reg_set : Z -> P -> P }.
Arguments mkCsr {P}.
Arguments reg_width {P}.
Arguments reg_get {P}.
Arguments reg_set {P}.

(** A register of [processor_base]. *)
Definition base_csr {P} `{Processor P} (w : Z) (get : proc -> Z) (set : proc -> Z -> proc) :
    csr_reg P :=
  mkCsr w (fun p => get (base p)) (fun v p => set_base (set (base p) v) p).

(** The value an access leaves in the register: the switch of [set_csr], with
    the conversion to [R] of the assignment. *)
Definition csr_write (w : Z) (op : csr_perm) (reg value write_mask shift : Z) : Z :=
  wrap w
    match op with
    | csr_rw => Z.lor (Z.land reg (Z.lnot (Z.shiftl write_mask shift)))
                      (Z.shiftl (Z.land value write_mask) shift)
    | csr_rs => if value =? 0 then reg else Z.lor reg (Z.shiftl (Z.land value write_mask) shift)
    | csr_rc => if value =? 0 then reg
                else Z.land reg (Z.lnot (Z.shiftl (Z.land value write_mask) shift))
    end.

(** The same for the high half of a 64-bit register, [set_csr_hi]. *)
Definition csr_write_hi (op : csr_perm) (reg value : Z) : Z :=
  u64
    match op with
    | csr_rw => Z.lor (u64 (Z.shiftl value 32)) (Z.land reg 0xffffffff)
    | csr_rs => if value =? 0 then reg else Z.lor reg (u64 (Z.shiftl value 32))
    | csr_rc => if value =? 0 then reg
                else Z.land reg (Z.lor (Z.lnot (u64 (Z.shiftl value 32))) 0xffffffff)
    end.

Section Csr.
Context {P : Type} `{Processor P} (xlen : Z).

Definition csr_mode (csr : Z) : Z := Z.land (Z.shiftr csr 8) 3.
Definition csr_readonly (csr : Z) : bool := negb (Z.land (Z.shiftr csr 12) 1 =? 0).

Definition read_reg (r : csr_reg P) : M P Z := fun p => Ok (reg_get r p) p.
Definition write_reg (r : csr_reg P) (v : Z) : M P unit := fun p => Ok tt (reg_set r v p).

(** [if (dec.rd != rv_ireg_x0) P::ireg[dec.rd] = (mode >= csr_mode) ? v : 0]. *)
Definition csr_result (d : decode) (mode csr v : Z) : M P unit :=
  if d_rd d =? rv_ireg_zero then ret tt
  else put_ireg xlen (d_rd d) (if csr_mode csr <=? mode then v else 0).

Definition set_csr (d : decode) (mode : Z) (op : csr_perm) (csr : Z) (r : csr_reg P)
    (value write_mask read_mask shift : Z) : M P unit :=
  reg <- read_reg r ;;
  csr_result d mode csr (Z.land (Z.shiftr reg shift) read_mask) ;;
  if csr_readonly csr then ret tt
  else write_reg r (csr_write (reg_width r) op reg value write_mask shift).

Definition get_csr (d : decode) (mode csr : Z) (r : csr_reg P) : M P unit :=
  reg <- read_reg r ;; csr_result d mode csr reg.

Definition set_csr_hi (d : decode) (mode : Z) (op : csr_perm) (csr : Z) (r : csr_reg P)
    (value : Z) : M P unit :=
  reg <- read_reg r ;;
  csr_result d mode csr (s32 (u32 (Z.shiftr reg 32))) ;;
  if csr_readonly csr then ret tt else write_reg r (csr_write_hi op reg value).

Definition get_csr_hi (d : decode) (mode csr : Z) (r : csr_reg P) : M P unit :=
  reg <- read_reg r ;; csr_result d mode csr (s32 (u32 (Z.shiftr reg 32))).
End Csr.

(** ** What an access does to the register, bit by bit *)

(** Bit [i] of the register after the access: inside the field
    [write_mask << shift] the operation's result, outside it the old bit. *)
Definition csr_bit (op : csr_perm) (old arg : bool) : bool :=
  match op with csr_rw => arg | csr_rs => old || arg | csr_rc => old && negb arg end.

Lemma csr_write_spec w op reg value write_mask shift i :
  0 <= w -> 0 <= reg < 2 ^ w -> 0 <= shift -> 0 <= i < w ->
  Z.testbit (csr_write w op reg value write_mask shift) i =
  if Z.testbit (Z.shiftl write_mask shift) i
  then csr_bit op (Z.testbit reg i) (Z.testbit value (i - shift))
  else Z.testbit reg i.
Proof.
  intros Hw Hr Hs Hi. unfold csr_write, csr_bit. rewrite wrap_spec by lia.
  destruct (Z.ltb_spec i w); [| lia]. rewrite !Z.shiftl_spec by lia.
  set (k := Z.testbit value (i - shift)).
  assert (Hk : value = 0 -> k = false) by (intros ->; apply Z.bits_0).
  destruct op; [| destruct (Z.eqb_spec value 0) as [E |]; [rewrite Hk by exact E |] ..];
    rewrite ?Z.lor_spec, ?Z.land_spec, ?Z.lnot_spec, ?Z.shiftl_spec, ?Z.land_spec by lia;
    fold k; clear Hk; destruct (Z.testbit reg i), (Z.testbit write_mask (i - shift)), k; reflexivity.
Qed.
