(* ===== verification/ProxyCpu.v ===== *)
(** * ProxyCpu: the user-mode processor of [emu/processor-proxy.h], a
    processor model over the proxy MMU, as the run loop's [Cpu]. *)

From Stdlib Require Import ZArith Lia Bool List.
From stdpp Require Import base numbers list.
From S2P Require Import Prelude Operand Meta Decode Codec CodecRound Machine Fpu Interp InterpSound InstEquiv Model Csr Proxy Runloop.

(** [enum rv_csr], the registers of user mode. *)
Definition rv_csr_fflags : Z := 0x001.
Definition rv_csr_frm : Z := 0x002.
Definition rv_csr_fcsr : Z := 0x003.
Definition rv_csr_cycle : Z := 0xC00.
Definition rv_csr_time : Z := 0xC01.
Definition rv_csr_instret : Z := 0xC02.
Definition rv_csr_cycleh : Z := 0xC80.
Definition rv_csr_timeh : Z := 0xC81.
Definition rv_csr_instreth : Z := 0xC82.

(** [cpu_cycle_clock()]: the next value of the host's clock, a [u64]. *)
Definition proxy_cycle_clock (p : proxy) : Z * proxy :=
  (u64 (px_clock p 0%nat), mkProxy (px_proc p) (px_mem p) (fun n => px_clock p (S n))).

(** [P::time = cpu_cycle_clock()]. *)
Definition proxy_read_clock : M proxy unit := fun p =>
  let '(t, p) := proxy_cycle_clock p in modify (fun b => set_time b t) p.

Section Proxy_cpu.
(** The host's floating-point unit, the processor model, and the host's
    system calls, [proxy_syscall] of the ABI. *)
Context (fpu : host_fpu) (m : model) (proxy_syscall : M proxy unit).

Abbreviation ux := (wrap (m_xlen m)).
Abbreviation fcsr_reg := (base_csr (P := proxy) 32 fcsr set_fcsr).
Abbreviation time_reg := (base_csr (P := proxy) 64 time set_time).
Abbreviation instret_reg := (base_csr (P := proxy) 64 instret set_instret).

Definition fflags_mask : Z := 0x1f.
Definition frm_mask : Z := 0x3.
Definition fcsr_mask : Z := 0xff.

(** [mmu_proxy::inst_fetch], no histogram being kept. *)
Definition proxy_fetch (pc : Z) : M proxy (Z * Z) := fun p =>
  Ok (inst_fetch (px_mem p) pc) p.

(** [fenv_setrm((P::fcsr >> 5) & 0x7)] is the interpreter's. *)
Definition inst_csr (d : decode) (op : csr_perm) (csr value pc_offset : Z) : M proxy Z :=
  let hi r := get_csr_hi (m_xlen m) d rv_mode_U csr r in
  let lo r := get_csr (m_xlen m) d rv_mode_U csr r in
  let set mask shift :=
    set_csr (m_xlen m) d rv_mode_U op csr fcsr_reg value mask mask shift in
  switch csr
    [rv_csr_fflags ~>
       (fenv_getflags ;; set fflags_mask 0 ;; fenv_clearflags ;; ret pc_offset);
     rv_csr_frm ~> (set frm_mask 5 ;; fenv_setrm_dyn ;; ret pc_offset);
     rv_csr_fcsr ~>
       (fenv_getflags ;; set fcsr_mask 0 ;; fenv_clearflags ;; fenv_setrm_dyn ;; ret pc_offset);
     rv_csr_cycle ~> (lo instret_reg ;; ret pc_offset);
     rv_csr_time ~> (proxy_read_clock ;; lo time_reg ;; ret pc_offset);
     rv_csr_instret ~> (lo instret_reg ;; ret pc_offset);
     rv_csr_cycleh ~> (hi instret_reg ;; ret pc_offset);
     rv_csr_timeh ~> (hi time_reg ;; ret pc_offset);
     rv_csr_instreth ~> (hi instret_reg ;; ret pc_offset)]
    (ret (ux (-1))).

Definition inst_priv (d : decode) (pc_offset : Z) : M proxy Z :=
  let reg op := v <- xu_val (d_rs1 d) ;; inst_csr d op (d_imm d) v pc_offset in
  let imm op := inst_csr d op (d_imm d) (d_rs1 d) pc_offset in
  match d_op d with
  | rv_op_ecall => proxy_syscall ;; ret pc_offset
  | rv_op_csrrw => reg csr_rw
  | rv_op_csrrs => reg csr_rs
  | rv_op_csrrc => reg csr_rc
  | rv_op_csrrwi => imm csr_rw
  | rv_op_csrrsi => imm csr_rs
  | rv_op_csrrci => imm csr_rc
  | _ => ret (ux (-1))
  end.

(** [trap]: a proxied process ends on any trap (what it prints is left out). *)
Definition proxy_trap (d : decode) (cause : Z) : M proxy unit :=
  a <- gets pc ;; raise internal_cause_poweroff a.

Definition proxy_cpu : Cpu proxy := {|
  cpu_xlen := m_xlen m;
  cpu_fetch := proxy_fetch;
  cpu_decode := inst_decode m;
  cpu_exec := @inst_exec proxy _ (proxy_mmu (m_xlen m)) fpu m;
  cpu_priv := inst_priv;
  cpu_isr := ret tt;
  cpu_trap := proxy_trap;
  cpu_cycle_clock := proxy_cycle_clock |}.

(** ** The instruction cache's hypotheses *)
Lemma inst_csr_equiv d d' : d_rd d = d_rd d' -> inst_csr d = inst_csr d'.
Proof using.
  intros E. unfold inst_csr, set_csr, get_csr, get_csr_hi, csr_result. rewrite E. reflexivity.
Qed.

Lemma inst_priv_equiv d d' off : dec_equiv d d' -> inst_priv d off = inst_priv d' off.
Proof using.
  intros [E H]. unfold inst_priv. rewrite <- E. destruct (d_op d) eqn:Eo; try reflexivity;
    destruct H as (Hi & Hrd & Hrs & _); try discriminate; rewrite Hi, Hrs;
    rewrite (inst_csr_equiv d d') by assumption; reflexivity.
Qed.

#[export] Instance proxy_cpu_laws : @CpuLaws proxy proxy_cpu.
Proof using.
  split; cbn [proxy_cpu cpu_decode cpu_exec cpu_priv cpu_trap].
  - apply inst_decode_equiv.
  - apply inst_exec_proper.
  - intros d d' E off _ <-. apply inst_priv_equiv, E.
  - intros d d' _ c _ <-. reflexivity.
Qed.

(** ** Well-formedness *)
Section Safe_cpu.
Context (Hm : model_ok m).
Context (Hsys : forall pc0 n0,
  safe (step_inv (m_xlen m) pc0 n0) proxy_syscall (fun _ => True)).

Section At.
Context (pc0 n0 : Z).
Abbreviation inv := (step_inv (m_xlen m) pc0 n0).
Abbreviation any := (fun _ => True).

Lemma safe_csr_result d mode csr v : safe inv (csr_result (P := proxy) (m_xlen m) d mode csr v) any.
Proof using Hm.
  unfold csr_result, rv_ireg_zero. destruct (Z.eqb_spec (d_rd d) 0); [apply safe_ret_any |].
  apply safe_put_ireg; [exact Hm | lia].
Qed.

Lemma safe_read_reg (r : csr_reg proxy) : safe inv (read_reg r) any.
Proof using. intros p Hp. simpl. auto. Qed.

Lemma safe_write_fcsr v :
  0 <= v < 2 ^ 32 -> safe inv (write_reg (base_csr (P := proxy) 32 fcsr set_fcsr) v) any.
Proof using.
  intros Hv p Hp. simpl. split; [| exact Logic.I].
  apply (inv_update _ _ _ _ (fun b => set_fcsr b v) Hp); auto.
Qed.

Lemma safe_set_fcsr d mode op csr v wm rm sh :
  safe inv (set_csr (m_xlen m) d mode op csr (base_csr (P := proxy) 32 fcsr set_fcsr) v wm rm sh)
    any.
Proof using Hm.
  unfold set_csr. apply safe_bind_any; [apply safe_read_reg | intros reg].
  apply safe_bind_any; [apply safe_csr_result | intros _].
  destruct (csr_readonly csr); [apply safe_ret_any |].
  apply safe_write_fcsr. apply wrap_range. lia.
Qed.

Lemma safe_proxy_clock : safe inv proxy_read_clock any.
Proof using.
  intros p Hp. simpl. split; [| exact Logic.I].
  apply (inv_update _ _ _ _ (fun b => set_time b _) Hp); auto. destruct Hp as [[] _]. assumption.
Qed.

Lemma safe_getflags : safe inv (fenv_getflags (P := proxy)) any.
Proof using.
  apply safe_modify; [| exact Logic.I]. intros b Hb.
  apply (inv_update _ _ _ _ (fun b => set_fcsr b _) Hb); try reflexivity.
  destruct Hb as [[_ _ _ _ _ _ Hf] _]. cbn [fcsr set_fcsr]. cbv beta zeta.
  unfold rv_fcsr_UF, rv_fcsr_OF, rv_fcsr_NV, rv_fcsr_NX, rv_fcsr_DZ.
  repeat (apply lor_range; [lia | | match goal with |- context [if ?c then _ else _] =>
    destruct c end; lia]). exact Hf.
Qed.

Lemma safe_clearflags : safe inv (fenv_clearflags (P := proxy)) any.
Proof using.
  unfold fenv_clearflags. apply safe_bind_any; [apply safe_gets_any | intros c].
  apply safe_fenv.
Qed.

Hint Resolve safe_csr_result safe_read_reg safe_set_fcsr safe_proxy_clock safe_getflags
  safe_clearflags : safe.

Abbreviation offset := (fun v => 0 <= v < 2 ^ m_xlen m /\ (Z.even v = true \/ v = ux (-1))).

Lemma inst_csr_safe d op csr v off :
  0 <= off < 2 ^ m_xlen m -> Z.even off = true -> safe inv (inst_csr d op csr v off) offset.
Proof using Hm.
  intros Ho He. unfold inst_csr.
  assert (Hret : safe inv (ret off) offset) by (apply safe_ret; auto).
  apply switch_ind.
  - apply safe_ret. split; [apply wrap_range; destruct Hm; lia | auto].
  - unfold get_csr, get_csr_hi. cbv beta zeta.
    repeat (apply Forall_cons; split); try (apply Forall_nil; exact Logic.I); intros _;
      repeat first [exact Hret | solve [eauto 2 with safe] | apply safe_setrm
                   | apply safe_bind_any; [| intros ?]].
Qed.

Lemma inst_priv_safe d off :
  0 <= off < 2 ^ m_xlen m -> Z.even off = true -> safe inv (inst_priv d off) offset.
Proof using Hm Hsys.
  intros Ho He. unfold inst_priv.
  assert (Hill : safe inv (ret (ux (-1))) offset).
  { apply safe_ret. split; [apply wrap_range; destruct Hm; lia | auto]. }
  destruct (d_op d); try exact Hill;
    first [ apply safe_bind_any; [apply Hsys | intros _]; apply safe_ret; auto
          | apply safe_bind_any; [apply safe_xu_val | intros ?]; apply inst_csr_safe; assumption
          | apply inst_csr_safe; assumption ].
Qed.
End At.

#[export] Instance proxy_cpu_safe : @CpuSafe proxy _ proxy_cpu.
Proof using Hm Hsys.
  assert (Hx : 0 < m_xlen m) by (destruct Hm; lia).
  split; cbn [proxy_cpu cpu_xlen cpu_decode cpu_fetch cpu_exec cpu_priv cpu_trap cpu_isr].
  - exact Hm.
  - apply inst_decode_jump_even.
  - intros pc0 n0 a p Hp. simpl. split; [assumption |]. unfold inst_fetch.
    assert (H8 : 8 < 2 ^ m_xlen m) by (destruct Hm as [-> | ->]; lia).
    repeat match goal with |- context [if ?b then _ else _] => destruct b end; cbn [snd];
      (split; [lia | reflexivity]).
  - intros pc0 n0 d off Ho He Hd. apply inst_exec_safe; assumption.
  - intros. apply inst_priv_safe; assumption.
  - intros d c p (Hp & Hpc & Hex). unfold proxy_trap, raise, gets, modify, bind.
    rewrite !base_set. cbn [exceptions set_badaddr]. rewrite Hex. rewrite base_set.
    split; [| reflexivity]. split; [destruct Hp; split; assumption | auto].
  - intros p (Hp & Hpc & Hex). cbn. split; [| reflexivity].
    split; [destruct Hp; split; assumption | auto].
Qed.
End Safe_cpu.
End Proxy_cpu.
