(* ===== verification/ExecTheorems.v ===== *)
(** * ExecTheorems: what the interpreter and the arithmetic it rests on promise.

    The theorems are about [inst_exec], the [inst_exec] of every processor
    model, over any memory management unit; the witnesses run RV64IMAFDC on
    the proxy machine. *)

From Stdlib Require Import ZArith Lia Bool List.
From stdpp Require Import base numbers list.
From S2P Require Import Prelude Operand Meta Decode Codec Alu Machine Fpu Interp InterpSound ExecSpec ExecControl InstEquiv Model Proxy.

(** ** A machine for the witnesses *)

(** A floating-point unit that answers zero; no witness uses it. *)
Definition null_fpu : host_fpu := {|
  f_add _ _ _ _ := (0, 0); f_sub _ _ _ _ := (0, 0); f_mul _ _ _ _ := (0, 0);
  f_div _ _ _ _ := (0, 0); f_sqrt _ _ _ := (0, 0);
  f_lt _ _ _ := (false, 0); f_le _ _ _ := (false, 0); f_eq _ _ _ := (false, 0);
  f_of_int _ _ _ := (0, 0); f_to_s32 _ _ := (0, 0); f_to_u32 _ _ := (0, 0);
  f_to_s64 _ _ := (0, 0); f_to_u64 _ _ := (0, 0); f_widen _ _ := (0, 0); f_narrow _ _ := (0, 0) |}.

(** [x10 = 0x1000], [x11 = 5], the others 0; [pc = 0x2000]. *)
Definition demo_proc : proc :=
  set_pc (set_ireg proc_init (<[10%nat := 0x1000]> (<[11%nat := 5]> (ireg proc_init)))) 0x2000.
Definition demo : proxy := mkProxy demo_proc (fun _ => 0) (fun _ => 0).

(** The instruction with opcode [op] and operands [rd], [rs1], [rs2], [imm]. *)
Definition demo_dec (op : rv_op) (rd rs1 rs2 imm : Z) : decode :=
  Decode.set_op op (Decode.set_imm imm (Decode.set_rs2 rs2 (Decode.set_rs1 rs1
    (Decode.set_rd rd decode_init)))).

Abbreviation m64 := processor_rv64imafdc_model.

#[local] Instance demo_mmu : MMU proxy := proxy_mmu 64.

(** ** The dispatch of [inst_exec] *)

(** The opcodes of both base ISAs come first in either [switch]. *)
Definition rv64_groups {P} `{Processor P} `{MMU P} (fpu : host_fpu) (m : model) (d : decode)
    (off : Z) : list (option (M P Z)) :=
  if m_xlen m =? 32 then []
  else drop 8 (exec_inst_rv64_groups fpu (m_xlen m) (m_isa m) d off).

Lemma inst_exec_common {P} `{Processor P} `{!MMU P} fpu m d off :
  model_ok m ->
  inst_exec (P := P) fpu m d off =
  dispatch (m_xlen m) (exec_common fpu (m_xlen m) (m_isa m) d off ++ rv64_groups fpu m d off).
Proof.
  intros Hm. unfold inst_exec, rv64_groups, exec_inst_rv32, exec_inst_rv64.
  destruct (Z.eqb_spec (m_xlen m) 32) as [E |]; [rewrite E, app_nil_r; reflexivity |].
  destruct Hm as [Hm | Hm]; [congruence |]. rewrite Hm. reflexivity.
Qed.

(** ** Integer computation *)

(** C5 A register-register instruction of RV32IM or RV64IM, the word
    instructions of RV64 included, writes to [rd] the result the ISA specifies
    as a function of the two source words and changes nothing else; with
    [rd = x0] the register file keeps 0 there.  The next offset is the
    instruction's length.  A shift by a register takes seven bits of the
    count: where they reach [xlen] the C++ shift is undefined. *)
Theorem exec_rtype_spec {P} `{ProcessorLaws P} `{!MMU P} fpu m d off (p : P) a b f :
  model_ok m -> operands (m_xlen m) d p a b ->
  rr_spec (m_xlen m) (d_op d) = Some f -> op_ext (m_isa m) (d_op d) = true ->
  inst_exec fpu m d off p =
  if d_rd d =? 0 then Ok off (write_rd (m_xlen m) 0 0 p)
  else if shift_defined (m_xlen m) (d_op d) b
  then Ok off (write_rd (m_xlen m) (d_rd d) (f a b) p)
  else Undefined.
Proof.
  intros Hm O Hf He. destruct (rtype_spec (m_xlen m) (d_op d)) as [g |] eqn:Hg.
  - unfold rr_spec in Hf. rewrite Hg in Hf. injection Hf as <-.
    rewrite inst_exec_common by assumption. apply exec_common_rr; assumption.
  - destruct (rr_word_64 _ _ _ Hg Hf) as [Hx Hw]. unfold inst_exec. rewrite Hx in *.
    apply exec_word_rr; assumption.
Qed.

Lemma exec_rtype_spec_witness :
  inst_exec null_fpu m64 (demo_dec rv_op_divuw 12 10 11 0) 4 demo =
  Ok 4 (write_rd 64 12 (sext32 (0x1000 / 5)) demo).
Proof.
  rewrite (exec_rtype_spec null_fpu m64 (demo_dec rv_op_divuw 12 10 11 0) 4 demo 0x1000 5
    (fun a b => if u32 b =? 0 then 2 ^ 64 - 1 else sext32 (u32 a / u32 b)));
    [reflexivity | right; reflexivity | | reflexivity..].
  repeat split; try reflexivity; discriminate.
Defined.

(** A register-immediate instruction is the register form applied to the
    sign-extended immediate. *)
Theorem exec_itype_spec {P} `{ProcessorLaws P} `{!MMU P} fpu m d off (p : P) a rop f :
  model_ok m -> reads1 (m_xlen m) d p a ->
  itype_base (d_op d) = Some rop -> rtype_spec (m_xlen m) rop = Some f -> rvi (m_isa m) = true ->
  imm_ok (m_xlen m) (d_op d) (d_imm d) ->
  inst_exec fpu m d off p =
  Ok off (write_rd (m_xlen m) (d_rd d) (f a (wrap (m_xlen m) (d_imm d))) p).
Proof. intros Hm R Hr Hf He Hi. rewrite inst_exec_common by assumption. eapply exec_common_itype; eassumption. Qed.

Lemma exec_itype_spec_witness :
  inst_exec null_fpu m64 (demo_dec rv_op_addi 12 10 0 (-1)) 4 demo =
  Ok 4 (write_rd 64 12 (wrap 64 (0x1000 + wrap 64 (-1))) demo).
Proof.
  apply (exec_itype_spec null_fpu m64 (demo_dec rv_op_addi 12 10 0 (-1)) 4 demo 0x1000 rv_op_add
    (fun a b => wrap 64 (a + b))); try reflexivity; [right; reflexivity |].
  repeat split; try reflexivity; discriminate.
Defined.

(** The RV64 word instructions, register and immediate forms, write the
    sign extension of the 32-bit result. *)
Theorem exec_word_spec {P} `{ProcessorLaws P} `{!MMU P} fpu m d off (p : P) a b rop f :
  m_xlen m = 64 -> reads1 64 d p a -> rtype_word_spec rop = Some f ->
  (d_op d = rop /\ op_ext (m_isa m) rop = true /\ reads 64 d p a b) \/
  (itype_word_base (d_op d) = Some rop /\ rvi (m_isa m) = true /\ imm_ok 64 (d_op d) (d_imm d) /\
   b = wrap 64 (d_imm d)) ->
  inst_exec fpu m d off p = Ok off (write_rd 64 (d_rd d) (f a b) p).
Proof.
  intros Hm R1 Hf Hd. unfold inst_exec. rewrite Hm. cbn [Z.eqb Pos.eqb].
  destruct Hd as [(<- & He & R) | (Hr & He & Hi & ->)];
    [apply exec_word_rtype | eapply exec_word_itype]; eassumption.
Qed.

Lemma exec_word_spec_witness :
  inst_exec null_fpu m64 (demo_dec rv_op_subw 12 11 10 0) 4 demo =
  Ok 4 (write_rd 64 12 (sext32 (5 - 0x1000)) demo).
Proof.
  assert (R : reads1 64 (demo_dec rv_op_subw 12 11 10 0) demo 5)
    by (repeat split; try reflexivity; discriminate).
  apply (exec_word_spec null_fpu m64 (demo_dec rv_op_subw 12 11 10 0) 4 demo 5 0x1000 rv_op_subw
    (fun a b => sext32 (a - b))); [reflexivity | exact R | reflexivity |].
  left. split; [reflexivity |]. split; [reflexivity |]. split; [exact R | discriminate | reflexivity |].
  split; [discriminate | reflexivity].
Defined.

(** ** Control *)

(** C10 [jal] and [jalr] write the address of the next instruction to [rd] and
    continue at [pc + imm] and at [(rs1 + imm)] with bit 0 cleared; [rs1] is
    read before [rd] is written. *)
Theorem exec_jump_spec {P} `{ProcessorLaws P} `{!MMU P} fpu m d off (p : P) a :
  model_ok m -> rvi (m_isa m) = true -> Z.even (pc (base p)) = true ->
  0 <= d_rd d < Z.of_nat (length (ireg (base p))) -> 0 <= d_rs1 d ->
  ireg (base p) !! Z.to_nat (d_rs1 d) = Some a -> d_op d = rv_op_jal \/ d_op d = rv_op_jalr ->
  exists new_offset,
    inst_exec fpu m d off p = Ok new_offset (link (m_xlen m) off p (d_rd d)) /\
    next_pc (m_xlen m) p new_offset =
      if decide (d_op d = rv_op_jal) then wrap (m_xlen m) (pc (base p) + d_imm d)
      else Z.land (wrap (m_xlen m) (a + d_imm d)) (wrap (m_xlen m) (-2)).
Proof.
  intros Hm He Hpc Hrd Hrs Ha Hop. rewrite inst_exec_common by assumption.
  destruct Hop as [Hop | Hop]; rewrite Hop; eexists.
  - split; [apply exec_jal_run; assumption |]. unfold next_pc. apply wrap_add_r.
  - split; [apply (exec_jalr_run _ _ _ _ _ _ a); assumption |]. apply jalr_target; assumption.
Qed.

Lemma exec_jump_spec_witness : exists new_offset,
  inst_exec null_fpu m64 (demo_dec rv_op_jalr 10 10 0 3) 4 demo =
    Ok new_offset (link 64 4 demo 10) /\ next_pc 64 demo new_offset = 0x1002.
Proof.
  apply (exec_jump_spec null_fpu m64 (demo_dec rv_op_jalr 10 10 0 3) 4 demo 0x1000);
    try reflexivity; [right; reflexivity | split; [discriminate | reflexivity] | discriminate |].
  right. reflexivity.
Defined.

(** A conditional branch continues at [pc + imm] when the comparison the
    ISA specifies holds of the two registers, and after the instruction
    otherwise; it changes nothing. *)
Theorem exec_branch_spec {P} `{ProcessorLaws P} `{!MMU P} fpu m d off (p : P) a b cond :
  model_ok m -> rvi (m_isa m) = true -> reads (m_xlen m) d p a b ->
  branch_spec (m_xlen m) (d_op d) = Some cond ->
  inst_exec fpu m d off p = Ok (if cond a b then wrap (m_xlen m) (d_imm d) else off) p.
Proof.
  intros Hm He [R1 R2 Hb Hb2] Hc. rewrite inst_exec_common by assumption.
  destruct R1. apply exec_branch_run; assumption.
Qed.

Lemma exec_branch_spec_witness :
  inst_exec null_fpu m64 (demo_dec rv_op_bgeu 1 10 11 (-8)) 4 demo = Ok (wrap 64 (-8)) demo.
Proof.
  apply (exec_branch_spec null_fpu m64 (demo_dec rv_op_bgeu 1 10 11 (-8)) 4 demo 0x1000 5
    (fun a b => b <=? a)); try reflexivity; [right; reflexivity |].
  repeat split; try reflexivity; discriminate.
Defined.

(** ** Memory *)

(** A load reads [rs1 + imm] through the MMU, extends the value as the
    opcode says and writes it to [rd]; a fault of the MMU leaves [rd] as it
    was. *)
Theorem exec_load_spec {P} `{ProcessorLaws P} `{!MMU P} `{!MMULaws P} fpu m d off (p : P) a w ext :
  model_ok m -> rvi (m_isa m) = true -> reads1 (m_xlen m) d p a ->
  load_spec (m_xlen m) (d_op d) = Some (w, ext) ->
  inst_exec fpu m d off p =
  match mmu_load w (wrap (m_xlen m) (a + d_imm d)) p with
  | Ok v p' => Ok off (write_rd (m_xlen m) (d_rd d) (ext v) p')
  | Raise c p' => Raise c p'
  | Undefined => Undefined
  end.
Proof.
  intros Hm He [R1 R2 R3 R4] Hl. rewrite inst_exec_common by assumption.
  apply exec_load_run; assumption.
Qed.

Lemma exec_load_spec_witness :
  inst_exec null_fpu m64 (demo_dec rv_op_lh 12 10 0 4) 4 demo = Ok 4 (write_rd 64 12 0 demo).
Proof.
  etransitivity.
  - apply (exec_load_spec null_fpu m64 (demo_dec rv_op_lh 12 10 0 4) 4 demo 0x1000 16
      (fun v => wrap 64 (s16 v))); try reflexivity; [right; reflexivity |].
    repeat split; try reflexivity; discriminate.
  - vm_compute. reflexivity.
Defined.

(** A store writes the low bits of [rs2] at [rs1 + imm] through the MMU,
    and changes no register. *)
Theorem exec_store_spec {P} `{ProcessorLaws P} `{!MMU P} fpu m d off (p : P) a b w :
  model_ok m -> rvi (m_isa m) = true -> reads (m_xlen m) d p a b -> store_spec (d_op d) = Some w ->
  inst_exec fpu m d off p =
  match mmu_store w (wrap (m_xlen m) (a + d_imm d)) (wrap w b) p with
  | Ok _ p' => Ok off p'
  | Raise c p' => Raise c p'
  | Undefined => Undefined
  end.
Proof.
  intros Hm He [[R1 R2 R3 R4] Hr Hv _] Hs. rewrite inst_exec_common by assumption.
  apply exec_store_run; assumption.
Qed.

Lemma exec_store_spec_witness :
  inst_exec null_fpu m64 (demo_dec rv_op_sb 1 10 11 (-1)) 4 demo =
  Ok 4 (mkProxy demo_proc (write_bytes 1 (px_mem demo) 0xfff 5) (px_clock demo)).
Proof.
  etransitivity.
  - apply (exec_store_spec null_fpu m64 (demo_dec rv_op_sb 1 10 11 (-1)) 4 demo 0x1000 5 8);
      try reflexivity; [right; reflexivity |].
    repeat split; try reflexivity; discriminate.
  - vm_compute. reflexivity.
Defined.

(** [sc.w] stores the low word of [rs2] when the reservation register
    holds the address, and then writes 0 to [rd]; otherwise it writes 1 and
    leaves memory alone. *)
Theorem exec_sc_w_spec {P} `{ProcessorLaws P} `{!MMU P} fpu m d off (p : P) a b :
  model_ok m -> rva (m_isa m) = true -> reads (m_xlen m) d p a b -> d_op d = rv_op_sc_w ->
  inst_exec fpu m d off p =
  if lr (base p) =? swrap (m_xlen m) a then
    match mmu_store 32 (wrap (m_xlen m) a) (wrap 32 b) p with
    | Ok _ p' => (set_rd (m_xlen m) d (ret 0) ;; ret off) p'
    | Raise c p' => Raise c p'
    | Undefined => Undefined
    end
  else Ok off (write_rd (m_xlen m) (d_rd d) 1 p).
Proof.
  intros Hm He [[R1 R2 R3 R4] Hr Hv _] Hop. rewrite inst_exec_common by assumption.
  cbv [exec_common app exec_rvi_jump exec_rvi_mem exec_rvi_imm exec_rvi_reg exec_rvm exec_rva_w].
  rewrite Hop. cbn [dispatch guarded]. rewrite He. unfold bind at 1.
  rewrite (exec_sc_run _ d p a b) by assumption.
  destruct (_ =? _); [| reflexivity]. destruct (mmu_store _ _ _ p); reflexivity.
Qed.

Lemma exec_sc_w_spec_witness :
  inst_exec null_fpu m64 (demo_dec rv_op_sc_w 12 10 11 0) 4 demo = Ok 4 (write_rd 64 12 1 demo).
Proof.
  etransitivity.
  - apply (exec_sc_w_spec null_fpu m64 (demo_dec rv_op_sc_w 12 10 11 0) 4 demo 0x1000 5);
      try reflexivity; [right; reflexivity |].
    repeat split; try reflexivity; discriminate.
  - vm_compute. reflexivity.
Defined.

(** Load after store on the proxy machine: a load of the width that was
    stored, at the same address, gives the value back when the width is at most
    that of the registers, and a load of any width from bytes the store did not
    touch gives what it gave before. *)
Theorem proxy_memory_law xlen w va v w' va' (p : proxy) :
  0 < w <= xlen -> w mod 8 = 0 -> 0 < w' -> w' mod 8 = 0 -> 0 <= v < 2 ^ w ->
  va' + w' / 8 <= va \/ va + w / 8 <= va' ->
  (proxy_store w va v ;; proxy_load xlen w va) p =
    (proxy_store w va v ;; ret v) p /\
  exists p', (proxy_store w va v ;; proxy_load xlen w' va') p = Ok (wrap xlen (read_T w' (px_mem p) va')) p' /\
    proxy_load xlen w' va' p = Ok (wrap xlen (read_T w' (px_mem p) va')) p.
Proof.
  intros Hw H8 Hw' H8' Hv Hd. unfold bind, proxy_store, proxy_load, ret. cbn [px_mem]. split.
  - rewrite read_write_T by lia. rewrite (wrap_small w v) by assumption. rewrite (wrap_small xlen v) by (pose proof (Z.pow_le_mono_r 2 w xlen); lia). reflexivity.
  - eexists. split; [| reflexivity]. f_equal. unfold read_T, bytes_of. do 2 f_equal.
    apply read_write_bytes_disjoint. rewrite !Z2Nat.id by (apply Z.div_pos; lia). lia.
Qed.

Lemma proxy_memory_law_witness :
  (proxy_store 32 0x100 0x12345678 ;; proxy_load 64 32 0x100) demo =
  (proxy_store 32 0x100 0x12345678 ;; ret 0x12345678) demo.
Proof.
  apply (proxy_memory_law 64 32 0x100 0x12345678 8 0x104 demo); try reflexivity;
    [lia | split; [discriminate | reflexivity] | right; discriminate].
Defined.

(** The atomic operation of an opcode. *)
Definition amo_w_op (op : rv_op) : option amo_op :=
  match op with
  | rv_op_amoswap_w => Some amoswap | rv_op_amoadd_w => Some amoadd
  | rv_op_amoxor_w => Some amoxor | rv_op_amoor_w => Some amoor | rv_op_amoand_w => Some amoand
  | rv_op_amomin_w => Some amomin | rv_op_amomax_w => Some amomax
  | rv_op_amominu_w => Some amominu | rv_op_amomaxu_w => Some amomaxu
  | _ => None
  end.



(** ** Bit operations *)

(** [ctz] and [clz] count the zero bits below the lowest and above the
    highest one bit, and give the width for zero. *)
Theorem count_zeros_bits w val :
  0 < w < 2 ^ 32 ->
  (0 <= ctz w val <= w /\
   (forall i, 0 <= i < ctz w val -> Z.testbit val i = false) /\
   (ctz w val < w -> Z.testbit val (ctz w val) = true)) /\
  (0 <= clz w val <= w /\
   (forall i, w - clz w val <= i < w -> Z.testbit val i = false) /\
   (clz w val < w -> Z.testbit val (w - 1 - clz w val) = true)).
Proof. intros Hw. split; [apply ctz_spec | apply clz_spec]; exact Hw. Qed.

Lemma count_zeros_bits_witness : 0 <= ctz 32 0x50 <= 32 /\ ctz 32 0x50 = 4 /\ clz 32 0x50 = 25.
Proof.
  split; [apply (count_zeros_bits 32 0x50); split; [|]; reflexivity | split; reflexivity].
Defined.

(** [bitextend(val, b)] is the sign extension of the low [b] bits. *)
Theorem bitextend_sign w val b :
  0 < b < w -> - 2 ^ (w - 1) <= val < 2 ^ (w - 1) -> bitextend w val b = swrap b val.
Proof. apply bitextend_spec. Qed.

Lemma bitextend_sign_witness : bitextend 32 0xfff 12 = -1.
Proof. rewrite (bitextend_sign 32 0xfff 12); [reflexivity | lia | lia]. Defined.

(** [fclass]: whatever the bits, exactly one of the ten class bits is set. *)
Theorem float_classify_class F f : exists k, 0 <= k < 10 /\ float_classify F f = 2 ^ k.
Proof. apply float_classify_one_bit. Qed.

(** [fclass] tells signaling NaNs from quiet ones by the lowest bit of the
    fraction; IEEE 754 uses the highest. *)
Example classify_quiet_nan :
  float_classify f32_type 0x7fc00000 = rv_fclass_quiet_nan /\
  float_classify f32_type 0x7fc00001 = rv_fclass_signaling_nan /\
  float_classify f32_type 0x7f800002 = rv_fclass_quiet_nan.
Proof. repeat split; reflexivity. Qed.

(** A load through the proxy converts to [UX]: on RV32 a double loses its high
    half. *)
Example double_load_truncated :
  let p := mkProxy proc_init (write_bytes 8 (fun _ => 0) 0x100 0x4009_21FB_5444_2D18) (fun _ => 0) in
  proxy_load 32 64 0x100 p = Ok 0x5444_2D18 p /\ proxy_load 64 64 0x100 p = Ok 0x4009_21FB_5444_2D18 p.
Proof. vm_compute. split; reflexivity. Qed.
