(* ===== verification/RunTheorems.v ===== *)
(** * RunTheorems: what the run loop and the control and status registers
    promise.  The witnesses run the proxy processor on a two-instruction
    program. *)

From Stdlib Require Import ZArith Lia Bool List.
From stdpp Require Import base numbers list.
From S2P Require Import Prelude Operand Meta Decode Codec Alu Machine Fpu Interp InterpSound ExecSpec InstEquiv Model Csr Proxy Runloop ProxyCpu ExecTheorems.

(** ** The machine of the witnesses *)

(** [c.addi x10, 1] at 0x2000 and [c.j -2] at 0x2002. *)
Definition demo_program : Z -> Z :=
  write_bytes 4 (write_bytes 2 (fun _ => 0) 0x2000 0x0505) 0x2002 0xbffd.

Definition demo_px (n : Z) : proxy := mkProxy (set_instret demo_proc n) demo_program (fun _ => 7).

#[local] Existing Instance demo_mmu.

Definition demo_cpu (m : model) : Cpu proxy := proxy_cpu null_fpu m (ret tt).

Lemma demo_syscall xlen pc0 n0 :
  safe (step_inv xlen pc0 n0) (ret tt : M proxy unit) (fun _ => True).
Proof. apply safe_ret. exact Logic.I. Qed.

Lemma demo_safe m : model_ok m -> @CpuSafe proxy _ (demo_cpu m).
Proof. intros Hm. apply proxy_cpu_safe; [exact Hm |]. intros. apply demo_syscall. Qed.

Lemma demo_hart_ok xlen n : xlen = 32 \/ xlen = 64 -> hart_ok xlen (px_proc (demo_px n)).
Proof.
  intros Hx. assert (Hp : 2 ^ 32 <= 2 ^ xlen) by (apply Z.pow_le_mono_r; lia).
  split; [split | split]; try reflexivity; cbn; try lia;
    repeat (apply Forall_cons; split; [lia |]); apply Forall_nil; exact Logic.I.
Qed.

Lemma demo_rl_ok m n : model_ok m -> @rl_ok proxy _ (demo_cpu m) (runloop_init (demo_px n)).
Proof.
  intros Hm. apply (@runloop_init_ok proxy _ (demo_cpu m)). apply demo_hart_ok. exact Hm.
Qed.

(** ** One instruction *)

(** C4 Any instruction word, decoded on top of any earlier decoding and
    executed by any of the ten processor models, keeps the processor
    well-formed (registers in range, [x0 = 0]) and does not move [pc] or
    [instret]; the offset it returns is even or marks an illegal instruction.
    A trap leaves the processor well-formed too. *)
Theorem inst_exec_invariant {P} `{ProcessorLaws P} `{!MMU P} `{!MMULaws P} fpu m d inst off (p : P) :
  model_ok m -> 0 <= off < 2 ^ m_xlen m -> Z.even off = true -> hart_ok (m_xlen m) (base p) ->
  match inst_exec fpu m (inst_decode m d inst) off p with
  | Ok v p' => hart_ok (m_xlen m) (base p') /\ pc (base p') = pc (base p) /\
               instret (base p') = instret (base p) /\
               (Z.even v = true \/ v = wrap (m_xlen m) (-1))
  | Raise _ p' => hart_ok (m_xlen m) (base p') /\ pc (base p') = pc (base p)
  | Undefined => True
  end.
Proof.
  intros Hm Ho He (Hp & Hpc & Hex).
  assert (Hi : step_inv (m_xlen m) (pc (base p)) (instret (base p)) (base p)) by (split; auto).
  pose proof (inst_exec_safe fpu m _ _ _ off Hm Ho He (inst_decode_jump_even m d inst) p Hi) as Hx.
  unfold hart_ok. destruct (inst_exec _ _ _ _ p) as [v p' | c p' |]; [| | exact Logic.I].
  - destruct Hx as [(Hp' & -> & -> & ->) [_ Hv]]. auto 10.
  - destruct Hx as (Hp' & -> & _ & ->). auto.
Qed.

Lemma inst_exec_invariant_witness :
  match inst_exec null_fpu m64 (inst_decode m64 decode_init 0x0505) 2 demo with
  | Ok v p' => hart_ok (m_xlen m64) (base p') /\ pc (base p') = pc (base demo) /\
               instret (base p') = instret (base demo) /\
               (Z.even v = true \/ v = wrap (m_xlen m64) (-1))
  | Raise _ p' => hart_ok (m_xlen m64) (base p') /\ pc (base p') = pc (base demo)
  | Undefined => True
  end.
Proof.
  apply (inst_exec_invariant null_fpu m64 decode_init 0x0505 2 demo);
    [right; reflexivity | split; [discriminate | reflexivity] | reflexivity |].
  apply (demo_hart_ok 64 0). right. reflexivity.
Defined.

(** ** The run loop *)

(** C3 What the instruction cache changes: from related states, [step] ends as
    the stepper without a cache does, with the same processor and the same exit
    cause, traps, interrupts and breakpoints included.  That stepper decodes
    every instruction afresh, except that the all-zero word is illegal until
    another word that is a multiple of 8191 has been fetched ([plain_decode]). *)
Theorem run_cache_transparent {P} `{Processor P} `{!Cpu P} `{!CpuLaws P} fuel count s s' :
  rl_sim s s' ->
  match plain_step fuel count s' with
  | Exit e t' => exists t, step fuel count s = Exit e t /\ rl_sim t t'
  | OutOfFuel => step fuel count s = OutOfFuel
  | Stuck => step fuel count s = Stuck
  end.
Proof.
  intros Hs. destruct (step_sim fuel count s s' Hs) as [e t t' Ht | |]; eauto.
Qed.

Lemma run_cache_transparent_witness :
  let c := demo_cpu m64 in
  exists t t', plain_step 6 5 (runloop_init (demo_px 0)) = Exit exit_cause_continue t' /\
    step 6 5 (runloop_init (demo_px 0)) = Exit exit_cause_continue t /\ rl_sim t t'.
Proof.
  intros c.
  assert (E : match plain_step 6 5 (runloop_init (demo_px 0)) with
              | Exit exit_cause_continue _ => true | _ => false end = true)
    by (vm_compute; reflexivity).
  pose proof (@run_cache_transparent proxy _ c (proxy_cpu_laws null_fpu m64 (ret tt)) 6 5 _ _
    (@runloop_init_sim proxy c (demo_px 0))) as H.
  destruct (plain_step 6 5 (runloop_init (demo_px 0))) as [[] t' | |]; try discriminate E.
  destruct H as (t & Ht & Hs). eauto.
Defined.

(** The one word the cache is not transparent for: the zeroed entry makes it
    an illegal instruction until another instruction takes its slot, and
    [inst_decode] makes it [addi x8, sp, 0]. *)
Example cache_zero_word (s : runloop proxy) :
  (forall k, inst_cache s k = mkEnt 0 decode_init) ->
  @cached_decode proxy (demo_cpu m64) 0 s = Ok decode_init (mkRunloop (rl_proc s) (inst_cache s) decode_init) /\
  d_op (inst_decode m64 decode_init 0) = rv_op_addi.
Proof.
  intros Hc. unfold cached_decode. rewrite Hc. split; reflexivity.
Qed.

(** C6 [step(count)] retires exactly [count] instructions: when the next [n]
    turns neither trap nor meet the breakpoint ([turns]), and on RV32 [instret]
    does not reach 2^32 (the bound would be cut to 32 bits), [n + 1] turns of
    fuel are enough, the loop ends with [exit_cause_continue], and [instret] has
    grown by [n]. *)
Theorem run_step_retires {P} `{ProcessorLaws P} `{!Cpu P} `{!CpuSafe P} n s s1 s' :
  rl_ok s ->
  on_proc (read_clock ;; cpu_isr) (mkRunloop (rl_proc s) (inst_cache s) decode_init) = Ok tt s1 ->
  turns n s1 = Some s' ->
  wrap cpu_xlen (instret (rl_base s) + Z.of_nat n) = u64 (instret (rl_base s) + Z.of_nat n) ->
  0 <= instret (rl_base s) < 2 ^ 64 -> Z.of_nat n < 2 ^ 64 ->
  step (S n) (Z.of_nat n) s = Exit exit_cause_continue s' /\
  instret (rl_base s') = u64 (instret (rl_base s) + Z.of_nat n).
Proof. apply step_retires. Qed.

(** The state after [n] turns, when it is known to exist. *)
Definition after {A} (o : option A) (default : A) : A := match o with Some a => a | None => default end.

Lemma run_step_retires_witness :
  let c := demo_cpu m64 in
  let s := runloop_init (demo_px 3) in
  exists s', step 6 5 s = Exit exit_cause_continue s' /\ instret (rl_base s') = 8.
Proof.
  intros c s.
  set (s2 := mkRunloop (mkProxy (set_time (px_proc (demo_px 3)) 7) demo_program (fun _ => 7))
    (inst_cache s) decode_init).
  exists (after (turns 5 s2) s2).
  apply (@run_step_retires proxy _ _ c (demo_safe m64 (or_intror eq_refl)) 5 s s2).
  - apply demo_rl_ok. right. reflexivity.
  - reflexivity.
  - vm_compute. reflexivity.
  - reflexivity.
  - split; [discriminate | reflexivity].
  - reflexivity.
Defined.

(** C12 However [step] ends, by its count, a breakpoint, a trap that stops the
    machine, it leaves the processor and the cache well-formed; it returns
    [exit_cause_continue] only when [instret] has reached the bound. *)
Theorem run_step_invariant {P} `{ProcessorLaws P} `{!Cpu P} `{!CpuSafe P} fuel count s e s' :
  rl_ok s -> step fuel count s = Exit e s' ->
  rl_ok s' /\ (e = exit_cause_continue ->
               instret (rl_base s') = wrap cpu_xlen (instret (rl_base s) + count)).
Proof. apply step_ok. Qed.

Lemma run_step_invariant_witness :
  let c := demo_cpu m64 in
  let s := runloop_init (demo_px 3) in
  exists s', step 6 5 s = Exit exit_cause_continue s' /\ rl_ok s' /\ instret (rl_base s') = 8.
Proof.
  intros c s.
  assert (E : match step 6 5 s with Exit exit_cause_continue _ => true | _ => false end = true)
    by (vm_compute; reflexivity).
  destruct (step 6 5 s) as [[] s' | |] eqn:Hs; try discriminate E. clear E.
  destruct (@run_step_invariant proxy _ _ c (demo_safe m64 (or_intror eq_refl)) 6 5 s
    exit_cause_continue s') as [Hok Hn]; [apply demo_rl_ok; right; reflexivity | exact Hs |].
  exists s'. split; [reflexivity |]. split; [exact Hok | exact (Hn eq_refl)].
Defined.

(** C13 On RV32 the loop's bound is a 32-bit number and [instret] a 64-bit
    one: once [instret] has passed 2^32, [step] never returns because its
    instructions are done, however many turns it takes (short of 2^64). *)
Theorem run_rv32_never_done {P} `{ProcessorLaws P} `{!Cpu P} `{!CpuSafe P} fuel count s s' :
  cpu_xlen = 32 -> rl_ok s -> 2 ^ 32 <= instret (rl_base s) ->
  instret (rl_base s) + Z.of_nat fuel < 2 ^ 64 ->
  step fuel count s <> Exit exit_cause_continue s'.
Proof.
  intros Hx [Hb Hc] Hge Hf. unfold step, step_with. rewrite Hx.
  pose proof (isr_safe (rl_proc s) Hb) as Hi. unfold on_proc. cbn [rl_proc inst_cache rl_dec].
  destruct ((read_clock ;; cpu_isr) (rl_proc s)) as [a p | |]; [| discriminate ..].
  destruct Hi as [Hi1 Hi2].
  apply step_loop_rv32_overrun; unfold rl_base in *; cbn [rl_proc].
  - apply wrap_range. lia.
  - split; [exact Hi1 | exact Hc].
  - lia.
  - lia.
Qed.

Lemma run_rv32_never_done_witness :
  let c := demo_cpu processor_rv32imac_model in
  ~ exists s', step 100 10 (runloop_init (demo_px (2 ^ 32 + 5))) = Exit exit_cause_continue s'.
Proof.
  intros c [s' Hs]. revert Hs. apply (@run_rv32_never_done proxy _ _ c (demo_safe processor_rv32imac_model (or_introl eq_refl))).
  - reflexivity.
  - apply demo_rl_ok. left. reflexivity.
  - discriminate.
  - reflexivity.
Defined.

(** ** Control and status registers *)

(** [csrrw], [csrrs] and [csrrc] bit by bit, at any register width: inside
    the field [write_mask << shift] a bit becomes the operand's, or is set or
    cleared by it; outside it keeps its value. *)
Theorem csr_write_bits w op reg value write_mask shift i :
  0 <= w -> 0 <= reg < 2 ^ w -> 0 <= shift -> 0 <= i < w ->
  Z.testbit (csr_write w op reg value write_mask shift) i =
  if Z.testbit (Z.shiftl write_mask shift) i
  then csr_bit op (Z.testbit reg i) (Z.testbit value (i - shift))
  else Z.testbit reg i.
Proof. apply csr_write_spec. Qed.

Lemma csr_write_bits_witness : Z.testbit (csr_write 32 csr_rc 0xff 0x3 0x3 5) 6 = false.
Proof. apply (csr_write_bits 32 csr_rc 0xff 0x3 0x3 5 6); lia. Defined.

(** On RV32 the two halves of the instruction counter read back as the
    64-bit count: [rdinstret] writes the low word of [instret] to [rd] and
    [rdinstreth] the high word. *)
Theorem proxy_instret_halves d op v off (p : proxy) :
  0 < d_rd d < Z.of_nat (length (ireg (base p))) -> 0 <= instret (base p) < 2 ^ 64 ->
  exists lo hi,
    inst_csr processor_rv32imafdc_model d op rv_csr_instret v off p =
      Ok off (write_rd 32 (d_rd d) lo p) /\
    inst_csr processor_rv32imafdc_model d op rv_csr_instreth v off p =
      Ok off (write_rd 32 (d_rd d) hi p) /\
    wrap 32 lo + wrap 32 hi * 2 ^ 32 = instret (base p).
Proof.
  intros Hrd Hn. set (n := instret (base p)) in *.
  assert (Hput : forall v, csr_result 32 d rv_mode_U rv_csr_instret v p = Ok tt (write_rd 32 (d_rd d) v p)).
  { intros v'. unfold csr_result, rv_ireg_zero. destruct (Z.eqb_spec (d_rd d) 0); [lia |].
    apply put_ireg_run. lia. }
  exists n, (s32 (u32 (Z.shiftr n 32))). split; [| split].
  - change (inst_csr processor_rv32imafdc_model d op rv_csr_instret v off)
      with (get_csr (P := proxy) 32 d rv_mode_U rv_csr_instret (base_csr 64 instret set_instret) ;; ret off).
    unfold get_csr, bind, read_reg. cbn [reg_get base_csr]. fold n. rewrite Hput. reflexivity.
  - change (inst_csr processor_rv32imafdc_model d op rv_csr_instreth v off)
      with (get_csr_hi (P := proxy) 32 d rv_mode_U rv_csr_instret (base_csr 64 instret set_instret) ;; ret off).
    unfold get_csr_hi, bind, read_reg. cbn [reg_get base_csr]. fold n. rewrite Hput. reflexivity.
  - rewrite wrap_swrap, wrap_wrap, Z.shiftr_div_pow2 by lia.
    assert (0 <= n / 2 ^ 32 < 2 ^ 32) by (split; [apply Z.div_pos; lia | apply Z.div_lt_upper_bound; lia]).
    rewrite (wrap_small 32 (n / 2 ^ 32)) by assumption. unfold wrap.
    pose proof (Z.div_mod n (2 ^ 32)). lia.
Qed.

Lemma proxy_instret_halves_witness : exists lo hi,
  inst_csr processor_rv32imafdc_model (demo_dec rv_op_csrrs 12 0 0 0) csr_rs rv_csr_instret 0 4
    (demo_px 0x1ffffffff) = Ok 4 (write_rd 32 12 lo (demo_px 0x1ffffffff)) /\
  inst_csr processor_rv32imafdc_model (demo_dec rv_op_csrrs 12 0 0 0) csr_rs rv_csr_instreth 0 4
    (demo_px 0x1ffffffff) = Ok 4 (write_rd 32 12 hi (demo_px 0x1ffffffff)) /\
  wrap 32 lo + wrap 32 hi * 2 ^ 32 = instret (base (demo_px 0x1ffffffff)).
Proof.
  apply (proxy_instret_halves (demo_dec rv_op_csrrs 12 0 0 0) csr_rs 0 4 (demo_px 0x1ffffffff));
    (split; [try reflexivity; discriminate | reflexivity]).
Defined.

(** [frm] has three bits; the mask has two: writing 4, round to nearest with
    ties to the maximum magnitude, is read back as 0. *)
Example frm_drops_bit_2 :
  Z.land (Z.shiftr (csr_write 32 csr_rw 0 4 frm_mask 5) 5) 7 = 0.
Proof. reflexivity. Qed.
