(* ===== verification/Tlb.v ===== *)
(** * Tlb: the software TLB of [emu/tlb-soft.h] and the constants of
    [emu/pma.h] and [emu/pte.h]. *)

From Stdlib Require Import ZArith Lia Bool List.
From stdpp Require Import base numbers list.
From S2P Require Import Prelude.

(** ** Constants *)
Definition page_shift : Z := 12.

(** [param_rv32] and [param_rv64]. *)
Definition asid_bits (xlen : Z) : Z := if xlen =? 32 then 10 else 26.
Definition ppn_bits (xlen : Z) : Z := if xlen =? 32 then 22 else 38.
Definition vpn_bits (xlen : Z) : Z := xlen - page_shift.

Definition pte_shift_V : Z := 0.
Definition pte_shift_R : Z := 1.
Definition pte_shift_W : Z := 2.
Definition pte_shift_X : Z := 3.
Definition pte_flag_R : Z := 2 ^ pte_shift_R.
Definition pte_flag_W : Z := 2 ^ pte_shift_W.
Definition pte_flag_X : Z := 2 ^ pte_shift_X.
Definition pte_flag_U : Z := 2 ^ 4.
Definition pte_flag_A : Z := 2 ^ 6.
Definition pte_flag_D : Z := 2 ^ 7.

(** ** Entries *)

(** [tagged_tlb_entry]: the members are bit fields of the widths above. *)
Record tlb_entry := mkTlbEntry {
  te_ppn : Z; te_asid : Z; te_vpn : Z; te_ptel : Z; te_pteb : Z; te_pdid : Z; te_pma : Z }.

Section Tlb.
Context (xlen : Z).

(** [tagged_tlb_entry()]. *)
Definition tlb_entry_init : tlb_entry :=
  mkTlbEntry (2 ^ ppn_bits xlen - 1) (2 ^ asid_bits xlen - 1) (2 ^ vpn_bits xlen - 1) 0 0 0 0.

(** [tagged_tlb_entry(pdid, asid, vpn, ptel, pteb, ppn)]. *)
Definition tlb_entry_make (pdid asid vpn ptel pteb ppn : Z) : tlb_entry :=
  mkTlbEntry (wrap (ppn_bits xlen) ppn) (wrap (asid_bits xlen) asid) (wrap (vpn_bits xlen) vpn)
    (wrap 2 ptel) (wrap 10 pteb) (u32 pdid) 0.

(** ** The direct mapped TLB

    [tagged_tlb<128, PARAM>]: the array is a function of its index. *)
Definition tlb := Z -> tlb_entry.

Definition tlb_size : Z := 128.
Definition tlb_mask : Z := tlb_size - 1.

Definition tlb_init : tlb := fun _ => tlb_entry_init.

(** [flush(pdid)]. *)
Definition tlb_flush_pdid (t : tlb) (pdid : Z) : tlb := fun i =>
  if negb (te_pdid (t i) =? pdid) then t i else tlb_entry_init.

(** [flush(pdid, asid)]. *)
Definition tlb_flush (t : tlb) (pdid asid : Z) : tlb := fun i =>
  if negb (asid =? 0) && negb (te_pdid (t i) =? pdid) && negb (te_asid (t i) =? asid)
  then t i else tlb_entry_init.

Definition tlb_vpn (va : Z) : Z := Z.shiftr va page_shift.
Definition tlb_index (va : Z) : Z := Z.land (tlb_vpn va) tlb_mask.

Definition tlb_lookup (t : tlb) (pdid asid va : Z) : option tlb_entry :=
  let e := t (tlb_index va) in
  if (te_pdid e =? pdid) && (te_asid e =? asid) && (te_vpn e =? tlb_vpn va) then Some e else None.

Definition tlb_insert (t : tlb) (pdid asid va ptel pteb ppn : Z) : tlb := fun i =>
  if i =? tlb_index va then tlb_entry_make pdid asid (tlb_vpn va) ptel pteb ppn else t i.

(** ** Laws *)

Lemma tlb_index_range va : 0 <= tlb_index va < tlb_size.
Proof using.
  unfold tlb_index, tlb_mask, tlb_size. change (128 - 1) with (Z.ones 7).
  rewrite Z.land_ones by lia. apply Z.mod_pos_bound. lia.
Qed.

(** A key the TLB can hold. *)
Definition tlb_key_ok (pdid asid va : Z) : Prop :=
  0 <= pdid < 2 ^ 32 /\ 0 <= asid < 2 ^ asid_bits xlen /\ 0 <= va < 2 ^ xlen.

Lemma tlb_vpn_range va :
  xlen = 32 \/ xlen = 64 -> 0 <= va < 2 ^ xlen -> 0 <= tlb_vpn va < 2 ^ vpn_bits xlen.
Proof using.
  intros Hx Hva. unfold tlb_vpn, vpn_bits, page_shift. rewrite Z.shiftr_div_pow2 by lia.
  split; [apply Z.div_pos; lia |]. apply Z.div_lt_upper_bound; [lia |].
  rewrite <- Z.pow_add_r by lia. replace (12 + (xlen - 12)) with xlen by lia. lia.
Qed.

(** An inserted mapping is found. *)
Lemma tlb_lookup_insert t pdid asid va ptel pteb ppn :
  xlen = 32 \/ xlen = 64 -> tlb_key_ok pdid asid va ->
  tlb_lookup (tlb_insert t pdid asid va ptel pteb ppn) pdid asid va =
  Some (tlb_entry_make pdid asid (tlb_vpn va) ptel pteb ppn).
Proof using.
  intros Hx (Hp & Ha & Hv). pose proof (tlb_vpn_range va Hx Hv).
  unfold tlb_lookup, tlb_insert. rewrite Z.eqb_refl. cbn [te_pdid te_asid te_vpn tlb_entry_make].
  rewrite !wrap_small by assumption. rewrite !Z.eqb_refl. reflexivity.
Qed.

(** An entry that is found after an insertion is the inserted one or was
    found before. *)
Lemma tlb_lookup_insert_other t pdid asid va ptel pteb ppn pdid' asid' va' e :
  xlen = 32 \/ xlen = 64 -> tlb_key_ok pdid asid va ->
  (pdid', asid', tlb_vpn va') <> (pdid, asid, tlb_vpn va) ->
  tlb_lookup (tlb_insert t pdid asid va ptel pteb ppn) pdid' asid' va' = Some e ->
  tlb_lookup t pdid' asid' va' = Some e.
Proof using.
  intros Hx (Hp & Ha & Hv) Hne. pose proof (tlb_vpn_range va Hx Hv).
  unfold tlb_lookup, tlb_insert. destruct (Z.eqb_spec (tlb_index va') (tlb_index va)); [| auto].
  cbn [te_pdid te_asid te_vpn tlb_entry_make]. rewrite !wrap_small by assumption.
  destruct (Z.eqb_spec pdid pdid'), (Z.eqb_spec asid asid'), (Z.eqb_spec (tlb_vpn va) (tlb_vpn va'));
    try discriminate. congruence.
Qed.

(** What is found has the tag it was looked up with. *)
Lemma tlb_lookup_tag t pdid asid va e :
  tlb_lookup t pdid asid va = Some e ->
  te_pdid e = pdid /\ te_asid e = asid /\ te_vpn e = tlb_vpn va.
Proof using.
  unfold tlb_lookup. destruct (_ && _) eqn:E; [| discriminate]. intros [= <-]. bool_hyps. auto.
Qed.

(** After a flush no mapping of the address space is found, but for the
    all-ones key of an empty entry. *)
Lemma tlb_lookup_flush t pdid asid va e :
  tlb_lookup (tlb_flush t pdid asid) pdid asid va = Some e -> e = tlb_entry_init.
Proof using.
  unfold tlb_lookup, tlb_flush. intros H. repeat case_match; simplify_eq; [| reflexivity].
  bool_hyps. congruence.
Qed.

(** What survives a flush has another protection domain and another address
    space. *)
Lemma tlb_flush_keeps t pdid asid pdid' asid' va e :
  tlb_lookup (tlb_flush t pdid asid) pdid' asid' va = Some e -> e <> tlb_entry_init ->
  pdid' <> pdid /\ asid' <> asid /\ tlb_lookup t pdid' asid' va = Some e.
Proof using.
  unfold tlb_lookup, tlb_flush. intros H Hne.
  repeat case_match; simplify_eq; try congruence;
    split_and!; try assumption; bool_hyps; congruence.
Qed.
End Tlb.
