(* ===== verification/Soft.v ===== *)
(** * Soft: the state of the privileged processor, [processor_priv] of
    [emu/processor-priv-1.9.h] with the soft MMU's TLBs, and the interface of
    the memory bus, [memory_bus] of [emu/mmu-memory.h]. *)

From Stdlib Require Import ZArith Lia Bool List.
From stdpp Require Import base numbers list.
From S2P Require Import Prelude Machine Tlb.

(** ** Registers *)

(** The members of [processor_priv]; each is a [UX] (or a union of one). *)
Inductive preg :=
  | r_pdid | r_mode | r_resetvec
  | r_misa | r_mvendorid | r_marchid | r_mimpid | r_mhartid | r_mstatus | r_mtvec
  | r_medeleg | r_mideleg | r_mip | r_mie | r_mhcounteren | r_mscounteren | r_mucounteren
  | r_mscratch | r_mepc | r_mcause | r_mbadaddr | r_mbase | r_mbound | r_mibase | r_mibound
  | r_mdbase | r_mdbound | r_stvec | r_sedeleg | r_sideleg | r_sscratch | r_sepc | r_scause
  | r_sbadaddr | r_sptbr.

#[export] Instance preg_eq_dec : EqDecision preg.
Proof. solve_decision. Defined.

Definition pregs := preg -> Z.

Definition pregs_set (r : preg) (v : Z) (rs : pregs) : pregs :=
  fun r' => if decide (r' = r) then v else rs r'.

(** ** Bit fields

    The members of [status], [ip] and [ie]: the lowest bit and the width. *)
Record bitfield := mkField { bf_low : Z; bf_width : Z }.

Definition bf_get (f : bitfield) (v : Z) : Z := Z.land (Z.shiftr v (bf_low f)) (Z.ones (bf_width f)).
Definition bf_set (f : bitfield) (x v : Z) : Z :=
  Z.lor (Z.land v (Z.lnot (Z.shiftl (Z.ones (bf_width f)) (bf_low f))))
        (Z.shiftl (wrap (bf_width f) x) (bf_low f)).

Definition bf_sie : bitfield := mkField 1 1.
Definition bf_mie : bitfield := mkField 3 1.
Definition bf_spie : bitfield := mkField 5 1.
Definition bf_mpie : bitfield := mkField 7 1.
Definition bf_spp : bitfield := mkField 8 1.
Definition bf_mpp : bitfield := mkField 11 2.
Definition bf_mprv : bitfield := mkField 17 1.
Definition bf_pum : bitfield := mkField 18 1.
Definition bf_mxr : bitfield := mkField 19 1.
Definition bf_vm : bitfield := mkField 24 4.

(** [ip] and [ie] have the same layout. *)
Definition bf_ss : bitfield := mkField 1 1.
Definition bf_ms : bitfield := mkField 3 1.
Definition bf_st : bitfield := mkField 5 1.
Definition bf_mt : bitfield := mkField 7 1.
Definition bf_se : bitfield := mkField 9 1.
Definition bf_me : bitfield := mkField 11 1.

(** Bit fields of one register that do not overlap. *)
Definition bf_apart (f g : bitfield) : Prop :=
  bf_low f + bf_width f <= bf_low g \/ bf_low g + bf_width g <= bf_low f.

Lemma bf_get_spec f v i :
  0 <= bf_low f -> 0 < bf_width f -> 0 <= i ->
  Z.testbit (bf_get f v) i = (i <? bf_width f) && Z.testbit v (i + bf_low f).
Proof.
  intros Hl Hw Hi. unfold bf_get. rewrite Z.land_spec, Z.shiftr_spec by lia.
  rewrite andb_comm. f_equal. destruct (Z.ltb_spec i (bf_width f));
    [apply Z.ones_spec_low; lia |]. apply Z.ones_spec_high; lia.
Qed.

Lemma bf_set_spec f x v i :
  0 <= bf_low f -> 0 < bf_width f -> 0 <= i ->
  Z.testbit (bf_set f x v) i =
  if (bf_low f <=? i) && (i <? bf_low f + bf_width f) then Z.testbit x (i - bf_low f)
  else Z.testbit v i.
Proof.
  intros Hl Hw Hi. unfold bf_set. rewrite Z.lor_spec, Z.land_spec, Z.lnot_spec, !Z.shiftl_spec by lia.
  destruct (Z.leb_spec (bf_low f) i).
  - rewrite wrap_spec by lia. destruct (Z.ltb_spec i (bf_low f + bf_width f)); simpl.
    + rewrite Z.ones_spec_low by lia. destruct (Z.ltb_spec (i - bf_low f) (bf_width f)); [| lia].
      rewrite andb_false_r. reflexivity.
    + rewrite Z.ones_spec_high by lia. destruct (Z.ltb_spec (i - bf_low f) (bf_width f)); [lia |].
      rewrite andb_true_r, orb_false_r. reflexivity.
  - rewrite !(fun a => Z.testbit_neg_r a (i - bf_low f)) by lia. simpl. rewrite andb_true_r, orb_false_r. reflexivity.
Qed.

Lemma bf_get_set f x v : 0 <= bf_low f -> 0 < bf_width f -> bf_get f (bf_set f x v) = wrap (bf_width f) x.
Proof.
  intros Hl Hw. apply Z.bits_inj'. intros i Hi.
  rewrite bf_get_spec, bf_set_spec, wrap_spec by lia.
  destruct (Z.ltb_spec i (bf_width f)); [| reflexivity].
  destruct (Z.leb_spec (bf_low f) (i + bf_low f)); [| lia].
  destruct (Z.ltb_spec (i + bf_low f) (bf_low f + bf_width f)); [| lia].
  replace (i + bf_low f - bf_low f) with i by lia. reflexivity.
Qed.

Lemma bf_get_set_apart f g x v :
  0 <= bf_low f -> 0 < bf_width f -> 0 <= bf_low g -> 0 < bf_width g -> bf_apart f g ->
  bf_get f (bf_set g x v) = bf_get f v.
Proof.
  intros Hl Hw Hl' Hw' Ha. apply Z.bits_inj'. intros i Hi.
  rewrite !bf_get_spec, bf_set_spec by lia. destruct (Z.ltb_spec i (bf_width f)); [| reflexivity].
  destruct (Z.leb_spec (bf_low g) (i + bf_low f)), (Z.ltb_spec (i + bf_low f) (bf_low g + bf_width g));
    simpl; try reflexivity. destruct Ha; lia.
Qed.

Lemma bf_get_range f v : 0 <= bf_width f -> 0 <= bf_get f v < 2 ^ bf_width f.
Proof. intros Hw. unfold bf_get. rewrite Z.land_ones by exact Hw. apply Z.mod_pos_bound. lia. Qed.

(** Rewriting with the two laws, for the fields above. *)
Ltac bf_simpl :=
  repeat first
    [ rewrite bf_get_set by (cbn; lia)
    | rewrite bf_get_set_apart by (unfold bf_apart; cbn; lia) ].

(** ** State *)

(** [processor_privileged] with [mmu_soft]: the base processor, the
    privileged registers, the two TLBs, the host's memory and the devices. *)
Record soft (D : Type) := mkSoft {
  sm_proc : proc; sm_regs : pregs; sm_itlb : tlb; sm_dtlb : tlb; sm_host : Z -> Z; sm_dev : D }.
Arguments mkSoft {D}.
Arguments sm_proc {D}.
Arguments sm_regs {D}.
Arguments sm_itlb {D}.
Arguments sm_dtlb {D}.
Arguments sm_host {D}.
Arguments sm_dev {D}.

#[export] Instance soft_processor D : Processor (soft D) := {
  base := sm_proc;
  set_base b p := mkSoft b (sm_regs p) (sm_itlb p) (sm_dtlb p) (sm_host p) (sm_dev p) }.

#[export] Instance soft_processor_laws D : ProcessorLaws (soft D).
Proof. split; intros; try destruct p; reflexivity. Qed.

Section Access.
Context {D : Type}.

Definition get_reg (r : preg) : M (soft D) Z := fun p => Ok (sm_regs p r) p.

Definition set_regs (f : pregs -> pregs) : M (soft D) unit := fun p =>
  Ok tt (mkSoft (sm_proc p) (f (sm_regs p)) (sm_itlb p) (sm_dtlb p) (sm_host p) (sm_dev p)).

Definition set_reg (r : preg) (v : Z) : M (soft D) unit := set_regs (pregs_set r v).

(** [r.f] read and written. *)
Definition get_bf (r : preg) (f : bitfield) : M (soft D) Z := v <- get_reg r ;; ret (bf_get f v).
Definition set_bf (r : preg) (f : bitfield) (x : Z) : M (soft D) unit :=
  v <- get_reg r ;; set_reg r (bf_set f x v).

Definition set_itlb (t : tlb) : M (soft D) unit := fun p =>
  Ok tt (mkSoft (sm_proc p) (sm_regs p) t (sm_dtlb p) (sm_host p) (sm_dev p)).
Definition set_dtlb (t : tlb) : M (soft D) unit := fun p =>
  Ok tt (mkSoft (sm_proc p) (sm_regs p) (sm_itlb p) t (sm_host p) (sm_dev p)).
End Access.

(** ** The memory bus

    [load<T>(va, val)] and [store<T>(va, val)] for a type of [w] bits;
    [None] and [true] are the nonzero results, bus errors. *)
Class Bus (P : Type) := {
  bus_load : Z -> Z -> M P (option Z);
  bus_store : Z -> Z -> Z -> M P bool }.

(** [store<f32>(va, val)] and [store<f64>(va, val)], given the float's bits. *)
Class FloatBus (P : Type) := { bus_store_f : host_fpu -> Z -> Z -> Z -> M P bool }.

(** ** Frame conditions

    [keeps R m Q]: [m] ends in a state related to the one it starts in, by
    returning a value that satisfies [Q] or by raising. *)
Section Keeps.
Context {P : Type} (R : P -> P -> Prop) `{!PreOrder R}.

Definition keeps {A} (m : M P A) (Q : A -> Prop) : Prop :=
  forall p, match m p with
  | Ok a p' => R p p' /\ Q a
  | Raise _ p' => R p p'
  | Undefined => True
  end.

Lemma keeps_ret {A} (a : A) (Q : A -> Prop) : Q a -> keeps (ret a) Q.
Proof using PreOrder0. intros HQ p. simpl. split; [reflexivity | exact HQ]. Qed.

Lemma keeps_undefined {A} (Q : A -> Prop) : keeps undefined Q.
Proof using. intros p. exact Logic.I. Qed.

Lemma keeps_bind {A B} (m : M P A) (f : A -> M P B) (Q : A -> Prop) (Q' : B -> Prop) :
  keeps m Q -> (forall a, Q a -> keeps (f a) Q') -> keeps (bind m f) Q'.
Proof using PreOrder0.
  intros Hm Hf p. unfold bind. specialize (Hm p). destruct (m p) as [a p' | c p' |]; [| assumption..].
  destruct Hm as [HR HQ]. specialize (Hf a HQ p').
  destruct (f a p') as [b p'' | c p'' |]; [| etransitivity; eassumption | exact Logic.I].
  destruct Hf. split; [etransitivity; eassumption | assumption].
Qed.

Lemma keeps_bind_any {A B} (m : M P A) (f : A -> M P B) (Q' : B -> Prop) :
  keeps m (fun _ => True) -> (forall a, keeps (f a) Q') -> keeps (bind m f) Q'.
Proof using PreOrder0. intros Hm Hf. eapply keeps_bind; [exact Hm |]. auto. Qed.

Lemma keeps_weaken {A} (m : M P A) (Q Q' : A -> Prop) :
  keeps m Q -> (forall a, Q a -> Q' a) -> keeps m Q'.
Proof using.
  intros Hm HQ p. specialize (Hm p). destruct (m p); [| assumption..]. destruct Hm. auto.
Qed.

(** A computation that only reads. *)
Lemma keeps_read {A} (f : P -> A) : keeps (fun p => Ok (f p) p) (fun _ => True).
Proof using PreOrder0. intros p. split; [reflexivity | exact Logic.I]. Qed.
End Keeps.

Lemma keeps_sub {P A} (R R' : P -> P -> Prop) (m : M P A) Q :
  (forall p p', R p p' -> R' p p') -> keeps R m Q -> keeps R' m Q.
Proof.
  intros HR Hm p. specialize (Hm p). destruct (m p); [destruct Hm; auto | auto | assumption].
Qed.

#[export] Instance same_regs_preorder : PreOrder same_regs.
Proof.
  split.
  - intros b. repeat split.
  - intros b b' b'' (? & ? & ? & ? & ? & ? & ? & ?) (? & ? & ? & ? & ? & ? & ? & ?).
    repeat split; congruence.
Qed.

(** What the MMU asks of the bus: an access changes the host's memory and the
    devices only, and what it loads has its width. *)
Definition same_core {D} (p p' : soft D) : Prop :=
  sm_proc p' = sm_proc p /\ sm_regs p' = sm_regs p /\
  sm_itlb p' = sm_itlb p /\ sm_dtlb p' = sm_dtlb p.

#[export] Instance same_core_preorder D : PreOrder (@same_core D).
Proof.
  split.
  - intros p. repeat split.
  - intros p p' p'' (? & ? & ? & ?) (? & ? & ? & ?). repeat split; congruence.
Qed.

Class BusLaws (D : Type) `{Bus (soft D)} : Prop := {
  bus_load_core : forall w va, keeps same_core (bus_load w va)
    (fun r => forall v, r = Some v -> 0 <= v < 2 ^ w);
  bus_store_core : forall w va v, keeps same_core (bus_store w va v) (fun _ => True) }.

(** What an access through the MMU may change beside the host's memory and
    the devices: the TLBs, and [badaddr] and [cause] when it raises. *)
Definition same_priv {D} (p p' : soft D) : Prop :=
  same_regs (sm_proc p) (sm_proc p') /\ sm_regs p' = sm_regs p.

#[export] Instance same_priv_preorder D : PreOrder (@same_priv D).
Proof.
  split.
  - intros p. split; reflexivity.
  - intros p p' p'' [] []. split; [etransitivity; eassumption | congruence].
Qed.

(** The same when the host's floating-point unit was used. *)
Definition same_priv_env {D} (p p' : soft D) : Prop :=
  (exists e, same_regs (set_env (sm_proc p) e) (sm_proc p')) /\ sm_regs p' = sm_regs p.

#[export] Instance same_priv_env_preorder D : PreOrder (@same_priv_env D).
Proof.
  split.
  - intros p. split; [| reflexivity]. exists (env (sm_proc p)). destruct (sm_proc p). reflexivity.
  - intros p p' p'' [[e E] H] [[e' E'] H']. split; [| congruence]. exists e'.
    destruct E as (? & ? & ? & ? & ? & ? & ? & ?), E' as (? & ? & ? & ? & ? & ? & ? & ?). cbn in *. repeat split; cbn; congruence.
Qed.

Lemma same_priv_weaken D (p p' : soft D) : same_priv p p' -> same_priv_env p p'.
Proof. intros [H E]. split; [| exact E]. exists (env (sm_proc p)). destruct (sm_proc p). exact H. Qed.

Class FloatBusLaws (D : Type) `{FloatBus (soft D)} : Prop := {
  bus_store_f_priv : forall fpu w va v, keeps same_priv_env (bus_store_f fpu w va v) (fun _ => True) }.

Lemma same_core_priv D (p p' : soft D) : same_core p p' -> same_priv p p'.
Proof. intros (E & Er & _). split; [rewrite E; reflexivity | exact Er]. Qed.

Lemma keeps_raise {D} c a : keeps (@same_priv D) (raise c a) (fun _ => True).
Proof.
  intros p. unfold raise, bind, modify, gets, ret. cbn.
  destruct (exceptions (sm_proc p)) eqn:E; cbn; unfold same_priv; cbn;
    rewrite ?E; repeat split; auto.
Qed.
