(* ===== verification/Memory.v ===== *)
(** * Memory: the memory bus of [emu/mmu-memory.h].

    A segment maps a range of the machine's physical addresses to the host's
    address space; RAM is an [mmap_memory_segment], a device is a segment with
    load and store operations of its own. *)

From Stdlib Require Import ZArith Lia Bool List.
From stdpp Require Import base numbers list.
From S2P Require Import Prelude Machine Fpu Proxy Tlb Soft.

(** ** Segments *)

(** [memory_segment] with its virtual functions: [w] is the access's width,
    and the address they are given is the host's. *)
Record mem_segment (D : Type) := mkSegment {
  seg_mpa : Z; seg_uva : Z; seg_size : Z;
  seg_load : Z -> Z -> M (soft D) (option Z);
  seg_store : Z -> Z -> Z -> M (soft D) bool }.
Arguments mkSegment {D}.
Arguments seg_mpa {D}.
Arguments seg_uva {D}.
Arguments seg_size {D}.
Arguments seg_load {D}.
Arguments seg_store {D}.

Section Memory.
Context {D : Type}.

Definition mmap_load (w va : Z) : M (soft D) (option Z) := fun p =>
  Ok (Some (read_T w (sm_host p) va)) p.

Definition mmap_store (w va v : Z) : M (soft D) bool := fun p =>
  Ok false (mkSoft (sm_proc p) (sm_regs p) (sm_itlb p) (sm_dtlb p)
              (write_bytes (bytes_of w) (sm_host p) va v) (sm_dev p)).

(** [mmap_memory_segment]. *)
Definition mmap_segment (mpa uva size : Z) : mem_segment D :=
  mkSegment mpa uva size mmap_load mmap_store.

(** ** The bus

    [user_memory]; [seg->mpa + seg->size] is a 64-bit sum in both base ISAs. *)
Context (xlen : Z) (segments : list (mem_segment D)).

Definition seg_has (mpa : Z) (s : mem_segment D) : bool :=
  (seg_mpa s <=? mpa) &&
  ((mpa <? u64 (seg_mpa s + seg_size s)) || (u64 (seg_mpa s + seg_size s) =? 0)).

Fixpoint mpa_to_uva (segs : list (mem_segment D)) (mpa : Z) : option (mem_segment D * Z) :=
  match segs with
  | [] => None
  | s :: segs =>
      if seg_has mpa s then Some (s, u64 (seg_uva s + (mpa - seg_mpa s))) else mpa_to_uva segs mpa
  end.

(** The sizes [load] and [store] dispatch on. *)
Definition bus_width (w : Z) : bool := (w =? 8) || (w =? 16) || (w =? 32) || (w =? 64).

(** [load_8], ..., [load_64] of [user_memory]: the segment's functions take
    the host's address as a [UX]. *)
Definition memory_load (w va : Z) : M (soft D) (option Z) :=
  if bus_width w then
    match mpa_to_uva segments (wrap xlen va) with
    | Some (s, uva) => seg_load s w (wrap xlen uva)
    | None => ret None
    end
  else ret None.

Definition memory_store (w va v : Z) : M (soft D) bool :=
  if bus_width w then
    match mpa_to_uva segments (wrap xlen va) with
    | Some (s, uva) => seg_store s w (wrap xlen uva) v
    | None => ret true
    end
  else ret true.

#[export] Instance user_memory : Bus (soft D) := {
  bus_load := memory_load; bus_store := memory_store }.

(** [memory_bus::store] of a float passes it to [store_32] or [store_64], whose
    parameter is an unsigned integer: C++ converts the value. *)
Definition float_arg (fpu : host_fpu) (w v : Z) : M (soft D) Z :=
  accrue (if w =? 32 then f_to_u32 fpu 32 v else f_to_u64 fpu 64 v).

Definition memory_store_f (fpu : host_fpu) (w va v : Z) : M (soft D) bool :=
  u <- float_arg fpu w v ;; memory_store w va u.

#[export] Instance user_memory_f : FloatBus (soft D) := { bus_store_f := memory_store_f }.

(** ** Laws *)

(** A segment's functions behave as the MMU asks. *)
Definition segment_ok (s : mem_segment D) : Prop :=
  (forall w va, 0 < w -> keeps same_core (seg_load s w va)
     (fun r => forall v, r = Some v -> 0 <= v < 2 ^ w)) /\
  (forall w va v, keeps same_core (seg_store s w va v) (fun _ => True)).

Lemma mmap_segment_ok mpa uva size : segment_ok (mmap_segment mpa uva size).
Proof using.
  split; intros; intros p; cbn; (split; [repeat split |]); [| exact I].
  intros v' [= <-]. apply wrap_range. assumption.
Qed.

Lemma mpa_to_uva_in segs mpa s uva :
  mpa_to_uva segs mpa = Some (s, uva) ->
  In s segs /\ seg_has mpa s = true /\ uva = u64 (seg_uva s + (mpa - seg_mpa s)).
Proof using.
  induction segs as [| s' segs IH]; simpl; [discriminate |].
  destruct (seg_has mpa s') eqn:E; [intros [= <- <-]; auto |].
  intros H. destruct (IH H) as (? & ? & ?). auto.
Qed.

Lemma bus_width_pos w : bus_width w = true -> 0 < w.
Proof using. unfold bus_width. intros H. rewrite !orb_true_iff, !Z.eqb_eq in H. lia. Qed.

Lemma user_memory_laws : Forall segment_ok segments -> BusLaws D.
Proof using.
  intros Hs. rewrite Forall_forall in Hs.
  assert (Hin : forall mpa s uva, mpa_to_uva segments mpa = Some (s, uva) -> segment_ok s).
  { intros mpa s uva E. apply mpa_to_uva_in in E. destruct E as [E _]. apply Hs, list_elem_of_In, E. }
  split; intros; cbn [bus_load bus_store user_memory]; unfold memory_load, memory_store;
    (destruct (bus_width w) eqn:Ew; [apply bus_width_pos in Ew |]);
    try (destruct (mpa_to_uva _ _) as [[s uva] |] eqn:E; [apply Hin in E; destruct E as [Hl Hst]; auto |]);
    apply (keeps_ret same_core); first [exact I | intros ? [=]].
Qed.

Lemma user_memory_f_laws : Forall segment_ok segments -> FloatBusLaws D.
Proof using.
  intros Hs. split. intros fpu w va v. cbn [bus_store_f user_memory_f]. unfold memory_store_f, float_arg, accrue.
  apply (keeps_bind_any same_priv_env); [apply (keeps_bind_any same_priv_env); [| intros _; apply (keeps_ret same_priv_env); exact I] |].
  - intros p. split; [| exact I]. split; [| reflexivity]. eexists. cbn. reflexivity.
  - intros u. pose proof (user_memory_laws Hs) as HL. eapply keeps_sub; [| exact (bus_store_core (BusLaws := HL) w va u)].
    intros p p' Hc. apply same_priv_weaken, same_core_priv, Hc.
Qed.
End Memory.

(** ** Bytes in memory *)

(** Byte [i] of a value. *)
Definition byte_of (v i : Z) : Z := u8 (Z.shiftr v (8 * i)).

Lemma byte_of_read n mem addr i :
  0 <= i < Z.of_nat n -> byte_of (read_bytes n mem addr) i = u8 (mem (addr + i)).
Proof.
  revert addr i. induction n as [| n IH]; intros addr i Hi; [lia |].
  cbn [read_bytes]. pose proof (wrap_range 8 ltac:(lia) (mem addr)) as Hb. unfold byte_of.
  rewrite Z.shiftl_mul_pow2, Z.shiftr_div_pow2 by lia.
  destruct (Z.eqb_spec i 0) as [-> |].
  - rewrite Z.mul_0_r, Z.div_1_r, Z.add_0_r. unfold wrap. rewrite Z.mod_add, Z.mod_mod by lia.
    reflexivity.
  - replace (8 * i) with (8 + 8 * (i - 1)) by lia.
    rewrite Z.pow_add_r, <- Z.div_div by lia. rewrite Z.div_add by lia.
    rewrite (Z.div_small (u8 _)), Z.add_0_l by exact Hb.
    rewrite <- Z.shiftr_div_pow2 by lia. fold (byte_of (read_bytes n mem (addr + 1)) (i - 1)).
    rewrite IH by lia. do 2 f_equal. lia.
Qed.

Lemma write_bytes_in n mem addr v i :
  0 <= i < Z.of_nat n -> write_bytes n mem addr v (addr + i) = byte_of v i.
Proof.
  revert mem addr v i. induction n as [| n IH]; intros mem addr v i Hi; [lia |].
  cbn [write_bytes]. destruct (Z.eqb_spec i 0) as [-> |].
  - rewrite write_bytes_out by lia. rewrite Z.add_0_r, Z.eqb_refl. reflexivity.
  - replace (addr + i) with (addr + 1 + (i - 1)) by lia. rewrite IH by lia.
    unfold byte_of. rewrite Z.shiftr_shiftr by lia. do 2 f_equal. lia.
Qed.

(** ** Guest memory

    What the bus implements when every segment is RAM: a partial map from
    physical addresses to bytes. *)
Section Ram.
Context {D : Type} (xlen : Z) (segments : list (mem_segment D)).

(** RAM whose range of physical and of host addresses does not wrap. *)
Record ram_segment (s : mem_segment D) : Prop := {
  rs_load : seg_load s = mmap_load;
  rs_store : seg_store s = mmap_store;
  rs_mpa : 0 <= seg_mpa s /\ 0 < seg_size s /\ seg_mpa s + seg_size s <= 2 ^ xlen;
  rs_uva : 0 <= seg_uva s /\ seg_uva s + seg_size s <= 2 ^ xlen }.

Definition host_apart (s s' : mem_segment D) : Prop :=
  seg_uva s + seg_size s <= seg_uva s' \/ seg_uva s' + seg_size s' <= seg_uva s.

(** Two segments are apart in the host's memory or are the same. *)
Record ram_ok : Prop := {
  ram_xlen : xlen = 32 \/ xlen = 64;
  ram_segments : Forall ram_segment segments;
  ram_apart : forall s s', s ∈ segments -> s' ∈ segments -> s = s' \/ host_apart s s' }.

Definition phys (host : Z -> Z) (a : Z) : option Z :=
  match mpa_to_uva segments a with Some (_, uva) => Some (u8 (host uva)) | None => None end.

(** The segment that [mpa_to_uva] finds for [a] holds [n] bytes from [a], and
    no earlier segment holds one of them. *)
Definition inside (s : mem_segment D) (a n : Z) : Prop :=
  forall i, 0 <= i < n -> mpa_to_uva segments (a + i) = Some (s, seg_uva s + (a + i - seg_mpa s)).

Context (Hram : ram_ok).

Lemma ram_found a s uva :
  0 <= a < 2 ^ xlen -> mpa_to_uva segments a = Some (s, uva) ->
  s ∈ segments /\ ram_segment s /\ seg_mpa s <= a < seg_mpa s + seg_size s /\
  uva = seg_uva s + (a - seg_mpa s) /\ 0 <= uva < 2 ^ xlen.
Proof using Hram.
  intros Ha H. apply mpa_to_uva_in in H. destruct H as (Hin & Hh & ->).
  apply list_elem_of_In in Hin. destruct Hram as [Hx Hs _]. rewrite Forall_forall in Hs.
  pose proof (Hs _ Hin) as Hr. destruct Hr as [_ _ Hm Hu]. unfold seg_has in Hh.
  assert (2 ^ xlen <= 2 ^ 64) by (apply Z.pow_le_mono_r; lia).
  apply andb_true_iff in Hh. destruct Hh as [Hlo Hhi]. apply Z.leb_le in Hlo.
  assert (Hr : a < seg_mpa s + seg_size s).
  { destruct (Z.eqb_spec (seg_mpa s + seg_size s) (2 ^ 64)) as [E |].
    - lia.
    - rewrite wrap_small in Hhi by lia. rewrite orb_true_iff, Z.ltb_lt, Z.eqb_eq in Hhi. lia. }
  rewrite wrap_small by lia. auto 10 with lia.
Qed.

(** Different addresses are different bytes of the host. *)
Lemma ram_injective a a' s s' u :
  0 <= a < 2 ^ xlen -> 0 <= a' < 2 ^ xlen ->
  mpa_to_uva segments a = Some (s, u) -> mpa_to_uva segments a' = Some (s', u) -> a = a'.
Proof using Hram.
  intros Ha Ha' H H'. apply ram_found in H, H'; try assumption.
  destruct H as (Hin & _ & Hm & Hu & _), H' as (Hin' & _ & Hm' & Hu' & _).
  destruct (ram_apart Hram s s' Hin Hin') as [<- | [Hd | Hd]]; lia.
Qed.

Lemma bus_width_bytes w : bus_width w = true -> w = 8 * Z.of_nat (bytes_of w) /\ 0 < w.
Proof using.
  unfold bus_width, bytes_of. rewrite !orb_true_iff, !Z.eqb_eq.
  intros [[[-> | ->] | ->] | ->]; split; reflexivity.
Qed.

Section Access.
Context (s : mem_segment D) (w a : Z).
Context (Hw : bus_width w = true).
Context (Ha : 0 <= a /\ a + Z.of_nat (bytes_of w) <= 2 ^ xlen).
Context (Hin : inside s a (Z.of_nat (bytes_of w))).

(** The access goes to the host's address of the first byte. *)
Lemma inside_base :
  mpa_to_uva segments (wrap xlen a) = Some (s, seg_uva s + (a - seg_mpa s)) /\
  ram_segment s /\ 0 <= seg_uva s + (a - seg_mpa s) < 2 ^ xlen.
Proof using Hram Hw Ha Hin.
  destruct (bus_width_bytes w Hw) as [Hb Hp]. pose proof (Hin 0 ltac:(lia)) as H0.
  rewrite Z.add_0_r in H0. rewrite wrap_small by lia.
  destruct (ram_found a s _ ltac:(lia) H0) as (_ & Hr & _ & _ & Hu). auto.
Qed.

Lemma memory_load_inside p :
  memory_load xlen segments w a p =
  Ok (Some (read_T w (sm_host p) (seg_uva s + (a - seg_mpa s)))) p.
Proof using Hram Hw Ha Hin.
  destruct inside_base as (E & Hr & Hu). unfold memory_load. rewrite Hw, E, (rs_load s Hr).
  rewrite wrap_small by assumption. reflexivity.
Qed.

Lemma memory_store_inside v p :
  memory_store xlen segments w a v p =
  mmap_store w (seg_uva s + (a - seg_mpa s)) v p.
Proof using Hram Hw Ha Hin.
  destruct inside_base as (E & Hr & Hu). unfold memory_store. rewrite Hw, E, (rs_store s Hr).
  rewrite wrap_small by assumption. reflexivity.
Qed.

Lemma phys_inside host i :
  0 <= i < Z.of_nat (bytes_of w) ->
  phys host (a + i) = Some (u8 (host (seg_uva s + (a - seg_mpa s) + i))).
Proof using Hram Hw Ha Hin.
  intros Hi. unfold phys. rewrite (Hin i Hi). do 3 f_equal. lia.
Qed.

(** What a load returns. *)
Lemma load_byte host i :
  0 <= i < Z.of_nat (bytes_of w) ->
  phys host (a + i) = Some (byte_of (read_T w host (seg_uva s + (a - seg_mpa s))) i).
Proof using Hram Hw Ha Hin.
  intros Hi. rewrite phys_inside by exact Hi. f_equal. unfold read_T.
  destruct (bus_width_bytes w Hw) as [Hb _].
  pose proof (read_bytes_range (bytes_of w) host (seg_uva s + (a - seg_mpa s))) as Hr.
  rewrite <- Hb in Hr. rewrite (wrap_small w) by exact Hr. rewrite byte_of_read by exact Hi. reflexivity.
Qed.

(** What a store leaves. *)
Lemma store_byte host v b :
  0 <= b < 2 ^ xlen ->
  phys (write_bytes (bytes_of w) host (seg_uva s + (a - seg_mpa s)) v) b =
  if (a <=? b) && (b <? a + Z.of_nat (bytes_of w)) then Some (byte_of v (b - a)) else phys host b.
Proof using Hram Hw Ha Hin.
  intros Hb. set (n := Z.of_nat (bytes_of w)) in *. set (u := seg_uva s + (a - seg_mpa s)).
  destruct (Z.leb_spec a b), (Z.ltb_spec b (a + n)); cbn [andb].
  { replace b with (a + (b - a)) at 1 by lia. rewrite phys_inside by (fold n; lia). fold u.
    rewrite write_bytes_in by (fold n; lia). f_equal. apply wrap_small.
    unfold byte_of. apply wrap_range. lia. }
  all: unfold phys; destruct (mpa_to_uva segments b) as [[s' u'] |] eqn:E; [| reflexivity];
    rewrite write_bytes_out; [reflexivity |]; fold n; intros Hu';
    assert (Hi : 0 <= u' - u < n) by lia; specialize (Hin _ Hi);
    replace (seg_uva s + (a + (u' - u) - seg_mpa s)) with u' in Hin by (unfold u; lia).
  all: enough (a + (u' - u) = b) by lia;
    apply (ram_injective _ _ s s' u'); [lia | lia | exact Hin | exact E].
Qed.
End Access.
End Ram.
