(* ===== verification/Mmu.v ===== *)
(** * Mmu: the soft MMU of [emu/mmu-soft.h]: page translation with the
    page-table walker and the TLBs, access checks, and the loads, stores,
    atomic operations and instruction fetches of the processor. *)

From Stdlib Require Import ZArith Lia Bool List.
From stdpp Require Import base numbers list.
From S2P Require Import Prelude Decode Alu Machine Csr Tlb Soft Memory.

(** ** Page tables: [emu/pte.h] *)

(** [struct sv32], [sv39] and [sv48]: the number of levels, the bits of an
    index, the bits of a PTE and of its page number. *)
Record ptm := mkPtm { ptm_levels : Z; ptm_bits : Z; ptm_size : Z; ptm_ppn : Z }.

Definition sv32 : ptm := mkPtm 2 10 32 22.
Definition sv39 : ptm := mkPtm 3 9 64 38.
Definition sv48 : ptm := mkPtm 4 9 64 38.

(** [enum rv_vm] of [asm/meta.h]. *)
Definition rv_vm_mbare : Z := 0.
Definition rv_vm_sv32 : Z := 8.
Definition rv_vm_sv39 : Z := 9.
Definition rv_vm_sv48 : Z := 10.

(** [pte.val.flags] and [pte.val.ppn] of the raw [pte.xu.val]. *)
Definition pte_flags (pte : Z) : Z := Z.land pte 0x3ff.
Definition pte_ppn (t : ptm) (pte : Z) : Z := Z.land (Z.shiftr pte 10) (Z.ones (ptm_ppn t)).

(** [pte.val.ppn << page_shift]: a bit field of 22 bits is promoted to
    [int]. *)
Definition pte_addr (xlen : Z) (t : ptm) (pte : Z) : Z :=
  wrap xlen (if ptm_size t =? 32 then swrap 32 (Z.shiftl (pte_ppn t pte) page_shift)
             else u64 (Z.shiftl (pte_ppn t pte) page_shift)).

(** ** Operations *)
Inductive mmu_op := op_fetch | op_load | op_store.

#[export] Instance mmu_op_eq_dec : EqDecision mmu_op.
Proof. solve_decision. Defined.

(** [enum rv_cause]. *)
Definition rv_cause_misaligned_fetch : Z := 0.
Definition rv_cause_fault_fetch : Z := 1.
Definition rv_cause_misaligned_load : Z := 4.
Definition rv_cause_fault_load : Z := 5.
Definition rv_cause_misaligned_store : Z := 6.
Definition rv_cause_fault_store : Z := 7.

Definition ad_flags (op : mmu_op) : Z :=
  Z.lor pte_flag_A (if decide (op = op_store) then pte_flag_D else 0).

Definition has_flag (v flag : Z) : bool := negb (Z.land v flag =? 0).

Section Mmu.
Context {D : Type} `{Bus (soft D)} `{FB : FloatBus (soft D)} (xlen : Z).
Abbreviation S := (soft D).
Abbreviation ux := (wrap xlen).

(** [misaligned<T>(va)]. *)
Definition misaligned (w va : Z) : bool := negb (Z.land va (w / 8 - 1) =? 0).

(** ** Access checks *)

(** [tlb_ent] is null when the address was not page translated. *)
Definition fetch_access_fault (privilege_level : Z) (ent : option tlb_entry) : bool :=
  match ent with
  | None => false
  | Some e =>
      negb (has_flag (te_pteb e) pte_flag_X) ||
      (if has_flag (te_pteb e) pte_flag_U then rv_mode_U <? privilege_level
       else privilege_level <? rv_mode_S)
  end.

Definition load_access_fault (rs : pregs) (privilege_level : Z) (ent : option tlb_entry) : bool :=
  match ent with
  | None => false
  | Some e =>
      (negb (has_flag (te_pteb e) pte_flag_R) &&
       negb (has_flag (te_pteb e) pte_flag_X && negb (bf_get bf_mxr (rs r_mstatus) =? 0))) ||
      (if has_flag (te_pteb e) pte_flag_U
       then (rv_mode_U <? privilege_level) && negb (bf_get bf_pum (rs r_mstatus) =? 0)
       else privilege_level <? rv_mode_S)
  end.

Definition store_access_fault (rs : pregs) (privilege_level : Z) (ent : option tlb_entry) : bool :=
  match ent with
  | None => false
  | Some e =>
      negb (has_flag (te_pteb e) pte_flag_W) ||
      (if has_flag (te_pteb e) pte_flag_U
       then (rv_mode_U <? privilege_level) && negb (bf_get bf_pum (rs r_mstatus) =? 0)
       else privilege_level <? rv_mode_S)
  end.

(** ** Translation *)
Definition effective_mode (rs : pregs) (op : mmu_op) : Z :=
  let st := rs r_mstatus in
  if (rv_mode_M <=? rs r_mode) && (bf_get bf_mprv st =? 1) &&
     bool_decide (op <> op_fetch) && (bf_get bf_mpp st <=? rv_mode_S)
  then bf_get bf_mpp st else rs r_mode.

(** [PTM::bits * level + page_shift], a [UX]. *)
Definition level_shift (t : ptm) (level : Z) : Z := ux (ptm_bits t * level + page_shift).

(** [page_translate_offset<PTM>(ppn, va, level)]; a shift by 64 or more is
    undefined. *)
Definition page_translate_offset (t : ptm) (ppn va level : Z) : M S Z :=
  let shift := level_shift t level in
  if shift <? 64
  then ret (u64 (ux (Z.shiftl ppn page_shift) + Z.land va (Z.shiftl 1 shift - 1)))
  else undefined.

(** The [fault:] label: each case of the switch falls through to the next
    when [raise] returns. *)
Definition walk_fault (op : mmu_op) (va : Z) : M S unit :=
  match op with
  | op_fetch => raise rv_cause_fault_fetch va ;; raise rv_cause_fault_load va ;;
                raise rv_cause_fault_store va
  | op_load => raise rv_cause_fault_load va ;; raise rv_cause_fault_store va
  | op_store => raise rv_cause_fault_store va
  end.

(** The result of a walk: the physical address, 0 on a fault, and the values
    left in [pte] and [level]. *)
Definition walk_result : Type := Z * Z * Z.

Definition walk_faulted (op : mmu_op) (va pte level : Z) : M S walk_result :=
  walk_fault op va ;; ret (0, pte, level).

(** A leaf PTE: the body of the loop from the check of the V bit. *)
Definition walk_leaf (t : ptm) (op : mmu_op) (va pte_mpa pte level shift : Z) : M S walk_result :=
  let sh := ux (shift - page_shift) in
  if sh <? 32 then
    if negb (Z.land (swrap 32 (Z.shiftl 1 sh) - 1) (pte_ppn t pte) =? 0)
    then walk_faulted op va pte level
    else
      let ad := ad_flags op in
      if Z.land (pte_flags pte) ad =? ad then
        pa <- page_translate_offset t (pte_ppn t pte) va level ;; ret (pa, pte, level)
      else
        let pte := Z.lor pte ad in
        err <- bus_store (ptm_size t) pte_mpa pte ;;
        if err : bool then walk_faulted op va pte level
        else pa <- page_translate_offset t (pte_ppn t pte) va level ;; ret (pa, pte, level)
  else undefined.

(** One iteration of the loop and the next ones; [level] is unsigned, so the
    loop's condition [level >= 0] always holds.  Out of fuel the function is
    undefined; [walk_levels_fuel] below shows that the fuel is enough, because
    two iterations past level 0 the shift count is out of range. *)
Fixpoint walk_levels (fuel : nat) (t : ptm) (op : mmu_op) (va ppn level : Z) : M S walk_result :=
  match fuel with
  | O => undefined
  | Datatypes.S fuel =>
      let shift := level_shift t level in
      if shift <? xlen then
        let vpn := Z.land (Z.shiftr va shift) (Z.ones (ptm_bits t)) in
        let pte_mpa := ux (ppn + vpn * (ptm_size t / 8)) in
        r <- bus_load (ptm_size t) pte_mpa ;;
        match r with
        | None => walk_faulted op va 0 level
        | Some pte =>
            let bit i := Z.testbit pte i in
            if negb (bit pte_shift_R || bit pte_shift_W || bit pte_shift_X)
            then walk_levels fuel t op va (pte_addr xlen t pte) (ux (level - 1))
            else if negb (bit pte_shift_V) || (negb (bit pte_shift_R) && bit pte_shift_W)
            then walk_faulted op va pte level
            else if has_flag (pte_flags pte) (Z.lor pte_flag_R pte_flag_X)
            then walk_leaf t op va pte_mpa pte level shift
            else walk_levels fuel t op va ppn (ux (level - 1))
        end
      else undefined
  end.

Definition walk_fuel (t : ptm) : nat := Z.to_nat (ptm_levels t + 2).

Definition walk_page_table (t : ptm) (va : Z) (op : mmu_op) : M S walk_result :=
  sptbr <- get_reg r_sptbr ;;
  walk_levels (walk_fuel t) t op va
    (ux (Z.shiftl (Z.land sptbr (Z.ones (ppn_bits xlen))) page_shift)) (ptm_levels t - 1).

(** The TLB an operation uses. *)
Definition tlb_of (op : mmu_op) (p : S) : tlb :=
  match op with op_fetch => sm_itlb p | _ => sm_dtlb p end.
Definition set_tlb (op : mmu_op) (t : tlb) : M S unit :=
  match op with op_fetch => set_itlb t | _ => set_dtlb t end.

Definition asid (p : S) : Z := Z.shiftr (sm_regs p r_sptbr) (ppn_bits xlen).

(** [tlb_ent] is the entry that the lookup found, kept when the walk fails. *)
Definition page_translate_addr_tlb_miss (t : ptm) (va : Z) (op : mmu_op) (ent : option tlb_entry) :
    M S (Z * option tlb_entry) :=
  r <- walk_page_table t va op ;;
  let '(pa, pte, level) := r in
  if pa =? 0 then ret (0, ent)
  else fun p =>
    let tlb' := tlb_insert xlen (tlb_of op p) (sm_regs p r_pdid) (asid p) va level (pte_flags pte)
                  (pte_ppn t pte) in
    (set_tlb op tlb' ;; ret (pa, Some (tlb' (tlb_index va)))) p.

Definition page_translate_addr (t : ptm) (va : Z) (op : mmu_op) : M S (Z * option tlb_entry) :=
  fun p =>
    let ent := tlb_lookup (tlb_of op p) (sm_regs p r_pdid) (asid p) va in
    let miss := page_translate_addr_tlb_miss t va op ent in
    match ent with
    | Some e =>
        if Z.land (te_pteb e) (ad_flags op) =? ad_flags op then miss p
        else (pa <- page_translate_offset t (te_ppn e) va (te_ptel e) ;; ret (pa, ent)) p
    | None => miss p
    end.

(** [panic] on an unsupported mode ends the program. *)
Definition translate_addr (va : Z) (op : mmu_op) : M S (Z * option tlb_entry) := fun p =>
  if rv_mode_M <=? effective_mode (sm_regs p) op then Ok (va, None) p
  else switch (bf_get bf_vm (sm_regs p r_mstatus))
    [rv_vm_mbare ~> ret (va, None);
     rv_vm_sv32 ~> page_translate_addr sv32 va op;
     rv_vm_sv39 ~> page_translate_addr sv39 va op;
     rv_vm_sv48 ~> page_translate_addr sv48 va op]
    undefined p.

(** ** Accesses *)

(** [load_access_fault(proc, proc.mode, tlb_ent) || mem->load(mpa, val)]: the
    value, or [None]. *)
Definition checked_load (w mpa : Z) (ent : option tlb_entry) : M S (option Z) := fun p =>
  if load_access_fault (sm_regs p) (sm_regs p r_mode) ent then Ok None p
  else bus_load w mpa p.

Definition checked_store (w mpa v : Z) (ent : option tlb_entry) : M S bool := fun p =>
  if store_access_fault (sm_regs p) (sm_regs p r_mode) ent then Ok true p
  else bus_store w mpa v p.

Definition checked_store_f (fpu : host_fpu) (w mpa v : Z) (ent : option tlb_entry) : M S bool := fun p =>
  if store_access_fault (sm_regs p) (sm_regs p r_mode) ent then Ok true p
  else bus_store_f fpu w mpa v p.

(** [raise] where the caller's variable is not assigned: it has no value when
    [raise] returns. *)
Definition raise_unset {A} (cause va : Z) : M S A := raise cause va ;; undefined.

Definition soft_load (w va : Z) : M S Z :=
  if misaligned w va then raise_unset rv_cause_misaligned_load va
  else
    r <- translate_addr va op_load ;;
    let '(mpa, ent) := r in
    if mpa =? 0 then undefined
    else
      v <- checked_load w mpa ent ;;
      match v with Some v => ret v | None => raise_unset rv_cause_fault_load va end.

(** [store<P,T>]; [put] is [mem->store(mpa, val)] for [T]. *)
Definition soft_store_with (put : Z -> option tlb_entry -> M S bool) (w va : Z) : M S unit :=
  if misaligned w va then raise rv_cause_misaligned_store va
  else
    r <- translate_addr va op_store ;;
    let '(mpa, ent) := r in
    if mpa =? 0 then ret tt
    else
      err <- put mpa ent ;;
      if err : bool then raise rv_cause_fault_store va else ret tt.

Definition soft_store (w va v : Z) : M S unit := soft_store_with (fun mpa ent => checked_store w mpa v ent) w va.
Definition soft_store_f (fpu : host_fpu) (w va v : Z) : M S unit := soft_store_with (fun mpa ent => checked_store_f fpu w mpa v ent) w va.

Definition soft_amo (w : Z) (a_op : amo_op) (va val2 : Z) : M S Z :=
  if misaligned w va then raise_unset rv_cause_misaligned_store va
  else
    r <- translate_addr va op_store ;;
    let '(mpa, ent) := r in
    if mpa =? 0 then undefined
    else
      v <- checked_load w mpa ent ;;
      match v with
      | None => raise_unset rv_cause_fault_store va
      | Some val1 =>
          let val2 := wrap w (amo_fn xlen a_op (swrap w val1) (swrap w val2)) in
          err <- checked_store w mpa val2 ent ;;
          if err : bool then raise rv_cause_fault_store va ;; ret val1 else ret val1
      end.

#[export] Instance mmu_soft : MMU S := {
  mmu_load := soft_load; mmu_store := soft_store; mmu_store_f := soft_store_f; mmu_amo := soft_amo }.

(** The 16-bit parts of an instruction from its second one: [i], [i+1], ...,
    [i+k-1], read at consecutive physical addresses. *)
Fixpoint fetch_parts (k : nat) (i pc mpa inst : Z) : M S Z :=
  match k with
  | O => ret inst
  | Datatypes.S k =>
      r <- bus_load 16 (mpa + 2 * i) ;;
      match r with
      | None => raise_unset rv_cause_fault_fetch pc
      | Some part => fetch_parts k (i + 1) pc mpa (Z.lor inst (Z.shiftl part (16 * i)))
      end
  end.

(** [inst_fetch]: the instruction and [pc_offset].  No histogram is kept. *)
Definition soft_fetch (pc : Z) : M S (Z * Z) :=
  if misaligned 16 pc then raise_unset rv_cause_misaligned_fetch pc
  else
    r <- translate_addr pc op_fetch ;;
    let '(mpa, ent) := r in
    if mpa =? 0 then undefined
    else fun p =>
      (if fetch_access_fault (sm_regs p r_mode) ent then raise_unset rv_cause_fault_fetch pc
       else
         first <- bus_load 16 mpa ;;
         match first with
         | None => raise_unset rv_cause_fault_fetch pc
         | Some inst =>
             if negb (Z.land inst 3 =? 3) then ret (inst, 2)
             else if negb (Z.land inst 28 =? 28)
             then inst <- fetch_parts 1 1 pc mpa inst ;; ret (inst, 4)
             else if Z.land inst 63 =? 31
             then inst <- fetch_parts 2 1 pc mpa inst ;; ret (inst, 6)
             else if Z.land inst 127 =? 63
             then inst <- fetch_parts 3 1 pc mpa inst ;; ret (inst, 8)
             else raise_unset rv_cause_fault_fetch pc
         end) p.
End Mmu.
