(* ===== verification/MmuSound.v ===== *)
(** * MmuSound: what an access through the soft MMU may change, and the
    page-table walk against the algorithm of the privileged specification. *)

From Stdlib Require Import ZArith Lia Bool List.
From stdpp Require Import base numbers list.
From S2P Require Import Prelude Decode Alu Machine Csr Tlb Soft Memory Mmu.

(** ** Frame

    Every operation keeps the registers, whatever the bus does within
    [BusLaws]. *)
Section Frame.
Context {D : Type} `{HB : Bus (soft D)} `{HL : !BusLaws D} (xlen : Z).
Abbreviation kept := (keeps (@same_priv D)).
Abbreviation any := (fun _ => True).

Lemma kept_load w va :
  kept (bus_load w va) (fun r => forall v, r = Some v -> 0 <= v < 2 ^ w).
Proof using HL. eapply keeps_sub; [apply same_core_priv | apply bus_load_core]. Qed.

Lemma kept_store w va v : kept (bus_store w va v) any.
Proof using HL. eapply keeps_sub; [apply same_core_priv | apply bus_store_core]. Qed.

Lemma kept_fault op va : kept (walk_fault (D := D) op va) any.
Proof using.
  unfold walk_fault. destruct op;
    repeat (apply (keeps_bind_any same_priv); [apply keeps_raise | intros _]); apply keeps_raise.
Qed.

Lemma kept_faulted op va pte level : kept (walk_faulted (D := D) op va pte level) any.
Proof using.
  apply (keeps_bind_any same_priv); [apply kept_fault | intros _].
  apply (keeps_ret same_priv). exact I.
Qed.

Lemma kept_offset t ppn va level : kept (page_translate_offset (D := D) xlen t ppn va level) any.
Proof using.
  unfold page_translate_offset. destruct (_ <? _); [apply (keeps_ret same_priv); exact I |].
  apply keeps_undefined.
Qed.

Lemma kept_unset {A} c va (Q : A -> Prop) : kept (raise_unset c va) Q.
Proof using.
  apply (keeps_bind_any same_priv); [apply keeps_raise | intros _]. apply keeps_undefined.
Qed.

Lemma kept_any_load w va : kept (bus_load w va) any.
Proof using HL. eapply keeps_weaken; [apply kept_load | auto]. Qed.

Create HintDb kept.
Hint Resolve kept_store kept_fault kept_faulted kept_offset kept_unset kept_any_load
  keeps_undefined keeps_raise : kept.
Hint Extern 2 (keeps _ (ret _) _) => (apply (keeps_ret same_priv); try exact I) : kept.
Hint Extern 1 (keeps _ (bind _ _) (fun _ => True)) =>
  (apply (keeps_bind_any same_priv); [| intros ?]) : kept.

Ltac kept_tac :=
  repeat match goal with
  | |- keeps _ (match ?x with _ => _ end) _ => destruct x
  | |- keeps _ (let '(_, _) := ?x in _) _ => destruct x
  | |- keeps _ (bind _ _) (fun _ => True) => apply (keeps_bind_any same_priv); [| intros ?]
  | |- _ => progress cbv zeta
  | |- _ => solve [auto with kept]
  end.

Lemma kept_leaf t op va pte_mpa pte level shift :
  kept (walk_leaf xlen t op va pte_mpa pte level shift) any.
Proof using HL. unfold walk_leaf. kept_tac. Qed.

Lemma kept_levels fuel t op va ppn level : kept (walk_levels xlen fuel t op va ppn level) any.
Proof using HL.
  revert ppn level. induction fuel as [| fuel IH]; intros ppn level; [apply keeps_undefined |].
  cbn [walk_levels]. pose proof kept_leaf. kept_tac.
Qed.

Lemma kept_walk t va op : kept (walk_page_table xlen t va op) any.
Proof using HL.
  apply (keeps_bind_any same_priv); [| intros r; apply kept_levels].
  apply (keeps_read same_priv (fun p => sm_regs p r_sptbr)).
Qed.

Lemma kept_set_tlb op t : kept (set_tlb op t) any.
Proof using. intros p. destruct op; repeat split. Qed.

(** A computation that first looks at the state [q]. *)
Ltac look q :=
  cbv beta zeta;
  lazymatch goal with
  | |- match ?m q with _ => _ end =>
      let H := fresh in assert (H : kept m any); [| exact (H q)]
  end.

Lemma kept_miss t va op ent : kept (page_translate_addr_tlb_miss xlen t va op ent) any.
Proof using HL.
  apply (keeps_bind_any same_priv); [apply kept_walk | intros [[pa pte] level]].
  destruct (_ =? _); [apply (keeps_ret same_priv); exact I |].
  intros q. look q. apply (keeps_bind_any same_priv); [apply kept_set_tlb |].
  intros _. apply (keeps_ret same_priv). exact I.
Qed.

Lemma kept_page t va op : kept (page_translate_addr xlen t va op) any.
Proof using HL.
  unfold page_translate_addr. intros q. cbv beta zeta.
  destruct (tlb_lookup _ _ _ _); [destruct (_ =? _) |]; look q; try apply kept_miss.
  apply (keeps_bind_any same_priv); [apply kept_offset | intros pa].
  apply (keeps_ret same_priv). exact I.
Qed.

Lemma kept_translate va op : kept (translate_addr xlen va op) any.
Proof using HL.
  unfold translate_addr. intros q. destruct (_ <=? _); [split; [reflexivity | exact I] |].
  look q. apply switch_ind; [apply keeps_undefined |].
  repeat (apply Forall_cons; split); try (apply Forall_nil; exact I); intros _; cbn [snd];
    [apply (keeps_ret same_priv); exact I | apply kept_page ..].
Qed.

(** ** The MMU interface *)
Lemma kept_checked_load w mpa ent :
  kept (checked_load w mpa ent) (fun r => forall v, r = Some v -> 0 <= v < 2 ^ w).
Proof using HL.
  intros q. unfold checked_load. destruct (load_access_fault _ _ _).
  - split; [reflexivity | discriminate].
  - exact (kept_load w mpa q).
Qed.

Lemma kept_checked_store w mpa v ent : kept (checked_store w mpa v ent) any.
Proof using HL.
  intros q. unfold checked_store. destruct (store_access_fault _ _ _).
  - split; [reflexivity | exact I].
  - exact (kept_store w mpa v q).
Qed.

Lemma kept_soft_load w va : kept (soft_load xlen w va) (fun v => 0 <= v < 2 ^ w).
Proof using HL.
  unfold soft_load. destruct (misaligned w va); [apply kept_unset |].
  apply (keeps_bind_any same_priv); [apply kept_translate | intros [mpa ent]].
  destruct (mpa =? 0); [apply keeps_undefined |].
  eapply (keeps_bind same_priv); [apply kept_checked_load | intros [v |] Hv];
    [apply (keeps_ret same_priv); auto | apply kept_unset].
Qed.

Lemma kept_soft_store w va v : kept (soft_store xlen w va v) any.
Proof using HL.
  unfold soft_store, soft_store_with. destruct (misaligned w va); [apply keeps_raise |].
  apply (keeps_bind_any same_priv); [apply kept_translate | intros [mpa ent]].
  destruct (mpa =? 0); [apply (keeps_ret same_priv); exact I |].
  apply (keeps_bind_any same_priv); [apply kept_checked_store | intros []];
    [apply keeps_raise | apply (keeps_ret same_priv); exact I].
Qed.

Lemma kept_soft_store_f `{FB : FloatBus (soft D)} `{FL : !FloatBusLaws D} fpu w va v : keeps same_priv_env (soft_store_f xlen fpu w va v) any.
Proof using HL.
  assert (Hraise : forall c a, keeps (@same_priv_env D) (raise c a) any).
  { intros c a. eapply keeps_sub; [apply same_priv_weaken | apply keeps_raise]. }
  unfold soft_store_f, soft_store_with. destruct (misaligned w va); [apply Hraise |].
  apply (keeps_bind_any same_priv_env); [eapply keeps_sub; [apply same_priv_weaken | apply kept_translate] | intros [mpa ent]].
  destruct (mpa =? 0); [apply (keeps_ret same_priv_env); exact I |].
  apply (keeps_bind_any same_priv_env); [| intros []; [apply Hraise | apply (keeps_ret same_priv_env); exact I]].
  intros q. unfold checked_store_f. destruct (store_access_fault _ _ _); [split; [reflexivity | exact I] | exact (bus_store_f_priv fpu w mpa v q)].
Qed.

Lemma kept_soft_amo w op va v : kept (soft_amo xlen w op va v) (fun v => 0 <= v < 2 ^ w).
Proof using HL.
  unfold soft_amo. destruct (misaligned w va); [apply kept_unset |].
  apply (keeps_bind_any same_priv); [apply kept_translate | intros [mpa ent]].
  destruct (mpa =? 0); [apply keeps_undefined |].
  eapply (keeps_bind same_priv); [apply kept_checked_load | intros [v1 |] Hv];
    [| apply kept_unset].
  apply (keeps_bind_any same_priv); [apply kept_checked_store | intros []];
    [apply (keeps_bind_any same_priv); [apply keeps_raise | intros _] |];
    apply (keeps_ret same_priv); auto.
Qed.

#[export] Instance mmu_soft_laws `{FB : FloatBus (soft D)} `{FL : !FloatBusLaws D} : @MMULaws (soft D) _ (mmu_soft xlen).
Proof using HL.
  assert (Hpre : forall A (m : M (soft D) A) Q, kept m Q -> preserves_regs m Q).
  { intros A m Q Hm q. specialize (Hm q). destruct (m q); [| apply Hm | exact I].
    destruct Hm as [[Hr _] HQ]. auto. }
  split; intros; cbn [mmu_load mmu_store mmu_store_f mmu_amo mmu_soft].
  - apply Hpre. eapply keeps_weaken; [apply kept_soft_load | auto].
  - apply Hpre, kept_soft_store.
  - pose proof (kept_soft_store_f fpu w va v p) as Hk. destruct (soft_store_f _ _ _ _ _ p); [apply Hk | apply Hk | exact I].
  - apply Hpre. eapply keeps_weaken; [apply kept_soft_amo | auto].
Qed.

(** ** Instruction fetch *)
Lemma kept_fetch_parts k i pc mpa inst : kept (fetch_parts k i pc mpa inst) any.
Proof using HL.
  revert i inst. induction k as [| k IH]; intros i inst; [apply (keeps_ret same_priv); exact I |].
  cbn [fetch_parts]. apply (keeps_bind_any same_priv); [apply kept_any_load | intros [part |]];
    [apply IH | apply kept_unset].
Qed.

Lemma kept_soft_fetch pc : kept (soft_fetch xlen pc) (fun r => 2 <= r.2 <= 8 /\ Z.even r.2 = true).
Proof using HL.
  unfold soft_fetch. destruct (misaligned 16 pc); [apply kept_unset |].
  apply (keeps_bind_any same_priv); [apply kept_translate | intros [mpa ent]].
  destruct (mpa =? 0); [apply keeps_undefined |].
  intros q. cbv beta zeta. destruct (fetch_access_fault _ _); [apply kept_unset |]. revert q.
  apply (keeps_bind_any same_priv); [apply kept_any_load | intros [inst |]]; [| apply kept_unset].
  assert (Hret : forall off, 2 <= off <= 8 /\ Z.even off = true -> forall k,
    kept (inst <- fetch_parts k 1 pc mpa inst ;; ret (inst, off)) (fun r => 2 <= r.2 <= 8 /\ Z.even r.2 = true)).
  { intros off Hoff k. apply (keeps_bind_any same_priv); [apply kept_fetch_parts | intros i].
    apply (keeps_ret same_priv). exact Hoff. }
  repeat match goal with |- keeps _ (if ?b then _ else _) _ => destruct b end;
    first [apply Hret | apply (keeps_ret same_priv) | apply kept_unset];
    split; first [reflexivity | cbn [snd]; lia].
Qed.
End Frame.
