(* ===== verification/MmuSpec.v ===== *)
(** * MmuSpec: the page-table walk of RV64 against the address translation
    algorithm of the privileged specification. *)

From Stdlib Require Import ZArith Lia Bool List.
From stdpp Require Import base numbers list.
From S2P Require Import Prelude Decode Alu Machine Csr Tlb Soft Memory Mmu MmuSound.

(** ** The specification *)

(** How the algorithm ends: at a leaf PTE at an address and a level, with an
    access exception, or at one of two PTEs that the specification gives an
    access exception too: an invalid one whose R, W and X bits are 0, and a
    pointer at level 0. *)
Inductive pt_outcome :=
  | PtLeaf (pte_addr pte : Z) (level : nat) | PtFault | PtInvalid | PtDeep.

Section Spec.
Context (t : ptm) (pte_at : Z -> option Z).

Definition spec_vpn (va : Z) (i : nat) : Z :=
  (va / 2 ^ (12 + ptm_bits t * Z.of_nat i)) mod 2 ^ ptm_bits t.

(** Steps 2 to 6 of the algorithm at level [i], [a] being the address of the
    page table. *)
Fixpoint spec_walk (va a : Z) (i : nat) : pt_outcome :=
  let pte_addr := a + spec_vpn va i * (ptm_size t / 8) in
  match pte_at pte_addr with
  | None => PtFault
  | Some pte =>
      let v := Z.testbit pte 0 in let r := Z.testbit pte 1 in
      let w := Z.testbit pte 2 in let x := Z.testbit pte 3 in
      if negb v then if r || w || x then PtFault else PtInvalid
      else if negb r && w then PtFault
      else if r || x then
        if pte_ppn t pte mod 2 ^ (ptm_bits t * Z.of_nat i) =? 0 then PtLeaf pte_addr pte i
        else PtFault
      else match i with
           | O => PtDeep
           | Datatypes.S i => spec_walk va (pte_ppn t pte * 4096) i
           end
  end.

(** The translation by a leaf: the page number's high part, the rest of the
    virtual address. *)
Definition spec_pa (va pte : Z) (i : nat) : Z :=
  pte_ppn t pte / 2 ^ (ptm_bits t * Z.of_nat i) * 2 ^ (12 + ptm_bits t * Z.of_nat i) +
  va mod 2 ^ (12 + ptm_bits t * Z.of_nat i).

(** The leaf after the access: A set, and D by a store. *)
Definition spec_pte (op : mmu_op) (pte : Z) : Z := Z.lor pte (ad_flags op).
End Spec.

(** ** Arithmetic of the walk *)
Definition ptm64 (t : ptm) : Prop := t = sv39 \/ t = sv48.

Lemma pte_ppn_range t pte : ptm64 t -> 0 <= pte_ppn t pte < 2 ^ 38.
Proof.
  intros Ht. unfold pte_ppn. rewrite Z.land_ones by (destruct Ht as [-> | ->]; cbn; lia).
  replace (ptm_ppn t) with 38 by (destruct Ht as [-> | ->]; reflexivity).
  apply Z.mod_pos_bound. lia.
Qed.

Lemma pte_addr_spec t pte : ptm64 t -> pte_addr 64 t pte = pte_ppn t pte * 4096.
Proof.
  intros Ht. pose proof (pte_ppn_range t pte Ht). unfold pte_addr.
  replace (ptm_size t =? 32) with false by (destruct Ht as [-> | ->]; reflexivity).
  rewrite Z.shiftl_mul_pow2 by (unfold page_shift; lia). change (2 ^ page_shift) with 4096.
  rewrite !wrap_small; [reflexivity | lia | rewrite wrap_small; lia].
Qed.

Lemma level_shift_spec t i :
  ptm64 t -> (i < 4)%nat -> level_shift 64 t (Z.of_nat i) = 12 + ptm_bits t * Z.of_nat i.
Proof.
  intros Ht Hi. unfold level_shift, page_shift. rewrite wrap_small; [lia |].
  destruct Ht as [-> | ->]; cbn; lia.
Qed.

Lemma ptm_bits_spec t : ptm64 t -> ptm_bits t = 9.
Proof. intros [-> | ->]; reflexivity. Qed.

Lemma ptm_size_spec t : ptm64 t -> ptm_size t = 64.
Proof. intros [-> | ->]; reflexivity. Qed.

Lemma spec_vpn_shift t va i :
  ptm64 t -> Z.land (Z.shiftr va (12 + ptm_bits t * Z.of_nat i)) (Z.ones (ptm_bits t)) = spec_vpn t va i.
Proof.
  intros Ht. unfold spec_vpn. rewrite (ptm_bits_spec t Ht).
  rewrite Z.land_ones, Z.shiftr_div_pow2 by lia. reflexivity.
Qed.

Lemma spec_vpn_range t va i : ptm64 t -> 0 <= spec_vpn t va i < 512.
Proof.
  intros Ht. unfold spec_vpn. rewrite (ptm_bits_spec t Ht). apply (Z.mod_pos_bound _ (2 ^ 9)). lia.
Qed.

Lemma ad_flags_low op : Z.shiftr (ad_flags op) 10 = 0.
Proof. destruct op; reflexivity. Qed.

Lemma pte_ppn_update t op pte : pte_ppn t (spec_pte op pte) = pte_ppn t pte.
Proof. unfold pte_ppn, spec_pte. rewrite Z.shiftr_lor, ad_flags_low, Z.lor_0_r. reflexivity. Qed.

Section Offset.
Context {D : Type}.

Lemma offset_spec t pte va i :
  ptm64 t -> (i < 4)%nat -> pte_ppn t pte mod 2 ^ (ptm_bits t * Z.of_nat i) = 0 ->
  page_translate_offset (D := D) 64 t (pte_ppn t pte) va (Z.of_nat i) = ret (spec_pa t va pte i).
Proof using.
  intros Ht Hi Hal. unfold page_translate_offset, spec_pa. rewrite level_shift_spec by assumption.
  pose proof (pte_ppn_range t pte Ht) as Hr. rewrite (ptm_bits_spec t Ht) in *.
  set (k := 9 * Z.of_nat i) in *. assert (Hk : 0 <= k <= 27) by lia.
  destruct (Z.ltb_spec (12 + k) 64); [| lia]. f_equal.
  rewrite (Z.shiftl_mul_pow2 _ page_shift) by (unfold page_shift; lia).
  change (2 ^ page_shift) with 4096. rewrite (wrap_small 64 (_ * 4096)) by lia.
  rewrite Z.shiftl_1_l. replace (2 ^ (12 + k) - 1) with (Z.ones (12 + k)) by (rewrite Z.ones_equiv; lia).
  rewrite Z.land_ones by lia.
  assert (E : pte_ppn t pte / 2 ^ k * 2 ^ (12 + k) = pte_ppn t pte * 4096).
  { rewrite Z.pow_add_r by lia. pose proof (Z.div_mod (pte_ppn t pte) (2 ^ k) ltac:(lia)). nia. }
  rewrite E. apply wrap_small.
  pose proof (Z.mod_pos_bound va (2 ^ (12 + k)) ltac:(lia)).
  assert (2 ^ (12 + k) <= 2 ^ 39) by (apply Z.pow_le_mono_r; lia). lia.
Qed.

Lemma aligned_spec t pte i :
  ptm64 t -> (i < 4)%nat ->
  wrap 64 (level_shift 64 t (Z.of_nat i) - page_shift) = ptm_bits t * Z.of_nat i /\
  ptm_bits t * Z.of_nat i < 32 /\
  Z.land (swrap 32 (Z.shiftl 1 (ptm_bits t * Z.of_nat i)) - 1) (pte_ppn t pte) =
  pte_ppn t pte mod 2 ^ (ptm_bits t * Z.of_nat i).
Proof using.
  intros Ht Hi. rewrite level_shift_spec by assumption. unfold page_shift.
  rewrite (ptm_bits_spec t Ht). set (k := 9 * Z.of_nat i) in *. assert (Hk : 0 <= k <= 27) by lia.
  split_and!; [rewrite wrap_small; lia | lia |].
  assert (0 < 2 ^ k <= 2 ^ 27) by (split; [| apply Z.pow_le_mono_r]; lia).
  rewrite Z.shiftl_1_l, swrap_small by (cbn; lia).
  replace (2 ^ k - 1) with (Z.ones k) by (rewrite Z.ones_equiv; lia).
  rewrite Z.land_comm. apply Z.land_ones. lia.
Qed.
End Offset.

(** ** The walk *)
Section Walk.
Context {D : Type} `{HB : Bus (soft D)}.

(** What a read of memory gives, and memory that a read does not change. *)
Definition peek (w : Z) (p : soft D) (a : Z) : option Z :=
  match bus_load w a p with Ok r _ => r | _ => None end.

Definition quiet (w : Z) (p : soft D) : Prop :=
  forall a, 0 <= a < 2 ^ 64 -> bus_load w a p = Ok (peek w p a) p.

(** The end of a walk at a leaf. *)
Definition spec_leaf (t : ptm) (op : mmu_op) (va pte_addr pte : Z) (i : nat) :
    M (soft D) walk_result :=
  if Z.land (pte_flags pte) (ad_flags op) =? ad_flags op
  then ret (spec_pa t va pte i, pte, Z.of_nat i)
  else
    err <- bus_store 64 pte_addr (spec_pte op pte) ;;
    if err : bool then walk_faulted op va (spec_pte op pte) (Z.of_nat i)
    else ret (spec_pa t va pte i, spec_pte op pte, Z.of_nat i).

Lemma walk_leaf_spec t op va pte_addr pte i :
  ptm64 t -> (i < 4)%nat -> pte_ppn t pte mod 2 ^ (ptm_bits t * Z.of_nat i) = 0 ->
  walk_leaf 64 t op va pte_addr pte (Z.of_nat i) (level_shift 64 t (Z.of_nat i)) =
  spec_leaf t op va pte_addr pte i.
Proof using.
  intros Ht Hi Hal. destruct (aligned_spec t pte i Ht Hi) as (Es & Hlt & El).
  unfold walk_leaf. rewrite Es, El, Hal. apply Z.ltb_lt in Hlt. rewrite Hlt. cbn [Z.eqb negb].
  unfold spec_leaf, spec_pte. rewrite (ptm_size_spec t Ht), offset_spec by assumption. cbv zeta.
  pose proof Hal as Hal'. rewrite <- (pte_ppn_update t op pte) in Hal'. unfold spec_pte in Hal'.
  rewrite offset_spec by assumption.
  replace (spec_pa t va (Z.lor pte (ad_flags op)) i) with (spec_pa t va pte i)
    by (unfold spec_pa; rewrite <- (pte_ppn_update t op pte); reflexivity).
  reflexivity.
Qed.

Lemma walk_leaf_misaligned t op va pte_addr pte i :
  ptm64 t -> (i < 4)%nat -> pte_ppn t pte mod 2 ^ (ptm_bits t * Z.of_nat i) <> 0 ->
  walk_leaf 64 t op va pte_addr pte (Z.of_nat i) (level_shift 64 t (Z.of_nat i)) =
  walk_faulted op va pte (Z.of_nat i).
Proof using.
  intros Ht Hi Hal. destruct (aligned_spec t pte i Ht Hi) as (Es & Hlt & El).
  unfold walk_leaf. rewrite Es, El. apply Z.ltb_lt in Hlt. rewrite Hlt.
  apply Z.eqb_neq in Hal. rewrite Hal. reflexivity.
Qed.

(** The flags the loop tests on the bit field are the PTE's bits. *)
Lemma has_rx pte :
  has_flag (pte_flags pte) (Z.lor pte_flag_R pte_flag_X) = Z.testbit pte 1 || Z.testbit pte 3.
Proof using.
  unfold has_flag, pte_flags. change (Z.lor pte_flag_R pte_flag_X) with 10.
  rewrite <- Z.land_assoc. change (Z.land 1023 10) with (Z.lor (2 ^ 1) (2 ^ 3)).
  rewrite Z.land_lor_distr_r.
  assert (Hbit : forall n, 0 <= n -> Z.land pte (2 ^ n) = if Z.testbit pte n then 2 ^ n else 0).
  { intros n Hn. bitwise i Hi. destruct (Z.eqb_spec i n) as [-> |].
    - rewrite Z.pow2_bits_true, andb_true_r by lia.
      destruct (Z.testbit pte n); [rewrite Z.pow2_bits_true by lia | rewrite Z.bits_0]; reflexivity.
    - rewrite Z.pow2_bits_false, andb_false_r by lia.
      destruct (Z.testbit pte n); [rewrite Z.pow2_bits_false by lia | rewrite Z.bits_0]; reflexivity. }
  rewrite !Hbit by lia. destruct (Z.testbit pte 1), (Z.testbit pte 3); reflexivity.
Qed.

(** One iteration of the loop. *)
Lemma walk_levels_step fuel t op va a i p :
  ptm64 t -> quiet 64 p -> (i < 4)%nat -> 0 <= a < 2 ^ 51 ->
  let pte_addr := a + spec_vpn t va i * (ptm_size t / 8) in
  walk_levels 64 (S fuel) t op va a (Z.of_nat i) p =
  match peek 64 p pte_addr with
  | None => walk_faulted op va 0 (Z.of_nat i)
  | Some pte =>
      let r := Z.testbit pte 1 in let w := Z.testbit pte 2 in let x := Z.testbit pte 3 in
      if negb (r || w || x)
      then walk_levels 64 fuel t op va (pte_ppn t pte * 4096) (wrap 64 (Z.of_nat i - 1))
      else if negb (Z.testbit pte 0) || (negb r && w) then walk_faulted op va pte (Z.of_nat i)
      else walk_leaf 64 t op va pte_addr pte (Z.of_nat i) (level_shift 64 t (Z.of_nat i))
  end p.
Proof using.
  intros Ht Hq Hi Ha. cbv zeta. pose proof (spec_vpn_range t va i Ht) as Hv.
  cbn [walk_levels]. cbv zeta. rewrite level_shift_spec by assumption.
  rewrite spec_vpn_shift by assumption. rewrite (ptm_bits_spec t Ht), (ptm_size_spec t Ht).
  change (64 / 8) with 8. rewrite (wrap_small 64 (a + _)) by lia.
  destruct (Z.ltb_spec (12 + 9 * Z.of_nat i) 64); [| lia].
  unfold bind at 1. rewrite Hq by lia. destruct (peek 64 p _) as [pte |]; [| reflexivity].
  unfold pte_shift_V, pte_shift_R, pte_shift_W, pte_shift_X.
  destruct (negb (_ || _ || _)) eqn:E; [rewrite pte_addr_spec by assumption; reflexivity |].
  destruct (negb (Z.testbit pte 0) || _) eqn:E'; [reflexivity |]. rewrite has_rx.
  destruct (Z.testbit pte 0), (Z.testbit pte 1), (Z.testbit pte 2), (Z.testbit pte 3);
    try discriminate; reflexivity.
Qed.

Theorem walk_levels_spec fuel t op va a i p :
  ptm64 t -> quiet 64 p -> (i < 4)%nat -> (i < fuel)%nat -> 0 <= a < 2 ^ 51 ->
  match spec_walk t (peek 64 p) va a i with
  | PtLeaf pte_addr pte lvl =>
      walk_levels 64 fuel t op va a (Z.of_nat i) p = spec_leaf t op va pte_addr pte lvl p
  | PtFault => exists pte level,
      walk_levels 64 fuel t op va a (Z.of_nat i) p = walk_faulted op va pte level p
  | PtInvalid | PtDeep => True
  end.
Proof using.
  intros Ht Hq. revert fuel a. induction i as [| i IH]; intros fuel a Hi Hf Ha;
    (destruct fuel as [| fuel]; [lia |]); rewrite walk_levels_step by assumption; cbv zeta;
    cbn [spec_walk]; cbv zeta;
    (destruct (peek 64 p _) as [pte |]; [| eauto]);
    destruct (Z.testbit pte 0), (Z.testbit pte 1), (Z.testbit pte 2), (Z.testbit pte 3);
    cbn [negb orb andb]; try exact I; try solve [eauto];
    try (match goal with |- context [?x =? 0] => destruct (Z.eqb_spec x 0) end;
      [rewrite walk_leaf_spec by assumption; reflexivity
      | rewrite walk_leaf_misaligned by assumption; eauto]).
  pose proof (pte_ppn_range t pte Ht). replace (Z.of_nat (S i) - 1) with (Z.of_nat i) by lia.
  rewrite wrap_small by lia. apply IH; lia.
Qed.
End Walk.

(** ** Protection *)

(** Whether a leaf PTE allows an access at a privilege level: the page's R, W
    and X bits with MXR, its U bit with PUM. *)
Definition spec_allowed (op : mmu_op) (priv : Z) (mxr pum : bool) (pte : Z) : bool :=
  let r := Z.testbit pte 1 in let w := Z.testbit pte 2 in let x := Z.testbit pte 3 in
  match op with op_fetch => x | op_load => r || (x && mxr) | op_store => w end &&
  (if Z.testbit pte 4
   then (priv <=? rv_mode_U) || (bool_decide (op <> op_fetch) && negb pum)
   else rv_mode_S <=? priv).

Definition flag_set (f : bitfield) (rs : pregs) : bool := negb (bf_get f (rs r_mstatus) =? 0).

Definition access_fault (op : mmu_op) (rs : pregs) (priv : Z) (ent : option tlb_entry) : bool :=
  match op with
  | op_fetch => fetch_access_fault priv ent
  | op_load => load_access_fault rs priv ent
  | op_store => store_access_fault rs priv ent
  end.

Lemma has_flag_bit pte n : 0 <= n < 10 -> has_flag (pte_flags pte) (2 ^ n) = Z.testbit pte n.
Proof.
  intros Hn. unfold has_flag, pte_flags. rewrite <- Z.land_assoc.
  replace (Z.land 1023 (2 ^ n)) with (2 ^ n).
  2:{ change 1023 with (Z.ones 10). rewrite Z.land_comm, Z.land_ones by lia. symmetry.
      apply Z.mod_small. split; [lia |]. apply Z.pow_lt_mono_r; lia. }
  destruct (Z.testbit pte n) eqn:E; destruct (Z.eqb_spec (Z.land pte (2 ^ n)) 0) as [H | H]; try reflexivity.
  - apply (f_equal (fun z => Z.testbit z n)) in H.
    rewrite Z.land_spec, E, Z.pow2_bits_true, Z.bits_0 in H by lia. discriminate.
  - contradict H. bitwise i Hi. rewrite Z.bits_0. destruct (Z.eqb_spec i n) as [-> |].
    + rewrite E. reflexivity.
    + rewrite Z.pow2_bits_false, andb_false_r by lia. reflexivity.
Qed.

(** The checks on a TLB entry made from a PTE are the specification's. *)
Lemma access_fault_spec op rs priv e pte :
  te_pteb e = pte_flags pte ->
  access_fault op rs priv (Some e) =
  negb (spec_allowed op priv (flag_set bf_mxr rs) (flag_set bf_pum rs) pte).
Proof.
  intros He. unfold access_fault, fetch_access_fault, load_access_fault, store_access_fault, spec_allowed.
  rewrite !He. unfold pte_flag_X, pte_flag_R, pte_flag_W, pte_flag_U.
  unfold pte_shift_R, pte_shift_W, pte_shift_X. rewrite !has_flag_bit by lia.
  fold (flag_set bf_mxr rs) (flag_set bf_pum rs). unfold rv_mode_U, rv_mode_S.
  assert (E0 : (0 <? priv) = negb (priv <=? 0)) by apply Z.ltb_antisym.
  assert (E1 : (priv <? 1) = negb (1 <=? priv)) by apply Z.ltb_antisym.
  destruct op; rewrite ?E0, ?E1;
    destruct (Z.testbit pte 1), (Z.testbit pte 2), (Z.testbit pte 3), (Z.testbit pte 4),
      (flag_set bf_mxr rs), (flag_set bf_pum rs), (priv <=? 0), (1 <=? priv); reflexivity.
Qed.

(** ** Translation *)
Section Translate.
Context {D : Type} `{HB : Bus (soft D)} (t : ptm) (Ht : ptm64 t).

Definition vm_of : Z := if ptm_levels t =? 3 then rv_vm_sv39 else rv_vm_sv48.

(** The processor runs below M-mode with paging by [t] on. *)
Definition translating (p : soft D) : Prop :=
  sm_regs p r_mode < rv_mode_M /\ bf_get bf_vm (sm_regs p r_mstatus) = vm_of.

(** The TLB holds no entry for the page, or one that is up to date. *)
Definition fresh (op : mmu_op) (va : Z) (p : soft D) : Prop :=
  match tlb_lookup (tlb_of op p) (sm_regs p r_pdid) (asid 64 p) va with
  | Some e => Z.land (te_pteb e) (ad_flags op) = ad_flags op
  | None => True
  end.

Definition root (p : soft D) : Z := sm_regs p r_sptbr mod 2 ^ 38 * 4096.

Definition walk_of (p : soft D) (va : Z) : pt_outcome :=
  spec_walk t (peek 64 p) va (root p) (Z.to_nat (ptm_levels t - 1)).

(** The state after the PTE's A and D flags are up to date. *)
Definition updated (op : mmu_op) (pte_addr pte : Z) (p p1 : soft D) : Prop :=
  if Z.land (pte_flags pte) (ad_flags op) =? ad_flags op then p1 = p
  else bus_store 64 pte_addr (spec_pte op pte) p = Ok false p1.

Definition with_tlb (op : mmu_op) (tl : tlb) (p : soft D) : soft D :=
  match op with
  | op_fetch => mkSoft (sm_proc p) (sm_regs p) tl (sm_dtlb p) (sm_host p) (sm_dev p)
  | _ => mkSoft (sm_proc p) (sm_regs p) (sm_itlb p) tl (sm_host p) (sm_dev p)
  end.

(** The entry and the state a successful translation leaves. *)
Definition entry (p : soft D) (va pte : Z) (lvl : nat) : tlb_entry :=
  tlb_entry_make 64 (sm_regs p r_pdid) (asid 64 p) (tlb_vpn va) (Z.of_nat lvl) (pte_flags pte)
    (pte_ppn t pte).

Definition filled (op : mmu_op) (va pte : Z) (lvl : nat) (p : soft D) : soft D :=
  with_tlb op (fun i => if i =? tlb_index va then entry p va pte lvl else tlb_of op p i) p.

(** The PTE the walk leaves in its variable. *)
Definition final_pte (op : mmu_op) (pte : Z) : Z :=
  if Z.land (pte_flags pte) (ad_flags op) =? ad_flags op then pte else spec_pte op pte.

Definition fault_cause (op : mmu_op) : Z :=
  match op with
  | op_fetch => rv_cause_fault_fetch
  | op_load => rv_cause_fault_load
  | op_store => rv_cause_fault_store
  end.

Definition faulted (op : mmu_op) (va : Z) (p : soft D) : soft D :=
  set_base (set_badaddr (base p) va) p.

Lemma raise_exceptions c a (p : soft D) :
  exceptions (sm_proc p) = true ->
  raise c a p = Raise c (set_base (set_badaddr (sm_proc p) a) p).
Proof using.
  intros He. unfold raise, modify, gets, bind. cbn. rewrite He. reflexivity.
Qed.

Lemma raise_then {A} c a (p : soft D) (k : unit -> M (soft D) A) :
  exceptions (sm_proc p) = true ->
  bind (raise c a) k p = Raise c (set_base (set_badaddr (sm_proc p) a) p).
Proof using. intros He. unfold bind. rewrite raise_exceptions by exact He. reflexivity. Qed.

Lemma walk_faulted_raises op va pte lvl (p : soft D) :
  exceptions (sm_proc p) = true ->
  walk_faulted op va pte lvl p = Raise (fault_cause op) (faulted op va p).
Proof using.
  intros He. unfold walk_faulted, bind at 1.
  destruct op; cbn [walk_fault fault_cause]; rewrite ?raise_then, ?raise_exceptions by exact He;
    reflexivity.
Qed.

Lemma root_range p : 0 <= root p < 2 ^ 50.
Proof using. unfold root. pose proof (Z.mod_pos_bound (sm_regs p r_sptbr) (2 ^ 38)). lia. Qed.

Lemma walk_page_table_spec op va p :
  quiet 64 p ->
  match walk_of p va with
  | PtLeaf pte_addr pte lvl =>
      walk_page_table 64 t va op p = spec_leaf t op va pte_addr pte lvl p
  | PtFault => exists pte level, walk_page_table 64 t va op p = walk_faulted op va pte level p
  | PtInvalid | PtDeep => True
  end.
Proof using Ht.
  intros Hq. unfold walk_page_table, walk_of, get_reg, bind at 1 2.
  replace (ptm_levels t - 1) with (Z.of_nat (Z.to_nat (ptm_levels t - 1)))
    by (destruct Ht as [-> | ->]; reflexivity).
  rewrite Nat2Z.id. pose proof (root_range p) as Hr.
  replace (wrap 64 _) with (root p).
  2:{ unfold root, ppn_bits, page_shift. cbn [Z.eqb Pos.eqb].
      rewrite Z.land_ones, Z.shiftl_mul_pow2 by lia. symmetry. apply wrap_small.
      unfold root in Hr. lia. }
  pose proof (walk_levels_spec (walk_fuel t) t op va (root p) (Z.to_nat (ptm_levels t - 1)) p Ht Hq)
    as H. cbv zeta in H.
  assert (Hl : (Z.to_nat (ptm_levels t - 1) < 4)%nat /\
               (Z.to_nat (ptm_levels t - 1) < walk_fuel t)%nat)
    by (destruct Ht as [-> | ->]; split; apply Nat.ltb_lt; reflexivity).
  specialize (H (proj1 Hl) (proj2 Hl) ltac:(lia)). exact H.
Qed.

Lemma translate_page op va p :
  translating p -> fresh op va p ->
  translate_addr 64 va op p =
  page_translate_addr_tlb_miss 64 t va op
    (tlb_lookup (tlb_of op p) (sm_regs p r_pdid) (asid 64 p) va) p.
Proof using Ht.
  intros [Hmode Hvm] Hf. unfold translate_addr.
  assert (He : effective_mode (sm_regs p) op = sm_regs p r_mode).
  { unfold effective_mode. destruct (Z.leb_spec rv_mode_M (sm_regs p r_mode)); [lia | reflexivity]. }
  rewrite He. destruct (Z.leb_spec rv_mode_M (sm_regs p r_mode)); [lia |]. rewrite Hvm.
  assert (Hp : page_translate_addr 64 t va op p =
               page_translate_addr_tlb_miss 64 t va op
                 (tlb_lookup (tlb_of op p) (sm_regs p r_pdid) (asid 64 p) va) p).
  { unfold page_translate_addr. unfold fresh in Hf. cbv zeta.
    destruct (tlb_lookup _ _ _ _); [| reflexivity]. rewrite Hf, Z.eqb_refl. reflexivity. }
  rewrite <- Hp. unfold vm_of. destruct Ht as [E | E]; rewrite E; reflexivity.
Qed.

(** The walk does not meet a PTE that the code follows where the specification
    faults: an invalid one whose R, W and X bits are 0, or a pointer at level
    0. *)
Definition no_stray_pointer (p : soft D) (va : Z) : Prop :=
  match walk_of p va with PtInvalid | PtDeep => False | _ => True end.

(** A translation through a leaf to physical address 0: the TLB is not
    filled. *)
Lemma translate_leaf_zero op va p p1 pte_addr pte lvl :
  translating p -> fresh op va p -> quiet 64 p ->
  walk_of p va = PtLeaf pte_addr pte lvl -> spec_pa t va pte lvl = 0 ->
  updated op pte_addr pte p p1 ->
  translate_addr 64 va op p =
  Ok (0, tlb_lookup (tlb_of op p) (sm_regs p r_pdid) (asid 64 p) va) p1.
Proof using Ht.
  intros Htr Hf Hq Hw Hpa Hup. rewrite translate_page by assumption.
  pose proof (walk_page_table_spec op va p Hq) as Hwalk. rewrite Hw in Hwalk.
  unfold page_translate_addr_tlb_miss, bind. rewrite Hwalk. clear Hwalk.
  unfold spec_leaf, updated in *.
  destruct (_ =? ad_flags op); [subst p1 | unfold bind; rewrite Hup]; cbn [ret]; rewrite Hpa; reflexivity.
Qed.

(** A translation through a leaf. *)
Lemma translate_leaf op va p p1 pte_addr pte lvl :
  translating p -> fresh op va p -> quiet 64 p ->
  walk_of p va = PtLeaf pte_addr pte lvl -> spec_pa t va pte lvl <> 0 ->
  updated op pte_addr pte p p1 ->
  translate_addr 64 va op p =
  Ok (spec_pa t va pte lvl, Some (entry p1 va (final_pte op pte) lvl))
    (filled op va (final_pte op pte) lvl p1).
Proof using Ht.
  intros Htr Hf Hq Hw Hpa Hup. rewrite translate_page by assumption.
  pose proof (walk_page_table_spec op va p Hq) as Hwalk. rewrite Hw in Hwalk.
  unfold page_translate_addr_tlb_miss, bind. rewrite Hwalk. clear Hwalk.
  unfold spec_leaf, updated, final_pte in *. apply Z.eqb_neq in Hpa.
  destruct (_ =? ad_flags op); [subst p1 | unfold bind; rewrite Hup]; cbn [ret]; rewrite Hpa;
    unfold set_tlb, filled, with_tlb, tlb_insert, entry, ret;
    rewrite ?pte_ppn_update; destruct op; rewrite Z.eqb_refl; reflexivity.
Qed.

(** A walk that ends with an access exception. *)
Lemma translate_fault op va p :
  translating p -> fresh op va p -> quiet 64 p -> exceptions (sm_proc p) = true ->
  walk_of p va = PtFault ->
  translate_addr 64 va op p = Raise (fault_cause op) (faulted op va p).
Proof using Ht.
  intros Htr Hf Hq He Hw. rewrite translate_page by assumption.
  pose proof (walk_page_table_spec op va p Hq) as Hwalk. rewrite Hw in Hwalk.
  destruct Hwalk as (pte & lvl & Hwalk). unfold page_translate_addr_tlb_miss, bind.
  rewrite Hwalk, walk_faulted_raises by exact He. reflexivity.
Qed.

(** ** The checks after a translation *)
Lemma allowed_final op op' priv mxr pum pte :
  spec_allowed op priv mxr pum (final_pte op' pte) = spec_allowed op priv mxr pum pte.
Proof using.
  unfold final_pte, spec_pte. destruct (_ =? ad_flags op'); [reflexivity |].
  unfold spec_allowed. rewrite !Z.lor_spec. destruct op'; cbn -[Z.testbit];
    rewrite ?(Z.testbit_0_r); change (Z.testbit (ad_flags _) _) with false;
    rewrite !orb_false_r; reflexivity.
Qed.

Lemma entry_pteb p va pte lvl : te_pteb (entry p va pte lvl) = pte_flags pte.
Proof using.
  unfold entry, tlb_entry_make, pte_flags. cbn [te_pteb]. apply wrap_small.
  change 0x3ff with (Z.ones 10). rewrite Z.land_ones by lia. apply Z.mod_pos_bound. lia.
Qed.

Lemma regs_filled op va pte lvl p : sm_regs (filled op va pte lvl p) = sm_regs p.
Proof using. destruct op; reflexivity. Qed.

Lemma proc_filled op va pte lvl p : sm_proc (filled op va pte lvl p) = sm_proc p.
Proof using. destruct op; reflexivity. Qed.

Lemma updated_core `{!BusLaws D} op pte_addr pte p p1 :
  updated op pte_addr pte p p1 -> same_core p p1.
Proof using.
  unfold updated. destruct (_ =? _); [intros -> ; reflexivity |]. intros H.
  pose proof (bus_store_core 64 pte_addr (spec_pte op pte) p) as Hc. rewrite H in Hc. apply Hc.
Qed.

(** What the access checks say of a page the walk found. *)
Lemma checked_allowed `{!BusLaws D} op op' va pte_addr pte lvl p p1 :
  updated op' pte_addr pte p p1 ->
  let q := filled op' va (final_pte op' pte) lvl p1 in
  access_fault op (sm_regs q) (sm_regs q r_mode) (Some (entry p1 va (final_pte op' pte) lvl)) =
  negb (spec_allowed op (sm_regs p r_mode) (flag_set bf_mxr (sm_regs p))
          (flag_set bf_pum (sm_regs p)) pte).
Proof using.
  intros Hup q. subst q. rewrite regs_filled.
  destruct (updated_core op' pte_addr pte p p1 Hup) as (_ & -> & _).
  rewrite (access_fault_spec _ _ _ _ (final_pte op' pte)) by apply entry_pteb.
  rewrite allowed_final. reflexivity.
Qed.
End Translate.

(** ** RAM is quiet *)
Lemma ram_quiet D xlen (segments : list (mem_segment D)) (p : soft D) w :
  Forall (fun s => seg_load s = mmap_load) segments ->
  @quiet D (user_memory xlen segments) w p.
Proof.
  intros Hs a _. unfold peek. cbn [bus_load user_memory]. unfold memory_load.
  destruct (bus_width w); [| reflexivity].
  destruct (mpa_to_uva segments _) as [[s uva] |] eqn:E; [| reflexivity].
  apply mpa_to_uva_in in E. destruct E as [Hin _]. rewrite Forall_forall in Hs.
  apply list_elem_of_In, Hs in Hin. rewrite Hin. reflexivity.
Qed.
