(* ===== verification/MmuTheorems.v ===== *)
(** * MmuTheorems: the properties of the memory system. *)

From Stdlib Require Import ZArith Lia Bool List.
From stdpp Require Import base numbers list.
From S2P Require Import Prelude Decode Alu Machine Proxy Csr Tlb Soft Memory Mmu MmuSound MmuSpec.

(** ** A machine

    One megabyte of RAM at [0x80000000] with a three-level page table that
    maps the page [0x1000] to [0x80003000], readable and writable in U-mode. *)
Definition demo_ram : list (mem_segment unit) := [mmap_segment 0x80000000 0x10000000 0x100000].

Definition demo_host : Z -> Z :=
  let put a v mem := write_bytes 8 mem a v in
  put 0x10000000 (0x80001 * 1024 + 1) (put 0x10001000 (0x80002 * 1024 + 1)
    (put 0x10002008 (0x80003 * 1024 + 0x17) (put 0x10003238 0x1122334455667788 (fun _ => 0)))).

Definition demo_regs : pregs :=
  pregs_set r_sptbr 0x80000 (pregs_set r_mstatus (Z.shiftl 9 24) (fun _ => 0)).

Definition demo_soft : soft unit :=
  mkSoft proc_init demo_regs (tlb_init 64) (tlb_init 64) demo_host tt.

#[local] Instance demo_bus : Bus (soft unit) := user_memory 64 demo_ram.
#[local] Instance demo_bus_laws : BusLaws unit := user_memory_laws 64 demo_ram
  (Forall_cons_2 _ _ _ (mmap_segment_ok _ _ _) (Forall_nil_2 _)).

Lemma demo_ram_ok : ram_ok 64 demo_ram.
Proof.
  split; [right; reflexivity | |].
  - apply Forall_singleton. split; cbn; lia || reflexivity.
  - intros s s' Hs Hs'. left. unfold demo_ram in *.
    apply list_elem_of_singleton in Hs, Hs'. congruence.
Qed.

Lemma demo_quiet p : quiet 64 p.
Proof. apply ram_quiet, Forall_singleton. reflexivity. Qed.

(** ** Translation *)
Section Claims.
Context {D : Type} `{HB : Bus (soft D)}.

(** C14 - Address translation, on RV64 with Sv39 or Sv48 on, below M-mode,
    with page tables in memory whose loads change nothing and exceptions on.
    When the TLB has no entry for the page, or one with the flags the access
    needs, the walker implements the algorithm of the privileged specification
    for fetches, loads and stores.  When the algorithm ends at a leaf PTE, the
    physical address is the one it defines (superpages included), the PTE in
    memory has its A flag, and its D flag on a store, and the TLB the new
    mapping; when it ends with an access exception, the access raises the fault
    of its kind and only [badaddr] changes.  Not covered: a walk that meets an
    invalid PTE with R, W and X clear or a pointer at level 0, which the code
    follows, and a PTE whose update the bus refuses.  Physical address 0 is
    the walker's failure value: the TLB is not filled with it. *)
Theorem mmu_translate_spec t op va p :
  ptm64 t -> translating t p -> fresh op va p -> quiet 64 p -> exceptions (sm_proc p) = true ->
  no_stray_pointer t p va ->
  match walk_of t p va with
  | PtLeaf pte_addr pte lvl =>
      forall p1, updated op pte_addr pte p p1 ->
      translate_addr 64 va op p =
      if spec_pa t va pte lvl =? 0
      then Ok (0, tlb_lookup (tlb_of op p) (sm_regs p r_pdid) (asid 64 p) va) p1
      else Ok (spec_pa t va pte lvl, Some (entry t p1 va (final_pte op pte) lvl))
             (filled t op va (final_pte op pte) lvl p1)
  | _ => translate_addr 64 va op p = Raise (fault_cause op) (faulted op va p)
  end.
Proof using.
  intros Ht Htr Hf Hq He Hw. unfold no_stray_pointer in Hw.
  destruct (walk_of t p va) eqn:E; try contradiction.
  - intros p1 Hup. destruct (Z.eqb_spec (spec_pa t va pte level) 0) as [Hpa | Hpa].
    + eapply translate_leaf_zero; eassumption.
    + eapply translate_leaf; eassumption.
  - eapply translate_fault; eassumption.
Qed.

(** C15 - A load through a page, under the conditions of the translation (no
    TLB entry for the page that lacks the A flag, no invalid or level-0 pointer
    PTE that the code follows, a PTE update that the bus takes) and at an
    aligned address: when the algorithm finds a leaf that allows reading (R, or
    X with MXR; a user page from S-mode only without PUM), the load reads the
    translated physical address; when the leaf does not allow it, or there is
    no leaf, it raises a load access fault with the virtual address.  A page
    at physical address 0 is no result: the loaded variable keeps no value. *)
Theorem mmu_load_spec `{!BusLaws D} t w va p :
  ptm64 t -> translating t p -> fresh op_load va p -> quiet 64 p ->
  exceptions (sm_proc p) = true -> misaligned w va = false -> no_stray_pointer t p va ->
  match walk_of t p va with
  | PtLeaf pte_addr pte lvl =>
      forall p1, updated op_load pte_addr pte p p1 ->
      let q := filled t op_load va (final_pte op_load pte) lvl p1 in
      soft_load 64 w va p =
      if spec_pa t va pte lvl =? 0 then Undefined
      else if spec_allowed op_load (sm_regs p r_mode) (flag_set bf_mxr (sm_regs p))
           (flag_set bf_pum (sm_regs p)) pte
      then (r <- bus_load w (spec_pa t va pte lvl) ;;
            match r with Some v => ret v | None => raise_unset rv_cause_fault_load va end) q
      else Raise rv_cause_fault_load (faulted op_load va q)
  | _ => soft_load 64 w va p = Raise rv_cause_fault_load (faulted op_load va p)
  end.
Proof using.
  intros Ht Htr Hf Hq He Hm Hw. unfold no_stray_pointer in Hw.
  destruct (walk_of t p va) as [pte_addr pte lvl | | |] eqn:E; try contradiction.
  - intros p1 Hup q. unfold soft_load. rewrite Hm. unfold bind at 1.
    destruct (Z.eqb_spec (spec_pa t va pte lvl) 0) as [Hpa | Hpa].
    { rewrite (translate_leaf_zero t Ht op_load va p p1 pte_addr pte lvl) by assumption. reflexivity. }
    rewrite (translate_leaf t Ht op_load va p p1 pte_addr pte lvl) by assumption.
    apply Z.eqb_neq in Hpa. rewrite Hpa. fold q. unfold bind at 1. unfold checked_load.
    pose proof (checked_allowed t op_load op_load va pte_addr pte lvl p p1 Hup) as Hc.
    cbv zeta in Hc. fold q in Hc. cbn [access_fault] in Hc. rewrite Hc.
    destruct (spec_allowed _ _ _ _ _); [reflexivity |]. cbn [negb].
    unfold raise_unset. apply raise_then. unfold q. rewrite proc_filled.
    destruct (updated_core op_load pte_addr pte p p1 Hup) as (-> & _). exact He.
  - unfold soft_load. rewrite Hm. unfold bind at 1.
    rewrite (translate_fault t Ht) by assumption. reflexivity.
Qed.

(** C16 - A store through a page, under the conditions of the translation (no
    TLB entry for the page that lacks the A or D flag, no invalid or level-0
    pointer PTE that the code follows, a PTE update that the bus takes) and at
    an aligned address: when the algorithm finds a leaf, the PTE in memory gets
    its A and D flags, and where the leaf allows writing the store writes the
    translated physical address; when it does not, or there is no leaf, it
    raises a store access fault with the virtual address.  A store to a page at
    physical address 0 is dropped without a fault. *)
Theorem mmu_store_spec `{!BusLaws D} t w va v p :
  ptm64 t -> translating t p -> fresh op_store va p -> quiet 64 p ->
  exceptions (sm_proc p) = true -> misaligned w va = false -> no_stray_pointer t p va ->
  match walk_of t p va with
  | PtLeaf pte_addr pte lvl =>
      forall p1, updated op_store pte_addr pte p p1 ->
      let q := filled t op_store va (final_pte op_store pte) lvl p1 in
      soft_store 64 w va v p =
      if spec_pa t va pte lvl =? 0 then Ok tt p1
      else if spec_allowed op_store (sm_regs p r_mode) (flag_set bf_mxr (sm_regs p))
           (flag_set bf_pum (sm_regs p)) pte
      then (err <- bus_store w (spec_pa t va pte lvl) v ;;
            if err : bool then raise rv_cause_fault_store va else ret tt) q
      else Raise rv_cause_fault_store (faulted op_store va q)
  | _ => soft_store 64 w va v p = Raise rv_cause_fault_store (faulted op_store va p)
  end.
Proof using.
  intros Ht Htr Hf Hq He Hm Hw. unfold no_stray_pointer in Hw.
  destruct (walk_of t p va) as [pte_addr pte lvl | | |] eqn:E; try contradiction.
  - intros p1 Hup q. unfold soft_store, soft_store_with. rewrite Hm. unfold bind at 1.
    destruct (Z.eqb_spec (spec_pa t va pte lvl) 0) as [Hpa | Hpa].
    { rewrite (translate_leaf_zero t Ht op_store va p p1 pte_addr pte lvl) by assumption. reflexivity. }
    rewrite (translate_leaf t Ht op_store va p p1 pte_addr pte lvl) by assumption.
    apply Z.eqb_neq in Hpa. rewrite Hpa. fold q. unfold bind at 1. unfold checked_store.
    pose proof (checked_allowed t op_store op_store va pte_addr pte lvl p p1 Hup) as Hc.
    cbv zeta in Hc. fold q in Hc. cbn [access_fault] in Hc. rewrite Hc.
    destruct (spec_allowed _ _ _ _ _); [reflexivity |]. cbn [negb].
    apply raise_exceptions. unfold q. rewrite proc_filled.
    destruct (updated_core op_store pte_addr pte p p1 Hup) as (-> & _). exact He.
  - unfold soft_store, soft_store_with. rewrite Hm. unfold bind at 1.
    rewrite (translate_fault t Ht) by assumption. reflexivity.
Qed.
End Claims.

(** ** Physical memory *)

(** C17 - RAM.  When the segments are RAM and do not overlap in the host's
    memory, the bus is a byte-addressed little-endian memory: a load that a
    segment holds returns the bytes of the physical addresses it covers, a
    store changes those bytes to the value's and no other byte of any
    segment, and both leave the rest of the machine alone. *)
Theorem ram_spec {D} xlen (segments : list (mem_segment D)) s w a p :
  ram_ok xlen segments -> bus_width w = true ->
  0 <= a /\ a + Z.of_nat (bytes_of w) <= 2 ^ xlen ->
  inside segments s a (Z.of_nat (bytes_of w)) ->
  (exists v, memory_load xlen segments w a p = Ok (Some v) p /\ 0 <= v < 2 ^ w /\
     forall i, 0 <= i < Z.of_nat (bytes_of w) ->
     phys segments (sm_host p) (a + i) = Some (byte_of v i)) /\
  (forall v, exists p', memory_store xlen segments w a v p = Ok false p' /\ same_core p p' /\
     sm_dev p' = sm_dev p /\
     forall b, 0 <= b < 2 ^ xlen ->
     phys segments (sm_host p') b =
     if (a <=? b) && (b <? a + Z.of_nat (bytes_of w)) then Some (byte_of v (b - a))
     else phys segments (sm_host p) b).
Proof.
  intros Hr Hw Ha Hin. split.
  - eexists. split; [eapply memory_load_inside; eassumption |].
    split; [apply wrap_range, (bus_width_bytes w Hw) |].
    intros i Hi. eapply load_byte; eassumption.
  - intros v. eexists. split; [erewrite memory_store_inside by eassumption; reflexivity |].
    split_and!; try (repeat split; fail); [].
    intros b Hb. cbn [sm_host]. eapply store_byte; eassumption.
Qed.

(** ** The TLB *)

(** The TLB.  It finds what was last inserted for a page of a protection
    domain and an address space, with the mapping inserted; inserting and
    flushing never make another key's mapping appear; after a flush no mapping
    of the flushed address space is left. *)
Theorem tlb_spec xlen t pdid asid va ptel pteb ppn :
  xlen = 32 \/ xlen = 64 -> tlb_key_ok xlen pdid asid va ->
  tlb_lookup (tlb_insert xlen t pdid asid va ptel pteb ppn) pdid asid va =
    Some (tlb_entry_make xlen pdid asid (tlb_vpn va) ptel pteb ppn) /\
  (forall pdid' asid' va' e, (pdid', asid', tlb_vpn va') <> (pdid, asid, tlb_vpn va) ->
     tlb_lookup (tlb_insert xlen t pdid asid va ptel pteb ppn) pdid' asid' va' = Some e ->
     tlb_lookup t pdid' asid' va' = Some e) /\
  (forall va' e, tlb_lookup (tlb_flush xlen t pdid asid) pdid asid va' = Some e ->
     e = tlb_entry_init xlen) /\
  (forall pdid' asid' va' e,
     tlb_lookup (tlb_flush xlen t pdid asid) pdid' asid' va' = Some e -> e <> tlb_entry_init xlen ->
     tlb_lookup t pdid' asid' va' = Some e).
Proof.
  intros Hx Hk. split_and!.
  - apply tlb_lookup_insert; assumption.
  - intros. eapply tlb_lookup_insert_other; eassumption.
  - intros. eapply tlb_lookup_flush; eassumption.
  - intros. eapply tlb_flush_keeps; eassumption.
Qed.

(** ** Witnesses *)
Definition demo_pte : Z := 0x80003 * 1024 + 0x17.

(** The demo machine after its leaf PTE was updated by a store. *)
Definition demo_updated : soft unit :=
  mkSoft proc_init demo_regs (tlb_init 64) (tlb_init 64)
    (write_bytes 8 demo_host 0x10002008 (spec_pte op_store demo_pte)) tt.

Lemma demo_walk : walk_of sv39 demo_soft 0x1238 = PtLeaf 0x80002008 demo_pte 0.
Proof. vm_compute. reflexivity. Qed.

Lemma demo_store_pte : updated op_store 0x80002008 demo_pte demo_soft demo_updated.
Proof. reflexivity. Qed.

Lemma demo_no_stray : no_stray_pointer sv39 demo_soft 0x1238.
Proof. vm_compute. exact I. Qed.

Lemma demo_translating : translating sv39 demo_soft.
Proof. split; reflexivity. Qed.

Lemma demo_fresh op va : 0 <= va < 2 ^ 38 -> fresh op va demo_soft.
Proof.
  intros Hva. unfold fresh, tlb_lookup.
  assert (E : tlb_of op demo_soft = tlb_init 64) by (destruct op; reflexivity).
  rewrite E. cbn [tlb_init te_vpn te_pdid te_asid tlb_entry_init].
  replace (2 ^ vpn_bits 64 - 1 =? tlb_vpn va) with false; [rewrite andb_false_r; exact I |].
  symmetry. apply Z.eqb_neq. unfold tlb_vpn, vpn_bits, page_shift. rewrite Z.shiftr_div_pow2 by lia.
  assert (va / 2 ^ 12 < 2 ^ 26) by (apply Z.div_lt_upper_bound; lia). lia.
Qed.

Lemma mmu_translate_spec_witness :
  translate_addr 64 0x1238 op_store demo_soft =
  Ok (0x80003238, Some (entry sv39 demo_updated 0x1238 (spec_pte op_store demo_pte) 0))
    (filled sv39 op_store 0x1238 (spec_pte op_store demo_pte) 0 demo_updated).
Proof.
  pose proof (mmu_translate_spec sv39 op_store 0x1238 demo_soft (or_introl eq_refl) demo_translating
    (demo_fresh _ 0x1238 ltac:(lia)) (demo_quiet _) eq_refl demo_no_stray) as H.
  rewrite demo_walk in H. apply (H demo_updated demo_store_pte).
Defined.

Lemma mmu_load_spec_witness :
  exists q, soft_load 64 64 0x1238 demo_soft = Ok 0x1122334455667788 q.
Proof.
  pose proof (mmu_load_spec sv39 64 0x1238 demo_soft (or_introl eq_refl) demo_translating
    (demo_fresh _ 0x1238 ltac:(lia)) (demo_quiet _) eq_refl eq_refl demo_no_stray) as H.
  rewrite demo_walk in H.
  eexists. etransitivity; [eapply H; reflexivity | vm_compute; reflexivity].
Defined.

Lemma mmu_store_spec_witness :
  exists q, soft_store 64 32 0x1238 42 demo_soft = Ok tt q /\ phys demo_ram (sm_host q) 0x80003238 = Some 42.
Proof.
  pose proof (mmu_store_spec sv39 32 0x1238 42 demo_soft (or_introl eq_refl) demo_translating
    (demo_fresh _ 0x1238 ltac:(lia)) (demo_quiet _) eq_refl eq_refl demo_no_stray) as H.
  rewrite demo_walk in H. specialize (H demo_updated demo_store_pte).
  eexists. split; [etransitivity; [exact H | reflexivity] | vm_compute; reflexivity].
Defined.

Lemma ram_spec_witness :
  exists p', memory_store 64 demo_ram 16 0x80003238 0x1234 demo_soft = Ok false p' /\
    phys demo_ram (sm_host p') 0x80003239 = Some 0x12 /\
    phys demo_ram (sm_host p') 0x8000323a = phys demo_ram demo_host 0x8000323a.
Proof.
  destruct (ram_spec 64 demo_ram (mmap_segment 0x80000000 0x10000000 0x100000) 16 0x80003238 demo_soft
    demo_ram_ok eq_refl ltac:(vm_compute; split; discriminate)) as [_ H].
  - intros i Hi. change (Z.of_nat (bytes_of 16)) with 2 in Hi.
    assert (E : i = 0 \/ i = 1) by lia. destruct E as [-> | ->]; reflexivity.
  - destruct (H 0x1234) as (p' & E & _ & _ & Hb). exists p'. split; [exact E |].
    split; rewrite Hb by lia; reflexivity.
Defined.

Lemma tlb_spec_witness :
  tlb_lookup (tlb_insert 64 (tlb_init 64) 0 5 0x1238 0 0xdf 0x80003) 0 5 0x1fff =
  Some (tlb_entry_make 64 0 5 1 0 0xdf 0x80003).
Proof.
  destruct (tlb_spec 64 (tlb_init 64) 0 5 0x1238 0 0xdf 0x80003 (or_intror eq_refl)
    ltac:(vm_compute; intuition discriminate)) as [H _].
  exact H.
Defined.

(** ** Where the walker and the specification differ *)

(** The test of the TLB entry's flags is inverted: a store that hits an entry
    filled by a load is translated without setting the D flag, and an entry
    whose flags are up to date is walked again. *)
Example store_hit_leaves_pte_clean :
  let q := filled sv39 op_load 0x1238 (Z.lor demo_pte 0x40) 0 demo_soft in
  translate_addr 64 0x1238 op_store q =
  Ok (0x80003238, Some (entry sv39 demo_soft 0x1238 (Z.lor demo_pte 0x40) 0)) q.
Proof. reflexivity. Qed.

(** An invalid PTE whose R, W and X bits are 0 is followed as a pointer: the
    specification gives an access exception. *)
Definition demo_invalid : soft unit :=
  mkSoft proc_init demo_regs (tlb_init 64) (tlb_init 64)
    (write_bytes 8 demo_host 0x10001000 (0x80002 * 1024)) tt.

Example invalid_pte_followed :
  walk_of sv39 demo_invalid 0x1238 = PtInvalid /\
  match translate_addr 64 0x1238 op_load demo_invalid with
  | Ok (pa, _) _ => pa = 0x80003238 | _ => False end.
Proof. vm_compute. split; reflexivity. Qed.

(** A pointer at level 0 is followed to a further table. *)
Definition demo_deep : soft unit :=
  mkSoft proc_init demo_regs (tlb_init 64) (tlb_init 64)
    (write_bytes 8 demo_host 0x10002008 (0x80000 * 1024 + 1)) tt.

Example deep_walk_undefined :
  walk_of sv39 demo_deep 0x1238 = PtDeep /\
  translate_addr 64 0x1238 op_load demo_deep = Undefined.
Proof. vm_compute. split; reflexivity. Qed.

(** In M-mode with MPRV the page is checked at M-mode's privilege: a load
    with MPP = U reads a supervisor page. *)
Definition demo_mprv : soft unit :=
  mkSoft proc_init
    (pregs_set r_mode rv_mode_M
       (pregs_set r_mstatus (bf_set bf_mprv 1 (Z.shiftl 9 24)) (pregs_set r_sptbr 0x80000 (fun _ => 0))))
    (tlb_init 64) (tlb_init 64)
    (write_bytes 8 demo_host 0x10002008 (0x80003 * 1024 + 0x47)) tt.

Example mprv_reads_supervisor_page :
  effective_mode (sm_regs demo_mprv) op_load = rv_mode_U /\
  spec_allowed op_load rv_mode_U false false (0x80003 * 1024 + 0x47) = false /\
  match soft_load 64 64 0x1238 demo_mprv with
  | Ok v _ => v = 0x1122334455667788 | _ => False end.
Proof. vm_compute. split_and!; reflexivity. Qed.

(** A store to physical address 0 is dropped without a trap, RAM or not. *)
Lemma store_to_zero {D} `{Bus (soft D)} w v p :
  rv_mode_M <= sm_regs p r_mode -> bf_get bf_mprv (sm_regs p r_mstatus) = 0 ->
  soft_store 64 w 0 v p = Ok tt p.
Proof.
  intros Hm Hp. unfold soft_store, soft_store_with, misaligned. rewrite Z.land_0_l. cbn [Z.eqb negb].
  unfold bind, translate_addr, effective_mode. rewrite Hp. cbn [Z.eqb]. rewrite andb_false_r.
  cbn [andb]. apply Z.leb_le in Hm. rewrite Hm. reflexivity.
Qed.

(** A single-precision store passes its value to [store_32] as an integer: on a
    host that converts as C++ does, [fsw] of 1.0 (0x3f800000) stores 1. *)
Lemma float_store_converts (fpu : host_fpu) :
  f_to_u32 fpu 32 0x3f800000 = (1, 0) ->
  match memory_store_f 64 demo_ram fpu 32 0x80003238 0x3f800000 demo_soft with
  | Ok false q => phys demo_ram (sm_host q) 0x80003238 = Some 1 /\ phys demo_ram (sm_host q) 0x8000323b = Some 0
  | _ => False
  end.
Proof. intros E. unfold memory_store_f, float_arg. cbn [Z.eqb Pos.eqb]. rewrite E. vm_compute. split; reflexivity. Qed.
