(* ===== verification/Cache.v ===== *)
(** * Cache: the set-associative cache of [emu/cache.h] in front of the memory
    bus.

    The cache is part of the state of a machine whose bus is the cache: the
    MMU of [emu/mmu-soft-cache.h] (CacheMmu.v) loads and stores through it. *)

From Stdlib Require Import ZArith Lia Bool List.
From stdpp Require Import base numbers list.
From S2P Require Import Prelude Machine Proxy Tlb Soft.

(** ** Parameters

    [PARAM], [cache_size], [cache_ways] and [cache_line_size] by their base-2
    logarithms; the lines of a way fill a page. *)
Record geometry := mkGeometry { g_xlen : Z; g_ppn_bits : Z; g_line : Z; g_entries : Z; g_ways : Z }.

(** [cache_type_rv32] and [cache_type_rv64]. *)
Definition cache_type_rv32 : geometry := mkGeometry 32 22 6 6 3.
Definition cache_type_rv64 : geometry := mkGeometry 64 38 6 6 3.

Definition cache_write_through : Z := 0.
Definition cache_write_back : Z := 1.

Definition cache_line_empty : Z := 0.
Definition cache_line_hit : Z := 1.
Definition cache_line_must_evict : Z := 2.
Definition cache_line_filled : Z := 3.

Definition cache_state_modified : Z := 3.
Definition cache_state_invalid : Z := 0.
Definition cache_state_shared : Z := 4.

Inductive cache_op := op_S | op_L.

(** ** State

    [tagged_cache_entry]; [asid], [pdid] and [data] are never used. *)
Record cache_entry := mkEntry { e_pcln : Z; e_state : Z; e_ppn : Z; e_status : Z; e_LRU_count : Z }.

Section Setters.
Context (e : cache_entry).
Definition set_status (s : Z) : cache_entry := mkEntry (e_pcln e) (e_state e) (e_ppn e) s (e_LRU_count e).
Definition set_state (s : Z) : cache_entry := mkEntry (e_pcln e) s (e_ppn e) (e_status e) (e_LRU_count e).
Definition set_LRU (n : Z) : cache_entry := mkEntry (e_pcln e) (e_state e) (e_ppn e) (e_status e) n.
End Setters.

(** [tagged_cache]: [cache_key], [cache_data], the policy, and what the last
    access found. *)
Record tagged_cache := mkCache { cache_key : list cache_entry; cache_data : Z -> Z; write_policy : Z; last_access : Z }.

Section Geometry.
Context (g : geometry).

Definition cache_line_offset_mask : Z := Z.ones (g_line g).
Definition cache_line_mask : Z := wrap (g_xlen g) (Z.lnot (Z.ones (g_line g))).
Definition num_entries_mask : Z := Z.ones (g_entries g).
Definition num_ways : Z := 2 ^ g_ways g.
Definition cache_entries : Z := 2 ^ (g_entries g + g_ways g).
Definition cache_size : Z := 2 ^ (g_entries g + g_ways g + g_line g).

Definition new_entry : cache_entry :=
  mkEntry (Z.ones (g_xlen g - g_line g)) cache_state_shared (Z.ones (g_ppn_bits g)) cache_line_empty 0.

Definition new_cache (policy : Z) : tagged_cache :=
  mkCache (replicate (Z.to_nat cache_entries) new_entry) (fun _ => 0) policy 0.

(** [ent->pcln = mpa >> cache_line_shift; ent->ppn = ent->pcln >> num_entries_shift;
    ent->status = cache_line_filled]. *)
Definition fill_entry (mpa : Z) (e : cache_entry) : cache_entry :=
  let pcln := Z.shiftr mpa (g_line g) in
  mkEntry pcln (e_state e) (wrap (g_ppn_bits g) (Z.shiftr pcln (g_entries g))) cache_line_filled (e_LRU_count e).

(** ** Lookup *)

(** The variables of the loop of [lookup_cache_line]; [line_to_evict] is null
    until an entry is a candidate. *)
Record search := mkSearch { found_empty_line : bool; emptyLineIndex : Z; line_to_evict : option Z; maxLRU : Z }.

Definition new_search : search := mkSearch false 0 None 0.

(** An entry that is not a hit; [maxLRU] is a byte. *)
Definition search_entry (index : Z) (ent : cache_entry) (s : search) : search :=
  if negb (found_empty_line s) && (e_status ent =? cache_line_empty) then mkSearch true index (line_to_evict s) (maxLRU s)
  else if maxLRU s <=? e_LRU_count ent then
    mkSearch (found_empty_line s) (emptyLineIndex s) (Some index) (u8 (e_LRU_count ent))
  else s.

(** The index of the line for an address, and what its status becomes; an index
    out of the array, or no line to evict, is undefined. *)
Fixpoint search_ways (n : nat) (index ppn : Z) (key : list cache_entry) (s : search) : option (Z * option Z) :=
  match n with
  | O =>
      if found_empty_line s then Some (emptyLineIndex s, None)
      else match line_to_evict s with Some i => Some (i, Some cache_line_must_evict) | None => None end
  | S n =>
      match key !! Z.to_nat index with
      | None => None
      | Some ent =>
          if e_ppn ent =? ppn then Some (index, Some cache_line_hit)
          else search_ways n (index + 1) ppn key (search_entry index ent s)
      end
  end.

Definition set_index (mpa : Z) : Z :=
  Z.shiftl (Z.land (Z.shiftr mpa (g_line g)) num_entries_mask) (g_ways g).
Definition ppn_of (mpa : Z) : Z := Z.shiftr (Z.shiftr mpa (g_line g)) (g_entries g).

(** [update_LRU_counters]; [index_for_set] as in the caller. *)
Definition update_LRU (index_for_set skip : Z) (key : list cache_entry) : list cache_entry :=
  let first := Z.shiftl index_for_set (g_ways g) in
  imap (fun i e =>
    let i := Z.of_nat i in
    if (first <=? i) && (i <? first + num_ways) && negb (i =? skip) then set_LRU e (wrap (g_xlen g) (e_LRU_count e + 1)) else e) key.
End Geometry.

(** ** The machine

    The state of the bus has a cache. *)
Class HasCache (D : Type) := {
  dev_cache : D -> tagged_cache;
  dev_set_cache : tagged_cache -> D -> D }.

Definition default_ram_base : Z := 0x80000000.
Definition default_ram_size : Z := 0x40000028.

Definition stat_loads : Z := 0xC0000000.
Definition stat_stores : Z := 0xC0000008.
Definition stat_hits : Z := 0xC0000010.
Definition stat_misses : Z := 0xC0000018.
Definition stat_evicted : Z := 0xC0000020.

Section Cache.
Context {D : Type} `{HC : HasCache D} (mem : Bus (soft D)) (g : geometry).
Abbreviation ux := (wrap (g_xlen g)).
Abbreviation MS := (M (soft D)).

Definition cache_of (p : soft D) : tagged_cache := dev_cache (sm_dev p).

Definition put_cache (c : tagged_cache) : MS unit := fun p =>
  Ok tt (mkSoft (sm_proc p) (sm_regs p) (sm_itlb p) (sm_dtlb p) (sm_host p) (dev_set_cache c (sm_dev p))).

Definition get_cache : MS tagged_cache := fun p => Ok (cache_of p) p.

Definition get_entry (i : Z) : MS cache_entry :=
  c <- get_cache ;;
  match (if 0 <=? i then cache_key c !! Z.to_nat i else None) with Some e => ret e | None => undefined end.

Definition set_key (k : list cache_entry) : MS unit :=
  c <- get_cache ;; put_cache (mkCache k (cache_data c) (write_policy c) (last_access c)).

Definition put_entry (i : Z) (f : cache_entry -> cache_entry) : MS unit :=
  e <- get_entry i ;; c <- get_cache ;; set_key (<[Z.to_nat i := f e]> (cache_key c)).

Definition set_last (v : Z) : MS unit :=
  c <- get_cache ;; put_cache (mkCache (cache_key c) (cache_data c) (write_policy c) v).

(** [cache_data[i] = v]; an index out of the array is undefined. *)
Definition put_data (i v : Z) : MS unit :=
  if (0 <=? i) && (i <? cache_size g) then
    c <- get_cache ;; put_cache (mkCache (cache_key c) (fun j => if j =? i then u8 v else cache_data c j) (write_policy c) (last_access c))
  else undefined.

Definition get_data (i : Z) : MS Z :=
  if (0 <=? i) && (i <? cache_size g) then c <- get_cache ;; ret (u8 (cache_data c i)) else undefined.

(** [update_stats]: a count that is not in memory is an uninitialized variable. *)
Definition update_stats (mpa : Z) : MS unit :=
  r <- bus_load 64 mpa ;;
  match r with
  | Some v => _ <- bus_store 64 mpa (u64 (v + 1)) ;; ret tt
  | None => undefined
  end.

(** [allocate]: [true] is a bus error; [n] bytes are left. *)
Fixpoint allocate_from (n : nat) (mpa_masked index_for_data : Z) (op : cache_op) : MS bool :=
  match n with
  | O => ret false
  | S n =>
      let next := allocate_from n (ux (mpa_masked + 1)) (ux (index_for_data + 1)) op in
      match op with
      | op_S =>
          v <- get_data index_for_data ;;
          err <- bus_store 8 mpa_masked v ;;
          if err : bool then ret true else next
      | op_L =>
          r <- bus_load 8 mpa_masked ;;
          match r with None => ret true | Some v => put_data index_for_data v ;; next end
      end
  end.

Definition line_bytes : nat := Z.to_nat (2 ^ g_line g).

Definition allocate (mpa : Z) (op : cache_op) (index_for_entry : Z) : MS bool :=
  allocate_from line_bytes (Z.land mpa (cache_line_mask g)) (ux (Z.shiftl index_for_entry (g_line g))) op.

Definition lookup_cache_line (mpa : Z) : MS Z :=
  c <- get_cache ;;
  match search_ways (Z.to_nat (num_ways g)) (set_index g mpa) (ppn_of g mpa) (cache_key c) new_search with
  | Some (i, Some s) => put_entry i (fun e => set_status e s) ;; ret i
  | Some (i, None) => ret i
  | None => undefined
  end.

(** A modified line is written to memory. *)
Definition write_line (index_for_entry : Z) : MS bool :=
  e <- get_entry index_for_entry ;;
  allocate (ux (Z.shiftl (e_pcln e) (g_line g))) op_S index_for_entry.

Definition dirty (policy : Z) (e : cache_entry) : bool :=
  (policy =? cache_write_back) && (e_state e =? cache_state_modified).

(** The line that was evicted is the most recently used. *)
Definition touch_entry (i : Z) : MS unit :=
  put_entry i (fun e => set_LRU e 0) ;;
  e <- get_entry i ;; c <- get_cache ;;
  set_key (update_LRU g (Z.land (e_pcln e) (num_entries_mask g)) i (cache_key c)).

(** ** Values *)

Fixpoint data_bytes (n : nat) (i : Z) : MS Z :=
  match n with
  | O => ret 0
  | S n => b <- get_data i ;; r <- data_bytes n (ux (i + 1)) ;; ret (b + Z.shiftl r 8)
  end.

(** The part of [load_val] for a value that goes past the end of its line: the
    next line is loaded to the next entry of the array. *)
Definition load_next (mpa index_for_data : Z) : MS bool :=
  let index_for_entry := Z.shiftr index_for_data (g_line g) + 1 in
  let mpa_to_fill_bits := ux (mpa + (cache_line_offset_mask g - Z.land mpa (cache_line_offset_mask g) + 1)) in
  ent <- get_entry index_for_entry ;;
  c <- get_cache ;;
  err <-
    (if e_status ent =? cache_line_empty then ret false
     else
       err <-
         (if dirty (write_policy c) ent then
            err <- write_line index_for_entry ;;
            if err : bool then ret true else put_entry index_for_entry (fun e => set_state e cache_state_shared) ;; ret false
          else ret false) ;;
       if err : bool then ret true else touch_entry index_for_entry ;; ret false) ;;
  if err : bool then ret true
  else
    err <- allocate mpa_to_fill_bits op_L index_for_entry ;;
    if err : bool then ret true
    else
      put_entry index_for_entry (fill_entry g mpa_to_fill_bits) ;; set_last cache_line_must_evict ;;
      update_stats stat_evicted ;; ret false.

Definition crosses (w index_for_data : Z) : bool :=
  negb (Z.shiftr (ux (index_for_data + (w / 8 - 1))) (g_line g) =? Z.shiftr index_for_data (g_line g)).

Definition load_val (w mpa index_for_data : Z) : MS (option Z) :=
  err <- (if crosses w index_for_data then load_next mpa index_for_data else ret false) ;;
  if err : bool then ret None
  else v <- data_bytes (bytes_of w) index_for_data ;; ret (Some (wrap w v)).

(** [store_val]: the loop over the bytes of the value. *)
Fixpoint store_bytes (n : nat) (mpa i v : Z) : MS bool :=
  match n with
  | O => ret false
  | S n =>
      put_data i v ;;
      c <- get_cache ;;
      err <- (if write_policy c =? cache_write_through then bus_store 8 mpa (u8 v) else ret false) ;;
      if err : bool then ret true else store_bytes n (ux (mpa + 1)) (ux (i + 1)) (Z.shiftr v 8)
  end.

Definition store_val (w mpa index_for_data v : Z) : MS bool := store_bytes (bytes_of w) mpa index_for_data (wrap w v).

(** ** Accesses *)

(** The cases of [access_cache] on what the lookup found. *)
Definition on_hit (i : Z) : MS bool :=
  put_entry i (fun e => set_status e cache_line_filled) ;; set_last cache_line_hit ;; update_stats stat_hits ;; ret false.

Definition on_evict (mpa i : Z) : MS bool :=
  e <- get_entry i ;; c <- get_cache ;;
  err <- (if dirty (write_policy c) e
          then put_entry i (fun e => set_state e cache_state_shared) ;; write_line i
          else ret false) ;;
  if err : bool then ret true
  else
    touch_entry i ;; put_entry i (fill_entry g mpa) ;; set_last cache_line_must_evict ;;
    update_stats stat_misses ;; update_stats stat_evicted ;; allocate mpa op_L i.

Definition on_empty (mpa i : Z) : MS bool :=
  put_entry i (fill_entry g mpa) ;; set_last cache_line_empty ;; update_stats stat_misses ;; allocate mpa op_L i.

(** [access_cache]: a load returns the value, a store nothing; [None] is a bus
    error. *)
Definition access_cache (w mpa : Z) (op : cache_op) (val : Z) : MS (option Z) :=
  i <- lookup_cache_line mpa ;;
  ent <- get_entry i ;;
  let index_for_data := Z.lor (ux (Z.shiftl i (g_line g))) (Z.land mpa (cache_line_offset_mask g)) in
  err <-
    (if e_status ent =? cache_line_hit then on_hit i
     else if e_status ent =? cache_line_must_evict then on_evict mpa i
     else if e_status ent =? cache_line_empty then on_empty mpa i
     else ret false) ;;
  if err : bool then ret None
  else
    c <- get_cache ;;
    let store :=
      err <- store_val w mpa index_for_data val ;; ret (if err : bool then None else Some 0) in
    let is_store := match op with op_S => true | op_L => false end in
    if is_store && (write_policy c =? cache_write_through) then store
    else if is_store && (write_policy c =? cache_write_back) then
      put_entry i (fun e => set_state e cache_state_modified) ;; store
    else load_val w mpa index_for_data.

Definition uncached (mpa : Z) : bool := (mpa <? default_ram_base) || (default_ram_base + default_ram_size <? mpa).

Definition cache_load (w mpa : Z) : MS (option Z) :=
  let mpa := ux mpa in
  if uncached mpa then bus_load w mpa else update_stats stat_loads ;; access_cache w mpa op_L 0.

Definition cache_store (w mpa v : Z) : MS bool :=
  let mpa := ux mpa in
  if uncached mpa then bus_store w mpa v
  else
    update_stats stat_stores ;; r <- access_cache w mpa op_S v ;;
    ret (match r with None => true | Some _ => false end).

(** The cache as the bus of the MMU. *)
Definition cache_bus : Bus (soft D) := {| bus_load := cache_load; bus_store := cache_store |}.

(** [store] of a float: outside RAM it is the bus's, in the cache [store_val]
    copies the float's bits. *)
Definition cache_store_f `{FloatBus (soft D)} (fpu : host_fpu) (w mpa v : Z) : MS bool :=
  if uncached (ux mpa) then bus_store_f fpu w (ux mpa) v else cache_store w mpa v.

Definition cache_float_bus `{FloatBus (soft D)} : FloatBus (soft D) := {| bus_store_f := cache_store_f |}.
End Cache.
