(* ===== verification/CacheSound.v ===== *)
(** * CacheSound: the cache holds the memory.

    [coherent M c f]: the machine behaves as if its RAM were [M], where [f] is
    what RAM holds and [c] what the cache holds. *)

From Stdlib Require Import ZArith Lia Bool List.
From stdpp Require Import base numbers list.
From S2P Require Import Prelude Machine Proxy Tlb Soft Memory Cache.

(** ** Parameters and memory *)

(** What the code asserts of its parameters, and what the types give. *)
Record geometry_ok (g : geometry) : Prop := {
  go_xlen : g_xlen g = 32 \/ g_xlen g = 64;
  go_page : g_line g + g_entries g = 12;
  go_line : 3 <= g_line g;
  go_entries : 0 <= g_entries g;
  go_ways : 0 <= g_ways g <= 16;
  go_ppn : 22 <= g_ppn_bits g }.

(** RAM that the cache is used for; the counters follow it. *)
Definition in_ram (a : Z) : Prop := 0x80000000 <= a < 0xC0000000.

Definition is_stat (a : Z) : Prop := 0xC0000000 <= a <= 0xC0000020.

Class HasCacheLaws (D : Type) `{HasCache D} : Prop := {
  dev_cache_set : forall c d, dev_cache (dev_set_cache c d) = c }.

Section Sound.
Context {D : Type} `{HC : HasCacheLaws D} (mem : Bus (soft D)) (g : geometry) (Hg : geometry_ok g).
Context (ram : soft D -> Z -> Z).
Abbreviation MS := (M (soft D)).
Abbreviation ux := (wrap (g_xlen g)).

(** The state for the cache: what it holds and what RAM holds. *)
Definition view (p : soft D) (c : tagged_cache) (f : Z -> Z) : Prop :=
  cache_of p = c /\ forall a, in_ram a -> ram p a = f a.

(** A computation that returns [a] and leads to a view. *)
Definition does {A} (m : MS A) (c : tagged_cache) (f : Z -> Z) (a : A) (c' : tagged_cache) (f' : Z -> Z) : Prop :=
  forall p, view p c f -> exists p', m p = Ok a p' /\ same_core p p' /\ view p' c' f'.

(** Memory behind the cache: RAM holds bytes, the counters are in memory, and
    neither is the cache. *)
Class CacheMemory : Prop := {
  cm_load : forall a c f, in_ram a -> does (bus_load 8 a) c f (Some (f a)) c f;
  cm_store : forall a v c f, in_ram a -> does (bus_store 8 a v) c f false c (fun b => if b =? a then u8 v else f b);
  cm_stat : forall a c f, is_stat a -> forall p, view p c f -> exists v, bus_load 64 a p = Ok (Some v) p;
  cm_count : forall a v c f, is_stat a -> does (bus_store 64 a v) c f false c f;
  cm_cache : forall c p a, in_ram a ->
    ram (mkSoft (sm_proc p) (sm_regs p) (sm_itlb p) (sm_dtlb p) (sm_host p) (dev_set_cache c (sm_dev p))) a = ram p a }.
Context {CM : CacheMemory}.

Lemma does_ret {A} (a : A) c f : does (ret a) c f a c f.
Proof using. intros p Hp. exists p. repeat split; apply Hp. Qed.

Lemma does_bind {A B} (m : MS A) (k : A -> MS B) c f a c1 f1 b c2 f2 :
  does m c f a c1 f1 -> does (k a) c1 f1 b c2 f2 -> does (bind m k) c f b c2 f2.
Proof using.
  intros Hm Hk p Hp. destruct (Hm p Hp) as (p1 & E1 & S1 & H1). destruct (Hk p1 H1) as (p2 & E2 & S2 & H2).
  exists p2. unfold bind. rewrite E1. split; [exact E2 |]. split; [etransitivity; eassumption | exact H2].
Qed.

Lemma does_get_cache c f : does get_cache c f c c f.
Proof using. intros p Hp. exists p. unfold get_cache. rewrite (proj1 Hp). repeat split; apply Hp. Qed.

Lemma does_put_cache c' c f : does (put_cache c') c f tt c' f.
Proof using HC CM.
  intros p [_ Hf]. eexists. split; [reflexivity |]. split; [repeat split |]. split.
  - apply dev_cache_set.
  - intros a Ha. rewrite cm_cache by exact Ha. apply Hf, Ha.
Qed.

(** A line with another cache state and RAM. *)
Lemma does_get_entry i e c f : 0 <= i -> cache_key c !! Z.to_nat i = Some e -> does (get_entry i) c f e c f.
Proof using.
  intros Hi He. eapply does_bind; [apply does_get_cache |]. replace (0 <=? i) with true by lia. rewrite He. apply does_ret.
Qed.

Definition with_key (c : tagged_cache) (k : list cache_entry) : tagged_cache := mkCache k (cache_data c) (write_policy c) (last_access c).
Definition with_data (c : tagged_cache) (d : Z -> Z) : tagged_cache := mkCache (cache_key c) d (write_policy c) (last_access c).
Definition with_last (c : tagged_cache) (v : Z) : tagged_cache := mkCache (cache_key c) (cache_data c) (write_policy c) v.

Lemma does_set_key k c f : does (set_key k) c f tt (with_key c k) f.
Proof using HC CM. eapply does_bind; [apply does_get_cache | apply does_put_cache]. Qed.

Lemma does_set_last v c f : does (set_last v) c f tt (with_last c v) f.
Proof using HC CM. eapply does_bind; [apply does_get_cache | apply does_put_cache]. Qed.

Lemma does_put_entry i h e c f : 0 <= i -> cache_key c !! Z.to_nat i = Some e ->
  does (put_entry i h) c f tt (with_key c (<[Z.to_nat i := h e]> (cache_key c))) f.
Proof using HC CM.
  intros Hi He. eapply does_bind; [apply does_get_entry; eassumption |]. eapply does_bind; [apply does_get_cache | apply does_set_key].
Qed.

Lemma does_stats a c f : is_stat a -> does (update_stats mem a) c f tt c f.
Proof using CM.
  intros Ha p Hp. destruct (cm_stat a c f Ha p Hp) as (v & Hv). unfold update_stats, bind. rewrite Hv.
  destruct (cm_count a (u64 (v + 1)) c f Ha p Hp) as (p' & E & S & H'). rewrite E. exists p'. auto.
Qed.

Lemma does_put_data i v c f : 0 <= i < cache_size g ->
  does (put_data g i v) c f tt (with_data c (fun j => if j =? i then u8 v else cache_data c j)) f.
Proof using HC CM.
  intros Hi. unfold put_data. replace ((0 <=? i) && (i <? cache_size g)) with true by lia.
  eapply does_bind; [apply does_get_cache | apply does_put_cache].
Qed.

Lemma does_get_data i c f : 0 <= i < cache_size g -> does (get_data g i) c f (u8 (cache_data c i)) c f.
Proof using.
  intros Hi. unfold get_data. replace ((0 <=? i) && (i <? cache_size g)) with true by lia.
  eapply does_bind; [apply does_get_cache | apply does_ret].
Qed.

(** ** Arithmetic of lines *)
Abbreviation line := (2 ^ g_line g).
Abbreviation sets := (2 ^ g_entries g).
Abbreviation ways := (2 ^ g_ways g).

Lemma powers : 8 <= line /\ 0 < sets /\ 0 < ways /\ line * sets = 4096 /\ cache_entries g = sets * ways /\
  cache_size g = sets * ways * line /\ sets * ways * line <= 2 ^ 28.
Proof using Hg.
  destruct Hg as [Hx Hp Hl He Hw Hb].
  assert (8 <= line) by (change 8 with (2 ^ 3); apply Z.pow_le_mono_r; lia).
  assert (0 < sets) by (apply Z.pow_pos_nonneg; lia). assert (0 < ways) by (apply Z.pow_pos_nonneg; lia).
  assert (E : line * sets = 4096) by (rewrite <- Z.pow_add_r, Hp by lia; reflexivity).
  unfold cache_entries, cache_size. rewrite !Z.pow_add_r by lia. assert (ways <= 2 ^ 16) by (apply Z.pow_le_mono_r; lia).
  repeat split; try assumption; try nia.
Qed.

Lemma ux_small a : 0 <= a < 2 ^ 32 -> ux a = a.
Proof using Hg. intros Ha. apply wrap_small. destruct (go_xlen g Hg) as [-> | ->]; lia. Qed.

(** Bytes of RAM from [a], bytes of the cache from [i]. *)
Lemma allocate_L n : forall a i c f, (forall o, 0 <= o < Z.of_nat n -> in_ram (a + o)) -> 0 <= i -> i + Z.of_nat n <= cache_size g ->
  exists d, does (allocate_from mem g n a i op_L) c f false (with_data c d) f /\
    forall j, d j = if (i <=? j) && (j <? i + Z.of_nat n) then u8 (f (a + (j - i))) else cache_data c j.
Proof using HC CM Hg.
  pose proof powers as (_ & _ & _ & _ & _ & Es & Hs). rewrite <- Es in Hs.
  induction n as [| n IH]; intros a i c f Ha Hi Hn.
  - exists (cache_data c). split; [destruct c; apply does_ret |]. intros j. destruct (Z.leb_spec i j), (Z.ltb_spec j (i + Z.of_nat 0)); try reflexivity; lia.
  - pose proof (Ha 0 ltac:(lia)) as Ha0. rewrite Z.add_0_r in Ha0. pose proof (Ha (Z.of_nat n) ltac:(lia)) as Han. unfold in_ram in Ha0, Han.
    cbn [allocate_from]. rewrite !ux_small by lia.
    set (c1 := with_data c (fun j => if j =? i then u8 (f a) else cache_data c j)).
    destruct (IH (a + 1) (i + 1) c1 f) as (d & Hd & Ed); [| lia | lia |].
    { intros o Ho. replace (a + 1 + o) with (a + (o + 1)) by lia. apply Ha. lia. }
    exists d. split.
    + eapply does_bind; [apply cm_load, Ha0 |]. cbv beta iota. eapply does_bind; [apply does_put_data; lia | exact Hd].
    + intros j. rewrite Ed. cbn [c1 with_data cache_data].
      destruct (Z.leb_spec (i + 1) j), (Z.ltb_spec j (i + 1 + Z.of_nat n)), (Z.leb_spec i j), (Z.ltb_spec j (i + Z.of_nat (S n))); cbn [andb]; try lia;
        destruct (Z.eqb_spec j i); try lia; subst; try reflexivity.
      * do 2 f_equal. lia.
      * do 2 f_equal. lia.
Qed.

Lemma allocate_S n : forall a i c f, (forall o, 0 <= o < Z.of_nat n -> in_ram (a + o)) -> 0 <= i -> i + Z.of_nat n <= cache_size g ->
  exists f', does (allocate_from mem g n a i op_S) c f false c f' /\
    forall b, f' b = if (a <=? b) && (b <? a + Z.of_nat n) then u8 (cache_data c (i + (b - a))) else f b.
Proof using CM Hg.
  pose proof powers as (_ & _ & _ & _ & _ & Es & Hs). rewrite <- Es in Hs.
  induction n as [| n IH]; intros a i c f Ha Hi Hn.
  - exists f. split; [apply does_ret |]. intros b. destruct (Z.leb_spec a b), (Z.ltb_spec b (a + Z.of_nat 0)); try reflexivity; lia.
  - pose proof (Ha 0 ltac:(lia)) as Ha0. rewrite Z.add_0_r in Ha0. pose proof (Ha (Z.of_nat n) ltac:(lia)) as Han. unfold in_ram in Ha0, Han.
    cbn [allocate_from]. rewrite !ux_small by lia.
    destruct (IH (a + 1) (i + 1) c (fun b => if b =? a then u8 (u8 (cache_data c i)) else f b)) as (f' & Hf & Ef); [| lia | lia |].
    { intros o Ho. replace (a + 1 + o) with (a + (o + 1)) by lia. apply Ha. lia. }
    exists f'. split.
    + eapply does_bind; [apply does_get_data; lia |]. eapply does_bind; [apply cm_store, Ha0 | exact Hf].
    + intros b. rewrite Ef.
      destruct (Z.leb_spec (a + 1) b), (Z.ltb_spec b (a + 1 + Z.of_nat n)), (Z.leb_spec a b), (Z.ltb_spec b (a + Z.of_nat (S n))); cbn [andb]; try lia;
        destruct (Z.eqb_spec b a); try lia; subst; try reflexivity.
      * do 2 f_equal. lia.
      * rewrite wrap_wrap. do 2 f_equal. lia.
Qed.

(** ** Lines that are held *)

(** Byte [o] of line number [n], and the line and byte of an address. *)
Abbreviation line_of a := (a / line).
Abbreviation offset a := (a mod line).

Lemma line_in_ram a o : in_ram a -> 0 <= o < line -> in_ram (line_of a * line + o).
Proof using Hg.
  pose proof powers as (Hl & Hs & _ & Ep & _). intros Ha Ho. unfold in_ram in *.
  assert (Ea : 0x80000000 = 0x80000 * sets * line /\ 0xC0000000 = 0xC0000 * sets * line) by lia. destruct Ea as [E1 E2].
  rewrite E1, E2 in Ha |- *. pose proof (Z.div_mod a line ltac:(lia)) as E. pose proof (Z.mod_pos_bound a line ltac:(lia)).
  assert (0x80000 * sets <= line_of a) by (apply Z.div_le_lower_bound; lia).
  assert (line_of a < 0xC0000 * sets) by (apply Z.div_lt_upper_bound; lia). nia.
Qed.

(** An entry that holds a line of [M]. *)
Record holds_line (M : Z -> Z) (c : tagged_cache) (f : Z -> Z) (i : Z) (e : cache_entry) : Prop := {
  hl_status : e_status e = cache_line_filled;
  hl_ram : forall o, 0 <= o < line -> in_ram (e_pcln e * line + o);
  hl_set : e_pcln e mod sets = i / ways;
  hl_ppn : e_ppn e = e_pcln e / sets;
  hl_data : forall o, 0 <= o < line -> u8 (cache_data c (i * line + o)) = M (e_pcln e * line + o);
  hl_clean : dirty (write_policy c) e = false -> forall o, 0 <= o < line -> f (e_pcln e * line + o) = M (e_pcln e * line + o) }.

Record is_empty (e : cache_entry) : Prop := { em_status : e_status e = cache_line_empty; em_ppn : e_ppn e = Z.ones (g_ppn_bits g) }.

(** All entries but one. *)
Record coherent_but (skip : Z) (M : Z -> Z) (c : tagged_cache) (f : Z -> Z) : Prop := {
  co_policy : write_policy c = cache_write_through \/ write_policy c = cache_write_back;
  co_length : length (cache_key c) = Z.to_nat (cache_entries g);
  co_lru : Forall (fun e => 0 <= e_LRU_count e) (cache_key c);
  co_entry : forall i e, 0 <= i -> i <> skip -> cache_key c !! Z.to_nat i = Some e -> is_empty e \/ holds_line M c f i e;
  co_unique : forall i j e e', 0 <= i -> 0 <= j -> i <> skip -> j <> skip -> cache_key c !! Z.to_nat i = Some e -> cache_key c !! Z.to_nat j = Some e' ->
    e_status e = cache_line_filled -> e_status e' = cache_line_filled -> e_pcln e = e_pcln e' -> i = j;
  co_rest : forall a, in_ram a -> (forall i e, 0 <= i -> i <> skip -> cache_key c !! Z.to_nat i = Some e -> e_status e = cache_line_filled -> e_pcln e <> line_of a) -> f a = M a;
  co_byte : forall a, in_ram a -> 0 <= M a < 256 }.

Definition coherent : (Z -> Z) -> tagged_cache -> (Z -> Z) -> Prop := coherent_but (-1).

Lemma key_at skip M c f i : coherent_but skip M c f -> 0 <= i < cache_entries g -> exists e, cache_key c !! Z.to_nat i = Some e /\ 0 <= e_LRU_count e.
Proof using.
  intros Hc Hi. destruct (lookup_lt_is_Some_2 (cache_key c) (Z.to_nat i)) as [e He]; [rewrite (co_length _ _ _ _ Hc); lia |].
  exists e. split; [exact He |]. pose proof (co_lru _ _ _ _ Hc) as F. rewrite Forall_lookup in F. apply (F _ _ He).
Qed.

(** ** Lookup *)

(** The set of an address. *)
Definition set_of (a : Z) : Z := line_of a mod sets.

Lemma set_index_spec a : 0 <= a -> set_index g a = set_of a * ways.
Proof using Hg.
  intros Ha. destruct Hg. unfold set_index, set_of, num_entries_mask. rewrite Z.shiftl_mul_pow2, Z.land_ones, Z.shiftr_div_pow2 by lia. reflexivity.
Qed.

Lemma ppn_spec a : 0 <= a -> ppn_of g a = line_of a / sets.
Proof using Hg. intros Ha. destruct Hg. unfold ppn_of. rewrite !Z.shiftr_div_pow2 by lia. reflexivity. Qed.

(** What a search has found so far, from the entries of [key] in [[first, index)]. *)
Record searched (key : list cache_entry) (first index ppn : Z) (s : search) : Prop := {
  se_miss : forall i e, first <= i < index -> key !! Z.to_nat i = Some e -> e_ppn e <> ppn;
  se_empty : found_empty_line s = true -> first <= emptyLineIndex s < index /\
    exists e, key !! Z.to_nat (emptyLineIndex s) = Some e /\ e_status e = cache_line_empty;
  se_full : found_empty_line s = false -> (first < index -> line_to_evict s <> None) /\
    (forall i e, first <= i < index -> key !! Z.to_nat i = Some e -> e_status e <> cache_line_empty);
  se_victim : forall i, line_to_evict s = Some i -> first <= i < index;
  se_max : first = index -> maxLRU s = 0 }.

Lemma searched_step key first index ppn s e : 0 <= first <= index -> searched key first index ppn s -> key !! Z.to_nat index = Some e ->
  0 <= e_LRU_count e -> e_ppn e <> ppn -> searched key first (index + 1) ppn (search_entry index e s).
Proof using.
  intros Hi [S1 S2 S3 S4 S5] He Hl Hn.
  assert (One : forall i e' (P : cache_entry -> Prop), first <= i < index + 1 -> key !! Z.to_nat i = Some e' ->
    P e -> (first <= i < index -> P e') -> P e').
  { intros i e' P Hi' He' Pe Pi. destruct (decide (i = index)) as [-> | Hne]; [congruence | apply Pi; lia]. }
  unfold search_entry. destruct (found_empty_line s) eqn:Ef; cbn [negb andb].
  - destruct (S2 eq_refl) as (R2 & X). 
    destruct (maxLRU s <=? e_LRU_count e); split; cbn [found_empty_line emptyLineIndex line_to_evict maxLRU]; try congruence.
    all: try (intros i e' Hi' He'; apply (One i e' (fun e => e_ppn e <> ppn) Hi' He'); [exact Hn | intros; eapply S1; eassumption]).
    all: try (intros _; split; [lia | exact X]); try lia.
    + intros i [= <-]. lia.
    + intros i Hv. specialize (S4 i Hv). lia.
  - destruct (S3 eq_refl) as (N3 & X). destruct (Z.eqb_spec (e_status e) cache_line_empty) as [Es | Es].
    + split; cbn [found_empty_line emptyLineIndex line_to_evict maxLRU]; try congruence; try lia.
      * intros i e' Hi' He'. apply (One i e' (fun e => e_ppn e <> ppn) Hi' He'); [exact Hn | intros; eapply S1; eassumption].
      * intros _. split; [lia | eauto].
      * intros i Hv. specialize (S4 i Hv). lia.
    + assert (Full : forall i e', first <= i < index + 1 -> key !! Z.to_nat i = Some e' -> e_status e' <> cache_line_empty).
      { intros i e' Hi' He'. apply (One i e' (fun e => e_status e <> cache_line_empty) Hi' He'); [exact Es | intros; eapply X; eassumption]. }
      destruct (Z.leb_spec (maxLRU s) (e_LRU_count e)); split; cbn [found_empty_line emptyLineIndex line_to_evict maxLRU]; try congruence; try lia.
      all: try (intros i e' Hi' He'; apply (One i e' (fun e => e_ppn e <> ppn) Hi' He'); [exact Hn | intros; eapply S1; eassumption]).
      * intros _. split; [discriminate | exact Full].
      * intros i [= <-]. lia.
      * intros _. split; [| exact Full]. intros _. destruct (decide (first = index)) as [E | E]; [specialize (S5 E); lia | apply N3; lia].
      * intros i Hv. specialize (S4 i Hv). lia.
Qed.

(** The result of a search. *)
Inductive found (key : list cache_entry) (first last ppn : Z) : Z * option Z -> Prop :=
  | found_hit i e : first <= i < last -> key !! Z.to_nat i = Some e -> e_ppn e = ppn -> found key first last ppn (i, Some cache_line_hit)
  | found_empty i e : first <= i < last -> key !! Z.to_nat i = Some e -> e_status e = cache_line_empty ->
      (forall j e', first <= j < last -> key !! Z.to_nat j = Some e' -> e_ppn e' <> ppn) -> found key first last ppn (i, None)
  | found_victim i e : first <= i < last -> key !! Z.to_nat i = Some e -> e_status e <> cache_line_empty ->
      (forall j e', first <= j < last -> key !! Z.to_nat j = Some e' -> e_ppn e' <> ppn) -> found key first last ppn (i, Some cache_line_must_evict).

Lemma search_found key ppn n : forall first index s, 0 <= first <= index -> first < index + Z.of_nat n ->
  (forall i, first <= i < index + Z.of_nat n -> exists e, key !! Z.to_nat i = Some e /\ 0 <= e_LRU_count e) ->
  searched key first index ppn s -> exists r, search_ways n index ppn key s = Some r /\ found key first (index + Z.of_nat n) ppn r.
Proof using.
  induction n as [| n IH]; intros first index s Hi Hn Hk Hs; cbn [search_ways].
  - rewrite Z.add_0_r in *. destruct (found_empty_line s) eqn:Ef.
    + destruct (se_empty _ _ _ _ _ Hs Ef) as (R & e & He & Es). eexists. split; [reflexivity |].
      eapply found_empty; [exact R | exact He | exact Es | intros; eapply se_miss; eassumption].
    + destruct (se_full _ _ _ _ _ Hs Ef) as (N & F). destruct (line_to_evict s) as [i |] eqn:Ev; [| destruct (N Hn); reflexivity].
      pose proof (se_victim _ _ _ _ _ Hs i Ev) as R. destruct (Hk i R) as (e & He & _). eexists. split; [reflexivity |].
      eapply found_victim; [exact R | exact He | eapply F; eassumption | intros; eapply se_miss; eassumption].
  - destruct (Hk index ltac:(lia)) as (e & He & Hl). rewrite He. destruct (Z.eqb_spec (e_ppn e) ppn) as [E | E].
    + eexists. split; [reflexivity |]. eapply found_hit; [| exact He | exact E]. lia.
    + replace (index + Z.of_nat (S n)) with (index + 1 + Z.of_nat n) in * by lia.
      apply IH; [lia | lia | exact Hk |]. apply searched_step; [exact Hi | exact Hs | exact He | exact Hl | exact E].
Qed.

(** No entry but [skip] holds the line of [a]. *)
Definition uncached_but (skip : Z) (c : tagged_cache) (a : Z) : Prop :=
  forall j e, 0 <= j -> j <> skip -> cache_key c !! Z.to_nat j = Some e -> e_status e = cache_line_filled -> e_pcln e <> line_of a.

Lemma empty_not_filled e : is_empty e -> e_status e <> cache_line_filled.
Proof using. intros [-> _]. discriminate. Qed.

Lemma ppn_not_limit a : in_ram a -> line_of a / sets <> Z.ones (g_ppn_bits g).
Proof using Hg.
  pose proof powers as (Hl & Hs & _ & Ep & _). intros Ha. unfold in_ram in Ha. rewrite Z.div_div, Ep, Z.ones_equiv by lia.
  assert (2 ^ 22 <= 2 ^ g_ppn_bits g) by (apply Z.pow_le_mono_r; destruct Hg; lia).
  assert (a / 4096 < 2 ^ 20) by (apply Z.div_lt_upper_bound; lia). lia.
Qed.

Lemma in_set_index i s : s * ways <= i < s * ways + ways <-> i / ways = s.
Proof using Hg.
  pose proof powers as (_ & _ & Hw & _). split; [intros Hi; symmetry; apply (Z.div_unique_pos _ _ _ (i - s * ways)); lia | intros <-].
  pose proof (Z.div_mod i ways ltac:(lia)). pose proof (Z.mod_pos_bound i ways ltac:(lia)). lia.
Qed.

Lemma set_of_range a : 0 <= set_of a < sets.
Proof using Hg. pose proof powers as (_ & Hs & _). apply Z.mod_pos_bound, Hs. Qed.

(** What a lookup finds and leaves. *)
Inductive looked_up (M : Z -> Z) (c : tagged_cache) (f : Z -> Z) (a i : Z) (e : cache_entry) : tagged_cache -> Prop :=
  | up_hit : holds_line M c f i e -> e_pcln e = line_of a ->
      looked_up M c f a i e (with_key c (<[Z.to_nat i := set_status e cache_line_hit]> (cache_key c)))
  | up_empty : uncached_but (-1) c a -> is_empty e -> looked_up M c f a i e c
  | up_victim : uncached_but (-1) c a -> holds_line M c f i e ->
      looked_up M c f a i e (with_key c (<[Z.to_nat i := set_status e cache_line_must_evict]> (cache_key c))).

Lemma lookup_spec M c f a : coherent M c f -> in_ram a ->
  exists i e c', does (lookup_cache_line g a) c f i c' f /\ 0 <= i < cache_entries g /\ i / ways = set_of a /\
    cache_key c !! Z.to_nat i = Some e /\ looked_up M c f a i e c'.
Proof using HC CM Hg.
  intros Hc Ha. pose proof powers as (Hl & Hs & Hw & _ & Ee & _). pose proof (set_of_range a) as Rs.
  pose proof Ha as Ha'. unfold in_ram in Ha'.
  destruct (search_found (cache_key c) (line_of a / sets) (Z.to_nat ways) (set_of a * ways) (set_of a * ways) new_search) as (r & Er & Hr); [nia | lia | | |].
  { intros i Hi. apply (key_at _ _ _ _ _ Hc). rewrite Ee. nia. }
  { split; cbn; try discriminate; intros; try lia. split; intros; lia. }
  rewrite Z2Nat.id in Hr by lia.
  assert (Hin : forall i, set_of a * ways <= i < set_of a * ways + ways -> 0 <= i < cache_entries g) by (intros; rewrite Ee; nia).
  assert (Hun : (forall j e', set_of a * ways <= j < set_of a * ways + ways -> cache_key c !! Z.to_nat j = Some e' -> e_ppn e' <> line_of a / sets) -> uncached_but (-1) c a).
  { intros Hm j e' Hj _ He' Hf Epc. destruct (co_entry _ _ _ _ Hc j e' Hj ltac:(lia) He') as [Em | Hh]; [contradiction (empty_not_filled _ Em) |].
    apply (Hm j e'); [apply in_set_index; rewrite <- (hl_set _ _ _ _ _ Hh), Epc; reflexivity | exact He' | rewrite (hl_ppn _ _ _ _ _ Hh), Epc; reflexivity]. }
  assert (Hlook : lookup_cache_line g a = (c <- get_cache ;;
    match search_ways (Z.to_nat ways) (set_of a * ways) (line_of a / sets) (cache_key c) new_search with
    | Some (i, Some s) => put_entry i (fun e => set_status e s) ;; ret i | Some (i, None) => ret i | None => undefined end)).
  { unfold lookup_cache_line. rewrite set_index_spec, ppn_spec by lia. reflexivity. }
  rewrite Hlook.
  destruct Hr as [i e Hi He Ep | i e Hi He Es Hm | i e Hi He Es Hm]; exists i, e; pose proof (Hin i Hi) as Hi'; pose proof (proj1 (in_set_index _ _) Hi) as Hs';
    pose proof (co_entry _ _ _ _ Hc i e ltac:(lia) ltac:(lia) He) as Hcase; eexists; (split; [eapply does_bind; [apply does_get_cache |]; rewrite Er |]).
  - eapply does_bind; [apply does_put_entry; [lia | exact He] | apply does_ret].
  - repeat (split; [assumption |]). destruct Hcase as [Em | Hh].
    + contradiction (ppn_not_limit a Ha). rewrite <- Ep. apply Em.
    + apply up_hit; [exact Hh |]. rewrite (hl_ppn _ _ _ _ _ Hh) in Ep. pose proof (hl_set _ _ _ _ _ Hh) as Eset.
      rewrite Hs' in Eset. rewrite (Z.div_mod (e_pcln e) sets), (Z.div_mod (line_of a) sets) by lia. unfold set_of in Eset. rewrite Ep, Eset. reflexivity.
  - apply does_ret.
  - repeat (split; [assumption |]). destruct Hcase as [Em | Hh]; [| rewrite (hl_status _ _ _ _ _ Hh) in Es; discriminate]. apply up_empty; [apply Hun, Hm | exact Em].
  - eapply does_bind; [apply does_put_entry; [lia | exact He] | apply does_ret].
  - repeat (split; [assumption |]). destruct Hcase as [Em | Hh]; [contradiction Es; apply Em |]. apply up_victim; [apply Hun, Hm | exact Hh].
Qed.
End Sound.
