(* ===== verification/CacheCoherent.v ===== *)
(** * CacheCoherent: accesses keep the cache coherent.

    Hits, fills of empty lines and evictions; loads and stores. *)

From Stdlib Require Import ZArith Lia Bool List.
From stdpp Require Import base numbers list.
From S2P Require Import Prelude Machine Proxy Tlb Soft Memory Cache CacheSound.

Section Coherent.
Context {D : Type} `{HC : HasCacheLaws D} (mem : Bus (soft D)) (g : geometry) (Hg : geometry_ok g).
Context (ram : soft D -> Z -> Z) {CM : CacheMemory mem ram}.
Abbreviation MS := (M (soft D)).
Abbreviation ux := (wrap (g_xlen g)).
Abbreviation line := (2 ^ g_line g).
Abbreviation sets := (2 ^ g_entries g).
Abbreviation ways := (2 ^ g_ways g).
Abbreviation line_of a := (a / line).
Abbreviation does := (does ram).
Abbreviation coherent_but := (coherent_but g).
Abbreviation coherent := (coherent g).
Abbreviation holds_line := (holds_line g).
Abbreviation set_entry i e c := (with_key c (<[Z.to_nat i := e]> (cache_key c))).

(** ** Coherence of other states *)

Lemma coherent_ext skip M c f c' : coherent_but skip M c f -> cache_key c' = cache_key c -> write_policy c' = write_policy c ->
  (forall j, cache_data c' j = cache_data c j) -> coherent_but skip M c' f.
Proof using.
  intros [C1 C2 C3 C4 C5 C6 C7] Ek Ep Ed. split; rewrite ?Ek, ?Ep; try assumption.
  intros i e Hi Hn He. destruct (C4 i e Hi Hn He) as [Em | [h1 h2 h3 h4 h5 h6]]; [left; exact Em | right].
  split; try assumption; [intros o Ho; rewrite Ed; apply h5, Ho | rewrite Ep; exact h6].
Qed.

(** RAM that is closer to [M]. *)
Lemma coherent_ram skip M c f f' : coherent_but skip M c f -> (forall b, in_ram b -> f' b = f b \/ f' b = M b) -> coherent_but skip M c f'.
Proof using.
  intros [C1 C2 C3 C4 C5 C6 C7] Hf. assert (T : forall b, in_ram b -> f b = M b -> f' b = M b) by (intros b Hb; destruct (Hf b Hb); congruence).
  split; try assumption.
  - intros i e Hi Hn He. destruct (C4 i e Hi Hn He) as [Em | [h1 h2 h3 h4 h5 h6]]; [left; exact Em | right]. split; auto.
  - auto.
Qed.

(** The entries that an entry of other keys comes from. *)
Definition from_key (skip : Z) (k k' : list cache_entry) : Prop :=
  length k' = length k /\
  forall j e', k' !! j = Some e' -> 0 <= e_LRU_count e' /\
    exists e, k !! j = Some e /\ (Z.of_nat j <> skip -> e_pcln e' = e_pcln e /\ e_state e' = e_state e /\ e_ppn e' = e_ppn e /\ e_status e' = e_status e).

Lemma coherent_keys skip M c f k' : coherent_but skip M c f -> from_key skip (cache_key c) k' -> coherent_but skip M (with_key c k') f.
Proof using.
  intros [C1 C2 C3 C4 C5 C6 C7] [El Hk].
  assert (K : forall i e', 0 <= i -> i <> skip -> k' !! Z.to_nat i = Some e' -> exists e, cache_key c !! Z.to_nat i = Some e /\
    e_pcln e' = e_pcln e /\ e_state e' = e_state e /\ e_ppn e' = e_ppn e /\ e_status e' = e_status e).
  { intros i e' Hi Hn He. destruct (Hk _ _ He) as (_ & e & He0 & E). exists e. split; [exact He0 |]. apply E. lia. }
  split; cbn [with_key cache_key write_policy cache_data]; try assumption.
  - congruence.
  - apply Forall_lookup. intros j e' He. apply (Hk j e' He).
  - intros i e' Hi Hn He'. destruct (K i e' Hi Hn He') as (e & He & E1 & E2 & E3 & E4).
    destruct (C4 i e Hi Hn He) as [[m1 m2] | [h1 h2 h3 h4 h5 h6]]; [left | right]; split; cbn [with_key cache_data write_policy]; rewrite ?E1, ?E3, ?E4; try assumption.
    unfold dirty in *. rewrite E2. exact h6.
  - intros i j e e' Hi Hj Ni Nj He He' F F' E. destruct (K i e Hi Ni He) as (e0 & H0 & P0 & _ & _ & S0), (K j e' Hj Nj He') as (e1 & H1 & P1 & _ & _ & S1).
    apply (C5 i j e0 e1); congruence.
  - intros a Ha Hu. apply C6; [exact Ha |]. intros i e Hi Hn He F.
    destruct (lookup_lt_is_Some_2 k' (Z.to_nat i)) as [e' He']; [rewrite El; apply lookup_lt_Some in He; exact He |].
    destruct (K i e' Hi Hn He') as (e0 & H0 & P0 & _ & _ & S0). assert (e0 = e) as -> by congruence. rewrite <- P0. apply (Hu i e' Hi Hn He'). congruence.
Qed.

(** An entry whose line RAM holds is left out. *)
Lemma coherent_drop M c f i e e' : coherent M c f -> 0 <= i -> cache_key c !! Z.to_nat i = Some e ->
  (e_status e = cache_line_filled -> forall o, 0 <= o < line -> f (e_pcln e * line + o) = M (e_pcln e * line + o)) ->
  0 <= e_LRU_count e' -> coherent_but i M (set_entry i e' c) f.
Proof using Hg.
  pose proof (powers g Hg) as (Hl & _). intros [C1 C2 C3 C4 C5 C6 C7] Hi He Hf Hlru.
  assert (Hlt : (Z.to_nat i < length (cache_key c))%nat) by (apply lookup_lt_Some in He; exact He).
  assert (K : forall j x, 0 <= j -> j <> i -> <[Z.to_nat i := e']> (cache_key c) !! Z.to_nat j = Some x -> cache_key c !! Z.to_nat j = Some x).
  { intros j x Hj Hn. rewrite list_lookup_insert_ne by lia. auto. }
  split; cbn [with_key cache_key write_policy]; try assumption.
  - rewrite length_insert. exact C2.
  - apply Forall_insert; assumption.
  - intros j x Hj Hn Hx. destruct (C4 j x Hj ltac:(lia) (K j x Hj Hn Hx)) as [Em | [h1 h2 h3 h4 h5 h6]]; [left; exact Em | right; split; assumption].
  - intros j k x y Hj Hk Nj Nk Hx Hy. apply C5; try lia; [apply (K j x Hj Nj Hx) | apply (K k y Hk Nk Hy)].
  - intros a Ha Hu. destruct (decide (e_status e = cache_line_filled /\ e_pcln e = line_of a)) as [[F E] | N].
    + specialize (Hf F (a mod line) (Z.mod_pos_bound a line ltac:(lia))). rewrite E in Hf.
      replace (line_of a * line + a mod line) with a in Hf by (pose proof (Z.div_mod a line ltac:(lia)); lia). exact Hf.
    + apply C6; [exact Ha |]. intros j x Hj _ Hx F E. destruct (decide (j = i)) as [-> | Nj]; [apply N; split; congruence |].
      apply (Hu j x Hj Nj); [rewrite list_lookup_insert_ne by lia; exact Hx | exact F | exact E].
Qed.

(** An entry is filled with a line that no other holds. *)
Lemma coherent_fill M c f i e a d : coherent_but i M c f -> 0 <= i < cache_entries g -> cache_key c !! Z.to_nat i = Some e ->
  in_ram a -> i / ways = set_of g a -> uncached_but g i c a ->
  (forall j, d j = if (i * line <=? j) && (j <? i * line + line) then u8 (f (line_of a * line + (j - i * line))) else cache_data c j) ->
  let e' := fill_entry g a e in let c' := with_data (set_entry i e' c) d in coherent M c' f /\ holds_line M c' f i e' /\ e_pcln e' = line_of a.
Proof using Hg.
  pose proof (powers g Hg) as (Hl & Hs & Hw & Ep & _). intros Hc Hi He Ha Hset Hun Hd. pose proof Hc as [C1 C2 C3 C4 C5 C6 C7]. cbv zeta.
  assert (Epc : e_pcln (fill_entry g a e) = line_of a) by (cbn; rewrite Z.shiftr_div_pow2 by (destruct Hg; lia); reflexivity).
  assert (Hlt : (Z.to_nat i < length (cache_key c))%nat) by (apply lookup_lt_Some in He; exact He).
  assert (K : forall j x, 0 <= j -> j <> i -> <[Z.to_nat i := fill_entry g a e]> (cache_key c) !! Z.to_nat j = Some x -> cache_key c !! Z.to_nat j = Some x).
  { intros j x Hj Hn. rewrite list_lookup_insert_ne by lia. auto. }
  assert (I : forall x, <[Z.to_nat i := fill_entry g a e]> (cache_key c) !! Z.to_nat i = Some x -> x = fill_entry g a e).
  { intros x. rewrite list_lookup_insert_eq by exact Hlt. congruence. }
  assert (Hf : forall o, 0 <= o < line -> f (line_of a * line + o) = M (line_of a * line + o)).
  { intros o Ho. apply C6; [apply (line_in_ram g Hg a o Ha Ho) |].
    replace ((line_of a * line + o) / line) with (line_of a) by (rewrite Z.div_add_l, (Z.div_small o) by lia; lia). exact Hun. }
  assert (Hfill : holds_line M (with_data (set_entry i (fill_entry g a e) c) d) f i (fill_entry g a e)).
  { split; rewrite ?Epc; try reflexivity.
    - intros o Ho. apply (line_in_ram g Hg a o Ha Ho).
    - exact (eq_sym Hset).
    - cbn. rewrite !Z.shiftr_div_pow2 by (destruct Hg; lia). apply wrap_small.
      unfold in_ram in Ha. split; [apply Z.div_pos; [apply Z.div_pos; lia | lia] |]. rewrite Z.div_div, Ep by lia.
      assert (2 ^ 22 <= 2 ^ g_ppn_bits g) by (apply Z.pow_le_mono_r; destruct Hg; lia).
      assert (a / 4096 < 2 ^ 20) by (apply Z.div_lt_upper_bound; lia). lia.
    - intros o Ho. cbn [with_data cache_data]. rewrite Hd.
      replace ((i * line <=? i * line + o) && (i * line + o <? i * line + line)) with true by lia.
      replace (i * line + o - i * line) with o by lia. rewrite Hf, wrap_wrap by exact Ho. apply wrap_small.
      apply C7, (line_in_ram g Hg a o Ha Ho).
    - intros _ o Ho. apply Hf, Ho. }
  split; [| split; [exact Hfill | exact Epc]].
  split; cbn [with_data with_key cache_key write_policy]; try assumption.
  - rewrite length_insert. exact C2.
  - apply Forall_insert; [exact C3 |]. cbn. rewrite Forall_lookup in C3. apply (C3 _ _ He).
  - intros j x Hj _ Hx. destruct (decide (j = i)) as [-> | Nj]; [rewrite (I x Hx); right; exact Hfill |].
    destruct (C4 j x Hj Nj (K j x Hj Nj Hx)) as [Em | [h1 h2 h3 h4 h5 h6]]; [left; exact Em | right; split; try assumption].
    intros o Ho. cbn [with_data cache_data]. rewrite Hd. 
    replace ((i * line <=? j * line + o) && (j * line + o <? i * line + line)) with false by (symmetry; apply andb_false_iff; nia).
    apply h5, Ho.
  - intros j k x y Hj Hk _ _ Hx Hy F F' E. destruct (decide (j = i)) as [-> | Nj], (decide (k = i)) as [-> | Nk]; [reflexivity | | |].
    + rewrite (I x Hx), Epc in E. symmetry in E. contradiction (Hun k y Hk Nk (K k y Hk Nk Hy) F' E).
    + rewrite (I y Hy), Epc in E. contradiction (Hun j x Hj Nj (K j x Hj Nj Hx) F E).
    + apply (C5 j k x y Hj Hk Nj Nk (K j x Hj Nj Hx) (K k y Hk Nk Hy) F F' E).
  - intros b Hb Hu. apply C6; [exact Hb |]. intros j x Hj Nj Hx F. apply (Hu j x Hj ltac:(lia)); [| exact F].
    rewrite list_lookup_insert_ne by lia. exact Hx.
Qed.

(** ** The steps of an access *)

Lemma line_mask a : 0 <= a < 2 ^ 32 -> Z.land a (cache_line_mask g) = line_of a * line.
Proof using Hg.
  intros Ha. destruct Hg as [Hx Hp Hl He Hw Hb]. unfold cache_line_mask. rewrite <- Z.shiftl_mul_pow2, <- Z.shiftr_div_pow2, <- Z.ldiff_ones_r, Z.ldiff_land by lia.
  assert (2 ^ 32 <= 2 ^ g_xlen g) by (apply Z.pow_le_mono_r; lia).
  unfold wrap. rewrite <- Z.land_ones, Z.land_assoc, (Z.land_comm a), <- Z.land_assoc, Z.land_ones by lia. 
  rewrite (Z.mod_small a) by lia. rewrite Z.land_comm. reflexivity.
Qed.

Lemma index_data i : 0 <= i < cache_entries g -> ux (Z.shiftl i (g_line g)) = i * line /\ i * line + line <= cache_size g.
Proof using Hg.
  pose proof (powers g Hg) as (Hl & Hs & Hw & _ & Ee & Es & Hb). intros Hi. rewrite Ee in Hi. rewrite Es.
  rewrite Z.shiftl_mul_pow2 by (destruct Hg; lia). split; [apply (ux_small g Hg); nia | nia].
Qed.

Lemma line_bytes_nat : Z.of_nat (line_bytes g) = line.
Proof using Hg. pose proof (powers g Hg) as (Hl & _). unfold line_bytes. lia. Qed.

(** A line is read from RAM. *)
Lemma does_fill a i c f : in_ram a -> 0 <= i < cache_entries g ->
  exists d, does (allocate mem g a op_L i) c f false (with_data c d) f /\
    forall j, d j = if (i * line <=? j) && (j <? i * line + line) then u8 (f (line_of a * line + (j - i * line))) else cache_data c j.
Proof using HC CM Hg.
  pose proof (powers g Hg) as (Hl & _). intros Ha Hi. unfold allocate. destruct (index_data i Hi) as [-> Hn]. rewrite line_mask by (unfold in_ram in Ha; lia).
  destruct (allocate_L mem g Hg ram (line_bytes g) (line_of a * line) (i * line) c f) as (d & Hd & Ed); rewrite ?line_bytes_nat; [| nia | lia |].
  - intros o Ho. apply (line_in_ram g Hg a o Ha Ho).
  - exists d. rewrite line_bytes_nat in Ed. auto.
Qed.

(** A line is written to RAM. *)
Lemma does_write M c f i e : coherent M c f -> 0 <= i < cache_entries g -> holds_line M c f i e ->
  forall k e1, k !! Z.to_nat i = Some e1 -> e_pcln e1 = e_pcln e ->
  exists f', does (write_line mem g i) (with_key c k) f false (with_key c k) f' /\
    (forall b, in_ram b -> f' b = f b \/ f' b = M b) /\ forall o, 0 <= o < line -> f' (e_pcln e * line + o) = M (e_pcln e * line + o).
Proof using CM Hg.
  pose proof (powers g Hg) as (Hl & _). intros Hc Hi Hh k e1 He1 E1. destruct (index_data i Hi) as [Ei Hn].
  pose proof (hl_ram _ _ _ _ _ _ Hh) as Hr. pose proof (Hr 0 ltac:(lia)) as H0. rewrite Z.add_0_r in H0. pose proof H0 as H0'. unfold in_ram in H0'.
  assert (Ea : Z.land (ux (Z.shiftl (e_pcln e) (g_line g))) (cache_line_mask g) = e_pcln e * line).
  { rewrite Z.shiftl_mul_pow2, (ux_small g Hg), line_mask by (destruct Hg; lia). rewrite Z.div_mul by lia. reflexivity. }
  destruct (allocate_S mem g Hg ram (line_bytes g) (e_pcln e * line) (i * line) (with_key c k) f) as (f' & Hf & Ef); rewrite ?line_bytes_nat; [exact Hr | nia | exact Hn |].
  rewrite line_bytes_nat in Ef. cbn [with_key cache_data] in Ef.
  assert (HM : forall o, 0 <= o < line -> f' (e_pcln e * line + o) = M (e_pcln e * line + o)).
  { intros o Ho. rewrite Ef. replace ((e_pcln e * line <=? e_pcln e * line + o) && (e_pcln e * line + o <? e_pcln e * line + line)) with true by lia.
    rewrite <- (hl_data _ _ _ _ _ _ Hh o Ho). do 2 f_equal. lia. }
  exists f'. split; [| split; [| exact HM]].
  - unfold write_line. eapply does_bind; [apply does_get_entry; [lia | exact He1] |]. unfold allocate. rewrite E1, Ea, Ei. exact Hf.
  - intros b Hb. destruct (decide (e_pcln e * line <= b < e_pcln e * line + line)) as [R | N].
    + right. specialize (HM (b - e_pcln e * line) ltac:(lia)). replace (e_pcln e * line + (b - e_pcln e * line)) with b in HM by lia. exact HM.
    + left. rewrite Ef. replace ((e_pcln e * line <=? b) && (b <? e_pcln e * line + line)) with false by (symmetry; apply andb_false_iff; lia). reflexivity.
Qed.

Lemma set_entry_twice i e e' c : set_entry i e' (set_entry i e c) = set_entry i e' c.
Proof using. cbn [with_key cache_key cache_data write_policy last_access]. rewrite list_insert_insert_eq. reflexivity. Qed.

(** The counters of the set change. *)
Lemma does_touch i e c f : 0 <= i -> cache_key c !! Z.to_nat i = Some e -> Forall (fun e => 0 <= e_LRU_count e) (cache_key c) ->
  exists k, does (touch_entry g i) c f tt (with_key c k) f /\ from_key i (cache_key c) k /\
    exists e', k !! Z.to_nat i = Some e' /\ e_pcln e' = e_pcln e /\ e_state e' = e_state e.
Proof using HC CM Hg.
  intros Hi He Hl. assert (Hlt : (Z.to_nat i < length (cache_key c))%nat) by (apply lookup_lt_Some in He; exact He).
  set (k0 := <[Z.to_nat i := set_LRU e 0]> (cache_key c)). set (k := update_LRU g (Z.land (e_pcln e) (num_entries_mask g)) i k0).
  assert (K0 : k0 !! Z.to_nat i = Some (set_LRU e 0)) by (apply list_lookup_insert_eq, Hlt).
  assert (Hk : forall j x, k !! j = Some x -> exists y, k0 !! j = Some y /\ (x = y \/ x = set_LRU y (ux (e_LRU_count y + 1)))).
  { intros j x Hx. unfold k, update_LRU in Hx. rewrite list_lookup_imap in Hx. destruct (k0 !! j) as [y |]; [| discriminate].
    injection Hx as <-. exists y. split; [reflexivity |]. destruct (_ && _); auto. }
  exists k. split; [| split].
  - unfold touch_entry. eapply does_bind; [eapply (does_put_entry mem ram); eassumption |].
    eapply does_bind; [apply does_get_entry; [exact Hi | exact K0] |]. eapply does_bind; [apply does_get_cache |].
    exact (does_set_key mem ram k (set_entry i (set_LRU e 0) c) f).
  - split; [unfold k, update_LRU; rewrite length_imap; apply length_insert |]. intros j x Hx. destruct (Hk j x Hx) as (y & Hy & Exy).
    assert (Ly : 0 <= e_LRU_count y).
    { pose proof (Forall_insert _ _ (Z.to_nat i) (set_LRU e 0) Hl (Z.le_refl 0)) as F. rewrite Forall_lookup in F. apply (F j y Hy). }
    split; [destruct Exy as [-> | ->]; [exact Ly | cbn; apply Z.mod_pos_bound; apply Z.pow_pos_nonneg; destruct (go_xlen g Hg) as [Ex | Ex]; lia] |].
    destruct (decide (j = Z.to_nat i)) as [-> | N].
    + exists e. split; [exact He |]. lia.
    + unfold k0 in Hy. rewrite list_lookup_insert_ne in Hy by congruence. exists y. split; [exact Hy |]. intros _. destruct Exy as [-> | ->]; auto.
  - destruct (lookup_lt_is_Some_2 k (Z.to_nat i)) as [e' He']; [unfold k, update_LRU; rewrite length_imap; unfold k0; rewrite length_insert; exact Hlt |].
    exists e'. split; [exact He' |]. destruct (Hk _ _ He') as (y & Hy & Ey). rewrite K0 in Hy. injection Hy as <-. destruct Ey as [-> | ->]; auto.
Qed.

(** The entry for an address: it holds the address's line. *)
Definition ready (M : Z -> Z) (c : tagged_cache) (f : Z -> Z) (a i : Z) : Prop :=
  coherent M c f /\ 0 <= i < cache_entries g /\
  exists e, cache_key c !! Z.to_nat i = Some e /\ holds_line M c f i e /\ e_pcln e = line_of a.

Lemma is_stat_all : is_stat stat_loads /\ is_stat stat_stores /\ is_stat stat_hits /\ is_stat stat_misses /\ is_stat stat_evicted.
Proof using. repeat split; discriminate. Qed.

(** What is done on a hit, an empty entry and a victim. *)
Lemma does_hit M c f a i e : coherent M c f -> 0 <= i < cache_entries g -> cache_key c !! Z.to_nat i = Some e -> holds_line M c f i e ->
  e_pcln e = line_of a ->
  exists c', does (on_hit mem i) (set_entry i (set_status e cache_line_hit) c) f false c' f /\ ready M c' f a i /\ write_policy c' = write_policy c.
Proof using HC CM Hg.
  intros Hc Hi He Hh Ea. assert (Hlt : (Z.to_nat i < length (cache_key c))%nat) by (apply lookup_lt_Some in He; exact He).
  set (c1 := set_entry i (set_status e cache_line_hit) c). set (e2 := set_status (set_status e cache_line_hit) cache_line_filled).
  pose proof (hl_status _ _ _ _ _ _ Hh) as Es. assert (E2 : e2 = e) by (unfold e2; clear - Es; destruct e; cbn in Es; rewrite Es; reflexivity).
  exists (with_last (set_entry i e2 c1) cache_line_hit). split.
  - unfold on_hit. eapply does_bind; [apply (does_put_entry mem ram i _ (set_status e cache_line_hit) c1 f (proj1 Hi)); apply list_lookup_insert_eq, Hlt |].
    eapply does_bind; [apply (does_set_last mem ram) |]. eapply does_bind; [apply (does_stats mem ram), is_stat_all | apply does_ret].
  - unfold c1. rewrite set_entry_twice, E2. assert (Ek : <[Z.to_nat i := e]> (cache_key c) = cache_key c) by (apply list_insert_id, He).
    assert (Hc' : coherent M (with_last (set_entry i e c) cache_line_hit) f) by (eapply coherent_ext; [exact Hc | exact Ek | reflexivity ..]).
    split; [| reflexivity]. split; [exact Hc' |]. split; [exact Hi |]. exists e. cbn [with_last with_key cache_key]. rewrite Ek. split; [exact He |]. split; [| exact Ea].
    destruct Hh as [h1 h2 h3 h4 h5 h6]. split; assumption.
Qed.

(** The rest of a miss: the line is filled from RAM. *)
Lemma does_miss M c f a i e last (stats : MS bool -> MS bool) :
  (forall m c f b c' f', does m c f b c' f' -> does (stats m) c f b c' f') ->
  coherent_but i M c f -> 0 <= i < cache_entries g -> cache_key c !! Z.to_nat i = Some e -> in_ram a -> i / ways = set_of g a -> uncached_but g i c a ->
  exists c', does (put_entry i (fill_entry g a) ;; set_last last ;; stats (allocate mem g a op_L i)) c f false c' f /\ ready M c' f a i /\ write_policy c' = write_policy c.
Proof using HC CM Hg.
  intros Hst Hc Hi He Ha Hset Hun. assert (Hlt : (Z.to_nat i < length (cache_key c))%nat) by (apply lookup_lt_Some in He; exact He).
  destruct (does_fill a i (with_last (set_entry i (fill_entry g a e) c) last) f Ha Hi) as (d & Hd & Ed).
  destruct (coherent_fill M c f i e a d Hc Hi He Ha Hset Hun Ed) as (C1 & C2 & C3).
  exists (with_data (with_last (set_entry i (fill_entry g a e) c) last) d). split; [| split; [split; [| split; [exact Hi |]] | reflexivity]].
  - eapply does_bind; [eapply (does_put_entry mem ram); [lia | exact He] |]. eapply does_bind; [apply (does_set_last mem ram) |]. apply Hst, Hd.
  - eapply coherent_ext; [exact C1 | reflexivity ..].
  - exists (fill_entry g a e). split; [apply list_lookup_insert_eq, Hlt |]. split; [| exact C3]. destruct C2 as [h1 h2 h3 h4 h5 h6]. split; assumption.
Qed.

Lemma does_empty M c f a i e : coherent M c f -> 0 <= i < cache_entries g -> cache_key c !! Z.to_nat i = Some e -> is_empty g e ->
  in_ram a -> i / ways = set_of g a -> uncached_but g (-1) c a ->
  exists c', does (on_empty mem g a i) c f false c' f /\ ready M c' f a i /\ write_policy c' = write_policy c.
Proof using HC CM Hg.
  intros Hc Hi He Hem Ha Hset Hun. unfold on_empty.
  assert (Hb : coherent_but i M c f).
  { pose proof (coherent_drop M c f i e e Hc ltac:(lia) He) as Hd. rewrite (list_insert_id _ _ _ He) in Hd.
    assert (Hd' : coherent_but i M (with_key c (cache_key c)) f).
    { apply Hd; [intros F; contradiction (empty_not_filled g e Hem F) |]. pose proof (co_lru _ _ _ _ _ Hc) as F. rewrite Forall_lookup in F. apply (F _ _ He). }
    eapply coherent_ext; [exact Hd' | reflexivity ..]. }
  apply (does_miss M c f a i e cache_line_empty (fun m => update_stats mem stat_misses ;; m)); try assumption.
  - intros m c0 f0 b c' f' Hm. eapply does_bind; [apply (does_stats mem ram), is_stat_all | exact Hm].
  - intros j x Hj _ Hx. apply (Hun j x Hj ltac:(lia) Hx).
Qed.

(** A modified victim is written to memory. *)
Lemma does_clean M c f i e e1 : coherent M c f -> 0 <= i < cache_entries g -> cache_key c !! Z.to_nat i = Some e -> holds_line M c f i e ->
  e_pcln e1 = e_pcln e -> e_state e1 = e_state e -> 
  exists e2 f', does (if dirty (write_policy c) e1
      then put_entry i (fun e => set_state e cache_state_shared) ;; write_line mem g i else ret false) (set_entry i e1 c) f false (set_entry i e2 c) f' /\
    e_LRU_count e2 = e_LRU_count e1 /\
    (forall b, in_ram b -> f' b = f b \/ f' b = M b) /\ forall o, 0 <= o < line -> f' (e_pcln e * line + o) = M (e_pcln e * line + o).
Proof using HC CM Hg.
  intros Hc Hi He Hh Epc Est. assert (Hlt : (Z.to_nat i < length (cache_key c))%nat) by (apply lookup_lt_Some in He; exact He).
  assert (Ed : dirty (write_policy c) e1 = dirty (write_policy c) e) by (unfold dirty; rewrite Est; reflexivity). rewrite Ed.
  destruct (dirty (write_policy c) e) eqn:Edirty.
  - set (e2 := set_state e1 cache_state_shared). set (k := <[Z.to_nat i := e2]> (cache_key c)).
    destruct (does_write M c f i e Hc Hi Hh k e2) as (f' & Hf & F1 & F2); [apply list_lookup_insert_eq, Hlt | exact Epc |].
    exists e2, f'. split; [| auto]. eapply does_bind; [| exact Hf].
    replace (with_key c k) with (set_entry i e2 (set_entry i e1 c)) by apply set_entry_twice.
    apply (does_put_entry mem ram i (fun e => set_state e cache_state_shared) e1 (set_entry i e1 c) f (proj1 Hi)), list_lookup_insert_eq, Hlt.
  - exists e1, f. split; [apply does_ret |]. split; [reflexivity |]. split; [auto |]. apply (hl_clean _ _ _ _ _ _ Hh Edirty).
Qed.

Lemma does_evict M c f a i e : coherent M c f -> 0 <= i < cache_entries g -> cache_key c !! Z.to_nat i = Some e -> holds_line M c f i e ->
  in_ram a -> i / ways = set_of g a -> uncached_but g (-1) c a ->
  exists c' f', does (on_evict mem g a i) (set_entry i (set_status e cache_line_must_evict) c) f false c' f' /\ ready M c' f' a i /\
    write_policy c' = write_policy c.
Proof using HC CM Hg.
  intros Hc Hi He Hh Ha Hset Hun. assert (Hlt : (Z.to_nat i < length (cache_key c))%nat) by (apply lookup_lt_Some in He; exact He).
  set (e1 := set_status e cache_line_must_evict).
  destruct (does_clean M c f i e e1 Hc Hi He Hh eq_refl eq_refl) as (e2 & f' & H1 & El & F1 & F2).
  assert (L : 0 <= e_LRU_count e2) by (rewrite El; pose proof (co_lru _ _ _ _ _ Hc) as F; rewrite Forall_lookup in F; apply (F _ _ He)).
  pose proof (coherent_drop M c f' i e e2 (coherent_ram _ _ _ _ _ Hc F1) (proj1 Hi) He (fun _ => F2) L) as Hd.
  destruct (does_touch i e2 (set_entry i e2 c) f' (proj1 Hi) (list_lookup_insert_eq _ _ _ Hlt) (co_lru _ _ _ _ _ Hd)) as (k & H2 & Hk & e3 & He3 & _).
  pose proof (coherent_keys _ _ _ _ _ Hd Hk) as Hb.
  destruct (does_miss M (with_key (set_entry i e2 c) k) f' a i e3 cache_line_must_evict (fun m => update_stats mem stat_misses ;; update_stats mem stat_evicted ;; m)) as (c' & H3 & Hr & Hp);
    [| exact Hb | exact Hi | exact He3 | exact Ha | exact Hset | |].
  - intros m c0 f0 b c2 f2 Hm. eapply does_bind; [apply (does_stats mem ram), is_stat_all |]. eapply does_bind; [apply (does_stats mem ram), is_stat_all | exact Hm].
  - intros j x Hj Nj Hx F E. destruct (proj2 Hk _ _ Hx) as (_ & y & Hy & Ey). destruct (Ey ltac:(lia)) as (P & _ & _ & S).
    cbn [with_key cache_key] in Hy. rewrite list_lookup_insert_ne in Hy by lia. apply (Hun j y Hj ltac:(lia) Hy); congruence.
  - exists c', f'. split; [| split; [exact Hr | exact Hp]]. unfold on_evict.
    eapply does_bind; [apply (does_get_entry ram i e1 (set_entry i e1 c) f (proj1 Hi)), list_lookup_insert_eq, Hlt |].
    eapply does_bind; [apply does_get_cache |]. eapply does_bind; [exact H1 |]. eapply does_bind; [exact H2 | exact H3].
Qed.

(** An access to RAM: the line of the address is in the cache. *)
Lemma does_access M c f a : coherent M c f -> in_ram a ->
  exists i c1 e1 c2 f2, does (lookup_cache_line g a) c f i c1 f /\ cache_key c1 !! Z.to_nat i = Some e1 /\
    does (if e_status e1 =? cache_line_hit then on_hit mem i
          else if e_status e1 =? cache_line_must_evict then on_evict mem g a i
          else if e_status e1 =? cache_line_empty then on_empty mem g a i else ret false) c1 f false c2 f2 /\
    ready M c2 f2 a i /\ write_policy c2 = write_policy c.
Proof using HC CM Hg.
  intros Hc Ha. destruct (lookup_spec mem g Hg ram M c f a Hc Ha) as (i & e & c1 & H1 & Hi & Hset & He & Hup).
  assert (Hlt : (Z.to_nat i < length (cache_key c))%nat) by (apply lookup_lt_Some in He; exact He).
  destruct Hup as [Hh Ea | Hun Hem | Hun Hh].
  - destruct (does_hit M c f a i e Hc Hi He Hh Ea) as (c2 & H2 & Hr & Hp).
    eexists i, _, (set_status e cache_line_hit), c2, f. split; [exact H1 |]. split; [apply list_lookup_insert_eq, Hlt |]. auto.
  - destruct (does_empty M c f a i e Hc Hi He Hem Ha Hset Hun) as (c2 & H2 & Hr & Hp).
    exists i, c, e, c2, f. split; [exact H1 |]. split; [exact He |]. rewrite (em_status _ _ Hem). auto.
  - destruct (does_evict M c f a i e Hc Hi He Hh Ha Hset Hun) as (c2 & f2 & H2 & Hr & Hp).
    eexists i, _, (set_status e cache_line_must_evict), c2, f2. split; [exact H1 |]. split; [apply list_lookup_insert_eq, Hlt |]. auto.
Qed.
End Coherent.
