(* ===== verification/CacheAccess.v ===== *)
(** * CacheAccess: loads and stores through the cache. *)

From Stdlib Require Import ZArith Lia Bool List.
From stdpp Require Import base numbers list.
From S2P Require Import Prelude Machine Proxy Tlb Soft Memory Cache CacheSound CacheCoherent.

(** The same bytes at another place. *)
Lemma read_bytes_shift n m m' a a' : (forall o, 0 <= o < Z.of_nat n -> u8 (m (a + o)) = u8 (m' (a' + o))) ->
  read_bytes n m a = read_bytes n m' a'.
Proof.
  revert a a'. induction n as [| n IH]; intros a a' Hm; [reflexivity |]. cbn [read_bytes].
  pose proof (Hm 0 ltac:(lia)) as H0. rewrite !Z.add_0_r in H0. rewrite H0. do 2 f_equal. apply IH. intros o Ho.
  replace (a + 1 + o) with (a + (o + 1)) by lia. replace (a' + 1 + o) with (a' + (o + 1)) by lia. apply Hm. lia.
Qed.

Lemma byte_of_first v i : byte_of v (i - i) = u8 v.
Proof. unfold byte_of. rewrite Z.sub_diag. reflexivity. Qed.

Lemma byte_of_next v i j : i + 1 <= j -> byte_of (Z.shiftr v 8) (j - (i + 1)) = byte_of v (j - i).
Proof. intros Hj. unfold byte_of. rewrite Z.shiftr_shiftr by lia. do 2 f_equal. lia. Qed.

Section Access.
Context {D : Type} `{HC : HasCacheLaws D} (mem : Bus (soft D)) (g : geometry) (Hg : geometry_ok g).
Context (ram : soft D -> Z -> Z) {CM : CacheMemory mem ram}.
Abbreviation MS := (M (soft D)).
Abbreviation ux := (wrap (g_xlen g)).
Abbreviation line := (2 ^ g_line g).
Abbreviation line_of a := (a / line).
Abbreviation does := (does ram).
Abbreviation coherent := (coherent g).
Abbreviation holds_line := (holds_line g).
Abbreviation ready := (ready g).

(** ** Bytes of the cache *)

Lemma cache_size_32 : cache_size g <= 2 ^ 28.
Proof using Hg. pose proof (powers g Hg) as (_ & _ & _ & _ & _ & -> & H0). exact H0. Qed.

Lemma does_data n : forall i c f, 0 <= i -> i + Z.of_nat n <= cache_size g -> does (data_bytes g n i) c f (read_bytes n (cache_data c) i) c f.
Proof using Hg.
  pose proof cache_size_32 as Hs. induction n as [| n IH]; intros i c f Hi Hn; cbn [data_bytes read_bytes]; [apply does_ret |].
  eapply does_bind; [apply (does_get_data g ram); lia |]. rewrite (ux_small g Hg) by lia. eapply does_bind; [apply IH; lia | apply does_ret].
Qed.

(** Bytes are stored to the cache, and to RAM when the cache writes through. *)
Definition through (c : tagged_cache) : bool := write_policy c =? cache_write_through.

Lemma does_store n : forall a i v c f, (forall o, 0 <= o < Z.of_nat n -> in_ram (a + o)) -> 0 <= i -> i + Z.of_nat n <= cache_size g ->
  exists d f', does (store_bytes mem g n a i v) c f false (with_data c d) f' /\
    (forall j, u8 (d j) = if (i <=? j) && (j <? i + Z.of_nat n) then byte_of v (j - i) else u8 (cache_data c j)) /\
    (forall b, f' b = if through c && ((a <=? b) && (b <? a + Z.of_nat n)) then byte_of v (b - a) else f b).
Proof using HC CM Hg.
  pose proof cache_size_32 as Hs. unfold through. induction n as [| n IH]; intros a i v c f Ha Hi Hn; cbn [store_bytes].
  - exists (cache_data c), f. split; [destruct c; apply does_ret |]. split; [intros j | intros b].
    + destruct (Z.leb_spec i j), (Z.ltb_spec j (i + Z.of_nat 0)); try reflexivity; lia.
    + destruct (Z.leb_spec a b), (Z.ltb_spec b (a + Z.of_nat 0)); rewrite ?andb_false_r; try reflexivity; lia.
  - pose proof (Ha 0 ltac:(lia)) as H0. rewrite Z.add_0_r in H0. pose proof (Ha (Z.of_nat n) ltac:(lia)) as Hl. unfold in_ram in H0, Hl.
    set (c1 := with_data c (fun j => if j =? i then u8 v else cache_data c j)).
    set (f1 := fun b => if (write_policy c =? cache_write_through) && (b =? a) then u8 v else f b).
    destruct (IH (a + 1) (i + 1) (Z.shiftr v 8) c1 f1) as (d & f' & Hd & Ed & Ef); [| lia | lia |].
    { intros o Ho. replace (a + 1 + o) with (a + (o + 1)) by lia. apply Ha. lia. }
    exists d, f'. split; [| split].
    + eapply does_bind; [apply (does_put_data mem g ram); lia |]. fold c1. eapply does_bind; [apply does_get_cache |].
      change (write_policy c1) with (write_policy c). rewrite !(ux_small g Hg) by lia.
      apply (does_bind ram _ _ _ _ false c1 f1); [| exact Hd].
      unfold f1. destruct (write_policy c =? cache_write_through); cbn [andb]; [| apply does_ret].
      pose proof (@cm_store _ _ _ ram CM a (u8 v) c1 f H0) as Hst. rewrite wrap_wrap in Hst. exact Hst.
    + intros j. rewrite Ed. cbn [c1 with_data cache_data].
      destruct (Z.leb_spec (i + 1) j), (Z.ltb_spec j (i + 1 + Z.of_nat n)), (Z.leb_spec i j), (Z.ltb_spec j (i + Z.of_nat (S n))); cbn [andb]; try lia;
        destruct (Z.eqb_spec j i); try lia; subst; rewrite ?byte_of_first, ?wrap_wrap; try reflexivity.
      apply byte_of_next. lia.
    + intros b. rewrite Ef. unfold f1. change (write_policy c1) with (write_policy c).
      destruct (write_policy c =? cache_write_through); cbn [andb]; [| reflexivity].
      destruct (Z.leb_spec (a + 1) b), (Z.ltb_spec b (a + 1 + Z.of_nat n)), (Z.leb_spec a b), (Z.ltb_spec b (a + Z.of_nat (S n))); cbn [andb]; try lia;
        destruct (Z.eqb_spec b a); try lia; subst; rewrite ?byte_of_first; try reflexivity.
      apply byte_of_next. lia.
Qed.

(** ** Values in the cache *)

(** An access of [w] bits that does not leave its line. *)
Definition aligned (w a : Z) : Prop := bus_width w = true /\ a mod (w / 8) = 0.

(** The bytes of an access are in one line. *)
Definition fits (w a : Z) : Prop := bus_width w = true /\ a mod line + w / 8 <= line.

Lemma width_bytes w : bus_width w = true -> exists k, 8 = w / 8 * k /\ 0 < k /\ 0 < w / 8 /\ Z.of_nat (bytes_of w) = w / 8.
Proof using.
  unfold bus_width. rewrite !orb_true_iff, !Z.eqb_eq. intros Hw.
  destruct Hw as [[[-> | ->] | ->] | ->]; [exists 8 | exists 4 | exists 2 | exists 1]; repeat split.
Qed.

Lemma fits_bytes w a : fits w a -> Z.of_nat (bytes_of w) = w / 8 /\ 0 < w / 8 <= 8 /\ a mod line + w / 8 <= line.
Proof using. intros [Hw Ha]. destruct (width_bytes w Hw) as (k & E & Hk & Hp & En). split; [exact En |]. split; [nia | exact Ha]. Qed.

Lemma aligned_fits w a : aligned w a -> fits w a.
Proof using Hg.
  pose proof (powers g Hg) as (Hl & _). intros [Hw Ha].
  assert (E8 : line = 8 * 2 ^ (g_line g - 3)) by (change 8 with (2 ^ 3); rewrite <- Z.pow_add_r by (destruct Hg; lia); f_equal; lia).
  destruct (width_bytes w Hw) as (k & E & Hk & Hp & En). split; [exact Hw |]. set (n := w / 8) in *.
  assert (El : line = n * (k * 2 ^ (g_line g - 3))) by (rewrite E8, E at 1; ring).
  assert (Em : (a mod line) mod n = 0).
  { rewrite Z.mod_mod_divide; [exact Ha |]. exists (k * 2 ^ (g_line g - 3)). rewrite El. ring. }
  pose proof (Z.mod_pos_bound a line ltac:(lia)) as Hm. pose proof (Z.div_mod (a mod line) n ltac:(lia)) as D1. rewrite Em in D1.
  remember (a mod line / n) as q eqn:Eq. remember (k * 2 ^ (g_line g - 3)) as l eqn:E3. clear - El D1 Hm Hp. assert (q < l) by nia. nia.
Qed.

Section Line.
Context (M : Z -> Z) (c : tagged_cache) (f : Z -> Z) (a i w : Z).
Context (Hr : ready M c f a i) (Hw : fits w a) (Ha : in_ram a).
Abbreviation idx := (i * line + a mod line).
Abbreviation n := (Z.of_nat (bytes_of w)).

Lemma index_of : Z.lor (ux (Z.shiftl i (g_line g))) (Z.land a (cache_line_offset_mask g)) = idx /\ 0 <= idx /\ idx + n <= cache_size g /\
  crosses g w idx = false.
Proof using Hg Hr Hw.
  pose proof (powers g Hg) as (Hl & _). destruct Hr as (_ & Hi & _). destruct (fits_bytes w a Hw) as (En & Hn & Hf).
  destruct (index_data g Hg i Hi) as [Ei Hd]. pose proof (Z.mod_pos_bound a line ltac:(lia)) as Hm. pose proof cache_size_32 as Hs.
  assert (El : Z.lor (i * line) (a mod line) = idx).
  { rewrite <- Z.shiftl_mul_pow2 by (destruct Hg; lia). symmetry. apply Z.add_nocarry_lor, Z.bits_inj'. intros b Hb.
    rewrite Z.land_spec, Z.bits_0, Z.shiftl_spec by lia. destruct (Z.ltb_spec b (g_line g)); [rewrite Z.testbit_neg_r by lia; reflexivity |].
    rewrite Z.mod_pow2_bits_high by (destruct Hg; lia). apply andb_false_r. }
  unfold cache_line_offset_mask. rewrite Z.land_ones, Ei, El by (destruct Hg; lia).
  split; [reflexivity |]. split; [nia |]. split; [lia |]. unfold crosses. apply negb_false_iff, Z.eqb_eq.
  rewrite (ux_small g Hg), !Z.shiftr_div_pow2 by (destruct Hg; lia).
  rewrite <- Z.add_assoc, !Z.div_add_l, !(Z.div_small (_ + _)), (Z.div_small (a mod line)) by lia. reflexivity.
Qed.
Lemma line_bounds o : 0 <= o < n -> 0 <= a mod line + o < line /\ line_of a * line + (a mod line + o) = a + o /\ in_ram (a + o).
Proof using Hg Hw Ha.
  pose proof (powers g Hg) as (Hl & _). intros Ho. destruct (fits_bytes w a Hw) as (En & Hn & Hf).
  pose proof (Z.mod_pos_bound a line ltac:(lia)) as Hm. pose proof (Z.div_mod a line ltac:(lia)) as E.
  split; [lia |]. assert (E' : line_of a * line + (a mod line + o) = a + o) by lia. split; [exact E' |]. rewrite <- E'. apply (line_in_ram g Hg); [exact Ha | lia].
Qed.

Lemma does_load_val : does (load_val mem g w a idx) c f (Some (read_T w M a)) c f.
Proof using Hg Hr Hw Ha.
  destruct index_of as (_ & Hi0 & Hi1 & Hcr). unfold load_val. rewrite Hcr. eapply does_bind; [apply does_ret |]. cbv beta iota.
  eapply does_bind; [apply does_data; assumption |].
  replace (read_T w M a) with (wrap w (read_bytes (bytes_of w) (cache_data c) idx)); [apply does_ret |].
  unfold read_T. f_equal. apply read_bytes_shift. intros o Ho. destruct (line_bounds o Ho) as (B1 & B2 & B3).
  destruct Hr as (Hc & _ & e & _ & Hh & Ee). pose proof (hl_data _ _ _ _ _ _ Hh _ B1) as Hd. rewrite Ee, B2 in Hd.
  rewrite <- Z.add_assoc, Hd. symmetry. apply wrap_small, (co_byte _ _ _ _ _ Hc), B3.
Qed.

(** A store to the line that the cache holds. *)
Definition stored_key : list cache_entry :=
  if through c then cache_key c
  else match cache_key c !! Z.to_nat i with
       | Some e => <[Z.to_nat i := set_state e cache_state_modified]> (cache_key c) | None => cache_key c end.

Lemma stored_key_at j e : 0 <= j -> stored_key !! Z.to_nat j = Some e ->
  exists e0, cache_key c !! Z.to_nat j = Some e0 /\ e_pcln e = e_pcln e0 /\ e_ppn e = e_ppn e0 /\ e_status e = e_status e0 /\ e_LRU_count e = e_LRU_count e0 /\
    e_state e = (if negb (through c) && (j =? i) then cache_state_modified else e_state e0).
Proof using Hr.
  intros Hj. unfold stored_key. destruct Hr as (_ & Hi & e1 & He1 & _). rewrite He1. destruct (through c); cbn [negb andb]; [intros He; exists e; auto 10 |].
  destruct (Z.eqb_spec j i) as [-> | N].
  - rewrite list_lookup_insert_eq by (apply lookup_lt_Some in He1; exact He1). intros [= <-]. exists e1. auto 10.
  - rewrite list_lookup_insert_ne by lia. intros He. exists e. auto 10.
Qed.

Lemma stored_key_of j e0 : 0 <= j -> cache_key c !! Z.to_nat j = Some e0 -> exists e, stored_key !! Z.to_nat j = Some e.
Proof using Hr.
  intros Hj He. apply lookup_lt_Some in He. apply lookup_lt_is_Some_2. unfold stored_key. destruct (through c); [exact He |].
  destruct (cache_key c !! Z.to_nat i); [rewrite length_insert |]; exact He.
Qed.

Lemma coherent_store M' d f' v :
  (forall b, M' b = if (a <=? b) && (b <? a + n) then byte_of v (b - a) else M b) ->
  (forall j, u8 (d j) = if (idx <=? j) && (j <? idx + n) then byte_of v (j - idx) else u8 (cache_data c j)) ->
  (forall b, f' b = if through c && ((a <=? b) && (b <? a + n)) then byte_of v (b - a) else f b) ->
  coherent M' (with_data (with_key c stored_key) d) f'.
Proof using Hg Hr Hw Ha.
  pose proof (powers g Hg) as (Hl & _). intros HM Hd Hf. pose proof Hr as (Hc & Hi & ei & Hei & Hh & Eei).
  destruct (fits_bytes w a Hw) as (En & Hn & Hoff). pose proof (Z.mod_pos_bound a line ltac:(lia)) as Hm.
  pose proof (Z.div_mod a line ltac:(lia)) as Ea. assert (En' : n = w / 8) by exact En.
  assert (Other : forall l o, l <> line_of a -> 0 <= o < line -> (a <=? l * line + o) && (l * line + o <? a + n) = false).
  { intros l o Nl Ho. destruct (Z.leb_spec a (l * line + o)), (Z.ltb_spec (l * line + o) (a + n)); cbn [andb]; try reflexivity. nia. }
  assert (Same : forall b, in_ram b -> line_of b <> line_of a -> M' b = M b /\ f' b = f b).
  { intros b _ Nb. pose proof (Z.div_mod b line ltac:(lia)) as Eb. pose proof (Z.mod_pos_bound b line ltac:(lia)).
    specialize (Other (line_of b) (b mod line) Nb ltac:(lia)). replace (line_of b * line + b mod line) with b in Other by lia.
    rewrite HM, Hf, Other, andb_false_r. auto. }
  destruct Hc as [C1 C2 C3 C4 C5 C6 C7]. split; cbn [with_data with_key cache_key write_policy].
  - exact C1.
  - unfold stored_key. destruct (through c); [exact C2 |]. rewrite Hei, length_insert. exact C2.
  - unfold stored_key. destruct (through c); [exact C3 |]. rewrite Hei. apply Forall_insert; [exact C3 |]. cbn.
    rewrite Forall_lookup in C3. apply (C3 _ _ Hei).
  - intros j e Hj _ He. destruct (stored_key_at j e Hj He) as (e0 & He0 & P & Pp & S & L & St).
    destruct (C4 j e0 Hj ltac:(lia) He0) as [[m1 m2] | [h1 h2 h3 h4 h5 h6]]; [left; split; congruence | right].
    destruct (Z.eqb_spec j i) as [-> | Nj].
    + assert (e0 = ei) as -> by congruence. split; rewrite ?P, ?Pp, ?S; try assumption.
      * intros o Ho. cbn [with_data cache_data]. rewrite Hd, HM, Eei.
        replace ((a <=? line_of a * line + o) && (line_of a * line + o <? a + n)) with ((idx <=? i * line + o) && (i * line + o <? idx + n)).
        2: { destruct (Z.leb_spec idx (i * line + o)), (Z.ltb_spec (i * line + o) (idx + n)), (Z.leb_spec a (line_of a * line + o)), (Z.ltb_spec (line_of a * line + o) (a + n));
             try reflexivity; lia. }
        match goal with |- (if ?b then _ else _) = _ => destruct b end; [apply (f_equal (byte_of v)); lia |]. rewrite <- Eei. apply h5, Ho.
      * unfold dirty. cbn [with_data with_key write_policy]. rewrite St. intros Hdirty o Ho. rewrite Eei, HM, Hf.
        assert (Hth : through c = true).
        { unfold through. destruct C1 as [E | E]; rewrite E in *; [reflexivity |]. exfalso. revert Hdirty. unfold through. rewrite E. discriminate. }
        rewrite Hth. cbn [andb]. match goal with |- (if ?b then _ else _) = _ => destruct b end; [reflexivity |]. rewrite <- Eei. apply h6; [| exact Ho].
        unfold dirty. unfold through in Hth. apply Z.eqb_eq in Hth. rewrite Hth. reflexivity.
    + assert (Nl : e_pcln e0 <> line_of a) by (rewrite <- Eei; intros E; apply Nj; apply (C5 j i e0 ei); try assumption; try lia; apply Hh).
      rewrite andb_false_r in St.
      split; rewrite ?P, ?Pp, ?S; try assumption.
      * intros o Ho. cbn [with_data cache_data]. rewrite Hd, HM, Other by assumption.
        replace ((idx <=? j * line + o) && (j * line + o <? idx + n)) with false; [apply h5, Ho |].
        destruct (Z.leb_spec idx (j * line + o)), (Z.ltb_spec (j * line + o) (idx + n)); try reflexivity. nia.
      * intros Hdirty o Ho. rewrite HM, Hf, Other, andb_false_r by assumption. apply h6; [| exact Ho].
        revert Hdirty. unfold dirty. cbn [with_data with_key write_policy]. rewrite St. exact (fun x => x).
  - intros j k e e' Hj Hk _ _ He He' F F' E. destruct (stored_key_at j e Hj He) as (e0 & He0 & P & _ & S & _), (stored_key_at k e' Hk He') as (e1 & He1 & P' & _ & S' & _).
    apply (C5 j k e0 e1); try assumption; try lia; congruence.
  - intros b Hb Hu. assert (Hu' : forall j e0, 0 <= j -> j <> -1 -> cache_key c !! Z.to_nat j = Some e0 -> e_status e0 = cache_line_filled -> e_pcln e0 <> line_of b).
    { intros j e0 Hj Nj He0 F. destruct (stored_key_of j e0 Hj He0) as (e & He). destruct (stored_key_at j e Hj He) as (e2 & He2 & P & _ & S & _).
      assert (e2 = e0) as -> by congruence. rewrite <- P. apply (Hu j e Hj Nj He). congruence. }
    destruct (Same b Hb) as [-> ->]; [intros E; apply (Hu' i ei); [lia | lia | exact Hei | apply Hh | congruence] |]. apply C6; assumption.
  - intros b Hb. rewrite HM. match goal with |- context [if ?b then _ else _] => destruct b end; [apply wrap_range; lia | apply C7, Hb].
Qed.
End Line.

(** ** Loads and stores *)

Lemma in_ram_cached a : in_ram a -> ux a = a /\ uncached a = false.
Proof using Hg.
  unfold in_ram, uncached, default_ram_base, default_ram_size. intros Ha. split; [apply (ux_small g Hg); lia |]. apply orb_false_iff. lia.
Qed.

(** A load returns what [M] holds. *)
Lemma cache_load_does M c f w a : coherent M c f -> in_ram a -> fits w a ->
  exists c' f', does (cache_load mem g w a) c f (Some (read_T w M a)) c' f' /\ coherent M c' f' /\ write_policy c' = write_policy c.
Proof using HC CM Hg.
  intros Hc Ha Hw. destruct (in_ram_cached a Ha) as [Eu En]. destruct (does_access mem g Hg ram M c f a Hc Ha) as (i & c1 & e1 & c2 & f2 & H1 & He & H2 & Hr & Hp).
  destruct (index_of M c2 f2 a i w Hr Hw) as (Ei & _). exists c2, f2. split; [| split; [apply Hr | exact Hp]].
  unfold cache_load. cbv zeta. rewrite Eu, En. eapply does_bind; [apply (does_stats mem ram); repeat split; discriminate |].
  unfold access_cache. eapply does_bind; [exact H1 |]. eapply does_bind; [apply (does_get_entry ram i e1); [| exact He] |].
  { destruct Hr as (_ & Hi & _). lia. }
  cbv zeta. eapply does_bind; [exact H2 |]. cbv beta iota. eapply does_bind; [apply does_get_cache |]. cbn [andb]. rewrite Ei.
  apply (does_load_val M c2 f2 a i w Hr Hw Ha).
Qed.

(** A store leaves [M] with the value. *)
Lemma cache_store_does M c f w a v : coherent M c f -> in_ram a -> fits w a ->
  exists c' f', does (cache_store mem g w a v) c f false c' f' /\ coherent (write_bytes (bytes_of w) M a (wrap w v)) c' f' /\
    write_policy c' = write_policy c.
Proof using HC CM Hg.
  intros Hc Ha Hw. destruct (in_ram_cached a Ha) as [Eu En]. destruct (does_access mem g Hg ram M c f a Hc Ha) as (i & c1 & e1 & c2 & f2 & H1 & He & H2 & Hr & Hp).
  destruct (index_of M c2 f2 a i w Hr Hw) as (Ei & Hx0 & Hx1 & _). pose proof Hr as (Hc2 & Hi & e2 & He2 & _).
  destruct (does_store (bytes_of w) a (i * line + a mod line) (wrap w v) (with_key c2 (stored_key c2 i)) f2) as (d & f' & Hst & Ed & Ef);
    [intros o Ho; apply (line_bounds a w Hw Ha o Ho) | exact Hx0 | exact Hx1 |].
  exists (with_data (with_key c2 (stored_key c2 i)) d), f'. split; [| split; [| exact Hp]].
  - unfold cache_store. cbv zeta. rewrite Eu, En. eapply does_bind; [apply (does_stats mem ram); repeat split; discriminate |].
    apply (does_bind ram _ _ _ _ (Some 0) (with_data (with_key c2 (stored_key c2 i)) d) f'); [| apply does_ret].
    unfold access_cache. eapply does_bind; [exact H1 |].
    eapply does_bind; [apply (does_get_entry ram i e1); [lia | exact He] |].
    cbv zeta. eapply does_bind; [exact H2 |]. cbv beta iota. eapply does_bind; [apply does_get_cache |]. cbn [andb]. rewrite Ei.
    assert (Hval : does (err <- store_val mem g w a (i * line + a mod line) v ;; ret (if err : bool then None else Some 0))
      (with_key c2 (stored_key c2 i)) f2 (Some 0) (with_data (with_key c2 (stored_key c2 i)) d) f').
    { eapply does_bind; [exact Hst | apply does_ret]. }
    assert (Eth : (write_policy c2 =? cache_write_through) = through c2) by reflexivity. rewrite Eth.
    destruct (through c2) eqn:Et.
    + replace (with_key c2 (stored_key c2 i)) with c2 in Hval at 1; [exact Hval |]. unfold stored_key. rewrite Et. destruct c2; reflexivity.
    + destruct (co_policy _ _ _ _ _ Hc2) as [E | E]; [unfold through in Et; rewrite E in Et; discriminate |]. rewrite E. cbn [andb Z.eqb].
      eapply does_bind; [apply (does_put_entry mem ram i _ e2); [lia | exact He2] |].
      unfold stored_key in *. rewrite Et, He2 in *. exact Hval.
  - apply (coherent_store M c2 f2 a i w Hr Hw Ha _ d f' (wrap w v)); [| exact Ed |].
    + intros b. destruct (Z.leb_spec a b), (Z.ltb_spec b (a + Z.of_nat (bytes_of w))); cbn [andb]; [| apply write_bytes_out; lia ..].
      replace b with (a + (b - a)) at 1 by lia. apply write_bytes_in. lia.
    + intros b. exact (Ef b).
Qed.
End Access.
