(* ===== verification/CacheTheorems.v ===== *)
(** * CacheTheorems: the cache in front of main memory is main memory. *)

From Stdlib Require Import ZArith Lia Bool List.
From stdpp Require Import base numbers list.
From S2P Require Import Prelude Machine Proxy Tlb Soft Memory Cache CacheSound CacheCoherent CacheAccess.

Lemma read_T_8 m a : read_T 8 m a = u8 (u8 (m a)).
Proof. unfold read_T. cbn [bytes_of read_bytes]. change (bytes_of 8) with 1%nat. cbn [read_bytes]. rewrite Z.shiftl_0_l, Z.add_0_r. reflexivity. Qed.

(** ** A new cache *)
Section New.
Context (g : geometry) (Hg : geometry_ok g).

Lemma new_cache_coherent policy M f :
  policy = cache_write_through \/ policy = cache_write_back -> (forall a, in_ram a -> f a = M a /\ 0 <= M a < 256) ->
  coherent g M (new_cache g policy) f.
Proof using.
  intros Hp Hf. split; cbn [new_cache cache_key write_policy].
  - exact Hp.
  - apply length_replicate.
  - apply Forall_replicate. cbn. lia.
  - intros i e _ _ He. apply lookup_replicate in He as [-> _]. left. split; reflexivity.
  - intros i j e e' _ _ _ _ He _ F. apply lookup_replicate in He as [-> _]. discriminate F.
  - intros a Ha _. apply Hf, Ha.
  - intros a Ha. apply Hf, Ha.
Qed.

(** A cache that writes through keeps RAM up to date. *)
Lemma coherent_through M c f : coherent g M c f -> write_policy c = cache_write_through -> forall a, in_ram a -> f a = M a.
Proof using Hg.
  intros Hc Hp a Ha. pose proof (powers g Hg) as (Hl & _). set (line := 2 ^ g_line g) in *.
  assert (Hd : Forall (fun e => e_status e = cache_line_filled -> e_pcln e <> a / line) (cache_key c) \/
               exists i e, cache_key c !! i = Some e /\ e_status e = cache_line_filled /\ e_pcln e = a / line).
  { destruct (decide (Exists (fun e => e_status e = cache_line_filled /\ e_pcln e = a / line) (cache_key c))) as [E | N].
    - right. apply list_exist_lookup in E || (apply Exists_exists in E as (e & Hin & He); apply list_elem_of_lookup in Hin as [i Hi]; eauto).
    - left. apply Forall_forall. intros e Hin F E. apply N, Exists_exists. eauto. }
  destruct Hd as [Hn | (i & e & He & F & E)].
  - apply (co_rest _ _ _ _ _ Hc a Ha). intros j e _ _ He F. rewrite Forall_lookup in Hn. apply (Hn _ _ He F).
  - destruct (co_entry _ _ _ _ _ Hc (Z.of_nat i) e ltac:(lia) ltac:(lia)) as [Em | Hh]; [rewrite Nat2Z.id; exact He | contradiction (empty_not_filled g e Em F) |].
    pose proof (hl_clean _ _ _ _ _ _ Hh) as Hcl. unfold dirty in Hcl. rewrite Hp in Hcl.
    specialize (Hcl eq_refl (a mod line) (Z.mod_pos_bound a line ltac:(lia))). rewrite E in Hcl.
    replace (a / line * 2 ^ g_line g + a mod line) with a in Hcl by (unfold line in *; pose proof (Z.div_mod a (2 ^ g_line g) ltac:(lia)); lia). exact Hcl.
Qed.
End New.

(** ** Sequences of accesses *)
Inductive access := Load (w a : Z) | Store (w a v : Z).

Definition access_ok (g : geometry) (x : access) : Prop :=
  match x with Load w a | Store w a _ => in_ram a /\ fits g w a end.

(** A flat memory. *)
Definition flat_access (x : access) (m : Z -> Z) : option Z * (Z -> Z) :=
  match x with
  | Load w a => (Some (read_T w m a), m)
  | Store w a v => (Some 0, write_bytes (bytes_of w) m a (wrap w v))
  end.

Fixpoint flat_run (l : list access) (m : Z -> Z) : list (option Z) * (Z -> Z) :=
  match l with
  | [] => ([], m)
  | x :: l => let (r, m) := flat_access x m in let (rs, m) := flat_run l m in (r :: rs, m)
  end.

Section Runs.
Context {D : Type} `{HC : HasCacheLaws D} (mem : Bus (soft D)) (g : geometry) (Hg : geometry_ok g).
Context (ram : soft D -> Z -> Z) {CM : CacheMemory mem ram}.

(** The same through the cache; [None] is a bus error. *)
Definition cache_access (x : access) : M (soft D) (option Z) :=
  match x with
  | Load w a => cache_load mem g w a
  | Store w a v => err <- cache_store mem g w a v ;; ret (if err : bool then None else Some 0)
  end.

Fixpoint cache_run (l : list access) : M (soft D) (list (option Z)) :=
  match l with
  | [] => ret []
  | x :: l => r <- cache_access x ;; rs <- cache_run l ;; ret (r :: rs)
  end.

Lemma cache_access_does x m c f : coherent g m c f -> access_ok g x ->
  exists c' f', does ram (cache_access x) c f (flat_access x m).1 c' f' /\ coherent g (flat_access x m).2 c' f' /\ write_policy c' = write_policy c.
Proof using HC CM Hg.
  intros Hc Hx. destruct x as [w a | w a v]; destruct Hx as [Ha Hw]; cbn [flat_access fst snd cache_access].
  - apply (cache_load_does mem g Hg ram m c f w a Hc Ha Hw).
  - destruct (cache_store_does mem g Hg ram m c f w a v Hc Ha Hw) as (c' & f' & Hd & Hr). exists c', f'. split; [| exact Hr].
    eapply does_bind; [exact Hd | apply does_ret].
Qed.

Lemma cache_run_does l : forall m c f, coherent g m c f -> Forall (access_ok g) l ->
  exists c' f', does ram (cache_run l) c f (flat_run l m).1 c' f' /\ coherent g (flat_run l m).2 c' f' /\ write_policy c' = write_policy c.
Proof using HC CM Hg.
  induction l as [| x l IH]; intros m c f Hc Hl; cbn [cache_run flat_run].
  - exists c, f. split; [apply does_ret | auto].
  - apply Forall_cons in Hl as [Hx Hl]. destruct (cache_access_does x m c f Hc Hx) as (c1 & f1 & H1 & Hc1 & Hp1).
    destruct (flat_access x m) as [r m1]. cbn [fst snd] in *. destruct (IH m1 c1 f1 Hc1 Hl) as (c2 & f2 & H2 & Hc2 & Hp2).
    destruct (flat_run l m1) as [rs m2]. cbn [fst snd] in *. exists c2, f2. split; [| split; [exact Hc2 | congruence]].
    eapply does_bind; [exact H1 |]. eapply does_bind; [exact H2 | apply does_ret].
Qed.
End Runs.

(** ** Main memory

    [rv-sys] adds a segment of RAM at [default_ram_base] before the devices; the
    counters are at its end. *)
Section Main.
Context {D : Type} `{HC : HasCacheLaws D} (xlen uva : Z) (devices : list (mem_segment D)).
Context (Hx : xlen = 32 \/ xlen = 64) (Hu : 0 <= uva /\ uva + default_ram_size <= 2 ^ xlen).

Definition main_segments : list (mem_segment D) := mmap_segment default_ram_base uva default_ram_size :: devices.
Definition main_bus : Bus (soft D) := user_memory xlen main_segments.
Definition main_ram (p : soft D) (a : Z) : Z := u8 (sm_host p (uva + (a - default_ram_base))).

Lemma main_uva a : default_ram_base <= a < default_ram_base + default_ram_size ->
  mpa_to_uva main_segments (wrap xlen a) = Some (mmap_segment default_ram_base uva default_ram_size, uva + (a - default_ram_base)) /\
  wrap xlen (uva + (a - default_ram_base)) = uva + (a - default_ram_base).
Proof using Hx Hu.
  unfold default_ram_base, default_ram_size in *. intros Ha.
  assert (Hw : wrap xlen a = a) by (apply wrap_small; destruct Hx as [-> | ->]; lia).
  assert (Hv : wrap xlen (uva + (a - 0x80000000)) = uva + (a - 0x80000000)) by (apply wrap_small; lia). rewrite Hw. split; [| exact Hv].
  unfold main_segments. cbn [mpa_to_uva]. unfold seg_has. cbn [mmap_segment seg_mpa seg_uva seg_size].
  unfold default_ram_base, default_ram_size. rewrite (wrap_small 64 (0x80000000 + 0x40000028)) by lia.
  replace ((0x80000000 <=? a) && ((a <? 0x80000000 + 0x40000028) || (0x80000000 + 0x40000028 =? 0))) with true by lia.
  do 2 f_equal. rewrite wrap_small; [reflexivity |]. destruct Hx as [-> | ->]; lia.
Qed.

Lemma main_load w a p : bus_width w = true -> default_ram_base <= a < default_ram_base + default_ram_size ->
  memory_load xlen main_segments w a p = Ok (Some (read_T w (sm_host p) (uva + (a - default_ram_base)))) p.
Proof using Hx Hu. intros Hw Ha. destruct (main_uva a Ha) as [E1 E2]. unfold memory_load. rewrite Hw, E1, E2. reflexivity. Qed.

Lemma main_store w a v p : bus_width w = true -> default_ram_base <= a < default_ram_base + default_ram_size ->
  memory_store xlen main_segments w a v p = mmap_store w (uva + (a - default_ram_base)) v p.
Proof using Hx Hu. intros Hw Ha. destruct (main_uva a Ha) as [E1 E2]. unfold memory_store. rewrite Hw, E1, E2. reflexivity. Qed.

#[export] Instance main_cache_memory : CacheMemory main_bus main_ram.
Proof using Hx Hu.
  split; unfold in_ram, is_stat; cbn [bus_load bus_store main_bus user_memory].
  - intros a c f Ha p [Hc Hf]. exists p. rewrite main_load by (reflexivity || (unfold default_ram_base, default_ram_size; lia)).
    split; [| repeat split; assumption]. rewrite <- (Hf a Ha). unfold main_ram. rewrite <- (wrap_wrap 8). rewrite read_T_8. reflexivity.
  - intros a v c f Ha p [Hc Hf]. rewrite main_store by (reflexivity || (unfold default_ram_base, default_ram_size; lia)).
    eexists. split; [reflexivity |]. split; [repeat split |]. split; [exact Hc |].
    intros b Hb. rewrite <- (Hf b Hb). unfold main_ram. cbn [sm_host].
    change (bytes_of 8) with 1%nat. cbn [write_bytes]. destruct (Z.eqb_spec b a) as [-> | Hne]; [rewrite Z.eqb_refl; apply wrap_wrap; lia |].
    destruct (Z.eqb_spec (uva + (b - default_ram_base)) (uva + (a - default_ram_base))); [lia | reflexivity].
  - intros a c f Ha p _. rewrite main_load by (reflexivity || (unfold default_ram_base, default_ram_size; lia)). eauto.
  - intros a v c f Ha p [Hc Hf]. rewrite main_store by (reflexivity || (unfold default_ram_base, default_ram_size; lia)).
    eexists. split; [reflexivity |]. split; [repeat split |]. split; [exact Hc |].
    intros b Hb. rewrite <- (Hf b Hb). unfold main_ram. cbn [sm_host]. rewrite write_bytes_out; [reflexivity |]. unfold default_ram_base. cbn. unfold in_ram in Hb. lia.
  - intros c p a _. reflexivity.
Qed.
End Main.

Lemma new_cache_main {D} `{HC : HasCacheLaws D} uva g policy p : geometry_ok g ->
  policy = cache_write_through \/ policy = cache_write_back -> cache_of p = new_cache g policy ->
  coherent g (main_ram uva p) (cache_of p) (main_ram uva p).
Proof.
  intros Hg Hp ->. apply (new_cache_coherent g policy); [exact Hp |]. intros a _. split; [reflexivity |]. apply wrap_range. lia.
Qed.

Lemma cache_types_ok : geometry_ok cache_type_rv32 /\ geometry_ok cache_type_rv64.
Proof. split; split; cbn; lia. Qed.

(** C36 The cache of [emu/cache.h] in front of main memory is main memory.  From
    a machine with an empty cache, of the geometry and policy it is built with,
    every sequence of loads and stores in RAM whose bytes are in one line ends
    with no error and returns what the memory alone would: evictions, write-backs
    and refills are not visible.  The processor is as before; the cache and RAM
    together hold the final memory, and RAM alone does when the cache writes
    through. *)
Theorem cache_refines_memory {D} `{HC : HasCacheLaws D} g policy uva (devices : list (mem_segment D)) l p :
  geometry_ok g -> policy = cache_write_through \/ policy = cache_write_back ->
  0 <= uva /\ uva + default_ram_size <= 2 ^ g_xlen g ->
  cache_of p = new_cache g policy -> Forall (access_ok g) l ->
  let (results, m) := flat_run l (main_ram uva p) in
  exists p', cache_run (main_bus (g_xlen g) uva devices) g l p = Ok results p' /\ same_core p p' /\
    coherent g m (cache_of p') (main_ram uva p') /\
    (policy = cache_write_through -> forall a, in_ram a -> main_ram uva p' a = m a).
Proof.
  intros Hg Hp Hu Ec Hl. pose proof (new_cache_main uva g policy p Hg Hp Ec) as Hc.
  pose proof (main_cache_memory (g_xlen g) uva devices (go_xlen g Hg) Hu) as CM.
  destruct (cache_run_does (main_bus (g_xlen g) uva devices) g Hg (main_ram uva) l _ _ _ Hc Hl) as (c' & f' & Hd & Hc' & Hw).
  destruct (flat_run l (main_ram uva p)) as [rs m]. cbn [fst snd] in *.
  destruct (Hd p (conj eq_refl (fun a _ => eq_refl))) as (p' & E & Hs & Ec' & Hf). exists p'.
  assert (Hc2 : coherent g m (cache_of p') (main_ram uva p')).
  { rewrite Ec'. apply (coherent_ram g (-1) m c' f'); [exact Hc' |]. intros a Ha. left. apply Hf, Ha. }
  split; [exact E |]. split; [exact Hs |]. split; [exact Hc2 |].
  intros Ep. apply (coherent_through g Hg m (cache_of p') (main_ram uva p') Hc2). rewrite Ec', Hw, Ec. exact Ep.
Qed.

(** ** A machine with nothing but the cache *)
#[export] Instance cache_device : HasCache tagged_cache := {| dev_cache c := c; dev_set_cache c _ := c |}.

#[export] Instance cache_device_laws : HasCacheLaws tagged_cache.
Proof. split. reflexivity. Qed.

Definition demo_cached (g : geometry) (policy : Z) : soft tagged_cache :=
  mkSoft proc_init (fun _ => 0) (tlb_init 64) (tlb_init 64) (fun _ => 0) (new_cache g policy).

(** A store, loads of other lines of its set until it is evicted, and a load
    of what was stored. *)
Definition demo_accesses : list access :=
  Store 64 0x80000040 0x123456789abcdef0 ::
  map (fun i => Load 32 (0x80000048 + i * 4096)) (seqZ 1 15) ++ [Load 16 0x80000042].

Lemma cache_refines_memory_witness :
  (flat_run demo_accesses (main_ram 0 (demo_cached cache_type_rv64 cache_write_back))).1 = replicate 16 (Some 0) ++ [Some 0x9abc] /\
  let (results, m) := flat_run demo_accesses (main_ram 0 (demo_cached cache_type_rv64 cache_write_back)) in
  exists p', cache_run (main_bus 64 0 []) cache_type_rv64 demo_accesses (demo_cached cache_type_rv64 cache_write_back) = Ok results p' /\
    same_core (demo_cached cache_type_rv64 cache_write_back) p' /\
    coherent cache_type_rv64 m (cache_of p') (main_ram 0 p') /\
    (cache_write_back = cache_write_through -> forall a, in_ram a -> main_ram 0 p' a = m a).
Proof.
  split.
  - vm_compute. reflexivity.
  - apply (cache_refines_memory cache_type_rv64 cache_write_back 0 [] demo_accesses).
    + apply cache_types_ok.
    + right. reflexivity.
    + split; [reflexivity |]. apply Z.leb_le. reflexivity.
    + reflexivity.
    + repeat (apply Forall_cons; split; [split; [split; [apply Z.leb_le | apply Z.ltb_lt] | split; [| apply Z.leb_le]]; reflexivity |]). apply Forall_nil. exact Logic.I.
Defined.

(** What the example does to the line it stores: the evicted line is in RAM. *)
Lemma demo_evicted :
  match cache_run (main_bus 64 0 []) cache_type_rv64 (take 16 demo_accesses) (demo_cached cache_type_rv64 cache_write_back) with
  | Ok _ p => read_T 64 (main_ram 0 p) 0x80000040 = 0x123456789abcdef0 /\ read_T 64 (sm_host p) (stat_evicted - default_ram_base) = 8
  | _ => False
  end.
Proof. vm_compute. split; reflexivity. Qed.
