(* ===== verification/CacheMmu.v ===== *)
(** * CacheMmu: the MMU of [emu/mmu-soft-cache.h], that loads and stores through
    a cache.

    The access checks, the translation of the effective mode and the TLBs are
    those of Mmu.v; the walk, and what calls it, and the fetch differ.  [Bus] is
    the cache's [load] and [store]. *)

From Stdlib Require Import ZArith Lia Bool List.
From stdpp Require Import base numbers list.
From S2P Require Import Prelude Decode Alu Machine Csr Tlb Soft Memory Mmu.

Section CacheMmu.
Context {D : Type} `{Bus (soft D)} `{FB : FloatBus (soft D)} (xlen : Z).
Abbreviation S := (soft D).
Abbreviation ux := (wrap xlen).

(** ** The walk *)

(** A leaf PTE: the PTE with the flags is loaded again, not stored. *)
Definition cached_walk_leaf (t : ptm) (op : mmu_op) (va pte_mpa pte level shift : Z) : M S walk_result :=
  let sh := ux (shift - page_shift) in
  if sh <? 32 then
    if negb (Z.land (swrap 32 (Z.shiftl 1 sh) - 1) (pte_ppn t pte) =? 0)
    then walk_faulted op va pte level
    else
      let ad := ad_flags op in
      if Z.land (pte_flags pte) ad =? ad then
        pa <- page_translate_offset xlen t (pte_ppn t pte) va level ;; ret (pa, pte, level)
      else
        r <- bus_load (ptm_size t) pte_mpa ;;
        match r with
        | None => walk_faulted op va (Z.lor pte ad) level
        | Some pte => pa <- page_translate_offset xlen t (pte_ppn t pte) va level ;; ret (pa, pte, level)
        end
  else undefined.

Fixpoint cached_walk_levels (fuel : nat) (t : ptm) (op : mmu_op) (va ppn level : Z) : M S walk_result :=
  match fuel with
  | O => undefined
  | Datatypes.S fuel =>
      let shift := level_shift xlen t level in
      if shift <? xlen then
        let vpn := Z.land (Z.shiftr va shift) (Z.ones (ptm_bits t)) in
        let pte_mpa := ux (ppn + vpn * (ptm_size t / 8)) in
        r <- bus_load (ptm_size t) pte_mpa ;;
        match r with
        | None => walk_faulted op va 0 level
        | Some pte =>
            let bit i := Z.testbit pte i in
            if negb (bit pte_shift_R || bit pte_shift_W || bit pte_shift_X)
            then cached_walk_levels fuel t op va (pte_addr xlen t pte) (ux (level - 1))
            else if negb (bit pte_shift_V) || (negb (bit pte_shift_R) && bit pte_shift_W)
            then walk_faulted op va pte level
            else if has_flag (pte_flags pte) (Z.lor pte_flag_R pte_flag_X)
            then cached_walk_leaf t op va pte_mpa pte level shift
            else cached_walk_levels fuel t op va ppn (ux (level - 1))
        end
      else undefined
  end.

Definition cached_walk (t : ptm) (va : Z) (op : mmu_op) : M S walk_result :=
  sptbr <- get_reg r_sptbr ;;
  cached_walk_levels (walk_fuel t) t op va
    (ux (Z.shiftl (Z.land sptbr (Z.ones (ppn_bits xlen))) page_shift)) (ptm_levels t - 1).

(** ** Translation *)

(** [tlb.insert] in the TLB of the operation, and the entry. *)
Definition cached_insert (t : ptm) (va : Z) (op : mmu_op) (pa pte level : Z) : M S (Z * option tlb_entry) := fun p =>
  let tlb' := tlb_insert xlen (tlb_of op p) (sm_regs p r_pdid) (asid xlen p) va level (pte_flags pte) (pte_ppn t pte) in
  (set_tlb op tlb' ;; ret (pa, Some (tlb' (tlb_index va)))) p.

Definition cached_tlb_miss (t : ptm) (va : Z) (op : mmu_op) (ent : option tlb_entry) : M S (Z * option tlb_entry) :=
  r <- cached_walk t va op ;;
  let '(pa, pte, level) := r in
  if pa =? 0 then ret (0, ent) else cached_insert t va op pa pte level.

Definition cached_page_translate (t : ptm) (va : Z) (op : mmu_op) : M S (Z * option tlb_entry) := fun p =>
  let ent := tlb_lookup (tlb_of op p) (sm_regs p r_pdid) (asid xlen p) va in
  let miss := cached_tlb_miss t va op ent in
  match ent with
  | Some e =>
      if Z.land (te_pteb e) (ad_flags op) =? ad_flags op then miss p
      else (pa <- page_translate_offset xlen t (te_ppn e) va (te_ptel e) ;; ret (pa, ent)) p
  | None => miss p
  end.

Definition cached_translate_addr (va : Z) (op : mmu_op) : M S (Z * option tlb_entry) := fun p =>
  if rv_mode_M <=? effective_mode (sm_regs p) op then Ok (va, None) p
  else switch (bf_get bf_vm (sm_regs p r_mstatus))
    [rv_vm_mbare ~> ret (va, None);
     rv_vm_sv32 ~> cached_page_translate sv32 va op;
     rv_vm_sv39 ~> cached_page_translate sv39 va op;
     rv_vm_sv48 ~> cached_page_translate sv48 va op]
    undefined p.

(** ** Accesses *)

Definition cached_load (w va : Z) : M S Z :=
  if misaligned w va then raise_unset rv_cause_misaligned_load va
  else
    r <- cached_translate_addr va op_load ;;
    let '(mpa, ent) := r in
    if mpa =? 0 then undefined
    else
      v <- checked_load w mpa ent ;;
      match v with Some v => ret v | None => raise_unset rv_cause_fault_load va end.

(** [store<P,T>]; [put] is [cache->store(mpa, val)] for [T]. *)
Definition cached_store_with (put : Z -> option tlb_entry -> M S bool) (w va : Z) : M S unit :=
  if misaligned w va then raise rv_cause_misaligned_store va
  else
    r <- cached_translate_addr va op_store ;;
    let '(mpa, ent) := r in
    if mpa =? 0 then ret tt
    else
      err <- put mpa ent ;;
      if err : bool then raise rv_cause_fault_store va else ret tt.

Definition cached_store (w va v : Z) : M S unit := cached_store_with (fun mpa ent => checked_store w mpa v ent) w va.
Definition cached_store_f (fpu : host_fpu) (w va v : Z) : M S unit :=
  cached_store_with (fun mpa ent => checked_store_f fpu w mpa v ent) w va.

Definition cached_amo (w : Z) (a_op : amo_op) (va val2 : Z) : M S Z :=
  if misaligned w va then raise_unset rv_cause_misaligned_store va
  else
    r <- cached_translate_addr va op_store ;;
    let '(mpa, ent) := r in
    if mpa =? 0 then undefined
    else
      v <- checked_load w mpa ent ;;
      match v with
      | None => raise_unset rv_cause_fault_store va
      | Some val1 =>
          let val2 := wrap w (amo_fn xlen a_op (swrap w val1) (swrap w val2)) in
          err <- checked_store w mpa val2 ent ;;
          if err : bool then raise rv_cause_fault_store va ;; ret val1 else ret val1
      end.

(** The rest of an instruction longer than 32 bits. *)
Definition fetch_rest (w pc mpa inst len : Z) : M S (Z * Z) :=
  r <- bus_load w (mpa + 4) ;;
  match r with
  | None => raise_unset rv_cause_fault_fetch pc
  | Some rest => ret (Z.lor inst (Z.shiftl rest 32), len)
  end.

(** [inst_fetch]: 32 bits are loaded first. *)
Definition cached_fetch (pc : Z) : M S (Z * Z) :=
  if misaligned 16 pc then raise_unset rv_cause_misaligned_fetch pc
  else
    r <- cached_translate_addr pc op_fetch ;;
    let '(mpa, ent) := r in
    if mpa =? 0 then undefined
    else fun p =>
      (if fetch_access_fault (sm_regs p r_mode) ent then raise_unset rv_cause_fault_fetch pc
       else
         first <- bus_load 32 mpa ;;
         match first with
         | None => raise_unset rv_cause_fault_fetch pc
         | Some inst =>
             if negb (Z.land inst 3 =? 3) then ret (Z.land inst 0xffff, 2)
             else if negb (Z.land inst 28 =? 28) then ret (inst, 4)
             else if Z.land inst 63 =? 31 then fetch_rest 16 pc mpa inst 6
             else if Z.land inst 127 =? 63 then fetch_rest 32 pc mpa inst 8
             else raise_unset rv_cause_fault_fetch pc
         end) p.

Definition mmu_soft_cache : MMU S := {|
  mmu_load := cached_load; mmu_store := cached_store; mmu_store_f := cached_store_f; mmu_amo := cached_amo |}.
End CacheMmu.
