(* ===== verification/CacheSim.v ===== *)
(** * CacheSim: the MMU with the cache against the same MMU over a flat memory. *)

From Stdlib Require Import ZArith Lia Bool List.
From stdpp Require Import base numbers list.
From S2P Require Import Prelude Decode Alu Machine Proxy Csr Tlb Soft Memory Mmu Cache CacheSound CacheCoherent CacheAccess CacheTheorems CacheMmu.

(** ** The flat machine

    Its host memory is physical memory.  What the cache does for an access out of
    RAM, or one whose bytes are in two lines, is not specified. *)
Definition in_ram_b (a : Z) : bool := (0x80000000 <=? a) && (a <? 0xC0000000).
Definition fits_b (g : geometry) (w a : Z) : bool := bus_width w && (a mod 2 ^ g_line g + w / 8 <=? 2 ^ g_line g).

Definition flat_bus (g : geometry) : Bus (soft unit) := {|
  bus_load w a := if in_ram_b a && fits_b g w a then fun p => Ok (Some (read_T w (sm_host p) a)) p else undefined;
  bus_store w a v :=
    if in_ram_b a && fits_b g w a then fun p =>
      Ok false (mkSoft (sm_proc p) (sm_regs p) (sm_itlb p) (sm_dtlb p) (write_bytes (bytes_of w) (sm_host p) a (wrap w v)) tt)
    else undefined |}.

Lemma access_b g w a : in_ram_b a && fits_b g w a = true -> in_ram a /\ fits g w a.
Proof. unfold in_ram_b, fits_b, in_ram, fits. rewrite !andb_true_iff. intros [[H1 H2] [H3 H4]]. repeat split; try lia; assumption. Qed.

(** ** A run of the MMU: accesses and, between them, the processor's steps. *)
Inductive mmu_access :=
  | MLoad (w va : Z) | MStore (w va v : Z) | MAmo (w : Z) (a_op : amo_op) (va v : Z) | MFetch (pc : Z)
  | MStep (f : proc -> proc) (h : pregs -> pregs).

Section Run.
Context {D : Type} `{Bus (soft D)} (xlen : Z).

Definition mmu_access_run (x : mmu_access) : M (soft D) (list Z) :=
  match x with
  | MLoad w va => v <- cached_load xlen w va ;; ret [v]
  | MStore w va v => cached_store xlen w va v ;; ret []
  | MAmo w a_op va v => v <- cached_amo xlen w a_op va v ;; ret [v]
  | MFetch pc => r <- cached_fetch xlen pc ;; ret [r.1; r.2]
  | MStep f h => modify f ;; set_regs h ;; ret []
  end.

Fixpoint mmu_run (l : list mmu_access) : M (soft D) (list (list Z)) :=
  match l with
  | [] => ret []
  | x :: l => r <- mmu_access_run x ;; rs <- mmu_run l ;; ret (r :: rs)
  end.
End Run.

Section Sim.
Context {D : Type} `{HC : HasCacheLaws D} (uva : Z) (devices : list (mem_segment D)) (g : geometry) (Hg : geometry_ok g).
Context (Hu : 0 <= uva /\ uva + default_ram_size <= 2 ^ g_xlen g).
Abbreviation mem := (main_bus (g_xlen g) uva devices).

(** The same processor and TLBs; the cache and RAM hold the flat memory. *)
Record sim (p : soft unit) (q : soft D) : Prop := {
  sim_proc : sm_proc q = sm_proc p; sim_regs : sm_regs q = sm_regs p;
  sim_itlb : sm_itlb q = sm_itlb p; sim_dtlb : sm_dtlb q = sm_dtlb p;
  sim_mem : coherent g (sm_host p) (cache_of q) (main_ram uva q) }.

Definition sim_res {A} (r : res (soft unit) A) (r' : res (soft D) A) : Prop :=
  match r with
  | Ok a p => exists q, r' = Ok a q /\ sim p q
  | Raise c p => exists q, r' = Raise c q /\ sim p q
  | Undefined => True
  end.

Definition refines {A} (m : M (soft unit) A) (m' : M (soft D) A) : Prop := forall p q, sim p q -> sim_res (m p) (m' q).

Lemma refines_ret {A} (a : A) : refines (ret a) (ret a).
Proof using. intros p q Hs. exists q. auto. Qed.

Lemma refines_undefined {A} m' : refines (undefined (A := A)) m'.
Proof using. intros p q _. exact Logic.I. Qed.

Lemma refines_bind {A B} (m : M _ A) m' (k : A -> M _ B) k' :
  refines m m' -> (forall a, refines (k a) (k' a)) -> refines (bind m k) (bind m' k').
Proof using.
  intros Hm Hk p q Hs. specialize (Hm p q Hs). unfold bind. destruct (m p) as [a p1 | c p1 |]; cbn [sim_res] in Hm.
  - destruct Hm as (q1 & -> & H1). apply Hk, H1.
  - destruct Hm as (q1 & -> & H1). exists q1. auto.
  - exact Logic.I.
Qed.

Lemma refines_if {A} (b : bool) (m n : M _ A) m' n' : refines m m' -> refines n n' -> refines (if b then m else n) (if b then m' else n').
Proof using. destruct b; auto. Qed.

(** A change of them. *)
Lemma refines_change (m : M (soft unit) unit) (m' : M (soft D) unit) :
  (forall p q, sim p q -> exists p' q', m p = Ok tt p' /\ m' q = Ok tt q' /\ sm_proc q' = sm_proc p' /\ sm_regs q' = sm_regs p' /\
     sm_itlb q' = sm_itlb p' /\ sm_dtlb q' = sm_dtlb p' /\ sm_host p' = sm_host p /\ sm_host q' = sm_host q /\ sm_dev q' = sm_dev q) -> refines m m'.
Proof using.
  intros Hm p q Hs. destruct (Hm p q Hs) as (p' & q' & -> & -> & H1 & H2 & H3 & H4 & H5 & H6 & H7). exists q'. split; [reflexivity |].
  split; try assumption. unfold main_ram, cache_of. rewrite H5, H6, H7. apply Hs.
Qed.

Lemma refines_modify f : refines (modify f) (modify f).
Proof using. apply refines_change. intros p q Hs. do 2 eexists. do 2 (split; [reflexivity |]). cbn. rewrite (sim_proc _ _ Hs). repeat split; apply Hs. Qed.

Lemma refines_set_regs f : refines (set_regs f) (set_regs f).
Proof using. apply refines_change. intros p q Hs. do 2 eexists. do 2 (split; [reflexivity |]). cbn. rewrite (sim_regs _ _ Hs). repeat split; apply Hs. Qed.

Lemma refines_set_tlb op t : refines (set_tlb op t) (set_tlb op t).
Proof using. apply refines_change. intros p q Hs. destruct op; do 2 eexists; do 2 (split; [reflexivity |]); cbn; repeat split; apply Hs. Qed.

Lemma refines_raise c a : refines (raise c a) (raise c a).
Proof using.
  unfold raise. apply refines_bind; [apply refines_modify | intros _]. apply refines_bind.
  - intros p q Hs. unfold gets. cbn. rewrite (sim_proc _ _ Hs). exists q. auto.
  - intros [|]; [| apply refines_modify]. intros p q Hs. exists q. auto.
Qed.

Lemma refines_get_reg r : refines (get_reg r) (get_reg r).
Proof using. intros p q Hs. unfold get_reg. rewrite (sim_regs _ _ Hs). exists q. auto. Qed.

(** ** The bus *)
Instance sim_cache_memory : CacheMemory mem (main_ram uva) := main_cache_memory (g_xlen g) uva devices (go_xlen g Hg) Hu.

Lemma does_sim {A} (m' : M (soft D) A) a c' f' M' p q : sim p q ->
  does (main_ram uva) m' (cache_of q) (main_ram uva q) a c' f' -> coherent g M' c' f' ->
  exists q', m' q = Ok a q' /\ sim (mkSoft (sm_proc p) (sm_regs p) (sm_itlb p) (sm_dtlb p) M' tt) q'.
Proof using.
  intros Hs Hd Hc. destruct (Hd q (conj eq_refl (fun a _ => eq_refl))) as (q' & E & (S1 & S2 & S3 & S4) & Ec & Ef).
  exists q'. split; [exact E |]. split; cbn; [rewrite S1 | rewrite S2 | rewrite S3 | rewrite S4 |]; try apply Hs.
  rewrite Ec. apply (coherent_ram g (-1) M' c' f'); [exact Hc |]. intros b Hb. left. apply Ef, Hb.
Qed.

Lemma refines_load w a : refines (bus_load (Bus := flat_bus g) w a) (bus_load (Bus := cache_bus mem g) w a).
Proof using HC Hg Hu.
  intros p q Hs. cbn [bus_load flat_bus cache_bus]. destruct (in_ram_b a && fits_b g w a) eqn:E; [| exact Logic.I].
  apply access_b in E as [Ha Hw]. destruct (cache_load_does mem g Hg (main_ram uva) _ _ _ w a (sim_mem _ _ Hs) Ha Hw) as (c' & f' & Hd & Hc & _).
  destruct (does_sim _ _ _ _ _ p q Hs Hd Hc) as (q' & -> & Hs'). exists q'. split; [reflexivity |]. destruct p as [? ? ? ? ? []]. exact Hs'.
Qed.

Lemma refines_store w a v : refines (bus_store (Bus := flat_bus g) w a v) (bus_store (Bus := cache_bus mem g) w a v).
Proof using HC Hg Hu.
  intros p q Hs. cbn [bus_store flat_bus cache_bus]. destruct (in_ram_b a && fits_b g w a) eqn:E; [| exact Logic.I].
  apply access_b in E as [Ha Hw]. destruct (cache_store_does mem g Hg (main_ram uva) _ _ _ w a v (sim_mem _ _ Hs) Ha Hw) as (c' & f' & Hd & Hc & _).
  destruct (does_sim _ _ _ _ _ p q Hs Hd Hc) as (q' & -> & Hs'). exists q'. auto.
Qed.

(** ** The MMU *)
#[local] Instance bus_flat : Bus (soft unit) := flat_bus g.
#[local] Instance bus_cached : Bus (soft D) := cache_bus mem g.

Ltac refines_step :=
  match goal with
  | |- refines (ret _) (ret _) => apply refines_ret
  | |- refines undefined _ => apply refines_undefined
  | |- refines (raise _ _) _ => apply refines_raise
  | |- refines (get_reg _) _ => apply refines_get_reg
  | |- refines (set_tlb _ _) _ => apply refines_set_tlb
  | |- refines (modify _) _ => apply refines_modify
  | |- refines (set_regs _) _ => apply refines_set_regs
  | |- refines (bus_load _ _) _ => apply refines_load
  | |- refines (bus_store _ _ _) _ => apply refines_store
  | |- refines (bind _ _) (bind _ _) => apply refines_bind; [| intros ?]
  | |- refines (if ?b then _ else _) _ => apply refines_if
  | |- refines (match ?x with _ => _ end) _ => destruct x
  | |- refines (let _ := _ in _) _ => cbv zeta
  end.
(** A computation that reads the processor or the TLBs. *)
Ltac refines_core p q Hs :=
  intros p q Hs; unfold asid; rewrite ?(sim_regs p q Hs), ?(sim_itlb p q Hs), ?(sim_dtlb p q Hs);
  repeat match goal with
  | |- sim_res (if ?b then _ else _) _ => destruct b
  | |- sim_res (match ?x with _ => _ end) _ => destruct x
  | |- sim_res (Ok _ _) (Ok _ _) => exists q; split; [reflexivity | exact Hs]
  end;
  try match goal with |- sim_res (?m p) (?m' q) => refine ((_ : refines m m') p q Hs) end.

Lemma refines_faulted op va pte level : refines (walk_faulted op va pte level) (walk_faulted op va pte level).
Proof using. unfold walk_faulted, walk_fault. destruct op; repeat refines_step. Qed.

Lemma refines_offset t ppn va level : refines (page_translate_offset (g_xlen g) t ppn va level) (page_translate_offset (g_xlen g) t ppn va level).
Proof using. unfold page_translate_offset. repeat refines_step. Qed.

Lemma refines_leaf t op va a pte level shift :
  refines (cached_walk_leaf (g_xlen g) t op va a pte level shift) (cached_walk_leaf (g_xlen g) t op va a pte level shift).
Proof using HC Hg Hu. unfold cached_walk_leaf. repeat (refines_step || apply refines_faulted || apply refines_offset). Qed.

Lemma refines_levels fuel : forall t op va ppn level,
  refines (cached_walk_levels (g_xlen g) fuel t op va ppn level) (cached_walk_levels (g_xlen g) fuel t op va ppn level).
Proof using HC Hg Hu.
  induction fuel as [| fuel IH]; intros t op va ppn level; cbn [cached_walk_levels]; [apply refines_undefined |].
  repeat (refines_step || apply refines_faulted || apply refines_leaf || apply IH).
Qed.

Lemma refines_insert t va op pa pte level : refines (cached_insert (g_xlen g) t va op pa pte level) (cached_insert (g_xlen g) t va op pa pte level).
Proof using.
  unfold cached_insert. intros p q Hs. replace (tlb_of op q) with (tlb_of op p) by (destruct op; cbn; symmetry; apply Hs). revert p q Hs.
  refines_core p q Hs; repeat refines_step.
Qed.

Lemma refines_walk t va op : refines (cached_walk (g_xlen g) t va op) (cached_walk (g_xlen g) t va op).
Proof using HC Hg Hu. unfold cached_walk. repeat (refines_step || apply refines_levels). Qed.

Lemma refines_miss t va op ent : refines (cached_tlb_miss (g_xlen g) t va op ent) (cached_tlb_miss (g_xlen g) t va op ent).
Proof using HC Hg Hu. unfold cached_tlb_miss. repeat (apply refines_walk || refines_step || apply refines_insert). Qed.

Lemma refines_page t va op : refines (cached_page_translate (g_xlen g) t va op) (cached_page_translate (g_xlen g) t va op).
Proof using HC Hg Hu.
  unfold cached_page_translate. cbv zeta. intros p q Hs. replace (tlb_of op q) with (tlb_of op p) by (destruct op; cbn; symmetry; apply Hs). revert p q Hs.
  refines_core p q Hs; repeat (refines_step || apply refines_miss || apply refines_offset).
Qed.

Lemma refines_translate va op : refines (cached_translate_addr (g_xlen g) va op) (cached_translate_addr (g_xlen g) va op).
Proof using HC Hg Hu.
  unfold cached_translate_addr. refines_core p q Hs. cbn [switch]. repeat (apply refines_page || refines_step).
Qed.

Lemma refines_checked_load w mpa ent : refines (checked_load w mpa ent) (checked_load w mpa ent).
Proof using HC Hg Hu. unfold checked_load. refines_core p q Hs. apply refines_load. Qed.

Lemma refines_checked_store w mpa v ent : refines (checked_store w mpa v ent) (checked_store w mpa v ent).
Proof using HC Hg Hu. unfold checked_store. refines_core p q Hs. apply refines_store. Qed.

Lemma refines_unset {A} c va : refines (raise_unset (A := A) c va) (raise_unset c va).
Proof using. unfold raise_unset. repeat refines_step. Qed.

Ltac refines_all := repeat (apply refines_translate || apply refines_unset || apply refines_checked_load || apply refines_checked_store || refines_step).

Lemma refines_mmu_load w va : refines (cached_load (g_xlen g) w va) (cached_load (g_xlen g) w va).
Proof using HC Hg Hu. unfold cached_load. refines_all. Qed.

Lemma refines_mmu_store w va v : refines (cached_store (g_xlen g) w va v) (cached_store (g_xlen g) w va v).
Proof using HC Hg Hu. unfold cached_store, cached_store_with. refines_all. Qed.

Lemma refines_mmu_amo w a_op va v : refines (cached_amo (g_xlen g) w a_op va v) (cached_amo (g_xlen g) w a_op va v).
Proof using HC Hg Hu. unfold cached_amo. refines_all. Qed.

Lemma refines_fetch pc : refines (cached_fetch (g_xlen g) pc) (cached_fetch (g_xlen g) pc).
Proof using HC Hg Hu.
  unfold cached_fetch. apply refines_if; [apply refines_unset |]. apply refines_bind; [apply refines_translate |]. intros [mpa ent].
  apply refines_if; [apply refines_undefined |]. refines_core p q Hs; unfold fetch_rest; refines_all.
Qed.

Lemma refines_run l : refines (mmu_run (g_xlen g) l) (mmu_run (g_xlen g) l).
Proof using HC Hg Hu.
  induction l as [| x l IH]; cbn [mmu_run]; [apply refines_ret |]. apply refines_bind.
  - destruct x; cbn [mmu_access_run]; repeat (apply refines_mmu_load || apply refines_mmu_store || apply refines_mmu_amo || apply refines_fetch || refines_step).
  - intros r. apply refines_bind; [exact IH | intros rs; apply refines_ret].
Qed.
End Sim.

(** The flat machine of a machine with a cache. *)
Definition flat_of {D} (uva : Z) (q : soft D) : soft unit :=
  mkSoft (sm_proc q) (sm_regs q) (sm_itlb q) (sm_dtlb q) (main_ram uva q) tt.

(** The MMU with the cache ([emu/mmu-soft-cache.h]) over main memory behaves as
    the same MMU over a flat physical memory.  From a machine with an empty
    cache, every sequence of loads, stores, atomic operations and fetches by
    virtual address, page-table walks included, and of steps of the processor
    between them, gives the same values, the same exceptions, and the same
    processor, registers and TLBs, as long as the physical accesses of the flat
    machine are in RAM and have their bytes in one line. *)
Theorem cached_mmu_refines {D} `{HC : HasCacheLaws D} g policy uva (devices : list (mem_segment D)) l q :
  geometry_ok g -> policy = cache_write_through \/ policy = cache_write_back ->
  0 <= uva /\ uva + default_ram_size <= 2 ^ g_xlen g -> cache_of q = new_cache g policy ->
  match mmu_run (H := flat_bus g) (g_xlen g) l (flat_of uva q) with
  | Ok rs p => exists q', mmu_run (H := cache_bus (main_bus (g_xlen g) uva devices) g) (g_xlen g) l q = Ok rs q' /\ sim uva g p q'
  | Raise c p => exists q', mmu_run (H := cache_bus (main_bus (g_xlen g) uva devices) g) (g_xlen g) l q = Raise c q' /\ sim uva g p q'
  | Undefined => True
  end.
Proof.
  intros Hg Hp Hu Ec. apply (refines_run uva devices g Hg Hu l (flat_of uva q) q). split; try reflexivity.
  apply (new_cache_main uva g policy q Hg Hp Ec).
Qed.

(** A page table is made in RAM: virtual address 0 is at 0x80200000. *)
Definition demo_paging : list mmu_access :=
  [MStore 64 0x80001000 0x20000801; MStore 64 0x80002000 0x200800cf;
   MStep (fun b => b) (fun rs => pregs_set r_mode 1 (pregs_set r_mstatus (Z.shiftl rv_vm_sv39 24) (pregs_set r_sptbr 0x80001 rs)));
   MStore 64 0x10 0x0000000700000013; MFetch 0x10; MAmo 32 amoadd 0x14 5; MLoad 64 0x10].

Lemma cached_mmu_run_example :
  match mmu_run (H := flat_bus cache_type_rv64) 64 demo_paging (flat_of 0 (demo_cached cache_type_rv64 cache_write_through)) with
  | Ok rs p => rs = [[]; []; []; []; [0x13; 4]; [7]; [0x0000000c00000013]] /\
      exists q', mmu_run (H := cache_bus (main_bus 64 0 []) cache_type_rv64) 64 demo_paging (demo_cached cache_type_rv64 cache_write_through) = Ok rs q' /\
        sim 0 cache_type_rv64 p q'
  | _ => False
  end.
Proof.
  assert (Hg : geometry_ok cache_type_rv64) by apply cache_types_ok.
  pose proof (cached_mmu_refines cache_type_rv64 cache_write_through 0 [] demo_paging (demo_cached cache_type_rv64 cache_write_through)
    Hg (or_introl eq_refl) ltac:(split; [reflexivity | apply Z.leb_le; reflexivity]) eq_refl) as Hr.
  assert (E : match mmu_run (H := flat_bus cache_type_rv64) 64 demo_paging (flat_of 0 (demo_cached cache_type_rv64 cache_write_through)) with
    Ok rs _ => bool_decide (rs = [[]; []; []; []; [0x13; 4]; [7]; [0x0000000c00000013]]) | _ => false end = true) by (vm_compute; reflexivity).
  destruct (mmu_run _ demo_paging (flat_of _ _)) as [rs p | c p |]; [| discriminate E..]. split; [| exact Hr].
  apply bool_decide_eq_true in E. exact E.
Defined.
