(* ===== verification/CacheSpec.v ===== *)
(** * CacheSpec: what the MMU with the cache promises.

    The loads, stores and fetches of RV64 through Sv39 or Sv48 pages, as the
    privileged specification defines them on a flat physical memory, and the MMU
    of [emu/mmu-soft-cache.h] over the flat memory; CacheSim.v puts the cache
    below it. *)

From Stdlib Require Import ZArith Lia Bool List.
From stdpp Require Import base numbers list.
From S2P Require Import Prelude Decode Codec Alu Machine Proxy Csr Tlb Soft Memory Mmu MmuSound MmuSpec Cache CacheSound CacheCoherent CacheAccess CacheTheorems CacheMmu CacheSim.

(** ** The specification *)
Section Spec.
Context (g : geometry) (t : ptm).
Abbreviation machine := (soft unit).

(** RAM where the cache has the value in one line. *)
Definition ram_b (w a : Z) : bool := in_ram_b a && fits_b g w a.

(** A PTE in RAM; one elsewhere is not specified and reads as an invalid one
    that has no permissions, for which nothing is specified. *)
Definition flat_pte (mem : Z -> Z) (a : Z) : option Z :=
  Some (if ram_b 64 a then read_T 64 mem a else 0).

Definition vm_walk (p : machine) (va : Z) : pt_outcome :=
  spec_walk t (flat_pte (sm_host p)) va (root p) (Z.to_nat (ptm_levels t - 1)).

Definition vm_lookup (op : mmu_op) (va : Z) (p : machine) : option tlb_entry :=
  tlb_lookup (tlb_of op p) (sm_regs p r_pdid) (asid 64 p) va.

(** The TLB's entry for the page, if it has one, is what the page table says. *)
Definition tlb_agrees (op : mmu_op) (va : Z) (p : machine) : Prop :=
  match vm_lookup op va p, vm_walk p va with
  | None, _ => True
  | Some e, PtLeaf _ pte lvl => e = entry t p va pte lvl
  | Some _, _ => False
  end.

(** The machine after a translation: an entry that has not all the flags the
    access sets is used as it is, and otherwise the page is entered. *)
Definition vm_filled (op : mmu_op) (va pte : Z) (lvl : nat) (p : machine) : machine :=
  match vm_lookup op va p with
  | Some _ => if Z.land (pte_flags pte) (ad_flags op) =? ad_flags op then filled t op va pte lvl p else p
  | None => filled t op va pte lvl p
  end.

Definition vm_access {A} (op : mmu_op) (va : Z) (k : Z -> machine -> res machine A) (p : machine) : res machine A :=
  match vm_walk p va with
  | PtLeaf _ pte lvl =>
      let q := vm_filled op va pte lvl p in
      if spec_pa t va pte lvl =? 0 then Undefined
      else if spec_allowed op (sm_regs p r_mode) (flag_set bf_mxr (sm_regs p)) (flag_set bf_pum (sm_regs p)) pte
      then k (spec_pa t va pte lvl) q
      else Raise (fault_cause op) (faulted op va q)
  | PtFault => Raise (fault_cause op) (faulted op va p)
  | PtInvalid | PtDeep => Undefined
  end.

Definition vm_load (w va : Z) (p : machine) : res machine Z :=
  if negb (va mod (w / 8) =? 0) then Raise rv_cause_misaligned_load (faulted op_load va p)
  else vm_access op_load va (fun pa q => if ram_b w pa then Ok (read_T w (sm_host q) pa) q else Undefined) p.

Definition vm_store (w va v : Z) (p : machine) : res machine unit :=
  if negb (va mod (w / 8) =? 0) then Raise rv_cause_misaligned_store (faulted op_store va p)
  else vm_access op_store va (fun pa q =>
    if ram_b w pa
    then Ok tt (mkSoft (sm_proc q) (sm_regs q) (sm_itlb q) (sm_dtlb q) (write_bytes (bytes_of w) (sm_host q) pa (wrap w v)) tt)
    else Undefined) p.

(** The bytes of an instruction, as many as its first ones say. *)
Definition vm_fetch (pc : Z) (p : machine) : res machine (Z * Z) :=
  if negb (pc mod 2 =? 0) then Raise rv_cause_misaligned_fetch (faulted op_fetch pc p)
  else vm_access op_fetch pc (fun pa q =>
    if ram_b 32 pa then
      let len := inst_length (read_T 32 (sm_host q) pa) in
      if len =? 0 then Raise rv_cause_fault_fetch (faulted op_fetch pc q)
      else if (len <=? 4) || ram_b (8 * (len - 4)) (pa + 4)
      then Ok (read_bytes (Z.to_nat len) (sm_host q) pa, len) q
      else Undefined
    else Undefined) p.
End Spec.

(** ** Bytes *)
Lemma read_bytes_app n m mem a :
  read_bytes (n + m) mem a = read_bytes n mem a + read_bytes m mem (a + Z.of_nat n) * 2 ^ (8 * Z.of_nat n).
Proof.
  revert a. induction n as [| n IH]; intros a; [cbn [Nat.add read_bytes]; rewrite Z.add_0_r; change (2 ^ _) with 1; lia |].
  cbn [Nat.add read_bytes]. rewrite IH, !Z.shiftl_mul_pow2 by lia. replace (a + 1 + Z.of_nat n) with (a + Z.of_nat (S n)) by lia.
  replace (8 * Z.of_nat (S n)) with (8 * Z.of_nat n + 8) by lia. rewrite Z.pow_add_r by lia. ring.
Qed.

Lemma read_T_bytes n mem a : read_T (8 * Z.of_nat n) mem a = read_bytes n mem a.
Proof.
  unfold read_T, bytes_of. rewrite Z.mul_comm, Z.div_mul, Nat2Z.id by lia. apply wrap_small.
  rewrite Z.mul_comm. apply read_bytes_range.
Qed.

Lemma first_half mem a : Z.land (read_T 32 mem a) 0xffff = read_bytes 2 mem a.
Proof.
  change 32 with (8 * Z.of_nat 4). rewrite read_T_bytes. change 4%nat with (2 + 2)%nat. rewrite read_bytes_app.
  change 0xffff with (Z.ones 16). rewrite Z.land_ones by lia. change (8 * Z.of_nat 2) with 16.
  rewrite Z.mod_add by lia. apply Z.mod_small. apply (read_bytes_range 2).
Qed.

Lemma joined n mem a : Z.lor (read_T 32 mem a) (Z.shiftl (read_T (8 * Z.of_nat n) mem (a + 4)) 32) = read_bytes (4 + n) mem a.
Proof.
  rewrite read_T_bytes. change 32 with (8 * Z.of_nat 4) at 1. rewrite read_T_bytes, read_bytes_app.
  change (8 * Z.of_nat 4) with 32. change (Z.of_nat 4) with 4. rewrite Z.shiftl_mul_pow2 by lia.
  pose proof (read_bytes_range 4 mem a) as Hr. change (8 * Z.of_nat 4) with 32 in Hr.
  set (x := read_bytes 4 mem a) in *. set (y := read_bytes n mem (a + 4)).
  rewrite <- (Z.mod_small x (2 ^ 32) Hr) at 1. symmetry.
  rewrite Z.add_nocarry_lxor, Z.lxor_lor; rewrite ?(Z.mod_small x (2 ^ 32) Hr); try reflexivity;
    (bitwise i Hi; rewrite Z.bits_0, Z.mul_pow2_bits by lia; destruct (Z.ltb_spec i 32);
     [rewrite (Z.testbit_neg_r y) by lia; apply andb_false_r
     | rewrite <- (Z.mod_small x (2 ^ 32) Hr), Z.mod_pow2_bits_high by lia; reflexivity]).
Qed.

(** ** The MMU over the flat memory *)
Section Flat.
Context (g : geometry) (t : ptm) (Ht : ptm64 t).
#[local] Instance spec_bus : Bus (soft unit) := flat_bus g.

(** An outcome that is specified is the code's. *)
Definition implements {A} (r r' : res (soft unit) A) : Prop := r = Undefined \/ r' = r.

Lemma flat_load w a p : ram_b g w a = true -> bus_load w a p = Ok (Some (read_T w (sm_host p) a)) p.
Proof using. unfold ram_b. intros E. cbn [bus_load spec_bus flat_bus]. rewrite E. reflexivity. Qed.

Lemma flat_leaf_spec op va a pte i p :
  (i < 4)%nat -> ram_b g 64 a = true -> read_T 64 (sm_host p) a = pte ->
  cached_walk_leaf 64 t op va a pte (Z.of_nat i) (level_shift 64 t (Z.of_nat i)) p =
  if pte_ppn t pte mod 2 ^ (ptm_bits t * Z.of_nat i) =? 0 then Ok (spec_pa t va pte i, pte, Z.of_nat i) p
  else walk_faulted op va pte (Z.of_nat i) p.
Proof using Ht.
  intros Hi Hr Hp. destruct (aligned_spec t pte i Ht Hi) as (Es & Hlt & El).
  unfold cached_walk_leaf. rewrite Es, El. apply Z.ltb_lt in Hlt. rewrite Hlt.
  destruct (Z.eqb_spec (pte_ppn t pte mod 2 ^ (ptm_bits t * Z.of_nat i)) 0) as [Hal | Hal]; cbn [negb]; [| reflexivity].
  cbv zeta. rewrite (ptm_size_spec t Ht), offset_spec by assumption. destruct (_ =? ad_flags op); [reflexivity |].
  unfold bind at 1. rewrite flat_load, Hp, offset_spec by assumption. reflexivity.
Qed.

Lemma flat_levels_spec op va p : forall i fuel a,
  (i < 4)%nat -> (i < fuel)%nat -> 0 <= a < 2 ^ 51 ->
  match spec_walk t (flat_pte g (sm_host p)) va a i with
  | PtLeaf _ pte lvl => cached_walk_levels 64 fuel t op va a (Z.of_nat i) p = Ok (spec_pa t va pte lvl, pte, Z.of_nat lvl) p
  | PtFault => exists pte lvl, cached_walk_levels 64 fuel t op va a (Z.of_nat i) p = walk_faulted op va pte lvl p
  | PtInvalid | PtDeep => True
  end.
Proof using Ht.
  induction i as [| i IH]; intros fuel a Hi Hf Ha; (destruct fuel as [| fuel]; [lia |]);
    cbn [spec_walk cached_walk_levels]; cbv zeta; rewrite level_shift_spec by assumption;
    rewrite spec_vpn_shift by assumption; rewrite (ptm_bits_spec t Ht), (ptm_size_spec t Ht);
    match goal with |- context [spec_vpn t va ?k] => pose proof (spec_vpn_range t va k Ht) as Hv end;
    change (64 / 8) with 8; rewrite (wrap_small 64 (a + _)) by lia;
    (match goal with |- context [?s <? 64] => destruct (Z.ltb_spec s 64); [| lia] end);
    unfold flat_pte at 1; (destruct (ram_b g 64 _) eqn:Er; [| exact I]);
    unfold bind at 1 2; rewrite (flat_load 64 _ p Er); set (pte0 := read_T 64 _ _);
    unfold pte_shift_V, pte_shift_R, pte_shift_W, pte_shift_X; rewrite has_rx;
    destruct (Z.testbit pte0 0), (Z.testbit pte0 1), (Z.testbit pte0 2), (Z.testbit pte0 3);
    cbn [negb orb andb];
    try match goal with |- True => exact Logic.I | |- exists _ _, _ => eauto end;
    try (rewrite <- (ptm_bits_spec t Ht) in *; rewrite <- (level_shift_spec t) by assumption;
      rewrite flat_leaf_spec by (assumption || reflexivity); destruct (_ =? 0); eauto).
  pose proof (pte_ppn_range t pte0 Ht). replace (Z.of_nat (S i) - 1) with (Z.of_nat i) by lia.
  rewrite pte_addr_spec, wrap_small by (assumption || lia). apply IH; lia.
Qed.

Lemma flat_walk_spec op va p :
  match vm_walk g t p va with
  | PtLeaf _ pte lvl => cached_walk 64 t va op p = Ok (spec_pa t va pte lvl, pte, Z.of_nat lvl) p
  | PtFault => exists pte lvl, cached_walk 64 t va op p = walk_faulted op va pte lvl p
  | PtInvalid | PtDeep => True
  end.
Proof using Ht.
  unfold cached_walk, bind, get_reg, vm_walk. pose proof (root_range p) as Hr.
  replace (wrap 64 _) with (root p).
  2:{ unfold root, ppn_bits, page_shift in *. cbn [Z.eqb Pos.eqb].
      rewrite Z.land_ones, Z.shiftl_mul_pow2 by lia. symmetry. apply wrap_small. lia. }
  replace (ptm_levels t - 1) with (Z.of_nat (Z.to_nat (ptm_levels t - 1))) by (destruct Ht as [-> | ->]; reflexivity).
  rewrite Nat2Z.id. apply flat_levels_spec; [destruct Ht as [-> | ->]; apply Nat.ltb_lt; reflexivity .. | lia].
Qed.

Lemma walk_leaf_aligned f va pte_a pte lvl : forall i a,
  spec_walk t f va a i = PtLeaf pte_a pte lvl ->
  (lvl <= i)%nat /\ pte_ppn t pte mod 2 ^ (ptm_bits t * Z.of_nat lvl) = 0.
Proof using.
  induction i as [| i IH]; intros a; cbn [spec_walk]; cbv zeta; (destruct (f _) as [pte0 |]; [| discriminate]);
    destruct (Z.testbit pte0 0), (Z.testbit pte0 1), (Z.testbit pte0 2), (Z.testbit pte0 3);
    cbn [negb orb andb]; try discriminate;
    try (match goal with |- context [?x =? 0] => destruct (Z.eqb_spec x 0) as [Hal |]; [| discriminate] end;
      intros [= <- <- <-]; split; [lia | exact Hal]).
  intros E. apply IH in E as [? ?]. split; [lia | assumption].
Qed.

Lemma vm_leaf p va pte_a pte lvl :
  vm_walk g t p va = PtLeaf pte_a pte lvl -> (lvl < 4)%nat /\ pte_ppn t pte mod 2 ^ (ptm_bits t * Z.of_nat lvl) = 0.
Proof using Ht.
  intros E. apply walk_leaf_aligned in E as [Hl Ha]. split; [| exact Ha].
  destruct Ht as [-> | ->]; change (Z.to_nat _) with 2%nat in Hl || change (Z.to_nat _) with 3%nat in Hl; lia.
Qed.

Lemma entry_fields (p : soft unit) va pte lvl : (lvl < 4)%nat ->
  te_ppn (entry t p va pte lvl) = pte_ppn t pte /\ te_ptel (entry t p va pte lvl) = Z.of_nat lvl.
Proof using Ht.
  intros Hl. unfold entry, tlb_entry_make. cbn [te_ppn te_ptel]. pose proof (pte_ppn_range t pte Ht).
  rewrite !wrap_small; [auto | lia | exact H].
Qed.

(** ** Translation *)
Lemma flat_miss op va ent p : exceptions (sm_proc p) = true ->
  match vm_walk g t p va with
  | PtLeaf _ pte lvl => spec_pa t va pte lvl <> 0 ->
      cached_tlb_miss 64 t va op ent p = Ok (spec_pa t va pte lvl, Some (entry t p va pte lvl)) (filled t op va pte lvl p)
  | PtFault => cached_tlb_miss 64 t va op ent p = Raise (fault_cause op) (faulted op va p)
  | PtInvalid | PtDeep => True
  end.
Proof using Ht.
  intros He. pose proof (flat_walk_spec op va p) as Hw. destruct (vm_walk g t p va) as [pte_a pte lvl | | |]; try exact Hw.
  - intros Hpa. unfold cached_tlb_miss, bind. rewrite Hw. apply Z.eqb_neq in Hpa. rewrite Hpa.
    unfold cached_insert, filled, with_tlb, set_tlb, tlb_insert, entry, bind, ret. destruct op; rewrite Z.eqb_refl; reflexivity.
  - destruct Hw as (pte & lvl & Hw). unfold cached_tlb_miss, bind. rewrite Hw, walk_faulted_raises by exact He. reflexivity.
Qed.

Lemma flat_page op va p : exceptions (sm_proc p) = true -> tlb_agrees g t op va p ->
  match vm_walk g t p va with
  | PtLeaf _ pte lvl => spec_pa t va pte lvl <> 0 ->
      cached_page_translate 64 t va op p = Ok (spec_pa t va pte lvl, Some (entry t p va pte lvl)) (vm_filled t op va pte lvl p)
  | PtFault => cached_page_translate 64 t va op p = Raise (fault_cause op) (faulted op va p)
  | PtInvalid | PtDeep => True
  end.
Proof using Ht.
  intros He Ha. unfold cached_page_translate, tlb_agrees, vm_filled in *. cbv zeta.
  pose proof (flat_miss op va (vm_lookup op va p) p He) as Hm. fold (vm_lookup op va p).
  destruct (vm_walk g t p va) as [pte_a pte lvl | | |] eqn:Ew; try exact Hm;
    (destruct (vm_lookup op va p) as [e |] eqn:El; [| exact Hm]); [| contradiction].
  subst e. rewrite entry_pteb. destruct (_ =? ad_flags op) eqn:Ef; [exact Hm |]. intros Hpa.
  destruct (vm_leaf p va pte_a pte lvl Ew) as [Hl Hal]. destruct (entry_fields p va pte lvl Hl) as [-> ->].
  unfold bind. rewrite offset_spec by assumption. reflexivity.
Qed.

Lemma flat_translate op va p : exceptions (sm_proc p) = true -> translating t p -> tlb_agrees g t op va p ->
  match vm_walk g t p va with
  | PtLeaf _ pte lvl => spec_pa t va pte lvl <> 0 ->
      cached_translate_addr 64 va op p = Ok (spec_pa t va pte lvl, Some (entry t p va pte lvl)) (vm_filled t op va pte lvl p)
  | PtFault => cached_translate_addr 64 va op p = Raise (fault_cause op) (faulted op va p)
  | PtInvalid | PtDeep => True
  end.
Proof using Ht.
  intros He [Hmode Hvm] Ha. replace (cached_translate_addr 64 va op p) with (cached_page_translate 64 t va op p); [apply flat_page; assumption |].
  unfold cached_translate_addr.
  assert (Em : effective_mode (sm_regs p) op = sm_regs p r_mode).
  { unfold effective_mode. destruct (Z.leb_spec rv_mode_M (sm_regs p r_mode)); [lia | reflexivity]. }
  rewrite Em. destruct (Z.leb_spec rv_mode_M (sm_regs p r_mode)); [lia |]. rewrite Hvm. destruct Ht as [-> | ->]; reflexivity.
Qed.

(** ** Accesses *)
Lemma vm_filled_core op va pte lvl (p : soft unit) :
  sm_proc (vm_filled t op va pte lvl p) = sm_proc p /\ sm_regs (vm_filled t op va pte lvl p) = sm_regs p.
Proof using.
  unfold vm_filled. destruct (vm_lookup op va p); [destruct (_ =? ad_flags op) |]; rewrite ?proc_filled, ?regs_filled; auto.
Qed.

(** What the translation of an access is followed by: nothing for physical
    address 0, and otherwise a check of the entry. *)
Lemma flat_access {A} op va p (k : Z -> soft unit -> res (soft unit) A) (zero : M (soft unit) A) (body : Z -> option tlb_entry -> M (soft unit) A) :
  exceptions (sm_proc p) = true -> translating t p -> tlb_agrees g t op va p ->
  (forall pa ent q, exceptions (sm_proc q) = true -> access_fault op (sm_regs q) (sm_regs q r_mode) ent = true ->
     body pa ent q = Raise (fault_cause op) (faulted op va q)) ->
  (forall pa ent q, exceptions (sm_proc q) = true -> access_fault op (sm_regs q) (sm_regs q r_mode) ent = false ->
     implements (k pa q) (body pa ent q)) ->
  implements (vm_access g t op va k p)
    ((r <- cached_translate_addr 64 va op ;; let '(mpa, ent) := r in if mpa =? 0 then zero else body mpa ent) p).
Proof using Ht.
  intros He Htr Ha Hbad Hgood. pose proof (flat_translate op va p He Htr Ha) as Hx. unfold vm_access, bind.
  destruct (vm_walk g t p va) as [pte_a pte lvl | | |] eqn:Ew; try (left; reflexivity).
  - destruct (Z.eqb_spec (spec_pa t va pte lvl) 0) as [Hpa | Hpa]; [left; reflexivity |].
    rewrite Hx by exact Hpa. apply Z.eqb_neq in Hpa. rewrite Hpa.
    destruct (vm_filled_core op va pte lvl p) as [Ep Er]. set (q := vm_filled t op va pte lvl p) in *.
    assert (Hf : access_fault op (sm_regs q) (sm_regs q r_mode) (Some (entry t p va pte lvl)) =
      negb (spec_allowed op (sm_regs p r_mode) (flag_set bf_mxr (sm_regs p)) (flag_set bf_pum (sm_regs p)) pte)).
    { rewrite (access_fault_spec _ _ _ _ pte), Er by apply entry_pteb. reflexivity. }
    destruct (spec_allowed _ _ _ _ _); cbn [negb] in Hf; [apply Hgood | right; apply Hbad]; rewrite ?Ep; assumption.
  - right. rewrite Hx. reflexivity.
Qed.

Lemma misaligned_mod w va : bus_width w = true -> misaligned w va = negb (va mod (w / 8) =? 0).
Proof using.
  unfold bus_width, misaligned. intros Hw. f_equal. f_equal.
  assert (E : exists k, 0 <= k /\ w / 8 = 2 ^ k).
  { rewrite !orb_true_iff, !Z.eqb_eq in Hw. destruct Hw as [[[-> | ->] | ->] | ->]; [exists 0 | exists 1 | exists 2 | exists 3]; split; (lia || reflexivity). }
  destruct E as (k & Hk & ->). replace (2 ^ k - 1) with (Z.ones k) by (rewrite Z.ones_equiv; lia). apply Z.land_ones, Hk.
Qed.

Lemma flat_load_spec w va p :
  bus_width w = true -> exceptions (sm_proc p) = true -> translating t p -> tlb_agrees g t op_load va p ->
  implements (vm_load g t w va p) (cached_load 64 w va p).
Proof using Ht.
  intros Hw He Htr Ha. unfold vm_load, cached_load. rewrite misaligned_mod by exact Hw.
  destruct (negb _); [right; unfold raise_unset; rewrite raise_then by exact He; reflexivity |].
  apply (flat_access op_load va p _ _ (fun mpa ent => v <- checked_load w mpa ent ;;
    match v with Some v => ret v | None => raise_unset rv_cause_fault_load va end)); try assumption; unfold checked_load, bind;
    cbn [access_fault]; intros pa ent q Heq ->.
  - unfold raise_unset. rewrite raise_then by exact Heq. reflexivity.
  - destruct (ram_b g w pa) eqn:Er; [right; rewrite flat_load by exact Er; reflexivity | left; reflexivity].
Qed.

Lemma flat_store_spec w va v p :
  bus_width w = true -> exceptions (sm_proc p) = true -> translating t p -> tlb_agrees g t op_store va p ->
  implements (vm_store g t w va v p) (cached_store 64 w va v p).
Proof using Ht.
  intros Hw He Htr Ha. unfold vm_store, cached_store, cached_store_with. rewrite misaligned_mod by exact Hw.
  destruct (negb _); [right; rewrite raise_exceptions by exact He; reflexivity |].
  apply (flat_access op_store va p _ _ (fun mpa ent => err <- checked_store w mpa v ent ;;
    if err : bool then raise rv_cause_fault_store va else ret tt)); try assumption; unfold checked_store, bind;
    cbn [access_fault]; intros pa ent q Heq ->.
  - rewrite raise_exceptions by exact Heq. reflexivity.
  - unfold ram_b. destruct (in_ram_b pa && fits_b g w pa) eqn:Er; [right | left; reflexivity].
    cbn [bus_store spec_bus flat_bus]. rewrite Er. reflexivity.
Qed.

Lemma flat_fetch_spec pc p :
  exceptions (sm_proc p) = true -> translating t p -> tlb_agrees g t op_fetch pc p ->
  implements (vm_fetch g t pc p) (cached_fetch 64 pc p).
Proof using Ht.
  intros He Htr Ha. unfold vm_fetch, cached_fetch. rewrite misaligned_mod by reflexivity. change (16 / 8) with 2.
  destruct (negb _); [right; unfold raise_unset; rewrite raise_then by exact He; reflexivity |].
  match goal with |- implements _ (bind _ (fun r => let '(mpa, ent) := r in if mpa =? 0 then undefined else @?body mpa ent) p) =>
    apply (flat_access op_fetch pc p _ undefined body) end; try assumption;
    cbn [access_fault]; intros pa ent q Heq ->.
  - unfold raise_unset. rewrite raise_then by exact Heq. reflexivity.
  - unfold bind at 1. destruct (ram_b g 32 pa) eqn:Er; [| left; reflexivity]. rewrite flat_load by exact Er.
    unfold inst_length. destruct (negb (Z.land _ 3 =? 3)); [right; cbn [Z.eqb Z.leb Z.compare Pos.compare Pos.compare_cont orb]; rewrite first_half; reflexivity |].
    destruct (negb (Z.land _ 28 =? 28)); [right; cbn [Z.eqb Z.leb orb]; change 32 with (8 * Z.of_nat 4); rewrite read_T_bytes; reflexivity |].
    destruct (Z.land _ 63 =? 31); [| destruct (Z.land _ 127 =? 63); [|
      right; unfold raise_unset; rewrite raise_then by exact Heq; reflexivity]];
      cbn [Z.eqb Z.leb orb]; (destruct (ram_b g _ (pa + 4)) eqn:Er2; [right | left; reflexivity]);
      unfold fetch_rest, bind; rewrite flat_load by exact Er2; unfold ret.
    + change (8 * (6 - 4)) with (8 * Z.of_nat 2). rewrite (joined 2). reflexivity.
    + change (8 * (8 - 4)) with (8 * Z.of_nat 4). rewrite (joined 4). reflexivity.
Qed.
End Flat.

(** ** The MMU over the cache *)

Lemma implements_sim {D} `{HC : HasCacheLaws D} uva g {A} (r r1 : res (soft unit) A) (r' : res (soft D) A) :
  implements r r1 -> sim_res uva g r1 r' -> sim_res uva g r r'.
Proof. intros [-> | ->] Hs; [exact Logic.I | exact Hs]. Qed.


(** C38 The page-table walk of [emu/mmu-soft-cache.h], over its cache, finds the
    translation of the privileged specification: on RV64, for Sv39 and Sv48
    tables in RAM, where the algorithm ends at a leaf PTE the walk returns the
    specification's physical address and that PTE, and where it ends with an
    access exception the walk raises the fault.  The flat memory that the cache
    and RAM hold is as before, whether or not the PTE's A and D flags are set.
    Nothing is said of a walk that meets an invalid PTE without permissions or a
    pointer at level 0, which the code follows. *)
Theorem cached_walk_spec {D} `{HC : HasCacheLaws D} g uva (devices : list (mem_segment D)) t va op p q :
  geometry_ok g -> g_xlen g = 64 -> 0 <= uva /\ uva + default_ram_size <= 2 ^ g_xlen g ->
  sim uva g p q -> ptm64 t -> exceptions (sm_proc p) = true ->
  let walk := cached_walk (H := cache_bus (main_bus 64 uva devices) g) 64 t va op q in
  match vm_walk g t p va with
  | PtLeaf _ pte lvl => exists q', walk = Ok (spec_pa t va pte lvl, pte, Z.of_nat lvl) q' /\ sim uva g p q'
  | PtFault => exists q', walk = Raise (fault_cause op) q' /\ sim uva g (faulted op va p) q'
  | PtInvalid | PtDeep => True
  end.
Proof.
  intros Hg Hx Hu Hs Ht He walk. pose proof (refines_walk uva devices g Hg Hu t va op p q Hs) as R. unfold bus_flat, bus_cached in R. rewrite Hx in R.
  fold walk in R. pose proof (flat_walk_spec g t Ht op va p) as Hw. unfold spec_bus in Hw.
  destruct (vm_walk g t p va) as [a pte lvl | | |]; try exact Hw.
  - rewrite Hw in R. exact R.
  - destruct Hw as (pte & lvl & Hw). rewrite Hw, walk_faulted_raises in R by exact He. exact R.
Qed.

(** ** A machine for the witnesses

    Supervisor mode, with a page of 2 MB at virtual address 0 that is at
    0x80200000 and has no A and D flags; 16 bytes in there is a [nop]. *)
Definition demo_vm : soft tagged_cache :=
  mkSoft proc_init
    (pregs_set r_mode 1 (pregs_set r_mstatus (Z.shiftl rv_vm_sv39 24) (pregs_set r_sptbr 0x80001 (fun _ => 0))))
    (tlb_init 64) (tlb_init 64)
    (write_bytes 4 (write_bytes 8 (write_bytes 8 (fun _ => 0) 0x1000 0x20000801) 0x2000 0x2008000b) 0x200010 0x13)
    (new_cache cache_type_rv64 cache_write_back).

Lemma demo_vm_sim : sim 0 cache_type_rv64 (flat_of 0 demo_vm) demo_vm.
Proof.
  split; try reflexivity. apply (new_cache_main 0 cache_type_rv64 cache_write_back); [| right; reflexivity | reflexivity].
  apply cache_types_ok.
Qed.


Lemma cached_walk_spec_witness :
  exists q', cached_walk (H := cache_bus (main_bus 64 0 []) cache_type_rv64) 64 sv39 0x123456 op_store demo_vm =
    Ok (0x80323456, 0x2008000b, 1) q'.
Proof.
  pose proof (cached_walk_spec cache_type_rv64 0 [] sv39 0x123456 op_store (flat_of 0 demo_vm) demo_vm
    ltac:(apply cache_types_ok) eq_refl ltac:(split; [reflexivity | apply Z.leb_le; reflexivity]) demo_vm_sim (or_introl eq_refl) eq_refl) as H.
  assert (E : vm_walk cache_type_rv64 sv39 (flat_of 0 demo_vm) 0x123456 = PtLeaf 0x80002000 0x2008000b 1) by (vm_compute; reflexivity).
  rewrite E in H. destruct H as (q' & Hq & _). exists q'. exact Hq.
Defined.
