(* ===== verification/CacheWalk.v ===== *)
(** * CacheWalk: what the cache of [emu/tagged-cache.h] and its MMU do not do, on
    concrete machines. *)

From Stdlib Require Import ZArith Lia Bool List.
From stdpp Require Import base numbers list.
From S2P Require Import Prelude Decode Alu Machine Proxy Csr Tlb Soft Memory Mmu MmuSound MmuSpec Cache CacheSound CacheAccess CacheTheorems CacheMmu CacheSim CacheSpec.

Abbreviation cached_rv64 := (cache_bus (main_bus 64 0 []) cache_type_rv64).

(** A machine with the bytes of [host] in RAM. *)
Definition demo_ram (policy : Z) (host : Z -> Z) : soft tagged_cache :=
  mkSoft proc_init (fun _ => 0) (tlb_init 64) (tlb_init 64) host (new_cache cache_type_rv64 policy).

Definition result_of {P A} (d : A) (r : res P A) : A := match r with Ok a _ => a | _ => d end.

(** A store through a page whose D flag is 0: the MMU of [mmu-soft.h] sets A and
    D in memory, and the MMU with the cache does not. *)
Definition set_paging : mmu_access :=
  MStep (fun b => b) (fun rs => pregs_set r_mode 1 (pregs_set r_mstatus (Z.shiftl rv_vm_sv39 24) (pregs_set r_sptbr 0x80001 rs))).

Definition demo_tables : soft tagged_cache :=
  demo_ram cache_write_through (write_bytes 8 (write_bytes 8 (fun _ => 0) 0x1000 0x20000801) 0x2000 0x2008000f).

Definition in_supervisor (p : soft tagged_cache) : soft tagged_cache :=
  match mmu_access_run (H := cached_rv64) 64 set_paging p with Ok _ p => p | _ => p end.

Lemma ad_flags_not_written :
  match cached_store (H := cached_rv64) 64 64 0x10 7 (in_supervisor demo_tables),
        soft_store (H := main_bus 64 0 []) 64 64 0x10 7 (in_supervisor demo_tables) with
  | Ok _ p, Ok _ q => read_T 64 (sm_host p) 0x2000 = 0x2008000f /\ read_T 64 (sm_host q) 0x2000 = 0x200800cf /\
      read_T 64 (sm_host p) 0x200010 = 7
  | _, _ => False
  end.
Proof. vm_compute. repeat split. Qed.

(** A value in two lines: the second line is put in the next entry of the array,
    with a set that is not its own.  A load past the end of a page leaves an entry
    of set 63 with the next page's number and the data of its line 0; then a load
    of line 63 of that page hits it. *)
Definition demo_lines : soft tagged_cache := demo_ram cache_write_back (write_bytes 8 (fun _ => 0) 0x1fc0 7).

Lemma crossing_line_is_wrong_hit :
  result_of [] (cache_run (main_bus 64 0 []) cache_type_rv64 [Load 64 0x80001fc0] demo_lines) = [Some 7] /\
  result_of [] (cache_run (main_bus 64 0 []) cache_type_rv64 [Load 32 0x80000ffe; Load 64 0x80001fc0] demo_lines) = [Some 0; Some 0].
Proof. vm_compute. split; reflexivity. Qed.

(** In the last entry of the array there is no next entry. *)
Lemma crossing_line_out_of_array :
  cache_run (main_bus 64 0 []) cache_type_rv64
    (map (fun i => Load 64 (0x80000fc0 + i * 4096)) (seqZ 0 8) ++ [Load 32 0x80007ffe]) demo_lines = Undefined.
Proof. vm_compute. reflexivity. Qed.

(** The counters are in the cached range and their line goes past the end of
    memory: a load of a counter is a bus error, which leaves the entry filled, and
    the next one hits what was loaded of the line. *)
Lemma counters_fault_once :
  result_of [] (cache_run (main_bus 64 0 []) cache_type_rv64 [Load 64 stat_loads; Load 64 stat_loads; Load 64 stat_loads] demo_lines) =
  [None; Some 1; Some 1].
Proof. vm_compute. reflexivity. Qed.

(** Hits do not reset the LRU count, and entries that are filled first do not
    have one: of a set that was filled in order, the line that is evicted is the
    last one loaded. *)
Definition evicts (l : list access) (a : Z) : bool :=
  match cache_run (main_bus 64 0 []) cache_type_rv64 l demo_lines with
  | Ok _ p => forallb (fun e => negb ((e_status e =? cache_line_filled) && (e_pcln e =? Z.shiftr a 6))) (cache_key (cache_of p))
  | _ => false
  end.

Lemma most_recent_is_evicted :
  let fill := map (fun i => Load 64 (0x80000000 + i * 4096)) (seqZ 0 8) in
  let last := 0x80007000 in
  evicts (fill ++ replicate 4 (Load 64 last) ++ [Load 64 0x80008000]) last = true /\
  evicts (fill ++ replicate 4 (Load 64 last) ++ [Load 64 0x80008000]) 0x80000000 = false.
Proof. vm_compute. split; reflexivity. Qed.
