(* ===== verification/Priv.v ===== *)
(** * Priv: the privileged processor of [emu/processor-priv-1.9.h]: its
    control and status registers, the privileged instructions, traps and
    interrupts, over the soft MMU. *)

From Stdlib Require Import ZArith Lia Bool List.
From stdpp Require Import base numbers list.
From S2P Require Import Prelude Operand Meta Decode Codec CodecRound Machine Fpu Interp InterpSound InstEquiv Model Csr ProxyCpu Runloop Tlb Soft Memory Mmu MmuSound.

(** ** Registers: [enum rv_csr] of [asm/meta.h] *)
Definition rv_csr_sstatus : Z := 0x100.
Definition rv_csr_sedeleg : Z := 0x102.
Definition rv_csr_sideleg : Z := 0x103.
Definition rv_csr_sie : Z := 0x104.
Definition rv_csr_stvec : Z := 0x105.
Definition rv_csr_sscratch : Z := 0x140.
Definition rv_csr_sepc : Z := 0x141.
Definition rv_csr_scause : Z := 0x142.
Definition rv_csr_sbadaddr : Z := 0x143.
Definition rv_csr_sip : Z := 0x144.
Definition rv_csr_sptbr : Z := 0x180.
Definition rv_csr_mvendorid : Z := 0xF11.
Definition rv_csr_marchid : Z := 0xF12.
Definition rv_csr_mimpid : Z := 0xF13.
Definition rv_csr_mhartid : Z := 0xF14.
Definition rv_csr_mstatus : Z := 0x300.
Definition rv_csr_misa : Z := 0x301.
Definition rv_csr_medeleg : Z := 0x302.
Definition rv_csr_mideleg : Z := 0x303.
Definition rv_csr_mie : Z := 0x304.
Definition rv_csr_mtvec : Z := 0x305.
Definition rv_csr_mucounteren : Z := 0x320.
Definition rv_csr_mscounteren : Z := 0x321.
Definition rv_csr_mhcounteren : Z := 0x322.
Definition rv_csr_mscratch : Z := 0x340.
Definition rv_csr_mepc : Z := 0x341.
Definition rv_csr_mcause : Z := 0x342.
Definition rv_csr_mbadaddr : Z := 0x343.
Definition rv_csr_mip : Z := 0x344.
Definition rv_csr_mbase : Z := 0x380.
Definition rv_csr_mbound : Z := 0x381.
Definition rv_csr_mibase : Z := 0x382.
Definition rv_csr_mibound : Z := 0x383.
Definition rv_csr_mdbase : Z := 0x384.
Definition rv_csr_mdbound : Z := 0x385.
Definition rv_csr_mcycle : Z := 0xB00.
Definition rv_csr_minstret : Z := 0xB02.
Definition rv_csr_mcycleh : Z := 0xB80.
Definition rv_csr_minstreth : Z := 0xB82.

(** [enum rv_cause] and [enum rv_intr]. *)
Definition rv_cause_breakpoint : Z := 3.
Definition rv_cause_user_ecall : Z := 8.
Definition rv_cause_supervisor_ecall : Z := 9.
Definition rv_cause_hypervisor_ecall : Z := 10.
Definition rv_cause_machine_ecall : Z := 11.
Definition rv_intr_s_software : Z := 1.
Definition rv_intr_m_software : Z := 3.
Definition rv_intr_s_timer : Z := 5.
Definition rv_intr_m_timer : Z := 7.
Definition rv_intr_s_external : Z := 9.
Definition rv_intr_m_external : Z := 11.

(** ** The devices

    What the processor asks of the devices and of the host: the clock in ticks
    of the real-time clock, the service of the UART and the GPIO, the
    interrupt lines, and the wait of [wfi]. *)
Class Devices (D : Type) := {
  dev_get_time : M (soft D) Z;
  dev_service : M (soft D) unit;
  dev_irq_pending : M (soft D) bool;               (* [device_plic->irq_pending()] *)
  dev_update_time : Z -> M (soft D) unit;          (* [device_rtc->update_time(time)] *)
  dev_timer_pending : Z -> Z -> M (soft D) bool;   (* [device_timer->timer_pending(hart_id, time)] *)
  dev_ipi_pending : Z -> M (soft D) bool;          (* [device_mipi->ipi_pending(hart_id)] *)
  dev_has_char : M (soft D) bool;                  (* [console->has_char()] *)
  dev_wait : M (soft D) unit }.                    (* [wait_for_interrupt()] *)

(** They change no register of the processor. *)
Class DevicesLaws (D : Type) `{Devices D} : Prop := {
  get_time_core : keeps same_core dev_get_time (fun _ => True);
  service_core : keeps same_core dev_service (fun _ => True);
  irq_core : keeps same_core dev_irq_pending (fun _ => True);
  update_time_core : forall t, keeps same_core (dev_update_time t) (fun _ => True);
  timer_core : forall h t, keeps same_core (dev_timer_pending h t) (fun _ => True);
  ipi_core : forall h, keeps same_core (dev_ipi_pending h) (fun _ => True);
  has_char_core : keeps same_core dev_has_char (fun _ => True);
  wait_core : keeps same_core dev_wait (fun _ => True) }.

(** The flags of [P::log] that change what the processor does, and the hart's
    number. *)
Record priv_config := mkConfig {
  log_ebreak_cli : bool; log_exit_stats : bool; log_trap_cli : bool; hart_id : Z }.

Section Priv.
Context {D : Type} `{!Bus (soft D)} `{!FloatBus (soft D)} `{!Devices D}.
Context (fpu : host_fpu) (m : model) (cfg : priv_config).
Abbreviation S := (soft D).
Abbreviation xlen := (m_xlen m).
Abbreviation ux := (wrap (m_xlen m)).

(** ** Control and status registers *)
Definition reg_csr (r : preg) : csr_reg S :=
  mkCsr xlen (fun p => sm_regs p r)
    (fun v p => mkSoft (sm_proc p) (pregs_set r v (sm_regs p)) (sm_itlb p) (sm_dtlb p)
                  (sm_host p) (sm_dev p)).

Abbreviation fcsr_reg := (base_csr (P := S) 32 fcsr set_fcsr).
Abbreviation time_reg := (base_csr (P := S) 64 time set_time).
Abbreviation instret_reg := (base_csr (P := S) 64 instret set_instret).

Definition misa_rmask : Z := ux (-1).
Definition misa_wmask : Z := 2 ^ (xlen - 2) - 1.
Definition mstatus_rmask : Z := ux (-1).
Definition mstatus_wmask : Z := 2 ^ (xlen - 1) - 1.
Definition sstatus_wmask : Z := 0x5e133.
Definition sstatus_rmask : Z := Z.lor sstatus_wmask (2 ^ (xlen - 1)).
Definition mi_mask : Z := ux (-1).
Definition si_mask : Z := 0x333.
Definition tvec_rmask : Z := ux (-1).
Definition tvec_wmask : Z := ux (Z.shiftl (-1) 2).

(** [P::time = get_time()]. *)
Definition read_time : M S unit := t <- dev_get_time ;; modify (fun b => set_time b (u64 t)).

(** [inst_csr]; the default masks of [set_csr] are [R(-1)]. *)
Definition priv_csr (d : decode) (op : csr_perm) (csr value pc_offset : Z) : M S Z :=
  mode <- get_reg r_mode ;;
  let u64_max := 2 ^ 64 - 1 in
  let set_f mask shift := set_csr xlen d rv_mode_U op csr fcsr_reg value mask mask shift in
  let set_masked r wmask rmask := set_csr xlen d mode op csr (reg_csr r) value wmask rmask 0 in
  let set r := set_masked r (ux (-1)) (ux (-1)) in
  let set64 mode := set_csr xlen d mode op csr instret_reg value u64_max u64_max 0 in
  let set_hi := set_csr_hi xlen d mode op csr instret_reg value in
  let get r := get_csr xlen d mode csr (reg_csr r) in
  let get_hi r := get_csr_hi xlen d mode csr r in
  let done := ret pc_offset in
  switch csr
    [rv_csr_fflags ~> (fenv_getflags ;; set_f fflags_mask 0 ;; fenv_clearflags ;; done);
     rv_csr_frm ~> (set_f frm_mask 5 ;; fenv_setrm_dyn ;; done);
     rv_csr_fcsr ~>
       (fenv_getflags ;; set_f fcsr_mask 0 ;; fenv_clearflags ;; fenv_setrm_dyn ;; done);
     rv_csr_cycle ~> (get_csr xlen d rv_mode_U csr instret_reg ;; done);
     rv_csr_time ~> (read_time ;; get_csr xlen d rv_mode_U csr time_reg ;; done);
     rv_csr_instret ~> (get_csr xlen d mode csr instret_reg ;; done);
     rv_csr_cycleh ~> (get_hi instret_reg ;; done);
     rv_csr_timeh ~> (get_hi time_reg ;; done);
     rv_csr_instreth ~> (get_hi instret_reg ;; done);
     rv_csr_misa ~> (set_masked r_misa misa_wmask misa_rmask ;; done);
     rv_csr_mvendorid ~> (get r_mvendorid ;; done);
     rv_csr_marchid ~> (get r_marchid ;; done);
     rv_csr_mimpid ~> (get r_mimpid ;; done);
     rv_csr_mhartid ~> (get r_mhartid ;; done);
     rv_csr_mstatus ~> (set_masked r_mstatus mstatus_wmask mstatus_rmask ;; done);
     rv_csr_mtvec ~> (set_masked r_mtvec tvec_rmask tvec_wmask ;; done);
     rv_csr_medeleg ~> (set r_medeleg ;; done);
     rv_csr_mideleg ~> (set r_mideleg ;; done);
     rv_csr_mip ~> (set_masked r_mip mi_mask mi_mask ;; done);
     rv_csr_mie ~> (set_masked r_mie mi_mask mi_mask ;; done);
     rv_csr_mhcounteren ~> (set r_mhcounteren ;; done);
     rv_csr_mscounteren ~> (set r_mscounteren ;; done);
     rv_csr_mucounteren ~> (set r_mucounteren ;; done);
     rv_csr_mscratch ~> (set r_mscratch ;; done);
     rv_csr_mepc ~> (set r_mepc ;; done);
     rv_csr_mcause ~> (set r_mcause ;; done);
     rv_csr_mbadaddr ~> (set r_mbadaddr ;; done);
     rv_csr_mbase ~> (set r_mbase ;; done);
     rv_csr_mbound ~> (set r_mbound ;; done);
     rv_csr_mibase ~> (set r_mibase ;; done);
     rv_csr_mibound ~> (set r_mibound ;; done);
     rv_csr_mdbase ~> (set r_mdbase ;; done);
     rv_csr_mdbound ~> (set r_mdbound ;; done);
     rv_csr_mcycle ~> (set64 rv_mode_U ;; done);
     rv_csr_minstret ~> (set64 mode ;; done);
     rv_csr_mcycleh ~> (set_hi ;; done);
     rv_csr_minstreth ~> (set_hi ;; done);
     rv_csr_sstatus ~> (set_masked r_mstatus sstatus_wmask sstatus_rmask ;; done);
     rv_csr_stvec ~> (set_masked r_stvec tvec_rmask tvec_wmask ;; done);
     rv_csr_sedeleg ~> (set r_sedeleg ;; done);
     rv_csr_sideleg ~> (set r_sideleg ;; done);
     rv_csr_sip ~> (set_masked r_mip si_mask si_mask ;; done);
     rv_csr_sie ~> (set_masked r_mie si_mask si_mask ;; done);
     rv_csr_sscratch ~> (set r_sscratch ;; done);
     rv_csr_sepc ~> (set r_sepc ;; done);
     rv_csr_scause ~> (set r_scause ;; done);
     rv_csr_sbadaddr ~> (set r_sbadaddr ;; done);
     rv_csr_sptbr ~> (set r_sptbr ;; done)]
    (ret (ux (-1))).

(** ** Privileged instructions *)

(** [if (mode >= level) { body } else return -1]. *)
Definition at_least (level : Z) (body : M S Z) : M S Z :=
  mode <- get_reg r_mode ;; if level <=? mode then body else ret (ux (-1)).

(** [sret] and [mret]: the pop of the privilege stack, and the offset from
    [pc] to the exception program counter. *)
Definition sret : M S Z :=
  mode <- get_bf r_mstatus bf_spp ;; set_reg r_mode mode ;;
  set_bf r_mstatus bf_spp rv_mode_U ;;
  ie <- get_bf r_mstatus bf_spie ;; set_bf r_mstatus bf_sie ie ;;
  set_bf r_mstatus bf_spie 0 ;;
  epc <- get_reg r_sepc ;; a <- gets pc ;; ret (ux (epc - a)).

Definition mret : M S Z :=
  mode <- get_bf r_mstatus bf_mpp ;; set_reg r_mode mode ;;
  set_bf r_mstatus bf_mpp rv_mode_U ;;
  ie <- get_bf r_mstatus bf_mpie ;; set_bf r_mstatus bf_mie ie ;;
  set_bf r_mstatus bf_mpie 0 ;;
  epc <- get_reg r_mepc ;; a <- gets pc ;; ret (ux (epc - a)).

Definition sfence_vm : M S unit := fun p =>
  let id := sm_regs p r_pdid in
  let space := Z.shiftr (sm_regs p r_sptbr) (ppn_bits xlen) in
  (set_itlb (tlb_flush xlen (sm_itlb p) id space) ;;
   set_dtlb (tlb_flush xlen (sm_dtlb p) id space)) p.

Definition priv_inst (d : decode) (pc_offset : Z) : M S Z :=
  let reg op := v <- xu_val (d_rs1 d) ;; priv_csr d op (d_imm d) v pc_offset in
  let imm op := priv_csr d op (d_imm d) (d_rs1 d) pc_offset in
  match d_op d with
  | rv_op_csrrw => reg csr_rw
  | rv_op_csrrs => reg csr_rs
  | rv_op_csrrc => reg csr_rc
  | rv_op_csrrwi => imm csr_rw
  | rv_op_csrrsi => imm csr_rs
  | rv_op_csrrci => imm csr_rc
  | rv_op_sret => at_least rv_mode_S sret
  | rv_op_mret => at_least rv_mode_M mret
  | rv_op_sfence_vm => at_least rv_mode_S (sfence_vm ;; ret pc_offset)
  | rv_op_wfi => at_least rv_mode_S (dev_wait ;; ret pc_offset)
  | rv_op_fence => ret pc_offset
  | rv_op_fence_i => ret pc_offset
  | _ => ret (ux (-1))
  end.

(** ** Traps *)

(** [cause | (interrupt ? 1ULL << (xlen-1) : 0ULL)]. *)
Definition xcause (cause : Z) (interrupt : bool) : Z :=
  ux (Z.lor cause (if interrupt then 2 ^ (xlen - 1) else 0)).

(** The command line interface on a trap, when debugging. *)
Definition trap_cli : M S unit :=
  dbg <- gets debugging ;;
  if dbg && log_trap_cli cfg then a <- gets pc ;; raise internal_cause_cli a else ret tt.

Definition strap (cause : Z) (interrupt : bool) : M S unit :=
  a <- gets pc ;; set_reg r_sepc a ;;
  set_reg r_scause (xcause cause interrupt) ;;
  mode <- get_reg r_mode ;; set_bf r_mstatus bf_spp mode ;;
  ie <- get_bf r_mstatus bf_sie ;; set_bf r_mstatus bf_spie ie ;;
  set_bf r_mstatus bf_sie 0 ;;
  set_reg r_mode rv_mode_S ;;
  tvec <- get_reg r_stvec ;; modify (fun b => set_pc b tvec) ;;
  trap_cli.

Definition mtrap (cause : Z) (interrupt : bool) : M S unit :=
  a <- gets pc ;; set_reg r_mepc a ;;
  set_reg r_mcause (xcause cause interrupt) ;;
  mode <- get_reg r_mode ;; set_bf r_mstatus bf_mpp mode ;;
  ie <- get_bf r_mstatus bf_mie ;; set_bf r_mstatus bf_mpie ie ;;
  set_bf r_mstatus bf_mie 0 ;;
  set_reg r_mode rv_mode_M ;;
  tvec <- get_reg r_mtvec ;; modify (fun b => set_pc b tvec) ;;
  trap_cli.

(** The cause of an instruction that [inst_priv] rejects. *)
Definition trap_cause (d : decode) (mode cause : Z) : Z :=
  if cause =? rv_cause_illegal_instruction then
    match d_op d with
    | rv_op_ebreak => rv_cause_breakpoint
    | rv_op_ecall =>
        switch mode
          [rv_mode_U ~> rv_cause_user_ecall; rv_mode_S ~> rv_cause_supervisor_ecall;
           rv_mode_H ~> rv_cause_hypervisor_ecall; rv_mode_M ~> rv_cause_machine_ecall] cause
    | _ => cause
    end
  else cause.

Definition set_badaddr_cause (cause : Z) : bool :=
  (cause =? rv_cause_misaligned_fetch) || (cause =? rv_cause_misaligned_load) ||
  (cause =? rv_cause_misaligned_store) || (cause =? rv_cause_fault_fetch) ||
  (cause =? rv_cause_fault_load) || (cause =? rv_cause_fault_store).

(** The trap of an exception to M-mode or, when [medeleg] says so, to
    S-mode; [1 << cause] is of type [int]. *)
Definition trap_deliver (cause : Z) : M S unit :=
  if cause <? 32 then
    bad <- gets badaddr ;;
    medeleg <- get_reg r_medeleg ;;
    if Z.land medeleg (ux (swrap 32 (Z.shiftl 1 cause))) =? 0 then
      (if set_badaddr_cause cause then set_reg r_mbadaddr (ux bad) else ret tt) ;;
      set_bf r_mip bf_mt 0 ;; set_bf r_mip bf_me 0 ;; set_bf r_mip bf_ms 0 ;;
      mtrap cause false
    else
      (if set_badaddr_cause cause then set_reg r_sbadaddr (ux bad) else ret tt) ;;
      set_bf r_mip bf_st 0 ;; set_bf r_mip bf_se 0 ;; set_bf r_mip bf_ss 0 ;;
      strap cause false
  else undefined.

(** [P::running = false]. *)
Definition stop_running (b : proc) : proc :=
  mkProc (pc b) (ireg b) (freg b) (lr b) (Machine.cause b) (badaddr b) false (debugging b)
    (exceptions b) (breakpoint b) (time b) (instret b) (fcsr b) (env b).

(** [trap]; what it prints is left out.  [ebreak] starts the command line
    interface or ends the emulator: [exit(0)] ends the program ([undefined])
    unless the exit statistics are on. *)
Definition priv_trap (d : decode) (cause : Z) : M S unit :=
  if cause =? internal_cause_reset then ret tt
  else
    mode <- get_reg r_mode ;;
    let cause := trap_cause d mode cause in
    if decide (d_op d = rv_op_ebreak) then
      if log_ebreak_cli cfg then a <- gets pc ;; raise internal_cause_cli a ;; trap_deliver cause
      else if log_exit_stats cfg then modify stop_running
      else undefined
    else trap_deliver cause.

(** ** Interrupts *)

(** One block of [isr]: the pending bits follow the line; when it is up the
    first enabled of the two interrupts is taken, and the result is [true]. *)
Definition isr_line (line : M S bool) (bm bs : bitfield) (m_cause s_cause : Z) : M S bool :=
  up <- line ;;
  if up : bool then
    set_bf r_mip bm 1 ;; set_bf r_mip bs 1 ;;
    mie <- get_bf r_mstatus bf_mie ;; bm_e <- get_bf r_mie bm ;;
    sie <- get_bf r_mstatus bf_sie ;; bs_e <- get_bf r_mie bs ;;
    if negb (mie =? 0) && negb (bm_e =? 0) then mtrap m_cause true ;; ret true
    else if negb (sie =? 0) && negb (bs_e =? 0) then strap s_cause true ;; ret true
    else ret false
  else set_bf r_mip bm 0 ;; set_bf r_mip bs 0 ;; ret false.

Definition isr : M S unit :=
  dev_service ;;
  taken <- isr_line dev_irq_pending bf_me bf_se rv_intr_m_external rv_intr_s_external ;;
  if taken : bool then ret tt
  else
    now <- gets time ;; dev_update_time now ;;
    taken <- isr_line (dev_timer_pending (hart_id cfg) now) bf_mt bf_st rv_intr_m_timer
               rv_intr_s_timer ;;
    if taken : bool then ret tt
    else
      taken <- isr_line
                 (ipi <- dev_ipi_pending (hart_id cfg) ;;
                  if ipi : bool then ret true else dev_has_char)
                 bf_ms bf_ss rv_intr_m_software rv_intr_s_software ;;
      ret tt.

(** [reset]. *)
Definition priv_reset : M S unit :=
  set_reg r_mode rv_mode_M ;;
  set_bf r_mstatus bf_vm rv_vm_mbare ;;
  set_bf r_mstatus bf_mprv 0 ;;
  set_bf r_mstatus bf_mie 0 ;;
  set_reg r_mcause 0 ;;
  vec <- get_reg r_resetvec ;; modify (fun b => set_pc b vec).

(** ** The processor of the run loop *)
Context (clock : S -> Z * S).

Definition priv_cpu : Cpu S := {|
  cpu_xlen := xlen;
  cpu_fetch := soft_fetch xlen;
  cpu_decode := inst_decode m;
  cpu_exec := @inst_exec S _ (mmu_soft xlen) fpu m;
  cpu_priv := priv_inst;
  cpu_isr := isr;
  cpu_trap := priv_trap;
  cpu_cycle_clock := clock |}.

Lemma priv_csr_equiv d d' : d_rd d = d_rd d' -> priv_csr d = priv_csr d'.
Proof using.
  intros E. unfold priv_csr, set_csr, get_csr, set_csr_hi, get_csr_hi, csr_result. rewrite E.
  reflexivity.
Qed.

Lemma priv_inst_equiv d d' off : dec_equiv d d' -> priv_inst d off = priv_inst d' off.
Proof using.
  intros [E H]. unfold priv_inst. rewrite <- E. destruct (d_op d) eqn:Eo; try reflexivity;
    destruct H as (Hi & Hrd & Hrs & _); try discriminate; rewrite Hi, Hrs;
    rewrite (priv_csr_equiv d d') by assumption; reflexivity.
Qed.

Lemma priv_trap_equiv d d' cause : d_op d = d_op d' -> priv_trap d cause = priv_trap d' cause.
Proof using. intros E. unfold priv_trap, trap_cause. rewrite E. reflexivity. Qed.

#[export] Instance priv_cpu_laws : @CpuLaws S priv_cpu.
Proof using.
  split; cbn [priv_cpu cpu_decode cpu_exec cpu_priv cpu_trap].
  - apply inst_decode_equiv.
  - apply inst_exec_proper.
  - intros d d' E off _ <-. apply priv_inst_equiv, E.
  - intros d d' E c _ <-. apply priv_trap_equiv, E.
Qed.
End Priv.
