(* ===== verification/PrivTheorems.v ===== *)
(** * PrivTheorems: the properties of the privileged processor. *)

From Stdlib Require Import ZArith Lia Bool List.
From stdpp Require Import base numbers list.
From S2P Require Import Prelude Operand Meta Decode Codec CodecRound Machine Fpu Interp InterpSound InstEquiv Model Csr ProxyCpu Runloop Tlb Soft Memory Mmu MmuSound Priv.

(** Reading a register after assignments to registers. *)
Lemma pregs_get_same r v rs : pregs_set r v rs r = v.
Proof. unfold pregs_set. rewrite decide_True; reflexivity. Qed.
Lemma pregs_get_other r r' v rs : r' <> r -> pregs_set r v rs r' = rs r'.
Proof. intros H. unfold pregs_set. rewrite decide_False; [reflexivity | exact H]. Qed.

Ltac regs_simpl :=
  cbn [sm_regs sm_proc sm_itlb sm_dtlb sm_host sm_dev];
  repeat first [ rewrite pregs_get_same | rewrite pregs_get_other by discriminate ].

Section Claims.
Context {D : Type} `{!Bus (soft D)} `{!Devices D}.
Context (m : model) (cfg : priv_config).
Abbreviation xlen := (m_xlen m).

(** The command line interface is not started by a trap. *)
Definition quiet_trap (p : soft D) : Prop :=
  debugging (sm_proc p) = false \/ log_trap_cli cfg = false.

Lemma trap_cli_quiet p : quiet_trap p -> trap_cli cfg p = Ok tt p.
Proof using.
  intros Hq. unfold trap_cli, bind, gets. cbn [base soft_processor].
  destruct Hq as [-> | ->]; rewrite ?andb_false_r; reflexivity.
Qed.

(** *** Trap entry

    The registers and the fields of [mstatus] that a trap to M-mode or to
    S-mode uses. *)
Record trap_level := mkLevel {
  tl_epc : preg; tl_cause : preg; tl_tvec : preg;
  tl_ie : bitfield; tl_pie : bitfield; tl_pp : bitfield; tl_mode : Z }.

Definition m_level : trap_level := mkLevel r_mepc r_mcause r_mtvec bf_mie bf_mpie bf_mpp rv_mode_M.
Definition s_level : trap_level := mkLevel r_sepc r_scause r_stvec bf_sie bf_spie bf_spp rv_mode_S.

(** What the privileged specification says of a trap to a level. *)
Record trapped (l : trap_level) (cause : Z) (i : bool) (p p' : soft D) : Prop := {
  tr_proc : sm_proc p' = set_pc (sm_proc p) (sm_regs p (tl_tvec l));
  tr_epc : sm_regs p' (tl_epc l) = pc (sm_proc p);
  tr_cause : sm_regs p' (tl_cause l) = xcause m cause i;
  tr_mode : sm_regs p' r_mode = tl_mode l;
  tr_status : sm_regs p' r_mstatus =
    bf_set (tl_ie l) 0 (bf_set (tl_pie l) (bf_get (tl_ie l) (sm_regs p r_mstatus))
      (bf_set (tl_pp l) (sm_regs p r_mode) (sm_regs p r_mstatus)));
  tr_rest : forall r, r ∉ [tl_epc l; tl_cause l; r_mode; r_mstatus] -> sm_regs p' r = sm_regs p r;
  tr_mem : sm_itlb p' = sm_itlb p /\ sm_dtlb p' = sm_dtlb p /\ sm_host p' = sm_host p /\
    sm_dev p' = sm_dev p }.

Ltac run_regs :=
  unfold get_bf, set_bf, set_reg, set_regs, get_reg, gets, modify, bind, ret;
  cbn [base soft_processor set_base]; regs_simpl.

Lemma mtrap_spec cause i p :
  quiet_trap p -> exists p', mtrap m cfg cause i p = Ok tt p' /\ trapped m_level cause i p p'.
Proof using.
  intros Hq. unfold mtrap. run_regs.
  eexists. split; [apply trap_cli_quiet; exact Hq |].
  split; cbn [tl_epc tl_cause tl_tvec tl_ie tl_pie tl_pp tl_mode m_level]; regs_simpl;
    try reflexivity; [| | auto].
  - rewrite (bf_get_set_apart bf_mie) by (unfold bf_apart; cbn; lia). reflexivity.
  - intros r Hr. rewrite !not_elem_of_cons in Hr. rewrite !pregs_get_other by tauto. reflexivity.
Qed.

Lemma strap_spec cause i p :
  quiet_trap p -> exists p', strap m cfg cause i p = Ok tt p' /\ trapped s_level cause i p p'.
Proof using.
  intros Hq. unfold strap. run_regs.
  eexists. split; [apply trap_cli_quiet; exact Hq |].
  split; cbn [tl_epc tl_cause tl_tvec tl_ie tl_pie tl_pp tl_mode s_level]; regs_simpl;
    try reflexivity; [| | auto].
  - rewrite (bf_get_set_apart bf_sie) by (unfold bf_apart; cbn; lia). reflexivity.
  - intros r Hr. rewrite !not_elem_of_cons in Hr. rewrite !pregs_get_other by tauto. reflexivity.
Qed.

(** *** Trap return *)
Definition xret (l : trap_level) : M (soft D) Z :=
  if tl_mode l =? rv_mode_M then mret m else sret m.

Lemma xret_spec l q :
  l = m_level \/ l = s_level ->
  exists q', xret l q = Ok (wrap xlen (sm_regs q (tl_epc l) - pc (sm_proc q))) q' /\
    sm_proc q' = sm_proc q /\
    sm_regs q' r_mode = bf_get (tl_pp l) (sm_regs q r_mstatus) /\
    bf_get (tl_ie l) (sm_regs q' r_mstatus) = wrap 1 (bf_get (tl_pie l) (sm_regs q r_mstatus)) /\
    (forall f, In f [bf_mprv; bf_pum; bf_mxr; bf_vm] ->
       bf_get f (sm_regs q' r_mstatus) = bf_get f (sm_regs q r_mstatus)).
Proof using.
  intros [-> | ->]; unfold xret; cbn [tl_mode m_level s_level Z.eqb Pos.eqb]; unfold mret, sret;
    run_regs; (eexists; split; [reflexivity |]);
    cbn [tl_epc tl_pp tl_ie tl_pie m_level s_level]; regs_simpl; repeat split.
  1, 3: bf_simpl; reflexivity.
  all: intros f Hf; repeat destruct Hf as [<- | Hf]; try contradiction; bf_simpl; reflexivity.
Qed.

(** C18 - Trap and return.  A trap to M-mode or S-mode, with the command line
    interface not started by traps, enters the level at its vector with
    interrupts of the level off; when the handler has restored the level's
    status and exception program counter, its [mret] or [sret] resumes the
    trapped instruction's address, with the interrupt enable bit and the
    translation controls as they were, in the mode that the level's previous
    mode field holds: the trapped mode when it fits the field, which is two
    bits for M-mode and one for S-mode.  A trap taken in M-mode and delegated to
    S-mode does not fit: [sret] resumes it in S-mode. *)
Theorem trap_return l cause i p p' q d off :
  l = m_level \/ l = s_level -> xlen = 32 \/ xlen = 64 ->
  quiet_trap p -> 0 <= pc (sm_proc p) < 2 ^ xlen ->
  (if tl_mode l =? rv_mode_M then mtrap m cfg cause i p else strap m cfg cause i p) = Ok tt p' ->
  (forall r, In r [tl_epc l; r_mode; r_mstatus] -> sm_regs q r = sm_regs p' r) ->
  d_op d = (if tl_mode l =? rv_mode_M then rv_op_mret else rv_op_sret) ->
  pc (sm_proc p') = sm_regs p (tl_tvec l) /\ sm_regs p' r_mode = tl_mode l /\
  bf_get (tl_ie l) (sm_regs p' r_mstatus) = 0 /\
  exists v q', priv_inst m d off q = Ok v q' /\
    wrap xlen (pc (sm_proc q) + v) = pc (sm_proc p) /\
    sm_regs q' r_mode = sm_regs p r_mode mod 2 ^ (if tl_mode l =? rv_mode_M then 2 else 1) /\
    (forall f, In f [tl_ie l; bf_mprv; bf_pum; bf_mxr; bf_vm] ->
       bf_get f (sm_regs q' r_mstatus) = bf_get f (sm_regs p r_mstatus)).
Proof using.
  intros Hl Hx Hq Hpc Htrap Hsame Hop.
  assert (Ht : trapped l cause i p p').
  { destruct Hl as [-> | ->]; cbn [tl_mode m_level s_level] in Htrap; unfold rv_mode_M, rv_mode_S in Htrap;
      cbn [Z.eqb Pos.eqb] in Htrap;
      [destruct (mtrap_spec cause i p Hq) as (p2 & E & H)
      | destruct (strap_spec cause i p Hq) as (p2 & E & H)];
      rewrite E in Htrap; injection Htrap as <-; exact H. }
  destruct Ht as [Hproc Hepc _ Hm Hst _ _].
  split; [rewrite Hproc; reflexivity |]. split; [exact Hm |].
  split; [rewrite Hst; destruct Hl as [-> | ->]; cbn [tl_ie m_level s_level]; bf_simpl; reflexivity |].
  destruct (xret_spec l q Hl) as (q' & E & _ & Hm' & Hie & Hf).
  rewrite !Hsame in Hm', Hie by (cbn; auto). rewrite Hst in Hm', Hie.
  exists (wrap xlen (sm_regs q (tl_epc l) - pc (sm_proc q))), q'. split; [| split; [| split]].
  - unfold priv_inst. rewrite Hop. rewrite <- E.
    destruct Hl as [-> | ->]; cbn [tl_mode m_level s_level] in *; unfold rv_mode_M, rv_mode_S, xret in *;
      cbn [tl_mode m_level s_level Z.eqb Pos.eqb] in *; unfold at_least, bind, get_reg;
      rewrite Hsame by (cbn; auto); rewrite Hm; reflexivity.
  - rewrite Hsame, Hepc by (cbn; auto). rewrite wrap_add_r by lia.
    rewrite Zplus_minus. apply wrap_small. exact Hpc.
  - rewrite Hm'. destruct Hl as [-> | ->]; cbn [tl_ie tl_pie tl_pp m_level s_level] in *; bf_simpl; reflexivity.
  - intros f [<- | Hf'].
    + rewrite Hie. assert (Hr : 0 <= bf_get (tl_ie l) (sm_regs p r_mstatus) < 2 ^ 1)
        by (destruct Hl as [-> | ->]; apply bf_get_range; cbn; lia).
      destruct Hl as [-> | ->]; cbn [tl_ie tl_pie tl_pp m_level s_level] in *; bf_simpl;
        cbn [bf_width bf_mpie bf_spie]; rewrite wrap_wrap by lia; apply wrap_small, Hr.
    + rewrite Hf by exact Hf'. rewrite Hsame, Hst by (cbn; auto).
      repeat destruct Hf' as [<- | Hf']; try contradiction;
        destruct Hl as [-> | ->]; cbn [tl_ie tl_pie tl_pp m_level s_level]; bf_simpl; reflexivity.
Qed.

(** *** Exceptions *)
Lemma deleg_bit v c :
  xlen = 32 \/ xlen = 64 -> 0 <= c < 31 ->
  (Z.land v (wrap xlen (swrap 32 (Z.shiftl 1 c))) =? 0) = negb (Z.testbit v c).
Proof using.
  intros Hx Hc. assert (Hp : 0 < 2 ^ c < 2 ^ 31) by (split; [lia | apply Z.pow_lt_mono_r; lia]).
  rewrite Z.shiftl_1_l, swrap_small by (cbn; lia).
  rewrite wrap_small by (destruct Hx as [-> | ->]; lia).
  destruct (Z.testbit v c) eqn:E.
  - apply Z.eqb_neq. intros H. apply (f_equal (fun z => Z.testbit z c)) in H.
    rewrite Z.land_spec, E, Z.pow2_bits_true, Z.bits_0 in H by lia. discriminate.
  - apply Z.eqb_eq. bitwise i Hi. rewrite Z.bits_0. destruct (Z.eqb_spec i c) as [-> |].
    + rewrite E. reflexivity.
    + rewrite Z.pow2_bits_false, andb_false_r by lia. reflexivity.
Qed.

(** The bad address register of a level. *)
Definition badaddr_of (l : trap_level) : preg :=
  if tl_mode l =? rv_mode_M then r_mbadaddr else r_sbadaddr.

(** The state in which a level is entered: the bad address is stored and
    pending bits of the level are cleared. *)
Definition prepared (l : trap_level) (cause : Z) (p p1 : soft D) : Prop :=
  sm_proc p1 = sm_proc p /\
  (forall r, r <> r_mip -> r <> badaddr_of l -> sm_regs p1 r = sm_regs p r) /\
  (sm_regs p1 (badaddr_of l) =
     if set_badaddr_cause cause then wrap xlen (badaddr (sm_proc p))
     else sm_regs p (badaddr_of l)).

Lemma quiet_prepared l cause p p1 : prepared l cause p p1 -> quiet_trap p -> quiet_trap p1.
Proof using. intros [E _] [H | H]; [left | right]; [rewrite E |]; exact H. Qed.

(** Run the assignments before the trap entry [k] and apply its lemma. *)
Ltac prepare k l spec :=
  let k' := fresh "k" in let p1 := fresh "p1" in let Hp := fresh "Hp" in
  let Eb := fresh "Eb" in let H1 := fresh in let H2 := fresh in let r := fresh "r" in
  set (k' := k);
  match goal with |- context [set_badaddr_cause ?c] => destruct (set_badaddr_cause c) eqn:Eb end;
  unfold set_bf, set_reg, set_regs, get_reg, ret, bind; regs_simpl;
  match goal with |- context [k' ?q] => set (p1 := q) end;
  match goal with |- context [prepared _ ?c ?p _] =>
    assert (Hp : prepared l c p p1) by
      (split; [reflexivity | split; [| rewrite Eb; unfold p1; regs_simpl; reflexivity]];
       intros r H1 H2; unfold p1; cbn in H2; cbn [sm_regs];
       rewrite !pregs_get_other by assumption; reflexivity)
  end;
  match goal with Hq : quiet_trap _ |- _ =>
    destruct (spec p1 (quiet_prepared _ _ _ _ Hp Hq)) as (? & ? & ?); eauto
  end.

(** C19 - Exceptions.  An exception is delivered to S-mode when its bit of
    [medeleg] is set and to M-mode otherwise, with the exception program
    counter, the cause and the previous mode saved, interrupts of the level
    off, and [pc] at the level's vector; an address fault also records the
    faulting address; [ecall] has the cause of the mode it is executed in. *)
Theorem trap_delivery d cause p :
  xlen = 32 \/ xlen = 64 -> quiet_trap p -> cause <> internal_cause_reset ->
  d_op d <> rv_op_ebreak ->
  let c := trap_cause d (sm_regs p r_mode) cause in
  0 <= c < 31 ->
  let l := if Z.testbit (sm_regs p r_medeleg) c then s_level else m_level in
  exists p1 p', priv_trap m cfg d cause p = Ok tt p' /\ prepared l c p p1 /\
    trapped l c false p1 p'.
Proof using.
  intros Hx Hq Hc Hop c Hr l. unfold priv_trap. apply Z.eqb_neq in Hc. rewrite Hc.
  unfold bind at 1, get_reg at 1. cbv zeta. rewrite decide_False by exact Hop. fold c.
  unfold trap_deliver. destruct (Z.ltb_spec c 32); [| lia].
  unfold bind at 1 2, gets, get_reg at 1. rewrite deleg_bit by assumption.
  subst l. destruct (Z.testbit (sm_regs p r_medeleg) c); cbn [negb].
  - prepare (strap (D := D) m cfg c false) s_level (strap_spec c false).
  - prepare (mtrap (D := D) m cfg c false) m_level (mtrap_spec c false).
Qed.

(** *** Control and status registers *)
Lemma set_csr_reg d mode op csr r value wm rm (v : Z) (p p' : soft D) (off : Z) :
  csr_readonly csr = false ->
  (set_csr xlen d mode op csr (reg_csr m r) value wm rm 0 ;; ret off) p = Ok v p' ->
  v = off /\ sm_regs p' = pregs_set r (csr_write xlen op (sm_regs p r) value wm 0) (sm_regs p).
Proof using.
  intros Hro. unfold set_csr, read_reg, write_reg, csr_result, put_ireg, gets, modify, bind, ret.
  rewrite Hro. cbn [reg_get reg_set reg_width reg_csr].
  destruct (d_rd d =? rv_ireg_zero); [| destruct (in_bounds _ _)]; intros H; simplify_eq;
    split; reflexivity.
Qed.

(** A supervisor's view of a machine register: the register and the bits the
    specification lets it write: UIE, SIE, UPIE, SPIE, SPP, FS, XS and PUM;
    the user and supervisor bits of mip and mie. *)
Definition s_view (csr : Z) : option (preg * list Z) :=
  switch csr
    [rv_csr_sstatus ~> Some (r_mstatus, [0; 1; 4; 5; 8; 13; 14; 15; 16; 18]);
     rv_csr_sie ~> Some (r_mie, [0; 1; 4; 5; 8; 9]);
     rv_csr_sip ~> Some (r_mip, [0; 1; 4; 5; 8; 9])] None.

Lemma s_view_cases csr r bits :
  s_view csr = Some (r, bits) ->
  exists wm rm, (forall i, 0 <= i < 64 -> Z.testbit wm i = existsb (Z.eqb i) bits) /\
    csr_readonly csr = false /\
    forall d op value off p, exists mode,
      priv_csr m d op csr value off p = (set_csr xlen d mode op csr (reg_csr m r) value wm rm 0 ;; ret off) p.
Proof using.
  unfold s_view. intros H.
  assert (Hcsr : csr = rv_csr_sstatus \/ csr = rv_csr_sie \/ csr = rv_csr_sip).
  { revert H. apply switch_ind; [discriminate |].
    repeat (apply Forall_cons; split); try apply Forall_nil; try exact I; cbn; auto. }
  assert (Hbits : forall wm bits,
    forallb (fun i => Bool.eqb (Z.testbit wm i) (existsb (Z.eqb i) bits)) (map Z.of_nat (seq 0 64)) = true ->
    forall i, 0 <= i < 64 -> Z.testbit wm i = existsb (Z.eqb i) bits).
  { intros w l Hl i Hi. rewrite forallb_forall in Hl. apply eqb_prop, Hl.
    apply in_map_iff. exists (Z.to_nat i). rewrite in_seq. lia. }
  destruct Hcsr as [-> | [-> | ->]]; cbn in H; injection H as <- <-;
    [exists sstatus_wmask, (sstatus_rmask m) | exists si_mask, si_mask | exists si_mask, si_mask];
    (split; [apply Hbits; reflexivity |]); (split; [reflexivity |]); intros d op value off p; exists (sm_regs p r_mode); reflexivity.
Qed.

(** C20 - Supervisor CSRs are confined.  Whatever an instruction writes to
    sstatus, sie or sip, the bits that a supervisor may write are written, set
    or cleared and every other bit of mstatus, mie or mip keeps its value; no
    other register changes. *)
Theorem supervisor_csr_confined d op csr r bits value off v p p' :
  xlen = 32 \/ xlen = 64 -> s_view csr = Some (r, bits) -> 0 <= sm_regs p r < 2 ^ xlen ->
  priv_csr m d op csr value off p = Ok v p' ->
  v = off /\
  (forall i, 0 <= i < xlen ->
     Z.testbit (sm_regs p' r) i =
     if existsb (Z.eqb i) bits then csr_bit op (Z.testbit (sm_regs p r) i) (Z.testbit value i)
     else Z.testbit (sm_regs p r) i) /\
  (forall r', r' <> r -> sm_regs p' r' = sm_regs p r').
Proof using.
  intros Hx Hv Hr H. destruct (s_view_cases csr r bits Hv) as (wm & rm & Hbits & Hro & Hcsr).
  destruct (Hcsr d op value off p) as [mode E]. rewrite E in H.
  apply (set_csr_reg d mode op csr r value wm rm v p p' off Hro) in H. destruct H as [-> Hregs].
  split; [reflexivity |]. rewrite Hregs. split.
  - intros i Hi. rewrite pregs_get_same, csr_write_spec by (assumption || lia).
    rewrite Z.shiftl_0_r, Z.sub_0_r, Hbits by lia. reflexivity.
  - intros r' Hr'. apply pregs_get_other, Hr'.
Qed.

(** *** Interrupts *)

(** The interrupt a raised line gives: to M-mode when M-mode interrupts and
    the M line are enabled, else to S-mode when those are. *)
Definition enabled (rs : pregs) (bm bs : bitfield) (m_cause s_cause : Z) :
    option (trap_level * Z) :=
  if negb (bf_get bf_mie (rs r_mstatus) =? 0) && negb (bf_get bm (rs r_mie) =? 0)
  then Some (m_level, m_cause)
  else if negb (bf_get bf_sie (rs r_mstatus) =? 0) && negb (bf_get bs (rs r_mie) =? 0)
  then Some (s_level, s_cause)
  else None.

(** External interrupts come before timer interrupts, and those before
    software interrupts. *)
Definition interrupt_of (rs : pregs) (external timer software : bool) : option (trap_level * Z) :=
  let line up bm bs mc sc rest :=
    match (if up : bool then enabled rs bm bs mc sc else None) with Some x => Some x | None => rest end in
  line external bf_me bf_se rv_intr_m_external rv_intr_s_external
    (line timer bf_mt bf_st rv_intr_m_timer rv_intr_s_timer
      (line software bf_ms bf_ss rv_intr_m_software rv_intr_s_software None)).

(** The same processor but for [mip]. *)
Definition same_but_mip (p p' : soft D) : Prop :=
  sm_proc p' = sm_proc p /\ forall r, r <> r_mip -> sm_regs p' r = sm_regs p r.

#[local] Instance same_but_mip_preorder : PreOrder same_but_mip.
Proof using.
  split.
  - intros p. split; reflexivity.
  - intros p q r [E1 H1] [E2 H2]. split; [congruence |]. intros x Hx. rewrite H2, H1 by exact Hx.
    reflexivity.
Qed.

Lemma same_core_mip (p p' : soft D) : same_core p p' -> same_but_mip p p'.
Proof using. intros (E & Er & _). split; [exact E |]. intros r _. rewrite Er. reflexivity. Qed.

Lemma quiet_same p p' : sm_proc p' = sm_proc p -> quiet_trap p -> quiet_trap p'.
Proof using. intros E [H | H]; [left | right]; [rewrite E |]; exact H. Qed.

(** What taking an interrupt, or none, leaves. *)
Definition taken (x : option (trap_level * Z)) (p p' : soft D) : Prop :=
  match x with
  | Some (l, c) => exists q, same_but_mip p q /\ trapped l c true q p'
  | None => same_but_mip p p'
  end.

Lemma isr_line_spec line up bm bs mc sc p q :
  line p = Ok up q -> same_but_mip p q -> quiet_trap p ->
  let x := if up : bool then enabled (sm_regs p) bm bs mc sc else None in
  exists p', isr_line m cfg line bm bs mc sc p =
    Ok (match x with Some _ => true | None => false end) p' /\ taken x p p'.
Proof using.
  intros Hl Hs Hq. destruct Hs as [Hp Hr]. unfold isr_line, bind at 1. rewrite Hl.
  destruct up; unfold set_bf, get_bf, set_reg, set_regs, get_reg, bind, ret; regs_simpl.
  - rewrite !Hr by discriminate. unfold enabled. set (q' := mkSoft _ _ _ _ _ _).
    assert (Hs : same_but_mip p q').
    { split; [exact Hp |]. intros r Hne. unfold q'. cbn [sm_regs].
      rewrite !pregs_get_other by exact Hne. apply Hr, Hne. }
    assert (Hq' : quiet_trap q') by (eapply quiet_same; [apply Hs | exact Hq]).
    destruct (negb _ && negb _); [| destruct (negb _ && negb _)].
    + destruct (mtrap_spec mc true q' Hq') as (p' & -> & Ht). exists p'. split; [reflexivity |].
      exists q'. auto.
    + destruct (strap_spec sc true q' Hq') as (p' & -> & Ht). exists p'. split; [reflexivity |].
      exists q'. auto.
    + exists q'. auto.
  - eexists. split; [reflexivity |]. split; [exact Hp |]. intros r Hne. cbn [sm_regs].
    rewrite !pregs_get_other by exact Hne. apply Hr, Hne.
Qed.

(** [isr_line] leaves the devices as the line does. *)
Lemma isr_line_dev (line : M (soft D) bool) bm bs mc sc (p q : soft D) (up : bool) :
  line p = Ok up q -> quiet_trap q ->
  exists b (p' : soft D), isr_line m cfg line bm bs mc sc p = Ok b p' /\ sm_dev p' = sm_dev q.
Proof using.
  intros E Hq. unfold isr_line, bind at 1. rewrite E.
  destruct up; unfold set_bf, get_bf, set_reg, set_regs, get_reg, bind, ret; cbn [sm_regs sm_proc];
    [| eexists; eexists; split; reflexivity].
  set (q' := mkSoft _ _ _ _ _ _). assert (Hq' : quiet_trap q') by exact Hq.
  destruct (negb _ && negb _); [| destruct (negb _ && negb _)].
  - destruct (mtrap_spec mc true q' Hq') as (p' & -> & Ht). exists true, p'.
    split; [reflexivity |]. apply (tr_mem _ _ _ _ _ Ht).
  - destruct (strap_spec sc true q' Hq') as (p' & -> & Ht). exists true, p'.
    split; [reflexivity |]. apply (tr_mem _ _ _ _ _ Ht).
  - exists false, q'. split; reflexivity.
Qed.

(** An operation of the devices that, with them at [d], gives [a] and leaves
    them at [d']. *)
Definition sees {A} (op : M (soft D) A) (d : D) (a : A) (d' : D) : Prop :=
  forall p, sm_dev p = d -> exists p', op p = Ok a p' /\ sm_dev p' = d'.

Lemma sees_core {A} (op : M (soft D) A) d a d' p :
  sees op d a d' -> keeps same_core op (fun _ => True) -> sm_dev p = d ->
  exists q, op p = Ok a q /\ same_but_mip p q /\ sm_dev q = d'.
Proof using.
  intros Hl Hk Hd. destruct (Hl p Hd) as (q & E & Hq). specialize (Hk p). rewrite E in Hk.
  exists q. split; [exact E |]. split; [apply same_core_mip, Hk | exact Hq].
Qed.

Lemma enabled_same p q bm bs mc sc :
  same_but_mip p q -> enabled (sm_regs q) bm bs mc sc = enabled (sm_regs p) bm bs mc sc.
Proof using. intros [_ H]. unfold enabled. rewrite !H by discriminate. reflexivity. Qed.

Lemma taken_from x p q p' : same_but_mip p q -> taken x q p' -> taken x p p'.
Proof using.
  intros H Ht. destruct x as [[l c] |]; cbn in *.
  - destruct Ht as (r & Hr & Ht). exists r. split; [etransitivity; eassumption | exact Ht].
  - etransitivity; eassumption.
Qed.

(** One stage of [isr], from a state that differs in [mip] only. *)
Lemma isr_stage line up d d' bm bs mc sc p p0 :
  sees line d up d' -> keeps same_core line (fun _ => True) -> same_but_mip p p0 -> sm_dev p0 = d ->
  quiet_trap p ->
  let x := if up : bool then enabled (sm_regs p) bm bs mc sc else None in
  exists p1, isr_line m cfg line bm bs mc sc p0 =
    Ok (match x with Some _ => true | None => false end) p1 /\ taken x p p1 /\ sm_dev p1 = d'.
Proof using.
  intros Hl Hk H0 Hd Hq x. destruct (sees_core line _ _ _ p0 Hl Hk Hd) as (q & E & Hs & Hdq).
  assert (Hq0 : quiet_trap p0) by (eapply quiet_same; [apply H0 | exact Hq]).
  assert (Hqq : quiet_trap q) by (eapply quiet_same; [apply Hs | exact Hq0]).
  destruct (isr_line_spec line up bm bs mc sc p0 q E Hs Hq0) as (p1 & Er & Ht).
  destruct (isr_line_dev line bm bs mc sc p0 q up E Hqq) as (b & p1' & Er' & Hd').
  rewrite Er in Er'. injection Er' as <- <-.
  unfold x. rewrite <- (enabled_same p p0) by exact H0. exists p1. split; [exact Er |].
  split; [eapply taken_from; eassumption | congruence].
Qed.

(** What the service routine reads from the devices, that are at [d] before:
    the lines, in order, and whether the console has a character, which is
    only asked for when no interprocessor interrupt is pending. *)
Inductive lines_read (now : Z) (d : D) (external timer ipi has_char : bool) : Prop :=
  lines_are d0 d1 d2 d3 d4 d5 :
    sees dev_service d tt d0 -> sees dev_irq_pending d0 external d1 ->
    sees (dev_update_time now) d1 tt d2 -> sees (dev_timer_pending (hart_id cfg) now) d2 timer d3 ->
    sees (dev_ipi_pending (hart_id cfg)) d3 ipi d4 -> (ipi = false -> sees dev_has_char d4 has_char d5) ->
    lines_read now d external timer ipi has_char.

(** C21 - Interrupts.  The service routine reads the external line, the
    timer, the interprocessor interrupt and, when that is not pending, whether
    the console has a character, each from the devices as the earlier reads
    left them; it takes the first raised and enabled interrupt in the order
    external, timer, software (an interprocessor interrupt or a character), to
    M-mode when M-mode interrupts are on and to S-mode otherwise, entering the
    level with the interrupt's cause; when there is none, the processor goes
    on unchanged but for its pending bits.  Traps do not start the command line
    interface ([quiet_trap]). *)
Theorem isr_spec `{!DevicesLaws D} e t i c p :
  lines_read (time (base p)) (sm_dev p) e t i c -> quiet_trap p ->
  exists p', isr m cfg p = Ok tt p' /\ taken (interrupt_of (sm_regs p) e t (i || c)) p p'.
Proof using.
  intros [d0 d1 d2 d3 d4 d5 Hsv He Hup Ht Hi Hc] Hq. unfold isr, interrupt_of, bind at 1.
  destruct (sees_core _ _ _ _ p Hsv service_core eq_refl) as (p0 & -> & H0 & Hd0). unfold bind at 1.
  destruct (isr_stage _ e _ _ bf_me bf_se rv_intr_m_external rv_intr_s_external p p0 He irq_core H0 Hd0 Hq)
    as (p1 & -> & Ht1 & Hd1).
  destruct (if e then _ else None) as [x |]; [exists p1; split; [reflexivity | exact Ht1] |].
  cbn [taken] in Ht1. unfold gets, bind at 1 2.
  assert (Eb : time (base p1) = time (base p)) by (change (time (sm_proc p1) = time (sm_proc p)); rewrite (proj1 Ht1); reflexivity).
  rewrite Eb.
  destruct (sees_core _ _ _ _ p1 Hup (update_time_core _) Hd1) as (p2 & -> & H2 & Hd2).
  assert (H02 : same_but_mip p p2) by (etransitivity; eassumption). unfold bind at 1.
  destruct (isr_stage _ t _ _ bf_mt bf_st rv_intr_m_timer rv_intr_s_timer p p2
              Ht (timer_core _ _) H02 Hd2 Hq) as (p3 & -> & Ht3 & Hd3).
  destruct (if t then _ else None) as [x |]; [exists p3; split; [reflexivity | exact Ht3] |].
  cbn [taken] in Ht3. unfold bind at 1.
  match goal with |- context [isr_line m cfg ?l] => set (soft_line := l) end.
  assert (Hl : sees soft_line d3 (i || c) (if i then d4 else d5)).
  { intros q Hd. unfold soft_line, bind. destruct (Hi q Hd) as (q1 & -> & Hd4).
    destruct i; [eexists; split; [reflexivity | exact Hd4] | apply (Hc eq_refl), Hd4]. }
  assert (Hk : keeps same_core soft_line (fun _ => True)).
  { apply (keeps_bind_any same_core); [apply ipi_core | intros []];
      [apply (keeps_ret same_core); exact I | apply has_char_core]. }
  destruct (isr_stage soft_line (i || c) _ _ bf_ms bf_ss rv_intr_m_software rv_intr_s_software p p3
              Hl Hk Ht3 Hd3 Hq) as (p4 & -> & Ht4 & _).
  exists p4. split; [destruct (if i || c then _ else None); reflexivity |].
  destruct (if i || c then _ else None); exact Ht4.
Qed.
End Claims.

(** ** A machine for the witnesses

    S-mode at [0x2000]; page faults and the supervisor timer are delegated,
    machine timer interrupts are enabled and pending. *)
#[local] Instance no_bus : Bus (soft unit) := {
  bus_load _ _ := ret None; bus_store _ _ _ := ret true }.

#[local] Instance timer_only : Devices unit := {
  dev_get_time := ret 0; dev_service := ret tt; dev_irq_pending := ret false;
  dev_update_time _ := ret tt; dev_timer_pending _ _ := ret true; dev_ipi_pending _ := ret false;
  dev_has_char := ret false; dev_wait := ret tt }.

#[local] Instance timer_only_laws : DevicesLaws unit.
Proof. split; intros; apply (keeps_ret same_core); exact I. Defined.

Abbreviation pm := processor_rv64imafdc_model.
Definition demo_config : priv_config := mkConfig false false false 0.

Definition demo_pregs : pregs :=
  pregs_set r_mode rv_mode_S (pregs_set r_mtvec 0x100 (pregs_set r_stvec 0x200
    (pregs_set r_mstatus 0x8 (pregs_set r_mie 0x80 (pregs_set r_medeleg 0x20 (fun _ => 0)))))).

Definition demo_priv : soft unit :=
  mkSoft (set_badaddr (set_pc proc_init 0x2000) 0x1234) demo_pregs (tlb_init 64) (tlb_init 64)
    (fun _ => 0) tt.

Definition after {A} (r : res (soft unit) A) (p : soft unit) : soft unit :=
  match r with Ok _ q | Raise _ q => q | Undefined => p end.

Lemma trap_return_witness :
  let p' := after (mtrap pm demo_config 7 true demo_priv) demo_priv in
  sm_regs p' r_mode = rv_mode_M /\
  exists v q', priv_inst pm (set_op rv_op_mret decode_init) 4 p' = Ok v q' /\
    wrap 64 (pc (sm_proc p') + v) = 0x2000 /\ sm_regs q' r_mode = rv_mode_S.
Proof.
  intros p'.
  destruct (trap_return pm demo_config m_level 7 true demo_priv p' p' (set_op rv_op_mret decode_init) 4)
    as (_ & Hm & _ & v & q' & E & Hpc & Hmode & _);
    [left; reflexivity | right; reflexivity | left; reflexivity
    | vm_compute; split; [discriminate | reflexivity] | reflexivity | reflexivity | reflexivity |].
  split; [exact Hm |]. exists v, q'. auto.
Defined.

Lemma trap_delivery_witness :
  exists p1 p', priv_trap pm demo_config decode_init rv_cause_fault_load demo_priv = Ok tt p' /\
    prepared pm s_level rv_cause_fault_load demo_priv p1 /\
    trapped pm s_level rv_cause_fault_load false p1 p'.
Proof.
  apply (trap_delivery pm demo_config decode_init rv_cause_fault_load demo_priv);
    [right; reflexivity | left; reflexivity | discriminate | discriminate
    | vm_compute; split; [discriminate | reflexivity]].
Defined.

Lemma supervisor_csr_confined_witness :
  let p' := after (priv_csr pm decode_init csr_rw rv_csr_sstatus (-1) 4 demo_priv) demo_priv in
  Z.testbit (sm_regs p' r_mstatus) 17 = Z.testbit (sm_regs demo_priv r_mstatus) 17 /\
  sm_regs p' r_mepc = sm_regs demo_priv r_mepc.
Proof.
  intros p'.
  destruct (supervisor_csr_confined pm decode_init csr_rw rv_csr_sstatus r_mstatus
    [0; 1; 4; 5; 8; 13; 14; 15; 16; 18] (-1) 4 4
    demo_priv p') as (_ & Hb & Hr);
    [right; reflexivity | reflexivity | vm_compute; split; [discriminate | reflexivity] | reflexivity |].
  split; [apply (Hb 17); vm_compute; split; [discriminate | reflexivity] | apply Hr; discriminate].
Defined.

(** ** What the privileged specification forbids *)

(** A control register is written whatever the mode: here user code turns
    machine interrupts off and sets MPP. *)
Definition user_priv : soft unit :=
  mkSoft proc_init (pregs_set r_mode rv_mode_U demo_pregs) (tlb_init 64) (tlb_init 64) (fun _ => 0) tt.

Example user_writes_mstatus :
  match priv_csr pm decode_init csr_rw rv_csr_mstatus 0x1800 4 user_priv with
  | Ok v q => v = 4 /\ sm_regs q r_mstatus = 0x1800 | _ => False end.
Proof. vm_compute. split; reflexivity. Qed.

(** [mcycle] is read at user mode's privilege, so a read gives 0 even in
    M-mode. *)
Example mcycle_reads_zero :
  let p := mkSoft (set_instret proc_init 77) (pregs_set r_mode rv_mode_M demo_pregs) (tlb_init 64)
             (tlb_init 64) (fun _ => 0) tt in
  let d := Decode.set_rd 5 decode_init in
  match priv_csr pm d csr_rs rv_csr_mcycle 0 4 p, priv_csr pm d csr_rs rv_csr_minstret 0 4 p with
  | Ok _ q, Ok _ q' => ireg (sm_proc q) !! 5%nat = Some 0 /\ ireg (sm_proc q') !! 5%nat = Some 77
  | _, _ => False end.
Proof. vm_compute. split; reflexivity. Qed.

(** An exception in M-mode is delegated like one in a lower mode. *)
Example machine_trap_delegated :
  let p := mkSoft proc_init (pregs_set r_mode rv_mode_M demo_pregs) (tlb_init 64) (tlb_init 64)
             (fun _ => 0) tt in
  match priv_trap pm demo_config decode_init rv_cause_fault_load p with
  | Ok _ q => sm_regs q r_mode = rv_mode_S /\ sm_regs q r_sepc = 0 | _ => False end.
Proof. vm_compute. split; reflexivity. Qed.

(** Machine interrupts are not taken from a lower mode with MIE clear. *)
Example machine_interrupt_masked_in_user_mode :
  let p := mkSoft proc_init (pregs_set r_mode rv_mode_U (pregs_set r_mstatus 0 demo_pregs))
             (tlb_init 64) (tlb_init 64) (fun _ => 0) tt in
  match isr pm demo_config p with
  | Ok _ q => sm_regs q r_mode = rv_mode_U /\ bf_get bf_mt (sm_regs q r_mip) = 1 | _ => False end.
Proof. vm_compute. split; reflexivity. Qed.

(** The low two bits of mtvec are written and read back as 0: the masks are
    swapped, and a trap goes to the unmasked address. *)
Example mtvec_keeps_low_bits :
  match priv_csr pm decode_init csr_rw rv_csr_mtvec 0x103 4 demo_priv with
  | Ok _ q => sm_regs q r_mtvec = 0x103 | _ => False end.
Proof. vm_compute. reflexivity. Qed.
