(* ===== verification/Devices.v ===== *)
(** * Devices: the memory-mapped devices of [rv-sys]: the real-time clock, the
    timer, the interprocessor interrupts, the interrupt controller, the UART,
    the GPIO, the host interface, the random source, the configuration and the
    ROMs ([emu/device-*.h]), the console they share ([emu/console.h]), and the
    interface [Devices] of the privileged processor.

    A device is a memory segment at host address 0, so its functions are given
    the offset of the access. *)

From Stdlib Require Import ZArith Lia Bool List.
From stdpp Require Import base numbers list.
From S2P Require Import Prelude Alu Machine Proxy Runloop Tlb Soft Memory Priv.

(** ** State *)

(** The registers of [uart_mmio_device] that the code reads or writes. *)
Record uart_regs := mkUart {
  rbr : Z; thr : Z; ier : Z; lcr : Z; mcr : Z; scr : Z; dll : Z; dlm : Z }.

(** The registers of all devices.  An array that the code accesses at several
    widths is its bytes; [dv_claimed] is an array of [u64].  [dv_in] is the
    console's queue of characters, [dv_out] what was written, newest first;
    [dv_clock], [dv_random] and [dv_notified] are what the host's clock (in
    nanoseconds), its random source and the condition variable of [wfi] will
    give. *)
Record devices := mkDevices {
  dv_clock : nat -> Z;
  dv_random : nat -> Z;
  dv_notified : nat -> bool;
  dv_sleep_time : Z;
  dv_powerdown_delay : Z;
  dv_mtime : Z;
  dv_timecmp : Z -> Z;
  dv_claimed : Z -> Z;
  dv_hart : Z -> Z;
  dv_pending : Z;
  dv_served : Z;
  dv_uart : uart_regs;
  dv_gpio : Z -> Z;
  dv_tohost : Z;
  dv_fromhost : Z;
  dv_config : Z -> Z;
  dv_in : list Z;
  dv_out : list Z }.

Section Updates.
Context (d : devices).
Definition set_dv_clock (v : nat -> Z) : devices := mkDevices v (dv_random d) (dv_notified d) (dv_sleep_time d) (dv_powerdown_delay d) (dv_mtime d) (dv_timecmp d) (dv_claimed d) (dv_hart d) (dv_pending d) (dv_served d) (dv_uart d) (dv_gpio d) (dv_tohost d) (dv_fromhost d) (dv_config d) (dv_in d) (dv_out d).
Definition set_dv_random (v : nat -> Z) : devices := mkDevices (dv_clock d) v (dv_notified d) (dv_sleep_time d) (dv_powerdown_delay d) (dv_mtime d) (dv_timecmp d) (dv_claimed d) (dv_hart d) (dv_pending d) (dv_served d) (dv_uart d) (dv_gpio d) (dv_tohost d) (dv_fromhost d) (dv_config d) (dv_in d) (dv_out d).
Definition set_dv_notified (v : nat -> bool) : devices := mkDevices (dv_clock d) (dv_random d) v (dv_sleep_time d) (dv_powerdown_delay d) (dv_mtime d) (dv_timecmp d) (dv_claimed d) (dv_hart d) (dv_pending d) (dv_served d) (dv_uart d) (dv_gpio d) (dv_tohost d) (dv_fromhost d) (dv_config d) (dv_in d) (dv_out d).
Definition set_dv_sleep_time (v : Z) : devices := mkDevices (dv_clock d) (dv_random d) (dv_notified d) v (dv_powerdown_delay d) (dv_mtime d) (dv_timecmp d) (dv_claimed d) (dv_hart d) (dv_pending d) (dv_served d) (dv_uart d) (dv_gpio d) (dv_tohost d) (dv_fromhost d) (dv_config d) (dv_in d) (dv_out d).
Definition set_dv_powerdown_delay (v : Z) : devices := mkDevices (dv_clock d) (dv_random d) (dv_notified d) (dv_sleep_time d) v (dv_mtime d) (dv_timecmp d) (dv_claimed d) (dv_hart d) (dv_pending d) (dv_served d) (dv_uart d) (dv_gpio d) (dv_tohost d) (dv_fromhost d) (dv_config d) (dv_in d) (dv_out d).
Definition set_dv_mtime (v : Z) : devices := mkDevices (dv_clock d) (dv_random d) (dv_notified d) (dv_sleep_time d) (dv_powerdown_delay d) v (dv_timecmp d) (dv_claimed d) (dv_hart d) (dv_pending d) (dv_served d) (dv_uart d) (dv_gpio d) (dv_tohost d) (dv_fromhost d) (dv_config d) (dv_in d) (dv_out d).
Definition set_dv_timecmp (v : Z -> Z) : devices := mkDevices (dv_clock d) (dv_random d) (dv_notified d) (dv_sleep_time d) (dv_powerdown_delay d) (dv_mtime d) v (dv_claimed d) (dv_hart d) (dv_pending d) (dv_served d) (dv_uart d) (dv_gpio d) (dv_tohost d) (dv_fromhost d) (dv_config d) (dv_in d) (dv_out d).
Definition set_dv_claimed (v : Z -> Z) : devices := mkDevices (dv_clock d) (dv_random d) (dv_notified d) (dv_sleep_time d) (dv_powerdown_delay d) (dv_mtime d) (dv_timecmp d) v (dv_hart d) (dv_pending d) (dv_served d) (dv_uart d) (dv_gpio d) (dv_tohost d) (dv_fromhost d) (dv_config d) (dv_in d) (dv_out d).
Definition set_dv_hart (v : Z -> Z) : devices := mkDevices (dv_clock d) (dv_random d) (dv_notified d) (dv_sleep_time d) (dv_powerdown_delay d) (dv_mtime d) (dv_timecmp d) (dv_claimed d) v (dv_pending d) (dv_served d) (dv_uart d) (dv_gpio d) (dv_tohost d) (dv_fromhost d) (dv_config d) (dv_in d) (dv_out d).
Definition set_dv_pending (v : Z) : devices := mkDevices (dv_clock d) (dv_random d) (dv_notified d) (dv_sleep_time d) (dv_powerdown_delay d) (dv_mtime d) (dv_timecmp d) (dv_claimed d) (dv_hart d) v (dv_served d) (dv_uart d) (dv_gpio d) (dv_tohost d) (dv_fromhost d) (dv_config d) (dv_in d) (dv_out d).
Definition set_dv_served (v : Z) : devices := mkDevices (dv_clock d) (dv_random d) (dv_notified d) (dv_sleep_time d) (dv_powerdown_delay d) (dv_mtime d) (dv_timecmp d) (dv_claimed d) (dv_hart d) (dv_pending d) v (dv_uart d) (dv_gpio d) (dv_tohost d) (dv_fromhost d) (dv_config d) (dv_in d) (dv_out d).
Definition set_dv_uart (v : uart_regs) : devices := mkDevices (dv_clock d) (dv_random d) (dv_notified d) (dv_sleep_time d) (dv_powerdown_delay d) (dv_mtime d) (dv_timecmp d) (dv_claimed d) (dv_hart d) (dv_pending d) (dv_served d) v (dv_gpio d) (dv_tohost d) (dv_fromhost d) (dv_config d) (dv_in d) (dv_out d).
Definition set_dv_gpio (v : Z -> Z) : devices := mkDevices (dv_clock d) (dv_random d) (dv_notified d) (dv_sleep_time d) (dv_powerdown_delay d) (dv_mtime d) (dv_timecmp d) (dv_claimed d) (dv_hart d) (dv_pending d) (dv_served d) (dv_uart d) v (dv_tohost d) (dv_fromhost d) (dv_config d) (dv_in d) (dv_out d).
Definition set_dv_tohost (v : Z) : devices := mkDevices (dv_clock d) (dv_random d) (dv_notified d) (dv_sleep_time d) (dv_powerdown_delay d) (dv_mtime d) (dv_timecmp d) (dv_claimed d) (dv_hart d) (dv_pending d) (dv_served d) (dv_uart d) (dv_gpio d) v (dv_fromhost d) (dv_config d) (dv_in d) (dv_out d).
Definition set_dv_fromhost (v : Z) : devices := mkDevices (dv_clock d) (dv_random d) (dv_notified d) (dv_sleep_time d) (dv_powerdown_delay d) (dv_mtime d) (dv_timecmp d) (dv_claimed d) (dv_hart d) (dv_pending d) (dv_served d) (dv_uart d) (dv_gpio d) (dv_tohost d) v (dv_config d) (dv_in d) (dv_out d).
Definition set_dv_config (v : Z -> Z) : devices := mkDevices (dv_clock d) (dv_random d) (dv_notified d) (dv_sleep_time d) (dv_powerdown_delay d) (dv_mtime d) (dv_timecmp d) (dv_claimed d) (dv_hart d) (dv_pending d) (dv_served d) (dv_uart d) (dv_gpio d) (dv_tohost d) (dv_fromhost d) v (dv_in d) (dv_out d).
Definition set_dv_in (v : list Z) : devices := mkDevices (dv_clock d) (dv_random d) (dv_notified d) (dv_sleep_time d) (dv_powerdown_delay d) (dv_mtime d) (dv_timecmp d) (dv_claimed d) (dv_hart d) (dv_pending d) (dv_served d) (dv_uart d) (dv_gpio d) (dv_tohost d) (dv_fromhost d) (dv_config d) v (dv_out d).
Definition set_dv_out (v : list Z) : devices := mkDevices (dv_clock d) (dv_random d) (dv_notified d) (dv_sleep_time d) (dv_powerdown_delay d) (dv_mtime d) (dv_timecmp d) (dv_claimed d) (dv_hart d) (dv_pending d) (dv_served d) (dv_uart d) (dv_gpio d) (dv_tohost d) (dv_fromhost d) (dv_config d) (dv_in d) v.
End Updates.

Section Uart_updates.
Context (u : uart_regs) (v : Z).
Definition set_rbr : uart_regs := mkUart v (thr u) (ier u) (lcr u) (mcr u) (scr u) (dll u) (dlm u).
Definition set_thr : uart_regs := mkUart (rbr u) v (ier u) (lcr u) (mcr u) (scr u) (dll u) (dlm u).
Definition set_ier : uart_regs := mkUart (rbr u) (thr u) v (lcr u) (mcr u) (scr u) (dll u) (dlm u).
Definition set_lcr : uart_regs := mkUart (rbr u) (thr u) (ier u) v (mcr u) (scr u) (dll u) (dlm u).
Definition set_mcr : uart_regs := mkUart (rbr u) (thr u) (ier u) (lcr u) v (scr u) (dll u) (dlm u).
Definition set_scr : uart_regs := mkUart (rbr u) (thr u) (ier u) (lcr u) (mcr u) v (dll u) (dlm u).
Definition set_dll : uart_regs := mkUart (rbr u) (thr u) (ier u) (lcr u) (mcr u) (scr u) v (dlm u).
Definition set_dlm : uart_regs := mkUart (rbr u) (thr u) (ier u) (lcr u) (mcr u) (scr u) (dll u) v.
End Uart_updates.

(** ** Computations on the devices *)
Abbreviation DM := (M (soft devices)).

Definition get_dev {A} (f : devices -> A) : DM A := fun p => Ok (f (sm_dev p)) p.
Definition put_dev (f : devices -> devices) : DM unit := fun p =>
  Ok tt (mkSoft (sm_proc p) (sm_regs p) (sm_itlb p) (sm_dtlb p) (sm_host p) (f (sm_dev p))).

(** The next value of a host source. *)
Definition next {A} (get : devices -> nat -> A) (set : devices -> (nat -> A) -> devices) : DM A :=
  s <- get_dev get ;; put_dev (fun d => set d (fun n => s (S n))) ;; ret (s 0%nat).

(** An unsupported width: the [load_8], ... of [memory_bus]. *)
Definition no_load : DM (option Z) := ret None.
Definition no_store : DM bool := ret true.

(** A load that leaves its result unset and reports success; one that assigns
    [v] to its result, of [w] bits. *)
Definition unset_load : DM (option Z) := undefined.
Definition loaded (w v : Z) : DM (option Z) := ret (Some (wrap w v)).
Definition stored : DM bool := ret false.

(** *** Arrays of registers

    [val = (va < total_size - (sizeof(T)-1)) ? *(as_T() + va / sizeof(T)) : 0]
    for an array of [len] bytes: an access past its end is undefined.  The
    size of a ROM is a [size_t], so that of a short one wraps. *)
Definition array_at (w va : Z) : Z := Z.shiftl (Z.shiftr va (Z.log2 (w / 8))) (Z.log2 (w / 8)).

Definition array_load (len total w va : Z) (bytes : devices -> Z -> Z) : DM (option Z) :=
  if va <? u64 (total - (w / 8 - 1)) then
    if array_at w va + w / 8 <=? len then
      m <- get_dev bytes ;; loaded w (read_T w m (array_at w va))
    else undefined
  else loaded w 0.

Definition array_store (len total w va v : Z) (bytes : devices -> Z -> Z)
    (set : devices -> (Z -> Z) -> devices) : DM unit :=
  if va <? total - (w / 8 - 1) then
    if array_at w va + w / 8 <=? len then
      m <- get_dev bytes ;; put_dev (fun d => set d (write_bytes (bytes_of w) m (array_at w va) v))
    else undefined
  else ret tt.

(** ** Console *)
Definition console_size : Z := 1024.

(** [process_input]: [queue.push_back] of a character; a full queue drops it. *)
Definition console_input (c : Z) : DM unit :=
  put_dev (fun d => if Z.of_nat (length (dv_in d)) <? console_size
                    then set_dv_in d (dv_in d ++ [u8 c]) else d).

Definition has_char : DM bool := get_dev (fun d => match dv_in d with [] => false | _ => true end).

Definition read_char : DM Z :=
  q <- get_dev dv_in ;;
  match q with
  | [] => ret 0
  | c :: q => put_dev (fun d => set_dv_in d q) ;; ret c
  end.

Definition write_char (c : Z) : DM unit := put_dev (fun d => set_dv_out d (u8 c :: dv_out d)).

(** ** Real-time clock: [device-rtc.h] *)
Definition rtc_load (w va : Z) : DM (option Z) :=
  t <- get_dev dv_mtime ;;
  if w =? 32 then switch va [0 ~> loaded w t; 4 ~> loaded w (Z.shiftr t 32)] unset_load
  else if w =? 64 then switch va [0 ~> loaded w t] unset_load
  else no_load.

(** [(r & (u64(-1) << 32)) | val] and [(r & (u64(-1) >> 32)) | (u64(val) << 32)]. *)
Definition low_half (r v : Z) : Z := Z.lor (Z.land r (u64 (Z.shiftl (-1) 32))) v.
Definition high_half (r v : Z) : Z := Z.lor (Z.land r (Z.ones 32)) (Z.shiftl v 32).

Definition rtc_store (w va v : Z) : DM bool :=
  if w =? 32 then
    switch va
      [0 ~> (put_dev (fun d => set_dv_mtime d (low_half (dv_mtime d) v)) ;; stored);
       4 ~> (put_dev (fun d => set_dv_mtime d (high_half (dv_mtime d) v)) ;; stored)] stored
  else if w =? 64 then switch va [0 ~> (put_dev (fun d => set_dv_mtime d v) ;; stored)] stored
  else no_store.

(** ** Timer: [device-timer.h]

    [timecmp] has one [u64] per hart, but [total_size] is 64 times their
    number. *)
Definition num_harts : Z := 4.
Definition timer_total_size : Z := 64 * num_harts.
Definition timer_bytes : Z := 8 * num_harts.

Definition timer_load (w va : Z) : DM (option Z) := array_load timer_bytes timer_total_size w va dv_timecmp.

Definition timer_store (w va v : Z) : DM bool :=
  array_store timer_bytes timer_total_size w va v dv_timecmp set_dv_timecmp ;;
  (if va <? timer_total_size - (w / 8 - 1)
   then put_dev (fun d => set_dv_claimed d (fun h => if h =? Z.shiftr va 3 then 0 else dv_claimed d h))
   else ret tt) ;;
  stored.

Definition timer_pending (hart_id time : Z) : DM bool :=
  d <- get_dev id ;;
  if (num_harts <=? hart_id) || (0 <? dv_claimed d hart_id) then ret false
  else if read_T 64 (dv_timecmp d) (8 * hart_id) <=? time then
    put_dev (fun d => set_dv_claimed d (fun h => if h =? hart_id then time else dv_claimed d h)) ;;
    ret true
  else ret false.

(** ** Interprocessor interrupts: [device-mipi.h] *)
Definition mipi_total_size : Z := 32 * num_harts.
Definition mipi_bytes : Z := 4 * num_harts.

Definition mipi_load (w va : Z) : DM (option Z) := array_load mipi_bytes mipi_total_size w va dv_hart.
Definition mipi_store (w va v : Z) : DM bool :=
  array_store mipi_bytes mipi_total_size w va v dv_hart set_dv_hart ;; stored.

Definition ipi_pending (hart_id : Z) : DM bool :=
  m <- get_dev dv_hart ;;
  ret (if num_harts <=? hart_id then false else 0 <? read_T 32 m (4 * hart_id)).

(** It writes [hart[num_harts]], which is past the array. *)
Definition signal_ipi (hart_id : Z) : DM unit :=
  if num_harts <=? hart_id then ret tt else undefined.

(** ** Interrupt controller: [device-plic.h] *)

(** [pending & ~served]. *)
Definition plic_mask (d : devices) : Z := Z.land (dv_pending d) (Z.lnot (dv_served d)).

Definition set_irq (irq val : Z) : DM unit :=
  if irq <? 32 then
    put_dev (fun d => set_dv_pending d
      (if val =? 0 then Z.land (dv_pending d) (Z.lnot (Z.shiftl 1 irq))
       else Z.lor (dv_pending d) (Z.shiftl 1 irq)))
  else undefined.

Definition irq_pending : DM bool := get_dev (fun d => 0 <? plic_mask d).

(** The claim: a load of the claim register. *)
Definition plic_claim (w : Z) : DM (option Z) :=
  mask <- get_dev plic_mask ;;
  if mask =? 0 then loaded w 0
  else
    let i := ctz 32 mask in
    put_dev (fun d => set_dv_served d (Z.lor (dv_served d) (Z.shiftl 1 i))) ;; loaded w (i + 1).

(** The completion: a store to it; [val] is of [w] bits. *)
Definition plic_complete (w val : Z) : DM unit :=
  let i := wrap w (val - 1) in
  if i <? 32 then put_dev (fun d => set_dv_served d (Z.land (dv_served d) (Z.lnot (Z.shiftl 1 i))))
  else ret tt.

Definition plic_load (w va : Z) : DM (option Z) :=
  if w =? 32 then (if va =? 4 then plic_claim w else loaded w 0)
  else if w =? 64 then (if va =? 0 then plic_claim w else loaded w 0)
  else no_load.

Definition plic_store (w va v : Z) : DM bool :=
  if w =? 32 then (if va =? 4 then plic_complete 32 v ;; stored else stored)
  else if w =? 64 then (if va =? 0 then plic_complete 64 v ;; stored else stored)
  else no_store.

(** ** UART: [device-uart.h] *)
Definition IER_ERBDA : Z := 0x01.
Definition IER_MASK : Z := 0x0f.
Definition IIR_TX_RDY : Z := 0x02.
Definition IIR_RD_LSR : Z := 0x06.
Definition LCR_DLAB : Z := 0x80.
Definition LSR_DA : Z := 0x01.
Definition LSR_RE : Z := 0x20.
Definition MSR_DSR : Z := 0x20.
Definition MSR_DCD : Z := 0x80.

Definition REG_RBR : Z := 0.
Definition REG_DLM : Z := 1.
Definition REG_IER : Z := 1.
Definition REG_IIR : Z := 2.
Definition REG_LCR : Z := 3.
Definition REG_MCR : Z := 4.
Definition REG_LSR : Z := 5.
Definition REG_MSR : Z := 6.
Definition REG_SCR : Z := 7.

Definition dlab (u : uart_regs) : bool := negb (Z.land (lcr u) LCR_DLAB =? 0).

Definition put_uart (f : uart_regs -> uart_regs) : DM unit :=
  put_dev (fun d => set_dv_uart d (f (dv_uart d))).

(** [service]: the interrupt line follows the console's queue. *)
Definition uart_service (irq : Z) : DM unit :=
  u <- get_dev dv_uart ;;
  up <- (if Z.land (ier u) IER_ERBDA =? 0 then ret false else has_char) ;;
  set_irq irq (b2z up).

(** [load_8]; the case of [REG_IER] falls through to the next one. *)
Definition uart_iir (w : Z) : DM (option Z) :=
  c <- has_char ;; loaded w (if c : bool then IIR_RD_LSR else IIR_TX_RDY).

Definition uart_load (w va : Z) : DM (option Z) :=
  if w =? 8 then
    u <- get_dev dv_uart ;;
    if dlab u then
      switch va [REG_RBR ~> loaded w (dll u); REG_DLM ~> loaded w (dlm u);
                 REG_LCR ~> loaded w (lcr u); REG_MCR ~> loaded w (mcr u)] unset_load
    else
      switch va
        [REG_RBR ~>
           (c <- has_char ;;
            (if c : bool then c <- read_char ;; put_uart (fun u => set_rbr u c) else ret tt) ;;
            u <- get_dev dv_uart ;; loaded w (rbr u));
         REG_IER ~> uart_iir w;
         REG_IIR ~> uart_iir w;
         REG_LCR ~> loaded w (lcr u);
         REG_MCR ~> loaded w (mcr u);
         REG_LSR ~> (c <- has_char ;; loaded w (Z.lor LSR_RE (if c : bool then LSR_DA else 0)));
         REG_MSR ~> loaded w (Z.lor MSR_DCD MSR_DSR);
         REG_SCR ~> loaded w (scr u)] (loaded w 0)
  else no_load.

Definition uart_store (w va v : Z) : DM bool :=
  if w =? 8 then
    u <- get_dev dv_uart ;;
    (if dlab u then
       switch va [REG_RBR ~> put_uart (fun u => set_dll u v); REG_DLM ~> put_uart (fun u => set_dlm u v);
                  REG_LCR ~> put_uart (fun u => set_lcr u v);
                  REG_MCR ~> put_uart (fun u => set_mcr u v)] (ret tt)
     else
       switch va
         [REG_RBR ~> (put_uart (fun u => set_thr u v) ;; write_char v);
          REG_IER ~> put_uart (fun u => set_ier u (Z.land v IER_MASK));
          REG_LCR ~> put_uart (fun u => set_lcr u v);
          REG_MCR ~> put_uart (fun u => set_mcr u v);
          REG_SCR ~> put_uart (fun u => set_scr u v)] (ret tt)) ;;
    stored
  else no_store.

(** ** GPIO: [device-gpio.h]; the words [ie], [ip], [in] and [out] *)
Definition gpio_bytes : Z := 16.
Definition OUT_POWER_OFF : Z := 1.
Definition OUT_RESET : Z := 2.

Definition gpio_word (i : Z) (d : devices) : Z := read_T 32 (dv_gpio d) (4 * i).

Definition gpio_service (irq : Z) : DM unit :=
  d <- get_dev id ;;
  set_irq irq (if Z.land (gpio_word 0 d) (gpio_word 1 d) =? 0 then 0 else 1).

(** [trigger]: the power switch raises, the reset switch resets. *)
Definition gpio_trigger : DM unit :=
  out <- get_dev (gpio_word 3) ;;
  (if Z.land out OUT_POWER_OFF =? 0 then ret tt
   else a <- gets pc ;; raise internal_cause_poweroff a) ;;
  out <- get_dev (gpio_word 3) ;;
  if Z.land out OUT_RESET =? 0 then ret tt else priv_reset.

Definition gpio_load (w va : Z) : DM (option Z) := array_load gpio_bytes gpio_bytes w va dv_gpio.
Definition gpio_store (w va v : Z) : DM bool :=
  array_store gpio_bytes gpio_bytes w va v dv_gpio set_dv_gpio ;; gpio_trigger ;; stored.

(** ** Host interface: [device-htif.h] *)
Definition htif_device_command (device command : Z) : Z :=
  Z.lor (Z.shiftl device 56) (Z.shiftl command 48).
Definition htif_device (var : Z) : Z := u8 (Z.shiftr var 56).
Definition htif_command (var : Z) : Z := u8 (Z.shiftr var 48).

Definition htif_reply (device command : Z) : DM unit :=
  put_dev (fun d => set_dv_fromhost (set_dv_tohost d 0) (htif_device_command device command)).

Definition handle_output : DM unit :=
  t <- get_dev dv_tohost ;;
  (if t =? 1 then a <- gets pc ;; raise internal_cause_poweroff a else ret tt) ;;
  let device := htif_device t in
  let command := htif_command t in
  if device =? 1 then
    switch command
      [0 ~> htif_reply device command;
       1 ~> (write_char (Z.land t 0xff) ;; htif_reply device command)] (ret tt)
  else ret tt.

Definition handle_input : DM unit :=
  f <- get_dev dv_fromhost ;;
  if f =? 0 then
    c <- has_char ;;
    if c : bool then
      c <- read_char ;; put_dev (fun d => set_dv_fromhost d (Z.lor (htif_device_command 1 0) c))
    else ret tt
  else ret tt.

Definition htif_load (w va : Z) : DM (option Z) :=
  if w =? 32 then
    switch va
      [0 ~> (t <- get_dev dv_tohost ;; loaded w t);
       4 ~> (t <- get_dev dv_tohost ;; loaded w (Z.shiftr t 32));
       8 ~> (handle_input ;; f <- get_dev dv_fromhost ;; loaded w f);
       12 ~> (f <- get_dev dv_fromhost ;; loaded w (Z.shiftr f 32))] unset_load
  else if w =? 64 then
    switch va
      [0 ~> (t <- get_dev dv_tohost ;; loaded w t);
       8 ~> (handle_input ;; f <- get_dev dv_fromhost ;; loaded w f)] unset_load
  else no_load.

Definition put_tohost (f : Z -> Z) : DM unit := put_dev (fun d => set_dv_tohost d (f (dv_tohost d))).
Definition put_fromhost (f : Z -> Z) : DM unit :=
  put_dev (fun d => set_dv_fromhost d (f (dv_fromhost d))).

Definition htif_store (w va v : Z) : DM bool :=
  if w =? 32 then
    switch va
      [0 ~> (put_tohost (fun r => low_half r v) ;; handle_output);
       4 ~> (put_tohost (fun r => high_half r v) ;; handle_output);
       8 ~> put_fromhost (fun r => low_half r v);
       12 ~> put_fromhost (fun r => high_half r v)] (ret tt) ;; stored
  else if w =? 64 then
    switch va
      [0 ~> (put_tohost (fun _ => v) ;; handle_output);
       8 ~> put_fromhost (fun _ => v)] (ret tt) ;; stored
  else no_store.

(** ** Random source: [device-rand.h] *)
Definition rand_total_size : Z := 4096.

Definition random_seed : DM Z := s <- next dv_random set_dv_random ;; ret (u32 s).

Definition rand_load (w va : Z) : DM (option Z) :=
  if w =? 64 then
    hi <- random_seed ;; lo <- random_seed ;;
    loaded w (if va <? rand_total_size - 7 then Z.lor (Z.shiftl hi 32) lo else 0)
  else
    r <- random_seed ;;
    loaded w (if va <? rand_total_size - (w / 8 - 1) then r else 0).

Definition rom_store (w va v : Z) : DM bool := no_store.

(** ** Configuration: [device-config.h]

    Seven registers; nothing in the program assigns them, so [dv_config] is
    what the allocator left. *)
Definition config_bytes (xlen : Z) : Z := xlen / 8 * 7.
Definition config_load (xlen w va : Z) : DM (option Z) :=
  array_load (config_bytes xlen) (config_bytes xlen) w va dv_config.

(** ** ROMs: [device-rom-boot.h], [device-rom-sbi.h], [device-rom-string.h]

    The images are built for the target, and the string is the machine's
    configuration: [image] are their [size] bytes. *)
Definition rom_load (image : Z -> Z) (size w va : Z) : DM (option Z) :=
  array_load size size w va (fun _ => image).

(** ** The machine *)

(** What [init] needs from the build and the command line. *)
Record roms := mkRoms {
  sbi_size : Z; sbi_image : Z -> Z; boot_size : Z; boot_image : Z -> Z;
  string_size : Z; string_image : Z -> Z }.

Section Machine.
Context (xlen : Z) (r : roms).

Definition uart_irq : Z := 3.
Definition gpio_irq : Z := 4.

(** The segments [init] adds, in its order. *)
Definition device_segments : list (mem_segment devices) :=
  [mkSegment (wrap xlen (-4096)) 0 (sbi_size r) (rom_load (sbi_image r) (sbi_size r)) rom_store;
   mkSegment 0x1000 0 (boot_size r) (rom_load (boot_image r) (boot_size r)) rom_store;
   mkSegment 0x40000000 0 8 rtc_load rtc_store;
   mkSegment 0x40001000 0 mipi_total_size mipi_load mipi_store;
   mkSegment 0x40002000 0 8 plic_load plic_store;
   mkSegment 0x40003000 0 8 uart_load uart_store;
   mkSegment 0x40004000 0 timer_total_size timer_load timer_store;
   mkSegment 0x40005000 0 gpio_bytes gpio_load gpio_store;
   mkSegment 0x40006000 0 rand_total_size rand_load rom_store;
   mkSegment 0x40008000 0 16 htif_load htif_store;
   mkSegment 0x4000f000 0 (config_bytes xlen) (config_load xlen) rom_store;
   mkSegment 0x40010000 0 (string_size r) (rom_load (string_image r) (string_size r)) rom_store].

(** [get_time()]: the clock in units of [RTC_DIV] nanoseconds. *)
Definition RTC_DIV : Z := 100.
Definition time_ns : DM Z := t <- next dv_clock set_dv_clock ;; ret (u64 t).
Definition get_time : DM Z := t <- time_ns ;; ret (t / RTC_DIV).

(** [wait_for_interrupt()]: it yields or sleeps, and keeps when it woke. *)
Definition POWERDOWN_DELAY_INTERRUPT : Z := 30000000.
Definition POWERDOWN_DELAY_DEFAULT : Z := 10000.

Definition wait_for_interrupt : DM unit :=
  t <- time_ns ;;
  d <- get_dev id ;;
  if u64 (t - dv_sleep_time d) <? dv_powerdown_delay d then ret tt
  else
    woken <- next dv_notified set_dv_notified ;;
    put_dev (fun d => set_dv_powerdown_delay d
      (if woken : bool then POWERDOWN_DELAY_INTERRUPT else POWERDOWN_DELAY_DEFAULT)) ;;
    t <- time_ns ;;
    put_dev (fun d => set_dv_sleep_time d t).

#[export] Instance machine_devices : Devices devices := {
  dev_get_time := get_time;
  dev_service := uart_service uart_irq ;; gpio_service gpio_irq;
  dev_irq_pending := irq_pending;
  dev_update_time t := put_dev (fun d => set_dv_mtime d (wrap xlen t));
  dev_timer_pending := timer_pending;
  dev_ipi_pending := ipi_pending;
  dev_has_char := has_char;
  dev_wait := wait_for_interrupt }.
End Machine.

(** [devices] after [init]: registers are zero and every timer is claimed. *)
Definition devices_init (clock random : nat -> Z) (notified : nat -> bool) (config : Z -> Z) : devices :=
  mkDevices clock random notified 0 1000 0 (fun _ => 0) (fun _ => 2 ^ 64 - 1) (fun _ => 0) 0 0
    (mkUart 0 0 0 0 0 0 0 0) (fun _ => 0) 0 0 config [] [].
