(* ===== verification/DeviceLaws.v ===== *)
(** * DeviceLaws: the devices change no register of the processor, so they
    implement the interface of the privileged processor and, all but the GPIO
    and the host interface, that of the memory bus. *)

From Stdlib Require Import ZArith Lia Bool List.
From stdpp Require Import base numbers list.
From S2P Require Import Prelude Alu Machine Proxy Runloop Tlb Soft Memory Priv Devices.

(** ** Frame conditions *)
Create HintDb core.

Abbreviation core m := (keeps same_core m (fun _ => True)).

Lemma get_dev_core {A} (f : devices -> A) : core (get_dev f).
Proof. intros p. split; [repeat split | exact I]. Qed.
Lemma put_dev_core f : core (put_dev f).
Proof. intros p. split; [repeat split | exact I]. Qed.
Lemma ret_core {A} (a : A) : core (ret (P := soft devices) a).
Proof. apply (keeps_ret same_core). exact I. Qed.
Lemma undefined_core {A} : core (undefined (P := soft devices) (A := A)).
Proof. apply keeps_undefined. Qed.
Lemma bind_core {A B} (m : DM A) (f : A -> DM B) : core m -> (forall a, core (f a)) -> core (bind m f).
Proof. apply (keeps_bind_any same_core). Qed.
Lemma next_core {A} (get : devices -> nat -> A) set : core (next get set).
Proof.
  apply bind_core; [apply get_dev_core | intros s]. apply bind_core; [apply put_dev_core |].
  intros _. apply ret_core.
Qed.
Lemma switch_core {A} z (cases : list (Z * DM A)) d :
  core d -> Forall (fun ka => core ka.2) cases -> core (switch z cases d).
Proof.
  intros Hd H. apply switch_ind; [exact Hd |]. eapply Forall_impl; [exact H |]. auto.
Qed.
#[export] Hint Resolve get_dev_core put_dev_core ret_core undefined_core next_core : core.

(** Decompose a computation into the primitives. *)
Ltac each_case := repeat (apply Forall_cons_2); [.. | apply Forall_nil_2]; cbn [snd].

Ltac core_step :=
  match goal with
  | |- keeps _ (bind _ _) _ => apply bind_core; [| intros ?]
  | |- keeps _ (switch _ _ _) _ => apply switch_core; [| each_case]
  | |- keeps _ (if ?b then _ else _) _ => destruct b
  | |- keeps _ (match ?q with _ => _ end) _ => destruct q
  | |- _ => solve [auto with core]
  end.
Ltac core_solve := repeat core_step.

Lemma set_irq_core irq v : core (set_irq irq v).
Proof. unfold set_irq. core_solve. Qed.
Lemma has_char_device_core : core has_char.
Proof. apply get_dev_core. Qed.
Lemma read_char_core : core read_char.
Proof. unfold read_char. core_solve. Qed.
Lemma write_char_core c : core (write_char c).
Proof. apply put_dev_core. Qed.
#[export] Hint Resolve set_irq_core has_char_device_core read_char_core write_char_core : core.

Lemma uart_service_core irq : core (uart_service irq).
Proof. unfold uart_service. core_solve. Qed.
Lemma gpio_service_core irq : core (gpio_service irq).
Proof. unfold gpio_service. core_solve. Qed.
Lemma time_ns_core : core time_ns.
Proof. unfold time_ns. core_solve. Qed.
#[export] Hint Resolve uart_service_core gpio_service_core time_ns_core : core.

(** The devices of [rv-sys] implement [Devices]. *)
#[export] Instance machine_devices_laws xlen : @DevicesLaws devices (machine_devices xlen).
Proof.
  split; intros; cbn [dev_get_time dev_service dev_irq_pending dev_update_time dev_timer_pending
    dev_ipi_pending dev_has_char dev_wait machine_devices];
    unfold get_time, timer_pending, ipi_pending, irq_pending, wait_for_interrupt; core_solve.
Qed.

(** ** The segments *)

(** What a load of [w] bits gives. *)
Abbreviation gives w m := (keeps same_core m (fun r => forall v, r = Some v -> 0 <= v < 2 ^ w)).

Lemma loaded_gives w v : 0 < w -> gives w (loaded w v).
Proof. intros Hw. apply (keeps_ret same_core). intros v' [= <-]. apply wrap_range, Hw. Qed.
Lemma no_load_gives w : gives w no_load.
Proof. apply (keeps_ret same_core). intros v [=]. Qed.
Lemma unset_gives w : gives w unset_load.
Proof. apply keeps_undefined. Qed.
Lemma undefined_gives w : gives w (undefined (P := soft devices)).
Proof. apply keeps_undefined. Qed.
Lemma bind_gives {A} w (m : DM A) f : core m -> (forall a, gives w (f a)) -> gives w (bind m f).
Proof. intros Hm Hf. eapply (keeps_bind same_core); [exact Hm | intros a _; apply Hf]. Qed.
Lemma switch_gives w z (cases : list (Z * DM (option Z))) d :
  gives w d -> Forall (fun ka => gives w ka.2) cases -> gives w (switch z cases d).
Proof.
  intros Hd H. apply switch_ind; [exact Hd |]. eapply Forall_impl; [exact H |]. auto.
Qed.
#[export] Hint Resolve loaded_gives no_load_gives unset_gives undefined_gives : core.

Ltac gives_step :=
  match goal with
  | |- keeps _ (bind _ _) (fun r => forall v, r = Some v -> _) => apply bind_gives; [core_solve | intros ?]
  | |- keeps _ (switch _ _ _) _ => apply switch_gives; [| each_case]
  | |- keeps _ (if ?b then _ else _) _ => destruct b
  | |- _ => solve [auto with core]
  end.
Ltac gives_solve := repeat gives_step.

Lemma array_load_gives len total w va bytes : 0 < w -> gives w (array_load len total w va bytes).
Proof. intros Hw. unfold array_load. gives_solve. Qed.
Lemma array_store_core len total w va v bytes set : core (array_store len total w va v bytes set).
Proof. unfold array_store. core_solve. Qed.
#[export] Hint Resolve array_load_gives array_store_core : core.

(** Every segment but the two that may raise or reset. *)
Theorem device_segments_ok xlen r :
  Forall (fun s => seg_mpa s = 0x40005000 \/ seg_mpa s = 0x40008000 \/ segment_ok s)
    (device_segments xlen r).
Proof.
  unfold device_segments. repeat (apply Forall_cons_2); [.. | apply Forall_nil_2]; cbn [seg_mpa].
  8, 10: auto.
  all: right; right; split; cbn [seg_load seg_store]; intros;
    unfold rom_load, config_load, rom_store, rtc_load, rtc_store, mipi_load, mipi_store, plic_load, plic_store, plic_claim, plic_complete,
      uart_load, uart_iir, uart_store, put_uart, timer_load, timer_store, rand_load, random_seed,
      stored, no_store; [ gives_solve | core_solve ].
Qed.
