(* ===== verification/DeviceTheorems.v ===== *)
(** * DeviceTheorems: the properties of the devices: the interrupt
    controller's claims, the timer's deadlines, the UART's input and its
    interrupt, the address map, and the bounds of register arrays. *)

From Stdlib Require Import ZArith Lia Bool List.
From stdpp Require Import base numbers list.
From S2P Require Import Prelude Alu Machine Proxy Model Runloop Tlb Soft Memory Priv PrivTheorems Devices DeviceLaws.

(** ** Sequences of events *)
Section Trace.
Context {St Ev : Type} (step : St -> Ev -> St -> Prop).

Inductive trace : St -> list Ev -> St -> Prop :=
  | trace_nil p : trace p [] p
  | trace_cons p e q es r : step p e q -> trace q es r -> trace p (e :: es) r.

(** A property lasts until an event that may end it. *)
Lemma trace_until (P : St -> Prop) (Q : Ev -> Prop) p es q :
  (forall p e q, P p -> step p e q -> Q e \/ P q) ->
  trace p es q -> P p -> Exists Q es \/ P q.
Proof using.
  intros Hs Ht. induction Ht as [| p e q es r He _ IH]; intros HP; [right; exact HP |].
  destruct (Hs _ _ _ HP He) as [HQ | HP']; [left; constructor; exact HQ |].
  destruct (IH HP'); [left; apply Exists_cons_tl |]; auto.
Qed.
End Trace.

Ltac run_dev :=
  unfold get_dev, put_dev, loaded, stored, bind, ret in *; cbn [sm_dev sm_proc sm_regs] in *.

(** ** The interrupt controller *)
Abbreviation dev p f := (f (sm_dev p)).

Record plic_wf (d : devices) : Prop := {
  wf_pending : 0 <= dv_pending d < 2 ^ 32; wf_served : 0 <= dv_served d < 2 ^ 32 }.

(** The interrupt [i] is raised and not claimed. *)
Definition waiting (d : devices) (i : Z) : bool :=
  Z.testbit (dv_pending d) i && negb (Z.testbit (dv_served d) i).

(** Where the claim register is, by the width of the access. *)
Definition claim_reg (w va : Z) : Prop := (w = 32 /\ va = 4) \/ (w = 64 /\ va = 0).

Lemma plic_mask_spec d i : 0 <= i -> Z.testbit (plic_mask d) i = waiting d i.
Proof. intros Hi. unfold plic_mask, waiting. rewrite Z.land_spec, Z.lnot_spec by exact Hi. reflexivity. Qed.

Lemma clearbit_range x y : 0 <= x < 2 ^ 32 -> 0 <= Z.land x (Z.lnot y) < 2 ^ 32.
Proof.
  intros Hx. rewrite <- (wrap_small 32 x) by exact Hx.
  replace (Z.land _ _) with (wrap 32 (Z.land x (Z.lnot y))); [apply wrap_range; lia |].
  bitwise i Hi. rewrite !wrap_spec, Z.land_spec, Z.lnot_spec by lia. destruct (i <? 32); reflexivity.
Qed.

Lemma plic_mask_range d : plic_wf d -> 0 <= plic_mask d < 2 ^ 32.
Proof. intros [Hp _]. apply clearbit_range, Hp. Qed.

Lemma setbit_range x i : 0 <= x < 2 ^ 32 -> 0 <= i < 32 -> 0 <= Z.lor x (Z.shiftl 1 i) < 2 ^ 32.
Proof.
  intros Hx Hi. apply lor_range; [lia | exact Hx |]. rewrite Z.shiftl_1_l.
  split; [apply Z.pow_nonneg; lia | apply Z.pow_lt_mono_r; lia].
Qed.

Lemma shift1_spec i j : 0 <= i -> 0 <= j -> Z.testbit (Z.shiftl 1 i) j = (i =? j).
Proof. intros Hi Hj. rewrite Z.shiftl_1_l. apply Z.pow2_bits_eqb, Hi. Qed.

Lemma plic_claim_run w p :
  w = 32 \/ w = 64 -> plic_wf (sm_dev p) ->
  exists k p', plic_claim w p = Ok (Some k) p' /\ same_core p p' /\ plic_wf (sm_dev p') /\
    dev p' dv_pending = dev p dv_pending /\ 0 <= k <= 32 /\
    (if k =? 0 then (forall i, 0 <= i < 32 -> waiting (sm_dev p) i = false) /\ p' = p
     else waiting (sm_dev p) (k - 1) = true /\
          (forall i, 0 <= i < k - 1 -> waiting (sm_dev p) i = false)) /\
    (forall i, 0 <= i -> Z.testbit (dev p' dv_served) i =
       Z.testbit (dev p dv_served) i || negb (k =? 0) && (i =? k - 1)).
Proof.
  intros Hw Hwf. pose proof (plic_mask_range _ Hwf) as Hm. unfold plic_claim. run_dev.
  set (mask := plic_mask (sm_dev p)) in *. destruct (Z.eqb_spec mask 0) as [E | NE].
  - exists 0, p. rewrite wrap_small by (destruct Hw as [-> | ->]; lia).
    repeat split; try apply Hwf; try lia.
    + intros i Hi. rewrite <- plic_mask_spec by lia. fold mask. rewrite E. apply Z.testbit_0_l.
    + intros i Hi. rewrite orb_false_r. reflexivity.
  - destruct (ctz_spec 32 ltac:(lia) mask) as (Hc & Hz & Ho). set (i := ctz 32 mask) in *.
    assert (Hi : i < 32).
    { destruct (Z.eqb_spec i 32) as [E |]; [| lia]. exfalso. apply NE.
      apply Z.bits_inj'. intros j Hj. rewrite Z.testbit_0_l.
      destruct (Z.ltb_spec j 32); [apply Hz; lia |].
      rewrite <- (wrap_small 32 mask), wrap_spec by (exact Hm || lia).
      destruct (Z.ltb_spec j 32); [lia | reflexivity]. }
    exists (i + 1). eexists. rewrite wrap_small by (destruct Hw as [-> | ->]; lia).
    destruct Hwf as [Hp Hs].
    split; [reflexivity |]. cbn [sm_dev set_dv_served dv_pending dv_served].
    destruct (Z.eqb_spec (i + 1) 0); [lia |]. replace (i + 1 - 1) with i by lia.
    split; [repeat split |]. split; [split; cbn; [exact Hp | apply setbit_range; lia] |].
    split; [reflexivity |]. split; [lia |]. split; [split |].
    + rewrite <- plic_mask_spec by lia. apply Ho, Hi.
    + intros j Hj. rewrite <- plic_mask_spec by lia. apply Hz. lia.
    + intros j Hj. rewrite Z.lor_spec, shift1_spec by lia. cbn [negb andb]. f_equal. apply Z.eqb_sym.
Qed.

Lemma plic_load_claim w va p : claim_reg w va -> plic_load w va p = plic_claim w p.
Proof. intros [[-> ->] | [-> ->]]; reflexivity. Qed.

(** Claims.  A load of the claim register gives 0 when no raised
    interrupt is unclaimed, and otherwise the lowest such interrupt plus one,
    which it marks as served; nothing else changes. *)
Theorem plic_claim_lowest w va p :
  claim_reg w va -> plic_wf (sm_dev p) ->
  exists k p', plic_load w va p = Ok (Some k) p' /\ same_core p p' /\
    (if k =? 0 then (forall i, 0 <= i < 32 -> waiting (sm_dev p) i = false) /\ p' = p
     else waiting (sm_dev p) (k - 1) = true /\
          (forall i, 0 <= i < k - 1 -> waiting (sm_dev p) i = false) /\
          (forall i, 0 <= i -> waiting (sm_dev p') i = waiting (sm_dev p) i && negb (i =? k - 1))).
Proof.
  intros Hr Hwf. rewrite (plic_load_claim _ _ _ Hr).
  destruct (plic_claim_run w p) as (k & p' & E & Hc & _ & Hp & _ & Hk & Hs);
    [destruct Hr as [[-> _] | [-> _]]; auto | exact Hwf |].
  exists k, p'. split; [exact E |]. split; [exact Hc |].
  destruct (Z.eqb_spec k 0); [exact Hk |]. destruct Hk as [Hk Hlow]. split; [exact Hk |].
  split; [exact Hlow |]. intros i Hi. unfold waiting. rewrite Hp, Hs by exact Hi. cbn [negb andb].
  destruct (Z.testbit _ i), (Z.testbit _ i), (i =? k - 1); reflexivity.
Qed.

(** *** Exclusive service *)
Inductive plic_event := ev_line | ev_claim (k : Z) | ev_complete (k : Z) | ev_other.

(** What happens to the controller: a device drives its line, the guest loads
    or stores the claim register, or something else happens. *)
Inductive plic_step : soft devices -> plic_event -> soft devices -> Prop :=
  | step_line irq v p p' : 0 <= irq -> set_irq irq v p = Ok tt p' -> plic_step p ev_line p'
  | step_claim w va k p p' :
      claim_reg w va -> plic_load w va p = Ok (Some k) p' -> plic_step p (ev_claim k) p'
  | step_complete w va k p p' :
      claim_reg w va -> 0 <= k < 2 ^ w -> plic_store w va k p = Ok false p' ->
      plic_step p (ev_complete k) p'
  | step_other p p' :
      dev p' dv_pending = dev p dv_pending -> dev p' dv_served = dev p dv_served ->
      plic_step p ev_other p'.

Lemma set_irq_run irq v p p' :
  0 <= irq -> set_irq irq v p = Ok tt p' -> plic_wf (sm_dev p) ->
  plic_wf (sm_dev p') /\ dev p' dv_served = dev p dv_served.
Proof.
  intros Hi H [Hp Hs]. unfold set_irq in H. destruct (Z.ltb_spec irq 32); [| discriminate].
  run_dev. injection H as <-. cbn [sm_dev set_dv_pending dv_served].
  split; [split; cbn [dv_pending dv_served]; [| exact Hs] | reflexivity].
  destruct (v =? 0); [apply clearbit_range, Hp | apply setbit_range; [exact Hp | lia]].
Qed.

Lemma plic_complete_run w va k p p' :
  claim_reg w va -> 0 <= k < 2 ^ w -> plic_store w va k p = Ok false p' -> plic_wf (sm_dev p) ->
  plic_wf (sm_dev p') /\ dev p' dv_pending = dev p dv_pending /\
  forall i, 0 <= i < 32 ->
    Z.testbit (dev p' dv_served) i = Z.testbit (dev p dv_served) i && negb (k =? i + 1).
Proof.
  intros Hr Hk H [Hp Hs].
  assert (E : (plic_complete w k ;; stored) p = Ok false p').
  { destruct Hr as [[-> ->] | [-> ->]]; exact H. }
  assert (Hw : w = 32 \/ w = 64) by (destruct Hr as [[-> _] | [-> _]]; auto).
  clear H. unfold plic_complete in E. run_dev.
  assert (Hwk : k = 0 /\ wrap w (k - 1) = 2 ^ w - 1 \/ 1 <= k /\ wrap w (k - 1) = k - 1).
  { destruct (Z.eqb_spec k 0) as [-> |]; [left | right; split; [lia | apply wrap_small; lia]].
    split; [reflexivity |]. destruct Hw as [-> | ->]; reflexivity. }
  destruct (Z.ltb_spec (wrap w (k - 1)) 32); injection E as <-;
    cbn [sm_dev set_dv_served dv_pending dv_served].
  - assert (E : wrap w (k - 1) = k - 1) by (destruct Hwk as [[-> E] | [_ E]]; [destruct Hw as [-> | ->]; lia | exact E]).
    rewrite E in *. split; [split; [exact Hp | apply clearbit_range, Hs] |]. split; [reflexivity |].
    intros i Hi. pose proof (wrap_range w ltac:(lia) (k - 1)).
    rewrite Z.land_spec, Z.lnot_spec, shift1_spec by lia. do 2 f_equal.
    destruct (Z.eqb_spec (k - 1) i), (Z.eqb_spec k (i + 1)); lia.
  - split; [split; assumption |]. split; [reflexivity |]. intros i Hi.
    destruct (Z.eqb_spec k (i + 1)) as [-> |]; [| rewrite andb_true_r; reflexivity].
    destruct Hwk as [[? _] | [_ E]]; lia.
Qed.

(** The claim register is all the two accesses change. *)
Lemma plic_claim_frame w p r p' :
  plic_claim w p = Ok r p' -> dev p' dv_uart = dev p dv_uart /\ dev p' dv_in = dev p dv_in.
Proof.
  unfold plic_claim. run_dev. destruct (_ =? 0); intros H; injection H as _ <-; split; reflexivity.
Qed.

Lemma plic_complete_ok w va k p :
  claim_reg w va ->
  exists p', plic_store w va k p = Ok false p' /\ dev p' dv_uart = dev p dv_uart /\
    dev p' dv_in = dev p dv_in.
Proof.
  intros [[-> ->] | [-> ->]]; unfold plic_store; cbn [Z.eqb Pos.eqb]; unfold plic_complete; run_dev;
    destruct (_ <? 32); eexists; repeat split.
Qed.

(** The claimed interrupt stays served until its completion. *)
Lemma served_until k p e q :
  1 <= k <= 32 -> plic_wf (sm_dev p) /\ Z.testbit (dev p dv_served) (k - 1) = true ->
  plic_step p e q ->
  e = ev_complete k \/ plic_wf (sm_dev q) /\ Z.testbit (dev q dv_served) (k - 1) = true.
Proof.
  intros Hk [Hwf Hb] Hs. destruct Hs as [irq v p p' Hi E | w va k' p p' Hr E | w va k' p p' Hr Hk' E | p p' Ep Es].
  - right. destruct (set_irq_run _ _ _ _ Hi E Hwf) as [Hwf' ->]. auto.
  - right. rewrite (plic_load_claim _ _ _ Hr) in E.
    destruct (plic_claim_run w p) as (k2 & p2 & E' & _ & Hwf' & _ & _ & _ & Hs);
      [destruct Hr as [[-> _] | [-> _]]; auto | exact Hwf |].
    rewrite E in E'. injection E' as <- <-. split; [exact Hwf' |]. rewrite Hs, Hb by lia. reflexivity.
  - destruct (plic_complete_run _ _ _ _ _ Hr Hk' E Hwf) as (Hwf' & _ & Hs).
    destruct (Z.eqb_spec k' k) as [-> | N]; [left; reflexivity | right].
    split; [exact Hwf' |]. rewrite Hs, Hb by lia. destruct (Z.eqb_spec k' (k - 1 + 1)); [lia | reflexivity].
  - right. rewrite Es. split; [| exact Hb]. destruct Hwf. split; rewrite ?Ep, ?Es; assumption.
Qed.

(** C28 - Exclusive service.  Whatever the devices' lines, the guest and the
    rest of the machine do, an interrupt that was claimed is claimed again
    only after the guest completed it. *)
Theorem plic_exclusive k p q evs r r' :
  plic_wf (sm_dev p) -> k <> 0 ->
  plic_step p (ev_claim k) q -> trace plic_step q evs r -> plic_step r (ev_claim k) r' ->
  In (ev_complete k) evs.
Proof.
  intros Hwf Hk Hc Ht Hc'. inversion Hc as [| w va k' p0 q0 Hr E | |]; subst.
  rewrite (plic_load_claim _ _ _ Hr) in E.
  destruct (plic_claim_run w p) as (k2 & p2 & E' & _ & Hwf' & _ & Hk2 & _ & Hs);
    [destruct Hr as [[-> _] | [-> _]]; auto | exact Hwf |].
  rewrite E in E'. injection E' as <- <-.
  assert (Hq : plic_wf (sm_dev q) /\ Z.testbit (dev q dv_served) (k - 1) = true).
  { split; [exact Hwf' |]. rewrite Hs by lia. destruct (Z.eqb_spec k 0); [lia |].
    rewrite Z.eqb_refl. apply orb_true_r. }
  destruct (trace_until plic_step _ (fun e => e = ev_complete k) q evs r
              (fun p e q => served_until k p e q ltac:(lia)) Ht Hq) as [Hex | [Hwr Hb]].
  - apply List.Exists_exists in Hex as (e & He & ->). exact He.
  - exfalso. inversion Hc' as [| w' va' k' p0 q0 Hr' E0 | |]; subst.
    rewrite (plic_load_claim _ _ _ Hr') in E0.
    destruct (plic_claim_run w' r) as (k3 & p3 & E3 & _ & _ & _ & _ & Hk3 & _);
      [destruct Hr' as [[-> _] | [-> _]]; auto | exact Hwr |].
    rewrite E0 in E3. injection E3 as <- <-. destruct (Z.eqb_spec k 0); [lia |].
    destruct Hk3 as [Hk3 _]. unfold waiting in Hk3. rewrite Hb, andb_false_r in Hk3. discriminate.
Qed.

(** ** The timer *)

(** The register an access of [w] bits at [va] goes to starts in the same
    eight bytes. *)
Lemma array_at_word w va :
  bus_width w = true -> 0 <= va ->
  8 * (va / 8) <= array_at w va /\ array_at w va + w / 8 <= 8 * (va / 8) + 8 /\ array_at w va <= va.
Proof.
  intros Hw Hva. unfold bus_width in Hw. rewrite !orb_true_iff, !Z.eqb_eq in Hw. unfold array_at.
  destruct Hw as [[[-> | ->] | ->] | ->]; rewrite Z.shiftl_mul_pow2, Z.shiftr_div_pow2 by apply Z.log2_nonneg;
    pose proof (Z.div_mod va 8 ltac:(lia)); pose proof (Z.mod_pos_bound va 8 ltac:(lia)).
  - change (8 / 8) with 1. change (2 ^ Z.log2 1) with 1. rewrite Z.div_1_r. lia.
  - change (16 / 8) with 2. change (2 ^ Z.log2 2) with 2.
    pose proof (Z.div_mod va 2 ltac:(lia)). pose proof (Z.mod_pos_bound va 2 ltac:(lia)). lia.
  - change (32 / 8) with 4. change (2 ^ Z.log2 4) with 4.
    pose proof (Z.div_mod va 4 ltac:(lia)). pose proof (Z.mod_pos_bound va 4 ltac:(lia)). lia.
  - change (64 / 8) with 8. change (2 ^ Z.log2 8) with 8. lia.
Qed.

Inductive timer_event := ev_tick (h t : Z) (fired : bool) | ev_write (va : Z) | ev_else.

Inductive timer_step : soft devices -> timer_event -> soft devices -> Prop :=
  | step_tick h t b p p' : 0 <= h -> timer_pending h t p = Ok b p' -> timer_step p (ev_tick h t b) p'
  | step_write w va v p p' :
      bus_width w = true -> 0 <= va -> timer_store w va v p = Ok false p' ->
      timer_step p (ev_write va) p'
  | step_else p p' :
      dev p' dv_timecmp = dev p dv_timecmp -> dev p' dv_claimed = dev p dv_claimed ->
      timer_step p ev_else p'.

(** What the ticks of hart [h] show for the deadline [v]: the first one at
    or past it fires, the others do not. *)
Fixpoint deadline (h v : Z) (armed : bool) (evs : list timer_event) : Prop :=
  match evs with
  | [] => True
  | ev_tick h' t b :: evs =>
      if h' =? h then b = armed && (v <=? t) /\ deadline h v (armed && negb b) evs
      else deadline h v armed evs
  | _ :: evs => deadline h v armed evs
  end.

(** Positive times, and no store to the hart's deadline. *)
Definition undisturbed (h : Z) (e : timer_event) : Prop :=
  match e with ev_tick _ t _ => 0 < t | ev_write va => va / 8 <> h | ev_else => True end.

(** Hart [h] has the deadline [v], still to fire or fired. *)
Definition timer_state (h v : Z) (armed : bool) (d : devices) : Prop :=
  read_T 64 (dv_timecmp d) (8 * h) = v /\ if armed then dv_claimed d h = 0 else 0 < dv_claimed d h.

Lemma timer_store_run w va v p p' :
  bus_width w = true -> 0 <= va -> timer_store w va v p = Ok false p' ->
  va < timer_total_size - (w / 8 - 1) /\
  dev p' dv_timecmp = write_bytes (bytes_of w) (dev p dv_timecmp) (array_at w va) v /\
  (forall h, dev p' dv_claimed h = if h =? va / 8 then 0 else dev p dv_claimed h) \/
  timer_total_size - (w / 8 - 1) <= va /\ sm_dev p' = sm_dev p.
Proof.
  intros Hw Hva H. unfold timer_store, array_store in H. destruct (Z.ltb_spec va (timer_total_size - (w / 8 - 1))).
  - left. destruct (_ <=? _); [| discriminate]. run_dev. injection H as <-. cbn.
    split; [assumption |]. split; [reflexivity |]. intros h.
    rewrite Z.shiftr_div_pow2 by lia. reflexivity.
  - right. run_dev. injection H as <-. auto.
Qed.

Lemma timer_tick_run h t b p p' :
  0 <= h < num_harts -> timer_pending h t p = Ok b p' ->
  (forall v armed, timer_state h v armed (sm_dev p) -> b = armed && (v <=? t)) /\
  dev p' dv_timecmp = dev p dv_timecmp /\
  forall h', dev p' dv_claimed h' = if b && (h' =? h) then t else dev p dv_claimed h'.
Proof.
  intros Hh H. unfold timer_pending in H. run_dev. unfold id in H.
  destruct (Z.leb_spec num_harts h); [lia |]. cbn [orb] in H.
  destruct (Z.ltb_spec 0 (dv_claimed (sm_dev p) h)) as [Hc | Hc].
  { injection H as <- <-. split; [| auto]. intros v [|] [_ Ha]; [lia | reflexivity]. }
  destruct (Z.leb_spec (read_T 64 (dv_timecmp (sm_dev p)) (8 * h)) t) as [Hv | Hv];
    injection H as <- <-; (split; [| auto]); intros v [|] [Hr Ha]; lia.
Qed.

Lemma timer_other_hart h t b p p' :
  num_harts <= h -> timer_pending h t p = Ok b p' -> p' = p.
Proof.
  intros Hh H. unfold timer_pending in H. run_dev. destruct (Z.leb_spec num_harts h); [| lia].
  cbn [orb] in H. injection H as _ <-. reflexivity.
Qed.

(** One event keeps or spends the deadline. *)
Lemma timer_state_step h v armed p e q :
  0 <= h < num_harts -> timer_state h v armed (sm_dev p) -> timer_step p e q -> undisturbed h e ->
  match e with
  | ev_tick h' t b =>
      if h' =? h then b = armed && (v <=? t) /\ timer_state h v (armed && negb b) (sm_dev q)
      else timer_state h v armed (sm_dev q)
  | _ => timer_state h v armed (sm_dev q)
  end.
Proof.
  intros Hh Hs He Hu. destruct He as [h' t b p p' Hh' E | w va x p p' Hw Hva E | p p' Et Ec].
  - destruct (Z.eqb_spec h' h) as [-> | N].
    + destruct (timer_tick_run _ _ _ _ _ Hh E) as (Hb & Et & Ec). pose proof (Hb _ _ Hs) as Hb'.
      split; [exact Hb' |]. destruct Hs as [Hr Ha]. split; [rewrite Et; exact Hr |].
      rewrite Ec, Z.eqb_refl. cbn in Hu. destruct b, armed; cbn; try assumption; discriminate.
    + destruct (Z.ltb_spec h' num_harts).
      * destruct (timer_tick_run h' _ _ _ _ ltac:(lia) E) as (_ & Et & Ec).
        split; [rewrite Et; apply Hs |]. rewrite Ec. destruct (Z.eqb_spec h h'); [lia |].
        rewrite andb_false_r. apply Hs.
      * rewrite (timer_other_hart _ _ _ _ _ ltac:(eassumption) E). exact Hs.
  - cbn in Hu. destruct (timer_store_run _ _ _ _ _ Hw Hva E) as [(_ & Et & Ec) | [_ ->]]; [| exact Hs].
    destruct (array_at_word w va Hw Hva) as (Hlo & Hhi & _). destruct (bus_width_bytes w Hw) as [Hb _].
    assert (Hn : w / 8 = Z.of_nat (bytes_of w)) by (rewrite Hb at 1; rewrite Z.mul_comm, Z.div_mul; lia).
    split.
    + rewrite Et. destruct Hs as [Hr _]. rewrite <- Hr. unfold read_T. f_equal.
      apply read_write_bytes_disjoint. change (Z.of_nat (bytes_of 64)) with 8. lia.
    + rewrite Ec. destruct (Z.eqb_spec h (va / 8)); [lia | apply Hs].
  - destruct Hs as [Hr Ha]. split; [rewrite Et; exact Hr | rewrite Ec; exact Ha].
Qed.

(** C30 - The timer.  After a store of [v] to a hart's [timecmp], and until the
    next store to it, the first tick of the hart at a time at or past [v]
    raises its interrupt and no other tick does, whatever the other harts and
    the rest of the machine do. *)
Theorem timer_one_shot h v p q evs r :
  0 <= h < num_harts -> 0 <= v < 2 ^ 64 ->
  timer_store 64 (8 * h) v p = Ok false q -> trace timer_step q evs r ->
  Forall (undisturbed h) evs -> deadline h v true evs.
Proof.
  intros Hh Hv E Ht Hu. assert (Hs : timer_state h v true (sm_dev q)).
  { destruct (timer_store_run 64 (8 * h) _ _ _ eq_refl ltac:(lia) E) as [(_ & Et & Ec) | Ed].
    - assert (Ha : array_at 64 (8 * h) = 8 * h).
      { unfold array_at. rewrite Z.shiftl_mul_pow2, Z.shiftr_div_pow2 by apply Z.log2_nonneg.
        change (2 ^ Z.log2 (64 / 8)) with 8. rewrite (Z.mul_comm 8 h), Z.div_mul by lia. reflexivity. }
      split; [rewrite Et, Ha, read_write_T by reflexivity; apply wrap_small, Hv |].
      rewrite Ec, (Z.mul_comm 8 h), Z.div_mul, Z.eqb_refl by lia. reflexivity.
    - exfalso. destruct Ed as [Hlt _]. unfold timer_total_size, num_harts in *. change (64 / 8) with 8 in Hlt. lia. }
  clear E p. revert Hs. generalize true. revert Hu.
  induction Ht as [| p e q es r He _ IH]; intros Hu armed Hs; [exact I |].
  apply Forall_cons in Hu as [Hue Hu]. pose proof (timer_state_step h v armed p e q Hh Hs He Hue) as Hn.
  destruct e as [h' t b | va |]; cbn [deadline]; [destruct (h' =? h); [destruct Hn; split; [assumption |] |] | |];
    auto.
Qed.

(** ** The UART *)

(** How a driver reads what is there: while the line status register shows
    data, load the receive buffer. *)
Fixpoint uart_drain (n : nat) : DM (list Z) :=
  match n with
  | O => ret []
  | S n =>
      lsr <- uart_load 8 REG_LSR ;;
      if Z.land (default 0 lsr) LSR_DA =? 0 then ret []
      else c <- uart_load 8 REG_RBR ;; cs <- uart_drain n ;; ret (default 0 c :: cs)
  end.

(** How it writes. *)
Fixpoint uart_print (cs : list Z) : DM unit :=
  match cs with [] => ret tt | c :: cs => uart_store 8 REG_RBR c ;; uart_print cs end.

Definition byte (c : Z) : Prop := 0 <= c < 256.

(** The same machine but for the receive buffer and the console's queue. *)
Definition uart_read_frame (p p' : soft devices) : Prop :=
  same_core p p' /\ dev p' dv_pending = dev p dv_pending /\ dev p' dv_served = dev p dv_served /\
  dev p' dv_out = dev p dv_out /\ dlab (dev p' dv_uart) = dlab (dev p dv_uart) /\
  ier (dev p' dv_uart) = ier (dev p dv_uart).

#[export] Instance uart_read_frame_preorder : PreOrder uart_read_frame.
Proof.
  split.
  - intros p. repeat split.
  - intros p q r (? & ? & ? & ? & ? & ?) (? & ? & ? & ? & ? & ?).
    split; [etransitivity; eassumption |]. repeat split; congruence.
Qed.

Lemma uart_lsr_run p :
  dlab (dev p dv_uart) = false ->
  uart_load 8 REG_LSR p = Ok (Some (match dev p dv_in with [] => 32 | _ => 33 end)) p.
Proof.
  intros Hd. unfold uart_load. cbn [Z.eqb Pos.eqb]. run_dev. rewrite Hd. cbn [switch Z.eqb Pos.eqb REG_RBR
    REG_IER REG_IIR REG_LCR REG_MCR REG_LSR REG_MSR REG_SCR]. unfold has_char. run_dev.
  destruct (dv_in (sm_dev p)); reflexivity.
Qed.

Lemma uart_rbr_run p c cs :
  dlab (dev p dv_uart) = false -> dev p dv_in = c :: cs -> byte c ->
  exists p', uart_load 8 REG_RBR p = Ok (Some c) p' /\ uart_read_frame p p' /\ dev p' dv_in = cs.
Proof.
  intros Hd Hin Hc. unfold uart_load. cbn [Z.eqb Pos.eqb]. run_dev. rewrite Hd.
  cbn [switch Z.eqb REG_RBR]. unfold has_char, read_char, put_uart. run_dev. rewrite Hin. cbn iota. rewrite Hin.
  eexists. split; [cbn [sm_dev dv_uart rbr set_dv_uart set_rbr]; rewrite wrap_small by exact Hc; reflexivity |].
  split; [repeat split; exact Hd | reflexivity].
Qed.

Lemma uart_drain_run n p :
  dlab (dev p dv_uart) = false -> Forall byte (dev p dv_in) -> (length (dev p dv_in) <= n)%nat ->
  exists p', uart_drain n p = Ok (dev p dv_in) p' /\ uart_read_frame p p' /\ dev p' dv_in = [].
Proof.
  revert p. induction n as [| n IH]; intros p Hd Hb Hn; cbn [uart_drain].
  - destruct (dv_in (sm_dev p)) eqn:E; [| cbn in Hn; lia].
    exists p. split; [reflexivity |]. split; [reflexivity | exact E].
  - unfold bind at 1. rewrite uart_lsr_run by exact Hd.
    destruct (dv_in (sm_dev p)) as [| c cs] eqn:E.
    + exists p. split; [reflexivity |]. split; [reflexivity | exact E].
    + change (Z.land (default 0 (Some 33)) LSR_DA =? 0) with false. cbn iota. inversion Hb; subst.
      destruct (uart_rbr_run p c cs Hd E ltac:(assumption)) as (p1 & E1 & Hf & Hin).
      unfold bind at 1. rewrite E1. unfold bind at 1.
      destruct (IH p1) as (p' & -> & H' & Hin');
        [destruct Hf as (_ & _ & _ & _ & -> & _); exact Hd | rewrite Hin; assumption
        | rewrite Hin; cbn in Hn; lia |].
      exists p'. rewrite Hin. split; [reflexivity |]. split; [etransitivity; eassumption | exact Hin'].
Qed.

Lemma uart_print_run cs p :
  dlab (dev p dv_uart) = false ->
  exists p', uart_print cs p = Ok tt p' /\ same_core p p' /\ dev p' dv_in = dev p dv_in /\
    dev p' dv_out = rev (map u8 cs) ++ dev p dv_out.
Proof.
  revert p. induction cs as [| c cs IH]; intros p Hd; cbn [uart_print map rev].
  - exists p. repeat split.
  - unfold bind at 1, uart_store. cbn [Z.eqb Pos.eqb]. unfold put_uart, write_char. run_dev. rewrite Hd.
    cbn [switch Z.eqb REG_RBR].
    match goal with |- context [uart_print cs ?q] => destruct (IH q) as (p' & E & Hc & Hi & Ho) end;
      [exact Hd |].
    exists p'. split; [exact E |]. destruct Hc as (? & ? & ? & ?). split; [repeat split; assumption |].
    split; [exact Hi |]. rewrite Ho. cbn. rewrite <- app_assoc. reflexivity.
Qed.

(** The UART as a stream.  With the divisor latch off, a driver that
    loads the receive buffer while the line status register shows data gets
    the console's characters, each once and in order, and one that stores
    characters appends them, in order, to the console's output. *)
Theorem uart_stream p n cs :
  dlab (dev p dv_uart) = false -> Forall byte (dev p dv_in) -> Forall byte cs ->
  (length (dev p dv_in) <= n)%nat ->
  exists p', (got <- uart_drain n ;; uart_print cs ;; ret got) p = Ok (dev p dv_in) p' /\
    same_core p p' /\ dev p' dv_in = [] /\ rev (dev p' dv_out) = rev (dev p dv_out) ++ cs.
Proof.
  intros Hd Hb Hcs Hn. unfold bind at 1. destruct (uart_drain_run n p Hd Hb Hn) as (p1 & -> & H1 & Hin).
  destruct H1 as (Hc1 & _ & _ & Ho1 & Hd1 & _). unfold bind.
  destruct (uart_print_run cs p1) as (p' & -> & Hc' & Hi' & Ho'); [congruence |].
  exists p'. split; [reflexivity |]. split; [etransitivity; eassumption |].
  split; [congruence |]. rewrite Ho', Ho1, rev_app_distr, rev_involutive. f_equal.
  rewrite <- (map_id cs) at 2. apply map_ext_in. intros c Hc. rewrite Forall_forall in Hcs.
  apply wrap_small, Hcs, list_elem_of_In, Hc.
Qed.

(** ** The machine's interrupts *)

Section Isr_devices.
Context {D : Type} `{!Devices D} (m : model) (cfg : priv_config).

(** A raised external line whose interrupt is enabled is taken, and nothing
    after it is looked at. *)
Lemma isr_external (p p1 : soft D) l cause :
  dev_service p = Ok tt p1 -> same_core p p1 -> dev_irq_pending p1 = Ok true p1 ->
  quiet_trap cfg p ->
  enabled (sm_regs p) bf_me bf_se rv_intr_m_external rv_intr_s_external = Some (l, cause) ->
  exists p', isr m cfg p = Ok tt p' /\ sm_dev p' = sm_dev p1 /\
    exists q, same_but_mip p q /\ trapped m l cause true q p'.
Proof using.
  intros Es Hc Ei Hq He. assert (Hm : same_but_mip p p1) by (apply same_core_mip, Hc).
  assert (Hq1 : quiet_trap cfg p1) by (eapply quiet_same; [apply Hm | exact Hq]).
  assert (H11 : same_but_mip p1 p1) by (split; reflexivity).
  destruct (isr_line_spec m cfg dev_irq_pending true bf_me bf_se rv_intr_m_external rv_intr_s_external
              p1 p1 Ei H11 Hq1) as (p' & E & Ht).
  rewrite (enabled_same p p1), He in E, Ht by exact Hm.
  destruct (isr_line_dev m cfg dev_irq_pending bf_me bf_se rv_intr_m_external rv_intr_s_external p1 p1 true Ei Hq1)
    as (b & p2 & E2 & Hd).
  rewrite E in E2. injection E2 as <- <-.
  exists p'. split; [| split; [exact Hd |]].
  - unfold isr, bind at 1. rewrite Es. unfold bind at 1. rewrite E. reflexivity.
  - destruct Ht as (q & Hs & Ht). exists q. split; [| exact Ht].
    destruct Hm as [E1 H1], Hs as [E3 H3]. split; [congruence |]. intros r Hr.
    rewrite H3, H1 by exact Hr. reflexivity.
Qed.
End Isr_devices.

(** What [service] does to the controller: the two lines follow their
    devices. *)
Lemma set_irq_bits irq v p :
  0 <= irq < 32 ->
  exists p', set_irq irq v p = Ok tt p' /\ same_core p p' /\
    sm_dev p' = set_dv_pending (sm_dev p) (dev p' dv_pending) /\
    forall i, 0 <= i -> Z.testbit (dev p' dv_pending) i =
      if i =? irq then negb (v =? 0) else Z.testbit (dev p dv_pending) i.
Proof.
  intros Hi. unfold set_irq. destruct (Z.ltb_spec irq 32); [| lia]. run_dev.
  eexists. split; [reflexivity |]. split; [repeat split |]. split; [reflexivity |].
  intros i Hi'. cbn [sm_dev set_dv_pending dv_pending].
  rewrite (Z.eqb_sym i). destruct (v =? 0); cbn [negb].
  - rewrite Z.land_spec, Z.lnot_spec, shift1_spec by lia. destruct (irq =? i); cbn [negb];
      [apply andb_false_r | apply andb_true_r].
  - rewrite Z.lor_spec, shift1_spec by lia. destruct (irq =? i); [apply orb_true_r | apply orb_false_r].
Qed.

Lemma b2z_true b : negb (b2z b =? 0) = b.
Proof. destruct b; reflexivity. Qed.

Definition uart_line (d : devices) : bool :=
  negb (Z.land (ier (dv_uart d)) IER_ERBDA =? 0) && match dv_in d with [] => false | _ => true end.

Definition gpio_line (d : devices) : bool := negb (Z.land (gpio_word 0 d) (gpio_word 1 d) =? 0).

Lemma service_run xlen p :
  exists p1, @dev_service _ (machine_devices xlen) p = Ok tt p1 /\ same_core p p1 /\
    sm_dev p1 = set_dv_pending (sm_dev p) (dev p1 dv_pending) /\
    forall i, 0 <= i -> Z.testbit (dev p1 dv_pending) i =
      if i =? uart_irq then uart_line (sm_dev p)
      else if i =? gpio_irq then gpio_line (sm_dev p)
      else Z.testbit (dev p dv_pending) i.
Proof.
  cbn [dev_service machine_devices]. unfold bind at 1, uart_service.
  assert (E : (u <- get_dev dv_uart ;;
    up <- (if Z.land (ier u) IER_ERBDA =? 0 then ret false else has_char) ;; set_irq uart_irq (b2z up)) p =
    set_irq uart_irq (b2z (uart_line (sm_dev p))) p).
  { unfold uart_line, has_char. run_dev. destruct (_ =? 0); reflexivity. }
  rewrite E. clear E.
  destruct (set_irq_bits uart_irq (b2z (uart_line (sm_dev p))) p) as (q & -> & Hc & Hd & Hb);
    [unfold uart_irq; lia |].
  assert (E : gpio_service gpio_irq q =
    set_irq gpio_irq (b2z (gpio_line (sm_dev q))) q).
  { unfold gpio_service, gpio_line. clear. run_dev. unfold id. destruct (_ =? 0); reflexivity. }
  rewrite E. clear E.
  destruct (set_irq_bits gpio_irq (b2z (gpio_line (sm_dev q))) q) as (p1 & -> & Hc1 & Hd1 & Hb1);
    [unfold gpio_irq; lia |].
  exists p1. split; [reflexivity |]. split; [etransitivity; eassumption |].
  split; [rewrite Hd1, Hd at 1; reflexivity |].
  assert (Eg : gpio_line (sm_dev q) = gpio_line (sm_dev p)) by (rewrite Hd; reflexivity).
  intros i Hi. rewrite Hb1, Hb by exact Hi. rewrite <- Eg. unfold uart_irq, gpio_irq.
  destruct (Z.eqb_spec i 4), (Z.eqb_spec i 3); try lia; try reflexivity.
  - apply b2z_true.
  - apply b2z_true.
Qed.

Lemma irq_pending_run p i :
  plic_wf (sm_dev p) -> 0 <= i -> waiting (sm_dev p) i = true -> irq_pending p = Ok true p.
Proof.
  intros Hwf Hi Hw. unfold irq_pending, get_dev. f_equal. apply Z.ltb_lt.
  pose proof (plic_mask_range _ Hwf). destruct (Z.eqb_spec (plic_mask (sm_dev p)) 0) as [E |]; [| lia].
  rewrite <- plic_mask_spec, E, Z.testbit_0_l in Hw by exact Hi. discriminate.
Qed.

Lemma bits_range x : (forall i, 32 <= i -> Z.testbit x i = false) -> 0 <= x < 2 ^ 32.
Proof.
  intros H. replace x with (wrap 32 x); [apply wrap_range; lia |].
  bitwise i Hi. rewrite wrap_spec by lia. destruct (Z.ltb_spec i 32); [reflexivity |].
  rewrite H by assumption. reflexivity.
Qed.

Lemma high_bit x i : 0 <= x < 2 ^ 32 -> 32 <= i -> Z.testbit x i = false.
Proof.
  intros Hx Hi. rewrite <- (wrap_small 32 x), wrap_spec by (exact Hx || lia).
  destruct (Z.ltb_spec i 32); [lia | reflexivity].
Qed.

Section Uart_interrupt.
Context (m : model) (cfg : priv_config) (xlen : Z).
Abbreviation isr := (@isr devices (machine_devices xlen) m cfg).

(** C29 - A character arrives.  With received-data interrupts on at the UART,
    the interrupt not in service, no lower one raised, and external interrupts
    enabled, the service routine takes the external interrupt; the handler's
    claim then gives the UART's number, its load of the receive buffer gives
    the character, and after it completes the interrupt the line is raised
    again exactly when more characters are waiting. *)
Theorem uart_interrupt p c cs l cause :
  plic_wf (sm_dev p) -> (forall i, 0 <= i < uart_irq -> waiting (sm_dev p) i = false) ->
  Z.testbit (dev p dv_served) uart_irq = false ->
  dev p dv_in = c :: cs -> byte c -> dlab (dev p dv_uart) = false ->
  Z.land (ier (dev p dv_uart)) IER_ERBDA <> 0 -> quiet_trap cfg p ->
  enabled (sm_regs p) bf_me bf_se rv_intr_m_external rv_intr_s_external = Some (l, cause) ->
  exists p1 q p2 p3 p4 p5,
    isr p = Ok tt p1 /\ same_but_mip p q /\ trapped m l cause true q p1 /\
    plic_load 32 4 p1 = Ok (Some (uart_irq + 1)) p2 /\
    uart_load 8 REG_RBR p2 = Ok (Some c) p3 /\ dev p3 dv_in = cs /\
    plic_store 32 4 (uart_irq + 1) p3 = Ok false p4 /\
    @dev_service _ (machine_devices xlen) p4 = Ok tt p5 /\
    waiting (sm_dev p5) uart_irq = match cs with [] => false | _ => true end.
Proof using.
  intros Hwf Hlow Hsv Hin Hc Hd Hier Hq He.
  destruct (service_run xlen p) as (s & Es & Hcore & Hds & Hbits).
  assert (Hline : uart_line (sm_dev p) = true).
  { unfold uart_line. rewrite Hin. destruct (Z.eqb_spec (Z.land (ier (dev p dv_uart)) IER_ERBDA) 0); [contradiction | reflexivity]. }
  assert (Hserved : dev s dv_served = dev p dv_served) by (rewrite Hds; reflexivity).
  assert (Hwf1 : plic_wf (sm_dev s)).
  { destruct Hwf as [Hp Hs]. split; [| rewrite Hserved; exact Hs]. apply bits_range. intros i Hi.
    rewrite Hbits by lia. unfold uart_irq, gpio_irq. destruct (Z.eqb_spec i 3), (Z.eqb_spec i 4); try lia.
    apply high_bit; assumption. }
  assert (Hw3 : waiting (sm_dev s) uart_irq = true).
  { unfold waiting. rewrite Hserved, Hsv, Hbits, Z.eqb_refl, Hline by (unfold uart_irq; lia). reflexivity. }
  pose proof (irq_pending_run s uart_irq Hwf1 ltac:(unfold uart_irq; lia) Hw3) as Ei.
  destruct (isr_external (Devices0 := machine_devices xlen) m cfg p s l cause Es Hcore Ei Hq He) as (p1 & Eisr & Hd1 & q & Hmip & Htr).
  destruct (plic_claim_run 32 p1) as (k & p2 & Ec & Hc2 & Hwf2 & _ & Hk & Hkw & Hs2);
    [left; reflexivity | rewrite Hd1; exact Hwf1 |].
  assert (k = uart_irq + 1) as ->.
  { rewrite Hd1 in Hkw. destruct (Z.eqb_spec k 0) as [-> |].
    - destruct Hkw as [Hn _]. rewrite Hn in Hw3 by (unfold uart_irq; lia). discriminate.
    - destruct Hkw as [Hk1 Hk2]. unfold uart_irq in *.
      destruct (Z.ltb_spec (k - 1) 3); [| destruct (Z.ltb_spec 3 (k - 1)); [rewrite Hk2 in Hw3 by lia; discriminate | lia]].
      unfold waiting in Hk1. rewrite Hserved, Hbits in Hk1 by lia. unfold uart_irq, gpio_irq in Hk1.
      destruct (Z.eqb_spec (k - 1) 3), (Z.eqb_spec (k - 1) 4); try lia.
      fold (waiting (sm_dev p) (k - 1)) in Hk1. rewrite Hlow in Hk1 by lia. discriminate. }
  destruct (plic_claim_frame _ _ _ _ Ec) as (Hu2 & Hi2).
  destruct (uart_rbr_run p2 c cs) as (p3 & Er & Hf & Hin3);
    [rewrite Hu2, Hd1, Hds; exact Hd | rewrite Hi2, Hd1, Hds; exact Hin | exact Hc |].
  destruct Hf as (_ & Hp3 & Hs3 & _ & _ & Hier3).
  assert (Hwf3 : plic_wf (sm_dev p3)).
  { destruct Hwf2. split; rewrite ?Hp3, ?Hs3; assumption. }
  destruct (plic_complete_ok 32 4 (uart_irq + 1) p3) as (p4 & E4 & Hu4 & Hi4); [left; auto |].
  destruct (plic_complete_run 32 4 (uart_irq + 1) p3 p4) as (_ & _ & Hs4);
    [left; auto | unfold uart_irq; lia | exact E4 | exact Hwf3 |].
  destruct (service_run xlen p4) as (p5 & E5 & _ & Hd5 & Hb5).
  exists p1, q, p2, p3, p4, p5. repeat (split; [assumption |]).
  unfold waiting. rewrite Hb5, Z.eqb_refl by (unfold uart_irq; lia).
  replace (dev p5 dv_served) with (dev p4 dv_served) by (rewrite Hd5; reflexivity).
  rewrite Hs4, Z.eqb_refl, andb_false_r, andb_true_r by (unfold uart_irq; lia).
  unfold uart_line. rewrite Hu4, Hi4, Hier3, Hin3, Hu2, Hd1, Hds. cbn [set_dv_pending dv_uart].
  destruct (Z.eqb_spec (Z.land (ier (dev p dv_uart)) IER_ERBDA) 0); [contradiction | reflexivity].
Qed.
End Uart_interrupt.

(** ** The address map *)

(** The images fit below the next device and the SBI image in its page. *)
Definition roms_fit (r : roms) : Prop :=
  0 < sbi_size r <= 4096 /\ 0 < boot_size r <= 2 ^ 29 /\ 0 < string_size r <= 2 ^ 28.

(** RAM at [0x80000000], then the devices. *)
Definition machine_segments (xlen : Z) (r : roms) (uva size : Z) : list (mem_segment devices) :=
  mmap_segment 0x80000000 uva size :: device_segments xlen r.

Lemma mpa_to_uva_hit {D} (s : mem_segment D) segs a :
  0 <= seg_mpa s -> seg_mpa s + seg_size s <= 2 ^ 64 -> seg_mpa s <= a < seg_mpa s + seg_size s ->
  mpa_to_uva (s :: segs) a = Some (s, u64 (seg_uva s + (a - seg_mpa s))).
Proof.
  intros H0 H1 Ha. cbn [mpa_to_uva]. replace (seg_has a s) with true; [reflexivity |].
  symmetry. unfold seg_has. apply andb_true_iff. split; [lia |].
  destruct (Z.eqb_spec (seg_mpa s + seg_size s) (2 ^ 64)) as [E |].
  - rewrite E. apply orb_true_r.
  - rewrite wrap_small by lia. lia.
Qed.

Lemma mpa_to_uva_miss {D} (s : mem_segment D) segs a :
  0 <= seg_mpa s -> seg_mpa s + seg_size s <= 2 ^ 64 -> 0 < seg_size s ->
  a < seg_mpa s \/ (seg_mpa s + seg_size s <= a < 2 ^ 64) ->
  mpa_to_uva (s :: segs) a = mpa_to_uva segs a.
Proof.
  intros H0 H1 Hs Ha. cbn [mpa_to_uva]. replace (seg_has a s) with false; [reflexivity |].
  symmetry. unfold seg_has. destruct (Z.leb_spec (seg_mpa s) a); [| reflexivity]. cbn [andb].
  rewrite wrap_small by lia. lia.
Qed.

Ltac seg_lia := cbn [seg_mpa seg_size seg_uva mmap_segment]; unfold mipi_total_size, timer_total_size,
  gpio_bytes, rand_total_size, config_bytes, num_harts; lia.

(** C31 - The memory map.  When the images and RAM fit, every byte of RAM and
    of every device, from its base address on, is decoded to that segment at
    its own offset: no segment hides another, and the SBI image ends the
    address space. *)
Theorem machine_map xlen r uva size s i :
  xlen = 32 \/ xlen = 64 -> roms_fit r ->
  0 < size <= 2 ^ xlen - 4096 - 0x80000000 -> 0 <= uva -> uva + size <= 2 ^ xlen ->
  In s (machine_segments xlen r uva size) -> 0 <= i < seg_size s ->
  mpa_to_uva (machine_segments xlen r uva size) (seg_mpa s + i) = Some (s, seg_uva s + i).
Proof.
  intros Hx (Hsbi & Hboot & Hstr) Hsz Huva Hend Hin Hi.
  assert (Hsb : wrap xlen (-4096) = 2 ^ xlen - 4096) by (destruct Hx as [-> | ->]; reflexivity).
  assert (Hp : 2 ^ 32 <= 2 ^ xlen <= 2 ^ 64) by (destruct Hx as [-> | ->]; lia).
  assert (Hc : xlen / 8 * 7 = 28 \/ xlen / 8 * 7 = 56) by (destruct Hx as [-> | ->]; auto).
  unfold machine_segments, device_segments in *. rewrite Hsb in *.
  repeat destruct Hin as [<- | Hin]; try contradiction; cbn [seg_mpa seg_size mmap_segment] in Hi |- *;
    unfold mipi_total_size, timer_total_size, gpio_bytes, rand_total_size, config_bytes, num_harts in Hi;
    repeat (rewrite mpa_to_uva_miss by seg_lia); rewrite mpa_to_uva_hit by seg_lia;
    cbn [seg_uva seg_mpa mmap_segment]; rewrite wrap_small by lia; do 2 f_equal; lia.
Qed.

(** ** Bounds of the register arrays *)
Lemma array_load_defined len total w va bytes p :
  bus_width w = true -> 0 <= va -> 8 <= total < 2 ^ 64 ->
  array_load len total w va bytes p <> Undefined <->
  (va < total - (w / 8 - 1) -> array_at w va + w / 8 <= len).
Proof.
  intros Hw Hva Ht. unfold array_load. destruct (bus_width_bytes w Hw) as [_ Hp].
  assert (Hk : 1 <= w / 8 <= 8).
  { unfold bus_width in Hw. rewrite !orb_true_iff, !Z.eqb_eq in Hw.
    destruct Hw as [[[-> | ->] | ->] | ->]; split; discriminate. }
  rewrite wrap_small by lia. destruct (Z.ltb_spec va (total - (w / 8 - 1))).
  - destruct (Z.leb_spec (array_at w va + w / 8) len); run_dev; split; try discriminate; auto.
    + intros []. reflexivity.
    + intros H1. specialize (H1 ltac:(assumption)). lia.
  - run_dev. split; [intros _; lia | discriminate].
Qed.

Lemma array_inside total w va :
  bus_width w = true -> 0 <= va -> va < total - (w / 8 - 1) -> array_at w va + w / 8 <= total.
Proof. intros Hw Hva H. destruct (array_at_word w va Hw Hva) as (_ & _ & Ha). lia. Qed.

Lemma array_past len w va :
  bus_width w = true -> 0 <= va -> (8 | len) -> array_at w va + w / 8 <= len <-> va < len.
Proof.
  intros Hw Hva [n ->]. destruct (array_at_word w va Hw Hva) as (Hlo & Hhi & Ha).
  pose proof (Z.div_mod va 8 ltac:(lia)). pose proof (Z.mod_pos_bound va 8 ltac:(lia)).
  assert (0 < w / 8).
  { unfold bus_width in Hw. rewrite !orb_true_iff, !Z.eqb_eq in Hw.
    destruct Hw as [[[-> | ->] | ->] | ->]; reflexivity. }
  split; intros; nia.
Qed.

(** C32 - Bounds.  Loads of the GPIO, the configuration and a ROM of at least
    eight bytes stay in the device's registers at every offset and width.
    The timer's and the interprocessor interrupts' segments are eight times
    as long as their registers: an access from the end of the registers to
    the end of the segment is outside the array. *)
Theorem device_array_bounds xlen image size w va p :
  bus_width w = true -> 0 <= va -> xlen = 32 \/ xlen = 64 -> 8 <= size < 2 ^ 64 ->
  gpio_load w va p <> Undefined /\ config_load xlen w va p <> Undefined /\
  rom_load image size w va p <> Undefined /\
  (timer_load w va p <> Undefined <-> ~ (timer_bytes <= va < timer_total_size - (w / 8 - 1))) /\
  (mipi_load w va p <> Undefined <-> ~ (mipi_bytes <= va < mipi_total_size - (w / 8 - 1))).
Proof.
  intros Hw Hva Hx Hsz. unfold gpio_load, config_load, rom_load, timer_load, mipi_load.
  assert (Hc : 8 <= config_bytes xlen < 2 ^ 64) by (destruct Hx as [-> | ->]; split; [discriminate | reflexivity | discriminate | reflexivity]).
  unfold gpio_bytes, timer_total_size, timer_bytes, mipi_total_size, mipi_bytes, num_harts.
  split; [apply array_load_defined; [assumption | assumption | lia | apply array_inside; assumption] |].
  split; [apply array_load_defined; [assumption | assumption | lia | apply array_inside; assumption] |].
  split; [apply array_load_defined; [assumption | assumption | lia | apply array_inside; assumption] |].
  split; (rewrite array_load_defined by (assumption || lia); rewrite array_past;
    [lia | assumption | assumption |]).
  - exists 4. reflexivity.
  - exists 2. reflexivity.
Qed.

(** ** A machine for the witnesses

    The UART's received-data interrupt is on and two characters wait; external
    interrupts go to S-mode. *)
Definition demo_devices : devices :=
  set_dv_in (set_dv_uart (devices_init (fun _ => 0) (fun _ => 0) (fun _ => false) (fun _ => 0))
    (set_ier (mkUart 0 0 0 0 0 0 0 0) IER_ERBDA)) [72; 105].

Definition demo_machine : soft devices :=
  mkSoft (set_pc proc_init 0x2000)
    (pregs_set r_mstatus 0x2 (pregs_set r_mie 0x200 (fun _ => 0))) (tlb_init 64) (tlb_init 64)
    (fun _ => 0) demo_devices.

Definition ends {A} (r : res (soft devices) A) : soft devices :=
  match r with Ok _ q | Raise _ q => q | Undefined => demo_machine end.

Definition demo_raised : soft devices := ends (set_irq uart_irq 1 demo_machine).

Ltac demo_wf := split; vm_compute; split; [discriminate | reflexivity | discriminate | reflexivity].

Lemma plic_claim_lowest_witness :
  exists k p', plic_load 32 4 demo_raised = Ok (Some k) p' /\ k = 4 /\ waiting (sm_dev p') 3 = false.
Proof.
  destruct (plic_claim_lowest 32 4 demo_raised) as (k & p' & E & _ & H); [left; auto | demo_wf |].
  exists k, p'. split; [exact E |]. vm_compute in E. injection E as <- <-. split; [reflexivity |].
  destruct H as (_ & _ & H). rewrite H by (vm_compute; discriminate). reflexivity.
Defined.

Lemma plic_exclusive_witness : In (ev_complete 4) [ev_complete 4].
Proof.
  set (q := ends (plic_load 32 4 demo_raised)). set (r := ends (plic_store 32 4 4 q)).
  apply (plic_exclusive 4 demo_raised q [ev_complete 4] r (ends (plic_load 32 4 r))).
  - demo_wf.
  - discriminate.
  - apply (step_claim 32 4); [left; auto | reflexivity].
  - eapply trace_cons; [| apply trace_nil].
    apply (step_complete 32 4); [left; auto | vm_compute; split; [discriminate | reflexivity] | reflexivity].
  - apply (step_claim 32 4); [left; auto | reflexivity].
Defined.

Lemma timer_one_shot_witness :
  deadline 1 100 true [ev_tick 1 99 false; ev_tick 1 100 true; ev_tick 1 200 false].
Proof.
  set (q := ends (timer_store 64 (8 * 1) 100 demo_machine)).
  set (a := ends (timer_pending 1 99 q)). set (b := ends (timer_pending 1 100 a)).
  apply (timer_one_shot 1 100 demo_machine q _ (ends (timer_pending 1 200 b))).
  - split; [discriminate | reflexivity].
  - split; [discriminate | reflexivity].
  - reflexivity.
  - eapply (trace_cons _ _ _ a); [apply step_tick; [discriminate | reflexivity] |].
    eapply (trace_cons _ _ _ b); [apply step_tick; [discriminate | reflexivity] |].
    eapply trace_cons; [apply step_tick; [discriminate | reflexivity] | apply trace_nil].
  - repeat constructor.
Defined.

Lemma uart_stream_witness :
  exists p', (got <- uart_drain 2 ;; uart_print [79; 75] ;; ret got) demo_machine = Ok [72; 105] p' /\
    rev (dev p' dv_out) = [79; 75].
Proof.
  destruct (uart_stream demo_machine 2 [79; 75]) as (p' & E & _ & _ & Ho);
    [reflexivity | repeat constructor; vm_compute; discriminate
    | repeat constructor; vm_compute; discriminate | vm_compute; apply le_n |].
  exists p'. split; [exact E | exact Ho].
Defined.

(** The same machine with the supervisor's software interrupt enabled only. *)
Definition demo_software : soft devices :=
  mkSoft (set_pc proc_init 0x2000)
    (pregs_set r_mstatus 0x2 (pregs_set r_mie 0x2 (fun _ => 0))) (tlb_init 64) (tlb_init 64)
    (fun _ => 0) demo_devices.

(** A device operation on a concrete state of the devices. *)
Ltac sees_run :=
  let p := fresh in let d := fresh in let Hd := fresh in
  intros p Hd; destruct p as [? ? ? ? ? d]; cbn [sm_dev] in Hd; subst d;
  eexists; split; [cbn; reflexivity | cbn [sm_dev]; reflexivity].

(** The external line is up and is not enabled, the timer has not run out, no
    interprocessor interrupt is pending, and the console has a character. *)
Lemma isr_spec_witness :
  exists p' q, isr processor_rv64imafdc_model demo_config demo_software (Devices0 := machine_devices 64) = Ok tt p' /\
    same_but_mip demo_software q /\ trapped processor_rv64imafdc_model s_level rv_intr_s_software true q p'.
Proof.
  destruct (isr_spec (Devices0 := machine_devices 64) (DevicesLaws0 := machine_devices_laws 64)
    processor_rv64imafdc_model demo_config true false false true demo_software) as (p' & E & Ht).
  - eapply lines_are; [sees_run | sees_run | sees_run | sees_run | sees_run | intros _; sees_run].
  - left. reflexivity.
  - destruct Ht as (q & Hq & Ht). exists p', q. auto.
Defined.

Lemma uart_interrupt_witness :
  exists p1 p2, isr processor_rv64imafdc_model demo_config demo_machine (Devices0 := machine_devices 64) = Ok tt p1 /\
    plic_load 32 4 p1 = Ok (Some 4) p2.
Proof.
  destruct (uart_interrupt processor_rv64imafdc_model demo_config 64 demo_machine 72 [105] s_level rv_intr_s_external)
    as (p1 & q & p2 & p3 & p4 & p5 & E & _ & _ & E2 & _).
  - demo_wf.
  - intros i _. unfold waiting. cbn. rewrite Z.testbit_0_l. reflexivity.
  - reflexivity.
  - reflexivity.
  - vm_compute. split; [discriminate | reflexivity].
  - reflexivity.
  - discriminate.
  - left. reflexivity.
  - reflexivity.
  - exists p1, p2. split; [exact E | exact E2].
Defined.

Definition demo_roms : roms := mkRoms 4096 (fun _ => 0) 256 (fun _ => 0) 512 (fun _ => 0).

Lemma machine_map_witness :
  exists s, mpa_to_uva (machine_segments 32 demo_roms 0x10000 0x1000000) 0x40003005 = Some (s, 5).
Proof.
  eexists. apply (machine_map 32 demo_roms 0x10000 0x1000000 (mkSegment 0x40003000 0 8 uart_load uart_store) 5);
    [left; reflexivity | vm_compute; repeat split; discriminate | vm_compute; split; [reflexivity | discriminate]
    | discriminate | vm_compute; discriminate | cbn; auto 10 | vm_compute; split; [discriminate | reflexivity]].
Defined.

Lemma device_array_bounds_witness :
  gpio_load 64 12 demo_machine <> Undefined /\ ~ timer_load 8 32 demo_machine <> Undefined.
Proof.
  destruct (device_array_bounds 64 (fun _ => 0) 8 64 12 demo_machine) as (Hg & _);
    [reflexivity | discriminate | auto | split; [discriminate | reflexivity] |].
  destruct (device_array_bounds 64 (fun _ => 0) 8 8 32 demo_machine) as (_ & _ & _ & Ht & _);
    [reflexivity | discriminate | auto | split; [discriminate | reflexivity] |].
  split; [exact Hg |]. rewrite Ht. intros H. apply H. vm_compute. split; [discriminate | reflexivity].
Defined.

(** ** What the devices do that their comments do not say *)

(** A load of the interrupt enable register gives the identity register. *)
Example ier_reads_iir :
  match uart_load 8 REG_IER demo_machine with
  | Ok (Some v) _ => v = IIR_RD_LSR /\ ier (dv_uart demo_devices) = IER_ERBDA | _ => False end.
Proof. vm_compute. split; reflexivity. Qed.

(** A store to the word after those of the four harts is past the
    array. *)
Example timer_store_out_of_bounds : timer_store 64 32 100 demo_machine = Undefined.
Proof. reflexivity. Qed.
