(* ===== verification/Queue.v ===== *)
(** * Queue: the lock-free queue of [util/queue.h], [queue_atomic], one atomic
    operation at a time, and its guarantees for one producer and one consumer.

    The atomics are sequentially consistent here; the relaxed and the
    acquire-release orders of the source are not modelled. *)

From Stdlib Require Import ZArith Lia Bool List.
From stdpp Require Import base numbers list relations.
From S2P Require Import Prelude.

(** ** The queue *)
Definition offset_bits : Z := 48.
Definition version_bits : Z := 16.
Definition offset_limit : Z := 2 ^ offset_bits.
Definition version_limit : Z := 2 ^ version_bits.
Definition offset_mask : Z := 2 ^ offset_bits - 1.
Definition version_mask : Z := 2 ^ version_bits - 1.
Definition size_max : Z := 2 ^ (offset_bits - 1).
Definition spin_limit : Z := 2 ^ 24.

Definition queue_ispow2 (val : Z) : bool := negb (val =? 0) && (Z.land val (val - 1) =? 0).

Record queue := mkQueue {
  vec : Z -> Z; size_limit : Z;
  counter_back : Z; version_back : Z; counter_front : Z; version_front : Z }.

Section Updates.
Context (q : queue).
Definition set_vec (i v : Z) : queue :=
  mkQueue (fun j => if j =? i then v else vec q j) (size_limit q)
    (counter_back q) (version_back q) (counter_front q) (version_front q).
Definition set_counter_back (c : Z) : queue :=
  mkQueue (vec q) (size_limit q) c (version_back q) (counter_front q) (version_front q).
Definition set_version_back (v : Z) : queue :=
  mkQueue (vec q) (size_limit q) (counter_back q) v (counter_front q) (version_front q).
Definition set_counter_front (c : Z) : queue :=
  mkQueue (vec q) (size_limit q) (counter_back q) (version_back q) c (version_front q).
Definition set_version_front (v : Z) : queue :=
  mkQueue (vec q) (size_limit q) (counter_back q) (version_back q) (counter_front q) v.
End Updates.

(** [pack_offset]; [None] when an assertion fails. *)
Definition pack_offset (version offset : Z) : option Z :=
  if (version <? version_limit) && (offset <? offset_limit)
  then Some (u64 (Z.lor (Z.shiftl version offset_bits) offset)) else None.

Definition offset_of (pack : Z) : Z := Z.land pack offset_mask.
Definition version_of (pack : Z) : Z := Z.land (Z.shiftr pack offset_bits) version_mask.

(** [unpack_offsets]: the offset when the versions agree. *)
Definition unpack_offsets (counter pack : Z) : option Z :=
  if version_of pack =? Z.land counter version_mask then Some (offset_of pack) else None.

(** The constructor. *)
Definition queue_init (size : Z) : option queue :=
  if (0 <? size) && (size <=? size_max) && queue_ispow2 size then
    match pack_offset 0 0, pack_offset 0 size with
    | Some b, Some f => Some (mkQueue (fun _ => 0) size 0 b 0 f)
    | _, _ => None
    end
  else None.

Definition queue_empty (q : queue) : bool :=
  u64 (offset_of (version_front q) - offset_of (version_back q)) =? size_limit q.

Definition queue_full (q : queue) : bool := offset_of (version_front q) =? offset_of (version_back q).

Definition queue_size (q : queue) : Z :=
  let back := offset_of (version_back q) in
  let front := offset_of (version_front q) in
  if front <? back then u64 (back - front) else u64 (size_limit q - front + back).

(** ** [push_back]

    Where a thread is in [push_back]: before the load of [version_front], of
    [counter_back], of [version_back], before the compare-and-exchange, the
    store of the element and that of the new version, and at the end.  [n] is
    [spin_count]. *)
Inductive push_state :=
  | push_start (elem : Z)
  | push_counter (elem front n : Z)
  | push_version (elem front n counter : Z)
  | push_cas (elem front n counter back : Z)
  | push_store (elem offset pack : Z)
  | push_publish (elem pack : Z)
  | push_done (r : bool).

(** The end of an iteration that did not succeed. *)
Definition push_retry (elem front n : Z) : push_state :=
  if n + 1 <? spin_limit then push_counter elem front (n + 1) else push_done false.

(** One atomic operation; a weak compare-and-exchange fails when [ok] is
    false. *)
Definition push_step (ok : bool) (q : queue) (s : push_state) : option (queue * push_state) :=
  match s with
  | push_start elem => Some (q, push_counter elem (offset_of (version_front q)) 0)
  | push_counter elem front n => Some (q, push_version elem front n (counter_back q))
  | push_version elem front n counter =>
      match unpack_offsets counter (version_back q) with
      | Some back =>
          if front =? back then Some (q, push_done false)
          else Some (q, push_cas elem front n counter back)
      | None => Some (q, push_retry elem front n)
      end
  | push_cas elem front n counter back =>
      let version := Z.land (counter + 1) version_mask in
      match pack_offset version (Z.land (back + 1) (offset_limit - 1)) with
      | Some pack =>
          if (counter_back q =? counter) && ok
          then Some (set_counter_back q version, push_store elem (Z.land back (size_limit q - 1)) pack)
          else Some (q, push_retry elem front n)
      | None => None
      end
  | push_store elem offset pack => Some (set_vec q offset elem, push_publish elem pack)
  | push_publish elem pack => Some (set_version_back q pack, push_done true)
  | push_done r => None
  end.

(** ** [pop_front] *)
Inductive pop_state :=
  | pop_start
  | pop_counter (back n : Z)
  | pop_version (back n counter : Z)
  | pop_cas (back n counter front : Z)
  | pop_load (offset pack : Z)
  | pop_publish (val pack : Z)
  | pop_done (val : Z).

Definition pop_retry (back n : Z) : pop_state :=
  if n + 1 <? spin_limit then pop_counter back (n + 1) else pop_done 0.

Definition pop_step (ok : bool) (q : queue) (s : pop_state) : option (queue * pop_state) :=
  match s with
  | pop_start => Some (q, pop_counter (offset_of (version_back q)) 0)
  | pop_counter back n => Some (q, pop_version back n (counter_front q))
  | pop_version back n counter =>
      match unpack_offsets counter (version_front q) with
      | Some front =>
          if u64 (front - back) =? size_limit q then Some (q, pop_done 0)
          else Some (q, pop_cas back n counter front)
      | None => Some (q, pop_retry back n)
      end
  | pop_cas back n counter front =>
      let version := Z.land (counter + 1) version_mask in
      match pack_offset version (Z.land (front + 1) (offset_limit - 1)) with
      | Some pack =>
          if (counter_front q =? counter) && ok
          then Some (set_counter_front q version, pop_load (Z.land front (size_limit q - 1)) pack)
          else Some (q, pop_retry back n)
      | None => None
      end
  | pop_load offset pack => Some (q, pop_publish (vec q offset) pack)
  | pop_publish val pack => Some (set_version_front q pack, pop_done val)
  | pop_done val => None
  end.

(** A call that runs alone. *)
Fixpoint push_run (fuel : nat) (q : queue) (s : push_state) : option (queue * bool) :=
  match s, fuel with
  | push_done r, _ => Some (q, r)
  | _, O => None
  | _, S fuel => match push_step true q s with Some (q, s) => push_run fuel q s | None => None end
  end.

Fixpoint pop_run (fuel : nat) (q : queue) (s : pop_state) : option (queue * Z) :=
  match s, fuel with
  | pop_done v, _ => Some (q, v)
  | _, O => None
  | _, S fuel => match pop_step true q s with Some (q, s) => pop_run fuel q s | None => None end
  end.

(** Each call is at most six atomic operations. *)
Definition push_back (q : queue) (elem : Z) : option (queue * bool) := push_run 6 q (push_start elem).
Definition pop_front (q : queue) : option (queue * Z) := pop_run 6 q pop_start.

(** ** One producer and one consumer

    [pushed] and [popped] record the elements whose calls published them. *)
Record spsc := mkSpsc {
  sp_queue : queue; producer : option push_state; consumer : option pop_state;
  pushed : list Z; popped : list Z }.

Definition push_publishes (s : push_state) : list Z :=
  match s with push_publish e _ => [e] | _ => [] end.
Definition pop_publishes (s : pop_state) : list Z :=
  match s with pop_publish v _ => [v] | _ => [] end.

Inductive spsc_step : spsc -> spsc -> Prop :=
  | push_call e q c hp hc :
      spsc_step (mkSpsc q None c hp hc) (mkSpsc q (Some (push_start e)) c hp hc)
  | push_move ok q s q' s' c hp hc :
      push_step ok q s = Some (q', s') ->
      spsc_step (mkSpsc q (Some s) c hp hc) (mkSpsc q' (Some s') c (hp ++ push_publishes s) hc)
  | push_return r q c hp hc :
      spsc_step (mkSpsc q (Some (push_done r)) c hp hc) (mkSpsc q None c hp hc)
  | pop_call q p hp hc :
      spsc_step (mkSpsc q p None hp hc) (mkSpsc q p (Some pop_start) hp hc)
  | pop_move ok q s q' s' p hp hc :
      pop_step ok q s = Some (q', s') ->
      spsc_step (mkSpsc q p (Some s) hp hc) (mkSpsc q' p (Some s') hp (hc ++ pop_publishes s))
  | pop_return v q p hp hc :
      spsc_step (mkSpsc q p (Some (pop_done v)) hp hc) (mkSpsc q p None hp hc).

Definition spsc_init (q : queue) : spsc := mkSpsc q None None [] [].
