(* ===== verification/QueueTheorems.v ===== *)
(** * QueueTheorems: the properties of the lock-free queue: it is a bounded
    FIFO for one producer and one consumer, under every interleaving, and a
    bounded list for calls that run alone. *)

From Stdlib Require Import ZArith Lia Bool List.
From stdpp Require Import base numbers list relations.
From S2P Require Import Prelude Queue.

(** ** Packed versions and offsets *)
Definition pk (v o : Z) : Z := Z.lor (Z.shiftl (v mod version_limit) offset_bits) o.

Lemma land_mask k x : 0 <= k -> Z.land x (2 ^ k - 1) = x mod 2 ^ k.
Proof. intros Hk. rewrite <- Z.land_ones, Z.ones_equiv by exact Hk. reflexivity. Qed.

Lemma pk_spec v o i :
  0 <= o < offset_limit -> 0 <= i ->
  Z.testbit (pk v o) i = if i <? offset_bits then Z.testbit o i else Z.testbit (v mod version_limit) (i - offset_bits).
Proof.
  unfold offset_limit. intros Ho Hi. unfold pk. rewrite Z.lor_spec, Z.shiftl_spec by exact Hi.
  destruct (Z.ltb_spec i offset_bits).
  - rewrite Z.testbit_neg_r by lia. reflexivity.
  - rewrite <- (Z.mod_small o (2 ^ offset_bits)) by exact Ho.
    rewrite (Z.mod_pow2_bits_high o) by (unfold offset_bits in *; lia). apply orb_false_r.
Qed.

Section Pk.
Context (v o : Z) (Ho : 0 <= o < offset_limit).

Lemma pk_offset : offset_of (pk v o) = o.
Proof using Ho.
  unfold offset_of, offset_mask. rewrite land_mask by discriminate.
  rewrite <- (Z.mod_small o (2 ^ offset_bits)) at 2 by exact Ho. bitwise i Hi.
  destruct (Z.ltb_spec i offset_bits).
  - rewrite !Z.mod_pow2_bits_low, pk_spec by assumption. destruct (Z.ltb_spec i offset_bits); [reflexivity | lia].
  - rewrite !Z.mod_pow2_bits_high by (unfold offset_bits in *; lia). reflexivity.
Qed.

Lemma pk_version : version_of (pk v o) = v mod version_limit.
Proof using Ho.
  unfold version_of, version_mask. rewrite land_mask by discriminate.
  rewrite <- (Z.mod_mod v version_limit) by discriminate. unfold version_limit. bitwise i Hi.
  destruct (Z.ltb_spec i version_bits).
  - rewrite !Z.mod_pow2_bits_low, Z.shiftr_spec, pk_spec by (assumption || (unfold offset_bits; lia)).
    destruct (Z.ltb_spec (i + offset_bits) offset_bits); [unfold offset_bits in *; lia |].
    replace (i + offset_bits - offset_bits) with i by lia. unfold version_limit.
    rewrite Z.mod_pow2_bits_low by assumption. reflexivity.
  - rewrite !Z.mod_pow2_bits_high by (unfold version_bits in *; lia). reflexivity.
Qed.

Lemma pack_pk : pack_offset (v mod version_limit) o = Some (pk v o).
Proof using Ho.
  unfold pack_offset. pose proof (Z.mod_pos_bound v version_limit ltac:(reflexivity)).
  destruct (Z.ltb_spec (v mod version_limit) version_limit), (Z.ltb_spec o offset_limit); try lia.
  cbn [andb]. f_equal. apply wrap_small. apply lor_range; [lia | |].
  - rewrite Z.shiftl_mul_pow2 by discriminate. unfold version_limit, version_bits, offset_bits in *. lia.
  - unfold offset_limit, offset_bits in Ho. lia.
Qed.

Lemma unpack_pk : unpack_offsets (v mod version_limit) (pk v o) = Some o.
Proof using Ho.
  unfold unpack_offsets. rewrite pk_version, pk_offset. unfold version_mask.
  rewrite land_mask by discriminate. change (2 ^ version_bits) with version_limit.
  rewrite Z.mod_mod, Z.eqb_refl by discriminate. reflexivity.
Qed.
End Pk.

Lemma next_version v : Z.land (v mod version_limit + 1) version_mask = (v + 1) mod version_limit.
Proof.
  unfold version_mask. rewrite land_mask by discriminate. apply Zplus_mod_idemp_l.
Qed.

Lemma next_offset o : 0 <= o < offset_limit - 1 -> Z.land (o + 1) (offset_limit - 1) = o + 1.
Proof.
  intros Ho. unfold offset_limit in *. rewrite land_mask by discriminate. apply Z.mod_small. lia.
Qed.

Lemma take_S_nth (l : list Z) i : (i < length l)%nat -> firstn (S i) l = firstn i l ++ [nth i l 0].
Proof.
  revert i. induction l as [| x l IH]; intros [| i] Hi; cbn in *; try lia; [reflexivity |].
  rewrite IH by lia. reflexivity.
Qed.

(** ** The invariant *)
Section Spsc.
Context (k : Z) (Hk : 0 <= k < offset_bits).
Abbreviation n := (2 ^ k).

Lemma size_pos : 1 <= n <= 2 ^ 47.
Proof using Hk.
  unfold offset_bits in Hk. split; [pose proof (Z.pow_pos_nonneg 2 k); lia |].
  apply Z.pow_le_mono_r; lia.
Qed.

(** The queue between calls: [nb] elements were pushed and [nf] popped. *)
Record counted (q : queue) (nb nf : Z) : Prop := {
  c_size : size_limit q = n;
  c_vb : version_back q = pk nb nb;
  c_vf : version_front q = pk nf (nf + n);
  c_order : 0 <= nf <= nb /\ nb <= nf + n }.

(** The elements of [hp] from [nf] on are in their slots. *)
Definition live (q : queue) (hp : list Z) (nf : Z) : Prop :=
  forall i, nf <= i < Z.of_nat (length hp) -> vec q (i mod n) = nth (Z.to_nat i) hp 0.

(** What a thread in a call knows. *)
Definition producer_ok (q : queue) (nb nf : Z) (s : option push_state) : Prop :=
  let quiet := counter_back q = nb mod version_limit in
  match s with
  | None | Some (push_start _) | Some (push_done _) => quiet
  | Some (push_counter e f m) => quiet /\ nb <= f <= nf + n
  | Some (push_version e f m c) => quiet /\ nb <= f <= nf + n /\ c = nb mod version_limit
  | Some (push_cas e f m c b) => quiet /\ nb < f <= nf + n /\ c = nb mod version_limit /\ b = nb
  | Some (push_store e o p) => o = nb mod n /\ p = pk (nb + 1) (nb + 1) /\ nb < nf + n /\
      counter_back q = (nb + 1) mod version_limit
  | Some (push_publish e p) => vec q (nb mod n) = e /\ p = pk (nb + 1) (nb + 1) /\ nb < nf + n /\
      counter_back q = (nb + 1) mod version_limit
  end.

Definition consumer_ok (q : queue) (hp : list Z) (nf : Z) (s : option pop_state) : Prop :=
  let nb := Z.of_nat (length hp) in
  let quiet := counter_front q = nf mod version_limit in
  match s with
  | None | Some pop_start | Some (pop_done _) => quiet
  | Some (pop_counter b m) => quiet /\ nf <= b <= nb
  | Some (pop_version b m c) => quiet /\ nf <= b <= nb /\ c = nf mod version_limit
  | Some (pop_cas b m c f) => quiet /\ nf < b <= nb /\ c = nf mod version_limit /\ f = nf + n
  | Some (pop_load o p) => o = nf mod n /\ p = pk (nf + 1) (nf + 1 + n) /\ nf < nb /\
      counter_front q = (nf + 1) mod version_limit
  | Some (pop_publish v p) => v = nth (Z.to_nat nf) hp 0 /\ p = pk (nf + 1) (nf + 1 + n) /\ nf < nb /\
      counter_front q = (nf + 1) mod version_limit
  end.

Record spsc_inv (s : spsc) : Prop := {
  i_counted : counted (sp_queue s) (Z.of_nat (length (pushed s))) (Z.of_nat (length (popped s)));
  i_live : live (sp_queue s) (pushed s) (Z.of_nat (length (popped s)));
  i_prefix : popped s = firstn (length (popped s)) (pushed s);
  i_producer : producer_ok (sp_queue s) (Z.of_nat (length (pushed s))) (Z.of_nat (length (popped s))) (producer s);
  i_consumer : consumer_ok (sp_queue s) (pushed s) (Z.of_nat (length (popped s))) (consumer s) }.

(** Two live elements have different slots. *)
Lemma slot_apart i j : 0 <= i < j -> j < i + n -> i mod n <> j mod n.
Proof using Hk.
  intros Hi Hj E. pose proof size_pos. pose proof (Z.div_mod i n ltac:(lia)). pose proof (Z.div_mod j n ltac:(lia)).
  assert (j - i = n * (j / n - i / n)) by (rewrite Z.mul_sub_distr_l; lia).
  destruct (Z.leb_spec (j / n - i / n) 0); nia.
Qed.

Lemma slot_shift i : (i + n) mod n = i mod n.
Proof using Hk. pose proof size_pos. rewrite <- (Z.mul_1_l n) at 1. apply Z_mod_plus_full. Qed.

Lemma slot_mask q nb nf i : counted q nb nf -> Z.land i (size_limit q - 1) = i mod n.
Proof using Hk. intros H. rewrite (c_size _ _ _ H). apply land_mask. lia. Qed.

(** *** The parts of the invariant that a step leaves alone *)
Lemma consumer_ok_mono q q' hp e nf c :
  counter_front q' = counter_front q -> 0 <= nf -> consumer_ok q hp nf c -> consumer_ok q' (hp ++ e) nf c.
Proof using Hk.
  intros E Hnf H. unfold consumer_ok in *. rewrite E, length_app, Nat2Z.inj_add.
  destruct c as [[] |]; intuition (try lia). rewrite app_nth1 by lia. assumption.
Qed.

Lemma producer_ok_mono q q' nb nf nf' p :
  counter_back q' = counter_back q -> vec q' = vec q -> nf <= nf' ->
  producer_ok q nb nf p -> producer_ok q' nb nf' p.
Proof using Hk.
  intros E Ev Hnf H. unfold producer_ok in *. rewrite E, Ev. destruct p as [[] |]; intuition lia.
Qed.

Lemma counted_offsets q nb nf :
  counted q nb nf -> nb + n < offset_limit ->
  offset_of (version_back q) = nb /\ offset_of (version_front q) = nf + n.
Proof using Hk.
  intros [_ Hb Hf Ho] Hl. pose proof size_pos. rewrite Hb, Hf, !pk_offset by lia. auto.
Qed.

(** *** Steps of the producer *)

(** A step that changes the thread only. *)
Lemma producer_local q p p' c hp hc :
  spsc_inv (mkSpsc q p c hp hc) ->
  producer_ok q (Z.of_nat (length hp)) (Z.of_nat (length hc)) p' ->
  spsc_inv (mkSpsc q p' c hp hc).
Proof using Hk. intros [H1 H2 H3 _ H5] H. split; assumption. Qed.

Lemma push_move_inv ok q s q' s' c hp hc :
  spsc_inv (mkSpsc q (Some s) c hp hc) ->
  Z.of_nat (length (hp ++ push_publishes s)) + n < offset_limit ->
  push_step ok q s = Some (q', s') ->
  spsc_inv (mkSpsc q' (Some s') c (hp ++ push_publishes s) hc).
Proof using Hk.
  intros Hi Hl H. pose proof Hi as [Hc Hlv Hpre Hp Hcons]. cbn [sp_queue producer consumer pushed popped] in *.
  pose proof size_pos as Hn. pose proof (c_order _ _ _ Hc) as Hord.
  assert (Hl' : Z.of_nat (length hp) + n < offset_limit) by (rewrite length_app in Hl; lia).
  destruct (counted_offsets _ _ _ Hc Hl') as [Hob Hof].
  destruct s as [e | e f m | e f m cnt | e f m cnt b | e o pa | e pa | r]; cbn [push_step push_publishes] in *;
    rewrite ?app_nil_r in *.
  - injection H as <- <-. apply (producer_local _ _ _ _ _ _ Hi). rewrite Hof. cbn in Hp |- *. lia.
  - injection H as <- <-. apply (producer_local _ _ _ _ _ _ Hi). cbn in Hp |- *. intuition.
  - destruct Hp as (Hq & Hf & ->). rewrite (c_vb _ _ _ Hc), unpack_pk in H by lia.
    destruct (Z.eqb_spec f (Z.of_nat (length hp))); injection H as <- <-;
      apply (producer_local _ _ _ _ _ _ Hi); cbn; [assumption | intuition lia].
  - destruct Hp as (Hq & Hf & -> & ->). rewrite next_version, next_offset, pack_pk in H by lia.
    rewrite Hq, Z.eqb_refl in H. destruct ok; cbn [andb] in H; injection H as <- <-.
    + split; cbn [sp_queue producer consumer pushed popped]; [| exact Hlv | exact Hpre | |].
      * destruct Hc. split; assumption.
      * cbn. rewrite (slot_mask _ _ _ _ Hc). intuition lia.
      * rewrite <- (app_nil_r hp). apply (consumer_ok_mono q); [reflexivity | lia | exact Hcons].
    + apply (producer_local _ _ _ _ _ _ Hi). unfold push_retry. destruct (_ <? _); cbn; intuition lia.
  - destruct Hp as (-> & -> & Hlt & Hq). injection H as <- <-.
    split; cbn [sp_queue producer consumer pushed popped]; [| | exact Hpre | |].
    + destruct Hc. split; assumption.
    + intros i Hb. cbn [vec set_vec]. destruct (Z.eqb_spec (i mod n) (Z.of_nat (length hp) mod n)) as [E |];
        [| apply Hlv, Hb]. exfalso. revert E. apply slot_apart; lia.
    + cbn. rewrite Z.eqb_refl. auto.
    + rewrite <- (app_nil_r hp). apply (consumer_ok_mono q); [reflexivity | lia | exact Hcons].
  - destruct Hp as (He & -> & Hlt & Hq). injection H as <- <-.
    assert (Hlen : Z.of_nat (length (hp ++ [e])) = Z.of_nat (length hp) + 1) by (rewrite length_app; cbn; lia).
    split; cbn [sp_queue producer consumer pushed popped]; rewrite ?Hlen.
    + destruct Hc. split; try assumption; [reflexivity | lia].
    + intros i Hb. rewrite Hlen in Hb. cbn [vec set_version_back].
      destruct (Z.eqb_spec i (Z.of_nat (length hp))) as [-> |].
      * rewrite He, Nat2Z.id, app_nth2, Nat.sub_diag by lia. reflexivity.
      * rewrite app_nth1 by lia. apply Hlv. lia.
    + rewrite firstn_app. replace (length hc - length hp)%nat with 0%nat by lia.
      rewrite firstn_O, app_nil_r. exact Hpre.
    + exact Hq.
    + apply (consumer_ok_mono q); [reflexivity | lia | exact Hcons].
  - discriminate.
Qed.

(** *** Steps of the consumer *)
Lemma consumer_local q p c c' hp hc :
  spsc_inv (mkSpsc q p c hp hc) ->
  consumer_ok q hp (Z.of_nat (length hc)) c' -> spsc_inv (mkSpsc q p c' hp hc).
Proof using Hk. intros [H1 H2 H3 H4 _] H. split; assumption. Qed.

Lemma pop_move_inv ok q s q' s' p hp hc :
  spsc_inv (mkSpsc q p (Some s) hp hc) -> Z.of_nat (length hp) + n < offset_limit ->
  pop_step ok q s = Some (q', s') ->
  spsc_inv (mkSpsc q' p (Some s') hp (hc ++ pop_publishes s)).
Proof using Hk.
  intros Hi Hl H. pose proof Hi as [Hc Hlv Hpre Hp Hcons]. cbn [sp_queue producer consumer pushed popped] in *.
  pose proof size_pos as Hn. pose proof (c_order _ _ _ Hc) as Hord.
  assert (Hlim : offset_limit < 2 ^ 64) by reflexivity.
  destruct (counted_offsets _ _ _ Hc Hl) as [Hob Hof].
  destruct s as [| b m | b m cnt | b m cnt f | o pa | v pa | v]; cbn [pop_step pop_publishes] in *;
    rewrite ?app_nil_r in *.
  - injection H as <- <-. apply (consumer_local _ _ _ _ _ _ Hi). rewrite Hob. cbn in Hcons |- *. lia.
  - injection H as <- <-. apply (consumer_local _ _ _ _ _ _ Hi). cbn in Hcons |- *. intuition.
  - destruct Hcons as (Hq & Hb & ->). rewrite (c_vf _ _ _ Hc), unpack_pk in H by lia.
    rewrite (c_size _ _ _ Hc), wrap_small in H by lia.
    destruct (Z.eqb_spec (Z.of_nat (length hc) + n - b) n); injection H as <- <-;
      apply (consumer_local _ _ _ _ _ _ Hi); cbn; [assumption | intuition lia].
  - destruct Hcons as (Hq & Hb & -> & ->).
    replace (Z.of_nat (length hc) + n + 1) with (Z.of_nat (length hc) + 1 + n) in H by lia.
    rewrite next_version in H.
    replace (Z.land (Z.of_nat (length hc) + 1 + n) (offset_limit - 1)) with (Z.of_nat (length hc) + 1 + n) in H.
    2: { replace (Z.of_nat (length hc) + 1 + n) with (Z.of_nat (length hc) + n + 1) by lia.
         symmetry. apply next_offset. lia. }
    rewrite pack_pk in H by lia. rewrite Hq, Z.eqb_refl in H. destruct ok; cbn [andb] in H; injection H as <- <-.
    + split; cbn [sp_queue producer consumer pushed popped]; [| exact Hlv | exact Hpre | |].
      * destruct Hc. split; assumption.
      * revert Hp. apply producer_ok_mono; reflexivity || lia.
      * cbn. rewrite (slot_mask _ _ _ _ Hc), slot_shift. intuition lia.
    + apply (consumer_local _ _ _ _ _ _ Hi). unfold pop_retry. destruct (_ <? _); cbn; intuition lia.
  - destruct Hcons as (-> & -> & Hlt & Hq). injection H as <- <-.
    apply (consumer_local _ _ _ _ _ _ Hi). cbn. rewrite (Hlv (Z.of_nat (length hc))) by lia. auto.
  - destruct Hcons as (-> & -> & Hlt & Hq). injection H as <- <-. rewrite Nat2Z.id.
    assert (Hlen : Z.of_nat (length (hc ++ [nth (length hc) hp 0])) = Z.of_nat (length hc) + 1) by (rewrite length_app; cbn; lia).
    split; cbn [sp_queue producer consumer pushed popped]; rewrite ?Hlen.
    + destruct Hc. split; try assumption; [reflexivity | lia].
    + intros i Hb. apply Hlv. lia.
    + rewrite length_app. cbn [length]. rewrite Nat.add_1_r.
      rewrite (take_S_nth hp (length hc)) by lia. rewrite <- Hpre. reflexivity.
    + revert Hp. apply producer_ok_mono; reflexivity || lia.
    + exact Hq.
  - discriminate.
Qed.

(** *** Reachable states *)
Lemma spsc_step_inv s s' :
  spsc_inv s -> spsc_step s s' -> Z.of_nat (length (pushed s')) + n < offset_limit -> spsc_inv s'.
Proof using Hk.
  intros Hi Hs. destruct Hs; cbn [pushed]; intros Hl;
    try solve [ apply (producer_local _ _ _ _ _ _ Hi), Hi | apply (consumer_local _ _ _ _ _ _ Hi), Hi ].
  - eapply push_move_inv; eassumption.
  - eapply pop_move_inv; eassumption.
Qed.

Lemma pushed_mono s s' : spsc_step s s' -> (length (pushed s) <= length (pushed s'))%nat.
Proof using. intros []; cbn [pushed]; rewrite ?length_app; lia. Qed.

Lemma init_inv q : queue_init n = Some q -> spsc_inv (spsc_init q).
Proof using Hk.
  intros H. pose proof size_pos as Hn. unfold queue_init in H.
  destruct (_ && _); [| discriminate].
  change (pack_offset 0 0) with (pack_offset (0 mod version_limit) 0) in H.
  change (pack_offset 0 n) with (pack_offset (0 mod version_limit) n) in H.
  assert (Hl : n < offset_limit) by (unfold offset_limit, offset_bits; lia).
  rewrite (pack_pk 0 n) in H by lia. rewrite (pack_pk 0 0) in H by (split; [lia | reflexivity]).
  injection H as <-. split; cbn.
  - split; cbn; [reflexivity | reflexivity | rewrite Z.add_0_l; reflexivity | lia].
  - intros i Hb. cbn in Hb. lia.
  - reflexivity.
  - reflexivity.
  - reflexivity.
Qed.

Lemma reachable_inv q s :
  queue_init n = Some q -> rtc spsc_step (spsc_init q) s ->
  Z.of_nat (length (pushed s)) + n < offset_limit -> spsc_inv s.
Proof using Hk.
  intros Hq. revert s.
  apply (rtc_ind_r (fun s => Z.of_nat (length (pushed s)) + n < offset_limit -> spsc_inv s)).
  - intros _. apply init_inv, Hq.
  - intros s s' _ Hs IH Hl. apply (spsc_step_inv s s'); [| exact Hs | exact Hl]. apply IH.
    pose proof (pushed_mono _ _ Hs). lia.
Qed.

(** No assertion fails. *)
Lemma push_step_defined q s c hp hc ok :
  spsc_inv (mkSpsc q (Some s) c hp hc) -> Z.of_nat (length hp) + n < offset_limit ->
  (forall r, s <> push_done r) -> push_step ok q s <> None.
Proof using Hk.
  intros [Hc _ _ Hp _] Hl Hd. pose proof size_pos as Hn. pose proof (c_order _ _ _ Hc) as Hord.
  destruct s; cbn [push_step sp_queue producer pushed popped] in *; try discriminate.
  - destruct (unpack_offsets _ _); [destruct (_ =? _) |]; discriminate.
  - destruct Hp as (_ & _ & -> & ->). rewrite next_version, next_offset, pack_pk by lia.
    destruct (_ && _); discriminate.
  - destruct (Hd r). reflexivity.
Qed.

Lemma pop_step_defined q s p hp hc ok :
  spsc_inv (mkSpsc q p (Some s) hp hc) -> Z.of_nat (length hp) + n < offset_limit ->
  (forall v, s <> pop_done v) -> pop_step ok q s <> None.
Proof using Hk.
  intros [Hc _ _ _ Hp] Hl Hd. pose proof size_pos as Hn. pose proof (c_order _ _ _ Hc) as Hord.
  destruct s; cbn [pop_step sp_queue consumer pushed popped] in *; try discriminate.
  - destruct (unpack_offsets _ _); [destruct (_ =? _) |]; discriminate.
  - destruct Hp as (_ & Hb & -> & ->). rewrite next_version, next_offset, pack_pk by lia.
    destruct (_ && _); discriminate.
  - destruct (Hd val). reflexivity.
Qed.

(** C22 - One producer, one consumer.  Whatever the interleaving of the two
    threads' atomic operations and the spurious failures of their
    compare-and-exchanges, as long as fewer than [2^48] elements less the size
    were pushed: what was popped is a prefix of what was pushed, never more
    than the size of the queue is waiting, and no assertion of either call
    fails. *)
Theorem spsc_fifo q s :
  queue_init n = Some q -> rtc spsc_step (spsc_init q) s ->
  Z.of_nat (length (pushed s)) + n < offset_limit ->
  popped s `prefix_of` pushed s /\
  Z.of_nat (length (pushed s)) - Z.of_nat (length (popped s)) <= n /\
  (forall ok st, producer s = Some st -> (forall r, st <> push_done r) -> push_step ok (sp_queue s) st <> None) /\
  (forall ok st, consumer s = Some st -> (forall v, st <> pop_done v) -> pop_step ok (sp_queue s) st <> None).
Proof using Hk.
  intros Hq Hr Hl. pose proof (reachable_inv q s Hq Hr Hl) as Hi. destruct s as [q' p c hp hc].
  cbn [sp_queue producer consumer pushed popped] in *. split; [| split; [| split]].
  - exists (skipn (length hc) hp). pose proof (i_prefix _ Hi) as Hpre. cbn in Hpre. rewrite Hpre at 1.
    symmetry. apply firstn_skipn.
  - pose proof (c_order _ _ _ (i_counted _ Hi)). cbn in *. lia.
  - intros ok st -> Hd. eapply push_step_defined; eassumption.
  - intros ok st -> Hd. eapply pop_step_defined; eassumption.
Qed.

(** ** Calls that run alone *)

(** The queue holds the elements [l], after [nb] pushes. *)
Definition holds (q : queue) (nb : Z) (l : list Z) : Prop :=
  exists hp hc, spsc_inv (mkSpsc q None None hp hc) /\ Z.of_nat (length hp) = nb /\ hp = hc ++ l.

Definition push_elem (s : push_state) : list Z :=
  match s with
  | push_start e | push_counter e _ _ | push_version e _ _ _ | push_cas e _ _ _ _
  | push_store e _ _ | push_publish e _ => [e]
  | push_done _ => []
  end.

Lemma push_step_elem ok q s q' s' :
  push_step ok q s = Some (q', s') ->
  s' = push_done false /\ push_publishes s = [] \/ push_elem s = push_publishes s ++ push_elem s'.
Proof using.
  destruct s; cbn [push_step push_publishes push_elem]; intros H; try discriminate;
    try solve [injection H as <- <-; auto].
  - destruct (unpack_offsets _ _); [destruct (_ =? _) |]; injection H as <- <-; auto.
    unfold push_retry. destruct (_ <? _); auto.
  - destruct (pack_offset _ _); [| discriminate]. destruct (_ && _); injection H as <- <-; auto.
    unfold push_retry. destruct (_ <? _); auto.
Qed.

Lemma push_run_inv fuel q s q' r c hp hc :
  spsc_inv (mkSpsc q (Some s) c hp hc) -> Z.of_nat (length (hp ++ push_elem s)) + n < offset_limit ->
  push_run fuel q s = Some (q', r) ->
  spsc_inv (mkSpsc q' None c (if r : bool then hp ++ push_elem s else hp) hc).
Proof using Hk.
  assert (Hdone : forall q r0 hp, spsc_inv (mkSpsc q (Some (push_done r0)) c hp hc) ->
            spsc_inv (mkSpsc q None c hp hc)).
  { intros q0 r0 hp0 Hi. apply (producer_local _ _ _ _ _ _ Hi), Hi. }
  revert q s hp. induction fuel as [| fuel IH]; intros q s hp Hi Hl H; cbn [push_run] in H.
  { destruct s; try discriminate. injection H as -> ->. cbn [push_elem]. rewrite app_nil_r.
    destruct r; eapply Hdone, Hi. }
  assert (Hs : s = push_done r /\ q' = q \/
    match push_step true q s with Some (q1, s1) => push_run fuel q1 s1 | None => None end = Some (q', r)).
  { destruct s; auto. injection H as <- <-. auto. }
  clear H. destruct Hs as [[-> ->] | H].
  { cbn [push_elem]. rewrite app_nil_r. destruct r; eapply Hdone, Hi. }
  destruct (push_step true q s) as [[q1 s1] |] eqn:E; [| discriminate].
  assert (Hl1 : Z.of_nat (length (hp ++ push_publishes s)) + n < offset_limit).
  { rewrite length_app in *. destruct (push_step_elem _ _ _ _ _ E) as [[_ ->] | Ee]; [cbn; lia |].
    rewrite Ee, length_app in Hl. lia. }
  pose proof (push_move_inv _ _ _ _ _ _ _ _ Hi Hl1 E) as Hi1.
  destruct (push_step_elem _ _ _ _ _ E) as [[-> Hp] | Ee].
  - rewrite Hp, app_nil_r in Hi1. destruct fuel; injection H as <- <-; eapply Hdone, Hi1.
  - assert (Hr : push_publishes s = [] \/ s1 = push_done true).
    { destruct s; auto. injection E as _ <-. auto. }
    destruct Hr as [Hp | ->].
    + rewrite Hp in *. rewrite app_nil_r in Hi1. rewrite Ee. apply (IH q1 s1); [exact Hi1 | | exact H].
      rewrite Ee in Hl. exact Hl.
    + rewrite Ee. cbn [push_elem]. rewrite app_nil_r.
      destruct fuel; injection H as <- <-; eapply Hdone, Hi1.
Qed.

Lemma pop_run_inv fuel q s q' v p hp hc :
  spsc_inv (mkSpsc q p (Some s) hp hc) -> Z.of_nat (length hp) + n < offset_limit ->
  pop_run fuel q s = Some (q', v) ->
  exists hc', spsc_inv (mkSpsc q' p None hp hc').
Proof using Hk.
  assert (Hdone : forall q v0 hc, spsc_inv (mkSpsc q p (Some (pop_done v0)) hp hc) ->
            spsc_inv (mkSpsc q p None hp hc)).
  { intros q0 r0 hp0 Hi. apply (consumer_local _ _ _ _ _ _ Hi), Hi. }
  revert q s hc. induction fuel as [| fuel IH]; intros q s hc Hi Hl H; cbn [pop_run] in H.
  { destruct s; try discriminate. injection H as -> ->. eauto. }
  assert (Hs : s = pop_done v /\ q' = q \/
    match pop_step true q s with Some (q1, s1) => pop_run fuel q1 s1 | None => None end = Some (q', v)).
  { destruct s; auto. injection H as <- <-. auto. }
  clear H. destruct Hs as [[-> ->] | H]; [eauto |].
  destruct (pop_step true q s) as [[q1 s1] |] eqn:E; [| discriminate].
  eapply IH; [eapply pop_move_inv; eassumption | exact Hl | exact H].
Qed.

(** What a call that runs alone returns, and the counter it leaves. *)
Lemma push_back_result q e hp hc :
  spsc_inv (mkSpsc q None None hp hc) -> Z.of_nat (length hp) + n < offset_limit ->
  exists q', push_back q e = Some (q', Z.of_nat (length hp) - Z.of_nat (length hc) <? n).
Proof using Hk.
  intros [Hc _ _ Hp _] Hl. cbn [sp_queue producer pushed popped] in *.
  pose proof size_pos as Hn. pose proof (c_order _ _ _ Hc) as Hord.
  destruct (counted_offsets _ _ _ Hc Hl) as [Hob Hof]. cbn in Hp.
  unfold push_back. cbn [push_run push_step]. rewrite Hof, Hp, (c_vb _ _ _ Hc), unpack_pk by lia.
  destruct (Z.eqb_spec (Z.of_nat (length hc) + n) (Z.of_nat (length hp))) as [E | N]; cbn [push_step].
  - exists q. do 2 f_equal. symmetry. apply Z.ltb_ge. lia.
  - rewrite next_version, next_offset, pack_pk, Hp, Z.eqb_refl by lia. cbn [andb push_step].
    eexists. do 2 f_equal. symmetry. apply Z.ltb_lt. lia.
Qed.

Lemma pop_front_result q hp hc :
  spsc_inv (mkSpsc q None None hp hc) -> Z.of_nat (length hp) + n < offset_limit ->
  exists q', pop_front q = Some (q', nth 0 (skipn (length hc) hp) 0) /\
    version_front q' = pk (Z.of_nat (length hc) + b2z (Nat.ltb (length hc) (length hp)))
      (Z.of_nat (length hc) + b2z (Nat.ltb (length hc) (length hp)) + n).
Proof using Hk.
  intros [Hc Hlv _ _ Hp] Hl. cbn [sp_queue consumer pushed popped] in *.
  pose proof size_pos as Hn. pose proof (c_order _ _ _ Hc) as Hord.
  assert (Hlim : offset_limit < 2 ^ 64) by reflexivity.
  destruct (counted_offsets _ _ _ Hc Hl) as [Hob Hof]. cbn in Hp.
  unfold pop_front. cbn [pop_run pop_step]. rewrite Hob, Hp, (c_vf _ _ _ Hc), unpack_pk by lia.
  rewrite (c_size _ _ _ Hc), wrap_small by lia. rewrite nth_skipn, Nat.add_0_r.
  destruct (Z.eqb_spec (Z.of_nat (length hc) + n - Z.of_nat (length hp)) n) as [E | N]; cbn [pop_step].
  - exists q. destruct (Nat.ltb_spec (length hc) (length hp)); [lia |]. cbn [b2z].
    rewrite Z.add_0_r, nth_overflow by lia. split; [reflexivity | apply Hc].
  - destruct (Nat.ltb_spec (length hc) (length hp)); [| lia]. cbn [b2z].
    rewrite next_version.
    replace (Z.land (Z.of_nat (length hc) + n + 1) (offset_limit - 1)) with (Z.of_nat (length hc) + 1 + n).
    2: { rewrite next_offset by lia. lia. }
    rewrite pack_pk, Hp, Z.eqb_refl by lia. cbn [andb pop_step].
    eexists. split; [apply (f_equal Some), (f_equal2 pair eq_refl) | reflexivity].
    rewrite (slot_mask _ _ _ _ Hc), slot_shift. cbn [vec set_counter_front].
    rewrite (Hlv (Z.of_nat (length hc))) by lia. f_equal. lia.
Qed.

(** Calls that run alone.  On a queue that holds the list [l], fewer than
    [2^48] elements less the size having been pushed, [size], [empty] and
    [full] report its length; [push_back] appends the element and returns
    true, or returns false when the list has the queue's size; [pop_front]
    removes and returns the first element, or returns 0 when there is none. *)
Theorem queue_alone q nb l e :
  holds q nb l -> nb + 1 + n < offset_limit ->
  queue_size q = Z.of_nat (length l) /\ queue_empty q = (Z.of_nat (length l) =? 0) /\
  queue_full q = (Z.of_nat (length l) =? n) /\
  (exists q', if Z.of_nat (length l) <? n
     then push_back q e = Some (q', true) /\ holds q' (nb + 1) (l ++ [e])
     else push_back q e = Some (q', false) /\ holds q' nb l) /\
  (exists q', pop_front q = Some (q', hd 0 l) /\ holds q' nb (tl l)).
Proof using Hk.
  intros (hp & hc & Hi & <- & ->) Hl. pose proof size_pos as Hn.
  assert (Hlim : offset_limit < 2 ^ 64) by reflexivity.
  pose proof (i_counted _ Hi) as Hc. cbn [sp_queue pushed popped] in Hc.
  pose proof (c_order _ _ _ Hc) as Hord.
  destruct (counted_offsets _ _ _ Hc ltac:(lia)) as [Hob Hof].
  assert (Hlen : Z.of_nat (length (hc ++ l)) - Z.of_nat (length hc) = Z.of_nat (length l)) by (rewrite length_app; lia).
  split; [| split; [| split; [| split]]].
  - unfold queue_size. rewrite Hob, Hof, (c_size _ _ _ Hc).
    destruct (Z.ltb_spec (Z.of_nat (length hc) + n) (Z.of_nat (length (hc ++ l)))); [lia |].
    rewrite wrap_small; lia.
  - unfold queue_empty. rewrite Hob, Hof, (c_size _ _ _ Hc), wrap_small by lia. lia.
  - unfold queue_full. rewrite Hob, Hof. lia.
  - destruct (push_back_result q e _ _ Hi ltac:(lia)) as [q' E]. rewrite Hlen in E. exists q'.
    assert (Hi' : spsc_inv (mkSpsc q (Some (push_start e)) None (hc ++ l) hc))
      by (apply (producer_local _ _ _ _ _ _ Hi), Hi).
    assert (Hb : Z.of_nat (length ((hc ++ l) ++ push_elem (push_start e))) + n < offset_limit)
      by (rewrite !length_app in *; cbn [push_elem length]; lia).
    pose proof (push_run_inv _ _ _ _ _ _ _ _ Hi' Hb E) as Hi2.
    cbn [push_elem] in Hi2. destruct (Z.of_nat (length l) <? n); (split; [exact E |]).
    + exists ((hc ++ l) ++ [e]), hc. rewrite <- app_assoc in *. split; [exact Hi2 |].
      rewrite !length_app. cbn [length]. split; [lia | reflexivity].
    + exists (hc ++ l), hc. auto.
  - destruct (pop_front_result q _ _ Hi ltac:(lia)) as (q' & E & Hv). exists q'.
    rewrite drop_app_length in E. split; [rewrite E; destruct l; reflexivity |].
    assert (Hi' : spsc_inv (mkSpsc q None (Some pop_start) (hc ++ l) hc))
      by (apply (consumer_local _ _ _ _ _ _ Hi), Hi).
    destruct (pop_run_inv _ _ _ _ _ _ _ _ Hi' ltac:(lia) E) as [hc' Hi2].
    exists (hc ++ l), hc'. split; [exact Hi2 |]. split; [reflexivity |].
    pose proof (i_counted _ Hi2) as Hc2. cbn [sp_queue pushed popped] in Hc2.
    pose proof (c_order _ _ _ Hc2) as Hord2.
    assert (Hnf : length hc' = (length hc + (if Nat.ltb (length hc) (length (hc ++ l)) then 1 else 0))%nat).
    { pose proof (c_vf _ _ _ Hc2) as Hv2. rewrite Hv in Hv2. apply (f_equal offset_of) in Hv2.
      destruct (Nat.ltb_spec (length hc) (length (hc ++ l))); cbn [b2z] in *;
        rewrite !pk_offset in Hv2 by lia; lia. }
    pose proof (i_prefix _ Hi2) as Hpre. cbn [pushed popped] in Hpre.
    rewrite <- (firstn_skipn (length hc') (hc ++ l)), <- Hpre. f_equal. rewrite Hnf.
    destruct (Nat.ltb_spec (length hc) (length (hc ++ l))) as [Hlt | Hge]; rewrite length_app in *.
    + rewrite skipn_app, skipn_all2 by lia. replace (length hc + 1 - length hc)%nat with 1%nat by lia.
      destruct l; reflexivity.
    + rewrite Nat.add_0_r, skipn_app, skipn_all, Nat.sub_diag. destruct l; [reflexivity | cbn in Hge; lia].
Qed.
End Spsc.

(** ** Witnesses *)
Definition demo_queue : queue := mkQueue (fun _ => 0) 2 0 0 0 2.

Tactic Notation "producer_moves" integer(n) := do n (eapply rtc_l; [eapply (push_move true); reflexivity |]).
Tactic Notation "consumer_moves" integer(n) := do n (eapply rtc_l; [eapply (pop_move true); reflexivity |]).

(** The consumer loads the back offset while the producer is in its critical
    section, so it finds the queue empty; its next call pops the element. *)
Lemma spsc_fifo_witness :
  exists s, rtc spsc_step (spsc_init demo_queue) s /\ pushed s = [7] /\ popped s = [7] /\
    popped s `prefix_of` pushed s.
Proof.
  assert (H : exists s, rtc spsc_step (spsc_init demo_queue) s /\ pushed s = [7] /\ popped s = [7]).
  { eexists. split.
    - eapply rtc_l; [apply (push_call 7) |]. producer_moves 4.
      eapply rtc_l; [apply pop_call |]. consumer_moves 1. producer_moves 2. consumer_moves 2.
      eapply rtc_l; [apply pop_return |]. eapply rtc_l; [apply push_return |].
      eapply rtc_l; [apply pop_call |]. consumer_moves 6. apply rtc_refl.
    - split; reflexivity. }
  destruct H as (s & Hr & Hp & Hc). exists s. split; [exact Hr |]. split; [exact Hp |]. split; [exact Hc |].
  apply (spsc_fifo 1 ltac:(split; [discriminate | reflexivity]) demo_queue s eq_refl Hr).
  rewrite Hp. reflexivity.
Defined.

Lemma demo_holds : holds 1 demo_queue 0 [].
Proof.
  exists [], []. split; [| split; reflexivity].
  apply init_inv; [split; [discriminate | reflexivity] | reflexivity].
Qed.

Lemma queue_alone_witness : exists q', push_back demo_queue 5 = Some (q', true) /\ holds 1 q' 1 [5].
Proof.
  destruct (queue_alone 1 ltac:(split; [discriminate | reflexivity]) demo_queue 0 [] 5 demo_holds eq_refl)
    as (_ & _ & _ & H & _). exact H.
Defined.

(** ** Several producers

    [push_back] loads the front offset once, before its loop, and compares it
    with the back offset for equality.  A producer that is overtaken by one
    full round of the queue finds the two different and overwrites an element
    that was not popped: here [2] is lost. *)
Example two_producers_lose_an_element :
  match push_step true demo_queue (push_start 11) with
  | Some (q, a) =>
      match push_back q 1 with Some (q, true) =>
      match push_back q 2 with Some (q, true) =>
      match pop_front q with Some (q, 1) =>
      match push_back q 3 with Some (q, true) =>
      match push_run 5 q a with Some (q, true) =>
      match pop_front q with Some (q, v) => v = 11
      | _ => False end | _ => False end | _ => False end | _ => False end | _ => False end | _ => False end
  | None => False
  end.
Proof. vm_compute. reflexivity. Qed.

(** After [2^48] operations the empty test fails: the front offset has wrapped
    and the back offset has not. *)
Example empty_after_wrap :
  let q := mkQueue (fun _ => 0) 2 0 (2 ^ 48 - 1) 0 1 in
  queue_empty q = false /\ offset_of (version_back q) = 2 ^ 48 - 1 /\ offset_of (version_front q) = 1.
Proof. vm_compute. repeat split. Qed.
