(* ===== verification/Assembler.v ===== *)
(** * Assembler: the assembler and linker of [asm/assembler.cc]: sections,
    labels, constants loaded in parts, relocations and [link]. *)

From Stdlib Require Import ZArith Lia Bool List String Ascii.
From stdpp Require Import base numbers list gmap strings pretty.
From S2P Require Import Prelude Operand Meta Decode Encode Codec Alu.

(** ** State

    A section is known by its index.  The labels are a heap, because
    [labels_byname] and [labels_byoffset] share the objects they point to; the
    two maps with offsets for keys are lists in the order of their keys. *)
Definition key : Type := Z * Z.

Definition key_ltb (a b : key) : bool :=
  (a.1 <? b.1) || (a.1 =? b.1) && (a.2 <? b.2).
Definition key_eqb (a b : key) : bool := (a.1 =? b.1) && (a.2 =? b.2).

Record section := mkSection { sec_offset : Z; sec_name : string; sec_buf : list Z }.
Record label := mkLabel { lb_name : string; lb_offset : key; lb_num : Z }.
Record reloc := mkReloc { rl_name : string; rl_type : Z }.

Record assembler := mkAssembler {
  sections : list section;
  section_map : gmap string nat;
  labels : list label;
  labels_byoffset : list (key * nat);
  labels_byname : gmap string nat;
  relocs_byoffset : list (key * reloc);
  strong_exports : list string;
  weak_exports : list string;
  current : nat }.

Section Updates.
Context (a : assembler).
Definition set_sections (v : list section) : assembler :=
  mkAssembler v (section_map a) (labels a) (labels_byoffset a) (labels_byname a)
    (relocs_byoffset a) (strong_exports a) (weak_exports a) (current a).
Definition set_relocs (v : list (key * reloc)) : assembler :=
  mkAssembler (sections a) (section_map a) (labels a) (labels_byoffset a) (labels_byname a)
    v (strong_exports a) (weak_exports a) (current a).
Definition set_current (v : nat) : assembler :=
  mkAssembler (sections a) (section_map a) (labels a) (labels_byoffset a) (labels_byname a)
    (relocs_byoffset a) (strong_exports a) (weak_exports a) v.
Definition set_labels (h : list label) (o : list (key * nat)) (n : gmap string nat) : assembler :=
  mkAssembler (sections a) (section_map a) h o n
    (relocs_byoffset a) (strong_exports a) (weak_exports a) (current a).
Definition set_exports (s w : list string) : assembler :=
  mkAssembler (sections a) (section_map a) (labels a) (labels_byoffset a) (labels_byname a)
    (relocs_byoffset a) s w (current a).
End Updates.

Definition set_buf (b : list Z) (s : section) : section := mkSection (sec_offset s) (sec_name s) b.
Definition set_offset (o : Z) (s : section) : section := mkSection o (sec_name s) (sec_buf s).

(** A [std::map] from offsets: lookup and assignment. *)
Fixpoint map_find {A} (k : key) (m : list (key * A)) : option A :=
  match m with
  | [] => None
  | (k', v) :: m => if key_eqb k k' then Some v else map_find k m
  end.

Fixpoint map_assign {A} (k : key) (v : A) (m : list (key * A)) : list (key * A) :=
  match m with
  | [] => [(k, v)]
  | (k', v') :: m' =>
      if key_ltb k k' then (k, v) :: m
      else if key_eqb k k' then (k, v) :: m'
      else (k', v') :: map_assign k v m'
  end.

(** ** Names *)
Definition is_digit (c : ascii) : bool := let n := nat_of_ascii c in (48 <=? n)%nat && (n <=? 57)%nat.
Definition is_alpha (c : ascii) : bool :=
  let n := nat_of_ascii c in
  ((65 <=? n)%nat && (n <=? 90)%nat) || ((97 <=? n)%nat && (n <=? 122)%nat).

Definition name_start (c : ascii) : bool := is_alpha c || (c =? "_")%char.
Definition name_char (c : ascii) : bool := is_alpha c || is_digit c || (c =? "_")%char || (c =? ".")%char.

Definition check_symbol (arg : string) : bool :=
  match list_ascii_of_string arg with c :: cs => name_start c && forallb name_char cs | [] => false end.

Definition check_private (arg : string) : bool :=
  match list_ascii_of_string arg with
  | d :: c :: cs => (d =? ".")%char && name_start c && forallb name_char cs
  | _ => false
  end.

(** The digits and the last character of [\d+[fb]]. *)
Definition split_local (arg : string) : option (list ascii * ascii) :=
  match rev (list_ascii_of_string arg) with
  | c :: (_ :: _) as ds => Some (rev ds, c)
  | _ => None
  end.

Definition check_local (arg : string) : bool :=
  match split_local arg with
  | Some (ds, c) => ((c =? "b")%char || (c =? "f")%char) && forallb is_digit ds
  | None => false
  end.

(** [strtoull] of digits, which stops at the largest value. *)
Definition strtoull (ds : list ascii) : Z :=
  Z.min (2 ^ 64 - 1)
    (fold_left (fun n d => 10 * n + (Z.of_nat (nat_of_ascii d) - 48)) ds 0).

(** ** Sections *)
Definition get_section (name : string) (a : assembler) : assembler :=
  match section_map a !! name with
  | None =>
      let i := List.length (sections a) in
      mkAssembler (sections a ++ [mkSection 0 name []]) (<[name := i]> (section_map a)) (labels a)
        (labels_byoffset a) (labels_byname a) (relocs_byoffset a) (strong_exports a) (weak_exports a) i
  | Some i => set_current a i
  end.

Definition assembler_init : assembler :=
  get_section ".text" (get_section "" (mkAssembler [] ∅ [] [] ∅ [] [] [] 0)).

Definition global (l : string) (a : assembler) : assembler := set_exports a (strong_exports a ++ [l]) (weak_exports a).
Definition weak (l : string) (a : assembler) : assembler := set_exports a (strong_exports a) (weak_exports a ++ [l]).

(** [current->buf]; a section index is always in range. *)
Definition section_buf (a : assembler) (i : nat) : list Z :=
  match sections a !! i with Some s => sec_buf s | None => [] end.
Definition put_section_buf (i : nat) (b : list Z) (a : assembler) : assembler :=
  set_sections a (alter (set_buf b) i (sections a)).

Definition current_offset (a : assembler) : key :=
  (Z.of_nat (current a), Z.of_nat (List.length (section_buf a (current a)))).

(** ** Bytes *)

(** [append]: the [n] low bytes of [d], lowest first. *)
Definition le_bytes (n : nat) (d : Z) : list Z :=
  map (fun i => u8 (Z.shiftr d (8 * Z.of_nat i))) (seq 0 n).
Definition append (n : nat) (d : Z) (a : assembler) : assembler :=
  put_section_buf (current a) (section_buf a (current a) ++ le_bytes n d) a.

Definition add_inst (inst : Z) (a : assembler) : assembler :=
  switch (inst_length inst)
    [2 ~> append 2 (u16 inst) a;
     4 ~> append 4 (u32 inst) a;
     6 ~> append 2 (u16 (Z.shiftr inst 32)) (append 4 (u32 inst) a);
     8 ~> append 8 inst a] a.

(** [balign], [p2align]; [1 << s] is of type [int]. *)
Definition balign (align : Z) (a : assembler) : assembler :=
  let size := Z.of_nat (List.length (section_buf a (current a))) in
  if negb (ispow2 64 align) then a
  else if Z.land size (align - 1) =? 0 then a
  else
    let sz := align - Z.land size (align - 1) in
    put_section_buf (current a) (section_buf a (current a) ++ repeat 0 (Z.to_nat sz)) a.

Definition p2align (s : Z) (a : assembler) : option assembler :=
  if s <? 32 then Some (balign (u64 (swrap 32 (Z.shiftl 1 s))) a) else None.

(** ** Instructions: [asm/jit.cc]

    An operand that is not valid gives 0, the illegal instruction. *)
Definition ireg5_valid (r : Z) : bool := r <=? 31.
Definition simm_valid (w imm : Z) : bool := (imm <=? 2 ^ (w - 1) - 1) && (- 2 ^ (w - 1) <=? imm).
Definition uimm_valid (w imm : Z) : bool := imm <=? 2 ^ w - 1.

Definition emit_lui (rd imm20 : Z) : option Z :=
  if ireg5_valid rd && simm_valid 32 imm20
  then encode_inst (set_imm imm20 (set_rd rd (set_op rv_op_lui decode_init)))
  else Some 0.

Definition emit_addi (rd rs1 imm12 : Z) : option Z :=
  if ireg5_valid rd && ireg5_valid rs1 && simm_valid 12 imm12
  then encode_inst (set_imm imm12 (set_rs1 rs1 (set_rd rd (set_op rv_op_addi decode_init))))
  else Some 0.

Definition emit_slli (rd rs1 shamt7 : Z) : option Z :=
  if ireg5_valid rd && ireg5_valid rs1 && uimm_valid 7 shamt7
  then encode_inst (set_imm shamt7 (set_rs1 rs1 (set_rd rd (set_op rv_op_slli decode_init))))
  else Some 0.

(** ** Constants

    The instructions [load_imm] adds.  [load_imm_r] calls itself on a value
    with at least twelve bits less, so six calls are enough. *)
Definition fits_s32 (val : Z) : bool :=
  (Z.land val (Z.lnot 0x7fffffff) =? 0) || (Z.land val (Z.lnot 0x7fffffff) =? Z.lnot 0x7fffffff).

Definition zero_low (val : Z) : Z := Z.shiftl (Z.shiftr val 12) 12.

(** [lo], [hi] and [shift] of a value that does not fit. *)
Definition imm_lo (val : Z) : Z := bitextend 64 val 12.
Definition imm_hi (val : Z) : Z := s64 (val - imm_lo val).
Definition imm_shift (val : Z) : Z := 12 + ctz 64 (Z.shiftr (u64 (imm_hi val)) 12).

Fixpoint load_imm_r (fuel : nat) (rd val : Z) : option (list Z) :=
  match fuel with
  | O => None
  | S fuel =>
      if fits_s32 val then
        hi ← emit_lui rd (zero_low val);
        let low := val - zero_low val in
        if negb (low =? 0) then lo ← emit_addi rd rd (bitextend 64 low 12); Some [hi; lo]
        else Some [hi]
      else
        let shift := imm_shift val in
        code ← load_imm_r fuel rd (Z.shiftr (imm_hi val) shift);
        sh ← emit_slli rd rd shift;
        if negb (imm_lo val =? 0) then
          lo ← emit_addi rd rd (s32 (bitextend 64 (imm_lo val) 12)); Some (code ++ [sh; lo])
        else Some (code ++ [sh])
  end.

Definition load_imm_insts (rd val : Z) : option (list Z) :=
  if (-2048 <=? val) && (val <=? 2047) then
    i ← emit_addi rd rv_ireg_zero (s32 val); Some [i]
  else if ispow2 64 (u64 val) then
    i ← emit_addi rd rv_ireg_zero 1;
    j ← emit_slli rd rd (ctz 64 (u64 val)); Some [i; j]
  else load_imm_r 6 rd val.

Definition load_imm (rd val : Z) (a : assembler) : option assembler :=
  code ← load_imm_insts rd val; Some (fold_left (fun a i => add_inst i a) code a).

(** ** Labels *)
Definition SHN_ABS : Z := 0xfff1.

Definition lookup_name (name : string) (a : assembler) : option label :=
  i ← labels_byname a !! name; labels a !! i.

Definition deref (a : assembler) (m : list (key * nat)) : list (key * label) :=
  omap (fun ki => l ← labels a !! ki.2; Some (ki.1, l)) m.

(** [lookup_label_f]: the first label with the number at or after the first
    label past the relocation. *)
Fixpoint label_f (found : bool) (k : key) (num : Z) (m : list (key * label)) : option label :=
  match m with
  | [] => None
  | (k', l) :: m =>
      let found := found || key_ltb k k' in
      if found && (lb_num l =? num) then Some l else label_f found k num m
  end.

(** [lookup_label_b]: the last one up to the relocation. *)
Fixpoint label_b (found : option label) (k : key) (num : Z) (m : list (key * label)) : option label :=
  match m with
  | [] => found
  | (k', l) :: m =>
      if key_ltb k k' then found
      else label_b (if lb_num l =? num then Some l else found) k num m
  end.

Definition lookup_label_f (k : key) (num : Z) (a : assembler) : option label :=
  label_f false k num (deref a (labels_byoffset a)).
Definition lookup_label_b (k : key) (num : Z) (a : assembler) : option label :=
  label_b None k num (deref a (labels_byoffset a)).

(** [lookup_label(reloc, name)]; the relocation is at [k]. *)
Definition lookup_label (k : key) (name : string) (a : assembler) : option label :=
  match split_local name with
  | Some (ds, c) =>
      if check_local name then
        let val := s64 (strtoull ds) in
        if (c =? "f")%char then lookup_label_f k val a else lookup_label_b k val a
      else lookup_name name a
  | None => lookup_name name a
  end.

(** [add_label]; [None] is the null pointer. *)
Definition new_label (name : string) (k : key) (a : assembler) : option (assembler * nat) :=
  match labels_byname a !! name with
  | Some _ => None
  | None =>
      let i := List.length (labels a) in
      Some (set_labels a (labels a ++ [mkLabel name k 0]) (map_assign k i (labels_byoffset a))
              (<[name := i]> (labels_byname a)), i)
  end.

Definition add_label (name : string) (a : assembler) : option (assembler * nat) :=
  new_label name (current_offset a) a.

Definition add_constant (name : string) (value : Z) (a : assembler) : option (assembler * nat) :=
  new_label name (SHN_ABS, u64 value) a.

(** [add_label(num)]: the first name that is not taken; [l->num = num]. *)
Definition num_label (num i : Z) : string := ".L" +:+ pretty num +:+ pretty i.

Fixpoint add_label_num (fuel : nat) (num i : Z) (a : assembler) : option (assembler * nat) :=
  match fuel with
  | O => None
  | S fuel =>
      match labels_byname a !! num_label num i with
      | None =>
          match add_label (num_label num i) a with
          | Some (a, l) =>
              Some (set_labels a (alter (fun x => mkLabel (lb_name x) (lb_offset x) num) l (labels a))
                      (labels_byoffset a) (labels_byname a), l)
          | None => None
          end
      | Some _ => add_label_num fuel num (i + 1) a
      end
  end.

(** ** Relocations *)
Definition R_RISCV_32 : Z := 1.
Definition R_RISCV_64 : Z := 2.
Definition R_RISCV_BRANCH : Z := 16.
Definition R_RISCV_JAL : Z := 17.
Definition R_RISCV_CALL : Z := 18.
Definition R_RISCV_PCREL_HI20 : Z := 23.
Definition R_RISCV_PCREL_LO12_I : Z := 24.
Definition R_RISCV_PCREL_LO12_S : Z := 25.
Definition R_RISCV_HI20 : Z := 26.
Definition R_RISCV_LO12_I : Z := 27.
Definition R_RISCV_LO12_S : Z := 28.

Definition lookup_reloc (k : key) (a : assembler) : option reloc := map_find k (relocs_byoffset a).

Definition add_reloc (name : string) (rela_type : Z) (a : assembler) : option assembler :=
  match map_find (current_offset a) (relocs_byoffset a) with
  | Some _ => None
  | None => Some (set_relocs a (map_assign (current_offset a) (mkReloc name rela_type) (relocs_byoffset a)))
  end.

(** [sections[k.section()]->offset + k.offset()], and the section's buffer;
    an index out of range is undefined ([None]). *)
Definition absolute (k : key) (a : assembler) : option Z :=
  s ← sections a !! Z.to_nat k.1; Some (u64 (sec_offset s + k.2)).
Definition label_offset (l : label) (a : assembler) : option Z := absolute (lb_offset l) a.
Definition reloc_offset (k : key) (a : assembler) : option Z := absolute k a.

(** [label_off] in [relocate]: a constant is its value. *)
Definition label_target (l : label) (a : assembler) : option Z :=
  if (lb_offset l).1 =? SHN_ABS then Some (lb_offset l).2 else label_offset l a.

(** [inst_fetch] of the bytes at [off], which must be in the buffer. *)
Definition buf_fetch (b : list Z) (off : Z) : option (Z * Z) :=
  let len := Z.of_nat (List.length b) in
  let mem i := nth (Z.to_nat i) b 0 in
  if (off + 4 <=? len) && (off + inst_length (le32 mem off) <=? len)
  then Some (inst_fetch mem off) else None.

(** Bytes written over those at [off]. *)
Definition buf_write (b : list Z) (off : Z) (bs : list Z) : option (list Z) :=
  if off + Z.of_nat (List.length bs) <=? Z.of_nat (List.length b)
  then Some (firstn (Z.to_nat off) b ++ bs ++ skipn (Z.to_nat off + List.length bs) b) else None.

Definition reencode_inst (d : decode) (b : list Z) (off : Z) : option (list Z) :=
  inst ← encode_inst d;
  switch (inst_length inst)
    [2 ~> buf_write b off (le_bytes 2 inst); 4 ~> buf_write b off (le_bytes 4 inst)] (Some b).

(** [((x + 0x800) >> 12) << 12] on a [size_t], and its conversion to [int]. *)
Definition hi20 (x : Z) : Z := u64 (Z.shiftl (Z.shiftr (u64 (x + 0x800)) 12) 12).
Definition upper (x : Z) : Z := s32 (hi20 x).

(** What is done to the bytes at the relocation. *)
Inductive fixup :=
  | fix_imm (v : Z)             (* [dec.imm = v] and [re_encode] *)
  | fix_pair (hi lo : Z)        (* [R_RISCV_CALL]: the two instructions *)
  | fix_bytes (n : nat) (v : Z) (* data *)
  | fix_none
  | fix_fail.                   (* [return false] *)

(** The [switch] on the relocation's type, for the label's offset and the
    relocation's; [None] is undefined behaviour. *)
Definition fixup_of (a : assembler) (k : key) (rtype label_off reloc_off : Z) : option fixup :=
  let rel := u64 (label_off - reloc_off) in
  let lo12 := Some (fix_imm (u64 (label_off - upper label_off))) in
  let pcrel_lo12 :=
    match map_find (k.1, label_off) (relocs_byoffset a) with
    | None => Some fix_fail
    | Some r =>
        reloc_off ← reloc_offset (k.1, label_off) a;
        match lookup_name (rl_name r) a with
        | None => Some fix_fail
        | Some l =>
            label_off ← label_offset l a;
            let rel := u64 (label_off - reloc_off) in
            Some (fix_imm (u64 (rel - upper rel)))
        end
    end in
  switch rtype
    [R_RISCV_JAL ~> Some (fix_imm rel);
     R_RISCV_BRANCH ~> Some (fix_imm rel);
     R_RISCV_HI20 ~> Some (fix_imm (hi20 label_off));
     R_RISCV_LO12_I ~> lo12;
     R_RISCV_LO12_S ~> lo12;
     R_RISCV_PCREL_HI20 ~> Some (fix_imm (hi20 rel));
     R_RISCV_PCREL_LO12_I ~> pcrel_lo12;
     R_RISCV_PCREL_LO12_S ~> pcrel_lo12;
     R_RISCV_CALL ~> Some (fix_pair (upper rel) (s32 (rel - upper rel)));
     R_RISCV_32 ~> Some (fix_bytes 4 (u32 label_off));
     R_RISCV_64 ~> Some (fix_bytes 8 label_off)] (Some fix_none).

Definition apply_fixup (f : fixup) (b : list Z) (off : Z) (d : decode) (pc_offset : Z) :
    option (list Z * bool) :=
  match f with
  | fix_imm v => b ← reencode_inst (set_imm v d) b off; Some (b, true)
  | fix_pair hi lo =>
      '(inst, _) ← buf_fetch b (off + pc_offset);
      b ← reencode_inst (set_imm lo (decode_inst_rv64 decode_init inst)) b (off + pc_offset);
      b ← reencode_inst (set_imm hi d) b off; Some (b, true)
  | fix_bytes n v => b ← buf_write b off (le_bytes n v); Some (b, true)
  | fix_none => Some (b, true)
  | fix_fail => Some (b, false)
  end.

(** [relocate]: it renames the relocation after the label it found. *)
Definition relocate (k : key) (r : reloc) (a : assembler) : option (assembler * bool) :=
  match lookup_label k (rl_name r) a with
  | None => Some (a, false)
  | Some l =>
      let a := set_relocs a (map_assign k (mkReloc (lb_name l) (rl_type r)) (relocs_byoffset a)) in
      label_off ← label_target l a;
      reloc_off ← reloc_offset k a;
      let b := section_buf a (Z.to_nat k.1) in
      '(inst, pc_offset) ← buf_fetch b k.2;
      f ← fixup_of a k (rl_type r) label_off reloc_off;
      '(b, ok) ← apply_fixup f b k.2 (decode_inst_rv64 decode_init inst) pc_offset;
      Some (put_section_buf (Z.to_nat k.1) b a, ok)
  end.

(** [link]: the sections one after the other, then the relocations in the
    order of their offsets; the result is the number unresolved. *)
Fixpoint layout_sections (offset : Z) (ss : list section) : list section :=
  match ss with
  | [] => []
  | s :: ss => set_offset offset s :: layout_sections (u64 (offset + Z.of_nat (List.length (sec_buf s)))) ss
  end.

Fixpoint relocate_all (rs : list (key * reloc)) (a : assembler) : option (assembler * nat) :=
  match rs with
  | [] => Some (a, O)
  | (k, _) :: rs =>
      match map_find k (relocs_byoffset a) with
      | Some r =>
          '(a, ok) ← relocate k r a;
          '(a, n) ← relocate_all rs a;
          Some (a, if ok : bool then n else S n)
      | None => None
      end
  end.

Definition link (a : assembler) : option (assembler * nat) :=
  let a := set_sections a (layout_sections 0 (sections a)) in
  relocate_all (relocs_byoffset a) a.
