(* ===== verification/AssemblerSound.v ===== *)
(** * AssemblerSound: lemmas about assembled code: instructions written to and
    fetched from a buffer, immediates replaced in a decoded instruction, and
    the execution of straight-line code. *)

From Stdlib Require Import ZArith Lia Bool List.
From stdpp Require Import base numbers list.
From S2P Require Import Prelude Operand Meta Decode Encode Codec CodecSound CodecRound Compress Alu Machine Fpu Interp ExecSpec Model Assembler.

(** ** Canonical instructions *)

(** The opcode fixes no bit of an operand. *)
Definition plain_op (op : rv_op) : bool :=
  Z.land (rv_inst_mask op) (layout_mask (rv_inst_codec op)) =? 0.

Lemma op_agrees_plain d : plain_op (d_op d) = true -> op_agrees d = true.
Proof.
  unfold plain_op, op_agrees. intros H. bool_hyps. apply Z.eqb_eq.
  rewrite <- (enc_bits_mask (rv_inst_codec (d_op d)) d), <- Z.land_assoc, (Z.land_comm (layout_mask _)), H, Z.land_0_r.
  rewrite <- (match_in_mask (d_op d)), <- Z.land_assoc, H, Z.land_0_r. reflexivity.
Qed.

(** The immediate is an operand of its own. *)
Definition imm_operand (op : rv_op) : option operand :=
  match field_source (codec_layout (rv_inst_codec op)) F_imm with
  | Bits o 0 =>
      if forallb (fun s => bool_decide (s.1.1 = F_imm) || negb (bool_decide (s.1.2 = o)))
           (slots (codec_layout (rv_inst_codec op)))
      then Some o else None
  | _ => None
  end.

Definition imm_fits (op : rv_op) (v : Z) : bool :=
  match imm_operand op with Some o => operand_valid o v && (- 2 ^ 31 <=? v) && (v <? 2 ^ 31) | None => false end.

Lemma get_set_imm v d f : - 2 ^ 31 <= v < 2 ^ 31 -> get f (set_imm v d) = if decide (f = F_imm) then v else get f d.
Proof. intros Hv. destruct f; cbn; try reflexivity. apply swrap_small; [reflexivity | exact Hv]. Qed.

(** Another immediate in an instruction that is well formed. *)
Lemma canonical_set_imm v d :
  canonical d = true -> plain_op (d_op d) = true -> imm_fits (d_op d) v = true ->
  canonical (set_imm v d) = true.
Proof.
  intros Hd Hp Hv. unfold imm_fits, imm_operand in Hv.
  destruct (field_source _ F_imm) as [o [| |] |] eqn:Eo; try discriminate.
  destruct (forallb _ _) eqn:Ea; [| discriminate]. bool_hyps. rewrite forallb_forall in Ea.
  assert (Hr : - 2 ^ 31 <= v < 2 ^ 31) by lia.
  unfold canonical in *. bool_hyps. rewrite op_agrees_plain by exact Hp. rewrite andb_true_r.
  apply andb_true_iff. split; [assumption |]. cbn [d_op set_imm].
  unfold canonical_at, shared_equal in *. bool_hyps.
  repeat match goal with H : forallb _ _ = true |- _ => rewrite forallb_forall in H end.
  apply andb_true_iff. split; apply forallb_forall.
  - intros f Hf. match goal with H : forall x, In x all_fields -> _ |- _ => specialize (H f Hf) end.
    destruct (decide (f = F_imm)) as [-> |].
    + rewrite Eo. unfold source_valid. rewrite get_set_imm, decide_True, Z.sub_0_r by (assumption || reflexivity).
      assumption.
    + unfold source_valid in *. rewrite get_set_imm, decide_False by assumption. assumption.
  - intros s Hs. apply forallb_forall. intros t Ht.
    match goal with H : forall x, In x (slots _) -> forallb _ _ = true |- _ =>
      pose proof (H s Hs) as Hst; rewrite forallb_forall in Hst; specialize (Hst t Ht) end.
    rewrite !get_set_imm by assumption.
    destruct (decide (s.1.1 = F_imm)) as [Es | Ns], (decide (t.1.1 = F_imm)) as [Et | Nt]; try assumption.
    + rewrite Z.eqb_refl. apply orb_true_r.
    + assert (s.1.2 = o) as <-.
      { destruct s as [[f o'] b]. cbn in *. subst f. destruct (layout_slot _ _ _ _ Hs) as (_ & _ & _ & _ & E).
        rewrite Eo in E. injection E as <- _. reflexivity. }
      specialize (Ea t Ht). apply orb_true_iff in Ea. rewrite bool_decide_eq_true in Ea.
      destruct Ea as [? | Ea]; [contradiction |]. rewrite negb_true_iff, bool_decide_eq_false in Ea.
      rewrite (bool_decide_false (s.1.2 = t.1.2)) by congruence. reflexivity.
    + assert (t.1.2 = o) as <-.
      { destruct t as [[f o'] b]. cbn in *. subst f. destruct (layout_slot _ _ _ _ Ht) as (_ & _ & _ & _ & E).
        rewrite Eo in E. injection E as <- _. reflexivity. }
      specialize (Ea s Hs). apply orb_true_iff in Ea. rewrite bool_decide_eq_true in Ea.
      destruct Ea as [? | Ea]; [contradiction |]. rewrite negb_true_iff, bool_decide_eq_false in Ea.
      rewrite (bool_decide_false (s.1.2 = t.1.2)) by congruence. reflexivity.
Qed.

(** ** Encoded words *)
Lemma layout_mask_range c : 0 <= layout_mask c < 2 ^ 32.
Proof. destruct c; vm_compute; split; congruence. Qed.

Lemma match_range op : 0 <= rv_inst_match op < 2 ^ 32.
Proof. destruct op; vm_compute; split; congruence. Qed.

Lemma land_range x m : 0 <= m < 2 ^ 32 -> 0 <= Z.land x m < 2 ^ 32.
Proof.
  intros Hm. rewrite <- (wrap_small 32 m) by exact Hm.
  replace (Z.land x (wrap 32 m)) with (wrap 32 (Z.land x m)); [apply wrap_range; lia |].
  bitwise i Hi. rewrite !wrap_spec, Z.land_spec by lia. destruct (i <? 32), (Z.testbit x i); reflexivity.
Qed.

Lemma enc_word_range d : 0 <= enc_word d < 2 ^ 32.
Proof.
  unfold enc_word. apply lor_range; [lia | apply match_range |].
  rewrite <- enc_bits_mask. apply land_range, layout_mask_range.
Qed.

(** A 32-bit opcode: its fixed bits say that the word has four bytes. *)
Definition four_bytes (op : rv_op) : bool :=
  (Z.land (rv_inst_mask op) 0x1f =? 0x1f) && (Z.land (rv_inst_match op) 0x3 =? 0x3) &&
  negb (Z.land (rv_inst_match op) 0x1c =? 0x1c).

Lemma four_bytes_length op w :
  four_bytes op = true -> Z.land w (rv_inst_mask op) = rv_inst_match op -> inst_length w = 4.
Proof.
  unfold four_bytes. intros H E. bool_hyps.
  assert (Hsub : forall m, Z.land 0x1f m = m -> Z.land w m = Z.land (rv_inst_match op) m).
  { intros m Hm. rewrite <- E, <- Z.land_assoc. f_equal.
    match goal with H : Z.land (rv_inst_mask op) _ = _ |- _ => rewrite <- Hm at 2; rewrite Z.land_assoc, H end.
    symmetry. exact Hm. }
  unfold inst_length. rewrite !Hsub by reflexivity.
  repeat match goal with H : Z.land (rv_inst_match op) _ = _ |- _ => rewrite H end. cbn [negb Z.eqb Pos.eqb].
  destruct (Z.eqb_spec (Z.land (rv_inst_match op) 28) 28); [contradiction | reflexivity].
Qed.

(** The opcodes of uncompressed instructions that [decode_inst_op] always
    recognises. *)
Definition word_op (op : rv_op) : bool :=
  plain_op op && four_bytes op && decodable isa_rv64 op &&
  bool_decide (rv_inst_decomp_rv64 op = rv_op_illegal) && negb (bool_decide (rv_inst_codec op = rv_codec_cs)).

Lemma op_side_word op w : four_bytes op = true -> op_side op w = true.
Proof. destruct op; first [reflexivity | intros H; vm_compute in H; discriminate H]. Qed.

Lemma decode_inst_op_match_imafdc : forall op inst,
  decodable (m_isa processor_rv64imafdc_model) op = true ->
  Z.land inst (rv_inst_mask op) = rv_inst_match op -> op_side op inst = true ->
  decode_inst_op (m_isa processor_rv64imafdc_model) inst = op.
Proof. decode_complete. Qed.

Lemma word_op_inv op :
  word_op op = true ->
  plain_op op = true /\ four_bytes op = true /\ decodable isa_rv64 op = true /\
  rv_inst_decomp_rv64 op = rv_op_illegal /\ rv_inst_codec op <> rv_codec_cs.
Proof.
  unfold word_op. intros H. bool_hyps.
  repeat match goal with
  | H : bool_decide _ = true |- _ => apply bool_decide_eq_true in H
  | H : bool_decide _ = false |- _ => apply bool_decide_eq_false in H
  end. auto.
Qed.

(** A well-formed instruction of such an opcode, its word, and what the
    decoders make of the word. *)
Lemma encode_word d :
  canonical d = true -> word_op (d_op d) = true ->
  exists w, encode_inst d = Some w /\ 0 <= w < 2 ^ 32 /\ inst_length w = 4 /\
    decode_inst_rv64 decode_init w = d /\
    (decodable (m_isa processor_rv64imafdc_model) (d_op d) = true ->
     inst_decode processor_rv64imafdc_model decode_init w = d).
Proof.
  intros Hd Ho. destruct (word_op_inv _ Ho) as (Hp & Hf & Hdec & Hdc & Hcs).
  exists (enc_word d). pose proof (enc_word_op d Hd) as Hop.
  pose proof (op_side_word (d_op d) (enc_word d) Hf) as Hside.
  split; [apply encode_inst_canonical; assumption |].
  split; [apply enc_word_range |]. split; [eapply four_bytes_length; eassumption |].
  assert (Hu : decompress_inst_rv64 d = d).
  { unfold decompress_inst_rv64, decompress. rewrite Hdc, decide_True by reflexivity. reflexivity. }
  split.
  { unfold decode_inst_rv64. rewrite (decode_enc_word d Hd isa_rv64); [exact Hu |].
    apply decode_inst_op_match_rv64; assumption. }
  intros Hm. unfold inst_decode.
  rewrite (decode_enc_word d Hd (m_isa processor_rv64imafdc_model))
    by (apply decode_inst_op_match_imafdc; assumption).
  exact Hu.
Qed.

(** ** Bytes *)
Lemma le_bytes_length n d : length (le_bytes n d) = n.
Proof. unfold le_bytes. rewrite length_map, length_seq. reflexivity. Qed.

Lemma le_bytes_nth n d i : (i < n)%nat -> nth i (le_bytes n d) 0 = u8 (Z.shiftr d (8 * Z.of_nat i)).
Proof.
  intros Hi. unfold le_bytes. rewrite (nth_indep _ 0 (u8 (Z.shiftr d (8 * Z.of_nat 0)))) by (rewrite length_map, length_seq; exact Hi).
  rewrite (map_nth (fun i => u8 (Z.shiftr d (8 * Z.of_nat i)))), seq_nth by exact Hi. reflexivity.
Qed.

(** Four bytes read back. *)
Lemma byte_bit w k j :
  0 <= k -> Z.testbit (u8 (Z.shiftr w k)) j = (0 <=? j) && (j <? 8) && Z.testbit w (j + k).
Proof.
  intros Hk. destruct (Z.leb_spec 0 j).
  - rewrite wrap_spec, Z.shiftr_spec by lia. reflexivity.
  - apply Z.testbit_neg_r. assumption.
Qed.

Lemma le32_bytes mem addr w :
  0 <= w < 2 ^ 32 -> mem addr = u8 (Z.shiftr w 0) -> mem (addr + 1) = u8 (Z.shiftr w 8) ->
  mem (addr + 2) = u8 (Z.shiftr w 16) -> mem (addr + 3) = u8 (Z.shiftr w 24) ->
  le32 mem addr = w.
Proof.
  intros Hw H0 H1 H2 H3. unfold le32, le16.
  replace (addr + 2 + 1) with (addr + 3) by lia. rewrite H0, H1, H2, H3.
  transitivity (wrap 32 w); [| apply wrap_small, Hw]. bitwise i Hi.
  rewrite !Z.shiftl_spec, !Z.lor_spec by lia.
  destruct (Z.leb_spec 16 i).
  - rewrite !Z.shiftl_spec, !byte_bit, wrap_spec by lia.
    replace (i - 16 + 16) with i by lia. replace (i - 16 - 8 + 24) with i by lia.
    replace (i - 8 + 8) with i by lia. rewrite Z.add_0_r.
    destruct (Z.testbit w i); rewrite ?andb_false_r; [| reflexivity]. lia.
  - rewrite (Z.testbit_neg_r (Z.shiftl (u8 (Z.shiftr w 24)) 8)) by lia.
    rewrite !byte_bit, wrap_spec by lia.
    replace (i - 16 + 16) with i by lia. replace (i - 8 + 8) with i by lia. rewrite Z.add_0_r.
    destruct (Z.testbit w i); rewrite ?andb_false_r; [| reflexivity]. lia.
Qed.

(** ** The buffer *)

(** The instruction [w], of four bytes, is at [off]. *)
Definition word_at (b : list Z) (off w : Z) : Prop :=
  0 <= off /\ 0 <= w < 2 ^ 32 /\ inst_length w = 4 /\
  firstn 4 (skipn (Z.to_nat off) b) = le_bytes 4 w.

Lemma word_at_nth b off w i :
  word_at b off w -> (i < 4)%nat -> nth (Z.to_nat off + i) b 0 = u8 (Z.shiftr w (8 * Z.of_nat i)).
Proof.
  intros (_ & _ & _ & H) Hi. rewrite <- le_bytes_nth with (n := 4%nat), <- H by exact Hi.
  rewrite nth_firstn, nth_skipn. destruct (Nat.ltb_spec i 4); [reflexivity | lia].
Qed.

Lemma word_at_length b off w : word_at b off w -> off + 4 <= Z.of_nat (length b).
Proof.
  intros (H0 & _ & _ & H). apply (f_equal (@length Z)) in H.
  rewrite le_bytes_length, length_firstn, length_skipn in H. lia.
Qed.

Lemma inst_fetch_word mem addr w :
  inst_length w = 4 -> le32 mem addr = w -> inst_fetch mem addr = (w, 4).
Proof.
  intros Hl E. unfold inst_fetch. rewrite E. unfold inst_length in Hl.
  destruct (negb (Z.land w 3 =? 3)); [discriminate |].
  destruct (negb (Z.land w 28 =? 28)); [reflexivity |].
  destruct (_ =? 31); [discriminate |]. destruct (_ =? 63); discriminate.
Qed.

Lemma buf_fetch_word b off w : word_at b off w -> buf_fetch b off = Some (w, 4).
Proof.
  intros H. pose proof (word_at_length _ _ _ H) as Hl. pose proof H as (H0 & Hw & H4 & _).
  assert (E : le32 (fun i => nth (Z.to_nat i) b 0) off = w).
  { apply le32_bytes; [exact Hw | | | |].
    - refine (eq_trans _ (word_at_nth b off w 0 H ltac:(lia))). f_equal. lia.
    - refine (eq_trans _ (word_at_nth b off w 1 H ltac:(lia))). f_equal. lia.
    - refine (eq_trans _ (word_at_nth b off w 2 H ltac:(lia))). f_equal. lia.
    - refine (eq_trans _ (word_at_nth b off w 3 H ltac:(lia))). f_equal. lia. }
  unfold buf_fetch. rewrite E, H4. destruct (Z.leb_spec (off + 4) (Z.of_nat (length b))); [| lia].
  cbn [andb]. f_equal. apply inst_fetch_word; assumption.
Qed.

Lemma buf_write_word b off w w' :
  word_at b off w -> 0 <= w' < 2 ^ 32 -> inst_length w' = 4 ->
  exists b', buf_write b off (le_bytes 4 w') = Some b' /\ word_at b' off w' /\ length b' = length b /\
    (forall i, (i < Z.to_nat off \/ Z.to_nat off + 4 <= i)%nat -> nth i b' 0 = nth i b 0) /\
    (forall off2 w2, word_at b off2 w2 -> off2 + 4 <= off \/ off + 4 <= off2 -> word_at b' off2 w2).
Proof.
  intros H Hw' H4'. pose proof (word_at_length _ _ _ H) as Hl. pose proof H as (H0 & _).
  unfold buf_write. rewrite le_bytes_length.
  destruct (Z.leb_spec (off + Z.of_nat 4) (Z.of_nat (length b))); [| lia].
  set (o := Z.to_nat off). set (b' := firstn o b ++ le_bytes 4 w' ++ skipn (o + 4) b).
  assert (Hfn : length (firstn o b) = o) by (rewrite length_firstn; unfold o; lia).
  assert (Hn : forall i, (i < o \/ o + 4 <= i)%nat -> nth i b' 0 = nth i b 0).
  { intros i [Hi | Hi]; unfold b'.
    - rewrite app_nth1, nth_firstn by lia. destruct (Nat.ltb_spec i o); [reflexivity | lia].
    - rewrite app_nth2 by lia. rewrite app_nth2 by (rewrite le_bytes_length; lia).
      rewrite le_bytes_length, nth_skipn. f_equal. lia. }
  assert (Hlen : length b' = length b).
  { unfold b'. rewrite !length_app, le_bytes_length, length_skipn, Hfn. unfold o in *. lia. }
  exists b'. split; [reflexivity |]. split; [| split; [exact Hlen | split; [exact Hn |]]].
  - split; [exact H0 |]. split; [exact Hw' |]. split; [exact H4' |]. fold o. unfold b'.
    rewrite drop_app_length' by (symmetry; exact Hfn). apply take_app_length'. symmetry. apply le_bytes_length.
  - intros off2 w2 H2 Hd. pose proof (word_at_length _ _ _ H2) as Hl2. pose proof H2 as (H20 & Hw2 & H24 & Hb2).
    split; [exact H20 |]. split; [exact Hw2 |]. split; [exact H24 |]. rewrite <- Hb2.
    apply (nth_ext _ _ 0 0).
    + rewrite !length_firstn, !length_skipn, Hlen. reflexivity.
    + intros i Hi. rewrite length_firstn, length_skipn, Hlen in Hi.
      rewrite !nth_firstn, !nth_skipn. destruct (Nat.ltb_spec i 4); [| lia].
      apply Hn. unfold o. lia.
Qed.

(** An instruction put back with another immediate. *)
Lemma reencode_word b off w v d :
  word_at b off w -> decode_inst_rv64 decode_init w = d -> canonical d = true ->
  word_op (d_op d) = true -> imm_fits (d_op d) v = true ->
  exists b' w', reencode_inst (set_imm v d) b off = Some b' /\ word_at b' off w' /\
    decode_inst_rv64 decode_init w' = set_imm v d /\
    (decodable (m_isa processor_rv64imafdc_model) (d_op d) = true ->
     inst_decode processor_rv64imafdc_model decode_init w' = set_imm v d) /\
    length b' = length b /\
    (forall i, (i < Z.to_nat off \/ Z.to_nat off + 4 <= i)%nat -> nth i b' 0 = nth i b 0) /\
    (forall off2 w2, word_at b off2 w2 -> off2 + 4 <= off \/ off + 4 <= off2 -> word_at b' off2 w2).
Proof.
  intros H Ed Hc Ho Hv.
  assert (Hc' : canonical (set_imm v d) = true).
  { apply canonical_set_imm; [exact Hc | apply word_op_inv, Ho | exact Hv]. }
  destruct (encode_word (set_imm v d) Hc' Ho) as (w' & E & Hw' & H4' & Hd' & Hm').
  destruct (buf_write_word b off w w' H Hw' H4') as (b' & Eb & Hb' & Hlen & Hn & Hf).
  exists b', w'. split; [| auto 10].
  unfold reencode_inst. rewrite E. cbn [mbind option_bind]. rewrite H4'. cbn [switch Z.eqb Pos.eqb]. exact Eb.
Qed.

(** ** Instructions with a destination, a source and an immediate *)
Definition instr (op : rv_op) (rd rs1 imm : Z) : decode :=
  set_imm imm (set_rs1 rs1 (Decode.set_rd rd (set_codec (rv_inst_codec op) (set_op op decode_init)))).

Definition upto32 : list Z := map Z.of_nat (seq 0 32).

Lemma upto32_spec r : 0 <= r < 32 -> In r upto32.
Proof. intros Hr. apply in_map_iff. exists (Z.to_nat r). split; [lia |]. apply in_seq. lia. Qed.

Definition regs_canonical (op : rv_op) (sources : list Z) : bool :=
  forallb (fun rd => forallb (fun rs1 => canonical (instr op rd rs1 0)) sources) upto32.

(** Such an instruction is well formed when its immediate is representable. *)
Lemma instr_canonical op sources rd rs1 imm :
  regs_canonical op sources = true -> word_op op = true -> imm_fits op imm = true ->
  0 <= rd < 32 -> In rs1 sources -> canonical (instr op rd rs1 imm) = true.
Proof.
  intros H Ho Hi Hd Hs. unfold regs_canonical in H. rewrite forallb_forall in H. specialize (H _ (upto32_spec _ Hd)).
  cbv beta in H. rewrite forallb_forall in H. specialize (H _ Hs). cbv beta in H.
  change (instr op rd rs1 imm) with (set_imm imm (instr op rd rs1 0)).
  apply canonical_set_imm; [exact H | apply word_op_inv, Ho | exact Hi].
Qed.

Lemma addi_regs : regs_canonical rv_op_addi upto32 = true. Proof. vm_compute. reflexivity. Qed.
Lemma slli_regs : regs_canonical rv_op_slli upto32 = true. Proof. vm_compute. reflexivity. Qed.
Lemma jalr_regs : regs_canonical rv_op_jalr upto32 = true. Proof. vm_compute. reflexivity. Qed.
Lemma lui_regs : regs_canonical rv_op_lui [0] = true. Proof. vm_compute. reflexivity. Qed.
Lemma auipc_regs : regs_canonical rv_op_auipc [0] = true. Proof. vm_compute. reflexivity. Qed.

(** Which immediates an opcode can hold, from the operand's range. *)
Lemma imm_fits_range op o v :
  imm_operand op = Some o -> In o all_operands -> operand_range o v -> v mod 2 ^ operand_align o = 0 ->
  - 2 ^ 31 <= v < 2 ^ 31 -> imm_fits op v = true.
Proof.
  intros Eo Ho Hr Ha Hv. unfold imm_fits. rewrite Eo.
  rewrite (proj2 (operand_valid_spec o Ho v)) by (split; assumption). lia.
Qed.

#[local] Ltac fits := eapply imm_fits_range;
  [reflexivity | unfold all_operands; simpl; tauto | cbn; lia | first [apply Z.mod_1_r | assumption] | lia].

Lemma addi_fits imm : - 2048 <= imm < 2048 -> imm_fits rv_op_addi imm = true.
Proof. intros Hi. fits. Qed.
Lemma jalr_fits imm : - 2048 <= imm < 2048 -> imm_fits rv_op_jalr imm = true.
Proof. intros Hi. fits. Qed.
Lemma slli_fits imm : 0 <= imm < 128 -> imm_fits rv_op_slli imm = true.
Proof. intros Hi. fits. Qed.
Lemma lui_fits imm : - 2 ^ 31 <= imm < 2 ^ 31 -> imm mod 2 ^ 12 = 0 -> imm_fits rv_op_lui imm = true.
Proof. intros Hi Ha. fits. Qed.
Lemma auipc_fits imm : - 2 ^ 31 <= imm < 2 ^ 31 -> imm mod 2 ^ 12 = 0 -> imm_fits rv_op_auipc imm = true.
Proof. intros Hi Ha. fits. Qed.

(** ** Straight-line code

    Words executed one after the other, the program counter advancing by the
    offset each returns. *)
Section Straight.
Context {P : Type} `{ProcessorLaws P} `{!MMU P} (fpu : host_fpu).
Abbreviation m64 := processor_rv64imafdc_model.

Definition exec_word (w : Z) : M P unit :=
  off <- inst_exec fpu m64 (inst_decode m64 decode_init w) (inst_length w) ;;
  modify (fun b => set_pc b (u64 (pc b + off))).

Fixpoint exec_words (ws : list Z) : M P unit :=
  match ws with [] => ret tt | w :: ws => exec_word w ;; exec_words ws end.

Lemma exec_words_app ws ws' p : exec_words (ws ++ ws') p = (exec_words ws ;; exec_words ws') p.
Proof using.
  revert p. induction ws as [| w ws IH]; intros p; [reflexivity |].
  cbn [exec_words app]. unfold bind in *. destruct (exec_word w p); auto.
Qed.

(** The state after [n] instructions that leave [v] in [rd]. *)
Definition moved (rd v n : Z) (p : P) : P :=
  set_base (set_pc (set_ireg (base p) (<[Z.to_nat rd := u64 v]> (ireg (base p)))) (u64 (pc (base p) + 4 * n))) p.

Lemma moved_moved rd v n v' n' p : moved rd v' n' (moved rd v n p) = moved rd v' (n + n') p.
Proof using H0.
  unfold moved. rewrite base_set, set_base_set. cbn. rewrite list_insert_insert_eq. f_equal.
  unfold set_pc, set_ireg. cbn. f_equal. rewrite wrap_add_l. f_equal. lia.
Qed.

Lemma moved_length rd v n p : length (ireg (base (moved rd v n p))) = length (ireg (base p)).
Proof using H0. unfold moved. rewrite base_set. apply length_insert. Qed.

Lemma moved_same rd v n p : (Z.to_nat rd < length (ireg (base p)))%nat -> ireg (base (moved rd v n p)) !! Z.to_nat rd = Some (u64 v).
Proof using H0. intros Hl. unfold moved. rewrite base_set. apply list_lookup_insert_eq, Hl. Qed.

(** A word of a computation instruction. *)
Lemma exec_word_run d w v p :
  inst_decode m64 decode_init w = d -> inst_length w = 4 ->
  exec_inst_rv64 fpu (m_isa m64) d 4 p = Ok 4 (write_rd 64 (d_rd d) v p) ->
  exec_word w p = Ok tt (moved (d_rd d) v 1 p).
Proof using H0.
  intros Hd Hl He. unfold exec_word, bind. rewrite Hd, Hl.
  change (inst_exec fpu m64 d 4) with (exec_inst_rv64 fpu (m_isa m64) d 4). rewrite He.
  unfold modify, write_rd, moved. rewrite base_set, set_base_set. reflexivity.
Qed.

Lemma exec_upper d p off :
  d_op d = rv_op_lui \/ d_op d = rv_op_auipc -> 0 < d_rd d < Z.of_nat (length (ireg (base p))) ->
  exec_inst_rv64 fpu (m_isa m64) d off p =
  Ok off (write_rd 64 (d_rd d) (if bool_decide (d_op d = rv_op_lui) then d_imm d else u64 (pc (base p) + d_imm d)) p).
Proof using.
  intros Hop Hrd. destruct Hop as [E | E]; rewrite E;
    unfold exec_inst_rv64, exec_inst_rv64_groups; cbv [exec_common app exec_rvi_jump]; rewrite E; cbn [dispatch guarded];
    unfold guarded; cbn [m_isa m64 RV_IMAFDC rvi];
    unfold bind at 1; erewrite set_rd_run; try reflexivity; exact Hrd.
Qed.

Record good_regs (p : P) (rd : Z) : Prop := {
  gr_length : length (ireg (base p)) = 32%nat;
  gr_rd : 0 < rd < 32 }.

Lemma moved_good rd v n p rd' : good_regs p rd' -> good_regs (moved rd v n p) rd'.
Proof using H0. intros [Hl Hr]. split; [rewrite moved_length; exact Hl | exact Hr]. Qed.

(** One instruction built by an emitter. *)
Definition runs (e : option Z) (rd v : Z) (p : P) : Prop :=
  exists w, e = Some w /\ 0 <= w < 2 ^ 32 /\ inst_length w = 4 /\ exec_word w p = Ok tt (moved rd v 1 p).

Lemma run_instr op sources rd rs1 imm v p :
  regs_canonical op sources = true -> word_op op = true -> decodable (m_isa m64) op = true ->
  imm_fits op imm = true -> 0 <= rd < 32 -> In rs1 sources ->
  exec_inst_rv64 fpu (m_isa m64) (instr op rd rs1 imm) 4 p = Ok 4 (write_rd 64 rd v p) ->
  runs (encode_inst (instr op rd rs1 imm)) rd v p.
Proof using H0.
  intros Hc Ho Hm Hi Hd Hs He. pose proof (instr_canonical op sources rd rs1 imm Hc Ho Hi Hd Hs) as Hcan.
  destruct (encode_word _ Hcan Ho) as (w & Ew & Hw & H4 & _ & Hdec).
  exists w. split; [exact Ew |]. split; [exact Hw |]. split; [exact H4 |].
  assert (Er : d_rd (instr op rd rs1 imm) = rd) by (cbn; apply wrap_small; lia).
  rewrite <- Er. apply exec_word_run; [apply Hdec, Hm | exact H4 | rewrite Er; exact He].
Qed.

Lemma instr_reads op rd rs1 imm a p :
  good_regs p rd -> 0 <= rs1 < 32 -> ireg (base p) !! Z.to_nat rs1 = Some a -> 0 <= a < 2 ^ 64 ->
  reads1 64 (instr op rd rs1 imm) p a.
Proof using.
  intros [Hl Hr] Hs Ha Hv. split; cbn [instr set_imm set_rs1 Decode.set_rd d_rd d_rs1]; rewrite ?wrap_small by lia;
    rewrite ?Hl; (assumption || lia).
Qed.

Lemma exec_addi rd rs1 imm a p :
  good_regs p rd -> 0 <= rs1 < 32 -> ireg (base p) !! Z.to_nat rs1 = Some a -> 0 <= a < 2 ^ 64 ->
  - 2048 <= imm < 2048 ->
  exec_inst_rv64 fpu (m_isa m64) (instr rv_op_addi rd rs1 imm) 4 p = Ok 4 (write_rd 64 rd (a + imm) p).
Proof using.
  intros Hg Hs Ha Hv Hi. pose proof Hg as [_ Hr].
  pose proof (instr_reads rv_op_addi rd rs1 imm a p Hg Hs Ha Hv) as R.
  unfold exec_inst_rv64, exec_inst_rv64_groups.
  rewrite (exec_common_itype fpu 64 (or_intror eq_refl) _ _ _ _ a R _ rv_op_add (fun a b => u64 (a + b))) by (reflexivity || exact I).
  cbn [instr set_imm set_rs1 Decode.set_rd d_rd d_imm]. rewrite (wrap_small 8 rd), swrap_small, wrap_add_r by lia.
  unfold write_rd. rewrite wrap_wrap. reflexivity.
Qed.

Lemma exec_lui rd imm p :
  good_regs p rd -> - 2 ^ 31 <= imm < 2 ^ 31 ->
  exec_inst_rv64 fpu (m_isa m64) (instr rv_op_lui rd 0 imm) 4 p = Ok 4 (write_rd 64 rd imm p).
Proof using.
  intros [Hl Hr] Hi. rewrite exec_upper; [| left; reflexivity | cbn; rewrite wrap_small by lia; rewrite Hl; lia].
  cbn [instr set_imm set_rs1 Decode.set_rd set_codec set_op d_rd d_imm d_op].
  rewrite (wrap_small 8 rd), swrap_small by lia. reflexivity.
Qed.

Lemma exec_auipc rd imm p :
  good_regs p rd -> - 2 ^ 31 <= imm < 2 ^ 31 ->
  exec_inst_rv64 fpu (m_isa m64) (instr rv_op_auipc rd 0 imm) 4 p = Ok 4 (write_rd 64 rd (pc (base p) + imm) p).
Proof using.
  intros [Hl Hr] Hi. rewrite exec_upper; [| right; reflexivity | cbn; rewrite wrap_small by lia; rewrite Hl; lia].
  cbn [instr set_imm set_rs1 Decode.set_rd set_codec set_op d_rd d_imm d_op].
  rewrite (wrap_small 8 rd), swrap_small, bool_decide_false by (discriminate || lia).
  unfold write_rd. rewrite wrap_wrap. reflexivity.
Qed.

Lemma run_addi rd rs1 imm a p :
  good_regs p rd -> 0 <= rs1 < 32 -> ireg (base p) !! Z.to_nat rs1 = Some a -> 0 <= a < 2 ^ 64 ->
  - 2048 <= imm < 2048 -> runs (emit_addi rd rs1 imm) rd (a + imm) p.
Proof using H0.
  intros Hg Hs Ha Hv Hi. pose proof Hg as [_ Hr].
  assert (E : emit_addi rd rs1 imm = encode_inst (instr rv_op_addi rd rs1 imm)).
  { unfold emit_addi, ireg5_valid, simm_valid.
    destruct (Z.leb_spec rd 31), (Z.leb_spec rs1 31), (Z.leb_spec imm (2 ^ (12 - 1) - 1)), (Z.leb_spec (- 2 ^ (12 - 1)) imm);
      try reflexivity; lia. }
  rewrite E. apply (run_instr _ upto32); [apply addi_regs | reflexivity.. | apply addi_fits, Hi | lia | apply upto32_spec, Hs |].
  apply exec_addi; assumption.
Qed.

Lemma run_slli rd rs1 sh a p :
  good_regs p rd -> 0 <= rs1 < 32 -> ireg (base p) !! Z.to_nat rs1 = Some a -> 0 <= a < 2 ^ 64 ->
  0 <= sh < 64 -> runs (emit_slli rd rs1 sh) rd (a * 2 ^ sh) p.
Proof using H0.
  intros Hg Hs Ha Hv Hi. pose proof Hg as [_ Hr].
  assert (E : emit_slli rd rs1 sh = encode_inst (instr rv_op_slli rd rs1 sh)).
  { unfold emit_slli, ireg5_valid, uimm_valid.
    destruct (Z.leb_spec rd 31), (Z.leb_spec rs1 31), (Z.leb_spec sh (2 ^ 7 - 1)); try reflexivity; lia. }
  rewrite E. apply (run_instr _ upto32); [apply slli_regs | reflexivity.. | apply slli_fits; lia | lia | apply upto32_spec, Hs |].
  pose proof (instr_reads rv_op_slli rd rs1 sh a p Hg Hs Ha Hv) as R.
  assert (Ei : d_imm (instr rv_op_slli rd rs1 sh) = sh) by (cbn; apply swrap_small; lia).
  unfold exec_inst_rv64, exec_inst_rv64_groups.
  rewrite (exec_common_itype fpu 64 (or_intror eq_refl) _ _ _ _ a R _ rv_op_sll (fun a b => u64 (a * 2 ^ (b mod 64))));
    [| reflexivity.. | cbn [imm_ok instr set_imm set_rs1 Decode.set_rd set_codec set_op d_op]; rewrite Ei; exact Hi].
  rewrite Ei. cbn [instr set_imm set_rs1 Decode.set_rd d_rd]. rewrite (wrap_small 8 rd), (wrap_small 64 sh), Z.mod_small by lia.
  unfold write_rd. rewrite wrap_wrap. reflexivity.
Qed.

Lemma run_lui rd imm p :
  good_regs p rd -> - 2 ^ 31 <= imm < 2 ^ 31 -> imm mod 2 ^ 12 = 0 -> runs (emit_lui rd imm) rd imm p.
Proof using H0.
  intros Hg Hi Ha. pose proof Hg as [Hl Hr].
  assert (E : emit_lui rd imm = encode_inst (instr rv_op_lui rd 0 imm)).
  { unfold emit_lui, ireg5_valid, simm_valid.
    destruct (Z.leb_spec rd 31), (Z.leb_spec imm (2 ^ (32 - 1) - 1)), (Z.leb_spec (- 2 ^ (32 - 1)) imm); try reflexivity; lia. }
  rewrite E. apply (run_instr _ [0]); [apply lui_regs | reflexivity.. | apply lui_fits; assumption | lia | left; reflexivity |].
  apply exec_lui; assumption.
Qed.
End Straight.
