(* ===== verification/AssemblerImm.v ===== *)
(** * AssemblerImm: the value the instructions of [load_imm] leave in the
    register.

    [load_imm_r] peels twelve-bit groups off the value until the rest fits 32
    bits, and loads that rest, the [chunk], with [lui] and [addi].  It rounds
    the upper part of the chunk down where [addi] needs it to the nearest:
    [load_imm_error] is what is missing from the result. *)

From Stdlib Require Import ZArith Lia Bool List.
From stdpp Require Import base numbers list.
From S2P Require Import Prelude Decode Alu Machine Fpu Interp ExecSpec Model Assembler AssemblerSound.

(** The chunk, and by how much the code shifts it. *)
Fixpoint load_imm_chunk (fuel : nat) (val : Z) : Z * Z :=
  match fuel with
  | O => (val, 0)
  | S fuel =>
      if fits_s32 val then (val, 0)
      else
        let '(c, s) := load_imm_chunk fuel (Z.shiftr (imm_hi val) (imm_shift val)) in
        (c, s + imm_shift val)
  end.

Definition chunk_error (cs : Z * Z) : Z := if 2048 <=? cs.1 mod 4096 then 2 ^ (12 + cs.2) else 0.

Definition load_imm_error (val : Z) : Z :=
  if (-2048 <=? val) && (val <=? 2047) || ispow2 64 (u64 val) then 0
  else chunk_error (load_imm_chunk 6 val).

(** ** Arithmetic of the groups *)
Lemma fits_s32_spec val : fits_s32 val = true <-> - 2 ^ 31 <= val < 2 ^ 31.
Proof.
  unfold fits_s32. change 0x7fffffff with (Z.ones 31).
  rewrite <- Z.ldiff_land, Z.ldiff_ones_r by lia. change (Z.lnot (Z.ones 31)) with (- 2 ^ 31).
  rewrite Z.shiftl_mul_pow2, Z.shiftr_div_pow2 by lia.
  pose proof (Z.div_mod val (2 ^ 31) ltac:(lia)). pose proof (Z.mod_pos_bound val (2 ^ 31) ltac:(lia)).
  rewrite orb_true_iff, !Z.eqb_eq. lia.
Qed.

Lemma zero_low_spec val : zero_low val = val - val mod 4096.
Proof.
  unfold zero_low. rewrite Z.shiftl_mul_pow2, Z.shiftr_div_pow2 by lia.
  pose proof (Z.div_mod val (2 ^ 12) ltac:(lia)). change (2 ^ 12) with 4096 in *. lia.
Qed.

Lemma swrap_12 v : swrap 12 v = v mod 4096 - (if 2048 <=? v mod 4096 then 4096 else 0).
Proof. unfold swrap. change (2 ^ 12) with 4096. change (2 ^ (12 - 1)) with 2048. destr_ltb; destruct (Z.leb_spec 2048 (v mod 4096)); lia. Qed.

Section Peel.
Context (val : Z) (Hval : - 2 ^ 63 <= val < 2 ^ 63).

Lemma imm_lo_spec : imm_lo val = swrap 12 val.
Proof using Hval. apply bitextend_spec; [lia | exact Hval]. Qed.

Lemma imm_lo_range : - 2048 <= imm_lo val < 2048.
Proof using Hval. rewrite imm_lo_spec. pose proof (swrap_range 12 ltac:(lia) val). lia. Qed.

(** The rest, on 64 bits, is a multiple of 4096; only the largest values wrap. *)
Lemma imm_hi_spec : exists q, val - imm_lo val = 4096 * q /\
  (imm_hi val = 4096 * q \/ 4096 * q = 2 ^ 63 /\ imm_hi val = - 2 ^ 63).
Proof using Hval.
  pose proof imm_lo_range as Hr. unfold imm_hi.
  assert (E : exists q, val - imm_lo val = 4096 * q).
  { exists (val / 4096 + if 2048 <=? val mod 4096 then 1 else 0). rewrite imm_lo_spec, swrap_12.
    pose proof (Z.div_mod val 4096 ltac:(lia)). destruct (2048 <=? val mod 4096); lia. }
  destruct E as [q E]. exists q. split; [exact E |]. rewrite E.
  destruct (Z.eq_dec (4096 * q) (2 ^ 63)) as [Eq |]; [right; rewrite Eq; split; reflexivity |].
  left. apply swrap_small; lia.
Qed.

Hypothesis Hbig : fits_s32 val = false.

Lemma imm_hi_factor : 12 <= imm_shift val < 64 /\
  imm_hi val = 2 ^ imm_shift val * Z.shiftr (imm_hi val) (imm_shift val).
Proof using Hval Hbig.
  destruct imm_hi_spec as (q & Eq & Hq). pose proof imm_lo_range as Hlo.
  assert (Hnz : imm_hi val <> 0).
  { intros E0. destruct (fits_s32_spec val) as [_ F]. rewrite Hbig in F. discriminate F. lia. }
  assert (Hr : - 2 ^ 63 <= imm_hi val < 2 ^ 63) by apply (swrap_range 64 ltac:(lia)).
  assert (Hm : exists r, u64 (imm_hi val) = 4096 * r /\ 0 < r < 2 ^ 52).
  { assert (Em : imm_hi val mod 4096 = 0).
    { destruct Hq as [-> | [_ ->]]; [| reflexivity]. rewrite Z.mul_comm. apply Z.mod_mul. lia. }
    pose proof (Z.div_mod (imm_hi val) 4096 ltac:(lia)) as Ed. rewrite Em in Ed.
    destruct (Z.lt_ge_cases (imm_hi val) 0).
    - exists (imm_hi val / 4096 + 2 ^ 52). unfold wrap.
      rewrite <- (Z_mod_plus_full _ 1), Z.mod_small by lia. lia.
    - exists (imm_hi val / 4096). rewrite wrap_small by lia. lia. }
  destruct Hm as (r & Er & Hr0). unfold imm_shift. rewrite Er.
  assert (Esh : Z.shiftr (4096 * r) 12 = r) by (rewrite Z.shiftr_div_pow2, Z.mul_comm by lia; apply Z.div_mul; lia).
  rewrite Esh. destruct (ctz_factor 64 ltac:(lia) r) as (Hc & k & Hk & Ek); [lia |].
  set (c := ctz 64 r) in *. assert (Hc52 : c < 52).
  { destruct (Z.lt_ge_cases c 52); [assumption |].
    pose proof (Z.pow_le_mono_r 2 52 c ltac:(lia) ltac:(lia)). nia. }
  split; [lia |].
  assert (Hdiv : (2 ^ (12 + c) | imm_hi val)).
  { assert (H1 : (2 ^ (12 + c) | u64 (imm_hi val))).
    { exists (2 * k + 1). rewrite Er, Ek, Z.pow_add_r by lia. lia. }
    unfold wrap in H1. rewrite Z.mod_eq in H1 by lia.
    replace (imm_hi val) with (imm_hi val - 2 ^ 64 * (imm_hi val / 2 ^ 64) + 2 ^ 64 * (imm_hi val / 2 ^ 64)) by lia.
    apply Z.divide_add_r; [exact H1 |]. apply Z.divide_mul_l. exists (2 ^ (52 - c)).
    rewrite <- Z.pow_add_r by lia. f_equal. lia. }
  destruct Hdiv as [x Ex]. rewrite Ex, Z.shiftr_div_pow2, Z.div_mul by lia. lia.
Qed.

(** The next value is smaller by at least twelve bits. *)
Lemma peel_range k :
  0 <= k -> - 2 ^ (39 + 12 * k) <= val <= 2 ^ (39 + 12 * k) ->
  let next := Z.shiftr (imm_hi val) (imm_shift val) in
  - 2 ^ (27 + 12 * k) <= next <= 2 ^ (27 + 12 * k) /\ - 2 ^ 63 <= next < 2 ^ 63.
Proof using Hval Hbig.
  intros Hk Hv. cbv zeta. destruct imm_hi_factor as [Hs Ef]. destruct imm_hi_spec as (q & Eq & Hq).
  pose proof imm_lo_range as Hlo. set (x := Z.shiftr _ _) in *.
  assert (EB : 2 ^ (39 + 12 * k) = 4096 * 2 ^ (27 + 12 * k)).
  { change 4096 with (2 ^ 12). rewrite <- Z.pow_add_r by lia. f_equal. lia. }
  set (B := 2 ^ (27 + 12 * k)) in *. assert (0 < B) by (apply Z.pow_pos_nonneg; lia).
  assert (Hh : - (4096 * B) <= imm_hi val <= 4096 * B) by lia.
  assert (Hp : 4096 <= 2 ^ imm_shift val) by (apply (Z.pow_le_mono_r 2 12); lia).
  assert (H63 : - 2 ^ 63 <= imm_hi val < 2 ^ 63) by apply (swrap_range 64 ltac:(lia)).
  split; nia.
Qed.
End Peel.

(** ** Running the code *)
Section Run_imm.
Context {P : Type} `{ProcessorLaws P} `{!MMU P} (fpu : host_fpu) (rd : Z).

(** The code [e] loads [v] into [rd]. *)
Definition loads (e : option (list Z)) (v : Z) (p : P) : Prop :=
  exists ws, e = Some ws /\ exec_words fpu ws p = Ok tt (moved rd v (Z.of_nat (length ws)) p).

Lemma moved_eq v v' n (p : P) : u64 v = u64 v' -> moved rd v n p = moved rd v' n p.
Proof using. intros E. unfold moved. rewrite E. reflexivity. Qed.

Lemma loads_eq e v v' p : u64 v = u64 v' -> loads e v p -> loads e v' p.
Proof using. intros E (ws & He & Hr). exists ws. split; [exact He |]. rewrite <- (moved_eq v v' _ p E). exact Hr. Qed.

Lemma loads_one e v p : runs fpu e rd v p -> loads (w ← e; Some [w]) v p.
Proof using.
  intros (w & -> & _ & _ & He). exists [w]. split; [reflexivity |]. cbn [exec_words]. unfold bind. rewrite He. reflexivity.
Qed.

(** One more instruction, which reads the value loaded so far. *)
Lemma loads_snoc e e' v v' p :
  good_regs p rd -> loads e v p ->
  (forall q, good_regs q rd -> ireg (base q) !! Z.to_nat rd = Some (u64 v) -> runs fpu e' rd v' q) ->
  loads (ws ← e; w ← e'; Some (ws ++ [w])) v' p.
Proof using H0.
  intros Hg (ws & -> & Hr) He. set (q := moved rd v (Z.of_nat (length ws)) p) in *.
  destruct (He q) as (w & -> & _ & _ & Hw).
  - apply moved_good, Hg.
  - apply moved_same. destruct Hg as [-> ?]. lia.
  - exists (ws ++ [w]). split; [reflexivity |]. rewrite exec_words_app. unfold bind. rewrite Hr.
    cbn [exec_words]. unfold bind. rewrite Hw. unfold q, ret. rewrite moved_moved, length_app, Nat2Z.inj_add. reflexivity.
Qed.

Lemma run_addi_snoc imm v q :
  - 2048 <= imm < 2048 -> good_regs q rd -> ireg (base q) !! Z.to_nat rd = Some (u64 v) ->
  runs fpu (emit_addi rd rd imm) rd (u64 v + imm) q.
Proof using H0.
  intros Hi Hg Hr. pose proof Hg as [_ ?]. apply run_addi; [exact Hg | lia | exact Hr | apply wrap_range; lia | exact Hi].
Qed.

Lemma run_slli_snoc sh v q :
  0 <= sh < 64 -> good_regs q rd -> ireg (base q) !! Z.to_nat rd = Some (u64 v) ->
  runs fpu (emit_slli rd rd sh) rd (u64 v * 2 ^ sh) q.
Proof using H0.
  intros Hi Hg Hr. pose proof Hg as [_ ?]. apply run_slli; [exact Hg | lia | exact Hr | apply wrap_range; lia | exact Hi].
Qed.

(** [lui] and [addi] on a chunk. *)
Lemma load_chunk_runs fuel val p :
  good_regs p rd -> fits_s32 val = true -> loads (load_imm_r (S fuel) rd val) (val - chunk_error (val, 0)) p.
Proof using H0.
  intros Hg Hf. cbn [load_imm_r]. rewrite Hf. apply fits_s32_spec in Hf.
  pose proof (Z.div_mod val 4096 ltac:(lia)) as Ed. pose proof (Z.mod_pos_bound val 4096 ltac:(lia)) as Hm.
  assert (Hu : loads (w ← emit_lui rd (zero_low val); Some [w]) (zero_low val) p).
  { apply loads_one, run_lui; [exact Hg | |]; rewrite zero_low_spec; [lia |].
    replace (val - val mod 4096) with (val / 4096 * 4096) by lia. apply Z.mod_mul. lia. }
  assert (El : val - zero_low val = val mod 4096) by (rewrite zero_low_spec; lia).
  rewrite El. unfold chunk_error. cbn [fst snd]. change (2 ^ (12 + 0)) with 4096.
  destruct (Z.eqb_spec (val mod 4096) 0) as [E0 | E0]; cbn [negb].
  - rewrite E0 in *. cbn. rewrite Z.sub_0_r. eapply loads_eq; [| exact Hu]. f_equal. rewrite zero_low_spec. lia.
  - rewrite bitextend_spec, swrap_12, Z.mod_mod by lia.
    set (imm := val mod 4096 - _).
    pose proof (loads_snoc _ _ _ _ p Hg Hu (fun q => run_addi_snoc imm _ q ltac:(subst imm; destr_ltb; lia))) as Hs.
    destruct (emit_lui rd (zero_low val)) as [h |]; [| destruct Hs as (ws & E & _); discriminate E].
    cbn [mbind option_bind app] in *. eapply loads_eq; [| exact Hs]. subst imm. rewrite wrap_add_l. f_equal. rewrite zero_low_spec. destruct (2048 <=? val mod 4096); lia.
Qed.

(** [load_imm_r] on a value that does not fit, one instruction at a time. *)
Lemma load_imm_r_big fuel val :
  fits_s32 val = false ->
  load_imm_r (S fuel) rd val =
  let e := (ws ← load_imm_r fuel rd (Z.shiftr (imm_hi val) (imm_shift val));
            w ← emit_slli rd rd (imm_shift val); Some (ws ++ [w])) in
  if imm_lo val =? 0 then e
  else ws ← e; w ← emit_addi rd rd (s32 (bitextend 64 (imm_lo val) 12)); Some (ws ++ [w]).
Proof using.
  intros Hf. cbn [load_imm_r]. rewrite Hf.
  destruct (load_imm_r fuel rd _) as [ws |], (emit_slli rd rd _) as [sh |], (imm_lo val =? 0); try reflexivity.
  cbn. destruct (emit_addi _ _ _) as [w |]; [cbn; rewrite <- app_assoc |]; reflexivity.
Qed.

Lemma load_imm_chunk_big fuel val :
  fits_s32 val = false ->
  chunk_error (load_imm_chunk (S fuel) val) =
  chunk_error (load_imm_chunk fuel (Z.shiftr (imm_hi val) (imm_shift val))) * 2 ^ imm_shift val \/
  imm_shift val < 0 \/ (load_imm_chunk fuel (Z.shiftr (imm_hi val) (imm_shift val))).2 < 0.
Proof using.
  intros Hf. cbn [load_imm_chunk]. rewrite Hf. destruct (load_imm_chunk _ _) as [c s]. unfold chunk_error. cbn [fst snd].
  destruct (Z.lt_ge_cases (imm_shift val) 0), (Z.lt_ge_cases s 0); auto. left.
  destruct (2048 <=? c mod 4096); [| lia]. rewrite <- Z.pow_add_r by lia. f_equal. lia.
Qed.

Lemma chunk_shift_nonneg fuel val : 0 <= (load_imm_chunk fuel val).2.
Proof using.
  revert val. induction fuel as [| fuel IH]; intros val; cbn [load_imm_chunk]; [reflexivity |].
  destruct (fits_s32 val); [reflexivity |]. specialize (IH (Z.shiftr (imm_hi val) (imm_shift val))).
  destruct (load_imm_chunk _ _) as [c s]. cbn [snd] in *. unfold imm_shift.
  pose proof (proj1 (ctz_spec 64 ltac:(lia) (Z.shiftr (u64 (imm_hi val)) 12))). lia.
Qed.

(** The whole of [load_imm_r]. *)
Lemma load_imm_r_runs k val p :
  good_regs p rd -> - 2 ^ 63 <= val < 2 ^ 63 ->
  - 2 ^ (27 + 12 * Z.of_nat k) <= val <= 2 ^ (27 + 12 * Z.of_nat k) ->
  loads (load_imm_r (S k) rd val) (val - chunk_error (load_imm_chunk (S k) val)) p.
Proof using H0.
  intros Hg. revert val. induction k as [| k IH]; intros val Hval Hk.
  { assert (Hf : fits_s32 val = true) by (apply fits_s32_spec; change (27 + 12 * Z.of_nat 0) with 27 in Hk; lia).
    cbn [load_imm_chunk]. rewrite Hf. apply load_chunk_runs; assumption. }
  destruct (fits_s32 val) eqn:Hf; [cbn [load_imm_chunk]; rewrite Hf; apply load_chunk_runs; assumption |].
  destruct (peel_range val Hval Hf (Z.of_nat k)) as [Hnk Hn63]; [lia | |].
  { replace (39 + 12 * Z.of_nat k) with (27 + 12 * Z.of_nat (S k)) by lia. exact Hk. }
  destruct (imm_hi_factor val Hval Hf) as [Hs Ef]. specialize (IH _ Hn63 Hnk).
  pose proof (imm_lo_range val Hval) as Hlo. destruct (imm_hi_spec val Hval) as (q & Eq & Hq).
  rewrite load_imm_r_big by exact Hf. cbv zeta.
  set (x := Z.shiftr (imm_hi val) (imm_shift val)) in *. set (err := chunk_error (load_imm_chunk (S k) x)) in *.
  assert (Eerr : chunk_error (load_imm_chunk (S (S k)) val) = err * 2 ^ imm_shift val).
  { pose proof (chunk_shift_nonneg (S k) x). destruct (load_imm_chunk_big (S k) val Hf) as [E | [E | E]]; [exact E | lia |].
    fold x in E. lia. }
  rewrite Eerr.
  pose proof (loads_snoc _ _ _ _ p Hg IH (fun r => run_slli_snoc (imm_shift val) _ r ltac:(lia))) as Hsh.
  assert (Ev : u64 (u64 (x - err) * 2 ^ imm_shift val + imm_lo val) = u64 (val - err * 2 ^ imm_shift val)).
  { rewrite <- wrap_add_l, wrap_mul_l, wrap_add_l.
    replace ((x - err) * 2 ^ imm_shift val + imm_lo val) with (imm_hi val + (imm_lo val - err * 2 ^ imm_shift val)) by nia.
    destruct Hq as [Hq | [Hq1 Hq]]; rewrite Hq; [f_equal; lia |].
    rewrite <- (wrap_pow_add 64). f_equal. lia. }
  destruct (Z.eqb_spec (imm_lo val) 0) as [E0 | E0].
  - eapply loads_eq; [| exact Hsh]. rewrite <- Ev, E0, Z.add_0_r. reflexivity.
  - assert (El : s32 (bitextend 64 (imm_lo val) 12) = imm_lo val).
    { rewrite bitextend_spec by lia. rewrite (swrap_small 12) by lia. apply swrap_small; lia. }
    rewrite El. eapply loads_eq; [| eapply (loads_snoc _ _ _ _ p Hg Hsh); intros r; apply run_addi_snoc; exact Hlo].
    rewrite wrap_add_l. exact Ev.
Qed.

(** [load_imm]. *)
Lemma load_imm_runs val p :
  good_regs p rd -> ireg (base p) !! 0%nat = Some 0 -> - 2 ^ 63 <= val < 2 ^ 63 ->
  loads (load_imm_insts rd val) (val - load_imm_error val) p.
Proof using H0.
  intros Hg H00 Hval. unfold load_imm_insts, load_imm_error.
  destruct ((-2048 <=? val) && (val <=? 2047)) eqn:Es; cbn [orb].
  - bool_hyps. rewrite swrap_small by lia. rewrite Z.sub_0_r.
    apply (loads_one _ (0 + val)), run_addi; first [exact Hg | exact H00 | lia | split; reflexivity || discriminate].
  - destruct (ispow2 64 (u64 val)) eqn:Ep; [| apply (load_imm_r_runs 5); [exact Hg | exact Hval | cbn; lia]].
    destruct (ispow2_factor 64 ltac:(lia) (u64 val) (wrap_range 64 ltac:(lia) val) Ep) as [Hc Ec].
    assert (H1 : loads (w ← emit_addi rd rv_ireg_zero 1; Some [w]) (0 + 1) p)
      by (apply loads_one, run_addi; first [exact Hg | exact H00 | lia | split; reflexivity || discriminate]).
    pose proof (loads_snoc _ _ _ _ p Hg H1 (fun r => run_slli_snoc (ctz 64 (u64 val)) _ r ltac:(lia))) as Hs.
    destruct (emit_addi rd rv_ireg_zero 1) as [h |]; [| destruct Hs as (ws & E & _); discriminate E].
    cbn [mbind option_bind app] in *. eapply loads_eq; [| exact Hs].
    rewrite Z.sub_0_r. change (u64 (0 + 1)) with 1. rewrite Z.mul_1_l, <- Ec. apply wrap_wrap.
Qed.
End Run_imm.

(** The error is 0 exactly when the chunk needs no rounding, or when what is
    missing is shifted out. *)
Lemma load_imm_error_zero val :
  load_imm_error val = 0 \/ exists s, 0 <= s /\ load_imm_error val = 2 ^ (12 + s).
Proof.
  unfold load_imm_error, chunk_error. destruct (_ || _); [left; reflexivity |].
  destruct (2048 <=? _); [right | left; reflexivity]. eexists. split; [apply chunk_shift_nonneg | reflexivity].
Qed.

Lemma load_imm_error_small val : - 2 ^ 31 <= val < 2 ^ 31 -> val mod 4096 < 2048 -> load_imm_error val = 0.
Proof.
  intros Hv Hm. unfold load_imm_error. destruct (_ || _); [reflexivity |].
  cbn [load_imm_chunk]. rewrite (proj2 (fits_s32_spec val) Hv). unfold chunk_error. cbn [fst].
  destruct (Z.leb_spec 2048 (val mod 4096)); [lia | reflexivity].
Qed.
