(* ===== verification/AssemblerLink.v ===== *)
(** * AssemblerLink: lemmas about relocation: the immediates it computes, the
    instructions it changes, and what the changed instructions do. *)

From Stdlib Require Import ZArith Lia Bool List String.
From stdpp Require Import base numbers list gmap strings.
From S2P Require Import Prelude Operand Meta Decode Encode Codec CodecSound CodecRound Alu Machine Fpu Interp ExecSpec ExecControl Model Assembler AssemblerSound.

(** ** The upper and lower parts of an address *)
Lemma hi20_spec x : hi20 x = u64 ((x + 0x800) / 4096 * 4096).
Proof.
  unfold hi20. rewrite Z.shiftl_mul_pow2, Z.shiftr_div_pow2 by lia. change (2 ^ 12) with 4096.
  unfold wrap. rewrite (Z.mod_eq (x + 0x800) (2 ^ 64)) by lia.
  replace (2 ^ 64 * ((x + 0x800) / 2 ^ 64)) with (((x + 0x800) / 2 ^ 64 * 2 ^ 52) * 4096) by lia.
  rewrite <- Z.add_opp_r, <- Z.mul_opp_l, Z.div_add by lia.
  rewrite Z.mul_add_distr_r, Z.mul_opp_l.
  replace ((x + 2048) / 2 ^ 64 * 2 ^ 52 * 4096) with ((x + 2048) / 2 ^ 64 * 2 ^ 64) by lia.
  rewrite <- Z.mul_opp_l. apply Z_mod_plus_full.
Qed.

(** The distance or address [x] in reach of 32 bits, as a signed number. *)
Definition in_reach (x : Z) : Prop := - 2 ^ 31 <= x < 2 ^ 31 - 0x800.

Definition hi_part (x : Z) : Z := (x + 0x800) / 4096 * 4096.
Definition lo_part (x : Z) : Z := x - hi_part x.

Lemma parts_range x : in_reach x ->
  - 2 ^ 31 <= hi_part x < 2 ^ 31 /\ hi_part x mod 2 ^ 12 = 0 /\ - 2048 <= lo_part x < 2048.
Proof.
  unfold in_reach, lo_part, hi_part. intros Hx.
  pose proof (Z.div_mod (x + 0x800) 4096 ltac:(lia)). pose proof (Z.mod_pos_bound (x + 0x800) 4096 ltac:(lia)).
  split; [lia |]. split; [apply Z.mod_mul; lia | lia].
Qed.

Lemma s32_u64 x : s32 (u64 x) = s32 x.
Proof. apply swrap_eq. rewrite wrap_narrow by lia. reflexivity. Qed.

Lemma hi20_u64 x : hi20 (u64 x) = hi20 x.
Proof. unfold hi20. rewrite wrap_add_l. reflexivity. Qed.

Lemma upper_reach x : in_reach x -> upper (u64 x) = hi_part x.
Proof.
  intros Hx. destruct (parts_range x Hx) as (H1 & _ & _). unfold upper.
  rewrite hi20_u64, hi20_spec, s32_u64. apply swrap_small; [lia | exact H1].
Qed.

Lemma lower_reach x : in_reach x -> s32 (u64 x - upper (u64 x)) = lo_part x.
Proof.
  intros Hx. destruct (parts_range x Hx) as (_ & _ & H3). rewrite upper_reach by exact Hx.
  rewrite <- s32_u64, wrap_sub_l, s32_u64. apply swrap_small; unfold lo_part in *; lia.
Qed.

(** ** Immediates *)
Lemma set_imm_s32 v d : set_imm (s32 v) d = set_imm v d.
Proof. unfold set_imm. rewrite (swrap_swrap 32) by lia. reflexivity. Qed.

Lemma set_imm_u64 v d : set_imm (u64 v) d = set_imm v d.
Proof. rewrite <- (set_imm_s32 (u64 v)), s32_u64. apply set_imm_s32. Qed.

Lemma set_imm_instr v op rd rs1 imm : set_imm v (instr op rd rs1 imm) = instr op rd rs1 v.
Proof. reflexivity. Qed.

(** ** Instructions in a section *)
Definition at_word (a : assembler) (k : key) (w : Z) : Prop :=
  exists s, sections a !! Z.to_nat k.1 = Some s /\ word_at (sec_buf s) k.2 w.

(** [a'] is [a] after the words at the places [ks] were replaced. *)
Definition apart (k k' : key) : Prop :=
  Z.to_nat k.1 <> Z.to_nat k'.1 \/ k.2 + 4 <= k'.2 \/ k'.2 + 4 <= k.2.

Record patched (ks : list key) (a a' : assembler) : Prop := {
  pt_labels : labels a' = labels a;
  pt_byname : labels_byname a' = labels_byname a;
  pt_byoffset : labels_byoffset a' = labels_byoffset a;
  pt_sections : Forall2 (fun s s' => sec_offset s' = sec_offset s /\ sec_name s' = sec_name s /\
                                  length (sec_buf s') = length (sec_buf s)) (sections a) (sections a');
  pt_frame : forall k w, Forall (apart k) ks -> at_word a k w -> at_word a' k w }.

Lemma section_shape_refl ss : Forall2 (fun s s' => sec_offset s' = sec_offset s /\ sec_name s' = sec_name s /\
  length (sec_buf s') = length (sec_buf s)) ss ss.
Proof. induction ss; constructor; auto. Qed.

(** Another relocation entry changes no section and no label. *)
Lemma set_relocs_patched a v : patched [] a (set_relocs a v).
Proof. split; try reflexivity; [apply section_shape_refl | auto]. Qed.

Lemma put_section_buf_patched a k s b w :
  sections a !! Z.to_nat k.1 = Some s -> word_at b k.2 w -> length b = length (sec_buf s) ->
  (forall off2 w2, word_at (sec_buf s) off2 w2 -> off2 + 4 <= k.2 \/ k.2 + 4 <= off2 -> word_at b off2 w2) ->
  patched [k] a (put_section_buf (Z.to_nat k.1) b a) /\ at_word (put_section_buf (Z.to_nat k.1) b a) k w.
Proof.
  intros Hs Hw Hl Hf. unfold put_section_buf. cbn.
  assert (Hs' : alter (set_buf b) (Z.to_nat k.1) (sections a) !! Z.to_nat k.1 = Some (set_buf b s))
    by (rewrite list_lookup_alter_eq, Hs; reflexivity).
  split; [split; try reflexivity |].
  - cbn. apply Forall2_lookup. intros i. destruct (decide (i = Z.to_nat k.1)) as [-> | Hi].
    + rewrite Hs, Hs'. constructor. auto.
    + rewrite list_lookup_alter_ne by congruence. destruct (sections a !! i); constructor; auto.
  - intros k2 w2 Hap (s2 & Hs2 & Hw2). inversion Hap as [| ? ? Hk _]; subst. unfold at_word. cbn.
    destruct (decide (Z.to_nat k2.1 = Z.to_nat k.1)) as [E | E].
    + rewrite E in *. rewrite Hs' . eexists. split; [reflexivity |]. cbn.
      rewrite Hs in Hs2. injection Hs2 as <-. apply Hf; [exact Hw2 |]. destruct Hk as [? | ?]; [congruence | lia].
    + exists s2. rewrite list_lookup_alter_ne by congruence. auto.
  - exists (set_buf b s). auto.
Qed.

(** What a lookup gives is not changed by patching. *)
Section Patched.
Context (ks : list key) (a a' : assembler) (Hp : patched ks a a').

Lemma patched_lookup k name : lookup_label k name a' = lookup_label k name a.
Proof using Hp.
  destruct Hp as [E1 E2 E3 _ _]. unfold lookup_label, lookup_label_f, lookup_label_b, lookup_name, deref.
  rewrite E1, E2, E3. reflexivity.
Qed.

Lemma patched_absolute k : absolute k a' = absolute k a.
Proof using Hp.
  unfold absolute. pose proof (pt_sections _ _ _ Hp) as Hs. rewrite Forall2_lookup in Hs. specialize (Hs (Z.to_nat k.1)).
  inversion Hs as [s s' (E & _) H1 H2 |]; subst; cbn; rewrite ?E; reflexivity.
Qed.

Lemma patched_target l : label_target l a' = label_target l a.
Proof using Hp. unfold label_target, label_offset. rewrite patched_absolute. reflexivity. Qed.
End Patched.

Lemma patched_trans ks1 ks2 a a1 a2 : patched ks1 a a1 -> patched ks2 a1 a2 -> patched (ks1 ++ ks2) a a2.
Proof.
  intros [L1 N1 O1 S1 F1] [L2 N2 O2 S2 F2]. split; try congruence.
  - eapply Forall2_trans; [| exact S1 | exact S2]. cbn. intros s s1 s2 (?&?&?) (?&?&?). split; [| split]; congruence.
  - intros k w Hk H. apply Forall_app in Hk as [Hk1 Hk2]. auto.
Qed.

#[local] Opaque decode_inst_rv64 inst_decode encode_inst.

(** The relocation entry is renamed after the label. *)
Definition renamed (k : key) (r : reloc) (l : label) (a : assembler) : assembler :=
  set_relocs a (map_assign k (mkReloc (lb_name l) (rl_type r)) (relocs_byoffset a)).

(** [relocate] on an instruction of four bytes, up to the fixup. *)
Lemma relocate_step a k r l L R s w :
  lookup_label k (rl_name r) a = Some l -> label_target l a = Some L -> reloc_offset k a = Some R ->
  sections a !! Z.to_nat k.1 = Some s -> word_at (sec_buf s) k.2 w ->
  relocate k r a =
    (f ← fixup_of (renamed k r l a) k (rl_type r) L R;
     bo ← apply_fixup f (sec_buf s) k.2 (decode_inst_rv64 decode_init w) 4;
     Some (put_section_buf (Z.to_nat k.1) bo.1 (renamed k r l a), bo.2)).
Proof.
  intros Hl Ht HR Hs Hw. unfold relocate. rewrite Hl. fold (renamed k r l a).
  pose proof (set_relocs_patched a (map_assign k (mkReloc (lb_name l) (rl_type r)) (relocs_byoffset a))) as Hp1.
  fold (renamed k r l a) in Hp1. set (a1 := renamed k r l a) in *.
  unfold reloc_offset in *. rewrite (patched_target _ _ _ Hp1), (patched_absolute _ _ _ Hp1), Ht, HR.
  assert (Eb : section_buf a1 (Z.to_nat k.1) = sec_buf s).
  { unfold section_buf. change (sections a1) with (sections a). rewrite Hs. reflexivity. }
  cbn [mbind option_bind]. rewrite Eb, (buf_fetch_word _ _ _ Hw). cbn [mbind option_bind].
  destruct (fixup_of _ _ _ _ _) as [f |]; [| reflexivity]. cbn [mbind option_bind].
  destruct (apply_fixup _ _ _ _ _) as [[b ok] |]; reflexivity.
Qed.

(** A relocation that replaces the immediate of the instruction it is at. *)
Lemma relocate_imm a k r l L R w d v :
  lookup_label k (rl_name r) a = Some l -> label_target l a = Some L -> reloc_offset k a = Some R ->
  at_word a k w -> decode_inst_rv64 decode_init w = d -> canonical d = true -> word_op (d_op d) = true ->
  (forall a1, fixup_of a1 k (rl_type r) L R = Some (fix_imm v)) -> imm_fits (d_op d) (s32 v) = true ->
  exists a' w', relocate k r a = Some (a', true) /\ patched [k] a a' /\ at_word a' k w' /\
    decode_inst_rv64 decode_init w' = set_imm v d /\
    (decodable (m_isa processor_rv64imafdc_model) (d_op d) = true ->
     inst_decode processor_rv64imafdc_model decode_init w' = set_imm v d).
Proof.
  intros Hl Ht HR (s & Hs & Hw) Hd Hc Ho Hf Hi. rewrite (relocate_step a k r l L R s w) by assumption.
  rewrite Hf, Hd. cbn [mbind option_bind apply_fixup].
  destruct (reencode_word _ _ _ (s32 v) d Hw Hd Hc Ho Hi) as (b' & w' & Er & Hw' & Hd' & Hm' & Hlen & _ & Hfr).
  rewrite set_imm_s32 in Er, Hd', Hm'. rewrite Er. cbn [mbind option_bind fst snd].
  pose proof (set_relocs_patched a (map_assign k (mkReloc (lb_name l) (rl_type r)) (relocs_byoffset a))) as Hp1.
  fold (renamed k r l a) in Hp1.
  destruct (put_section_buf_patched (renamed k r l a) k s b' w' Hs Hw' Hlen Hfr) as [Hp2 Haw].
  eexists _, w'. split; [reflexivity |]. split; [exact (patched_trans [] [k] _ _ _ Hp1 Hp2) |].
  split; [exact Haw |]. split; [exact Hd' | exact Hm'].
Qed.

Lemma fixup_call a k L R :
  fixup_of a k R_RISCV_CALL L R =
  Some (fix_pair (upper (u64 (L - R))) (s32 (u64 (L - R) - upper (u64 (L - R))))).
Proof. reflexivity. Qed.

Lemma apply_fixup_pair hi lo b off d n w m b2 b1 :
  buf_fetch b (off + n) = Some (w, m) ->
  reencode_inst (set_imm lo (decode_inst_rv64 decode_init w)) b (off + n) = Some b2 ->
  reencode_inst (set_imm hi d) b2 off = Some b1 ->
  apply_fixup (fix_pair hi lo) b off d n = Some (b1, true).
Proof.
  intros E1 E2 E3. unfold apply_fixup, mbind, option_bind. rewrite E1. cbv beta iota. rewrite E2, E3. reflexivity.
Qed.

Lemma put_section_buf_twice i b b' a : put_section_buf i b (put_section_buf i b' a) = put_section_buf i b a.
Proof.
  unfold put_section_buf, set_sections. cbn. f_equal. apply list_eq. intros j.
  destruct (decide (j = i)) as [-> | Hj].
  - rewrite !list_lookup_alter_eq. destruct (_ !! _); reflexivity.
  - rewrite !list_lookup_alter_ne by congruence. reflexivity.
Qed.

(** The second word is written, then the first. *)
Lemma put_pair_patched a k s b2 b1 w2 w1 :
  sections a !! Z.to_nat k.1 = Some s -> word_at b2 (k.2 + 4) w2 -> length b2 = length (sec_buf s) ->
  (forall o w, word_at (sec_buf s) o w -> o + 4 <= k.2 + 4 \/ k.2 + 4 + 4 <= o -> word_at b2 o w) ->
  word_at b1 k.2 w1 -> length b1 = length b2 ->
  (forall o w, word_at b2 o w -> o + 4 <= k.2 \/ k.2 + 4 <= o -> word_at b1 o w) ->
  patched [k; (k.1, k.2 + 4)] a (put_section_buf (Z.to_nat k.1) b1 a) /\
  at_word (put_section_buf (Z.to_nat k.1) b1 a) k w1 /\
  at_word (put_section_buf (Z.to_nat k.1) b1 a) (k.1, k.2 + 4) w2.
Proof.
  intros Hs Hw2 Hl2 Hf2 Hw1 Hl1 Hf1.
  assert (Hb : sections (put_section_buf (Z.to_nat k.1) b2 a) !! Z.to_nat k.1 = Some (set_buf b2 s)).
  { cbn. rewrite list_lookup_alter_eq, Hs. reflexivity. }
  destruct (put_section_buf_patched a (k.1, k.2 + 4) s b2 w2 Hs Hw2 Hl2 Hf2) as [Hp2 Haw2].
  destruct (put_section_buf_patched _ k (set_buf b2 s) b1 w1 Hb Hw1 Hl1 Hf1) as [Hp3 Haw1].
  rewrite put_section_buf_twice in Hp3, Haw1. cbn [fst] in Hp2, Haw2.
  split; [| split; [exact Haw1 |]].
  - destruct (patched_trans _ _ _ _ _ Hp2 Hp3) as [E1 E2 E3 E4 E5]. split; try assumption.
    intros k2 w Hk. apply E5. inversion_clear Hk as [| ? ? H1 H2]. inversion_clear H2 as [| ? ? H3 _].
    apply Forall_cons. split; [exact H3 |]. apply Forall_singleton, H1.
  - apply (pt_frame _ _ _ Hp3); [| exact Haw2]. apply Forall_singleton. right. right. cbn [snd]. lia.
Qed.

(** [R_RISCV_CALL]: the immediates of the instruction and of the next one. *)
Lemma relocate_pair a k r l L R w1 w2 d1 d2 hi lo :
  lookup_label k (rl_name r) a = Some l -> label_target l a = Some L -> reloc_offset k a = Some R ->
  (forall a1, fixup_of a1 k (rl_type r) L R = Some (fix_pair hi lo)) ->
  at_word a k w1 -> decode_inst_rv64 decode_init w1 = d1 -> canonical d1 = true -> word_op (d_op d1) = true ->
  at_word a (k.1, k.2 + 4) w2 -> decode_inst_rv64 decode_init w2 = d2 -> canonical d2 = true -> word_op (d_op d2) = true ->
  imm_fits (d_op d1) hi = true -> imm_fits (d_op d2) lo = true ->
  exists a' w1' w2', relocate k r a = Some (a', true) /\ patched [k; (k.1, k.2 + 4)] a a' /\
    at_word a' k w1' /\ at_word a' (k.1, k.2 + 4) w2' /\
    decode_inst_rv64 decode_init w1' = set_imm hi d1 /\ decode_inst_rv64 decode_init w2' = set_imm lo d2 /\
    (decodable (m_isa processor_rv64imafdc_model) (d_op d1) = true ->
     inst_decode processor_rv64imafdc_model decode_init w1' = set_imm hi d1) /\
    (decodable (m_isa processor_rv64imafdc_model) (d_op d2) = true ->
     inst_decode processor_rv64imafdc_model decode_init w2' = set_imm lo d2).
Proof.
  intros Hl Ht HR Hf (s & Hs & Hw1) Hd1 Hc1 Ho1 (s2 & Hs2 & Hw2) Hd2 Hc2 Ho2 Hi1 Hi2. cbn [fst snd] in Hs2, Hw2.
  rewrite Hs in Hs2. injection Hs2 as <-.
  rewrite (relocate_step a k r l L R s w1), Hf, Hd1 by assumption.
  destruct (reencode_word _ _ _ lo d2 Hw2 Hd2 Hc2 Ho2 Hi2) as (b2 & w2' & Er2 & Hw2' & Hd2' & Hm2' & Hlen2 & _ & Hfr2).
  destruct (reencode_word _ _ _ hi d1 (Hfr2 _ _ Hw1 ltac:(lia)) Hd1 Hc1 Ho1 Hi1)
    as (b1 & w1' & Er1 & Hw1' & Hd1' & Hm1' & Hlen1 & _ & Hfr1).
  rewrite <- Hd2 in Er2.
  pose proof (apply_fixup_pair hi lo (sec_buf s) k.2 d1 4 w2 4 b2 b1 (buf_fetch_word _ _ _ Hw2) Er2 Er1) as Ef.
  cbn [mbind option_bind]. rewrite Ef. cbn [mbind option_bind fst snd].
  pose proof (set_relocs_patched a (map_assign k (mkReloc (lb_name l) (rl_type r)) (relocs_byoffset a))) as Hp1.
  fold (renamed k r l a) in Hp1.
  destruct (put_pair_patched (renamed k r l a) k s b2 b1 w2' w1' Hs Hw2' Hlen2 Hfr2 Hw1' Hlen1 Hfr1) as (Hp2 & Ha1 & Ha2).
  eexists _, w1', w2'. split; [reflexivity |]. split; [exact (patched_trans [] _ _ _ _ Hp1 Hp2) |].
  split; [exact Ha1 |]. split; [exact Ha2 |]. split; [exact Hd1' |]. split; [exact Hd2' |]. split; [exact Hm1' | exact Hm2'].
Qed.

(** ** The values of the relocations *)

(** The immediate a relocation asks for: label at [x], instruction at [y]. *)
Definition reloc_value (rtype x y : Z) : option Z :=
  let reach z v := if (- 2 ^ 31 <=? z) && (z <? 2 ^ 31 - 0x800) then Some v else None in
  switch rtype
    [R_RISCV_JAL ~> Some (x - y); R_RISCV_BRANCH ~> Some (x - y);
     R_RISCV_HI20 ~> reach x (hi_part x);
     R_RISCV_LO12_I ~> reach x (lo_part x); R_RISCV_LO12_S ~> reach x (lo_part x);
     R_RISCV_PCREL_HI20 ~> reach (x - y) (hi_part (x - y))] None.

Lemma u64_sub x y : u64 (u64 x - u64 y) = u64 (x - y).
Proof. rewrite wrap_sub_l, wrap_sub_r. reflexivity. Qed.

Lemma hi20_reach x : in_reach x -> s32 (hi20 x) = s32 (hi_part x).
Proof. intros Hx. rewrite hi20_spec, s32_u64. reflexivity. Qed.

Lemma fixup_value rtype k x y v :
  reloc_value rtype x y = Some v ->
  exists u, (forall a, fixup_of a k rtype (u64 x) (u64 y) = Some (fix_imm u)) /\ s32 u = s32 v.
Proof.
  unfold reloc_value, fixup_of. cbv zeta. cbn [switch].
  assert (R : forall z w, (if (- 2 ^ 31 <=? z) && (z <? 2 ^ 31 - 0x800) then Some w else None) = Some v -> in_reach z /\ v = w).
  { intros z w. destruct (_ && _) eqn:E; [| discriminate]. intros [= <-]. bool_hyps. split; [unfold in_reach; lia | reflexivity]. }
  rewrite u64_sub.
  destruct (rtype =? R_RISCV_JAL); [intros [= <-]; eexists; split; [reflexivity | apply s32_u64] |].
  destruct (rtype =? R_RISCV_BRANCH); [intros [= <-]; eexists; split; [reflexivity | apply s32_u64] |].
  destruct (rtype =? R_RISCV_HI20).
  { intros H. apply R in H as [Hx ->]. eexists. split; [reflexivity |]. rewrite hi20_u64. apply hi20_reach, Hx. }
  destruct (rtype =? R_RISCV_LO12_I).
  { intros H. apply R in H as [Hx ->]. eexists. split; [reflexivity |]. rewrite s32_u64, lower_reach by exact Hx.
    destruct (parts_range x Hx) as (_ & _ & ?). symmetry. apply swrap_small; lia. }
  destruct (rtype =? R_RISCV_LO12_S).
  { intros H. apply R in H as [Hx ->]. eexists. split; [reflexivity |]. rewrite s32_u64, lower_reach by exact Hx.
    destruct (parts_range x Hx) as (_ & _ & ?). symmetry. apply swrap_small; lia. }
  destruct (rtype =? R_RISCV_PCREL_HI20); [| discriminate].
  intros H. apply R in H as [Hx ->]. eexists. split; [reflexivity |]. rewrite hi20_u64. apply hi20_reach, Hx.
Qed.

Lemma imm_fits_s32 op v : imm_fits op v = true -> s32 v = v.
Proof. unfold imm_fits. destruct (imm_operand op); [| discriminate]. intros H. bool_hyps. apply swrap_small; lia. Qed.

(** ** The relocated pairs *)
Section Pairs.
Context {P : Type} `{ProcessorLaws P} `{!MMU P} (fpu : host_fpu).
Abbreviation m64 := processor_rv64imafdc_model.

Definition is_word (w : Z) (d : decode) : Prop := inst_decode m64 decode_init w = d /\ inst_length w = 4.

Lemma exec_is_word w op rd rs1 imm v p :
  is_word w (instr op rd rs1 imm) -> 0 <= rd < 32 ->
  exec_inst_rv64 fpu (m_isa m64) (instr op rd rs1 imm) 4 p = Ok 4 (write_rd 64 rd v p) ->
  exec_word fpu w p = Ok tt (moved rd v 1 p).
Proof using H0.
  intros [Hd Hl] Hr He.
  assert (Er : d_rd (instr op rd rs1 imm) = rd) by (cbn; apply wrap_small; lia).
  rewrite <- Er. eapply exec_word_run; [exact Hd | exact Hl | rewrite Er; exact He].
Qed.

(** [lui] or [auipc], then [addi]: the sum. *)
Lemma exec_pair op rd imm1 imm2 v w1 w2 p :
  good_regs p rd -> - 2048 <= imm2 < 2048 ->
  is_word w1 (instr op rd 0 imm1) -> is_word w2 (instr rv_op_addi rd rd imm2) ->
  exec_inst_rv64 fpu (m_isa m64) (instr op rd 0 imm1) 4 p = Ok 4 (write_rd 64 rd v p) ->
  exec_words fpu [w1; w2] p = Ok tt (moved rd (v + imm2) 2 p).
Proof using H0.
  intros Hg Hi H1 H2 He. pose proof Hg as [Hl Hr].
  cbn [exec_words]. unfold bind, ret. rewrite (exec_is_word _ _ _ _ _ _ _ H1 ltac:(lia) He).
  set (q := moved rd v 1 p).
  assert (Hq : ireg (base q) !! Z.to_nat rd = Some (u64 v)) by (apply moved_same; lia).
  rewrite (exec_is_word _ _ _ _ _ _ _ H2 ltac:(lia) (exec_addi fpu rd rd imm2 _ q (moved_good _ _ _ _ _ Hg) ltac:(lia) Hq (wrap_range 64 ltac:(lia) v) Hi)).
  unfold q. rewrite moved_moved. unfold moved. rewrite wrap_add_l. reflexivity.
Qed.

Lemma even_mask z : Z.even z = true -> Z.land (u64 z) (u64 (-2)) = u64 z.
Proof using.
  intros He. rewrite <- wrap_land by lia. f_equal. bitwise i Hi.
  destruct (Z.eq_dec i 0) as [-> |].
  - rewrite Z.bit0_odd, <- Z.negb_even, He. reflexivity.
  - change (-2) with (Z.lnot (Z.ones 1)). rewrite Z.lnot_spec, Z.testbit_ones_nonneg by lia.
    destruct (Z.ltb_spec i 1); [lia | apply andb_true_r].
Qed.

(** [jalr] to an even address. *)
Lemma exec_jalr_word w rd rs1 imm a p :
  length (ireg (base p)) = 32%nat -> 0 <= rd < 32 -> 0 <= rs1 < 32 -> - 2048 <= imm < 2048 ->
  is_word w (instr rv_op_jalr rd rs1 imm) -> ireg (base p) !! Z.to_nat rs1 = Some a ->
  Z.even (pc (base p)) = true -> Z.even (a + imm) = true ->
  exists q, exec_word fpu w p = Ok tt q /\ pc (base q) = u64 (a + imm) /\
    (rd <> 0 -> ireg (base q) !! Z.to_nat rd = Some (u64 (pc (base p) + 4))).
Proof using H0.
  intros Hlen Hrd Hrs Hi [Hd Hl] Ha Hpe He. unfold exec_word, bind. rewrite Hd, Hl.
  change (inst_exec fpu m64 (instr rv_op_jalr rd rs1 imm) 4 p) with
    (exec_inst_rv64 fpu (m_isa m64) (instr rv_op_jalr rd rs1 imm) 4 p).
  assert (E1 : d_rd (instr rv_op_jalr rd rs1 imm) = rd) by (cbn; apply wrap_small; lia).
  assert (E2 : d_rs1 (instr rv_op_jalr rd rs1 imm) = rs1) by (cbn; apply wrap_small; lia).
  assert (E3 : d_imm (instr rv_op_jalr rd rs1 imm) = imm) by (cbn; apply swrap_small; lia).
  unfold exec_inst_rv64, exec_inst_rv64_groups.
  rewrite (exec_jalr_run fpu 64 (m_isa m64) (instr rv_op_jalr rd rs1 imm) 4 p a _ eq_refl eq_refl)
    by (rewrite ?E1, ?E2, ?Hlen; assumption || lia).
  rewrite E1, E3. eexists. split; [reflexivity |].
  assert (Hpc : pc (base (ExecControl.link 64 4 p rd)) = pc (base p)).
  { unfold ExecControl.link, write_rd. destruct (rd =? 0); rewrite base_set; reflexivity. }
  rewrite !base_set. cbn [pc ireg set_pc]. rewrite Hpc. split.
  - pose proof (jalr_target 64 (or_intror eq_refl) p a imm Hpe) as Et. unfold next_pc in Et. rewrite Et.
    apply even_mask, He.
  - intros Hr0. unfold ExecControl.link. destruct (Z.eqb_spec rd 0); [contradiction |]. unfold write_rd. rewrite base_set.
    apply list_lookup_insert_eq. lia.
Qed.

(** [auipc] and [jalr]: a jump by the sum. *)
Lemma exec_call_pair rd1 rd2 imm1 imm2 w1 w2 p :
  good_regs p rd1 -> 0 <= rd2 < 32 -> - 2 ^ 31 <= imm1 < 2 ^ 31 -> - 2048 <= imm2 < 2048 ->
  is_word w1 (instr rv_op_auipc rd1 0 imm1) -> is_word w2 (instr rv_op_jalr rd2 rd1 imm2) ->
  Z.even (pc (base p)) = true -> Z.even (imm1 + imm2) = true ->
  exists q, exec_words fpu [w1; w2] p = Ok tt q /\ pc (base q) = u64 (pc (base p) + (imm1 + imm2)) /\
    (rd2 <> 0 -> ireg (base q) !! Z.to_nat rd2 = Some (u64 (pc (base p) + 8))).
Proof using H0.
  intros Hg Hr2 Hi1 Hi2 H1 H2 Hpe He. pose proof Hg as [Hl Hr]. cbn [exec_words]. unfold bind, ret.
  rewrite (exec_is_word _ _ _ _ _ _ _ H1 ltac:(lia) (exec_auipc fpu rd1 imm1 p Hg Hi1)).
  set (q1 := moved rd1 (pc (base p) + imm1) 1 p).
  assert (Epc : pc (base q1) = u64 (pc (base p) + 4)) by (unfold q1, moved; rewrite base_set; reflexivity).
  assert (Hev : forall z, Z.even (u64 z) = Z.even z).
  { intros z. rewrite <- !Z.negb_odd, <- !Z.bit0_odd, wrap_spec by lia. reflexivity. }
  destruct (exec_jalr_word w2 rd2 rd1 imm2 (u64 (pc (base p) + imm1)) q1) as (q & Eq & Epq & Elr).
  - unfold q1. rewrite moved_length. exact Hl.
  - exact Hr2.
  - lia.
  - exact Hi2.
  - exact H2.
  - apply moved_same. lia.
  - rewrite Epc, Hev, Z.even_add, Hpe. reflexivity.
  - rewrite Z.even_add, Hev, <- Z.even_add, <- Z.add_assoc, Z.even_add, Hpe, He. reflexivity.
  - exists q. rewrite Eq. split; [reflexivity |]. rewrite wrap_add_l in Epq. split; [rewrite Epq; f_equal; lia |].
    intros Hr0. rewrite (Elr Hr0), Epc, wrap_add_l. do 2 f_equal. lia.
Qed.
End Pairs.
