(* ===== verification/AssemblerLabels.v ===== *)
(** * AssemblerLabels: the maps of the assembler, its invariant and its labels. *)

From Stdlib Require Import ZArith Lia Bool List String Ascii Sorted.
From stdpp Require Import base numbers list gmap strings pretty.
From S2P Require Import Prelude Operand Meta Decode Codec Alu Assembler.

(** ** Keys and sorted maps *)
Definition key_lt (a b : key) : Prop := key_ltb a b = true.

Lemma key_ltb_spec a b : key_ltb a b = true <-> a.1 < b.1 \/ a.1 = b.1 /\ a.2 < b.2.
Proof. unfold key_ltb. lia. Qed.

Lemma key_eqb_eq a b : key_eqb a b = true <-> a = b.
Proof. unfold key_eqb. destruct a, b. cbn. rewrite andb_true_iff, !Z.eqb_eq. split; [intros [-> ->] | intros [= -> ->]]; auto. Qed.

Lemma key_lt_trans a b c : key_lt a b -> key_lt b c -> key_lt a c.
Proof. unfold key_lt. rewrite !key_ltb_spec. lia. Qed.

Lemma key_lt_irrefl a : ~ key_lt a a.
Proof. unfold key_lt. rewrite key_ltb_spec. lia. Qed.

Lemma key_total a b : key_ltb a b = false -> key_eqb a b = false -> key_lt b a.
Proof.
  unfold key_lt, key_eqb. intros H1 H2. apply key_ltb_spec.
  assert (~ (a.1 < b.1 \/ a.1 = b.1 /\ a.2 < b.2)) by (rewrite <- key_ltb_spec; congruence). lia.
Qed.

Section Maps.
Context {A : Type}.

Definition sorted (m : list (key * A)) : Prop := StronglySorted (fun x y => key_lt x.1 y.1) m.

Lemma map_assign_in k (v : A) m x : In x (map_assign k v m) -> x = (k, v) \/ In x m.
Proof.
  induction m as [| [k' v'] m IH]; cbn; [intuition |].
  destruct (key_ltb k k'), (key_eqb k k'); cbn; intuition.
Qed.

Lemma map_assign_sorted k (v : A) m : sorted m -> sorted (map_assign k v m).
Proof.
  unfold sorted. induction m as [| [k' v'] m IH]; cbn; intros Hm; [repeat constructor |].
  inversion Hm as [| ? ? Hm' Hall]; subst.
  destruct (key_ltb k k') eqn:El.
  - constructor; [exact Hm |]. constructor; [exact El |].
    eapply Forall_impl; [exact Hall |]. intros x Hx. eapply key_lt_trans; [exact El | exact Hx].
  - destruct (key_eqb k k') eqn:Ee.
    + apply key_eqb_eq in Ee. subst k'. constructor; assumption.
    + constructor; [apply IH, Hm' |]. apply List.Forall_forall. intros x Hx.
      apply map_assign_in in Hx as [-> | Hx]; [exact (key_total _ _ El Ee) |].
      rewrite List.Forall_forall in Hall. exact (Hall x Hx).
Qed.

Lemma map_find_assign k (v : A) k' m :
  map_find k' (map_assign k v m) = if key_eqb k' k then Some v else map_find k' m.
Proof.
  induction m as [| [k1 v1] m IH]; cbn; [destruct (key_eqb k' k); reflexivity |].
  destruct (key_ltb k k1) eqn:El; [reflexivity |]. destruct (key_eqb k k1) eqn:Ee; cbn.
  - apply key_eqb_eq in Ee. subst k1. destruct (key_eqb k' k); reflexivity.
  - rewrite IH. destruct (key_eqb k' k1) eqn:E1; [| reflexivity]. apply key_eqb_eq in E1. subst k1.
    destruct (key_eqb k' k) eqn:E2; [| reflexivity]. apply key_eqb_eq in E2. subst k'.
    unfold key_eqb in Ee. rewrite !Z.eqb_refl in Ee. discriminate.
Qed.
End Maps.

(** ** Local labels

    In a sorted map, the label found is the nearest one with the number. *)
Definition forward (k : key) (num : Z) (e : key * label) : Prop := key_lt k e.1 /\ lb_num e.2 = num.
Definition backward (k : key) (num : Z) (e : key * label) : Prop := ~ key_lt k e.1 /\ lb_num e.2 = num.

Lemma label_f_found k num m :
  Forall (fun e => key_lt k e.1) m ->
  match label_f true k num m with
  | Some l => exists m1 k' m2, m = m1 ++ (k', l) :: m2 /\ forward k num (k', l) /\ Forall (fun e => ~ forward k num e) m1
  | None => Forall (fun e => ~ forward k num e) m
  end.
Proof.
  induction m as [| [k' l] m IH]; cbn; intros H; [constructor |].
  inversion_clear H as [| ? ? Hk Hm]. destruct (Z.eqb_spec (lb_num l) num) as [E | E].
  - exists [], k', m. repeat split; try assumption; constructor.
  - specialize (IH Hm). assert (Hn : ~ forward k num (k', l)) by (intros [_ ?]; contradiction).
    destruct (label_f true k num m) as [l' |]; [| constructor; assumption].
    destruct IH as (m1 & k1 & m2 & -> & H1 & H2). exists ((k', l) :: m1), k1, m2. repeat split; try apply H1.
    constructor; assumption.
Qed.

Lemma label_f_nearest k num m :
  sorted m ->
  match label_f false k num m with
  | Some l => exists m1 k' m2, m = m1 ++ (k', l) :: m2 /\ forward k num (k', l) /\ Forall (fun e => ~ forward k num e) m1
  | None => Forall (fun e => ~ forward k num e) m
  end.
Proof.
  unfold sorted. induction m as [| [k' l] m IH]; intros Hs; [constructor |].
  inversion Hs as [| ? ? Hs' Hall]; subst. destruct (key_ltb k k') eqn:E.
  - change (label_f false k num ((k', l) :: m)) with
      (let found := false || key_ltb k k' in
       if found && (lb_num l =? num) then Some l else label_f found k num m). rewrite E.
    assert (Hf : Forall (fun e => key_lt k e.1) ((k', l) :: m)).
    { constructor; [exact E |]. eapply Forall_impl; [exact Hall |]. intros x Hx. eapply key_lt_trans; [exact E | exact Hx]. }
    exact (label_f_found k num ((k', l) :: m) Hf).
  - cbn. rewrite E. cbn. specialize (IH Hs'). assert (Hn : ~ forward k num (k', l)) by (intros [H _]; unfold key_lt in H; cbn in H; congruence).
    destruct (label_f false k num m) as [l' |]; [| constructor; assumption].
    destruct IH as (m1 & k1 & m2 & -> & H1 & H2). exists ((k', l) :: m1), k1, m2. repeat split; try apply H1.
    constructor; assumption.
Qed.

Lemma label_b_nearest found k num m :
  sorted m ->
  match label_b found k num m with
  | Some l => (found = Some l /\ Forall (fun e => ~ backward k num e) m) \/
      exists m1 k' m2, m = m1 ++ (k', l) :: m2 /\ backward k num (k', l) /\ Forall (fun e => ~ backward k num e) m2
  | None => found = None /\ Forall (fun e => ~ backward k num e) m
  end.
Proof.
  unfold sorted. revert found. induction m as [| [k' l] m IH]; intros found Hs.
  { cbn. destruct found; auto. }
  inversion Hs as [| ? ? Hs' Hall]; subst. cbn. destruct (key_ltb k k') eqn:E.
  - assert (Hf : Forall (fun e => ~ backward k num e) ((k', l) :: m)).
    { constructor; [intros [H _]; exact (H E) |]. eapply Forall_impl; [exact Hall |].
      intros x Hx [H _]. apply H. eapply key_lt_trans; [exact E | exact Hx]. }
    destruct found; auto.
  - assert (Hk : ~ key_lt k k') by (unfold key_lt; congruence).
    specialize (IH (if lb_num l =? num then Some l else found) Hs').
    destruct (Z.eqb_spec (lb_num l) num) as [En | En].
    + destruct (label_b (Some l) k num m) as [l' |]; [| destruct IH; discriminate].
      right. destruct IH as [[[= <-] Hm] | (m1 & k1 & m2 & -> & H1 & H2)].
      * exists [], k', m. repeat split; assumption.
      * exists ((k', l) :: m1), k1, m2. repeat split; try assumption; apply H1.
    + assert (Hn : ~ backward k num (k', l)) by (intros [_ ?]; contradiction).
      destruct (label_b found k num m) as [l' |].
      * destruct IH as [[Ef Hm] | (m1 & k1 & m2 & -> & H1 & H2)]; [left; auto |].
        right. exists ((k', l) :: m1), k1, m2. repeat split; try assumption; apply H1.
      * destruct IH. auto.
Qed.

(** ** Decimal numbers *)
Lemma pretty_N_char_digit x : (x < 10)%N ->
  is_digit (pretty_N_char x) = true /\ Z.of_nat (nat_of_ascii (pretty_N_char x)) - 48 = Z.of_N x.
Proof.
  intros Hx. assert (x = 0 \/ x = 1 \/ x = 2 \/ x = 3 \/ x = 4 \/ x = 5 \/ x = 6 \/ x = 7 \/ x = 8 \/ x = 9)%N as H by lia.
  repeat destruct H as [-> | H]; try subst x; split; reflexivity.
Qed.

Definition digits_value (acc : Z) (ds : list ascii) : Z :=
  fold_left (fun n d => 10 * n + (Z.of_nat (nat_of_ascii d) - 48)) ds acc.

Lemma pretty_N_go_digits x s : exists ds,
  list_ascii_of_string (pretty_N_go x s) = ds ++ list_ascii_of_string s /\ forallb is_digit ds = true /\
  digits_value 0 ds = Z.of_N x /\ (0 < x -> ds <> [])%N.
Proof.
  revert s. induction (N.lt_wf_0 x) as [x _ IH]; intros s. destruct (N.eq_dec x 0%N) as [-> | Hx].
  - exists []. rewrite pretty_N_go_0. repeat split. lia.
  - rewrite pretty_N_go_step by lia.
    destruct (IH (x / 10)%N ltac:(apply N.div_lt; lia) (String (pretty_N_char (x mod 10)%N) s)) as (ds & E & Hd & Hv & _).
    pose proof (N.mod_lt x 10%N ltac:(lia)) as Hm. destruct (pretty_N_char_digit (x mod 10)%N Hm) as [Hc Hcv].
    exists (ds ++ [pretty_N_char (x mod 10)%N]). split; [rewrite E, <- app_assoc; reflexivity |].
    split; [rewrite forallb_app, Hd; cbn; rewrite Hc; reflexivity |].
    split; [| intros _; destruct ds; discriminate].
    unfold digits_value in *. rewrite fold_left_app, Hv. cbn [fold_left]. rewrite Hcv.
    pose proof (N.div_mod x 10%N ltac:(lia)). lia.
Qed.

Lemma pretty_digits n : 0 <= n -> exists ds,
  list_ascii_of_string (pretty n) = ds /\ forallb is_digit ds = true /\ digits_value 0 ds = n /\ ds <> [].
Proof.
  intros Hn. destruct n as [| p | p]; [exists ["0"%char]; repeat split; discriminate | | lia].
  change (pretty (Z.pos p)) with (pretty (N.pos p)). unfold pretty, pretty_N.
  destruct (decide (N.pos p = 0)%N); [discriminate |].
  destruct (pretty_N_go_digits (N.pos p) "") as (ds & E & Hd & Hv & Hne). rewrite app_nil_r in E.
  exists ds. repeat split; try assumption. apply Hne. lia.
Qed.

Lemma list_ascii_app s t : list_ascii_of_string (s +:+ t) = list_ascii_of_string s ++ list_ascii_of_string t.
Proof. induction s as [| c s IH]; [reflexivity |]. change (c :: list_ascii_of_string (s +:+ t) = c :: list_ascii_of_string s ++ list_ascii_of_string t). rewrite IH. reflexivity. Qed.

(** The names [<n>f] and [<n>b] are the local labels. *)
Lemma lookup_label_local k n a :
  0 <= n < 2 ^ 63 ->
  lookup_label k (pretty n +:+ "f") a = lookup_label_f k n a /\
  lookup_label k (pretty n +:+ "b") a = lookup_label_b k n a.
Proof.
  intros Hn. destruct (pretty_digits n ltac:(lia)) as (ds & E & Hd & Hv & Hne).
  assert (Hs : forall c, split_local (pretty n +:+ String c "") = Some (ds, c)).
  { intros c. unfold split_local. rewrite list_ascii_app, E. cbn [list_ascii_of_string]. rewrite rev_app_distr.
    destruct (rev ds) as [| d r] eqn:Er; [destruct Hne; rewrite <- (rev_involutive ds), Er; reflexivity |].
    change (Some (rev (d :: r), c) = Some (ds, c)). rewrite <- Er, rev_involutive. reflexivity. }
  assert (Hval : s64 (strtoull ds) = n).
  { unfold strtoull. fold (digits_value 0 ds). rewrite Hv, Z.min_r by lia. apply swrap_small; lia. }
  split; unfold lookup_label, check_local; rewrite Hs, Hd, Hval; reflexivity.
Qed.

(** ** The search for a fresh name ends *)
Lemma num_label_inj num i j : num_label num i = num_label num j -> i = j.
Proof.
  unfold num_label. intros E. apply (inj (String.append ".L")) in E.
  apply (inj (String.append (pretty num))) in E. apply (inj pretty) in E. exact E.
Qed.

Lemma add_label_num_fresh fuel num i a :
  (forall j, i <= j < i + Z.of_nat fuel -> is_Some (labels_byname a !! num_label num j)) \/
  exists j, i <= j < i + Z.of_nat fuel /\ labels_byname a !! num_label num j = None /\
    (forall j', i <= j' < j -> is_Some (labels_byname a !! num_label num j')) /\
    exists b, add_label (num_label num j) a = Some (b, List.length (labels a)) /\
    add_label_num fuel num i a =
      Some (set_labels b (alter (fun x => mkLabel (lb_name x) (lb_offset x) num) (List.length (labels a)) (labels b))
              (labels_byoffset b) (labels_byname b), List.length (labels a)).
Proof.
  revert i. induction fuel as [| fuel IH]; intros i; [left; lia |]. cbn [add_label_num].
  destruct (labels_byname a !! num_label num i) eqn:E.
  - destruct (IH (i + 1)) as [H | (j & Hj & En & Hall & Hb)].
    + left. intros j Hj. destruct (Z.eq_dec j i) as [-> |]; [rewrite E; eauto | apply H; lia].
    + right. exists j. split; [lia |]. split; [exact En |]. split; [| exact Hb].
      intros j' Hj'. destruct (Z.eq_dec j' i) as [-> |]; [rewrite E; eauto | apply Hall; lia].
  - right. exists i. split; [lia |]. split; [exact E |]. split; [lia |].
    unfold add_label, new_label. rewrite E. eexists. split; reflexivity.
Qed.

(** There are more names to try than labels. *)
Lemma names_bound num i n (m : gmap string nat) :
  (forall j, i <= j < i + Z.of_nat n -> is_Some (m !! num_label num j)) -> (n <= size m)%nat.
Proof.
  intros H. set (names := map (fun x => num_label num (i + Z.of_nat x)) (seq 0 n)).
  assert (Hn : NoDup names).
  { apply NoDup_fmap_2_strong; [| apply NoDup_seq]. intros x y _ _ E. apply num_label_inj in E. lia. }
  replace n with (size (list_to_set names : gset string)).
  - rewrite <- size_dom. apply subseteq_size. intros x Hx. apply elem_of_list_to_set, list_elem_of_In, in_map_iff in Hx.
    destruct Hx as (y & <- & Hy). apply in_seq in Hy. apply elem_of_dom, H. lia.
  - rewrite size_list_to_set by exact Hn. unfold names. rewrite length_map, length_seq. reflexivity.
Qed.
