(* ===== verification/AssemblerInv.v ===== *)
(** * AssemblerInv: the invariant of the assembler's state.

    Sections and labels are named uniquely, the maps and the objects they
    point to agree, labels and relocations lie in their sections, and the maps
    by offset are sorted.  Every operation preserves it. *)

From Stdlib Require Import ZArith Lia Bool List String Ascii Sorted.
From stdpp Require Import base numbers list gmap strings pretty.
From S2P Require Import Prelude Operand Meta Decode Encode Codec Alu Assembler AssemblerLabels.

Definition byte (b : Z) : Prop := 0 <= b < 256.

(** A place in a section, its end included. *)
Definition placed (ss : list section) (k : key) : Prop :=
  exists s, ss !! Z.to_nat k.1 = Some s /\ 0 <= k.1 /\ 0 <= k.2 <= Z.of_nat (length (sec_buf s)).

(** The map of names of a list of objects. *)
Definition indexes {A} (name : A -> string) (l : list A) (m : gmap string nat) : Prop :=
  forall n i, m !! n = Some i <-> exists x, l !! i = Some x /\ name x = n.

Lemma indexes_snoc {A} (name : A -> string) l m x :
  indexes name l m -> m !! name x = None -> indexes name (l ++ [x]) (<[name x := length l]> m).
Proof.
  intros H Hn n i. rewrite lookup_insert. destruct (decide (name x = n)) as [<- | Hne].
  - split.
    + intros [= <-]. exists x. split; [apply list_lookup_middle; reflexivity | reflexivity].
    + intros (y & Hy & En). apply lookup_snoc_Some in Hy as [[_ Hy] | [<- _]]; [| reflexivity].
      assert (m !! name x = Some i) by (apply H; eauto). congruence.
  - rewrite (H n i). split; intros (y & Hy & En); exists y; (split; [| exact En]).
    + apply lookup_app_l_Some, Hy.
    + apply lookup_snoc_Some in Hy as [[_ Hy] | [_ <-]]; [exact Hy | contradiction].
Qed.

Record asm_ok (a : assembler) : Prop := {
  ok_current : (current a < length (sections a))%nat;
  ok_sections : indexes sec_name (sections a) (section_map a);
  ok_bytes : Forall (fun s => Forall byte (sec_buf s)) (sections a);
  ok_byname : indexes lb_name (labels a) (labels_byname a);
  ok_byoffset : forall k i, In (k, i) (labels_byoffset a) -> exists l, labels a !! i = Some l /\ lb_offset l = k;
  ok_places : forall i l, labels a !! i = Some l -> (lb_offset l).1 = SHN_ABS \/ placed (sections a) (lb_offset l);
  ok_labels_sorted : sorted (labels_byoffset a);
  ok_relocs_sorted : sorted (relocs_byoffset a);
  ok_relocs : forall k r, In (k, r) (relocs_byoffset a) -> placed (sections a) k }.

(** ** Sections *)

(** Sections of the same names that are no shorter. *)
Definition section_le (s s' : section) : Prop :=
  sec_name s' = sec_name s /\ (length (sec_buf s) <= length (sec_buf s'))%nat.

Lemma placed_le ss ss' k : Forall2 section_le ss ss' -> placed ss k -> placed ss' k.
Proof.
  intros H (s & Hs & H1 & H2). destruct (Forall2_lookup_l _ _ _ _ _ H Hs) as (s' & Hs' & _ & Hl).
  exists s'. split; [exact Hs' |]. lia.
Qed.

Lemma set_sections_ok a ss :
  asm_ok a -> Forall2 section_le (sections a) ss -> Forall (fun s => Forall byte (sec_buf s)) ss ->
  asm_ok (set_sections a ss).
Proof.
  intros [H1 H2 H3 H4 H5 H6 H7 H8 H9] Hle Hb. pose proof (Forall2_length _ _ _ Hle) as Hlen.
  split; cbn; try assumption; [lia | | |].
  - intros n i. rewrite (H2 n i). split; intros (s & Hs & En).
    + destruct (Forall2_lookup_l _ _ _ _ _ Hle Hs) as (s' & Hs' & E & _). exists s'. split; congruence.
    + destruct (Forall2_lookup_r _ _ _ _ _ Hle Hs) as (s' & Hs' & E & _). exists s'. split; congruence.
  - intros i l Hl. destruct (H6 i l Hl); [left; assumption | right; eapply placed_le; eassumption].
  - intros k r Hr. eapply placed_le; [exact Hle | eauto].
Qed.

Lemma section_le_refl s : section_le s s.
Proof. split; [reflexivity | lia]. Qed.

Lemma put_section_buf_ok i b a :
  asm_ok a -> (length (section_buf a i) <= length b)%nat -> Forall byte b -> asm_ok (put_section_buf i b a).
Proof.
  intros Ha Hl Hb. pose proof (ok_bytes _ Ha) as Hbs. apply set_sections_ok; [exact Ha | |].
  - apply Forall2_lookup. intros j. unfold section_buf in Hl. destruct (decide (j = i)) as [-> | Hj].
    + rewrite list_lookup_alter_eq. destruct (sections a !! i); constructor. split; [reflexivity | exact Hl].
    + rewrite list_lookup_alter_ne by congruence. destruct (sections a !! j); constructor. apply section_le_refl.
  - apply Forall_alter; [exact Hbs |]. intros s _ _. exact Hb.
Qed.

Lemma section_buf_bytes i a : asm_ok a -> Forall byte (section_buf a i).
Proof.
  intros Ha. unfold section_buf. destruct (sections a !! i) as [s |] eqn:E; [| constructor].
  exact (Forall_lookup_1 _ _ _ _ (ok_bytes _ Ha) E).
Qed.

Lemma le_bytes_byte n d : Forall byte (le_bytes n d).
Proof. apply List.Forall_forall. intros b Hb. apply in_map_iff in Hb as (i & <- & _). apply (wrap_range 8). lia. Qed.

Lemma append_bytes_ok b a : Forall byte b -> asm_ok a -> asm_ok (put_section_buf (current a) (section_buf a (current a) ++ b) a).
Proof.
  intros Hb Ha. apply put_section_buf_ok; [exact Ha | rewrite length_app; lia |].
  apply Forall_app. split; [apply section_buf_bytes, Ha | exact Hb].
Qed.

Lemma append_ok n d a : asm_ok a -> asm_ok (append n d a).
Proof. apply append_bytes_ok, le_bytes_byte. Qed.

Lemma add_inst_ok inst a : asm_ok a -> asm_ok (add_inst inst a).
Proof.
  intros Ha. unfold add_inst. apply switch_ind; [exact Ha |].
  repeat apply Forall_cons_2; try apply Forall_nil_2; intros _; cbn; repeat apply append_ok; exact Ha.
Qed.

Lemma balign_ok n a : asm_ok a -> asm_ok (balign n a).
Proof.
  intros Ha. unfold balign. destruct (negb _); [exact Ha |]. cbv zeta. destruct (_ =? 0); [exact Ha |].
  apply append_bytes_ok; [| exact Ha].
  apply List.Forall_forall. intros b Hb. apply repeat_spec in Hb. subst b. split; [lia | reflexivity].
Qed.

Lemma p2align_ok s a a' : asm_ok a -> p2align s a = Some a' -> asm_ok a'.
Proof. unfold p2align. intros Ha. destruct (_ <? _); [intros [= <-]; apply balign_ok, Ha | discriminate]. Qed.

Lemma load_imm_ok rd v a a' : asm_ok a -> load_imm rd v a = Some a' -> asm_ok a'.
Proof.
  unfold load_imm. intros Ha. destruct (load_imm_insts rd v) as [code |]; [| discriminate]. intros [= <-].
  revert a Ha. induction code as [| i code IH]; intros a Ha; [exact Ha |]. apply IH, add_inst_ok, Ha.
Qed.

Lemma get_section_ok name a : asm_ok a -> asm_ok (get_section name a).
Proof.
  intros Ha. pose proof Ha as [H1 H2 H3 H4 H5 H6 H7 H8 H9]. unfold get_section.
  destruct (section_map a !! name) as [i |] eqn:E.
  - apply H2 in E as (s & Hs & _). apply lookup_lt_Some in Hs. split; cbn; assumption.
  - assert (Hold : forall k, placed (sections a) k -> placed (sections a ++ [mkSection 0 name []]) k).
    { intros k (s & Hs & Hk). exists s. split; [apply lookup_app_l_Some, Hs | exact Hk]. }
    split; cbn; try assumption.
    + rewrite length_app. cbn. lia.
    + exact (indexes_snoc sec_name _ _ (mkSection 0 name []) H2 E).
    + apply Forall_app. split; [exact H3 |]. repeat constructor.
    + intros i l Hl. destruct (H6 i l Hl); auto.
    + eauto.
Qed.

Lemma exports_ok s w a : asm_ok a -> asm_ok (set_exports a s w).
Proof. intros [H1 H2 H3 H4 H5 H6 H7 H8 H9]. split; assumption. Qed.

(** ** Labels and relocations *)
Lemma current_placed a : asm_ok a -> placed (sections a) (current_offset a).
Proof.
  intros Ha. destruct (lookup_lt_is_Some_2 _ _ (ok_current _ Ha)) as [s Hs]. exists s.
  unfold current_offset, section_buf. cbn [fst snd]. rewrite Nat2Z.id, Hs. split; [reflexivity | lia].
Qed.

Lemma new_label_ok name k a a' i :
  asm_ok a -> k.1 = SHN_ABS \/ placed (sections a) k -> new_label name k a = Some (a', i) -> asm_ok a'.
Proof.
  intros Ha Hk. pose proof Ha as [H1 H2 H3 H4 H5 H6 H7 H8 H9]. unfold new_label.
  destruct (labels_byname a !! name) eqn:E; [discriminate |]. intros [= <- <-].
  split; cbn; try assumption.
  - exact (indexes_snoc lb_name _ _ (mkLabel name k 0) H4 E).
  - intros k' j Hj. apply map_assign_in in Hj as [[= -> ->] | Hj].
    + exists (mkLabel name k 0). split; [apply list_lookup_middle; reflexivity | reflexivity].
    + destruct (H5 _ _ Hj) as (l & Hl & El). exists l. split; [apply lookup_app_l_Some, Hl | exact El].
  - intros j l Hl. apply lookup_snoc_Some in Hl as [[_ Hl] | [_ <-]]; [eauto | exact Hk].
  - apply map_assign_sorted, H7.
Qed.

Lemma add_label_ok name a a' i : asm_ok a -> add_label name a = Some (a', i) -> asm_ok a'.
Proof. intros Ha. apply new_label_ok; [exact Ha | right; apply current_placed, Ha]. Qed.

Lemma add_constant_ok name v a a' i : asm_ok a -> add_constant name v a = Some (a', i) -> asm_ok a'.
Proof. intros Ha. apply new_label_ok; [exact Ha | left; reflexivity]. Qed.

(** [l->num = num]. *)
Lemma number_label_ok num i a :
  asm_ok a ->
  asm_ok (set_labels a (alter (fun x => mkLabel (lb_name x) (lb_offset x) num) i (labels a)) (labels_byoffset a) (labels_byname a)).
Proof.
  intros [H1 H2 H3 H4 H5 H6 H7 H8 H9].
  assert (L : forall j, exists f, alter (fun x => mkLabel (lb_name x) (lb_offset x) num) i (labels a) !! j = f <$> labels a !! j /\
    forall x, lb_name (f x) = lb_name x /\ lb_offset (f x) = lb_offset x).
  { intros j. destruct (decide (j = i)) as [-> | Hj].
    - eexists. split; [apply list_lookup_alter_eq |]. intros x. split; reflexivity.
    - exists id. rewrite list_lookup_alter_ne, option_fmap_id by congruence. split; [reflexivity |]. intros x. split; reflexivity. }
  split; cbn; try assumption.
  - intros n j. rewrite (H4 n j). destruct (L j) as (f & -> & Hf). split.
    + intros (l & -> & <-). exists (f l). split; [reflexivity | apply Hf].
    + intros (l & Hl & <-). apply fmap_Some in Hl as (x & Hx & ->). exists x. split; [exact Hx | symmetry; apply Hf].
  - intros k j Hj. destruct (H5 k j Hj) as (l & Hl & El). destruct (L j) as (f & -> & Hf). exists (f l).
    rewrite Hl. split; [reflexivity |]. rewrite (proj2 (Hf l)). exact El.
  - intros j l Hl. destruct (L j) as (f & E & Hf). rewrite E in Hl. apply fmap_Some in Hl as (x & Hx & ->).
    rewrite (proj2 (Hf x)). exact (H6 j x Hx).
Qed.

Lemma add_label_num_ok fuel num i a a' l : asm_ok a -> add_label_num fuel num i a = Some (a', l) -> asm_ok a'.
Proof.
  intros Ha. revert i. induction fuel as [| fuel IH]; intros i; cbn [add_label_num]; [discriminate |].
  destruct (labels_byname a !! num_label num i); [apply IH |].
  destruct (add_label (num_label num i) a) as [[b j] |] eqn:E; [| discriminate]. intros [= <- <-].
  apply number_label_ok. eapply add_label_ok; eassumption.
Qed.

Lemma set_relocs_ok k r a :
  asm_ok a -> placed (sections a) k -> asm_ok (set_relocs a (map_assign k r (relocs_byoffset a))).
Proof.
  intros [H1 H2 H3 H4 H5 H6 H7 H8 H9] Hk. split; cbn; try assumption; [apply map_assign_sorted, H8 |].
  intros k' r' Hr. apply map_assign_in in Hr as [[= -> ->] | Hr]; [exact Hk | eauto].
Qed.

Lemma add_reloc_ok name t a a' : asm_ok a -> add_reloc name t a = Some a' -> asm_ok a'.
Proof.
  intros Ha. unfold add_reloc. destruct (map_find _ _); [discriminate |]. intros [= <-].
  apply set_relocs_ok; [exact Ha | apply current_placed, Ha].
Qed.

(** ** Linking *)
Lemma layout_sections_le offset ss : Forall2 section_le ss (layout_sections offset ss).
Proof. revert offset. induction ss as [| s ss IH]; intros o; constructor; [split; [reflexivity | cbn; lia] | apply IH]. Qed.

Lemma layout_sections_bytes offset ss :
  Forall (fun s => Forall byte (sec_buf s)) ss -> Forall (fun s => Forall byte (sec_buf s)) (layout_sections offset ss).
Proof. revert offset. induction ss as [| s ss IH]; intros o H; [constructor |]. inversion_clear H. constructor; [assumption | apply IH; assumption]. Qed.

#[local] Opaque decode_inst_rv64 encode_inst.

(** What is written over a part of a buffer leaves its length. *)
Definition same_shape (b b' : list Z) : Prop := length b' = length b /\ (Forall byte b -> Forall byte b').

Lemma buf_write_shape b off n d b' : 0 <= off -> buf_write b off (le_bytes n d) = Some b' -> same_shape b b'.
Proof.
  unfold buf_write. intros Ho. destruct (Z.leb_spec (off + Z.of_nat (length (le_bytes n d))) (Z.of_nat (length b))); [| discriminate].
  intros [= <-]. split.
  - rewrite !length_app, length_firstn, length_skipn. lia.
  - intros Hb. apply Forall_app. split; [apply Forall_take, Hb |].
    apply Forall_app. split; [apply le_bytes_byte | apply Forall_drop, Hb].
Qed.

Lemma same_shape_refl b : same_shape b b.
Proof. split; auto. Qed.

Lemma same_shape_trans b1 b2 b3 : same_shape b1 b2 -> same_shape b2 b3 -> same_shape b1 b3.
Proof. intros [E1 F1] [E2 F2]. split; [congruence | auto]. Qed.

Lemma reencode_shape d b off b' : 0 <= off -> reencode_inst d b off = Some b' -> same_shape b b'.
Proof.
  unfold reencode_inst. intros Ho. destruct (encode_inst d) as [inst |]; [| discriminate]. cbn [mbind option_bind].
  apply switch_ind; [intros [= <-]; apply same_shape_refl |].
  repeat apply Forall_cons_2; try apply Forall_nil_2; intros _; exact (buf_write_shape _ _ _ _ _ Ho).
Qed.

Lemma apply_fixup_shape f b off d n b' ok :
  0 <= off -> 0 <= n -> apply_fixup f b off d n = Some (b', ok) -> same_shape b b'.
Proof.
  intros Ho Hn. unfold apply_fixup, mbind, option_bind. destruct f as [v | hi lo | m v | |].
  - destruct (reencode_inst (set_imm v d) b off) as [b1 |] eqn:E; intros H; inversion H; subst.
    exact (reencode_shape _ _ _ _ Ho E).
  - destruct (buf_fetch b (off + n)) as [[w m] |]; [| discriminate].
    destruct (reencode_inst _ b (off + n)) as [b2 |] eqn:E2; [| discriminate].
    destruct (reencode_inst _ b2 off) as [b1 |] eqn:E1; intros H; inversion H; subst.
    exact (same_shape_trans _ _ _ (reencode_shape _ _ (off + n) _ ltac:(lia) E2) (reencode_shape _ _ _ _ Ho E1)).
  - destruct (buf_write b off (le_bytes m v)) as [b1 |] eqn:E; intros H; inversion H; subst.
    exact (buf_write_shape _ _ _ _ _ Ho E).
  - intros H; inversion H; subst. apply same_shape_refl.
  - intros H; inversion H; subst. apply same_shape_refl.
Qed.

Lemma buf_fetch_offset b off w n : buf_fetch b off = Some (w, n) -> 0 <= n.
Proof.
  unfold buf_fetch. cbv zeta. destruct (_ && _); [| discriminate]. intros [= E]. revert E. unfold inst_fetch. cbv zeta.
  repeat match goal with |- context [if ?c then _ else _] => destruct c end; intros [= _ <-]; discriminate.
Qed.

Lemma relocate_ok k r a a' ok :
  asm_ok a -> placed (sections a) k -> relocate k r a = Some (a', ok) ->
  asm_ok a' /\ Forall2 section_le (sections a) (sections a').
Proof.
  intros Ha Hk. unfold relocate. destruct (lookup_label k (rl_name r) a) as [l |].
  2: { intros [= <- <-]. split; [exact Ha |]. apply Forall_Forall2_diag, Forall_true. intros s. apply section_le_refl. }
  set (a1 := set_relocs a _). assert (Ha1 : asm_ok a1) by (apply set_relocs_ok; assumption).
  destruct (label_target l a1) as [lo |]; [| intros [=]]. destruct (reloc_offset k a1) as [ro |]; [| intros [=]].
  cbn [mbind option_bind]. destruct (buf_fetch _ k.2) as [[inst n] |] eqn:Ef; [| intros [=]]. cbn [mbind option_bind].
  destruct (fixup_of a1 k (rl_type r) lo ro) as [f |]; [| intros [=]]. cbn [mbind option_bind].
  destruct (apply_fixup f _ k.2 _ n) as [[b ok'] |] eqn:Eb; [| intros [=]]. cbn [mbind option_bind]. intros [= <- <-].
  pose proof Hk as (s & Hs & _ & Hk2).
  destruct (apply_fixup_shape _ _ _ _ _ _ _ (proj1 Hk2) (buf_fetch_offset _ _ _ _ Ef) Eb) as [Hl Hb].
  assert (Hok : asm_ok (put_section_buf (Z.to_nat k.1) b a1)).
  { apply put_section_buf_ok; [exact Ha1 | rewrite Hl; reflexivity | apply Hb, section_buf_bytes, Ha1]. }
  split; [exact Hok |]. cbn. apply Forall2_lookup. intros j. destruct (decide (j = Z.to_nat k.1)) as [-> | Hj].
  - rewrite list_lookup_alter_eq, Hs. constructor. split; [reflexivity |]. cbn. rewrite Hl.
    unfold section_buf. cbn. rewrite Hs. reflexivity.
  - rewrite list_lookup_alter_ne by congruence. destruct (sections a !! j); constructor. apply section_le_refl.
Qed.

Lemma map_find_in {A} k (v : A) m : map_find k m = Some v -> In (k, v) m.
Proof.
  induction m as [| [k' v'] m IH]; [discriminate |]. cbn. destruct (key_eqb k k') eqn:E; [| auto].
  apply key_eqb_eq in E. subst k'. intros [= ->]. auto.
Qed.

Lemma relocate_all_ok rs a a' n : asm_ok a -> relocate_all rs a = Some (a', n) -> asm_ok a'.
Proof.
  revert a n. induction rs as [| [k r0] rs IH]; intros a n Ha; cbn [relocate_all]; [intros [= <- _]; exact Ha |].
  destruct (map_find k (relocs_byoffset a)) as [r |] eqn:E; [| intros [=]].
  destruct (relocate k r a) as [[a1 ok] |] eqn:E1; [| intros [=]]. cbn [mbind option_bind].
  destruct (relocate_all rs a1) as [[a2 m] |] eqn:E2; [| intros [=]]. cbn [mbind option_bind]. intros [= <- _].
  eapply IH; [| exact E2]. eapply relocate_ok; [exact Ha | | exact E1].
  eapply ok_relocs; [exact Ha | apply map_find_in, E].
Qed.

Lemma link_ok a a' n : asm_ok a -> link a = Some (a', n) -> asm_ok a'.
Proof.
  intros Ha. unfold link. cbv zeta. apply relocate_all_ok. apply set_sections_ok; [exact Ha | |].
  - apply layout_sections_le.
  - apply layout_sections_bytes, Ha.
Qed.

(** ** The operations as steps *)
Inductive asm_step : assembler -> assembler -> Prop :=
  | step_section n a : asm_step a (get_section n a)
  | step_global l a : asm_step a (global l a)
  | step_weak l a : asm_step a (weak l a)
  | step_append n d a : asm_step a (append n d a)
  | step_inst i a : asm_step a (add_inst i a)
  | step_balign n a : asm_step a (balign n a)
  | step_p2align s a a' : p2align s a = Some a' -> asm_step a a'
  | step_load_imm rd v a a' : load_imm rd v a = Some a' -> asm_step a a'
  | step_label n a a' l : add_label n a = Some (a', l) -> asm_step a a'
  | step_constant n v a a' l : add_constant n v a = Some (a', l) -> asm_step a a'
  | step_label_num fuel num a a' l : add_label_num fuel num 1 a = Some (a', l) -> asm_step a a'
  | step_reloc n t a a' : add_reloc n t a = Some a' -> asm_step a a'
  | step_link a a' n : link a = Some (a', n) -> asm_step a a'.

Lemma asm_step_ok a a' : asm_step a a' -> asm_ok a -> asm_ok a'.
Proof.
  intros H Ha. destruct H as [n a | l a | l a | n d a | i a | n a | s a a' E | rd v a a' E | n a a' l E | n v a a' l E
    | fuel num a a' l E | n t a a' E | a a' n E].
  - exact (get_section_ok _ _ Ha).
  - exact (exports_ok _ _ _ Ha).
  - exact (exports_ok _ _ _ Ha).
  - exact (append_ok _ _ _ Ha).
  - exact (add_inst_ok _ _ Ha).
  - exact (balign_ok _ _ Ha).
  - exact (p2align_ok _ _ _ Ha E).
  - exact (load_imm_ok _ _ _ _ Ha E).
  - exact (add_label_ok _ _ _ _ Ha E).
  - exact (add_constant_ok _ _ _ _ _ Ha E).
  - exact (add_label_num_ok _ _ _ _ _ _ Ha E).
  - exact (add_reloc_ok _ _ _ _ Ha E).
  - exact (link_ok _ _ _ Ha E).
Qed.

Lemma indexes_nil {A} (name : A -> string) : indexes name [] ∅.
Proof. intros n i. rewrite lookup_empty, lookup_nil. split; [discriminate | intros (x & E & _); discriminate]. Qed.

Lemma assembler_init_ok : asm_ok assembler_init.
Proof.
  assert (H0 : asm_ok (mkAssembler [mkSection 0 "" []] (<["" := 0%nat]> ∅) [] [] ∅ [] [] [] 0)).
  { split; cbn.
    - lia.
    - exact (indexes_snoc sec_name [] ∅ (mkSection 0 "" []) (indexes_nil _) eq_refl).
    - repeat constructor.
    - apply indexes_nil.
    - intros k i [].
    - intros i l Hl. rewrite lookup_nil in Hl. discriminate.
    - constructor.
    - constructor.
    - intros k r []. }
  exact (get_section_ok ".text" _ H0).
Qed.

(** ** Labels by offset *)

(** The label is the one found at its offset. *)
Definition mapped (a : assembler) (l : label) : Prop :=
  exists i, In (lb_offset l, i) (labels_byoffset a) /\ labels a !! i = Some l.

Lemma deref_in a m k l : In (k, l) (deref a m) <-> exists i, In (k, i) m /\ labels a !! i = Some l.
Proof.
  unfold deref. rewrite <- list_elem_of_In, list_elem_of_omap. split.
  - intros ([k' i] & Hi & E). cbn in E. destruct (labels a !! i) as [l' |] eqn:El; [| discriminate]. injection E as <- <-.
    exists i. split; [apply list_elem_of_In, Hi | exact El].
  - intros (i & Hi & El). exists (k, i). split; [apply list_elem_of_In, Hi |]. cbn. rewrite El. reflexivity.
Qed.

Lemma deref_sorted a m : sorted m -> sorted (deref a m).
Proof.
  unfold sorted, deref. induction 1 as [| [k i] m Hs IH Hall]; cbn; [constructor |].
  destruct (labels a !! i) as [l |]; [| exact IH]. constructor; [exact IH |].
  apply List.Forall_forall. intros [k' l'] Hx. apply deref_in in Hx as (i' & Hi & _).
  rewrite List.Forall_forall in Hall. exact (Hall _ Hi).
Qed.

Lemma deref_mapped a e : asm_ok a -> In e (deref a (labels_byoffset a)) <-> mapped a e.2 /\ lb_offset e.2 = e.1.
Proof.
  intros Ha. destruct e as [k l]. rewrite deref_in. cbn. split.
  - intros (i & Hi & El). destruct (ok_byoffset _ Ha _ _ Hi) as (l' & El' & <-). replace l' with l in * by congruence.
    split; [exists i; auto | reflexivity].
  - intros ((i & Hi & El) & <-). eauto.
Qed.

(** What [lookup_label_f] and [lookup_label_b] find. *)
Section Nearest.
Context (a : assembler) (Ha : asm_ok a) (k : key) (n : Z).
Abbreviation m := (deref a (labels_byoffset a)).

Lemma sorted_split m1 e m2 : m = m1 ++ e :: m2 ->
  Forall (fun x => key_lt x.1 e.1) m1 /\ Forall (fun x => key_lt e.1 x.1) m2.
Proof using Ha.
  intros E. pose proof (deref_sorted a _ (ok_labels_sorted _ Ha)) as Hs. rewrite E in Hs. unfold sorted in Hs. clear E.
  induction m1 as [| x m1 IH]; cbn in Hs; inversion Hs as [| ? ? Hs' Hall]; subst; [split; [constructor | exact Hall] |].
  destruct (IH Hs') as [H1 H2]. split; [| exact H2]. constructor; [| exact H1].
  rewrite List.Forall_forall in Hall. apply Hall, in_or_app. right. left. reflexivity.
Qed.

Lemma mapped_in l : mapped a l -> In (lb_offset l, l) m.
Proof using Ha. intros Hl. apply (deref_mapped a (lb_offset l, l) Ha). auto. Qed.

Lemma lookup_label_f_nearest :
  match lookup_label_f k n a with
  | Some l => mapped a l /\ lb_num l = n /\ key_lt k (lb_offset l) /\
      forall l', mapped a l' -> lb_num l' = n -> key_lt k (lb_offset l') -> ~ key_lt (lb_offset l') (lb_offset l)
  | None => forall l', mapped a l' -> lb_num l' = n -> ~ key_lt k (lb_offset l')
  end.
Proof using Ha.
  pose proof (label_f_nearest k n m (deref_sorted a _ (ok_labels_sorted _ Ha))) as H. unfold lookup_label_f.
  destruct (label_f false k n m) as [l |].
  - destruct H as (m1 & k' & m2 & E & [Hk Hn] & Hno). cbn in Hk, Hn. destruct (sorted_split _ _ _ E) as [_ H2].
    destruct (proj1 (deref_mapped a (k', l) Ha)) as [Hm Hoff]; [rewrite E; apply in_or_app; right; left; reflexivity |].
    cbn in Hm, Hoff. subst k'. split; [exact Hm |]. split; [exact Hn |]. split; [exact Hk |].
    intros l' Hl' Hn' Hk' Hlt. apply mapped_in in Hl'. rewrite E in Hl'.
    apply in_app_or in Hl' as [Hl' | [[= _ <-] | Hl']].
    + rewrite List.Forall_forall in Hno. exact (Hno _ Hl' (conj Hk' Hn')).
    + exact (key_lt_irrefl _ Hlt).
    + rewrite List.Forall_forall in H2. exact (key_lt_irrefl _ (key_lt_trans _ _ _ Hlt (H2 _ Hl'))).
  - intros l' Hl' Hn' Hk'. rewrite List.Forall_forall in H. exact (H _ (mapped_in _ Hl') (conj Hk' Hn')).
Qed.

Lemma lookup_label_b_nearest :
  match lookup_label_b k n a with
  | Some l => mapped a l /\ lb_num l = n /\ ~ key_lt k (lb_offset l) /\
      forall l', mapped a l' -> lb_num l' = n -> ~ key_lt k (lb_offset l') -> ~ key_lt (lb_offset l) (lb_offset l')
  | None => forall l', mapped a l' -> lb_num l' = n -> key_lt k (lb_offset l')
  end.
Proof using Ha.
  pose proof (label_b_nearest None k n m (deref_sorted a _ (ok_labels_sorted _ Ha))) as H. unfold lookup_label_b.
  destruct (label_b None k n m) as [l |].
  - destruct H as [[[=] _] | (m1 & k' & m2 & E & [Hk Hn] & Hno)]. cbn in Hk, Hn. destruct (sorted_split _ _ _ E) as [H1 _].
    destruct (proj1 (deref_mapped a (k', l) Ha)) as [Hm Hoff]; [rewrite E; apply in_or_app; right; left; reflexivity |].
    cbn in Hm, Hoff. subst k'. split; [exact Hm |]. split; [exact Hn |]. split; [exact Hk |].
    intros l' Hl' Hn' Hk' Hlt. apply mapped_in in Hl'. rewrite E in Hl'.
    apply in_app_or in Hl' as [Hl' | [[= _ <-] | Hl']].
    + rewrite List.Forall_forall in H1. exact (key_lt_irrefl _ (key_lt_trans _ _ _ Hlt (H1 _ Hl'))).
    + exact (key_lt_irrefl _ Hlt).
    + rewrite List.Forall_forall in Hno. exact (Hno _ Hl' (conj Hk' Hn')).
  - destruct H as [_ H]. intros l' Hl' Hn'. destruct (key_ltb k (lb_offset l')) eqn:El; [exact El |]. exfalso.
    rewrite List.Forall_forall in H. apply (H _ (mapped_in _ Hl')). split; [cbn; unfold key_lt; congruence | exact Hn'].
Qed.
End Nearest.

(** ** Layout *)
Fixpoint starts (offset : Z) (ss : list section) : list Z :=
  match ss with [] => [] | s :: ss => offset :: starts (offset + Z.of_nat (length (sec_buf s))) ss end.

Lemma layout_starts offset ss : map sec_offset (layout_sections (u64 offset) ss) = map u64 (starts offset ss).
Proof.
  revert offset. induction ss as [| s ss IH]; intros o; [reflexivity |]. cbn [layout_sections starts map]. f_equal.
  rewrite wrap_add_l. apply IH.
Qed.
