(* ===== verification/AssemblerTheorems.v ===== *)
(** * AssemblerTheorems: what the assembler and the linker promise. *)

From Stdlib Require Import ZArith Lia Bool List String Ascii Sorted.
From stdpp Require Import base numbers list gmap strings pretty relations.
From S2P Require Import Prelude Operand Meta Decode Encode Codec CodecSound CodecRound Alu Machine Fpu Interp ExecSpec Model Proxy ExecTheorems Assembler AssemblerSound AssemblerImm AssemblerLink AssemblerLabels AssemblerInv.

#[local] Instance link_demo_mmu : MMU proxy := proxy_mmu 64.

(** ** The state *)

(** C26 Whatever sequence of operations is applied to a new assembler, its
    state is well formed: the current section exists, section and label names
    are unique and the maps find exactly them, every byte is a byte, every
    label not a constant and every relocation lies in its section, and the
    maps by offset are sorted. *)
Theorem assembler_invariant a : rtc asm_step assembler_init a -> asm_ok a.
Proof.
  assert (Hi : forall b c, rtc asm_step b c -> asm_ok b -> asm_ok c).
  { intros b c Hb. induction Hb; eauto using asm_step_ok. }
  intros H. exact (Hi _ _ H assembler_init_ok).
Qed.

Lemma assembler_invariant_witness : asm_ok (add_inst 0x13 (get_section ".data" assembler_init)).
Proof.
  apply assembler_invariant. eapply rtc_l; [apply (step_section ".data") |].
  eapply rtc_l; [apply (step_inst 0x13) | apply rtc_refl].
Defined.

(** ** Constants *)

(** C25 [load_imm] gives code for every 64-bit value, and running the code on
    RV64 leaves in [rd] the value less [load_imm_error]: nothing, or a power
    of two of at least 4096 when the last 32-bit chunk has bit 11 set.  No
    other register changes. *)
Theorem load_imm_spec {P} `{ProcessorLaws P} `{!MMU P} fpu rd val (p : P) :
  0 < rd < 32 -> - 2 ^ 63 <= val < 2 ^ 63 -> length (ireg (base p)) = 32%nat -> ireg (base p) !! 0%nat = Some 0 ->
  exists ws, load_imm_insts rd val = Some ws /\
    exec_words fpu ws p = Ok tt (moved rd (val - load_imm_error val) (Z.of_nat (length ws)) p) /\
    (load_imm_error val = 0 \/ exists s, 0 <= s /\ load_imm_error val = 2 ^ (12 + s)) /\
    (- 2 ^ 31 <= val < 2 ^ 31 -> val mod 4096 < 2048 -> load_imm_error val = 0).
Proof.
  intros Hr Hv Hl H00. destruct (load_imm_runs fpu rd val p) as (ws & E & Hx); [split; assumption | assumption.. |].
  exists ws. split; [exact E |]. split; [exact Hx |]. split; [apply load_imm_error_zero |]. apply load_imm_error_small.
Qed.

Lemma load_imm_spec_witness : exists ws, load_imm_insts 5 0x0123400000000567 = Some ws /\
  exec_words null_fpu ws demo = Ok tt (moved 5 0x0123400000000567 (Z.of_nat (length ws)) demo).
Proof.
  destruct (load_imm_spec null_fpu 5 0x0123400000000567 demo) as (ws & E & Hx & _); [lia | lia | reflexivity | reflexivity |].
  exists ws. split; [exact E | exact Hx].
Defined.

(** [li t0, 0x1800] gives 0x800: the upper part is not rounded up. *)
Example load_imm_0x1800 : load_imm_error 0x1800 = 0x1000.
Proof. reflexivity. Qed.

(** ** Relocations *)

(** C24 A relocation of type JAL, BRANCH, HI20, LO12 or PCREL_HI20 whose value
    fits the instruction replaces the immediate by the value, so that the
    word decodes to the same instruction with that immediate; every other
    instruction, the labels and the layout stay as they were. *)
Theorem relocate_value a k r l x y v w :
  lookup_label k (rl_name r) a = Some l -> label_target l a = Some (u64 x) -> reloc_offset k a = Some (u64 y) ->
  reloc_value (rl_type r) x y = Some v -> at_word a k w ->
  let d := decode_inst_rv64 decode_init w in
  canonical d = true -> word_op (d_op d) = true -> imm_fits (d_op d) v = true ->
  exists a' w', relocate k r a = Some (a', true) /\ patched [k] a a' /\ at_word a' k w' /\
    decode_inst_rv64 decode_init w' = set_imm v d.
Proof.
  intros Hl Ht Hr Hv Hw d Hc Ho Hi. destruct (fixup_value (rl_type r) k x y v Hv) as (u & Hf & Eu).
  destruct (relocate_imm a k r l _ _ w d u Hl Ht Hr Hw eq_refl Hc Ho Hf) as (a' & w' & H1 & H2 & H3 & H4 & _).
  - rewrite Eu, (imm_fits_s32 _ _ Hi). exact Hi.
  - exists a', w'. rewrite <- set_imm_s32, Eu, set_imm_s32 in H4. auto.
Qed.

(** A program: a call of [f], a jump to [f], the address of [f], and [f]. *)
Definition demo_program : assembler :=
  let rel t a := default a (add_reloc "f" t a) in
  let a := add_inst 0x13 assembler_init in
  let a := add_inst 0x280e7 (add_inst 0x297 (rel R_RISCV_CALL a)) in
  let a := add_inst 0x6f (rel R_RISCV_JAL a) in
  let a := add_inst 0x537 (rel R_RISCV_HI20 a) in
  let a := add_inst 0x50513 (rel R_RISCV_LO12_I a) in
  match add_label "f" a with Some (a, _) => add_inst 0x8067 a | None => a end.


Definition word_check (a : assembler) (k : key) (w : Z) : bool :=
  match sections a !! Z.to_nat k.1 with
  | Some s => (0 <=? k.2) && (0 <=? w) && (w <? 2 ^ 32) && (inst_length w =? 4) &&
      bool_decide (firstn 4 (skipn (Z.to_nat k.2) (sec_buf s)) = le_bytes 4 w)
  | None => false
  end.

Lemma word_check_spec a k w : word_check a k w = true -> at_word a k w.
Proof.
  unfold word_check, at_word. destruct (sections a !! Z.to_nat k.1) as [s |]; [| discriminate]. intros H. bool_hyps.
  exists s. unfold word_at. repeat split; try assumption. eapply bool_decide_eq_true; eassumption.
Qed.

#[local] Ltac demo_run := vm_compute; reflexivity.
#[local] Ltac demo_at := apply word_check_spec; vm_compute; reflexivity.

Lemma relocate_value_witness : exists a' w',
  relocate (1, 12) (mkReloc "f" R_RISCV_JAL) demo_program = Some (a', true) /\
  at_word a' (1, 12) w' /\ d_imm (decode_inst_rv64 decode_init w') = 12.
Proof.
  destruct (relocate_value demo_program (1, 12) (mkReloc "f" R_RISCV_JAL) (mkLabel "f" (1, 24) 0) 24 12 12 0x6f)
    as (a' & w' & H1 & _ & H2 & H3); [demo_run | demo_run | demo_run | demo_run | demo_at | demo_run | demo_run | demo_run |].
  exists a', w'. rewrite H3. auto.
Defined.

(** C23 After a CALL relocation with the label at [x] and the pair [auipc],
    [jalr] at [y], in reach of 32 bits, running the two instructions
    anywhere jumps by [x - y] and links the instruction after the pair: the
    linker's immediates, the encoder, the decoder and the interpreter agree. *)
Theorem relocate_call_reaches {P} `{ProcessorLaws P} `{!MMU P} fpu a k r l x y rd1 rd2 w1 w2 :
  lookup_label k (rl_name r) a = Some l -> label_target l a = Some (u64 x) -> reloc_offset k a = Some (u64 y) ->
  rl_type r = R_RISCV_CALL -> in_reach (x - y) -> 0 < rd1 < 32 -> 0 <= rd2 < 32 ->
  at_word a k w1 -> decode_inst_rv64 decode_init w1 = instr rv_op_auipc rd1 0 0 ->
  at_word a (k.1, k.2 + 4) w2 -> decode_inst_rv64 decode_init w2 = instr rv_op_jalr rd2 rd1 0 ->
  exists a' w1' w2', relocate k r a = Some (a', true) /\ patched [k; (k.1, k.2 + 4)] a a' /\
    at_word a' k w1' /\ at_word a' (k.1, k.2 + 4) w2' /\
    forall p : P, length (ireg (base p)) = 32%nat -> Z.even (pc (base p)) = true -> Z.even (x - y) = true ->
    exists q, exec_words fpu [w1'; w2'] p = Ok tt q /\ pc (base q) = u64 (pc (base p) + (x - y)) /\
      (rd2 <> 0 -> ireg (base q) !! Z.to_nat rd2 = Some (u64 (pc (base p) + 8))).
Proof.
  intros Hl Ht Hr Ety Hx Hr1 Hr2 Hw1 Hd1 Hw2 Hd2. destruct (parts_range _ Hx) as (Ph & Pa & Pl).
  destruct (relocate_pair a k r l (u64 x) (u64 y) w1 w2 (instr rv_op_auipc rd1 0 0) (instr rv_op_jalr rd2 rd1 0)
    (hi_part (x - y)) (lo_part (x - y))) as (a' & w1' & w2' & H1 & H2 & H3 & H4 & _ & _ & H5 & H6); try assumption.
  - intros a1. rewrite Ety, fixup_call, u64_sub, upper_reach by exact Hx. rewrite <- (upper_reach _ Hx), lower_reach by exact Hx. reflexivity.
  - apply (instr_canonical _ [0]); [apply auipc_regs | reflexivity | apply auipc_fits; [lia | reflexivity] | lia | left; reflexivity].
  - reflexivity.
  - apply (instr_canonical _ upto32); [apply jalr_regs | reflexivity | apply jalr_fits; lia | lia | apply upto32_spec; lia].
  - reflexivity.
  - apply auipc_fits; assumption.
  - apply jalr_fits, Pl.
  - exists a', w1', w2'. split; [exact H1 |]. split; [exact H2 |]. split; [exact H3 |]. split; [exact H4 |].
    intros p Hlen Hpe He. destruct H3 as (s1 & _ & _ & _ & L1 & _). destruct H4 as (s2 & _ & _ & _ & L2 & _).
    destruct (exec_call_pair fpu rd1 rd2 (hi_part (x - y)) (lo_part (x - y)) w1' w2' p) as (q & E & Epc & Elr);
      try assumption; [split; assumption | split; [apply H5; reflexivity | exact L1] | split; [apply H6; reflexivity | exact L2] | |].
    + replace (hi_part (x - y) + lo_part (x - y)) with (x - y) by (unfold lo_part; lia). exact He.
    + exists q. split; [exact E |]. split; [rewrite Epc; f_equal; unfold lo_part; lia | exact Elr].
Qed.

Lemma relocate_call_reaches_witness : exists a' w1' w2' q,
  relocate (1, 4) (mkReloc "f" R_RISCV_CALL) demo_program = Some (a', true) /\
  exec_words null_fpu [w1'; w2'] demo = Ok tt q /\ pc (base q) = 0x2014.
Proof.
  destruct (relocate_call_reaches null_fpu demo_program (1, 4) (mkReloc "f" R_RISCV_CALL) (mkLabel "f" (1, 24) 0)
    24 4 5 1 0x297 0x280e7) as (a' & w1' & w2' & H1 & _ & _ & _ & Hx);
    [demo_run | demo_run | demo_run | reflexivity | split; [discriminate | reflexivity] | lia | lia | demo_at | demo_run |
     demo_at | demo_run |].
  destruct (Hx demo) as (q & E & Epc & _); [reflexivity.. |]. exists a', w1', w2', q. split; [exact H1 |]. split; [exact E |].
  rewrite Epc. reflexivity.
Defined.

(** The HI20 and LO12 relocations of a pair [lui rd], [addi rd, rd], for
    a label at [x] in reach of 32 bits: running the pair leaves the label's
    address, sign extended, in [rd]. *)
Theorem relocate_address {P} `{ProcessorLaws P} `{!MMU P} fpu a k k2 r r2 l x y y2 rd w1 w2 :
  lookup_label k (rl_name r) a = Some l -> lookup_label k2 (rl_name r2) a = Some l -> label_target l a = Some (u64 x) ->
  reloc_offset k a = Some (u64 y) -> reloc_offset k2 a = Some (u64 y2) -> apart k2 k ->
  rl_type r = R_RISCV_HI20 -> rl_type r2 = R_RISCV_LO12_I -> in_reach x -> 0 < rd < 32 ->
  at_word a k w1 -> decode_inst_rv64 decode_init w1 = instr rv_op_lui rd 0 0 ->
  at_word a k2 w2 -> decode_inst_rv64 decode_init w2 = instr rv_op_addi rd rd 0 ->
  exists a1 a2 w1' w2', relocate k r a = Some (a1, true) /\ relocate k2 r2 a1 = Some (a2, true) /\
    at_word a2 k w1' /\ at_word a2 k2 w2' /\
    forall p : P, length (ireg (base p)) = 32%nat -> exec_words fpu [w1'; w2'] p = Ok tt (moved rd x 2 p).
Proof.
  intros Hl Hl2 Ht Hr Hr2 Hap Ety Ety2 Hx Hrd Hw1 Hd1 Hw2 Hd2. destruct (parts_range _ Hx) as (Ph & Pa & Pl).
  destruct (relocate_imm a k r l (u64 x) (u64 y) w1 (instr rv_op_lui rd 0 0) (hi20 (u64 x)))
    as (a1 & w1' & E1 & Hp1 & Hw1' & _ & Hm1); try assumption.
  { apply (instr_canonical _ [0]); [apply lui_regs | reflexivity | apply lui_fits; [lia | reflexivity] | lia | left; reflexivity]. }
  { reflexivity. }
  { intros b. rewrite Ety. reflexivity. }
  { rewrite hi20_u64, hi20_reach, swrap_small by (assumption || lia). apply lui_fits; assumption. }
  destruct (relocate_imm a1 k2 r2 l (u64 x) (u64 y2) w2 (instr rv_op_addi rd rd 0) (u64 (u64 x - upper (u64 x))))
    as (a2 & w2' & E2 & Hp2 & Hw2' & _ & Hm2).
  { rewrite (patched_lookup _ _ _ Hp1). exact Hl2. }
  { rewrite (patched_target _ _ _ Hp1). exact Ht. }
  { unfold reloc_offset. rewrite (patched_absolute _ _ _ Hp1). exact Hr2. }
  { apply (pt_frame _ _ _ Hp1); [apply Forall_singleton, Hap | exact Hw2]. }
  { exact Hd2. }
  { apply (instr_canonical _ upto32); [apply addi_regs | reflexivity | apply addi_fits; lia | lia | apply upto32_spec; lia]. }
  { reflexivity. }
  { intros b. rewrite Ety2. reflexivity. }
  { rewrite s32_u64, lower_reach by exact Hx. apply addi_fits, Pl. }
  assert (Hw1'' : at_word a2 k w1').
  { apply (pt_frame _ _ _ Hp2); [| exact Hw1']. apply Forall_singleton. unfold apart in *. intuition congruence. }
  exists a1, a2, w1', w2'. split; [exact E1 |]. split; [exact E2 |]. split; [exact Hw1'' |]. split; [exact Hw2' |].
  intros p Hlen. destruct Hw1' as (s1 & _ & _ & _ & L1 & _). destruct Hw2' as (s2 & _ & _ & _ & L2 & _).
  assert (D1 : is_word w1' (instr rv_op_lui rd 0 (hi_part x))).
  { split; [| exact L1]. rewrite (Hm1 eq_refl), <- set_imm_s32, hi20_u64, hi20_reach, set_imm_s32 by exact Hx. reflexivity. }
  assert (D2 : is_word w2' (instr rv_op_addi rd rd (lo_part x))).
  { split; [| exact L2]. rewrite (Hm2 eq_refl), set_imm_u64, <- set_imm_s32, lower_reach by exact Hx. reflexivity. }
  assert (Hg : good_regs p rd) by (split; assumption).
  rewrite (exec_pair fpu _ _ _ _ (hi_part x) _ _ p Hg Pl D1 D2 (exec_lui fpu rd (hi_part x) p Hg Ph)).
  do 2 f_equal. unfold lo_part. lia.
Qed.

Lemma relocate_address_witness : exists a1 a2 w1' w2',
  relocate (1, 16) (mkReloc "f" R_RISCV_HI20) demo_program = Some (a1, true) /\
  relocate (1, 20) (mkReloc "f" R_RISCV_LO12_I) a1 = Some (a2, true) /\
  exec_words null_fpu [w1'; w2'] demo = Ok tt (moved 10 24 2 demo).
Proof.
  destruct (relocate_address null_fpu demo_program (1, 16) (1, 20) (mkReloc "f" R_RISCV_HI20) (mkReloc "f" R_RISCV_LO12_I)
    (mkLabel "f" (1, 24) 0) 24 16 20 10 0x537 0x50513) as (a1 & a2 & w1' & w2' & H1 & H2 & _ & _ & Hx);
    [demo_run | demo_run | demo_run | demo_run | demo_run | right; right; discriminate | reflexivity | reflexivity | split; [discriminate | reflexivity] | lia |
     demo_at | demo_run | demo_at | demo_run |].
  exists a1, a2, w1', w2'. split; [exact H1 |]. split; [exact H2 | apply Hx; reflexivity].
Defined.

(** ** Labels *)

(** C27 The names [<n>f] and [<n>b], with [n] in decimal, refer to the nearest
    label numbered [n] after the relocation and at or before it, among the
    labels found by offset; the lookup fails when there is none. *)
Theorem local_label_nearest k n a :
  asm_ok a -> 0 <= n < 2 ^ 63 ->
  match lookup_label k (pretty n +:+ "f") a with
  | Some l => mapped a l /\ lb_num l = n /\ key_lt k (lb_offset l) /\
      forall l', mapped a l' -> lb_num l' = n -> key_lt k (lb_offset l') -> ~ key_lt (lb_offset l') (lb_offset l)
  | None => forall l', mapped a l' -> lb_num l' = n -> ~ key_lt k (lb_offset l')
  end /\
  match lookup_label k (pretty n +:+ "b") a with
  | Some l => mapped a l /\ lb_num l = n /\ ~ key_lt k (lb_offset l) /\
      forall l', mapped a l' -> lb_num l' = n -> ~ key_lt k (lb_offset l') -> ~ key_lt (lb_offset l) (lb_offset l')
  | None => forall l', mapped a l' -> lb_num l' = n -> key_lt k (lb_offset l')
  end.
Proof.
  intros Ha Hn. destruct (lookup_label_local k n a Hn) as [-> ->].
  split; [apply lookup_label_f_nearest, Ha | apply lookup_label_b_nearest, Ha].
Qed.

Lemma local_label_nearest_witness :
  let a := match add_label_num 1 7 1 assembler_init with Some (a, _) => a | None => assembler_init end in
  exists l, lookup_label (1, 4) "7b" a = Some l /\ lb_offset l = (1, 0).
Proof.
  intros a. assert (Ha : asm_ok a) by (eapply (add_label_num_ok 1 7 1 assembler_init); [exact assembler_init_ok | reflexivity]).
  destruct (local_label_nearest (1, 4) 7 a Ha ltac:(lia)) as [_ H].
  change (pretty 7 +:+ "b") with "7b" in H. destruct (lookup_label (1, 4) "7b" a) as [l |] eqn:E.
  - exists l. split; [reflexivity |]. vm_compute in E. injection E as <-. reflexivity.
  - vm_compute in E. discriminate.
Defined.

(** The second label at a place hides the first from [<n>f] and [<n>b]. *)
Example hidden_label :
  let a := default assembler_init (fst <$> add_label_num 1 1 1 assembler_init) in
  let a := default a (fst <$> add_label "foo" a) in
  lookup_label (1, 4) "1b" a = None.
Proof. vm_compute. reflexivity. Qed.

(** A label that is not numbered has the number 0. *)
Example label_zero :
  let a := default assembler_init (fst <$> add_label "foo" assembler_init) in
  lb_name <$> lookup_label (1, 4) "0b" a = Some "foo".
Proof. vm_compute. reflexivity. Qed.

(** Adding a numbered label ends and succeeds: among the names tried first
    there is a fresh one, and the label gets it, the number and the current
    place, and leaves every other label as it was. *)
Theorem add_label_num_total num a :
  asm_ok a ->
  exists a' i l, add_label_num (S (size (labels_byname a))) num 1 a = Some (a', i) /\
    lb_num l = num /\ lb_offset l = current_offset a /\ mapped a' l /\ lookup_name (lb_name l) a' = Some l /\
    labels_byname a !! lb_name l = None /\
    forall name, name <> lb_name l -> lookup_name name a' = lookup_name name a.
Proof.
  intros Ha. destruct (add_label_num_fresh (S (size (labels_byname a))) num 1 a) as [H | (j & _ & En & _ & b & Eb & E)].
  { apply names_bound in H. lia. }
  unfold add_label, new_label in Eb. rewrite En in Eb. injection Eb as <-.
  eexists _, (List.length (labels a)), (mkLabel (num_label num j) (current_offset a) num). split; [exact E |].
  cbn [set_labels labels labels_byoffset labels_byname lb_num lb_offset lb_name].
  assert (El : alter (fun x => mkLabel (lb_name x) (lb_offset x) num) (List.length (labels a))
      (labels a ++ [mkLabel (num_label num j) (current_offset a) 0]) !! List.length (labels a) =
    Some (mkLabel (num_label num j) (current_offset a) num)).
  { rewrite list_lookup_alter_eq, list_lookup_middle by reflexivity. reflexivity. }
  split; [reflexivity |]. split; [reflexivity |]. split; [| split; [| split; [exact En |]]].
  - exists (List.length (labels a)). split; [| exact El]. apply map_find_in.
    cbn. rewrite map_find_assign. rewrite (proj2 (key_eqb_eq _ _) eq_refl). reflexivity.
  - unfold lookup_name. cbn. rewrite lookup_insert_eq. cbn. exact El.
  - intros name Hne. unfold lookup_name. cbn. rewrite lookup_insert_ne by congruence.
    destruct (labels_byname a !! name) as [i |] eqn:Ei; [| reflexivity]. cbn.
    apply (ok_byname _ Ha) in Ei as (x & Hx & _). pose proof (lookup_lt_Some _ _ _ Hx).
    rewrite list_lookup_alter_ne by lia. apply lookup_app_l. assumption.
Qed.

Lemma add_label_num_total_witness : exists a' i, add_label_num 1 3 1 assembler_init = Some (a', i).
Proof.
  destruct (add_label_num_total 3 assembler_init assembler_init_ok) as (a' & i & _ & E & _). exists a', i. exact E.
Defined.

(** ** What [relocate] does not check *)

(** A jump out of the reach of its immediate is resolved, to another place. *)
Definition far_jump : assembler :=
  let a := default assembler_init (fst <$> add_constant "far" 0x200000 assembler_init) in
  add_inst 0x6f (default a (add_reloc "far" R_RISCV_JAL a)).

Example jump_out_of_reach : exists a',
  link far_jump = Some (a', 0%nat) /\ section_buf a' 1 = [0x6f; 0; 0; 0].
Proof. eexists. split; vm_compute; reflexivity. Qed.

(** The [%pcrel_lo] of a section that does not start at 0 is not resolved:
    the offset of its label is compared with offsets inside the section. *)
Definition pcrel_pair (pad : bool) : assembler :=
  let a := if pad then get_section ".text" (add_inst 0x13 (add_inst 0x13 (get_section "" assembler_init))) else assembler_init in
  let a := default a (fst <$> add_label ".L1" a) in
  let a := add_inst 0x517 (default a (add_reloc "f" R_RISCV_PCREL_HI20 a)) in
  let a := add_inst 0x50513 (default a (add_reloc ".L1" R_RISCV_PCREL_LO12_I a)) in
  add_inst 0x8067 (default a (fst <$> add_label "f" a)).

Example pcrel_lo12_sections :
  snd <$> link (pcrel_pair false) = Some 0%nat /\ snd <$> link (pcrel_pair true) = Some 1%nat.
Proof. split; vm_compute; reflexivity. Qed.
