(* ===== verification/AsmEmit.v ===== *)
(** * AsmEmit: the instruction emitters of [asm/jit.cc], one function for each
    opcode that returns the instruction word and one that adds it to the
    assembler's current section, with the operand types of [asm/types.h].

    [emit_lui], [emit_addi] and [emit_slli] are in [Assembler]. *)

From Stdlib Require Import ZArith Lia Bool List.
From stdpp Require Import base numbers list strings.
From S2P Require Import Prelude Operand Meta Decode Encode Codec Assembler.

(** ** Operand types

    The value of a [uimm_t] is a [u64], of the others an [s64]. *)
Inductive imm_t := offset_t (W : Z) | simm_t (W : Z) | uimm_t (W : Z).

Definition valid (t : imm_t) (imm : Z) : bool :=
  match t with
  | offset_t W | simm_t W => (imm <=? 2 ^ (W - 1) - 1) && (- 2 ^ (W - 1) <=? imm)
  | uimm_t W => imm <=? 2 ^ W - 1
  end.

Definition arg1 : imm_t := uimm_t 1.
Definition arg3 : imm_t := uimm_t 3.
Definition arg4 : imm_t := uimm_t 4.
Definition freg5 : imm_t := uimm_t 5.
Definition ireg5 : imm_t := uimm_t 5.
Definition offset12 : imm_t := offset_t 12.
Definition offset13 : imm_t := offset_t 13.
Definition offset21 : imm_t := offset_t 21.
Definition offset32 : imm_t := offset_t 32.
Definition simm12 : imm_t := simm_t 12.
Definition simm32 : imm_t := simm_t 32.
Definition uimm12 : imm_t := uimm_t 12.
Definition uimm5 : imm_t := uimm_t 5.
Definition uimm6 : imm_t := uimm_t 6.
Definition uimm7 : imm_t := uimm_t 7.

(** ** [emit_<op>]: the word, or 0 when an operand is not valid *)
Definition emit_auipc (rd oimm20 : Z) : option Z :=
  if valid ireg5 rd && valid offset32 oimm20
  then encode_inst (set_imm oimm20 (set_rd rd (set_op rv_op_auipc decode_init))) else Some 0.
Definition emit_jal (rd jimm20 : Z) : option Z :=
  if valid ireg5 rd && valid offset21 jimm20
  then encode_inst (set_imm jimm20 (set_rd rd (set_op rv_op_jal decode_init))) else Some 0.
Definition emit_jalr (rd rs1 imm12 : Z) : option Z :=
  if valid ireg5 rd && valid ireg5 rs1 && valid simm12 imm12
  then encode_inst (set_imm imm12 (set_rs1 rs1 (set_rd rd (set_op rv_op_jalr decode_init)))) else Some 0.
Definition emit_beq (rs1 rs2 sbimm12 : Z) : option Z :=
  if valid ireg5 rs1 && valid ireg5 rs2 && valid offset13 sbimm12
  then encode_inst (set_imm sbimm12 (set_rs2 rs2 (set_rs1 rs1 (set_op rv_op_beq decode_init)))) else Some 0.
Definition emit_bne (rs1 rs2 sbimm12 : Z) : option Z :=
  if valid ireg5 rs1 && valid ireg5 rs2 && valid offset13 sbimm12
  then encode_inst (set_imm sbimm12 (set_rs2 rs2 (set_rs1 rs1 (set_op rv_op_bne decode_init)))) else Some 0.
Definition emit_blt (rs1 rs2 sbimm12 : Z) : option Z :=
  if valid ireg5 rs1 && valid ireg5 rs2 && valid offset13 sbimm12
  then encode_inst (set_imm sbimm12 (set_rs2 rs2 (set_rs1 rs1 (set_op rv_op_blt decode_init)))) else Some 0.
Definition emit_bge (rs1 rs2 sbimm12 : Z) : option Z :=
  if valid ireg5 rs1 && valid ireg5 rs2 && valid offset13 sbimm12
  then encode_inst (set_imm sbimm12 (set_rs2 rs2 (set_rs1 rs1 (set_op rv_op_bge decode_init)))) else Some 0.
Definition emit_bltu (rs1 rs2 sbimm12 : Z) : option Z :=
  if valid ireg5 rs1 && valid ireg5 rs2 && valid offset13 sbimm12
  then encode_inst (set_imm sbimm12 (set_rs2 rs2 (set_rs1 rs1 (set_op rv_op_bltu decode_init)))) else Some 0.
Definition emit_bgeu (rs1 rs2 sbimm12 : Z) : option Z :=
  if valid ireg5 rs1 && valid ireg5 rs2 && valid offset13 sbimm12
  then encode_inst (set_imm sbimm12 (set_rs2 rs2 (set_rs1 rs1 (set_op rv_op_bgeu decode_init)))) else Some 0.
Definition emit_lb (rd rs1 oimm12 : Z) : option Z :=
  if valid ireg5 rd && valid ireg5 rs1 && valid offset12 oimm12
  then encode_inst (set_imm oimm12 (set_rs1 rs1 (set_rd rd (set_op rv_op_lb decode_init)))) else Some 0.
Definition emit_lh (rd rs1 oimm12 : Z) : option Z :=
  if valid ireg5 rd && valid ireg5 rs1 && valid offset12 oimm12
  then encode_inst (set_imm oimm12 (set_rs1 rs1 (set_rd rd (set_op rv_op_lh decode_init)))) else Some 0.
Definition emit_lw (rd rs1 oimm12 : Z) : option Z :=
  if valid ireg5 rd && valid ireg5 rs1 && valid offset12 oimm12
  then encode_inst (set_imm oimm12 (set_rs1 rs1 (set_rd rd (set_op rv_op_lw decode_init)))) else Some 0.
Definition emit_lbu (rd rs1 oimm12 : Z) : option Z :=
  if valid ireg5 rd && valid ireg5 rs1 && valid offset12 oimm12
  then encode_inst (set_imm oimm12 (set_rs1 rs1 (set_rd rd (set_op rv_op_lbu decode_init)))) else Some 0.
Definition emit_lhu (rd rs1 oimm12 : Z) : option Z :=
  if valid ireg5 rd && valid ireg5 rs1 && valid offset12 oimm12
  then encode_inst (set_imm oimm12 (set_rs1 rs1 (set_rd rd (set_op rv_op_lhu decode_init)))) else Some 0.
Definition emit_sb (rs1 rs2 simm12 : Z) : option Z :=
  if valid ireg5 rs1 && valid ireg5 rs2 && valid offset12 simm12
  then encode_inst (set_imm simm12 (set_rs2 rs2 (set_rs1 rs1 (set_op rv_op_sb decode_init)))) else Some 0.
Definition emit_sh (rs1 rs2 simm12 : Z) : option Z :=
  if valid ireg5 rs1 && valid ireg5 rs2 && valid offset12 simm12
  then encode_inst (set_imm simm12 (set_rs2 rs2 (set_rs1 rs1 (set_op rv_op_sh decode_init)))) else Some 0.
Definition emit_sw (rs1 rs2 simm12 : Z) : option Z :=
  if valid ireg5 rs1 && valid ireg5 rs2 && valid offset12 simm12
  then encode_inst (set_imm simm12 (set_rs2 rs2 (set_rs1 rs1 (set_op rv_op_sw decode_init)))) else Some 0.
Definition emit_slti (rd rs1 imm12 : Z) : option Z :=
  if valid ireg5 rd && valid ireg5 rs1 && valid simm12 imm12
  then encode_inst (set_imm imm12 (set_rs1 rs1 (set_rd rd (set_op rv_op_slti decode_init)))) else Some 0.
Definition emit_sltiu (rd rs1 imm12 : Z) : option Z :=
  if valid ireg5 rd && valid ireg5 rs1 && valid simm12 imm12
  then encode_inst (set_imm imm12 (set_rs1 rs1 (set_rd rd (set_op rv_op_sltiu decode_init)))) else Some 0.
Definition emit_xori (rd rs1 imm12 : Z) : option Z :=
  if valid ireg5 rd && valid ireg5 rs1 && valid simm12 imm12
  then encode_inst (set_imm imm12 (set_rs1 rs1 (set_rd rd (set_op rv_op_xori decode_init)))) else Some 0.
Definition emit_ori (rd rs1 imm12 : Z) : option Z :=
  if valid ireg5 rd && valid ireg5 rs1 && valid simm12 imm12
  then encode_inst (set_imm imm12 (set_rs1 rs1 (set_rd rd (set_op rv_op_ori decode_init)))) else Some 0.
Definition emit_andi (rd rs1 imm12 : Z) : option Z :=
  if valid ireg5 rd && valid ireg5 rs1 && valid simm12 imm12
  then encode_inst (set_imm imm12 (set_rs1 rs1 (set_rd rd (set_op rv_op_andi decode_init)))) else Some 0.
Definition emit_srli (rd rs1 shamt7 : Z) : option Z :=
  if valid ireg5 rd && valid ireg5 rs1 && valid uimm7 shamt7
  then encode_inst (set_imm shamt7 (set_rs1 rs1 (set_rd rd (set_op rv_op_srli decode_init)))) else Some 0.
Definition emit_srai (rd rs1 shamt7 : Z) : option Z :=
  if valid ireg5 rd && valid ireg5 rs1 && valid uimm7 shamt7
  then encode_inst (set_imm shamt7 (set_rs1 rs1 (set_rd rd (set_op rv_op_srai decode_init)))) else Some 0.
Definition emit_add (rd rs1 rs2 : Z) : option Z :=
  if valid ireg5 rd && valid ireg5 rs1 && valid ireg5 rs2
  then encode_inst (set_rs2 rs2 (set_rs1 rs1 (set_rd rd (set_op rv_op_add decode_init)))) else Some 0.
Definition emit_sub (rd rs1 rs2 : Z) : option Z :=
  if valid ireg5 rd && valid ireg5 rs1 && valid ireg5 rs2
  then encode_inst (set_rs2 rs2 (set_rs1 rs1 (set_rd rd (set_op rv_op_sub decode_init)))) else Some 0.
Definition emit_sll (rd rs1 rs2 : Z) : option Z :=
  if valid ireg5 rd && valid ireg5 rs1 && valid ireg5 rs2
  then encode_inst (set_rs2 rs2 (set_rs1 rs1 (set_rd rd (set_op rv_op_sll decode_init)))) else Some 0.
Definition emit_slt (rd rs1 rs2 : Z) : option Z :=
  if valid ireg5 rd && valid ireg5 rs1 && valid ireg5 rs2
  then encode_inst (set_rs2 rs2 (set_rs1 rs1 (set_rd rd (set_op rv_op_slt decode_init)))) else Some 0.
Definition emit_sltu (rd rs1 rs2 : Z) : option Z :=
  if valid ireg5 rd && valid ireg5 rs1 && valid ireg5 rs2
  then encode_inst (set_rs2 rs2 (set_rs1 rs1 (set_rd rd (set_op rv_op_sltu decode_init)))) else Some 0.
Definition emit_xor (rd rs1 rs2 : Z) : option Z :=
  if valid ireg5 rd && valid ireg5 rs1 && valid ireg5 rs2
  then encode_inst (set_rs2 rs2 (set_rs1 rs1 (set_rd rd (set_op rv_op_xor decode_init)))) else Some 0.
Definition emit_srl (rd rs1 rs2 : Z) : option Z :=
  if valid ireg5 rd && valid ireg5 rs1 && valid ireg5 rs2
  then encode_inst (set_rs2 rs2 (set_rs1 rs1 (set_rd rd (set_op rv_op_srl decode_init)))) else Some 0.
Definition emit_sra (rd rs1 rs2 : Z) : option Z :=
  if valid ireg5 rd && valid ireg5 rs1 && valid ireg5 rs2
  then encode_inst (set_rs2 rs2 (set_rs1 rs1 (set_rd rd (set_op rv_op_sra decode_init)))) else Some 0.
Definition emit_or (rd rs1 rs2 : Z) : option Z :=
  if valid ireg5 rd && valid ireg5 rs1 && valid ireg5 rs2
  then encode_inst (set_rs2 rs2 (set_rs1 rs1 (set_rd rd (set_op rv_op_or decode_init)))) else Some 0.
Definition emit_and (rd rs1 rs2 : Z) : option Z :=
  if valid ireg5 rd && valid ireg5 rs1 && valid ireg5 rs2
  then encode_inst (set_rs2 rs2 (set_rs1 rs1 (set_rd rd (set_op rv_op_and decode_init)))) else Some 0.
Definition emit_fence (pred succ : Z) : option Z :=
  if valid arg4 pred && valid arg4 succ
  then encode_inst (set_succ succ (set_pred pred (set_op rv_op_fence decode_init))) else Some 0.
Definition emit_fence_i : option Z :=
  encode_inst (set_op rv_op_fence_i decode_init).
Definition emit_lwu (rd rs1 oimm12 : Z) : option Z :=
  if valid ireg5 rd && valid ireg5 rs1 && valid offset12 oimm12
  then encode_inst (set_imm oimm12 (set_rs1 rs1 (set_rd rd (set_op rv_op_lwu decode_init)))) else Some 0.
Definition emit_ld (rd rs1 oimm12 : Z) : option Z :=
  if valid ireg5 rd && valid ireg5 rs1 && valid offset12 oimm12
  then encode_inst (set_imm oimm12 (set_rs1 rs1 (set_rd rd (set_op rv_op_ld decode_init)))) else Some 0.
Definition emit_sd (rs1 rs2 simm12 : Z) : option Z :=
  if valid ireg5 rs1 && valid ireg5 rs2 && valid offset12 simm12
  then encode_inst (set_imm simm12 (set_rs2 rs2 (set_rs1 rs1 (set_op rv_op_sd decode_init)))) else Some 0.
Definition emit_addiw (rd rs1 imm12 : Z) : option Z :=
  if valid ireg5 rd && valid ireg5 rs1 && valid simm12 imm12
  then encode_inst (set_imm imm12 (set_rs1 rs1 (set_rd rd (set_op rv_op_addiw decode_init)))) else Some 0.
Definition emit_slliw (rd rs1 shamt5 : Z) : option Z :=
  if valid ireg5 rd && valid ireg5 rs1 && valid uimm5 shamt5
  then encode_inst (set_imm shamt5 (set_rs1 rs1 (set_rd rd (set_op rv_op_slliw decode_init)))) else Some 0.
Definition emit_srliw (rd rs1 shamt5 : Z) : option Z :=
  if valid ireg5 rd && valid ireg5 rs1 && valid uimm5 shamt5
  then encode_inst (set_imm shamt5 (set_rs1 rs1 (set_rd rd (set_op rv_op_srliw decode_init)))) else Some 0.
Definition emit_sraiw (rd rs1 shamt5 : Z) : option Z :=
  if valid ireg5 rd && valid ireg5 rs1 && valid uimm5 shamt5
  then encode_inst (set_imm shamt5 (set_rs1 rs1 (set_rd rd (set_op rv_op_sraiw decode_init)))) else Some 0.
Definition emit_addw (rd rs1 rs2 : Z) : option Z :=
  if valid ireg5 rd && valid ireg5 rs1 && valid ireg5 rs2
  then encode_inst (set_rs2 rs2 (set_rs1 rs1 (set_rd rd (set_op rv_op_addw decode_init)))) else Some 0.
Definition emit_subw (rd rs1 rs2 : Z) : option Z :=
  if valid ireg5 rd && valid ireg5 rs1 && valid ireg5 rs2
  then encode_inst (set_rs2 rs2 (set_rs1 rs1 (set_rd rd (set_op rv_op_subw decode_init)))) else Some 0.
Definition emit_sllw (rd rs1 rs2 : Z) : option Z :=
  if valid ireg5 rd && valid ireg5 rs1 && valid ireg5 rs2
  then encode_inst (set_rs2 rs2 (set_rs1 rs1 (set_rd rd (set_op rv_op_sllw decode_init)))) else Some 0.
Definition emit_srlw (rd rs1 rs2 : Z) : option Z :=
  if valid ireg5 rd && valid ireg5 rs1 && valid ireg5 rs2
  then encode_inst (set_rs2 rs2 (set_rs1 rs1 (set_rd rd (set_op rv_op_srlw decode_init)))) else Some 0.
Definition emit_sraw (rd rs1 rs2 : Z) : option Z :=
  if valid ireg5 rd && valid ireg5 rs1 && valid ireg5 rs2
  then encode_inst (set_rs2 rs2 (set_rs1 rs1 (set_rd rd (set_op rv_op_sraw decode_init)))) else Some 0.
Definition emit_ldu (rd rs1 oimm12 : Z) : option Z :=
  if valid ireg5 rd && valid ireg5 rs1 && valid offset12 oimm12
  then encode_inst (set_imm oimm12 (set_rs1 rs1 (set_rd rd (set_op rv_op_ldu decode_init)))) else Some 0.
Definition emit_lq (rd rs1 oimm12 : Z) : option Z :=
  if valid ireg5 rd && valid ireg5 rs1 && valid offset12 oimm12
  then encode_inst (set_imm oimm12 (set_rs1 rs1 (set_rd rd (set_op rv_op_lq decode_init)))) else Some 0.
Definition emit_sq (rs1 rs2 simm12 : Z) : option Z :=
  if valid ireg5 rs1 && valid ireg5 rs2 && valid offset12 simm12
  then encode_inst (set_imm simm12 (set_rs2 rs2 (set_rs1 rs1 (set_op rv_op_sq decode_init)))) else Some 0.
Definition emit_addid (rd rs1 imm12 : Z) : option Z :=
  if valid ireg5 rd && valid ireg5 rs1 && valid simm12 imm12
  then encode_inst (set_imm imm12 (set_rs1 rs1 (set_rd rd (set_op rv_op_addid decode_init)))) else Some 0.
Definition emit_sllid (rd rs1 shamt6 : Z) : option Z :=
  if valid ireg5 rd && valid ireg5 rs1 && valid uimm6 shamt6
  then encode_inst (set_imm shamt6 (set_rs1 rs1 (set_rd rd (set_op rv_op_sllid decode_init)))) else Some 0.
Definition emit_srlid (rd rs1 shamt6 : Z) : option Z :=
  if valid ireg5 rd && valid ireg5 rs1 && valid uimm6 shamt6
  then encode_inst (set_imm shamt6 (set_rs1 rs1 (set_rd rd (set_op rv_op_srlid decode_init)))) else Some 0.
Definition emit_sraid (rd rs1 shamt6 : Z) : option Z :=
  if valid ireg5 rd && valid ireg5 rs1 && valid uimm6 shamt6
  then encode_inst (set_imm shamt6 (set_rs1 rs1 (set_rd rd (set_op rv_op_sraid decode_init)))) else Some 0.
Definition emit_addd (rd rs1 rs2 : Z) : option Z :=
  if valid ireg5 rd && valid ireg5 rs1 && valid ireg5 rs2
  then encode_inst (set_rs2 rs2 (set_rs1 rs1 (set_rd rd (set_op rv_op_addd decode_init)))) else Some 0.
Definition emit_subd (rd rs1 rs2 : Z) : option Z :=
  if valid ireg5 rd && valid ireg5 rs1 && valid ireg5 rs2
  then encode_inst (set_rs2 rs2 (set_rs1 rs1 (set_rd rd (set_op rv_op_subd decode_init)))) else Some 0.
Definition emit_slld (rd rs1 rs2 : Z) : option Z :=
  if valid ireg5 rd && valid ireg5 rs1 && valid ireg5 rs2
  then encode_inst (set_rs2 rs2 (set_rs1 rs1 (set_rd rd (set_op rv_op_slld decode_init)))) else Some 0.
Definition emit_srld (rd rs1 rs2 : Z) : option Z :=
  if valid ireg5 rd && valid ireg5 rs1 && valid ireg5 rs2
  then encode_inst (set_rs2 rs2 (set_rs1 rs1 (set_rd rd (set_op rv_op_srld decode_init)))) else Some 0.
Definition emit_srad (rd rs1 rs2 : Z) : option Z :=
  if valid ireg5 rd && valid ireg5 rs1 && valid ireg5 rs2
  then encode_inst (set_rs2 rs2 (set_rs1 rs1 (set_rd rd (set_op rv_op_srad decode_init)))) else Some 0.
Definition emit_mul (rd rs1 rs2 : Z) : option Z :=
  if valid ireg5 rd && valid ireg5 rs1 && valid ireg5 rs2
  then encode_inst (set_rs2 rs2 (set_rs1 rs1 (set_rd rd (set_op rv_op_mul decode_init)))) else Some 0.
Definition emit_mulh (rd rs1 rs2 : Z) : option Z :=
  if valid ireg5 rd && valid ireg5 rs1 && valid ireg5 rs2
  then encode_inst (set_rs2 rs2 (set_rs1 rs1 (set_rd rd (set_op rv_op_mulh decode_init)))) else Some 0.
Definition emit_mulhsu (rd rs1 rs2 : Z) : option Z :=
  if valid ireg5 rd && valid ireg5 rs1 && valid ireg5 rs2
  then encode_inst (set_rs2 rs2 (set_rs1 rs1 (set_rd rd (set_op rv_op_mulhsu decode_init)))) else Some 0.
Definition emit_mulhu (rd rs1 rs2 : Z) : option Z :=
  if valid ireg5 rd && valid ireg5 rs1 && valid ireg5 rs2
  then encode_inst (set_rs2 rs2 (set_rs1 rs1 (set_rd rd (set_op rv_op_mulhu decode_init)))) else Some 0.
Definition emit_div (rd rs1 rs2 : Z) : option Z :=
  if valid ireg5 rd && valid ireg5 rs1 && valid ireg5 rs2
  then encode_inst (set_rs2 rs2 (set_rs1 rs1 (set_rd rd (set_op rv_op_div decode_init)))) else Some 0.
Definition emit_divu (rd rs1 rs2 : Z) : option Z :=
  if valid ireg5 rd && valid ireg5 rs1 && valid ireg5 rs2
  then encode_inst (set_rs2 rs2 (set_rs1 rs1 (set_rd rd (set_op rv_op_divu decode_init)))) else Some 0.
Definition emit_rem (rd rs1 rs2 : Z) : option Z :=
  if valid ireg5 rd && valid ireg5 rs1 && valid ireg5 rs2
  then encode_inst (set_rs2 rs2 (set_rs1 rs1 (set_rd rd (set_op rv_op_rem decode_init)))) else Some 0.
Definition emit_remu (rd rs1 rs2 : Z) : option Z :=
  if valid ireg5 rd && valid ireg5 rs1 && valid ireg5 rs2
  then encode_inst (set_rs2 rs2 (set_rs1 rs1 (set_rd rd (set_op rv_op_remu decode_init)))) else Some 0.
Definition emit_mulw (rd rs1 rs2 : Z) : option Z :=
  if valid ireg5 rd && valid ireg5 rs1 && valid ireg5 rs2
  then encode_inst (set_rs2 rs2 (set_rs1 rs1 (set_rd rd (set_op rv_op_mulw decode_init)))) else Some 0.
Definition emit_divw (rd rs1 rs2 : Z) : option Z :=
  if valid ireg5 rd && valid ireg5 rs1 && valid ireg5 rs2
  then encode_inst (set_rs2 rs2 (set_rs1 rs1 (set_rd rd (set_op rv_op_divw decode_init)))) else Some 0.
Definition emit_divuw (rd rs1 rs2 : Z) : option Z :=
  if valid ireg5 rd && valid ireg5 rs1 && valid ireg5 rs2
  then encode_inst (set_rs2 rs2 (set_rs1 rs1 (set_rd rd (set_op rv_op_divuw decode_init)))) else Some 0.
Definition emit_remw (rd rs1 rs2 : Z) : option Z :=
  if valid ireg5 rd && valid ireg5 rs1 && valid ireg5 rs2
  then encode_inst (set_rs2 rs2 (set_rs1 rs1 (set_rd rd (set_op rv_op_remw decode_init)))) else Some 0.
Definition emit_remuw (rd rs1 rs2 : Z) : option Z :=
  if valid ireg5 rd && valid ireg5 rs1 && valid ireg5 rs2
  then encode_inst (set_rs2 rs2 (set_rs1 rs1 (set_rd rd (set_op rv_op_remuw decode_init)))) else Some 0.
Definition emit_muld (rd rs1 rs2 : Z) : option Z :=
  if valid ireg5 rd && valid ireg5 rs1 && valid ireg5 rs2
  then encode_inst (set_rs2 rs2 (set_rs1 rs1 (set_rd rd (set_op rv_op_muld decode_init)))) else Some 0.
Definition emit_divd (rd rs1 rs2 : Z) : option Z :=
  if valid ireg5 rd && valid ireg5 rs1 && valid ireg5 rs2
  then encode_inst (set_rs2 rs2 (set_rs1 rs1 (set_rd rd (set_op rv_op_divd decode_init)))) else Some 0.
Definition emit_divud (rd rs1 rs2 : Z) : option Z :=
  if valid ireg5 rd && valid ireg5 rs1 && valid ireg5 rs2
  then encode_inst (set_rs2 rs2 (set_rs1 rs1 (set_rd rd (set_op rv_op_divud decode_init)))) else Some 0.
Definition emit_remd (rd rs1 rs2 : Z) : option Z :=
  if valid ireg5 rd && valid ireg5 rs1 && valid ireg5 rs2
  then encode_inst (set_rs2 rs2 (set_rs1 rs1 (set_rd rd (set_op rv_op_remd decode_init)))) else Some 0.
Definition emit_remud (rd rs1 rs2 : Z) : option Z :=
  if valid ireg5 rd && valid ireg5 rs1 && valid ireg5 rs2
  then encode_inst (set_rs2 rs2 (set_rs1 rs1 (set_rd rd (set_op rv_op_remud decode_init)))) else Some 0.
Definition emit_lr_w (rd rs1 aq rl : Z) : option Z :=
  if valid ireg5 rd && valid ireg5 rs1 && valid arg1 aq && valid arg1 rl
  then encode_inst (set_rl rl (set_aq aq (set_rs1 rs1 (set_rd rd (set_op rv_op_lr_w decode_init))))) else Some 0.
Definition emit_sc_w (rd rs1 rs2 aq rl : Z) : option Z :=
  if valid ireg5 rd && valid ireg5 rs1 && valid ireg5 rs2 && valid arg1 aq && valid arg1 rl
  then encode_inst (set_rl rl (set_aq aq (set_rs2 rs2 (set_rs1 rs1 (set_rd rd (set_op rv_op_sc_w decode_init)))))) else Some 0.
Definition emit_amoswap_w (rd rs1 rs2 aq rl : Z) : option Z :=
  if valid ireg5 rd && valid ireg5 rs1 && valid ireg5 rs2 && valid arg1 aq && valid arg1 rl
  then encode_inst (set_rl rl (set_aq aq (set_rs2 rs2 (set_rs1 rs1 (set_rd rd (set_op rv_op_amoswap_w decode_init)))))) else Some 0.
Definition emit_amoadd_w (rd rs1 rs2 aq rl : Z) : option Z :=
  if valid ireg5 rd && valid ireg5 rs1 && valid ireg5 rs2 && valid arg1 aq && valid arg1 rl
  then encode_inst (set_rl rl (set_aq aq (set_rs2 rs2 (set_rs1 rs1 (set_rd rd (set_op rv_op_amoadd_w decode_init)))))) else Some 0.
Definition emit_amoxor_w (rd rs1 rs2 aq rl : Z) : option Z :=
  if valid ireg5 rd && valid ireg5 rs1 && valid ireg5 rs2 && valid arg1 aq && valid arg1 rl
  then encode_inst (set_rl rl (set_aq aq (set_rs2 rs2 (set_rs1 rs1 (set_rd rd (set_op rv_op_amoxor_w decode_init)))))) else Some 0.
Definition emit_amoor_w (rd rs1 rs2 aq rl : Z) : option Z :=
  if valid ireg5 rd && valid ireg5 rs1 && valid ireg5 rs2 && valid arg1 aq && valid arg1 rl
  then encode_inst (set_rl rl (set_aq aq (set_rs2 rs2 (set_rs1 rs1 (set_rd rd (set_op rv_op_amoor_w decode_init)))))) else Some 0.
Definition emit_amoand_w (rd rs1 rs2 aq rl : Z) : option Z :=
  if valid ireg5 rd && valid ireg5 rs1 && valid ireg5 rs2 && valid arg1 aq && valid arg1 rl
  then encode_inst (set_rl rl (set_aq aq (set_rs2 rs2 (set_rs1 rs1 (set_rd rd (set_op rv_op_amoand_w decode_init)))))) else Some 0.
Definition emit_amomin_w (rd rs1 rs2 aq rl : Z) : option Z :=
  if valid ireg5 rd && valid ireg5 rs1 && valid ireg5 rs2 && valid arg1 aq && valid arg1 rl
  then encode_inst (set_rl rl (set_aq aq (set_rs2 rs2 (set_rs1 rs1 (set_rd rd (set_op rv_op_amomin_w decode_init)))))) else Some 0.
Definition emit_amomax_w (rd rs1 rs2 aq rl : Z) : option Z :=
  if valid ireg5 rd && valid ireg5 rs1 && valid ireg5 rs2 && valid arg1 aq && valid arg1 rl
  then encode_inst (set_rl rl (set_aq aq (set_rs2 rs2 (set_rs1 rs1 (set_rd rd (set_op rv_op_amomax_w decode_init)))))) else Some 0.
Definition emit_amominu_w (rd rs1 rs2 aq rl : Z) : option Z :=
  if valid ireg5 rd && valid ireg5 rs1 && valid ireg5 rs2 && valid arg1 aq && valid arg1 rl
  then encode_inst (set_rl rl (set_aq aq (set_rs2 rs2 (set_rs1 rs1 (set_rd rd (set_op rv_op_amominu_w decode_init)))))) else Some 0.
Definition emit_amomaxu_w (rd rs1 rs2 aq rl : Z) : option Z :=
  if valid ireg5 rd && valid ireg5 rs1 && valid ireg5 rs2 && valid arg1 aq && valid arg1 rl
  then encode_inst (set_rl rl (set_aq aq (set_rs2 rs2 (set_rs1 rs1 (set_rd rd (set_op rv_op_amomaxu_w decode_init)))))) else Some 0.
Definition emit_lr_d (rd rs1 aq rl : Z) : option Z :=
  if valid ireg5 rd && valid ireg5 rs1 && valid arg1 aq && valid arg1 rl
  then encode_inst (set_rl rl (set_aq aq (set_rs1 rs1 (set_rd rd (set_op rv_op_lr_d decode_init))))) else Some 0.
Definition emit_sc_d (rd rs1 rs2 aq rl : Z) : option Z :=
  if valid ireg5 rd && valid ireg5 rs1 && valid ireg5 rs2 && valid arg1 aq && valid arg1 rl
  then encode_inst (set_rl rl (set_aq aq (set_rs2 rs2 (set_rs1 rs1 (set_rd rd (set_op rv_op_sc_d decode_init)))))) else Some 0.
Definition emit_amoswap_d (rd rs1 rs2 aq rl : Z) : option Z :=
  if valid ireg5 rd && valid ireg5 rs1 && valid ireg5 rs2 && valid arg1 aq && valid arg1 rl
  then encode_inst (set_rl rl (set_aq aq (set_rs2 rs2 (set_rs1 rs1 (set_rd rd (set_op rv_op_amoswap_d decode_init)))))) else Some 0.
Definition emit_amoadd_d (rd rs1 rs2 aq rl : Z) : option Z :=
  if valid ireg5 rd && valid ireg5 rs1 && valid ireg5 rs2 && valid arg1 aq && valid arg1 rl
  then encode_inst (set_rl rl (set_aq aq (set_rs2 rs2 (set_rs1 rs1 (set_rd rd (set_op rv_op_amoadd_d decode_init)))))) else Some 0.
Definition emit_amoxor_d (rd rs1 rs2 aq rl : Z) : option Z :=
  if valid ireg5 rd && valid ireg5 rs1 && valid ireg5 rs2 && valid arg1 aq && valid arg1 rl
  then encode_inst (set_rl rl (set_aq aq (set_rs2 rs2 (set_rs1 rs1 (set_rd rd (set_op rv_op_amoxor_d decode_init)))))) else Some 0.
Definition emit_amoor_d (rd rs1 rs2 aq rl : Z) : option Z :=
  if valid ireg5 rd && valid ireg5 rs1 && valid ireg5 rs2 && valid arg1 aq && valid arg1 rl
  then encode_inst (set_rl rl (set_aq aq (set_rs2 rs2 (set_rs1 rs1 (set_rd rd (set_op rv_op_amoor_d decode_init)))))) else Some 0.
Definition emit_amoand_d (rd rs1 rs2 aq rl : Z) : option Z :=
  if valid ireg5 rd && valid ireg5 rs1 && valid ireg5 rs2 && valid arg1 aq && valid arg1 rl
  then encode_inst (set_rl rl (set_aq aq (set_rs2 rs2 (set_rs1 rs1 (set_rd rd (set_op rv_op_amoand_d decode_init)))))) else Some 0.
Definition emit_amomin_d (rd rs1 rs2 aq rl : Z) : option Z :=
  if valid ireg5 rd && valid ireg5 rs1 && valid ireg5 rs2 && valid arg1 aq && valid arg1 rl
  then encode_inst (set_rl rl (set_aq aq (set_rs2 rs2 (set_rs1 rs1 (set_rd rd (set_op rv_op_amomin_d decode_init)))))) else Some 0.
Definition emit_amomax_d (rd rs1 rs2 aq rl : Z) : option Z :=
  if valid ireg5 rd && valid ireg5 rs1 && valid ireg5 rs2 && valid arg1 aq && valid arg1 rl
  then encode_inst (set_rl rl (set_aq aq (set_rs2 rs2 (set_rs1 rs1 (set_rd rd (set_op rv_op_amomax_d decode_init)))))) else Some 0.
Definition emit_amominu_d (rd rs1 rs2 aq rl : Z) : option Z :=
  if valid ireg5 rd && valid ireg5 rs1 && valid ireg5 rs2 && valid arg1 aq && valid arg1 rl
  then encode_inst (set_rl rl (set_aq aq (set_rs2 rs2 (set_rs1 rs1 (set_rd rd (set_op rv_op_amominu_d decode_init)))))) else Some 0.
Definition emit_amomaxu_d (rd rs1 rs2 aq rl : Z) : option Z :=
  if valid ireg5 rd && valid ireg5 rs1 && valid ireg5 rs2 && valid arg1 aq && valid arg1 rl
  then encode_inst (set_rl rl (set_aq aq (set_rs2 rs2 (set_rs1 rs1 (set_rd rd (set_op rv_op_amomaxu_d decode_init)))))) else Some 0.
Definition emit_lr_q (rd rs1 aq rl : Z) : option Z :=
  if valid ireg5 rd && valid ireg5 rs1 && valid arg1 aq && valid arg1 rl
  then encode_inst (set_rl rl (set_aq aq (set_rs1 rs1 (set_rd rd (set_op rv_op_lr_q decode_init))))) else Some 0.
Definition emit_sc_q (rd rs1 rs2 aq rl : Z) : option Z :=
  if valid ireg5 rd && valid ireg5 rs1 && valid ireg5 rs2 && valid arg1 aq && valid arg1 rl
  then encode_inst (set_rl rl (set_aq aq (set_rs2 rs2 (set_rs1 rs1 (set_rd rd (set_op rv_op_sc_q decode_init)))))) else Some 0.
Definition emit_amoswap_q (rd rs1 rs2 aq rl : Z) : option Z :=
  if valid ireg5 rd && valid ireg5 rs1 && valid ireg5 rs2 && valid arg1 aq && valid arg1 rl
  then encode_inst (set_rl rl (set_aq aq (set_rs2 rs2 (set_rs1 rs1 (set_rd rd (set_op rv_op_amoswap_q decode_init)))))) else Some 0.
Definition emit_amoadd_q (rd rs1 rs2 aq rl : Z) : option Z :=
  if valid ireg5 rd && valid ireg5 rs1 && valid ireg5 rs2 && valid arg1 aq && valid arg1 rl
  then encode_inst (set_rl rl (set_aq aq (set_rs2 rs2 (set_rs1 rs1 (set_rd rd (set_op rv_op_amoadd_q decode_init)))))) else Some 0.
Definition emit_amoxor_q (rd rs1 rs2 aq rl : Z) : option Z :=
  if valid ireg5 rd && valid ireg5 rs1 && valid ireg5 rs2 && valid arg1 aq && valid arg1 rl
  then encode_inst (set_rl rl (set_aq aq (set_rs2 rs2 (set_rs1 rs1 (set_rd rd (set_op rv_op_amoxor_q decode_init)))))) else Some 0.
Definition emit_amoor_q (rd rs1 rs2 aq rl : Z) : option Z :=
  if valid ireg5 rd && valid ireg5 rs1 && valid ireg5 rs2 && valid arg1 aq && valid arg1 rl
  then encode_inst (set_rl rl (set_aq aq (set_rs2 rs2 (set_rs1 rs1 (set_rd rd (set_op rv_op_amoor_q decode_init)))))) else Some 0.
Definition emit_amoand_q (rd rs1 rs2 aq rl : Z) : option Z :=
  if valid ireg5 rd && valid ireg5 rs1 && valid ireg5 rs2 && valid arg1 aq && valid arg1 rl
  then encode_inst (set_rl rl (set_aq aq (set_rs2 rs2 (set_rs1 rs1 (set_rd rd (set_op rv_op_amoand_q decode_init)))))) else Some 0.
Definition emit_amomin_q (rd rs1 rs2 aq rl : Z) : option Z :=
  if valid ireg5 rd && valid ireg5 rs1 && valid ireg5 rs2 && valid arg1 aq && valid arg1 rl
  then encode_inst (set_rl rl (set_aq aq (set_rs2 rs2 (set_rs1 rs1 (set_rd rd (set_op rv_op_amomin_q decode_init)))))) else Some 0.
Definition emit_amomax_q (rd rs1 rs2 aq rl : Z) : option Z :=
  if valid ireg5 rd && valid ireg5 rs1 && valid ireg5 rs2 && valid arg1 aq && valid arg1 rl
  then encode_inst (set_rl rl (set_aq aq (set_rs2 rs2 (set_rs1 rs1 (set_rd rd (set_op rv_op_amomax_q decode_init)))))) else Some 0.
Definition emit_amominu_q (rd rs1 rs2 aq rl : Z) : option Z :=
  if valid ireg5 rd && valid ireg5 rs1 && valid ireg5 rs2 && valid arg1 aq && valid arg1 rl
  then encode_inst (set_rl rl (set_aq aq (set_rs2 rs2 (set_rs1 rs1 (set_rd rd (set_op rv_op_amominu_q decode_init)))))) else Some 0.
Definition emit_amomaxu_q (rd rs1 rs2 aq rl : Z) : option Z :=
  if valid ireg5 rd && valid ireg5 rs1 && valid ireg5 rs2 && valid arg1 aq && valid arg1 rl
  then encode_inst (set_rl rl (set_aq aq (set_rs2 rs2 (set_rs1 rs1 (set_rd rd (set_op rv_op_amomaxu_q decode_init)))))) else Some 0.
Definition emit_ecall : option Z :=
  encode_inst (set_op rv_op_ecall decode_init).
Definition emit_ebreak : option Z :=
  encode_inst (set_op rv_op_ebreak decode_init).
Definition emit_uret : option Z :=
  encode_inst (set_op rv_op_uret decode_init).
Definition emit_sret : option Z :=
  encode_inst (set_op rv_op_sret decode_init).
Definition emit_hret : option Z :=
  encode_inst (set_op rv_op_hret decode_init).
Definition emit_mret : option Z :=
  encode_inst (set_op rv_op_mret decode_init).
Definition emit_dret : option Z :=
  encode_inst (set_op rv_op_dret decode_init).
Definition emit_sfence_vm (rs1 : Z) : option Z :=
  if valid ireg5 rs1
  then encode_inst (set_rs1 rs1 (set_op rv_op_sfence_vm decode_init)) else Some 0.
Definition emit_wfi : option Z :=
  encode_inst (set_op rv_op_wfi decode_init).
Definition emit_csrrw (rd rs1 csr12 : Z) : option Z :=
  if valid ireg5 rd && valid ireg5 rs1 && valid uimm12 csr12
  then encode_inst (set_imm csr12 (set_rs1 rs1 (set_rd rd (set_op rv_op_csrrw decode_init)))) else Some 0.
Definition emit_csrrs (rd rs1 csr12 : Z) : option Z :=
  if valid ireg5 rd && valid ireg5 rs1 && valid uimm12 csr12
  then encode_inst (set_imm csr12 (set_rs1 rs1 (set_rd rd (set_op rv_op_csrrs decode_init)))) else Some 0.
Definition emit_csrrc (rd rs1 csr12 : Z) : option Z :=
  if valid ireg5 rd && valid ireg5 rs1 && valid uimm12 csr12
  then encode_inst (set_imm csr12 (set_rs1 rs1 (set_rd rd (set_op rv_op_csrrc decode_init)))) else Some 0.
Definition emit_csrrwi (rd zimm csr12 : Z) : option Z :=
  if valid ireg5 rd && valid uimm5 zimm && valid uimm12 csr12
  then encode_inst (set_imm csr12 (set_imm zimm (set_rd rd (set_op rv_op_csrrwi decode_init)))) else Some 0.
Definition emit_csrrsi (rd zimm csr12 : Z) : option Z :=
  if valid ireg5 rd && valid uimm5 zimm && valid uimm12 csr12
  then encode_inst (set_imm csr12 (set_imm zimm (set_rd rd (set_op rv_op_csrrsi decode_init)))) else Some 0.
Definition emit_csrrci (rd zimm csr12 : Z) : option Z :=
  if valid ireg5 rd && valid uimm5 zimm && valid uimm12 csr12
  then encode_inst (set_imm csr12 (set_imm zimm (set_rd rd (set_op rv_op_csrrci decode_init)))) else Some 0.
Definition emit_flw (frd rs1 oimm12 : Z) : option Z :=
  if valid freg5 frd && valid ireg5 rs1 && valid offset12 oimm12
  then encode_inst (set_imm oimm12 (set_rs1 rs1 (set_rd frd (set_op rv_op_flw decode_init)))) else Some 0.
Definition emit_fsw (rs1 frs2 simm12 : Z) : option Z :=
  if valid ireg5 rs1 && valid freg5 frs2 && valid offset12 simm12
  then encode_inst (set_imm simm12 (set_rs2 frs2 (set_rs1 rs1 (set_op rv_op_fsw decode_init)))) else Some 0.
Definition emit_fmadd_s (frd frs1 frs2 frs3 rm : Z) : option Z :=
  if valid freg5 frd && valid freg5 frs1 && valid freg5 frs2 && valid freg5 frs3 && valid arg3 rm
  then encode_inst (set_rm rm (set_rs3 frs3 (set_rs2 frs2 (set_rs1 frs1 (set_rd frd (set_op rv_op_fmadd_s decode_init)))))) else Some 0.
Definition emit_fmsub_s (frd frs1 frs2 frs3 rm : Z) : option Z :=
  if valid freg5 frd && valid freg5 frs1 && valid freg5 frs2 && valid freg5 frs3 && valid arg3 rm
  then encode_inst (set_rm rm (set_rs3 frs3 (set_rs2 frs2 (set_rs1 frs1 (set_rd frd (set_op rv_op_fmsub_s decode_init)))))) else Some 0.
Definition emit_fnmsub_s (frd frs1 frs2 frs3 rm : Z) : option Z :=
  if valid freg5 frd && valid freg5 frs1 && valid freg5 frs2 && valid freg5 frs3 && valid arg3 rm
  then encode_inst (set_rm rm (set_rs3 frs3 (set_rs2 frs2 (set_rs1 frs1 (set_rd frd (set_op rv_op_fnmsub_s decode_init)))))) else Some 0.
Definition emit_fnmadd_s (frd frs1 frs2 frs3 rm : Z) : option Z :=
  if valid freg5 frd && valid freg5 frs1 && valid freg5 frs2 && valid freg5 frs3 && valid arg3 rm
  then encode_inst (set_rm rm (set_rs3 frs3 (set_rs2 frs2 (set_rs1 frs1 (set_rd frd (set_op rv_op_fnmadd_s decode_init)))))) else Some 0.
Definition emit_fadd_s (frd frs1 frs2 rm : Z) : option Z :=
  if valid freg5 frd && valid freg5 frs1 && valid freg5 frs2 && valid arg3 rm
  then encode_inst (set_rm rm (set_rs2 frs2 (set_rs1 frs1 (set_rd frd (set_op rv_op_fadd_s decode_init))))) else Some 0.
Definition emit_fsub_s (frd frs1 frs2 rm : Z) : option Z :=
  if valid freg5 frd && valid freg5 frs1 && valid freg5 frs2 && valid arg3 rm
  then encode_inst (set_rm rm (set_rs2 frs2 (set_rs1 frs1 (set_rd frd (set_op rv_op_fsub_s decode_init))))) else Some 0.
Definition emit_fmul_s (frd frs1 frs2 rm : Z) : option Z :=
  if valid freg5 frd && valid freg5 frs1 && valid freg5 frs2 && valid arg3 rm
  then encode_inst (set_rm rm (set_rs2 frs2 (set_rs1 frs1 (set_rd frd (set_op rv_op_fmul_s decode_init))))) else Some 0.
Definition emit_fdiv_s (frd frs1 frs2 rm : Z) : option Z :=
  if valid freg5 frd && valid freg5 frs1 && valid freg5 frs2 && valid arg3 rm
  then encode_inst (set_rm rm (set_rs2 frs2 (set_rs1 frs1 (set_rd frd (set_op rv_op_fdiv_s decode_init))))) else Some 0.
Definition emit_fsgnj_s (frd frs1 frs2 : Z) : option Z :=
  if valid freg5 frd && valid freg5 frs1 && valid freg5 frs2
  then encode_inst (set_rs2 frs2 (set_rs1 frs1 (set_rd frd (set_op rv_op_fsgnj_s decode_init)))) else Some 0.
Definition emit_fsgnjn_s (frd frs1 frs2 : Z) : option Z :=
  if valid freg5 frd && valid freg5 frs1 && valid freg5 frs2
  then encode_inst (set_rs2 frs2 (set_rs1 frs1 (set_rd frd (set_op rv_op_fsgnjn_s decode_init)))) else Some 0.
Definition emit_fsgnjx_s (frd frs1 frs2 : Z) : option Z :=
  if valid freg5 frd && valid freg5 frs1 && valid freg5 frs2
  then encode_inst (set_rs2 frs2 (set_rs1 frs1 (set_rd frd (set_op rv_op_fsgnjx_s decode_init)))) else Some 0.
Definition emit_fmin_s (frd frs1 frs2 : Z) : option Z :=
  if valid freg5 frd && valid freg5 frs1 && valid freg5 frs2
  then encode_inst (set_rs2 frs2 (set_rs1 frs1 (set_rd frd (set_op rv_op_fmin_s decode_init)))) else Some 0.
Definition emit_fmax_s (frd frs1 frs2 : Z) : option Z :=
  if valid freg5 frd && valid freg5 frs1 && valid freg5 frs2
  then encode_inst (set_rs2 frs2 (set_rs1 frs1 (set_rd frd (set_op rv_op_fmax_s decode_init)))) else Some 0.
Definition emit_fsqrt_s (frd frs1 rm : Z) : option Z :=
  if valid freg5 frd && valid freg5 frs1 && valid arg3 rm
  then encode_inst (set_rm rm (set_rs1 frs1 (set_rd frd (set_op rv_op_fsqrt_s decode_init)))) else Some 0.
Definition emit_fle_s (rd frs1 frs2 : Z) : option Z :=
  if valid ireg5 rd && valid freg5 frs1 && valid freg5 frs2
  then encode_inst (set_rs2 frs2 (set_rs1 frs1 (set_rd rd (set_op rv_op_fle_s decode_init)))) else Some 0.
Definition emit_flt_s (rd frs1 frs2 : Z) : option Z :=
  if valid ireg5 rd && valid freg5 frs1 && valid freg5 frs2
  then encode_inst (set_rs2 frs2 (set_rs1 frs1 (set_rd rd (set_op rv_op_flt_s decode_init)))) else Some 0.
Definition emit_feq_s (rd frs1 frs2 : Z) : option Z :=
  if valid ireg5 rd && valid freg5 frs1 && valid freg5 frs2
  then encode_inst (set_rs2 frs2 (set_rs1 frs1 (set_rd rd (set_op rv_op_feq_s decode_init)))) else Some 0.
Definition emit_fcvt_w_s (rd frs1 rm : Z) : option Z :=
  if valid ireg5 rd && valid freg5 frs1 && valid arg3 rm
  then encode_inst (set_rm rm (set_rs1 frs1 (set_rd rd (set_op rv_op_fcvt_w_s decode_init)))) else Some 0.
Definition emit_fcvt_wu_s (rd frs1 rm : Z) : option Z :=
  if valid ireg5 rd && valid freg5 frs1 && valid arg3 rm
  then encode_inst (set_rm rm (set_rs1 frs1 (set_rd rd (set_op rv_op_fcvt_wu_s decode_init)))) else Some 0.
Definition emit_fcvt_s_w (frd rs1 rm : Z) : option Z :=
  if valid freg5 frd && valid ireg5 rs1 && valid arg3 rm
  then encode_inst (set_rm rm (set_rs1 rs1 (set_rd frd (set_op rv_op_fcvt_s_w decode_init)))) else Some 0.
Definition emit_fcvt_s_wu (frd rs1 rm : Z) : option Z :=
  if valid freg5 frd && valid ireg5 rs1 && valid arg3 rm
  then encode_inst (set_rm rm (set_rs1 rs1 (set_rd frd (set_op rv_op_fcvt_s_wu decode_init)))) else Some 0.
Definition emit_fmv_x_s (rd frs1 : Z) : option Z :=
  if valid ireg5 rd && valid freg5 frs1
  then encode_inst (set_rs1 frs1 (set_rd rd (set_op rv_op_fmv_x_s decode_init))) else Some 0.
Definition emit_fclass_s (rd frs1 : Z) : option Z :=
  if valid ireg5 rd && valid freg5 frs1
  then encode_inst (set_rs1 frs1 (set_rd rd (set_op rv_op_fclass_s decode_init))) else Some 0.
Definition emit_fmv_s_x (frd rs1 : Z) : option Z :=
  if valid freg5 frd && valid ireg5 rs1
  then encode_inst (set_rs1 rs1 (set_rd frd (set_op rv_op_fmv_s_x decode_init))) else Some 0.
Definition emit_fcvt_l_s (rd frs1 rm : Z) : option Z :=
  if valid ireg5 rd && valid freg5 frs1 && valid arg3 rm
  then encode_inst (set_rm rm (set_rs1 frs1 (set_rd rd (set_op rv_op_fcvt_l_s decode_init)))) else Some 0.
Definition emit_fcvt_lu_s (rd frs1 rm : Z) : option Z :=
  if valid ireg5 rd && valid freg5 frs1 && valid arg3 rm
  then encode_inst (set_rm rm (set_rs1 frs1 (set_rd rd (set_op rv_op_fcvt_lu_s decode_init)))) else Some 0.
Definition emit_fcvt_s_l (frd rs1 rm : Z) : option Z :=
  if valid freg5 frd && valid ireg5 rs1 && valid arg3 rm
  then encode_inst (set_rm rm (set_rs1 rs1 (set_rd frd (set_op rv_op_fcvt_s_l decode_init)))) else Some 0.
Definition emit_fcvt_s_lu (frd rs1 rm : Z) : option Z :=
  if valid freg5 frd && valid ireg5 rs1 && valid arg3 rm
  then encode_inst (set_rm rm (set_rs1 rs1 (set_rd frd (set_op rv_op_fcvt_s_lu decode_init)))) else Some 0.
Definition emit_fld (frd rs1 oimm12 : Z) : option Z :=
  if valid freg5 frd && valid ireg5 rs1 && valid offset12 oimm12
  then encode_inst (set_imm oimm12 (set_rs1 rs1 (set_rd frd (set_op rv_op_fld decode_init)))) else Some 0.
Definition emit_fsd (rs1 frs2 simm12 : Z) : option Z :=
  if valid ireg5 rs1 && valid freg5 frs2 && valid offset12 simm12
  then encode_inst (set_imm simm12 (set_rs2 frs2 (set_rs1 rs1 (set_op rv_op_fsd decode_init)))) else Some 0.
Definition emit_fmadd_d (frd frs1 frs2 frs3 rm : Z) : option Z :=
  if valid freg5 frd && valid freg5 frs1 && valid freg5 frs2 && valid freg5 frs3 && valid arg3 rm
  then encode_inst (set_rm rm (set_rs3 frs3 (set_rs2 frs2 (set_rs1 frs1 (set_rd frd (set_op rv_op_fmadd_d decode_init)))))) else Some 0.
Definition emit_fmsub_d (frd frs1 frs2 frs3 rm : Z) : option Z :=
  if valid freg5 frd && valid freg5 frs1 && valid freg5 frs2 && valid freg5 frs3 && valid arg3 rm
  then encode_inst (set_rm rm (set_rs3 frs3 (set_rs2 frs2 (set_rs1 frs1 (set_rd frd (set_op rv_op_fmsub_d decode_init)))))) else Some 0.
Definition emit_fnmsub_d (frd frs1 frs2 frs3 rm : Z) : option Z :=
  if valid freg5 frd && valid freg5 frs1 && valid freg5 frs2 && valid freg5 frs3 && valid arg3 rm
  then encode_inst (set_rm rm (set_rs3 frs3 (set_rs2 frs2 (set_rs1 frs1 (set_rd frd (set_op rv_op_fnmsub_d decode_init)))))) else Some 0.
Definition emit_fnmadd_d (frd frs1 frs2 frs3 rm : Z) : option Z :=
  if valid freg5 frd && valid freg5 frs1 && valid freg5 frs2 && valid freg5 frs3 && valid arg3 rm
  then encode_inst (set_rm rm (set_rs3 frs3 (set_rs2 frs2 (set_rs1 frs1 (set_rd frd (set_op rv_op_fnmadd_d decode_init)))))) else Some 0.
Definition emit_fadd_d (frd frs1 frs2 rm : Z) : option Z :=
  if valid freg5 frd && valid freg5 frs1 && valid freg5 frs2 && valid arg3 rm
  then encode_inst (set_rm rm (set_rs2 frs2 (set_rs1 frs1 (set_rd frd (set_op rv_op_fadd_d decode_init))))) else Some 0.
Definition emit_fsub_d (frd frs1 frs2 rm : Z) : option Z :=
  if valid freg5 frd && valid freg5 frs1 && valid freg5 frs2 && valid arg3 rm
  then encode_inst (set_rm rm (set_rs2 frs2 (set_rs1 frs1 (set_rd frd (set_op rv_op_fsub_d decode_init))))) else Some 0.
Definition emit_fmul_d (frd frs1 frs2 rm : Z) : option Z :=
  if valid freg5 frd && valid freg5 frs1 && valid freg5 frs2 && valid arg3 rm
  then encode_inst (set_rm rm (set_rs2 frs2 (set_rs1 frs1 (set_rd frd (set_op rv_op_fmul_d decode_init))))) else Some 0.
Definition emit_fdiv_d (frd frs1 frs2 rm : Z) : option Z :=
  if valid freg5 frd && valid freg5 frs1 && valid freg5 frs2 && valid arg3 rm
  then encode_inst (set_rm rm (set_rs2 frs2 (set_rs1 frs1 (set_rd frd (set_op rv_op_fdiv_d decode_init))))) else Some 0.
Definition emit_fsgnj_d (frd frs1 frs2 : Z) : option Z :=
  if valid freg5 frd && valid freg5 frs1 && valid freg5 frs2
  then encode_inst (set_rs2 frs2 (set_rs1 frs1 (set_rd frd (set_op rv_op_fsgnj_d decode_init)))) else Some 0.
Definition emit_fsgnjn_d (frd frs1 frs2 : Z) : option Z :=
  if valid freg5 frd && valid freg5 frs1 && valid freg5 frs2
  then encode_inst (set_rs2 frs2 (set_rs1 frs1 (set_rd frd (set_op rv_op_fsgnjn_d decode_init)))) else Some 0.
Definition emit_fsgnjx_d (frd frs1 frs2 : Z) : option Z :=
  if valid freg5 frd && valid freg5 frs1 && valid freg5 frs2
  then encode_inst (set_rs2 frs2 (set_rs1 frs1 (set_rd frd (set_op rv_op_fsgnjx_d decode_init)))) else Some 0.
Definition emit_fmin_d (frd frs1 frs2 : Z) : option Z :=
  if valid freg5 frd && valid freg5 frs1 && valid freg5 frs2
  then encode_inst (set_rs2 frs2 (set_rs1 frs1 (set_rd frd (set_op rv_op_fmin_d decode_init)))) else Some 0.
Definition emit_fmax_d (frd frs1 frs2 : Z) : option Z :=
  if valid freg5 frd && valid freg5 frs1 && valid freg5 frs2
  then encode_inst (set_rs2 frs2 (set_rs1 frs1 (set_rd frd (set_op rv_op_fmax_d decode_init)))) else Some 0.
Definition emit_fcvt_s_d (frd frs1 rm : Z) : option Z :=
  if valid freg5 frd && valid freg5 frs1 && valid arg3 rm
  then encode_inst (set_rm rm (set_rs1 frs1 (set_rd frd (set_op rv_op_fcvt_s_d decode_init)))) else Some 0.
Definition emit_fcvt_d_s (frd frs1 rm : Z) : option Z :=
  if valid freg5 frd && valid freg5 frs1 && valid arg3 rm
  then encode_inst (set_rm rm (set_rs1 frs1 (set_rd frd (set_op rv_op_fcvt_d_s decode_init)))) else Some 0.
Definition emit_fsqrt_d (frd frs1 rm : Z) : option Z :=
  if valid freg5 frd && valid freg5 frs1 && valid arg3 rm
  then encode_inst (set_rm rm (set_rs1 frs1 (set_rd frd (set_op rv_op_fsqrt_d decode_init)))) else Some 0.
Definition emit_fle_d (rd frs1 frs2 : Z) : option Z :=
  if valid ireg5 rd && valid freg5 frs1 && valid freg5 frs2
  then encode_inst (set_rs2 frs2 (set_rs1 frs1 (set_rd rd (set_op rv_op_fle_d decode_init)))) else Some 0.
Definition emit_flt_d (rd frs1 frs2 : Z) : option Z :=
  if valid ireg5 rd && valid freg5 frs1 && valid freg5 frs2
  then encode_inst (set_rs2 frs2 (set_rs1 frs1 (set_rd rd (set_op rv_op_flt_d decode_init)))) else Some 0.
Definition emit_feq_d (rd frs1 frs2 : Z) : option Z :=
  if valid ireg5 rd && valid freg5 frs1 && valid freg5 frs2
  then encode_inst (set_rs2 frs2 (set_rs1 frs1 (set_rd rd (set_op rv_op_feq_d decode_init)))) else Some 0.
Definition emit_fcvt_w_d (rd frs1 rm : Z) : option Z :=
  if valid ireg5 rd && valid freg5 frs1 && valid arg3 rm
  then encode_inst (set_rm rm (set_rs1 frs1 (set_rd rd (set_op rv_op_fcvt_w_d decode_init)))) else Some 0.
Definition emit_fcvt_wu_d (rd frs1 rm : Z) : option Z :=
  if valid ireg5 rd && valid freg5 frs1 && valid arg3 rm
  then encode_inst (set_rm rm (set_rs1 frs1 (set_rd rd (set_op rv_op_fcvt_wu_d decode_init)))) else Some 0.
Definition emit_fcvt_d_w (frd rs1 rm : Z) : option Z :=
  if valid freg5 frd && valid ireg5 rs1 && valid arg3 rm
  then encode_inst (set_rm rm (set_rs1 rs1 (set_rd frd (set_op rv_op_fcvt_d_w decode_init)))) else Some 0.
Definition emit_fcvt_d_wu (frd rs1 rm : Z) : option Z :=
  if valid freg5 frd && valid ireg5 rs1 && valid arg3 rm
  then encode_inst (set_rm rm (set_rs1 rs1 (set_rd frd (set_op rv_op_fcvt_d_wu decode_init)))) else Some 0.
Definition emit_fclass_d (rd frs1 : Z) : option Z :=
  if valid ireg5 rd && valid freg5 frs1
  then encode_inst (set_rs1 frs1 (set_rd rd (set_op rv_op_fclass_d decode_init))) else Some 0.
Definition emit_fcvt_l_d (rd frs1 rm : Z) : option Z :=
  if valid ireg5 rd && valid freg5 frs1 && valid arg3 rm
  then encode_inst (set_rm rm (set_rs1 frs1 (set_rd rd (set_op rv_op_fcvt_l_d decode_init)))) else Some 0.
Definition emit_fcvt_lu_d (rd frs1 rm : Z) : option Z :=
  if valid ireg5 rd && valid freg5 frs1 && valid arg3 rm
  then encode_inst (set_rm rm (set_rs1 frs1 (set_rd rd (set_op rv_op_fcvt_lu_d decode_init)))) else Some 0.
Definition emit_fmv_x_d (rd frs1 : Z) : option Z :=
  if valid ireg5 rd && valid freg5 frs1
  then encode_inst (set_rs1 frs1 (set_rd rd (set_op rv_op_fmv_x_d decode_init))) else Some 0.
Definition emit_fcvt_d_l (frd rs1 rm : Z) : option Z :=
  if valid freg5 frd && valid ireg5 rs1 && valid arg3 rm
  then encode_inst (set_rm rm (set_rs1 rs1 (set_rd frd (set_op rv_op_fcvt_d_l decode_init)))) else Some 0.
Definition emit_fcvt_d_lu (frd rs1 rm : Z) : option Z :=
  if valid freg5 frd && valid ireg5 rs1 && valid arg3 rm
  then encode_inst (set_rm rm (set_rs1 rs1 (set_rd frd (set_op rv_op_fcvt_d_lu decode_init)))) else Some 0.
Definition emit_fmv_d_x (frd rs1 : Z) : option Z :=
  if valid freg5 frd && valid ireg5 rs1
  then encode_inst (set_rs1 rs1 (set_rd frd (set_op rv_op_fmv_d_x decode_init))) else Some 0.
Definition emit_flq (frd rs1 oimm12 : Z) : option Z :=
  if valid freg5 frd && valid ireg5 rs1 && valid offset12 oimm12
  then encode_inst (set_imm oimm12 (set_rs1 rs1 (set_rd frd (set_op rv_op_flq decode_init)))) else Some 0.
Definition emit_fsq (rs1 frs2 simm12 : Z) : option Z :=
  if valid ireg5 rs1 && valid freg5 frs2 && valid offset12 simm12
  then encode_inst (set_imm simm12 (set_rs2 frs2 (set_rs1 rs1 (set_op rv_op_fsq decode_init)))) else Some 0.
Definition emit_fmadd_q (frd frs1 frs2 frs3 rm : Z) : option Z :=
  if valid freg5 frd && valid freg5 frs1 && valid freg5 frs2 && valid freg5 frs3 && valid arg3 rm
  then encode_inst (set_rm rm (set_rs3 frs3 (set_rs2 frs2 (set_rs1 frs1 (set_rd frd (set_op rv_op_fmadd_q decode_init)))))) else Some 0.
Definition emit_fmsub_q (frd frs1 frs2 frs3 rm : Z) : option Z :=
  if valid freg5 frd && valid freg5 frs1 && valid freg5 frs2 && valid freg5 frs3 && valid arg3 rm
  then encode_inst (set_rm rm (set_rs3 frs3 (set_rs2 frs2 (set_rs1 frs1 (set_rd frd (set_op rv_op_fmsub_q decode_init)))))) else Some 0.
Definition emit_fnmsub_q (frd frs1 frs2 frs3 rm : Z) : option Z :=
  if valid freg5 frd && valid freg5 frs1 && valid freg5 frs2 && valid freg5 frs3 && valid arg3 rm
  then encode_inst (set_rm rm (set_rs3 frs3 (set_rs2 frs2 (set_rs1 frs1 (set_rd frd (set_op rv_op_fnmsub_q decode_init)))))) else Some 0.
Definition emit_fnmadd_q (frd frs1 frs2 frs3 rm : Z) : option Z :=
  if valid freg5 frd && valid freg5 frs1 && valid freg5 frs2 && valid freg5 frs3 && valid arg3 rm
  then encode_inst (set_rm rm (set_rs3 frs3 (set_rs2 frs2 (set_rs1 frs1 (set_rd frd (set_op rv_op_fnmadd_q decode_init)))))) else Some 0.
Definition emit_fadd_q (frd frs1 frs2 rm : Z) : option Z :=
  if valid freg5 frd && valid freg5 frs1 && valid freg5 frs2 && valid arg3 rm
  then encode_inst (set_rm rm (set_rs2 frs2 (set_rs1 frs1 (set_rd frd (set_op rv_op_fadd_q decode_init))))) else Some 0.
Definition emit_fsub_q (frd frs1 frs2 rm : Z) : option Z :=
  if valid freg5 frd && valid freg5 frs1 && valid freg5 frs2 && valid arg3 rm
  then encode_inst (set_rm rm (set_rs2 frs2 (set_rs1 frs1 (set_rd frd (set_op rv_op_fsub_q decode_init))))) else Some 0.
Definition emit_fmul_q (frd frs1 frs2 rm : Z) : option Z :=
  if valid freg5 frd && valid freg5 frs1 && valid freg5 frs2 && valid arg3 rm
  then encode_inst (set_rm rm (set_rs2 frs2 (set_rs1 frs1 (set_rd frd (set_op rv_op_fmul_q decode_init))))) else Some 0.
Definition emit_fdiv_q (frd frs1 frs2 rm : Z) : option Z :=
  if valid freg5 frd && valid freg5 frs1 && valid freg5 frs2 && valid arg3 rm
  then encode_inst (set_rm rm (set_rs2 frs2 (set_rs1 frs1 (set_rd frd (set_op rv_op_fdiv_q decode_init))))) else Some 0.
Definition emit_fsgnj_q (frd frs1 frs2 : Z) : option Z :=
  if valid freg5 frd && valid freg5 frs1 && valid freg5 frs2
  then encode_inst (set_rs2 frs2 (set_rs1 frs1 (set_rd frd (set_op rv_op_fsgnj_q decode_init)))) else Some 0.
Definition emit_fsgnjn_q (frd frs1 frs2 : Z) : option Z :=
  if valid freg5 frd && valid freg5 frs1 && valid freg5 frs2
  then encode_inst (set_rs2 frs2 (set_rs1 frs1 (set_rd frd (set_op rv_op_fsgnjn_q decode_init)))) else Some 0.
Definition emit_fsgnjx_q (frd frs1 frs2 : Z) : option Z :=
  if valid freg5 frd && valid freg5 frs1 && valid freg5 frs2
  then encode_inst (set_rs2 frs2 (set_rs1 frs1 (set_rd frd (set_op rv_op_fsgnjx_q decode_init)))) else Some 0.
Definition emit_fmin_q (frd frs1 frs2 : Z) : option Z :=
  if valid freg5 frd && valid freg5 frs1 && valid freg5 frs2
  then encode_inst (set_rs2 frs2 (set_rs1 frs1 (set_rd frd (set_op rv_op_fmin_q decode_init)))) else Some 0.
Definition emit_fmax_q (frd frs1 frs2 : Z) : option Z :=
  if valid freg5 frd && valid freg5 frs1 && valid freg5 frs2
  then encode_inst (set_rs2 frs2 (set_rs1 frs1 (set_rd frd (set_op rv_op_fmax_q decode_init)))) else Some 0.
Definition emit_fcvt_s_q (frd frs1 rm : Z) : option Z :=
  if valid freg5 frd && valid freg5 frs1 && valid arg3 rm
  then encode_inst (set_rm rm (set_rs1 frs1 (set_rd frd (set_op rv_op_fcvt_s_q decode_init)))) else Some 0.
Definition emit_fcvt_q_s (frd frs1 rm : Z) : option Z :=
  if valid freg5 frd && valid freg5 frs1 && valid arg3 rm
  then encode_inst (set_rm rm (set_rs1 frs1 (set_rd frd (set_op rv_op_fcvt_q_s decode_init)))) else Some 0.
Definition emit_fcvt_d_q (frd frs1 rm : Z) : option Z :=
  if valid freg5 frd && valid freg5 frs1 && valid arg3 rm
  then encode_inst (set_rm rm (set_rs1 frs1 (set_rd frd (set_op rv_op_fcvt_d_q decode_init)))) else Some 0.
Definition emit_fcvt_q_d (frd frs1 rm : Z) : option Z :=
  if valid freg5 frd && valid freg5 frs1 && valid arg3 rm
  then encode_inst (set_rm rm (set_rs1 frs1 (set_rd frd (set_op rv_op_fcvt_q_d decode_init)))) else Some 0.
Definition emit_fsqrt_q (frd frs1 rm : Z) : option Z :=
  if valid freg5 frd && valid freg5 frs1 && valid arg3 rm
  then encode_inst (set_rm rm (set_rs1 frs1 (set_rd frd (set_op rv_op_fsqrt_q decode_init)))) else Some 0.
Definition emit_fle_q (rd frs1 frs2 : Z) : option Z :=
  if valid ireg5 rd && valid freg5 frs1 && valid freg5 frs2
  then encode_inst (set_rs2 frs2 (set_rs1 frs1 (set_rd rd (set_op rv_op_fle_q decode_init)))) else Some 0.
Definition emit_flt_q (rd frs1 frs2 : Z) : option Z :=
  if valid ireg5 rd && valid freg5 frs1 && valid freg5 frs2
  then encode_inst (set_rs2 frs2 (set_rs1 frs1 (set_rd rd (set_op rv_op_flt_q decode_init)))) else Some 0.
Definition emit_feq_q (rd frs1 frs2 : Z) : option Z :=
  if valid ireg5 rd && valid freg5 frs1 && valid freg5 frs2
  then encode_inst (set_rs2 frs2 (set_rs1 frs1 (set_rd rd (set_op rv_op_feq_q decode_init)))) else Some 0.
Definition emit_fcvt_w_q (rd frs1 rm : Z) : option Z :=
  if valid ireg5 rd && valid freg5 frs1 && valid arg3 rm
  then encode_inst (set_rm rm (set_rs1 frs1 (set_rd rd (set_op rv_op_fcvt_w_q decode_init)))) else Some 0.
Definition emit_fcvt_wu_q (rd frs1 rm : Z) : option Z :=
  if valid ireg5 rd && valid freg5 frs1 && valid arg3 rm
  then encode_inst (set_rm rm (set_rs1 frs1 (set_rd rd (set_op rv_op_fcvt_wu_q decode_init)))) else Some 0.
Definition emit_fcvt_q_w (frd rs1 rm : Z) : option Z :=
  if valid freg5 frd && valid ireg5 rs1 && valid arg3 rm
  then encode_inst (set_rm rm (set_rs1 rs1 (set_rd frd (set_op rv_op_fcvt_q_w decode_init)))) else Some 0.
Definition emit_fcvt_q_wu (frd rs1 rm : Z) : option Z :=
  if valid freg5 frd && valid ireg5 rs1 && valid arg3 rm
  then encode_inst (set_rm rm (set_rs1 rs1 (set_rd frd (set_op rv_op_fcvt_q_wu decode_init)))) else Some 0.
Definition emit_fclass_q (rd frs1 : Z) : option Z :=
  if valid ireg5 rd && valid freg5 frs1
  then encode_inst (set_rs1 frs1 (set_rd rd (set_op rv_op_fclass_q decode_init))) else Some 0.
Definition emit_fcvt_l_q (rd frs1 rm : Z) : option Z :=
  if valid ireg5 rd && valid freg5 frs1 && valid arg3 rm
  then encode_inst (set_rm rm (set_rs1 frs1 (set_rd rd (set_op rv_op_fcvt_l_q decode_init)))) else Some 0.
Definition emit_fcvt_lu_q (rd frs1 rm : Z) : option Z :=
  if valid ireg5 rd && valid freg5 frs1 && valid arg3 rm
  then encode_inst (set_rm rm (set_rs1 frs1 (set_rd rd (set_op rv_op_fcvt_lu_q decode_init)))) else Some 0.
Definition emit_fcvt_q_l (frd rs1 rm : Z) : option Z :=
  if valid freg5 frd && valid ireg5 rs1 && valid arg3 rm
  then encode_inst (set_rm rm (set_rs1 rs1 (set_rd frd (set_op rv_op_fcvt_q_l decode_init)))) else Some 0.
Definition emit_fcvt_q_lu (frd rs1 rm : Z) : option Z :=
  if valid freg5 frd && valid ireg5 rs1 && valid arg3 rm
  then encode_inst (set_rm rm (set_rs1 rs1 (set_rd frd (set_op rv_op_fcvt_q_lu decode_init)))) else Some 0.
Definition emit_fmv_x_q (rd frs1 : Z) : option Z :=
  if valid ireg5 rd && valid freg5 frs1
  then encode_inst (set_rs1 frs1 (set_rd rd (set_op rv_op_fmv_x_q decode_init))) else Some 0.
Definition emit_fmv_q_x (frd rs1 : Z) : option Z :=
  if valid freg5 frd && valid ireg5 rs1
  then encode_inst (set_rs1 rs1 (set_rd frd (set_op rv_op_fmv_q_x decode_init))) else Some 0.

(** ** [asm_<op>]: the instruction is added to the current section; the result
    is whether it was. *)
Definition asm_lui (rd imm20 : Z) (a : assembler) : option (bool * assembler) :=
  if valid ireg5 rd && valid simm32 imm20
  then i ← encode_inst (set_imm imm20 (set_rd rd (set_op rv_op_lui decode_init))); Some (true, add_inst i a) else Some (false, a).
Definition asm_auipc (rd oimm20 : Z) (a : assembler) : option (bool * assembler) :=
  if valid ireg5 rd && valid offset32 oimm20
  then i ← encode_inst (set_imm oimm20 (set_rd rd (set_op rv_op_auipc decode_init))); Some (true, add_inst i a) else Some (false, a).
Definition asm_jal (rd jimm20 : Z) (a : assembler) : option (bool * assembler) :=
  if valid ireg5 rd && valid offset21 jimm20
  then i ← encode_inst (set_imm jimm20 (set_rd rd (set_op rv_op_jal decode_init))); Some (true, add_inst i a) else Some (false, a).
Definition asm_jalr (rd rs1 imm12 : Z) (a : assembler) : option (bool * assembler) :=
  if valid ireg5 rd && valid ireg5 rs1 && valid simm12 imm12
  then i ← encode_inst (set_imm imm12 (set_rs1 rs1 (set_rd rd (set_op rv_op_jalr decode_init)))); Some (true, add_inst i a) else Some (false, a).
Definition asm_beq (rs1 rs2 sbimm12 : Z) (a : assembler) : option (bool * assembler) :=
  if valid ireg5 rs1 && valid ireg5 rs2 && valid offset13 sbimm12
  then i ← encode_inst (set_imm sbimm12 (set_rs2 rs2 (set_rs1 rs1 (set_op rv_op_beq decode_init)))); Some (true, add_inst i a) else Some (false, a).
Definition asm_bne (rs1 rs2 sbimm12 : Z) (a : assembler) : option (bool * assembler) :=
  if valid ireg5 rs1 && valid ireg5 rs2 && valid offset13 sbimm12
  then i ← encode_inst (set_imm sbimm12 (set_rs2 rs2 (set_rs1 rs1 (set_op rv_op_bne decode_init)))); Some (true, add_inst i a) else Some (false, a).
Definition asm_blt (rs1 rs2 sbimm12 : Z) (a : assembler) : option (bool * assembler) :=
  if valid ireg5 rs1 && valid ireg5 rs2 && valid offset13 sbimm12
  then i ← encode_inst (set_imm sbimm12 (set_rs2 rs2 (set_rs1 rs1 (set_op rv_op_blt decode_init)))); Some (true, add_inst i a) else Some (false, a).
Definition asm_bge (rs1 rs2 sbimm12 : Z) (a : assembler) : option (bool * assembler) :=
  if valid ireg5 rs1 && valid ireg5 rs2 && valid offset13 sbimm12
  then i ← encode_inst (set_imm sbimm12 (set_rs2 rs2 (set_rs1 rs1 (set_op rv_op_bge decode_init)))); Some (true, add_inst i a) else Some (false, a).
Definition asm_bltu (rs1 rs2 sbimm12 : Z) (a : assembler) : option (bool * assembler) :=
  if valid ireg5 rs1 && valid ireg5 rs2 && valid offset13 sbimm12
  then i ← encode_inst (set_imm sbimm12 (set_rs2 rs2 (set_rs1 rs1 (set_op rv_op_bltu decode_init)))); Some (true, add_inst i a) else Some (false, a).
Definition asm_bgeu (rs1 rs2 sbimm12 : Z) (a : assembler) : option (bool * assembler) :=
  if valid ireg5 rs1 && valid ireg5 rs2 && valid offset13 sbimm12
  then i ← encode_inst (set_imm sbimm12 (set_rs2 rs2 (set_rs1 rs1 (set_op rv_op_bgeu decode_init)))); Some (true, add_inst i a) else Some (false, a).
Definition asm_lb (rd rs1 oimm12 : Z) (a : assembler) : option (bool * assembler) :=
  if valid ireg5 rd && valid ireg5 rs1 && valid offset12 oimm12
  then i ← encode_inst (set_imm oimm12 (set_rs1 rs1 (set_rd rd (set_op rv_op_lb decode_init)))); Some (true, add_inst i a) else Some (false, a).
Definition asm_lh (rd rs1 oimm12 : Z) (a : assembler) : option (bool * assembler) :=
  if valid ireg5 rd && valid ireg5 rs1 && valid offset12 oimm12
  then i ← encode_inst (set_imm oimm12 (set_rs1 rs1 (set_rd rd (set_op rv_op_lh decode_init)))); Some (true, add_inst i a) else Some (false, a).
Definition asm_lw (rd rs1 oimm12 : Z) (a : assembler) : option (bool * assembler) :=
  if valid ireg5 rd && valid ireg5 rs1 && valid offset12 oimm12
  then i ← encode_inst (set_imm oimm12 (set_rs1 rs1 (set_rd rd (set_op rv_op_lw decode_init)))); Some (true, add_inst i a) else Some (false, a).
Definition asm_lbu (rd rs1 oimm12 : Z) (a : assembler) : option (bool * assembler) :=
  if valid ireg5 rd && valid ireg5 rs1 && valid offset12 oimm12
  then i ← encode_inst (set_imm oimm12 (set_rs1 rs1 (set_rd rd (set_op rv_op_lbu decode_init)))); Some (true, add_inst i a) else Some (false, a).
Definition asm_lhu (rd rs1 oimm12 : Z) (a : assembler) : option (bool * assembler) :=
  if valid ireg5 rd && valid ireg5 rs1 && valid offset12 oimm12
  then i ← encode_inst (set_imm oimm12 (set_rs1 rs1 (set_rd rd (set_op rv_op_lhu decode_init)))); Some (true, add_inst i a) else Some (false, a).
Definition asm_sb (rs1 rs2 simm12 : Z) (a : assembler) : option (bool * assembler) :=
  if valid ireg5 rs1 && valid ireg5 rs2 && valid offset12 simm12
  then i ← encode_inst (set_imm simm12 (set_rs2 rs2 (set_rs1 rs1 (set_op rv_op_sb decode_init)))); Some (true, add_inst i a) else Some (false, a).
Definition asm_sh (rs1 rs2 simm12 : Z) (a : assembler) : option (bool * assembler) :=
  if valid ireg5 rs1 && valid ireg5 rs2 && valid offset12 simm12
  then i ← encode_inst (set_imm simm12 (set_rs2 rs2 (set_rs1 rs1 (set_op rv_op_sh decode_init)))); Some (true, add_inst i a) else Some (false, a).
Definition asm_sw (rs1 rs2 simm12 : Z) (a : assembler) : option (bool * assembler) :=
  if valid ireg5 rs1 && valid ireg5 rs2 && valid offset12 simm12
  then i ← encode_inst (set_imm simm12 (set_rs2 rs2 (set_rs1 rs1 (set_op rv_op_sw decode_init)))); Some (true, add_inst i a) else Some (false, a).
Definition asm_addi (rd rs1 imm12 : Z) (a : assembler) : option (bool * assembler) :=
  if valid ireg5 rd && valid ireg5 rs1 && valid simm12 imm12
  then i ← encode_inst (set_imm imm12 (set_rs1 rs1 (set_rd rd (set_op rv_op_addi decode_init)))); Some (true, add_inst i a) else Some (false, a).
Definition asm_slti (rd rs1 imm12 : Z) (a : assembler) : option (bool * assembler) :=
  if valid ireg5 rd && valid ireg5 rs1 && valid simm12 imm12
  then i ← encode_inst (set_imm imm12 (set_rs1 rs1 (set_rd rd (set_op rv_op_slti decode_init)))); Some (true, add_inst i a) else Some (false, a).
Definition asm_sltiu (rd rs1 imm12 : Z) (a : assembler) : option (bool * assembler) :=
  if valid ireg5 rd && valid ireg5 rs1 && valid simm12 imm12
  then i ← encode_inst (set_imm imm12 (set_rs1 rs1 (set_rd rd (set_op rv_op_sltiu decode_init)))); Some (true, add_inst i a) else Some (false, a).
Definition asm_xori (rd rs1 imm12 : Z) (a : assembler) : option (bool * assembler) :=
  if valid ireg5 rd && valid ireg5 rs1 && valid simm12 imm12
  then i ← encode_inst (set_imm imm12 (set_rs1 rs1 (set_rd rd (set_op rv_op_xori decode_init)))); Some (true, add_inst i a) else Some (false, a).
Definition asm_ori (rd rs1 imm12 : Z) (a : assembler) : option (bool * assembler) :=
  if valid ireg5 rd && valid ireg5 rs1 && valid simm12 imm12
  then i ← encode_inst (set_imm imm12 (set_rs1 rs1 (set_rd rd (set_op rv_op_ori decode_init)))); Some (true, add_inst i a) else Some (false, a).
Definition asm_andi (rd rs1 imm12 : Z) (a : assembler) : option (bool * assembler) :=
  if valid ireg5 rd && valid ireg5 rs1 && valid simm12 imm12
  then i ← encode_inst (set_imm imm12 (set_rs1 rs1 (set_rd rd (set_op rv_op_andi decode_init)))); Some (true, add_inst i a) else Some (false, a).
Definition asm_slli (rd rs1 shamt7 : Z) (a : assembler) : option (bool * assembler) :=
  if valid ireg5 rd && valid ireg5 rs1 && valid uimm7 shamt7
  then i ← encode_inst (set_imm shamt7 (set_rs1 rs1 (set_rd rd (set_op rv_op_slli decode_init)))); Some (true, add_inst i a) else Some (false, a).
Definition asm_srli (rd rs1 shamt7 : Z) (a : assembler) : option (bool * assembler) :=
  if valid ireg5 rd && valid ireg5 rs1 && valid uimm7 shamt7
  then i ← encode_inst (set_imm shamt7 (set_rs1 rs1 (set_rd rd (set_op rv_op_srli decode_init)))); Some (true, add_inst i a) else Some (false, a).
Definition asm_srai (rd rs1 shamt7 : Z) (a : assembler) : option (bool * assembler) :=
  if valid ireg5 rd && valid ireg5 rs1 && valid uimm7 shamt7
  then i ← encode_inst (set_imm shamt7 (set_rs1 rs1 (set_rd rd (set_op rv_op_srai decode_init)))); Some (true, add_inst i a) else Some (false, a).
Definition asm_add (rd rs1 rs2 : Z) (a : assembler) : option (bool * assembler) :=
  if valid ireg5 rd && valid ireg5 rs1 && valid ireg5 rs2
  then i ← encode_inst (set_rs2 rs2 (set_rs1 rs1 (set_rd rd (set_op rv_op_add decode_init)))); Some (true, add_inst i a) else Some (false, a).
Definition asm_sub (rd rs1 rs2 : Z) (a : assembler) : option (bool * assembler) :=
  if valid ireg5 rd && valid ireg5 rs1 && valid ireg5 rs2
  then i ← encode_inst (set_rs2 rs2 (set_rs1 rs1 (set_rd rd (set_op rv_op_sub decode_init)))); Some (true, add_inst i a) else Some (false, a).
Definition asm_sll (rd rs1 rs2 : Z) (a : assembler) : option (bool * assembler) :=
  if valid ireg5 rd && valid ireg5 rs1 && valid ireg5 rs2
  then i ← encode_inst (set_rs2 rs2 (set_rs1 rs1 (set_rd rd (set_op rv_op_sll decode_init)))); Some (true, add_inst i a) else Some (false, a).
Definition asm_slt (rd rs1 rs2 : Z) (a : assembler) : option (bool * assembler) :=
  if valid ireg5 rd && valid ireg5 rs1 && valid ireg5 rs2
  then i ← encode_inst (set_rs2 rs2 (set_rs1 rs1 (set_rd rd (set_op rv_op_slt decode_init)))); Some (true, add_inst i a) else Some (false, a).
Definition asm_sltu (rd rs1 rs2 : Z) (a : assembler) : option (bool * assembler) :=
  if valid ireg5 rd && valid ireg5 rs1 && valid ireg5 rs2
  then i ← encode_inst (set_rs2 rs2 (set_rs1 rs1 (set_rd rd (set_op rv_op_sltu decode_init)))); Some (true, add_inst i a) else Some (false, a).
Definition asm_xor (rd rs1 rs2 : Z) (a : assembler) : option (bool * assembler) :=
  if valid ireg5 rd && valid ireg5 rs1 && valid ireg5 rs2
  then i ← encode_inst (set_rs2 rs2 (set_rs1 rs1 (set_rd rd (set_op rv_op_xor decode_init)))); Some (true, add_inst i a) else Some (false, a).
Definition asm_srl (rd rs1 rs2 : Z) (a : assembler) : option (bool * assembler) :=
  if valid ireg5 rd && valid ireg5 rs1 && valid ireg5 rs2
  then i ← encode_inst (set_rs2 rs2 (set_rs1 rs1 (set_rd rd (set_op rv_op_srl decode_init)))); Some (true, add_inst i a) else Some (false, a).
Definition asm_sra (rd rs1 rs2 : Z) (a : assembler) : option (bool * assembler) :=
  if valid ireg5 rd && valid ireg5 rs1 && valid ireg5 rs2
  then i ← encode_inst (set_rs2 rs2 (set_rs1 rs1 (set_rd rd (set_op rv_op_sra decode_init)))); Some (true, add_inst i a) else Some (false, a).
Definition asm_or (rd rs1 rs2 : Z) (a : assembler) : option (bool * assembler) :=
  if valid ireg5 rd && valid ireg5 rs1 && valid ireg5 rs2
  then i ← encode_inst (set_rs2 rs2 (set_rs1 rs1 (set_rd rd (set_op rv_op_or decode_init)))); Some (true, add_inst i a) else Some (false, a).
Definition asm_and (rd rs1 rs2 : Z) (a : assembler) : option (bool * assembler) :=
  if valid ireg5 rd && valid ireg5 rs1 && valid ireg5 rs2
  then i ← encode_inst (set_rs2 rs2 (set_rs1 rs1 (set_rd rd (set_op rv_op_and decode_init)))); Some (true, add_inst i a) else Some (false, a).
Definition asm_fence (pred succ : Z) (a : assembler) : option (bool * assembler) :=
  if valid arg4 pred && valid arg4 succ
  then i ← encode_inst (set_succ succ (set_pred pred (set_op rv_op_fence decode_init))); Some (true, add_inst i a) else Some (false, a).
Definition asm_fence_i (a : assembler) : option (bool * assembler) :=
  i ← encode_inst (set_op rv_op_fence_i decode_init); Some (true, add_inst i a).
Definition asm_lwu (rd rs1 oimm12 : Z) (a : assembler) : option (bool * assembler) :=
  if valid ireg5 rd && valid ireg5 rs1 && valid offset12 oimm12
  then i ← encode_inst (set_imm oimm12 (set_rs1 rs1 (set_rd rd (set_op rv_op_lwu decode_init)))); Some (true, add_inst i a) else Some (false, a).
Definition asm_ld (rd rs1 oimm12 : Z) (a : assembler) : option (bool * assembler) :=
  if valid ireg5 rd && valid ireg5 rs1 && valid offset12 oimm12
  then i ← encode_inst (set_imm oimm12 (set_rs1 rs1 (set_rd rd (set_op rv_op_ld decode_init)))); Some (true, add_inst i a) else Some (false, a).
Definition asm_sd (rs1 rs2 simm12 : Z) (a : assembler) : option (bool * assembler) :=
  if valid ireg5 rs1 && valid ireg5 rs2 && valid offset12 simm12
  then i ← encode_inst (set_imm simm12 (set_rs2 rs2 (set_rs1 rs1 (set_op rv_op_sd decode_init)))); Some (true, add_inst i a) else Some (false, a).
Definition asm_addiw (rd rs1 imm12 : Z) (a : assembler) : option (bool * assembler) :=
  if valid ireg5 rd && valid ireg5 rs1 && valid simm12 imm12
  then i ← encode_inst (set_imm imm12 (set_rs1 rs1 (set_rd rd (set_op rv_op_addiw decode_init)))); Some (true, add_inst i a) else Some (false, a).
Definition asm_slliw (rd rs1 shamt5 : Z) (a : assembler) : option (bool * assembler) :=
  if valid ireg5 rd && valid ireg5 rs1 && valid uimm5 shamt5
  then i ← encode_inst (set_imm shamt5 (set_rs1 rs1 (set_rd rd (set_op rv_op_slliw decode_init)))); Some (true, add_inst i a) else Some (false, a).
Definition asm_srliw (rd rs1 shamt5 : Z) (a : assembler) : option (bool * assembler) :=
  if valid ireg5 rd && valid ireg5 rs1 && valid uimm5 shamt5
  then i ← encode_inst (set_imm shamt5 (set_rs1 rs1 (set_rd rd (set_op rv_op_srliw decode_init)))); Some (true, add_inst i a) else Some (false, a).
Definition asm_sraiw (rd rs1 shamt5 : Z) (a : assembler) : option (bool * assembler) :=
  if valid ireg5 rd && valid ireg5 rs1 && valid uimm5 shamt5
  then i ← encode_inst (set_imm shamt5 (set_rs1 rs1 (set_rd rd (set_op rv_op_sraiw decode_init)))); Some (true, add_inst i a) else Some (false, a).
Definition asm_addw (rd rs1 rs2 : Z) (a : assembler) : option (bool * assembler) :=
  if valid ireg5 rd && valid ireg5 rs1 && valid ireg5 rs2
  then i ← encode_inst (set_rs2 rs2 (set_rs1 rs1 (set_rd rd (set_op rv_op_addw decode_init)))); Some (true, add_inst i a) else Some (false, a).
Definition asm_subw (rd rs1 rs2 : Z) (a : assembler) : option (bool * assembler) :=
  if valid ireg5 rd && valid ireg5 rs1 && valid ireg5 rs2
  then i ← encode_inst (set_rs2 rs2 (set_rs1 rs1 (set_rd rd (set_op rv_op_subw decode_init)))); Some (true, add_inst i a) else Some (false, a).
Definition asm_sllw (rd rs1 rs2 : Z) (a : assembler) : option (bool * assembler) :=
  if valid ireg5 rd && valid ireg5 rs1 && valid ireg5 rs2
  then i ← encode_inst (set_rs2 rs2 (set_rs1 rs1 (set_rd rd (set_op rv_op_sllw decode_init)))); Some (true, add_inst i a) else Some (false, a).
Definition asm_srlw (rd rs1 rs2 : Z) (a : assembler) : option (bool * assembler) :=
  if valid ireg5 rd && valid ireg5 rs1 && valid ireg5 rs2
  then i ← encode_inst (set_rs2 rs2 (set_rs1 rs1 (set_rd rd (set_op rv_op_srlw decode_init)))); Some (true, add_inst i a) else Some (false, a).
Definition asm_sraw (rd rs1 rs2 : Z) (a : assembler) : option (bool * assembler) :=
  if valid ireg5 rd && valid ireg5 rs1 && valid ireg5 rs2
  then i ← encode_inst (set_rs2 rs2 (set_rs1 rs1 (set_rd rd (set_op rv_op_sraw decode_init)))); Some (true, add_inst i a) else Some (false, a).
Definition asm_ldu (rd rs1 oimm12 : Z) (a : assembler) : option (bool * assembler) :=
  if valid ireg5 rd && valid ireg5 rs1 && valid offset12 oimm12
  then i ← encode_inst (set_imm oimm12 (set_rs1 rs1 (set_rd rd (set_op rv_op_ldu decode_init)))); Some (true, add_inst i a) else Some (false, a).
Definition asm_lq (rd rs1 oimm12 : Z) (a : assembler) : option (bool * assembler) :=
  if valid ireg5 rd && valid ireg5 rs1 && valid offset12 oimm12
  then i ← encode_inst (set_imm oimm12 (set_rs1 rs1 (set_rd rd (set_op rv_op_lq decode_init)))); Some (true, add_inst i a) else Some (false, a).
Definition asm_sq (rs1 rs2 simm12 : Z) (a : assembler) : option (bool * assembler) :=
  if valid ireg5 rs1 && valid ireg5 rs2 && valid offset12 simm12
  then i ← encode_inst (set_imm simm12 (set_rs2 rs2 (set_rs1 rs1 (set_op rv_op_sq decode_init)))); Some (true, add_inst i a) else Some (false, a).
Definition asm_addid (rd rs1 imm12 : Z) (a : assembler) : option (bool * assembler) :=
  if valid ireg5 rd && valid ireg5 rs1 && valid simm12 imm12
  then i ← encode_inst (set_imm imm12 (set_rs1 rs1 (set_rd rd (set_op rv_op_addid decode_init)))); Some (true, add_inst i a) else Some (false, a).
Definition asm_sllid (rd rs1 shamt6 : Z) (a : assembler) : option (bool * assembler) :=
  if valid ireg5 rd && valid ireg5 rs1 && valid uimm6 shamt6
  then i ← encode_inst (set_imm shamt6 (set_rs1 rs1 (set_rd rd (set_op rv_op_sllid decode_init)))); Some (true, add_inst i a) else Some (false, a).
Definition asm_srlid (rd rs1 shamt6 : Z) (a : assembler) : option (bool * assembler) :=
  if valid ireg5 rd && valid ireg5 rs1 && valid uimm6 shamt6
  then i ← encode_inst (set_imm shamt6 (set_rs1 rs1 (set_rd rd (set_op rv_op_srlid decode_init)))); Some (true, add_inst i a) else Some (false, a).
Definition asm_sraid (rd rs1 shamt6 : Z) (a : assembler) : option (bool * assembler) :=
  if valid ireg5 rd && valid ireg5 rs1 && valid uimm6 shamt6
  then i ← encode_inst (set_imm shamt6 (set_rs1 rs1 (set_rd rd (set_op rv_op_sraid decode_init)))); Some (true, add_inst i a) else Some (false, a).
Definition asm_addd (rd rs1 rs2 : Z) (a : assembler) : option (bool * assembler) :=
  if valid ireg5 rd && valid ireg5 rs1 && valid ireg5 rs2
  then i ← encode_inst (set_rs2 rs2 (set_rs1 rs1 (set_rd rd (set_op rv_op_addd decode_init)))); Some (true, add_inst i a) else Some (false, a).
Definition asm_subd (rd rs1 rs2 : Z) (a : assembler) : option (bool * assembler) :=
  if valid ireg5 rd && valid ireg5 rs1 && valid ireg5 rs2
  then i ← encode_inst (set_rs2 rs2 (set_rs1 rs1 (set_rd rd (set_op rv_op_subd decode_init)))); Some (true, add_inst i a) else Some (false, a).
Definition asm_slld (rd rs1 rs2 : Z) (a : assembler) : option (bool * assembler) :=
  if valid ireg5 rd && valid ireg5 rs1 && valid ireg5 rs2
  then i ← encode_inst (set_rs2 rs2 (set_rs1 rs1 (set_rd rd (set_op rv_op_slld decode_init)))); Some (true, add_inst i a) else Some (false, a).
Definition asm_srld (rd rs1 rs2 : Z) (a : assembler) : option (bool * assembler) :=
  if valid ireg5 rd && valid ireg5 rs1 && valid ireg5 rs2
  then i ← encode_inst (set_rs2 rs2 (set_rs1 rs1 (set_rd rd (set_op rv_op_srld decode_init)))); Some (true, add_inst i a) else Some (false, a).
Definition asm_srad (rd rs1 rs2 : Z) (a : assembler) : option (bool * assembler) :=
  if valid ireg5 rd && valid ireg5 rs1 && valid ireg5 rs2
  then i ← encode_inst (set_rs2 rs2 (set_rs1 rs1 (set_rd rd (set_op rv_op_srad decode_init)))); Some (true, add_inst i a) else Some (false, a).
Definition asm_mul (rd rs1 rs2 : Z) (a : assembler) : option (bool * assembler) :=
  if valid ireg5 rd && valid ireg5 rs1 && valid ireg5 rs2
  then i ← encode_inst (set_rs2 rs2 (set_rs1 rs1 (set_rd rd (set_op rv_op_mul decode_init)))); Some (true, add_inst i a) else Some (false, a).
Definition asm_mulh (rd rs1 rs2 : Z) (a : assembler) : option (bool * assembler) :=
  if valid ireg5 rd && valid ireg5 rs1 && valid ireg5 rs2
  then i ← encode_inst (set_rs2 rs2 (set_rs1 rs1 (set_rd rd (set_op rv_op_mulh decode_init)))); Some (true, add_inst i a) else Some (false, a).
Definition asm_mulhsu (rd rs1 rs2 : Z) (a : assembler) : option (bool * assembler) :=
  if valid ireg5 rd && valid ireg5 rs1 && valid ireg5 rs2
  then i ← encode_inst (set_rs2 rs2 (set_rs1 rs1 (set_rd rd (set_op rv_op_mulhsu decode_init)))); Some (true, add_inst i a) else Some (false, a).
Definition asm_mulhu (rd rs1 rs2 : Z) (a : assembler) : option (bool * assembler) :=
  if valid ireg5 rd && valid ireg5 rs1 && valid ireg5 rs2
  then i ← encode_inst (set_rs2 rs2 (set_rs1 rs1 (set_rd rd (set_op rv_op_mulhu decode_init)))); Some (true, add_inst i a) else Some (false, a).
Definition asm_div (rd rs1 rs2 : Z) (a : assembler) : option (bool * assembler) :=
  if valid ireg5 rd && valid ireg5 rs1 && valid ireg5 rs2
  then i ← encode_inst (set_rs2 rs2 (set_rs1 rs1 (set_rd rd (set_op rv_op_div decode_init)))); Some (true, add_inst i a) else Some (false, a).
Definition asm_divu (rd rs1 rs2 : Z) (a : assembler) : option (bool * assembler) :=
  if valid ireg5 rd && valid ireg5 rs1 && valid ireg5 rs2
  then i ← encode_inst (set_rs2 rs2 (set_rs1 rs1 (set_rd rd (set_op rv_op_divu decode_init)))); Some (true, add_inst i a) else Some (false, a).
Definition asm_rem (rd rs1 rs2 : Z) (a : assembler) : option (bool * assembler) :=
  if valid ireg5 rd && valid ireg5 rs1 && valid ireg5 rs2
  then i ← encode_inst (set_rs2 rs2 (set_rs1 rs1 (set_rd rd (set_op rv_op_rem decode_init)))); Some (true, add_inst i a) else Some (false, a).
Definition asm_remu (rd rs1 rs2 : Z) (a : assembler) : option (bool * assembler) :=
  if valid ireg5 rd && valid ireg5 rs1 && valid ireg5 rs2
  then i ← encode_inst (set_rs2 rs2 (set_rs1 rs1 (set_rd rd (set_op rv_op_remu decode_init)))); Some (true, add_inst i a) else Some (false, a).
Definition asm_mulw (rd rs1 rs2 : Z) (a : assembler) : option (bool * assembler) :=
  if valid ireg5 rd && valid ireg5 rs1 && valid ireg5 rs2
  then i ← encode_inst (set_rs2 rs2 (set_rs1 rs1 (set_rd rd (set_op rv_op_mulw decode_init)))); Some (true, add_inst i a) else Some (false, a).
Definition asm_divw (rd rs1 rs2 : Z) (a : assembler) : option (bool * assembler) :=
  if valid ireg5 rd && valid ireg5 rs1 && valid ireg5 rs2
  then i ← encode_inst (set_rs2 rs2 (set_rs1 rs1 (set_rd rd (set_op rv_op_divw decode_init)))); Some (true, add_inst i a) else Some (false, a).
Definition asm_divuw (rd rs1 rs2 : Z) (a : assembler) : option (bool * assembler) :=
  if valid ireg5 rd && valid ireg5 rs1 && valid ireg5 rs2
  then i ← encode_inst (set_rs2 rs2 (set_rs1 rs1 (set_rd rd (set_op rv_op_divuw decode_init)))); Some (true, add_inst i a) else Some (false, a).
Definition asm_remw (rd rs1 rs2 : Z) (a : assembler) : option (bool * assembler) :=
  if valid ireg5 rd && valid ireg5 rs1 && valid ireg5 rs2
  then i ← encode_inst (set_rs2 rs2 (set_rs1 rs1 (set_rd rd (set_op rv_op_remw decode_init)))); Some (true, add_inst i a) else Some (false, a).
Definition asm_remuw (rd rs1 rs2 : Z) (a : assembler) : option (bool * assembler) :=
  if valid ireg5 rd && valid ireg5 rs1 && valid ireg5 rs2
  then i ← encode_inst (set_rs2 rs2 (set_rs1 rs1 (set_rd rd (set_op rv_op_remuw decode_init)))); Some (true, add_inst i a) else Some (false, a).
Definition asm_muld (rd rs1 rs2 : Z) (a : assembler) : option (bool * assembler) :=
  if valid ireg5 rd && valid ireg5 rs1 && valid ireg5 rs2
  then i ← encode_inst (set_rs2 rs2 (set_rs1 rs1 (set_rd rd (set_op rv_op_muld decode_init)))); Some (true, add_inst i a) else Some (false, a).
Definition asm_divd (rd rs1 rs2 : Z) (a : assembler) : option (bool * assembler) :=
  if valid ireg5 rd && valid ireg5 rs1 && valid ireg5 rs2
  then i ← encode_inst (set_rs2 rs2 (set_rs1 rs1 (set_rd rd (set_op rv_op_divd decode_init)))); Some (true, add_inst i a) else Some (false, a).
Definition asm_divud (rd rs1 rs2 : Z) (a : assembler) : option (bool * assembler) :=
  if valid ireg5 rd && valid ireg5 rs1 && valid ireg5 rs2
  then i ← encode_inst (set_rs2 rs2 (set_rs1 rs1 (set_rd rd (set_op rv_op_divud decode_init)))); Some (true, add_inst i a) else Some (false, a).
Definition asm_remd (rd rs1 rs2 : Z) (a : assembler) : option (bool * assembler) :=
  if valid ireg5 rd && valid ireg5 rs1 && valid ireg5 rs2
  then i ← encode_inst (set_rs2 rs2 (set_rs1 rs1 (set_rd rd (set_op rv_op_remd decode_init)))); Some (true, add_inst i a) else Some (false, a).
Definition asm_remud (rd rs1 rs2 : Z) (a : assembler) : option (bool * assembler) :=
  if valid ireg5 rd && valid ireg5 rs1 && valid ireg5 rs2
  then i ← encode_inst (set_rs2 rs2 (set_rs1 rs1 (set_rd rd (set_op rv_op_remud decode_init)))); Some (true, add_inst i a) else Some (false, a).
Definition asm_lr_w (rd rs1 aq rl : Z) (a : assembler) : option (bool * assembler) :=
  if valid ireg5 rd && valid ireg5 rs1 && valid arg1 aq && valid arg1 rl
  then i ← encode_inst (set_rl rl (set_aq aq (set_rs1 rs1 (set_rd rd (set_op rv_op_lr_w decode_init))))); Some (true, add_inst i a) else Some (false, a).
Definition asm_sc_w (rd rs1 rs2 aq rl : Z) (a : assembler) : option (bool * assembler) :=
  if valid ireg5 rd && valid ireg5 rs1 && valid ireg5 rs2 && valid arg1 aq && valid arg1 rl
  then i ← encode_inst (set_rl rl (set_aq aq (set_rs2 rs2 (set_rs1 rs1 (set_rd rd (set_op rv_op_sc_w decode_init)))))); Some (true, add_inst i a) else Some (false, a).
Definition asm_amoswap_w (rd rs1 rs2 aq rl : Z) (a : assembler) : option (bool * assembler) :=
  if valid ireg5 rd && valid ireg5 rs1 && valid ireg5 rs2 && valid arg1 aq && valid arg1 rl
  then i ← encode_inst (set_rl rl (set_aq aq (set_rs2 rs2 (set_rs1 rs1 (set_rd rd (set_op rv_op_amoswap_w decode_init)))))); Some (true, add_inst i a) else Some (false, a).
Definition asm_amoadd_w (rd rs1 rs2 aq rl : Z) (a : assembler) : option (bool * assembler) :=
  if valid ireg5 rd && valid ireg5 rs1 && valid ireg5 rs2 && valid arg1 aq && valid arg1 rl
  then i ← encode_inst (set_rl rl (set_aq aq (set_rs2 rs2 (set_rs1 rs1 (set_rd rd (set_op rv_op_amoadd_w decode_init)))))); Some (true, add_inst i a) else Some (false, a).
Definition asm_amoxor_w (rd rs1 rs2 aq rl : Z) (a : assembler) : option (bool * assembler) :=
  if valid ireg5 rd && valid ireg5 rs1 && valid ireg5 rs2 && valid arg1 aq && valid arg1 rl
  then i ← encode_inst (set_rl rl (set_aq aq (set_rs2 rs2 (set_rs1 rs1 (set_rd rd (set_op rv_op_amoxor_w decode_init)))))); Some (true, add_inst i a) else Some (false, a).
Definition asm_amoor_w (rd rs1 rs2 aq rl : Z) (a : assembler) : option (bool * assembler) :=
  if valid ireg5 rd && valid ireg5 rs1 && valid ireg5 rs2 && valid arg1 aq && valid arg1 rl
  then i ← encode_inst (set_rl rl (set_aq aq (set_rs2 rs2 (set_rs1 rs1 (set_rd rd (set_op rv_op_amoor_w decode_init)))))); Some (true, add_inst i a) else Some (false, a).
Definition asm_amoand_w (rd rs1 rs2 aq rl : Z) (a : assembler) : option (bool * assembler) :=
  if valid ireg5 rd && valid ireg5 rs1 && valid ireg5 rs2 && valid arg1 aq && valid arg1 rl
  then i ← encode_inst (set_rl rl (set_aq aq (set_rs2 rs2 (set_rs1 rs1 (set_rd rd (set_op rv_op_amoand_w decode_init)))))); Some (true, add_inst i a) else Some (false, a).
Definition asm_amomin_w (rd rs1 rs2 aq rl : Z) (a : assembler) : option (bool * assembler) :=
  if valid ireg5 rd && valid ireg5 rs1 && valid ireg5 rs2 && valid arg1 aq && valid arg1 rl
  then i ← encode_inst (set_rl rl (set_aq aq (set_rs2 rs2 (set_rs1 rs1 (set_rd rd (set_op rv_op_amomin_w decode_init)))))); Some (true, add_inst i a) else Some (false, a).
Definition asm_amomax_w (rd rs1 rs2 aq rl : Z) (a : assembler) : option (bool * assembler) :=
  if valid ireg5 rd && valid ireg5 rs1 && valid ireg5 rs2 && valid arg1 aq && valid arg1 rl
  then i ← encode_inst (set_rl rl (set_aq aq (set_rs2 rs2 (set_rs1 rs1 (set_rd rd (set_op rv_op_amomax_w decode_init)))))); Some (true, add_inst i a) else Some (false, a).
Definition asm_amominu_w (rd rs1 rs2 aq rl : Z) (a : assembler) : option (bool * assembler) :=
  if valid ireg5 rd && valid ireg5 rs1 && valid ireg5 rs2 && valid arg1 aq && valid arg1 rl
  then i ← encode_inst (set_rl rl (set_aq aq (set_rs2 rs2 (set_rs1 rs1 (set_rd rd (set_op rv_op_amominu_w decode_init)))))); Some (true, add_inst i a) else Some (false, a).
Definition asm_amomaxu_w (rd rs1 rs2 aq rl : Z) (a : assembler) : option (bool * assembler) :=
  if valid ireg5 rd && valid ireg5 rs1 && valid ireg5 rs2 && valid arg1 aq && valid arg1 rl
  then i ← encode_inst (set_rl rl (set_aq aq (set_rs2 rs2 (set_rs1 rs1 (set_rd rd (set_op rv_op_amomaxu_w decode_init)))))); Some (true, add_inst i a) else Some (false, a).
Definition asm_lr_d (rd rs1 aq rl : Z) (a : assembler) : option (bool * assembler) :=
  if valid ireg5 rd && valid ireg5 rs1 && valid arg1 aq && valid arg1 rl
  then i ← encode_inst (set_rl rl (set_aq aq (set_rs1 rs1 (set_rd rd (set_op rv_op_lr_d decode_init))))); Some (true, add_inst i a) else Some (false, a).
Definition asm_sc_d (rd rs1 rs2 aq rl : Z) (a : assembler) : option (bool * assembler) :=
  if valid ireg5 rd && valid ireg5 rs1 && valid ireg5 rs2 && valid arg1 aq && valid arg1 rl
  then i ← encode_inst (set_rl rl (set_aq aq (set_rs2 rs2 (set_rs1 rs1 (set_rd rd (set_op rv_op_sc_d decode_init)))))); Some (true, add_inst i a) else Some (false, a).
Definition asm_amoswap_d (rd rs1 rs2 aq rl : Z) (a : assembler) : option (bool * assembler) :=
  if valid ireg5 rd && valid ireg5 rs1 && valid ireg5 rs2 && valid arg1 aq && valid arg1 rl
  then i ← encode_inst (set_rl rl (set_aq aq (set_rs2 rs2 (set_rs1 rs1 (set_rd rd (set_op rv_op_amoswap_d decode_init)))))); Some (true, add_inst i a) else Some (false, a).
Definition asm_amoadd_d (rd rs1 rs2 aq rl : Z) (a : assembler) : option (bool * assembler) :=
  if valid ireg5 rd && valid ireg5 rs1 && valid ireg5 rs2 && valid arg1 aq && valid arg1 rl
  then i ← encode_inst (set_rl rl (set_aq aq (set_rs2 rs2 (set_rs1 rs1 (set_rd rd (set_op rv_op_amoadd_d decode_init)))))); Some (true, add_inst i a) else Some (false, a).
Definition asm_amoxor_d (rd rs1 rs2 aq rl : Z) (a : assembler) : option (bool * assembler) :=
  if valid ireg5 rd && valid ireg5 rs1 && valid ireg5 rs2 && valid arg1 aq && valid arg1 rl
  then i ← encode_inst (set_rl rl (set_aq aq (set_rs2 rs2 (set_rs1 rs1 (set_rd rd (set_op rv_op_amoxor_d decode_init)))))); Some (true, add_inst i a) else Some (false, a).
Definition asm_amoor_d (rd rs1 rs2 aq rl : Z) (a : assembler) : option (bool * assembler) :=
  if valid ireg5 rd && valid ireg5 rs1 && valid ireg5 rs2 && valid arg1 aq && valid arg1 rl
  then i ← encode_inst (set_rl rl (set_aq aq (set_rs2 rs2 (set_rs1 rs1 (set_rd rd (set_op rv_op_amoor_d decode_init)))))); Some (true, add_inst i a) else Some (false, a).
Definition asm_amoand_d (rd rs1 rs2 aq rl : Z) (a : assembler) : option (bool * assembler) :=
  if valid ireg5 rd && valid ireg5 rs1 && valid ireg5 rs2 && valid arg1 aq && valid arg1 rl
  then i ← encode_inst (set_rl rl (set_aq aq (set_rs2 rs2 (set_rs1 rs1 (set_rd rd (set_op rv_op_amoand_d decode_init)))))); Some (true, add_inst i a) else Some (false, a).
Definition asm_amomin_d (rd rs1 rs2 aq rl : Z) (a : assembler) : option (bool * assembler) :=
  if valid ireg5 rd && valid ireg5 rs1 && valid ireg5 rs2 && valid arg1 aq && valid arg1 rl
  then i ← encode_inst (set_rl rl (set_aq aq (set_rs2 rs2 (set_rs1 rs1 (set_rd rd (set_op rv_op_amomin_d decode_init)))))); Some (true, add_inst i a) else Some (false, a).
Definition asm_amomax_d (rd rs1 rs2 aq rl : Z) (a : assembler) : option (bool * assembler) :=
  if valid ireg5 rd && valid ireg5 rs1 && valid ireg5 rs2 && valid arg1 aq && valid arg1 rl
  then i ← encode_inst (set_rl rl (set_aq aq (set_rs2 rs2 (set_rs1 rs1 (set_rd rd (set_op rv_op_amomax_d decode_init)))))); Some (true, add_inst i a) else Some (false, a).
Definition asm_amominu_d (rd rs1 rs2 aq rl : Z) (a : assembler) : option (bool * assembler) :=
  if valid ireg5 rd && valid ireg5 rs1 && valid ireg5 rs2 && valid arg1 aq && valid arg1 rl
  then i ← encode_inst (set_rl rl (set_aq aq (set_rs2 rs2 (set_rs1 rs1 (set_rd rd (set_op rv_op_amominu_d decode_init)))))); Some (true, add_inst i a) else Some (false, a).
Definition asm_amomaxu_d (rd rs1 rs2 aq rl : Z) (a : assembler) : option (bool * assembler) :=
  if valid ireg5 rd && valid ireg5 rs1 && valid ireg5 rs2 && valid arg1 aq && valid arg1 rl
  then i ← encode_inst (set_rl rl (set_aq aq (set_rs2 rs2 (set_rs1 rs1 (set_rd rd (set_op rv_op_amomaxu_d decode_init)))))); Some (true, add_inst i a) else Some (false, a).
Definition asm_lr_q (rd rs1 aq rl : Z) (a : assembler) : option (bool * assembler) :=
  if valid ireg5 rd && valid ireg5 rs1 && valid arg1 aq && valid arg1 rl
  then i ← encode_inst (set_rl rl (set_aq aq (set_rs1 rs1 (set_rd rd (set_op rv_op_lr_q decode_init))))); Some (true, add_inst i a) else Some (false, a).
Definition asm_sc_q (rd rs1 rs2 aq rl : Z) (a : assembler) : option (bool * assembler) :=
  if valid ireg5 rd && valid ireg5 rs1 && valid ireg5 rs2 && valid arg1 aq && valid arg1 rl
  then i ← encode_inst (set_rl rl (set_aq aq (set_rs2 rs2 (set_rs1 rs1 (set_rd rd (set_op rv_op_sc_q decode_init)))))); Some (true, add_inst i a) else Some (false, a).
Definition asm_amoswap_q (rd rs1 rs2 aq rl : Z) (a : assembler) : option (bool * assembler) :=
  if valid ireg5 rd && valid ireg5 rs1 && valid ireg5 rs2 && valid arg1 aq && valid arg1 rl
  then i ← encode_inst (set_rl rl (set_aq aq (set_rs2 rs2 (set_rs1 rs1 (set_rd rd (set_op rv_op_amoswap_q decode_init)))))); Some (true, add_inst i a) else Some (false, a).
Definition asm_amoadd_q (rd rs1 rs2 aq rl : Z) (a : assembler) : option (bool * assembler) :=
  if valid ireg5 rd && valid ireg5 rs1 && valid ireg5 rs2 && valid arg1 aq && valid arg1 rl
  then i ← encode_inst (set_rl rl (set_aq aq (set_rs2 rs2 (set_rs1 rs1 (set_rd rd (set_op rv_op_amoadd_q decode_init)))))); Some (true, add_inst i a) else Some (false, a).
Definition asm_amoxor_q (rd rs1 rs2 aq rl : Z) (a : assembler) : option (bool * assembler) :=
  if valid ireg5 rd && valid ireg5 rs1 && valid ireg5 rs2 && valid arg1 aq && valid arg1 rl
  then i ← encode_inst (set_rl rl (set_aq aq (set_rs2 rs2 (set_rs1 rs1 (set_rd rd (set_op rv_op_amoxor_q decode_init)))))); Some (true, add_inst i a) else Some (false, a).
Definition asm_amoor_q (rd rs1 rs2 aq rl : Z) (a : assembler) : option (bool * assembler) :=
  if valid ireg5 rd && valid ireg5 rs1 && valid ireg5 rs2 && valid arg1 aq && valid arg1 rl
  then i ← encode_inst (set_rl rl (set_aq aq (set_rs2 rs2 (set_rs1 rs1 (set_rd rd (set_op rv_op_amoor_q decode_init)))))); Some (true, add_inst i a) else Some (false, a).
Definition asm_amoand_q (rd rs1 rs2 aq rl : Z) (a : assembler) : option (bool * assembler) :=
  if valid ireg5 rd && valid ireg5 rs1 && valid ireg5 rs2 && valid arg1 aq && valid arg1 rl
  then i ← encode_inst (set_rl rl (set_aq aq (set_rs2 rs2 (set_rs1 rs1 (set_rd rd (set_op rv_op_amoand_q decode_init)))))); Some (true, add_inst i a) else Some (false, a).
Definition asm_amomin_q (rd rs1 rs2 aq rl : Z) (a : assembler) : option (bool * assembler) :=
  if valid ireg5 rd && valid ireg5 rs1 && valid ireg5 rs2 && valid arg1 aq && valid arg1 rl
  then i ← encode_inst (set_rl rl (set_aq aq (set_rs2 rs2 (set_rs1 rs1 (set_rd rd (set_op rv_op_amomin_q decode_init)))))); Some (true, add_inst i a) else Some (false, a).
Definition asm_amomax_q (rd rs1 rs2 aq rl : Z) (a : assembler) : option (bool * assembler) :=
  if valid ireg5 rd && valid ireg5 rs1 && valid ireg5 rs2 && valid arg1 aq && valid arg1 rl
  then i ← encode_inst (set_rl rl (set_aq aq (set_rs2 rs2 (set_rs1 rs1 (set_rd rd (set_op rv_op_amomax_q decode_init)))))); Some (true, add_inst i a) else Some (false, a).
Definition asm_amominu_q (rd rs1 rs2 aq rl : Z) (a : assembler) : option (bool * assembler) :=
  if valid ireg5 rd && valid ireg5 rs1 && valid ireg5 rs2 && valid arg1 aq && valid arg1 rl
  then i ← encode_inst (set_rl rl (set_aq aq (set_rs2 rs2 (set_rs1 rs1 (set_rd rd (set_op rv_op_amominu_q decode_init)))))); Some (true, add_inst i a) else Some (false, a).
Definition asm_amomaxu_q (rd rs1 rs2 aq rl : Z) (a : assembler) : option (bool * assembler) :=
  if valid ireg5 rd && valid ireg5 rs1 && valid ireg5 rs2 && valid arg1 aq && valid arg1 rl
  then i ← encode_inst (set_rl rl (set_aq aq (set_rs2 rs2 (set_rs1 rs1 (set_rd rd (set_op rv_op_amomaxu_q decode_init)))))); Some (true, add_inst i a) else Some (false, a).
Definition asm_ecall (a : assembler) : option (bool * assembler) :=
  i ← encode_inst (set_op rv_op_ecall decode_init); Some (true, add_inst i a).
Definition asm_ebreak (a : assembler) : option (bool * assembler) :=
  i ← encode_inst (set_op rv_op_ebreak decode_init); Some (true, add_inst i a).
Definition asm_uret (a : assembler) : option (bool * assembler) :=
  i ← encode_inst (set_op rv_op_uret decode_init); Some (true, add_inst i a).
Definition asm_sret (a : assembler) : option (bool * assembler) :=
  i ← encode_inst (set_op rv_op_sret decode_init); Some (true, add_inst i a).
Definition asm_hret (a : assembler) : option (bool * assembler) :=
  i ← encode_inst (set_op rv_op_hret decode_init); Some (true, add_inst i a).
Definition asm_mret (a : assembler) : option (bool * assembler) :=
  i ← encode_inst (set_op rv_op_mret decode_init); Some (true, add_inst i a).
Definition asm_dret (a : assembler) : option (bool * assembler) :=
  i ← encode_inst (set_op rv_op_dret decode_init); Some (true, add_inst i a).
Definition asm_sfence_vm (rs1 : Z) (a : assembler) : option (bool * assembler) :=
  if valid ireg5 rs1
  then i ← encode_inst (set_rs1 rs1 (set_op rv_op_sfence_vm decode_init)); Some (true, add_inst i a) else Some (false, a).
Definition asm_wfi (a : assembler) : option (bool * assembler) :=
  i ← encode_inst (set_op rv_op_wfi decode_init); Some (true, add_inst i a).
Definition asm_csrrw (rd rs1 csr12 : Z) (a : assembler) : option (bool * assembler) :=
  if valid ireg5 rd && valid ireg5 rs1 && valid uimm12 csr12
  then i ← encode_inst (set_imm csr12 (set_rs1 rs1 (set_rd rd (set_op rv_op_csrrw decode_init)))); Some (true, add_inst i a) else Some (false, a).
Definition asm_csrrs (rd rs1 csr12 : Z) (a : assembler) : option (bool * assembler) :=
  if valid ireg5 rd && valid ireg5 rs1 && valid uimm12 csr12
  then i ← encode_inst (set_imm csr12 (set_rs1 rs1 (set_rd rd (set_op rv_op_csrrs decode_init)))); Some (true, add_inst i a) else Some (false, a).
Definition asm_csrrc (rd rs1 csr12 : Z) (a : assembler) : option (bool * assembler) :=
  if valid ireg5 rd && valid ireg5 rs1 && valid uimm12 csr12
  then i ← encode_inst (set_imm csr12 (set_rs1 rs1 (set_rd rd (set_op rv_op_csrrc decode_init)))); Some (true, add_inst i a) else Some (false, a).
Definition asm_csrrwi (rd zimm csr12 : Z) (a : assembler) : option (bool * assembler) :=
  if valid ireg5 rd && valid uimm5 zimm && valid uimm12 csr12
  then i ← encode_inst (set_imm csr12 (set_imm zimm (set_rd rd (set_op rv_op_csrrwi decode_init)))); Some (true, add_inst i a) else Some (false, a).
Definition asm_csrrsi (rd zimm csr12 : Z) (a : assembler) : option (bool * assembler) :=
  if valid ireg5 rd && valid uimm5 zimm && valid uimm12 csr12
  then i ← encode_inst (set_imm csr12 (set_imm zimm (set_rd rd (set_op rv_op_csrrsi decode_init)))); Some (true, add_inst i a) else Some (false, a).
Definition asm_csrrci (rd zimm csr12 : Z) (a : assembler) : option (bool * assembler) :=
  if valid ireg5 rd && valid uimm5 zimm && valid uimm12 csr12
  then i ← encode_inst (set_imm csr12 (set_imm zimm (set_rd rd (set_op rv_op_csrrci decode_init)))); Some (true, add_inst i a) else Some (false, a).
Definition asm_flw (frd rs1 oimm12 : Z) (a : assembler) : option (bool * assembler) :=
  if valid freg5 frd && valid ireg5 rs1 && valid offset12 oimm12
  then i ← encode_inst (set_imm oimm12 (set_rs1 rs1 (set_rd frd (set_op rv_op_flw decode_init)))); Some (true, add_inst i a) else Some (false, a).
Definition asm_fsw (rs1 frs2 simm12 : Z) (a : assembler) : option (bool * assembler) :=
  if valid ireg5 rs1 && valid freg5 frs2 && valid offset12 simm12
  then i ← encode_inst (set_imm simm12 (set_rs2 frs2 (set_rs1 rs1 (set_op rv_op_fsw decode_init)))); Some (true, add_inst i a) else Some (false, a).
Definition asm_fmadd_s (frd frs1 frs2 frs3 rm : Z) (a : assembler) : option (bool * assembler) :=
  if valid freg5 frd && valid freg5 frs1 && valid freg5 frs2 && valid freg5 frs3 && valid arg3 rm
  then i ← encode_inst (set_rm rm (set_rs3 frs3 (set_rs2 frs2 (set_rs1 frs1 (set_rd frd (set_op rv_op_fmadd_s decode_init)))))); Some (true, add_inst i a) else Some (false, a).
Definition asm_fmsub_s (frd frs1 frs2 frs3 rm : Z) (a : assembler) : option (bool * assembler) :=
  if valid freg5 frd && valid freg5 frs1 && valid freg5 frs2 && valid freg5 frs3 && valid arg3 rm
  then i ← encode_inst (set_rm rm (set_rs3 frs3 (set_rs2 frs2 (set_rs1 frs1 (set_rd frd (set_op rv_op_fmsub_s decode_init)))))); Some (true, add_inst i a) else Some (false, a).
Definition asm_fnmsub_s (frd frs1 frs2 frs3 rm : Z) (a : assembler) : option (bool * assembler) :=
  if valid freg5 frd && valid freg5 frs1 && valid freg5 frs2 && valid freg5 frs3 && valid arg3 rm
  then i ← encode_inst (set_rm rm (set_rs3 frs3 (set_rs2 frs2 (set_rs1 frs1 (set_rd frd (set_op rv_op_fnmsub_s decode_init)))))); Some (true, add_inst i a) else Some (false, a).
Definition asm_fnmadd_s (frd frs1 frs2 frs3 rm : Z) (a : assembler) : option (bool * assembler) :=
  if valid freg5 frd && valid freg5 frs1 && valid freg5 frs2 && valid freg5 frs3 && valid arg3 rm
  then i ← encode_inst (set_rm rm (set_rs3 frs3 (set_rs2 frs2 (set_rs1 frs1 (set_rd frd (set_op rv_op_fnmadd_s decode_init)))))); Some (true, add_inst i a) else Some (false, a).
Definition asm_fadd_s (frd frs1 frs2 rm : Z) (a : assembler) : option (bool * assembler) :=
  if valid freg5 frd && valid freg5 frs1 && valid freg5 frs2 && valid arg3 rm
  then i ← encode_inst (set_rm rm (set_rs2 frs2 (set_rs1 frs1 (set_rd frd (set_op rv_op_fadd_s decode_init))))); Some (true, add_inst i a) else Some (false, a).
Definition asm_fsub_s (frd frs1 frs2 rm : Z) (a : assembler) : option (bool * assembler) :=
  if valid freg5 frd && valid freg5 frs1 && valid freg5 frs2 && valid arg3 rm
  then i ← encode_inst (set_rm rm (set_rs2 frs2 (set_rs1 frs1 (set_rd frd (set_op rv_op_fsub_s decode_init))))); Some (true, add_inst i a) else Some (false, a).
Definition asm_fmul_s (frd frs1 frs2 rm : Z) (a : assembler) : option (bool * assembler) :=
  if valid freg5 frd && valid freg5 frs1 && valid freg5 frs2 && valid arg3 rm
  then i ← encode_inst (set_rm rm (set_rs2 frs2 (set_rs1 frs1 (set_rd frd (set_op rv_op_fmul_s decode_init))))); Some (true, add_inst i a) else Some (false, a).
Definition asm_fdiv_s (frd frs1 frs2 rm : Z) (a : assembler) : option (bool * assembler) :=
  if valid freg5 frd && valid freg5 frs1 && valid freg5 frs2 && valid arg3 rm
  then i ← encode_inst (set_rm rm (set_rs2 frs2 (set_rs1 frs1 (set_rd frd (set_op rv_op_fdiv_s decode_init))))); Some (true, add_inst i a) else Some (false, a).
Definition asm_fsgnj_s (frd frs1 frs2 : Z) (a : assembler) : option (bool * assembler) :=
  if valid freg5 frd && valid freg5 frs1 && valid freg5 frs2
  then i ← encode_inst (set_rs2 frs2 (set_rs1 frs1 (set_rd frd (set_op rv_op_fsgnj_s decode_init)))); Some (true, add_inst i a) else Some (false, a).
Definition asm_fsgnjn_s (frd frs1 frs2 : Z) (a : assembler) : option (bool * assembler) :=
  if valid freg5 frd && valid freg5 frs1 && valid freg5 frs2
  then i ← encode_inst (set_rs2 frs2 (set_rs1 frs1 (set_rd frd (set_op rv_op_fsgnjn_s decode_init)))); Some (true, add_inst i a) else Some (false, a).
Definition asm_fsgnjx_s (frd frs1 frs2 : Z) (a : assembler) : option (bool * assembler) :=
  if valid freg5 frd && valid freg5 frs1 && valid freg5 frs2
  then i ← encode_inst (set_rs2 frs2 (set_rs1 frs1 (set_rd frd (set_op rv_op_fsgnjx_s decode_init)))); Some (true, add_inst i a) else Some (false, a).
Definition asm_fmin_s (frd frs1 frs2 : Z) (a : assembler) : option (bool * assembler) :=
  if valid freg5 frd && valid freg5 frs1 && valid freg5 frs2
  then i ← encode_inst (set_rs2 frs2 (set_rs1 frs1 (set_rd frd (set_op rv_op_fmin_s decode_init)))); Some (true, add_inst i a) else Some (false, a).
Definition asm_fmax_s (frd frs1 frs2 : Z) (a : assembler) : option (bool * assembler) :=
  if valid freg5 frd && valid freg5 frs1 && valid freg5 frs2
  then i ← encode_inst (set_rs2 frs2 (set_rs1 frs1 (set_rd frd (set_op rv_op_fmax_s decode_init)))); Some (true, add_inst i a) else Some (false, a).
Definition asm_fsqrt_s (frd frs1 rm : Z) (a : assembler) : option (bool * assembler) :=
  if valid freg5 frd && valid freg5 frs1 && valid arg3 rm
  then i ← encode_inst (set_rm rm (set_rs1 frs1 (set_rd frd (set_op rv_op_fsqrt_s decode_init)))); Some (true, add_inst i a) else Some (false, a).
Definition asm_fle_s (rd frs1 frs2 : Z) (a : assembler) : option (bool * assembler) :=
  if valid ireg5 rd && valid freg5 frs1 && valid freg5 frs2
  then i ← encode_inst (set_rs2 frs2 (set_rs1 frs1 (set_rd rd (set_op rv_op_fle_s decode_init)))); Some (true, add_inst i a) else Some (false, a).
Definition asm_flt_s (rd frs1 frs2 : Z) (a : assembler) : option (bool * assembler) :=
  if valid ireg5 rd && valid freg5 frs1 && valid freg5 frs2
  then i ← encode_inst (set_rs2 frs2 (set_rs1 frs1 (set_rd rd (set_op rv_op_flt_s decode_init)))); Some (true, add_inst i a) else Some (false, a).
Definition asm_feq_s (rd frs1 frs2 : Z) (a : assembler) : option (bool * assembler) :=
  if valid ireg5 rd && valid freg5 frs1 && valid freg5 frs2
  then i ← encode_inst (set_rs2 frs2 (set_rs1 frs1 (set_rd rd (set_op rv_op_feq_s decode_init)))); Some (true, add_inst i a) else Some (false, a).
Definition asm_fcvt_w_s (rd frs1 rm : Z) (a : assembler) : option (bool * assembler) :=
  if valid ireg5 rd && valid freg5 frs1 && valid arg3 rm
  then i ← encode_inst (set_rm rm (set_rs1 frs1 (set_rd rd (set_op rv_op_fcvt_w_s decode_init)))); Some (true, add_inst i a) else Some (false, a).
Definition asm_fcvt_wu_s (rd frs1 rm : Z) (a : assembler) : option (bool * assembler) :=
  if valid ireg5 rd && valid freg5 frs1 && valid arg3 rm
  then i ← encode_inst (set_rm rm (set_rs1 frs1 (set_rd rd (set_op rv_op_fcvt_wu_s decode_init)))); Some (true, add_inst i a) else Some (false, a).
Definition asm_fcvt_s_w (frd rs1 rm : Z) (a : assembler) : option (bool * assembler) :=
  if valid freg5 frd && valid ireg5 rs1 && valid arg3 rm
  then i ← encode_inst (set_rm rm (set_rs1 rs1 (set_rd frd (set_op rv_op_fcvt_s_w decode_init)))); Some (true, add_inst i a) else Some (false, a).
Definition asm_fcvt_s_wu (frd rs1 rm : Z) (a : assembler) : option (bool * assembler) :=
  if valid freg5 frd && valid ireg5 rs1 && valid arg3 rm
  then i ← encode_inst (set_rm rm (set_rs1 rs1 (set_rd frd (set_op rv_op_fcvt_s_wu decode_init)))); Some (true, add_inst i a) else Some (false, a).
Definition asm_fmv_x_s (rd frs1 : Z) (a : assembler) : option (bool * assembler) :=
  if valid ireg5 rd && valid freg5 frs1
  then i ← encode_inst (set_rs1 frs1 (set_rd rd (set_op rv_op_fmv_x_s decode_init))); Some (true, add_inst i a) else Some (false, a).
Definition asm_fclass_s (rd frs1 : Z) (a : assembler) : option (bool * assembler) :=
  if valid ireg5 rd && valid freg5 frs1
  then i ← encode_inst (set_rs1 frs1 (set_rd rd (set_op rv_op_fclass_s decode_init))); Some (true, add_inst i a) else Some (false, a).
Definition asm_fmv_s_x (frd rs1 : Z) (a : assembler) : option (bool * assembler) :=
  if valid freg5 frd && valid ireg5 rs1
  then i ← encode_inst (set_rs1 rs1 (set_rd frd (set_op rv_op_fmv_s_x decode_init))); Some (true, add_inst i a) else Some (false, a).
Definition asm_fcvt_l_s (rd frs1 rm : Z) (a : assembler) : option (bool * assembler) :=
  if valid ireg5 rd && valid freg5 frs1 && valid arg3 rm
  then i ← encode_inst (set_rm rm (set_rs1 frs1 (set_rd rd (set_op rv_op_fcvt_l_s decode_init)))); Some (true, add_inst i a) else Some (false, a).
Definition asm_fcvt_lu_s (rd frs1 rm : Z) (a : assembler) : option (bool * assembler) :=
  if valid ireg5 rd && valid freg5 frs1 && valid arg3 rm
  then i ← encode_inst (set_rm rm (set_rs1 frs1 (set_rd rd (set_op rv_op_fcvt_lu_s decode_init)))); Some (true, add_inst i a) else Some (false, a).
Definition asm_fcvt_s_l (frd rs1 rm : Z) (a : assembler) : option (bool * assembler) :=
  if valid freg5 frd && valid ireg5 rs1 && valid arg3 rm
  then i ← encode_inst (set_rm rm (set_rs1 rs1 (set_rd frd (set_op rv_op_fcvt_s_l decode_init)))); Some (true, add_inst i a) else Some (false, a).
Definition asm_fcvt_s_lu (frd rs1 rm : Z) (a : assembler) : option (bool * assembler) :=
  if valid freg5 frd && valid ireg5 rs1 && valid arg3 rm
  then i ← encode_inst (set_rm rm (set_rs1 rs1 (set_rd frd (set_op rv_op_fcvt_s_lu decode_init)))); Some (true, add_inst i a) else Some (false, a).
Definition asm_fld (frd rs1 oimm12 : Z) (a : assembler) : option (bool * assembler) :=
  if valid freg5 frd && valid ireg5 rs1 && valid offset12 oimm12
  then i ← encode_inst (set_imm oimm12 (set_rs1 rs1 (set_rd frd (set_op rv_op_fld decode_init)))); Some (true, add_inst i a) else Some (false, a).
Definition asm_fsd (rs1 frs2 simm12 : Z) (a : assembler) : option (bool * assembler) :=
  if valid ireg5 rs1 && valid freg5 frs2 && valid offset12 simm12
  then i ← encode_inst (set_imm simm12 (set_rs2 frs2 (set_rs1 rs1 (set_op rv_op_fsd decode_init)))); Some (true, add_inst i a) else Some (false, a).
Definition asm_fmadd_d (frd frs1 frs2 frs3 rm : Z) (a : assembler) : option (bool * assembler) :=
  if valid freg5 frd && valid freg5 frs1 && valid freg5 frs2 && valid freg5 frs3 && valid arg3 rm
  then i ← encode_inst (set_rm rm (set_rs3 frs3 (set_rs2 frs2 (set_rs1 frs1 (set_rd frd (set_op rv_op_fmadd_d decode_init)))))); Some (true, add_inst i a) else Some (false, a).
Definition asm_fmsub_d (frd frs1 frs2 frs3 rm : Z) (a : assembler) : option (bool * assembler) :=
  if valid freg5 frd && valid freg5 frs1 && valid freg5 frs2 && valid freg5 frs3 && valid arg3 rm
  then i ← encode_inst (set_rm rm (set_rs3 frs3 (set_rs2 frs2 (set_rs1 frs1 (set_rd frd (set_op rv_op_fmsub_d decode_init)))))); Some (true, add_inst i a) else Some (false, a).
Definition asm_fnmsub_d (frd frs1 frs2 frs3 rm : Z) (a : assembler) : option (bool * assembler) :=
  if valid freg5 frd && valid freg5 frs1 && valid freg5 frs2 && valid freg5 frs3 && valid arg3 rm
  then i ← encode_inst (set_rm rm (set_rs3 frs3 (set_rs2 frs2 (set_rs1 frs1 (set_rd frd (set_op rv_op_fnmsub_d decode_init)))))); Some (true, add_inst i a) else Some (false, a).
Definition asm_fnmadd_d (frd frs1 frs2 frs3 rm : Z) (a : assembler) : option (bool * assembler) :=
  if valid freg5 frd && valid freg5 frs1 && valid freg5 frs2 && valid freg5 frs3 && valid arg3 rm
  then i ← encode_inst (set_rm rm (set_rs3 frs3 (set_rs2 frs2 (set_rs1 frs1 (set_rd frd (set_op rv_op_fnmadd_d decode_init)))))); Some (true, add_inst i a) else Some (false, a).
Definition asm_fadd_d (frd frs1 frs2 rm : Z) (a : assembler) : option (bool * assembler) :=
  if valid freg5 frd && valid freg5 frs1 && valid freg5 frs2 && valid arg3 rm
  then i ← encode_inst (set_rm rm (set_rs2 frs2 (set_rs1 frs1 (set_rd frd (set_op rv_op_fadd_d decode_init))))); Some (true, add_inst i a) else Some (false, a).
Definition asm_fsub_d (frd frs1 frs2 rm : Z) (a : assembler) : option (bool * assembler) :=
  if valid freg5 frd && valid freg5 frs1 && valid freg5 frs2 && valid arg3 rm
  then i ← encode_inst (set_rm rm (set_rs2 frs2 (set_rs1 frs1 (set_rd frd (set_op rv_op_fsub_d decode_init))))); Some (true, add_inst i a) else Some (false, a).
Definition asm_fmul_d (frd frs1 frs2 rm : Z) (a : assembler) : option (bool * assembler) :=
  if valid freg5 frd && valid freg5 frs1 && valid freg5 frs2 && valid arg3 rm
  then i ← encode_inst (set_rm rm (set_rs2 frs2 (set_rs1 frs1 (set_rd frd (set_op rv_op_fmul_d decode_init))))); Some (true, add_inst i a) else Some (false, a).
Definition asm_fdiv_d (frd frs1 frs2 rm : Z) (a : assembler) : option (bool * assembler) :=
  if valid freg5 frd && valid freg5 frs1 && valid freg5 frs2 && valid arg3 rm
  then i ← encode_inst (set_rm rm (set_rs2 frs2 (set_rs1 frs1 (set_rd frd (set_op rv_op_fdiv_d decode_init))))); Some (true, add_inst i a) else Some (false, a).
Definition asm_fsgnj_d (frd frs1 frs2 : Z) (a : assembler) : option (bool * assembler) :=
  if valid freg5 frd && valid freg5 frs1 && valid freg5 frs2
  then i ← encode_inst (set_rs2 frs2 (set_rs1 frs1 (set_rd frd (set_op rv_op_fsgnj_d decode_init)))); Some (true, add_inst i a) else Some (false, a).
Definition asm_fsgnjn_d (frd frs1 frs2 : Z) (a : assembler) : option (bool * assembler) :=
  if valid freg5 frd && valid freg5 frs1 && valid freg5 frs2
  then i ← encode_inst (set_rs2 frs2 (set_rs1 frs1 (set_rd frd (set_op rv_op_fsgnjn_d decode_init)))); Some (true, add_inst i a) else Some (false, a).
Definition asm_fsgnjx_d (frd frs1 frs2 : Z) (a : assembler) : option (bool * assembler) :=
  if valid freg5 frd && valid freg5 frs1 && valid freg5 frs2
  then i ← encode_inst (set_rs2 frs2 (set_rs1 frs1 (set_rd frd (set_op rv_op_fsgnjx_d decode_init)))); Some (true, add_inst i a) else Some (false, a).
Definition asm_fmin_d (frd frs1 frs2 : Z) (a : assembler) : option (bool * assembler) :=
  if valid freg5 frd && valid freg5 frs1 && valid freg5 frs2
  then i ← encode_inst (set_rs2 frs2 (set_rs1 frs1 (set_rd frd (set_op rv_op_fmin_d decode_init)))); Some (true, add_inst i a) else Some (false, a).
Definition asm_fmax_d (frd frs1 frs2 : Z) (a : assembler) : option (bool * assembler) :=
  if valid freg5 frd && valid freg5 frs1 && valid freg5 frs2
  then i ← encode_inst (set_rs2 frs2 (set_rs1 frs1 (set_rd frd (set_op rv_op_fmax_d decode_init)))); Some (true, add_inst i a) else Some (false, a).
Definition asm_fcvt_s_d (frd frs1 rm : Z) (a : assembler) : option (bool * assembler) :=
  if valid freg5 frd && valid freg5 frs1 && valid arg3 rm
  then i ← encode_inst (set_rm rm (set_rs1 frs1 (set_rd frd (set_op rv_op_fcvt_s_d decode_init)))); Some (true, add_inst i a) else Some (false, a).
Definition asm_fcvt_d_s (frd frs1 rm : Z) (a : assembler) : option (bool * assembler) :=
  if valid freg5 frd && valid freg5 frs1 && valid arg3 rm
  then i ← encode_inst (set_rm rm (set_rs1 frs1 (set_rd frd (set_op rv_op_fcvt_d_s decode_init)))); Some (true, add_inst i a) else Some (false, a).
Definition asm_fsqrt_d (frd frs1 rm : Z) (a : assembler) : option (bool * assembler) :=
  if valid freg5 frd && valid freg5 frs1 && valid arg3 rm
  then i ← encode_inst (set_rm rm (set_rs1 frs1 (set_rd frd (set_op rv_op_fsqrt_d decode_init)))); Some (true, add_inst i a) else Some (false, a).
Definition asm_fle_d (rd frs1 frs2 : Z) (a : assembler) : option (bool * assembler) :=
  if valid ireg5 rd && valid freg5 frs1 && valid freg5 frs2
  then i ← encode_inst (set_rs2 frs2 (set_rs1 frs1 (set_rd rd (set_op rv_op_fle_d decode_init)))); Some (true, add_inst i a) else Some (false, a).
Definition asm_flt_d (rd frs1 frs2 : Z) (a : assembler) : option (bool * assembler) :=
  if valid ireg5 rd && valid freg5 frs1 && valid freg5 frs2
  then i ← encode_inst (set_rs2 frs2 (set_rs1 frs1 (set_rd rd (set_op rv_op_flt_d decode_init)))); Some (true, add_inst i a) else Some (false, a).
Definition asm_feq_d (rd frs1 frs2 : Z) (a : assembler) : option (bool * assembler) :=
  if valid ireg5 rd && valid freg5 frs1 && valid freg5 frs2
  then i ← encode_inst (set_rs2 frs2 (set_rs1 frs1 (set_rd rd (set_op rv_op_feq_d decode_init)))); Some (true, add_inst i a) else Some (false, a).
Definition asm_fcvt_w_d (rd frs1 rm : Z) (a : assembler) : option (bool * assembler) :=
  if valid ireg5 rd && valid freg5 frs1 && valid arg3 rm
  then i ← encode_inst (set_rm rm (set_rs1 frs1 (set_rd rd (set_op rv_op_fcvt_w_d decode_init)))); Some (true, add_inst i a) else Some (false, a).
Definition asm_fcvt_wu_d (rd frs1 rm : Z) (a : assembler) : option (bool * assembler) :=
  if valid ireg5 rd && valid freg5 frs1 && valid arg3 rm
  then i ← encode_inst (set_rm rm (set_rs1 frs1 (set_rd rd (set_op rv_op_fcvt_wu_d decode_init)))); Some (true, add_inst i a) else Some (false, a).
Definition asm_fcvt_d_w (frd rs1 rm : Z) (a : assembler) : option (bool * assembler) :=
  if valid freg5 frd && valid ireg5 rs1 && valid arg3 rm
  then i ← encode_inst (set_rm rm (set_rs1 rs1 (set_rd frd (set_op rv_op_fcvt_d_w decode_init)))); Some (true, add_inst i a) else Some (false, a).
Definition asm_fcvt_d_wu (frd rs1 rm : Z) (a : assembler) : option (bool * assembler) :=
  if valid freg5 frd && valid ireg5 rs1 && valid arg3 rm
  then i ← encode_inst (set_rm rm (set_rs1 rs1 (set_rd frd (set_op rv_op_fcvt_d_wu decode_init)))); Some (true, add_inst i a) else Some (false, a).
Definition asm_fclass_d (rd frs1 : Z) (a : assembler) : option (bool * assembler) :=
  if valid ireg5 rd && valid freg5 frs1
  then i ← encode_inst (set_rs1 frs1 (set_rd rd (set_op rv_op_fclass_d decode_init))); Some (true, add_inst i a) else Some (false, a).
Definition asm_fcvt_l_d (rd frs1 rm : Z) (a : assembler) : option (bool * assembler) :=
  if valid ireg5 rd && valid freg5 frs1 && valid arg3 rm
  then i ← encode_inst (set_rm rm (set_rs1 frs1 (set_rd rd (set_op rv_op_fcvt_l_d decode_init)))); Some (true, add_inst i a) else Some (false, a).
Definition asm_fcvt_lu_d (rd frs1 rm : Z) (a : assembler) : option (bool * assembler) :=
  if valid ireg5 rd && valid freg5 frs1 && valid arg3 rm
  then i ← encode_inst (set_rm rm (set_rs1 frs1 (set_rd rd (set_op rv_op_fcvt_lu_d decode_init)))); Some (true, add_inst i a) else Some (false, a).
Definition asm_fmv_x_d (rd frs1 : Z) (a : assembler) : option (bool * assembler) :=
  if valid ireg5 rd && valid freg5 frs1
  then i ← encode_inst (set_rs1 frs1 (set_rd rd (set_op rv_op_fmv_x_d decode_init))); Some (true, add_inst i a) else Some (false, a).
Definition asm_fcvt_d_l (frd rs1 rm : Z) (a : assembler) : option (bool * assembler) :=
  if valid freg5 frd && valid ireg5 rs1 && valid arg3 rm
  then i ← encode_inst (set_rm rm (set_rs1 rs1 (set_rd frd (set_op rv_op_fcvt_d_l decode_init)))); Some (true, add_inst i a) else Some (false, a).
Definition asm_fcvt_d_lu (frd rs1 rm : Z) (a : assembler) : option (bool * assembler) :=
  if valid freg5 frd && valid ireg5 rs1 && valid arg3 rm
  then i ← encode_inst (set_rm rm (set_rs1 rs1 (set_rd frd (set_op rv_op_fcvt_d_lu decode_init)))); Some (true, add_inst i a) else Some (false, a).
Definition asm_fmv_d_x (frd rs1 : Z) (a : assembler) : option (bool * assembler) :=
  if valid freg5 frd && valid ireg5 rs1
  then i ← encode_inst (set_rs1 rs1 (set_rd frd (set_op rv_op_fmv_d_x decode_init))); Some (true, add_inst i a) else Some (false, a).
Definition asm_flq (frd rs1 oimm12 : Z) (a : assembler) : option (bool * assembler) :=
  if valid freg5 frd && valid ireg5 rs1 && valid offset12 oimm12
  then i ← encode_inst (set_imm oimm12 (set_rs1 rs1 (set_rd frd (set_op rv_op_flq decode_init)))); Some (true, add_inst i a) else Some (false, a).
Definition asm_fsq (rs1 frs2 simm12 : Z) (a : assembler) : option (bool * assembler) :=
  if valid ireg5 rs1 && valid freg5 frs2 && valid offset12 simm12
  then i ← encode_inst (set_imm simm12 (set_rs2 frs2 (set_rs1 rs1 (set_op rv_op_fsq decode_init)))); Some (true, add_inst i a) else Some (false, a).
Definition asm_fmadd_q (frd frs1 frs2 frs3 rm : Z) (a : assembler) : option (bool * assembler) :=
  if valid freg5 frd && valid freg5 frs1 && valid freg5 frs2 && valid freg5 frs3 && valid arg3 rm
  then i ← encode_inst (set_rm rm (set_rs3 frs3 (set_rs2 frs2 (set_rs1 frs1 (set_rd frd (set_op rv_op_fmadd_q decode_init)))))); Some (true, add_inst i a) else Some (false, a).
Definition asm_fmsub_q (frd frs1 frs2 frs3 rm : Z) (a : assembler) : option (bool * assembler) :=
  if valid freg5 frd && valid freg5 frs1 && valid freg5 frs2 && valid freg5 frs3 && valid arg3 rm
  then i ← encode_inst (set_rm rm (set_rs3 frs3 (set_rs2 frs2 (set_rs1 frs1 (set_rd frd (set_op rv_op_fmsub_q decode_init)))))); Some (true, add_inst i a) else Some (false, a).
Definition asm_fnmsub_q (frd frs1 frs2 frs3 rm : Z) (a : assembler) : option (bool * assembler) :=
  if valid freg5 frd && valid freg5 frs1 && valid freg5 frs2 && valid freg5 frs3 && valid arg3 rm
  then i ← encode_inst (set_rm rm (set_rs3 frs3 (set_rs2 frs2 (set_rs1 frs1 (set_rd frd (set_op rv_op_fnmsub_q decode_init)))))); Some (true, add_inst i a) else Some (false, a).
Definition asm_fnmadd_q (frd frs1 frs2 frs3 rm : Z) (a : assembler) : option (bool * assembler) :=
  if valid freg5 frd && valid freg5 frs1 && valid freg5 frs2 && valid freg5 frs3 && valid arg3 rm
  then i ← encode_inst (set_rm rm (set_rs3 frs3 (set_rs2 frs2 (set_rs1 frs1 (set_rd frd (set_op rv_op_fnmadd_q decode_init)))))); Some (true, add_inst i a) else Some (false, a).
Definition asm_fadd_q (frd frs1 frs2 rm : Z) (a : assembler) : option (bool * assembler) :=
  if valid freg5 frd && valid freg5 frs1 && valid freg5 frs2 && valid arg3 rm
  then i ← encode_inst (set_rm rm (set_rs2 frs2 (set_rs1 frs1 (set_rd frd (set_op rv_op_fadd_q decode_init))))); Some (true, add_inst i a) else Some (false, a).
Definition asm_fsub_q (frd frs1 frs2 rm : Z) (a : assembler) : option (bool * assembler) :=
  if valid freg5 frd && valid freg5 frs1 && valid freg5 frs2 && valid arg3 rm
  then i ← encode_inst (set_rm rm (set_rs2 frs2 (set_rs1 frs1 (set_rd frd (set_op rv_op_fsub_q decode_init))))); Some (true, add_inst i a) else Some (false, a).
Definition asm_fmul_q (frd frs1 frs2 rm : Z) (a : assembler) : option (bool * assembler) :=
  if valid freg5 frd && valid freg5 frs1 && valid freg5 frs2 && valid arg3 rm
  then i ← encode_inst (set_rm rm (set_rs2 frs2 (set_rs1 frs1 (set_rd frd (set_op rv_op_fmul_q decode_init))))); Some (true, add_inst i a) else Some (false, a).
Definition asm_fdiv_q (frd frs1 frs2 rm : Z) (a : assembler) : option (bool * assembler) :=
  if valid freg5 frd && valid freg5 frs1 && valid freg5 frs2 && valid arg3 rm
  then i ← encode_inst (set_rm rm (set_rs2 frs2 (set_rs1 frs1 (set_rd frd (set_op rv_op_fdiv_q decode_init))))); Some (true, add_inst i a) else Some (false, a).
Definition asm_fsgnj_q (frd frs1 frs2 : Z) (a : assembler) : option (bool * assembler) :=
  if valid freg5 frd && valid freg5 frs1 && valid freg5 frs2
  then i ← encode_inst (set_rs2 frs2 (set_rs1 frs1 (set_rd frd (set_op rv_op_fsgnj_q decode_init)))); Some (true, add_inst i a) else Some (false, a).
Definition asm_fsgnjn_q (frd frs1 frs2 : Z) (a : assembler) : option (bool * assembler) :=
  if valid freg5 frd && valid freg5 frs1 && valid freg5 frs2
  then i ← encode_inst (set_rs2 frs2 (set_rs1 frs1 (set_rd frd (set_op rv_op_fsgnjn_q decode_init)))); Some (true, add_inst i a) else Some (false, a).
Definition asm_fsgnjx_q (frd frs1 frs2 : Z) (a : assembler) : option (bool * assembler) :=
  if valid freg5 frd && valid freg5 frs1 && valid freg5 frs2
  then i ← encode_inst (set_rs2 frs2 (set_rs1 frs1 (set_rd frd (set_op rv_op_fsgnjx_q decode_init)))); Some (true, add_inst i a) else Some (false, a).
Definition asm_fmin_q (frd frs1 frs2 : Z) (a : assembler) : option (bool * assembler) :=
  if valid freg5 frd && valid freg5 frs1 && valid freg5 frs2
  then i ← encode_inst (set_rs2 frs2 (set_rs1 frs1 (set_rd frd (set_op rv_op_fmin_q decode_init)))); Some (true, add_inst i a) else Some (false, a).
Definition asm_fmax_q (frd frs1 frs2 : Z) (a : assembler) : option (bool * assembler) :=
  if valid freg5 frd && valid freg5 frs1 && valid freg5 frs2
  then i ← encode_inst (set_rs2 frs2 (set_rs1 frs1 (set_rd frd (set_op rv_op_fmax_q decode_init)))); Some (true, add_inst i a) else Some (false, a).
Definition asm_fcvt_s_q (frd frs1 rm : Z) (a : assembler) : option (bool * assembler) :=
  if valid freg5 frd && valid freg5 frs1 && valid arg3 rm
  then i ← encode_inst (set_rm rm (set_rs1 frs1 (set_rd frd (set_op rv_op_fcvt_s_q decode_init)))); Some (true, add_inst i a) else Some (false, a).
Definition asm_fcvt_q_s (frd frs1 rm : Z) (a : assembler) : option (bool * assembler) :=
  if valid freg5 frd && valid freg5 frs1 && valid arg3 rm
  then i ← encode_inst (set_rm rm (set_rs1 frs1 (set_rd frd (set_op rv_op_fcvt_q_s decode_init)))); Some (true, add_inst i a) else Some (false, a).
Definition asm_fcvt_d_q (frd frs1 rm : Z) (a : assembler) : option (bool * assembler) :=
  if valid freg5 frd && valid freg5 frs1 && valid arg3 rm
  then i ← encode_inst (set_rm rm (set_rs1 frs1 (set_rd frd (set_op rv_op_fcvt_d_q decode_init)))); Some (true, add_inst i a) else Some (false, a).
Definition asm_fcvt_q_d (frd frs1 rm : Z) (a : assembler) : option (bool * assembler) :=
  if valid freg5 frd && valid freg5 frs1 && valid arg3 rm
  then i ← encode_inst (set_rm rm (set_rs1 frs1 (set_rd frd (set_op rv_op_fcvt_q_d decode_init)))); Some (true, add_inst i a) else Some (false, a).
Definition asm_fsqrt_q (frd frs1 rm : Z) (a : assembler) : option (bool * assembler) :=
  if valid freg5 frd && valid freg5 frs1 && valid arg3 rm
  then i ← encode_inst (set_rm rm (set_rs1 frs1 (set_rd frd (set_op rv_op_fsqrt_q decode_init)))); Some (true, add_inst i a) else Some (false, a).
Definition asm_fle_q (rd frs1 frs2 : Z) (a : assembler) : option (bool * assembler) :=
  if valid ireg5 rd && valid freg5 frs1 && valid freg5 frs2
  then i ← encode_inst (set_rs2 frs2 (set_rs1 frs1 (set_rd rd (set_op rv_op_fle_q decode_init)))); Some (true, add_inst i a) else Some (false, a).
Definition asm_flt_q (rd frs1 frs2 : Z) (a : assembler) : option (bool * assembler) :=
  if valid ireg5 rd && valid freg5 frs1 && valid freg5 frs2
  then i ← encode_inst (set_rs2 frs2 (set_rs1 frs1 (set_rd rd (set_op rv_op_flt_q decode_init)))); Some (true, add_inst i a) else Some (false, a).
Definition asm_feq_q (rd frs1 frs2 : Z) (a : assembler) : option (bool * assembler) :=
  if valid ireg5 rd && valid freg5 frs1 && valid freg5 frs2
  then i ← encode_inst (set_rs2 frs2 (set_rs1 frs1 (set_rd rd (set_op rv_op_feq_q decode_init)))); Some (true, add_inst i a) else Some (false, a).
Definition asm_fcvt_w_q (rd frs1 rm : Z) (a : assembler) : option (bool * assembler) :=
  if valid ireg5 rd && valid freg5 frs1 && valid arg3 rm
  then i ← encode_inst (set_rm rm (set_rs1 frs1 (set_rd rd (set_op rv_op_fcvt_w_q decode_init)))); Some (true, add_inst i a) else Some (false, a).
Definition asm_fcvt_wu_q (rd frs1 rm : Z) (a : assembler) : option (bool * assembler) :=
  if valid ireg5 rd && valid freg5 frs1 && valid arg3 rm
  then i ← encode_inst (set_rm rm (set_rs1 frs1 (set_rd rd (set_op rv_op_fcvt_wu_q decode_init)))); Some (true, add_inst i a) else Some (false, a).
Definition asm_fcvt_q_w (frd rs1 rm : Z) (a : assembler) : option (bool * assembler) :=
  if valid freg5 frd && valid ireg5 rs1 && valid arg3 rm
  then i ← encode_inst (set_rm rm (set_rs1 rs1 (set_rd frd (set_op rv_op_fcvt_q_w decode_init)))); Some (true, add_inst i a) else Some (false, a).
Definition asm_fcvt_q_wu (frd rs1 rm : Z) (a : assembler) : option (bool * assembler) :=
  if valid freg5 frd && valid ireg5 rs1 && valid arg3 rm
  then i ← encode_inst (set_rm rm (set_rs1 rs1 (set_rd frd (set_op rv_op_fcvt_q_wu decode_init)))); Some (true, add_inst i a) else Some (false, a).
Definition asm_fclass_q (rd frs1 : Z) (a : assembler) : option (bool * assembler) :=
  if valid ireg5 rd && valid freg5 frs1
  then i ← encode_inst (set_rs1 frs1 (set_rd rd (set_op rv_op_fclass_q decode_init))); Some (true, add_inst i a) else Some (false, a).
Definition asm_fcvt_l_q (rd frs1 rm : Z) (a : assembler) : option (bool * assembler) :=
  if valid ireg5 rd && valid freg5 frs1 && valid arg3 rm
  then i ← encode_inst (set_rm rm (set_rs1 frs1 (set_rd rd (set_op rv_op_fcvt_l_q decode_init)))); Some (true, add_inst i a) else Some (false, a).
Definition asm_fcvt_lu_q (rd frs1 rm : Z) (a : assembler) : option (bool * assembler) :=
  if valid ireg5 rd && valid freg5 frs1 && valid arg3 rm
  then i ← encode_inst (set_rm rm (set_rs1 frs1 (set_rd rd (set_op rv_op_fcvt_lu_q decode_init)))); Some (true, add_inst i a) else Some (false, a).
Definition asm_fcvt_q_l (frd rs1 rm : Z) (a : assembler) : option (bool * assembler) :=
  if valid freg5 frd && valid ireg5 rs1 && valid arg3 rm
  then i ← encode_inst (set_rm rm (set_rs1 rs1 (set_rd frd (set_op rv_op_fcvt_q_l decode_init)))); Some (true, add_inst i a) else Some (false, a).
Definition asm_fcvt_q_lu (frd rs1 rm : Z) (a : assembler) : option (bool * assembler) :=
  if valid freg5 frd && valid ireg5 rs1 && valid arg3 rm
  then i ← encode_inst (set_rm rm (set_rs1 rs1 (set_rd frd (set_op rv_op_fcvt_q_lu decode_init)))); Some (true, add_inst i a) else Some (false, a).
Definition asm_fmv_x_q (rd frs1 : Z) (a : assembler) : option (bool * assembler) :=
  if valid ireg5 rd && valid freg5 frs1
  then i ← encode_inst (set_rs1 frs1 (set_rd rd (set_op rv_op_fmv_x_q decode_init))); Some (true, add_inst i a) else Some (false, a).
Definition asm_fmv_q_x (frd rs1 : Z) (a : assembler) : option (bool * assembler) :=
  if valid freg5 frd && valid ireg5 rs1
  then i ← encode_inst (set_rs1 rs1 (set_rd frd (set_op rv_op_fmv_q_x decode_init))); Some (true, add_inst i a) else Some (false, a).
