(* ===== verification/AsmEmitTheorems.v ===== *)
(** * AsmEmitTheorems: every instruction emitter of [asm/jit.cc] against the
    encoder and the decoder. *)

From Stdlib Require Import ZArith Lia Bool List.
From stdpp Require Import base numbers list strings.
From S2P Require Import Prelude Operand Meta Decode Encode Codec CodecSound CodecRound Compress Assembler AsmEmit.

(** ** The emitters by opcode

    Each on the operands of an instruction.  The three CSR instructions with an
    immediate are apart: [csr_immediate_lost]. *)
Definition emitter_of (op : rv_op) : option (decode -> option Z) :=
  match op with
  | rv_op_lui => Some (fun d => emit_lui (d_rd d) (d_imm d))
  | rv_op_auipc => Some (fun d => emit_auipc (d_rd d) (d_imm d))
  | rv_op_jal => Some (fun d => emit_jal (d_rd d) (d_imm d))
  | rv_op_jalr => Some (fun d => emit_jalr (d_rd d) (d_rs1 d) (d_imm d))
  | rv_op_beq => Some (fun d => emit_beq (d_rs1 d) (d_rs2 d) (d_imm d))
  | rv_op_bne => Some (fun d => emit_bne (d_rs1 d) (d_rs2 d) (d_imm d))
  | rv_op_blt => Some (fun d => emit_blt (d_rs1 d) (d_rs2 d) (d_imm d))
  | rv_op_bge => Some (fun d => emit_bge (d_rs1 d) (d_rs2 d) (d_imm d))
  | rv_op_bltu => Some (fun d => emit_bltu (d_rs1 d) (d_rs2 d) (d_imm d))
  | rv_op_bgeu => Some (fun d => emit_bgeu (d_rs1 d) (d_rs2 d) (d_imm d))
  | rv_op_lb => Some (fun d => emit_lb (d_rd d) (d_rs1 d) (d_imm d))
  | rv_op_lh => Some (fun d => emit_lh (d_rd d) (d_rs1 d) (d_imm d))
  | rv_op_lw => Some (fun d => emit_lw (d_rd d) (d_rs1 d) (d_imm d))
  | rv_op_lbu => Some (fun d => emit_lbu (d_rd d) (d_rs1 d) (d_imm d))
  | rv_op_lhu => Some (fun d => emit_lhu (d_rd d) (d_rs1 d) (d_imm d))
  | rv_op_sb => Some (fun d => emit_sb (d_rs1 d) (d_rs2 d) (d_imm d))
  | rv_op_sh => Some (fun d => emit_sh (d_rs1 d) (d_rs2 d) (d_imm d))
  | rv_op_sw => Some (fun d => emit_sw (d_rs1 d) (d_rs2 d) (d_imm d))
  | rv_op_addi => Some (fun d => emit_addi (d_rd d) (d_rs1 d) (d_imm d))
  | rv_op_slti => Some (fun d => emit_slti (d_rd d) (d_rs1 d) (d_imm d))
  | rv_op_sltiu => Some (fun d => emit_sltiu (d_rd d) (d_rs1 d) (d_imm d))
  | rv_op_xori => Some (fun d => emit_xori (d_rd d) (d_rs1 d) (d_imm d))
  | rv_op_ori => Some (fun d => emit_ori (d_rd d) (d_rs1 d) (d_imm d))
  | rv_op_andi => Some (fun d => emit_andi (d_rd d) (d_rs1 d) (d_imm d))
  | rv_op_slli => Some (fun d => emit_slli (d_rd d) (d_rs1 d) (d_imm d))
  | rv_op_srli => Some (fun d => emit_srli (d_rd d) (d_rs1 d) (d_imm d))
  | rv_op_srai => Some (fun d => emit_srai (d_rd d) (d_rs1 d) (d_imm d))
  | rv_op_add => Some (fun d => emit_add (d_rd d) (d_rs1 d) (d_rs2 d))
  | rv_op_sub => Some (fun d => emit_sub (d_rd d) (d_rs1 d) (d_rs2 d))
  | rv_op_sll => Some (fun d => emit_sll (d_rd d) (d_rs1 d) (d_rs2 d))
  | rv_op_slt => Some (fun d => emit_slt (d_rd d) (d_rs1 d) (d_rs2 d))
  | rv_op_sltu => Some (fun d => emit_sltu (d_rd d) (d_rs1 d) (d_rs2 d))
  | rv_op_xor => Some (fun d => emit_xor (d_rd d) (d_rs1 d) (d_rs2 d))
  | rv_op_srl => Some (fun d => emit_srl (d_rd d) (d_rs1 d) (d_rs2 d))
  | rv_op_sra => Some (fun d => emit_sra (d_rd d) (d_rs1 d) (d_rs2 d))
  | rv_op_or => Some (fun d => emit_or (d_rd d) (d_rs1 d) (d_rs2 d))
  | rv_op_and => Some (fun d => emit_and (d_rd d) (d_rs1 d) (d_rs2 d))
  | rv_op_fence => Some (fun d => emit_fence (d_pred d) (d_succ d))
  | rv_op_fence_i => Some (fun d => emit_fence_i)
  | rv_op_lwu => Some (fun d => emit_lwu (d_rd d) (d_rs1 d) (d_imm d))
  | rv_op_ld => Some (fun d => emit_ld (d_rd d) (d_rs1 d) (d_imm d))
  | rv_op_sd => Some (fun d => emit_sd (d_rs1 d) (d_rs2 d) (d_imm d))
  | rv_op_addiw => Some (fun d => emit_addiw (d_rd d) (d_rs1 d) (d_imm d))
  | rv_op_slliw => Some (fun d => emit_slliw (d_rd d) (d_rs1 d) (d_imm d))
  | rv_op_srliw => Some (fun d => emit_srliw (d_rd d) (d_rs1 d) (d_imm d))
  | rv_op_sraiw => Some (fun d => emit_sraiw (d_rd d) (d_rs1 d) (d_imm d))
  | rv_op_addw => Some (fun d => emit_addw (d_rd d) (d_rs1 d) (d_rs2 d))
  | rv_op_subw => Some (fun d => emit_subw (d_rd d) (d_rs1 d) (d_rs2 d))
  | rv_op_sllw => Some (fun d => emit_sllw (d_rd d) (d_rs1 d) (d_rs2 d))
  | rv_op_srlw => Some (fun d => emit_srlw (d_rd d) (d_rs1 d) (d_rs2 d))
  | rv_op_sraw => Some (fun d => emit_sraw (d_rd d) (d_rs1 d) (d_rs2 d))
  | rv_op_ldu => Some (fun d => emit_ldu (d_rd d) (d_rs1 d) (d_imm d))
  | rv_op_lq => Some (fun d => emit_lq (d_rd d) (d_rs1 d) (d_imm d))
  | rv_op_sq => Some (fun d => emit_sq (d_rs1 d) (d_rs2 d) (d_imm d))
  | rv_op_addid => Some (fun d => emit_addid (d_rd d) (d_rs1 d) (d_imm d))
  | rv_op_sllid => Some (fun d => emit_sllid (d_rd d) (d_rs1 d) (d_imm d))
  | rv_op_srlid => Some (fun d => emit_srlid (d_rd d) (d_rs1 d) (d_imm d))
  | rv_op_sraid => Some (fun d => emit_sraid (d_rd d) (d_rs1 d) (d_imm d))
  | rv_op_addd => Some (fun d => emit_addd (d_rd d) (d_rs1 d) (d_rs2 d))
  | rv_op_subd => Some (fun d => emit_subd (d_rd d) (d_rs1 d) (d_rs2 d))
  | rv_op_slld => Some (fun d => emit_slld (d_rd d) (d_rs1 d) (d_rs2 d))
  | rv_op_srld => Some (fun d => emit_srld (d_rd d) (d_rs1 d) (d_rs2 d))
  | rv_op_srad => Some (fun d => emit_srad (d_rd d) (d_rs1 d) (d_rs2 d))
  | rv_op_mul => Some (fun d => emit_mul (d_rd d) (d_rs1 d) (d_rs2 d))
  | rv_op_mulh => Some (fun d => emit_mulh (d_rd d) (d_rs1 d) (d_rs2 d))
  | rv_op_mulhsu => Some (fun d => emit_mulhsu (d_rd d) (d_rs1 d) (d_rs2 d))
  | rv_op_mulhu => Some (fun d => emit_mulhu (d_rd d) (d_rs1 d) (d_rs2 d))
  | rv_op_div => Some (fun d => emit_div (d_rd d) (d_rs1 d) (d_rs2 d))
  | rv_op_divu => Some (fun d => emit_divu (d_rd d) (d_rs1 d) (d_rs2 d))
  | rv_op_rem => Some (fun d => emit_rem (d_rd d) (d_rs1 d) (d_rs2 d))
  | rv_op_remu => Some (fun d => emit_remu (d_rd d) (d_rs1 d) (d_rs2 d))
  | rv_op_mulw => Some (fun d => emit_mulw (d_rd d) (d_rs1 d) (d_rs2 d))
  | rv_op_divw => Some (fun d => emit_divw (d_rd d) (d_rs1 d) (d_rs2 d))
  | rv_op_divuw => Some (fun d => emit_divuw (d_rd d) (d_rs1 d) (d_rs2 d))
  | rv_op_remw => Some (fun d => emit_remw (d_rd d) (d_rs1 d) (d_rs2 d))
  | rv_op_remuw => Some (fun d => emit_remuw (d_rd d) (d_rs1 d) (d_rs2 d))
  | rv_op_muld => Some (fun d => emit_muld (d_rd d) (d_rs1 d) (d_rs2 d))
  | rv_op_divd => Some (fun d => emit_divd (d_rd d) (d_rs1 d) (d_rs2 d))
  | rv_op_divud => Some (fun d => emit_divud (d_rd d) (d_rs1 d) (d_rs2 d))
  | rv_op_remd => Some (fun d => emit_remd (d_rd d) (d_rs1 d) (d_rs2 d))
  | rv_op_remud => Some (fun d => emit_remud (d_rd d) (d_rs1 d) (d_rs2 d))
  | rv_op_lr_w => Some (fun d => emit_lr_w (d_rd d) (d_rs1 d) (d_aq d) (d_rl d))
  | rv_op_sc_w => Some (fun d => emit_sc_w (d_rd d) (d_rs1 d) (d_rs2 d) (d_aq d) (d_rl d))
  | rv_op_amoswap_w => Some (fun d => emit_amoswap_w (d_rd d) (d_rs1 d) (d_rs2 d) (d_aq d) (d_rl d))
  | rv_op_amoadd_w => Some (fun d => emit_amoadd_w (d_rd d) (d_rs1 d) (d_rs2 d) (d_aq d) (d_rl d))
  | rv_op_amoxor_w => Some (fun d => emit_amoxor_w (d_rd d) (d_rs1 d) (d_rs2 d) (d_aq d) (d_rl d))
  | rv_op_amoor_w => Some (fun d => emit_amoor_w (d_rd d) (d_rs1 d) (d_rs2 d) (d_aq d) (d_rl d))
  | rv_op_amoand_w => Some (fun d => emit_amoand_w (d_rd d) (d_rs1 d) (d_rs2 d) (d_aq d) (d_rl d))
  | rv_op_amomin_w => Some (fun d => emit_amomin_w (d_rd d) (d_rs1 d) (d_rs2 d) (d_aq d) (d_rl d))
  | rv_op_amomax_w => Some (fun d => emit_amomax_w (d_rd d) (d_rs1 d) (d_rs2 d) (d_aq d) (d_rl d))
  | rv_op_amominu_w => Some (fun d => emit_amominu_w (d_rd d) (d_rs1 d) (d_rs2 d) (d_aq d) (d_rl d))
  | rv_op_amomaxu_w => Some (fun d => emit_amomaxu_w (d_rd d) (d_rs1 d) (d_rs2 d) (d_aq d) (d_rl d))
  | rv_op_lr_d => Some (fun d => emit_lr_d (d_rd d) (d_rs1 d) (d_aq d) (d_rl d))
  | rv_op_sc_d => Some (fun d => emit_sc_d (d_rd d) (d_rs1 d) (d_rs2 d) (d_aq d) (d_rl d))
  | rv_op_amoswap_d => Some (fun d => emit_amoswap_d (d_rd d) (d_rs1 d) (d_rs2 d) (d_aq d) (d_rl d))
  | rv_op_amoadd_d => Some (fun d => emit_amoadd_d (d_rd d) (d_rs1 d) (d_rs2 d) (d_aq d) (d_rl d))
  | rv_op_amoxor_d => Some (fun d => emit_amoxor_d (d_rd d) (d_rs1 d) (d_rs2 d) (d_aq d) (d_rl d))
  | rv_op_amoor_d => Some (fun d => emit_amoor_d (d_rd d) (d_rs1 d) (d_rs2 d) (d_aq d) (d_rl d))
  | rv_op_amoand_d => Some (fun d => emit_amoand_d (d_rd d) (d_rs1 d) (d_rs2 d) (d_aq d) (d_rl d))
  | rv_op_amomin_d => Some (fun d => emit_amomin_d (d_rd d) (d_rs1 d) (d_rs2 d) (d_aq d) (d_rl d))
  | rv_op_amomax_d => Some (fun d => emit_amomax_d (d_rd d) (d_rs1 d) (d_rs2 d) (d_aq d) (d_rl d))
  | rv_op_amominu_d => Some (fun d => emit_amominu_d (d_rd d) (d_rs1 d) (d_rs2 d) (d_aq d) (d_rl d))
  | rv_op_amomaxu_d => Some (fun d => emit_amomaxu_d (d_rd d) (d_rs1 d) (d_rs2 d) (d_aq d) (d_rl d))
  | rv_op_lr_q => Some (fun d => emit_lr_q (d_rd d) (d_rs1 d) (d_aq d) (d_rl d))
  | rv_op_sc_q => Some (fun d => emit_sc_q (d_rd d) (d_rs1 d) (d_rs2 d) (d_aq d) (d_rl d))
  | rv_op_amoswap_q => Some (fun d => emit_amoswap_q (d_rd d) (d_rs1 d) (d_rs2 d) (d_aq d) (d_rl d))
  | rv_op_amoadd_q => Some (fun d => emit_amoadd_q (d_rd d) (d_rs1 d) (d_rs2 d) (d_aq d) (d_rl d))
  | rv_op_amoxor_q => Some (fun d => emit_amoxor_q (d_rd d) (d_rs1 d) (d_rs2 d) (d_aq d) (d_rl d))
  | rv_op_amoor_q => Some (fun d => emit_amoor_q (d_rd d) (d_rs1 d) (d_rs2 d) (d_aq d) (d_rl d))
  | rv_op_amoand_q => Some (fun d => emit_amoand_q (d_rd d) (d_rs1 d) (d_rs2 d) (d_aq d) (d_rl d))
  | rv_op_amomin_q => Some (fun d => emit_amomin_q (d_rd d) (d_rs1 d) (d_rs2 d) (d_aq d) (d_rl d))
  | rv_op_amomax_q => Some (fun d => emit_amomax_q (d_rd d) (d_rs1 d) (d_rs2 d) (d_aq d) (d_rl d))
  | rv_op_amominu_q => Some (fun d => emit_amominu_q (d_rd d) (d_rs1 d) (d_rs2 d) (d_aq d) (d_rl d))
  | rv_op_amomaxu_q => Some (fun d => emit_amomaxu_q (d_rd d) (d_rs1 d) (d_rs2 d) (d_aq d) (d_rl d))
  | rv_op_ecall => Some (fun d => emit_ecall)
  | rv_op_ebreak => Some (fun d => emit_ebreak)
  | rv_op_uret => Some (fun d => emit_uret)
  | rv_op_sret => Some (fun d => emit_sret)
  | rv_op_hret => Some (fun d => emit_hret)
  | rv_op_mret => Some (fun d => emit_mret)
  | rv_op_dret => Some (fun d => emit_dret)
  | rv_op_sfence_vm => Some (fun d => emit_sfence_vm (d_rs1 d))
  | rv_op_wfi => Some (fun d => emit_wfi)
  | rv_op_csrrw => Some (fun d => emit_csrrw (d_rd d) (d_rs1 d) (d_imm d))
  | rv_op_csrrs => Some (fun d => emit_csrrs (d_rd d) (d_rs1 d) (d_imm d))
  | rv_op_csrrc => Some (fun d => emit_csrrc (d_rd d) (d_rs1 d) (d_imm d))
  | rv_op_flw => Some (fun d => emit_flw (d_rd d) (d_rs1 d) (d_imm d))
  | rv_op_fsw => Some (fun d => emit_fsw (d_rs1 d) (d_rs2 d) (d_imm d))
  | rv_op_fmadd_s => Some (fun d => emit_fmadd_s (d_rd d) (d_rs1 d) (d_rs2 d) (d_rs3 d) (d_rm d))
  | rv_op_fmsub_s => Some (fun d => emit_fmsub_s (d_rd d) (d_rs1 d) (d_rs2 d) (d_rs3 d) (d_rm d))
  | rv_op_fnmsub_s => Some (fun d => emit_fnmsub_s (d_rd d) (d_rs1 d) (d_rs2 d) (d_rs3 d) (d_rm d))
  | rv_op_fnmadd_s => Some (fun d => emit_fnmadd_s (d_rd d) (d_rs1 d) (d_rs2 d) (d_rs3 d) (d_rm d))
  | rv_op_fadd_s => Some (fun d => emit_fadd_s (d_rd d) (d_rs1 d) (d_rs2 d) (d_rm d))
  | rv_op_fsub_s => Some (fun d => emit_fsub_s (d_rd d) (d_rs1 d) (d_rs2 d) (d_rm d))
  | rv_op_fmul_s => Some (fun d => emit_fmul_s (d_rd d) (d_rs1 d) (d_rs2 d) (d_rm d))
  | rv_op_fdiv_s => Some (fun d => emit_fdiv_s (d_rd d) (d_rs1 d) (d_rs2 d) (d_rm d))
  | rv_op_fsgnj_s => Some (fun d => emit_fsgnj_s (d_rd d) (d_rs1 d) (d_rs2 d))
  | rv_op_fsgnjn_s => Some (fun d => emit_fsgnjn_s (d_rd d) (d_rs1 d) (d_rs2 d))
  | rv_op_fsgnjx_s => Some (fun d => emit_fsgnjx_s (d_rd d) (d_rs1 d) (d_rs2 d))
  | rv_op_fmin_s => Some (fun d => emit_fmin_s (d_rd d) (d_rs1 d) (d_rs2 d))
  | rv_op_fmax_s => Some (fun d => emit_fmax_s (d_rd d) (d_rs1 d) (d_rs2 d))
  | rv_op_fsqrt_s => Some (fun d => emit_fsqrt_s (d_rd d) (d_rs1 d) (d_rm d))
  | rv_op_fle_s => Some (fun d => emit_fle_s (d_rd d) (d_rs1 d) (d_rs2 d))
  | rv_op_flt_s => Some (fun d => emit_flt_s (d_rd d) (d_rs1 d) (d_rs2 d))
  | rv_op_feq_s => Some (fun d => emit_feq_s (d_rd d) (d_rs1 d) (d_rs2 d))
  | rv_op_fcvt_w_s => Some (fun d => emit_fcvt_w_s (d_rd d) (d_rs1 d) (d_rm d))
  | rv_op_fcvt_wu_s => Some (fun d => emit_fcvt_wu_s (d_rd d) (d_rs1 d) (d_rm d))
  | rv_op_fcvt_s_w => Some (fun d => emit_fcvt_s_w (d_rd d) (d_rs1 d) (d_rm d))
  | rv_op_fcvt_s_wu => Some (fun d => emit_fcvt_s_wu (d_rd d) (d_rs1 d) (d_rm d))
  | rv_op_fmv_x_s => Some (fun d => emit_fmv_x_s (d_rd d) (d_rs1 d))
  | rv_op_fclass_s => Some (fun d => emit_fclass_s (d_rd d) (d_rs1 d))
  | rv_op_fmv_s_x => Some (fun d => emit_fmv_s_x (d_rd d) (d_rs1 d))
  | rv_op_fcvt_l_s => Some (fun d => emit_fcvt_l_s (d_rd d) (d_rs1 d) (d_rm d))
  | rv_op_fcvt_lu_s => Some (fun d => emit_fcvt_lu_s (d_rd d) (d_rs1 d) (d_rm d))
  | rv_op_fcvt_s_l => Some (fun d => emit_fcvt_s_l (d_rd d) (d_rs1 d) (d_rm d))
  | rv_op_fcvt_s_lu => Some (fun d => emit_fcvt_s_lu (d_rd d) (d_rs1 d) (d_rm d))
  | rv_op_fld => Some (fun d => emit_fld (d_rd d) (d_rs1 d) (d_imm d))
  | rv_op_fsd => Some (fun d => emit_fsd (d_rs1 d) (d_rs2 d) (d_imm d))
  | rv_op_fmadd_d => Some (fun d => emit_fmadd_d (d_rd d) (d_rs1 d) (d_rs2 d) (d_rs3 d) (d_rm d))
  | rv_op_fmsub_d => Some (fun d => emit_fmsub_d (d_rd d) (d_rs1 d) (d_rs2 d) (d_rs3 d) (d_rm d))
  | rv_op_fnmsub_d => Some (fun d => emit_fnmsub_d (d_rd d) (d_rs1 d) (d_rs2 d) (d_rs3 d) (d_rm d))
  | rv_op_fnmadd_d => Some (fun d => emit_fnmadd_d (d_rd d) (d_rs1 d) (d_rs2 d) (d_rs3 d) (d_rm d))
  | rv_op_fadd_d => Some (fun d => emit_fadd_d (d_rd d) (d_rs1 d) (d_rs2 d) (d_rm d))
  | rv_op_fsub_d => Some (fun d => emit_fsub_d (d_rd d) (d_rs1 d) (d_rs2 d) (d_rm d))
  | rv_op_fmul_d => Some (fun d => emit_fmul_d (d_rd d) (d_rs1 d) (d_rs2 d) (d_rm d))
  | rv_op_fdiv_d => Some (fun d => emit_fdiv_d (d_rd d) (d_rs1 d) (d_rs2 d) (d_rm d))
  | rv_op_fsgnj_d => Some (fun d => emit_fsgnj_d (d_rd d) (d_rs1 d) (d_rs2 d))
  | rv_op_fsgnjn_d => Some (fun d => emit_fsgnjn_d (d_rd d) (d_rs1 d) (d_rs2 d))
  | rv_op_fsgnjx_d => Some (fun d => emit_fsgnjx_d (d_rd d) (d_rs1 d) (d_rs2 d))
  | rv_op_fmin_d => Some (fun d => emit_fmin_d (d_rd d) (d_rs1 d) (d_rs2 d))
  | rv_op_fmax_d => Some (fun d => emit_fmax_d (d_rd d) (d_rs1 d) (d_rs2 d))
  | rv_op_fcvt_s_d => Some (fun d => emit_fcvt_s_d (d_rd d) (d_rs1 d) (d_rm d))
  | rv_op_fcvt_d_s => Some (fun d => emit_fcvt_d_s (d_rd d) (d_rs1 d) (d_rm d))
  | rv_op_fsqrt_d => Some (fun d => emit_fsqrt_d (d_rd d) (d_rs1 d) (d_rm d))
  | rv_op_fle_d => Some (fun d => emit_fle_d (d_rd d) (d_rs1 d) (d_rs2 d))
  | rv_op_flt_d => Some (fun d => emit_flt_d (d_rd d) (d_rs1 d) (d_rs2 d))
  | rv_op_feq_d => Some (fun d => emit_feq_d (d_rd d) (d_rs1 d) (d_rs2 d))
  | rv_op_fcvt_w_d => Some (fun d => emit_fcvt_w_d (d_rd d) (d_rs1 d) (d_rm d))
  | rv_op_fcvt_wu_d => Some (fun d => emit_fcvt_wu_d (d_rd d) (d_rs1 d) (d_rm d))
  | rv_op_fcvt_d_w => Some (fun d => emit_fcvt_d_w (d_rd d) (d_rs1 d) (d_rm d))
  | rv_op_fcvt_d_wu => Some (fun d => emit_fcvt_d_wu (d_rd d) (d_rs1 d) (d_rm d))
  | rv_op_fclass_d => Some (fun d => emit_fclass_d (d_rd d) (d_rs1 d))
  | rv_op_fcvt_l_d => Some (fun d => emit_fcvt_l_d (d_rd d) (d_rs1 d) (d_rm d))
  | rv_op_fcvt_lu_d => Some (fun d => emit_fcvt_lu_d (d_rd d) (d_rs1 d) (d_rm d))
  | rv_op_fmv_x_d => Some (fun d => emit_fmv_x_d (d_rd d) (d_rs1 d))
  | rv_op_fcvt_d_l => Some (fun d => emit_fcvt_d_l (d_rd d) (d_rs1 d) (d_rm d))
  | rv_op_fcvt_d_lu => Some (fun d => emit_fcvt_d_lu (d_rd d) (d_rs1 d) (d_rm d))
  | rv_op_fmv_d_x => Some (fun d => emit_fmv_d_x (d_rd d) (d_rs1 d))
  | rv_op_flq => Some (fun d => emit_flq (d_rd d) (d_rs1 d) (d_imm d))
  | rv_op_fsq => Some (fun d => emit_fsq (d_rs1 d) (d_rs2 d) (d_imm d))
  | rv_op_fmadd_q => Some (fun d => emit_fmadd_q (d_rd d) (d_rs1 d) (d_rs2 d) (d_rs3 d) (d_rm d))
  | rv_op_fmsub_q => Some (fun d => emit_fmsub_q (d_rd d) (d_rs1 d) (d_rs2 d) (d_rs3 d) (d_rm d))
  | rv_op_fnmsub_q => Some (fun d => emit_fnmsub_q (d_rd d) (d_rs1 d) (d_rs2 d) (d_rs3 d) (d_rm d))
  | rv_op_fnmadd_q => Some (fun d => emit_fnmadd_q (d_rd d) (d_rs1 d) (d_rs2 d) (d_rs3 d) (d_rm d))
  | rv_op_fadd_q => Some (fun d => emit_fadd_q (d_rd d) (d_rs1 d) (d_rs2 d) (d_rm d))
  | rv_op_fsub_q => Some (fun d => emit_fsub_q (d_rd d) (d_rs1 d) (d_rs2 d) (d_rm d))
  | rv_op_fmul_q => Some (fun d => emit_fmul_q (d_rd d) (d_rs1 d) (d_rs2 d) (d_rm d))
  | rv_op_fdiv_q => Some (fun d => emit_fdiv_q (d_rd d) (d_rs1 d) (d_rs2 d) (d_rm d))
  | rv_op_fsgnj_q => Some (fun d => emit_fsgnj_q (d_rd d) (d_rs1 d) (d_rs2 d))
  | rv_op_fsgnjn_q => Some (fun d => emit_fsgnjn_q (d_rd d) (d_rs1 d) (d_rs2 d))
  | rv_op_fsgnjx_q => Some (fun d => emit_fsgnjx_q (d_rd d) (d_rs1 d) (d_rs2 d))
  | rv_op_fmin_q => Some (fun d => emit_fmin_q (d_rd d) (d_rs1 d) (d_rs2 d))
  | rv_op_fmax_q => Some (fun d => emit_fmax_q (d_rd d) (d_rs1 d) (d_rs2 d))
  | rv_op_fcvt_s_q => Some (fun d => emit_fcvt_s_q (d_rd d) (d_rs1 d) (d_rm d))
  | rv_op_fcvt_q_s => Some (fun d => emit_fcvt_q_s (d_rd d) (d_rs1 d) (d_rm d))
  | rv_op_fcvt_d_q => Some (fun d => emit_fcvt_d_q (d_rd d) (d_rs1 d) (d_rm d))
  | rv_op_fcvt_q_d => Some (fun d => emit_fcvt_q_d (d_rd d) (d_rs1 d) (d_rm d))
  | rv_op_fsqrt_q => Some (fun d => emit_fsqrt_q (d_rd d) (d_rs1 d) (d_rm d))
  | rv_op_fle_q => Some (fun d => emit_fle_q (d_rd d) (d_rs1 d) (d_rs2 d))
  | rv_op_flt_q => Some (fun d => emit_flt_q (d_rd d) (d_rs1 d) (d_rs2 d))
  | rv_op_feq_q => Some (fun d => emit_feq_q (d_rd d) (d_rs1 d) (d_rs2 d))
  | rv_op_fcvt_w_q => Some (fun d => emit_fcvt_w_q (d_rd d) (d_rs1 d) (d_rm d))
  | rv_op_fcvt_wu_q => Some (fun d => emit_fcvt_wu_q (d_rd d) (d_rs1 d) (d_rm d))
  | rv_op_fcvt_q_w => Some (fun d => emit_fcvt_q_w (d_rd d) (d_rs1 d) (d_rm d))
  | rv_op_fcvt_q_wu => Some (fun d => emit_fcvt_q_wu (d_rd d) (d_rs1 d) (d_rm d))
  | rv_op_fclass_q => Some (fun d => emit_fclass_q (d_rd d) (d_rs1 d))
  | rv_op_fcvt_l_q => Some (fun d => emit_fcvt_l_q (d_rd d) (d_rs1 d) (d_rm d))
  | rv_op_fcvt_lu_q => Some (fun d => emit_fcvt_lu_q (d_rd d) (d_rs1 d) (d_rm d))
  | rv_op_fcvt_q_l => Some (fun d => emit_fcvt_q_l (d_rd d) (d_rs1 d) (d_rm d))
  | rv_op_fcvt_q_lu => Some (fun d => emit_fcvt_q_lu (d_rd d) (d_rs1 d) (d_rm d))
  | rv_op_fmv_x_q => Some (fun d => emit_fmv_x_q (d_rd d) (d_rs1 d))
  | rv_op_fmv_q_x => Some (fun d => emit_fmv_q_x (d_rd d) (d_rs1 d))
  | _ => None
  end.

Definition asm_fn (op : rv_op) : option (decode -> assembler -> option (bool * assembler)) :=
  match op with
  | rv_op_lui => Some (fun d => asm_lui (d_rd d) (d_imm d))
  | rv_op_auipc => Some (fun d => asm_auipc (d_rd d) (d_imm d))
  | rv_op_jal => Some (fun d => asm_jal (d_rd d) (d_imm d))
  | rv_op_jalr => Some (fun d => asm_jalr (d_rd d) (d_rs1 d) (d_imm d))
  | rv_op_beq => Some (fun d => asm_beq (d_rs1 d) (d_rs2 d) (d_imm d))
  | rv_op_bne => Some (fun d => asm_bne (d_rs1 d) (d_rs2 d) (d_imm d))
  | rv_op_blt => Some (fun d => asm_blt (d_rs1 d) (d_rs2 d) (d_imm d))
  | rv_op_bge => Some (fun d => asm_bge (d_rs1 d) (d_rs2 d) (d_imm d))
  | rv_op_bltu => Some (fun d => asm_bltu (d_rs1 d) (d_rs2 d) (d_imm d))
  | rv_op_bgeu => Some (fun d => asm_bgeu (d_rs1 d) (d_rs2 d) (d_imm d))
  | rv_op_lb => Some (fun d => asm_lb (d_rd d) (d_rs1 d) (d_imm d))
  | rv_op_lh => Some (fun d => asm_lh (d_rd d) (d_rs1 d) (d_imm d))
  | rv_op_lw => Some (fun d => asm_lw (d_rd d) (d_rs1 d) (d_imm d))
  | rv_op_lbu => Some (fun d => asm_lbu (d_rd d) (d_rs1 d) (d_imm d))
  | rv_op_lhu => Some (fun d => asm_lhu (d_rd d) (d_rs1 d) (d_imm d))
  | rv_op_sb => Some (fun d => asm_sb (d_rs1 d) (d_rs2 d) (d_imm d))
  | rv_op_sh => Some (fun d => asm_sh (d_rs1 d) (d_rs2 d) (d_imm d))
  | rv_op_sw => Some (fun d => asm_sw (d_rs1 d) (d_rs2 d) (d_imm d))
  | rv_op_addi => Some (fun d => asm_addi (d_rd d) (d_rs1 d) (d_imm d))
  | rv_op_slti => Some (fun d => asm_slti (d_rd d) (d_rs1 d) (d_imm d))
  | rv_op_sltiu => Some (fun d => asm_sltiu (d_rd d) (d_rs1 d) (d_imm d))
  | rv_op_xori => Some (fun d => asm_xori (d_rd d) (d_rs1 d) (d_imm d))
  | rv_op_ori => Some (fun d => asm_ori (d_rd d) (d_rs1 d) (d_imm d))
  | rv_op_andi => Some (fun d => asm_andi (d_rd d) (d_rs1 d) (d_imm d))
  | rv_op_slli => Some (fun d => asm_slli (d_rd d) (d_rs1 d) (d_imm d))
  | rv_op_srli => Some (fun d => asm_srli (d_rd d) (d_rs1 d) (d_imm d))
  | rv_op_srai => Some (fun d => asm_srai (d_rd d) (d_rs1 d) (d_imm d))
  | rv_op_add => Some (fun d => asm_add (d_rd d) (d_rs1 d) (d_rs2 d))
  | rv_op_sub => Some (fun d => asm_sub (d_rd d) (d_rs1 d) (d_rs2 d))
  | rv_op_sll => Some (fun d => asm_sll (d_rd d) (d_rs1 d) (d_rs2 d))
  | rv_op_slt => Some (fun d => asm_slt (d_rd d) (d_rs1 d) (d_rs2 d))
  | rv_op_sltu => Some (fun d => asm_sltu (d_rd d) (d_rs1 d) (d_rs2 d))
  | rv_op_xor => Some (fun d => asm_xor (d_rd d) (d_rs1 d) (d_rs2 d))
  | rv_op_srl => Some (fun d => asm_srl (d_rd d) (d_rs1 d) (d_rs2 d))
  | rv_op_sra => Some (fun d => asm_sra (d_rd d) (d_rs1 d) (d_rs2 d))
  | rv_op_or => Some (fun d => asm_or (d_rd d) (d_rs1 d) (d_rs2 d))
  | rv_op_and => Some (fun d => asm_and (d_rd d) (d_rs1 d) (d_rs2 d))
  | rv_op_fence => Some (fun d => asm_fence (d_pred d) (d_succ d))
  | rv_op_fence_i => Some (fun d => asm_fence_i)
  | rv_op_lwu => Some (fun d => asm_lwu (d_rd d) (d_rs1 d) (d_imm d))
  | rv_op_ld => Some (fun d => asm_ld (d_rd d) (d_rs1 d) (d_imm d))
  | rv_op_sd => Some (fun d => asm_sd (d_rs1 d) (d_rs2 d) (d_imm d))
  | rv_op_addiw => Some (fun d => asm_addiw (d_rd d) (d_rs1 d) (d_imm d))
  | rv_op_slliw => Some (fun d => asm_slliw (d_rd d) (d_rs1 d) (d_imm d))
  | rv_op_srliw => Some (fun d => asm_srliw (d_rd d) (d_rs1 d) (d_imm d))
  | rv_op_sraiw => Some (fun d => asm_sraiw (d_rd d) (d_rs1 d) (d_imm d))
  | rv_op_addw => Some (fun d => asm_addw (d_rd d) (d_rs1 d) (d_rs2 d))
  | rv_op_subw => Some (fun d => asm_subw (d_rd d) (d_rs1 d) (d_rs2 d))
  | rv_op_sllw => Some (fun d => asm_sllw (d_rd d) (d_rs1 d) (d_rs2 d))
  | rv_op_srlw => Some (fun d => asm_srlw (d_rd d) (d_rs1 d) (d_rs2 d))
  | rv_op_sraw => Some (fun d => asm_sraw (d_rd d) (d_rs1 d) (d_rs2 d))
  | rv_op_ldu => Some (fun d => asm_ldu (d_rd d) (d_rs1 d) (d_imm d))
  | rv_op_lq => Some (fun d => asm_lq (d_rd d) (d_rs1 d) (d_imm d))
  | rv_op_sq => Some (fun d => asm_sq (d_rs1 d) (d_rs2 d) (d_imm d))
  | rv_op_addid => Some (fun d => asm_addid (d_rd d) (d_rs1 d) (d_imm d))
  | rv_op_sllid => Some (fun d => asm_sllid (d_rd d) (d_rs1 d) (d_imm d))
  | rv_op_srlid => Some (fun d => asm_srlid (d_rd d) (d_rs1 d) (d_imm d))
  | rv_op_sraid => Some (fun d => asm_sraid (d_rd d) (d_rs1 d) (d_imm d))
  | rv_op_addd => Some (fun d => asm_addd (d_rd d) (d_rs1 d) (d_rs2 d))
  | rv_op_subd => Some (fun d => asm_subd (d_rd d) (d_rs1 d) (d_rs2 d))
  | rv_op_slld => Some (fun d => asm_slld (d_rd d) (d_rs1 d) (d_rs2 d))
  | rv_op_srld => Some (fun d => asm_srld (d_rd d) (d_rs1 d) (d_rs2 d))
  | rv_op_srad => Some (fun d => asm_srad (d_rd d) (d_rs1 d) (d_rs2 d))
  | rv_op_mul => Some (fun d => asm_mul (d_rd d) (d_rs1 d) (d_rs2 d))
  | rv_op_mulh => Some (fun d => asm_mulh (d_rd d) (d_rs1 d) (d_rs2 d))
  | rv_op_mulhsu => Some (fun d => asm_mulhsu (d_rd d) (d_rs1 d) (d_rs2 d))
  | rv_op_mulhu => Some (fun d => asm_mulhu (d_rd d) (d_rs1 d) (d_rs2 d))
  | rv_op_div => Some (fun d => asm_div (d_rd d) (d_rs1 d) (d_rs2 d))
  | rv_op_divu => Some (fun d => asm_divu (d_rd d) (d_rs1 d) (d_rs2 d))
  | rv_op_rem => Some (fun d => asm_rem (d_rd d) (d_rs1 d) (d_rs2 d))
  | rv_op_remu => Some (fun d => asm_remu (d_rd d) (d_rs1 d) (d_rs2 d))
  | rv_op_mulw => Some (fun d => asm_mulw (d_rd d) (d_rs1 d) (d_rs2 d))
  | rv_op_divw => Some (fun d => asm_divw (d_rd d) (d_rs1 d) (d_rs2 d))
  | rv_op_divuw => Some (fun d => asm_divuw (d_rd d) (d_rs1 d) (d_rs2 d))
  | rv_op_remw => Some (fun d => asm_remw (d_rd d) (d_rs1 d) (d_rs2 d))
  | rv_op_remuw => Some (fun d => asm_remuw (d_rd d) (d_rs1 d) (d_rs2 d))
  | rv_op_muld => Some (fun d => asm_muld (d_rd d) (d_rs1 d) (d_rs2 d))
  | rv_op_divd => Some (fun d => asm_divd (d_rd d) (d_rs1 d) (d_rs2 d))
  | rv_op_divud => Some (fun d => asm_divud (d_rd d) (d_rs1 d) (d_rs2 d))
  | rv_op_remd => Some (fun d => asm_remd (d_rd d) (d_rs1 d) (d_rs2 d))
  | rv_op_remud => Some (fun d => asm_remud (d_rd d) (d_rs1 d) (d_rs2 d))
  | rv_op_lr_w => Some (fun d => asm_lr_w (d_rd d) (d_rs1 d) (d_aq d) (d_rl d))
  | rv_op_sc_w => Some (fun d => asm_sc_w (d_rd d) (d_rs1 d) (d_rs2 d) (d_aq d) (d_rl d))
  | rv_op_amoswap_w => Some (fun d => asm_amoswap_w (d_rd d) (d_rs1 d) (d_rs2 d) (d_aq d) (d_rl d))
  | rv_op_amoadd_w => Some (fun d => asm_amoadd_w (d_rd d) (d_rs1 d) (d_rs2 d) (d_aq d) (d_rl d))
  | rv_op_amoxor_w => Some (fun d => asm_amoxor_w (d_rd d) (d_rs1 d) (d_rs2 d) (d_aq d) (d_rl d))
  | rv_op_amoor_w => Some (fun d => asm_amoor_w (d_rd d) (d_rs1 d) (d_rs2 d) (d_aq d) (d_rl d))
  | rv_op_amoand_w => Some (fun d => asm_amoand_w (d_rd d) (d_rs1 d) (d_rs2 d) (d_aq d) (d_rl d))
  | rv_op_amomin_w => Some (fun d => asm_amomin_w (d_rd d) (d_rs1 d) (d_rs2 d) (d_aq d) (d_rl d))
  | rv_op_amomax_w => Some (fun d => asm_amomax_w (d_rd d) (d_rs1 d) (d_rs2 d) (d_aq d) (d_rl d))
  | rv_op_amominu_w => Some (fun d => asm_amominu_w (d_rd d) (d_rs1 d) (d_rs2 d) (d_aq d) (d_rl d))
  | rv_op_amomaxu_w => Some (fun d => asm_amomaxu_w (d_rd d) (d_rs1 d) (d_rs2 d) (d_aq d) (d_rl d))
  | rv_op_lr_d => Some (fun d => asm_lr_d (d_rd d) (d_rs1 d) (d_aq d) (d_rl d))
  | rv_op_sc_d => Some (fun d => asm_sc_d (d_rd d) (d_rs1 d) (d_rs2 d) (d_aq d) (d_rl d))
  | rv_op_amoswap_d => Some (fun d => asm_amoswap_d (d_rd d) (d_rs1 d) (d_rs2 d) (d_aq d) (d_rl d))
  | rv_op_amoadd_d => Some (fun d => asm_amoadd_d (d_rd d) (d_rs1 d) (d_rs2 d) (d_aq d) (d_rl d))
  | rv_op_amoxor_d => Some (fun d => asm_amoxor_d (d_rd d) (d_rs1 d) (d_rs2 d) (d_aq d) (d_rl d))
  | rv_op_amoor_d => Some (fun d => asm_amoor_d (d_rd d) (d_rs1 d) (d_rs2 d) (d_aq d) (d_rl d))
  | rv_op_amoand_d => Some (fun d => asm_amoand_d (d_rd d) (d_rs1 d) (d_rs2 d) (d_aq d) (d_rl d))
  | rv_op_amomin_d => Some (fun d => asm_amomin_d (d_rd d) (d_rs1 d) (d_rs2 d) (d_aq d) (d_rl d))
  | rv_op_amomax_d => Some (fun d => asm_amomax_d (d_rd d) (d_rs1 d) (d_rs2 d) (d_aq d) (d_rl d))
  | rv_op_amominu_d => Some (fun d => asm_amominu_d (d_rd d) (d_rs1 d) (d_rs2 d) (d_aq d) (d_rl d))
  | rv_op_amomaxu_d => Some (fun d => asm_amomaxu_d (d_rd d) (d_rs1 d) (d_rs2 d) (d_aq d) (d_rl d))
  | rv_op_lr_q => Some (fun d => asm_lr_q (d_rd d) (d_rs1 d) (d_aq d) (d_rl d))
  | rv_op_sc_q => Some (fun d => asm_sc_q (d_rd d) (d_rs1 d) (d_rs2 d) (d_aq d) (d_rl d))
  | rv_op_amoswap_q => Some (fun d => asm_amoswap_q (d_rd d) (d_rs1 d) (d_rs2 d) (d_aq d) (d_rl d))
  | rv_op_amoadd_q => Some (fun d => asm_amoadd_q (d_rd d) (d_rs1 d) (d_rs2 d) (d_aq d) (d_rl d))
  | rv_op_amoxor_q => Some (fun d => asm_amoxor_q (d_rd d) (d_rs1 d) (d_rs2 d) (d_aq d) (d_rl d))
  | rv_op_amoor_q => Some (fun d => asm_amoor_q (d_rd d) (d_rs1 d) (d_rs2 d) (d_aq d) (d_rl d))
  | rv_op_amoand_q => Some (fun d => asm_amoand_q (d_rd d) (d_rs1 d) (d_rs2 d) (d_aq d) (d_rl d))
  | rv_op_amomin_q => Some (fun d => asm_amomin_q (d_rd d) (d_rs1 d) (d_rs2 d) (d_aq d) (d_rl d))
  | rv_op_amomax_q => Some (fun d => asm_amomax_q (d_rd d) (d_rs1 d) (d_rs2 d) (d_aq d) (d_rl d))
  | rv_op_amominu_q => Some (fun d => asm_amominu_q (d_rd d) (d_rs1 d) (d_rs2 d) (d_aq d) (d_rl d))
  | rv_op_amomaxu_q => Some (fun d => asm_amomaxu_q (d_rd d) (d_rs1 d) (d_rs2 d) (d_aq d) (d_rl d))
  | rv_op_ecall => Some (fun d => asm_ecall)
  | rv_op_ebreak => Some (fun d => asm_ebreak)
  | rv_op_uret => Some (fun d => asm_uret)
  | rv_op_sret => Some (fun d => asm_sret)
  | rv_op_hret => Some (fun d => asm_hret)
  | rv_op_mret => Some (fun d => asm_mret)
  | rv_op_dret => Some (fun d => asm_dret)
  | rv_op_sfence_vm => Some (fun d => asm_sfence_vm (d_rs1 d))
  | rv_op_wfi => Some (fun d => asm_wfi)
  | rv_op_csrrw => Some (fun d => asm_csrrw (d_rd d) (d_rs1 d) (d_imm d))
  | rv_op_csrrs => Some (fun d => asm_csrrs (d_rd d) (d_rs1 d) (d_imm d))
  | rv_op_csrrc => Some (fun d => asm_csrrc (d_rd d) (d_rs1 d) (d_imm d))
  | rv_op_flw => Some (fun d => asm_flw (d_rd d) (d_rs1 d) (d_imm d))
  | rv_op_fsw => Some (fun d => asm_fsw (d_rs1 d) (d_rs2 d) (d_imm d))
  | rv_op_fmadd_s => Some (fun d => asm_fmadd_s (d_rd d) (d_rs1 d) (d_rs2 d) (d_rs3 d) (d_rm d))
  | rv_op_fmsub_s => Some (fun d => asm_fmsub_s (d_rd d) (d_rs1 d) (d_rs2 d) (d_rs3 d) (d_rm d))
  | rv_op_fnmsub_s => Some (fun d => asm_fnmsub_s (d_rd d) (d_rs1 d) (d_rs2 d) (d_rs3 d) (d_rm d))
  | rv_op_fnmadd_s => Some (fun d => asm_fnmadd_s (d_rd d) (d_rs1 d) (d_rs2 d) (d_rs3 d) (d_rm d))
  | rv_op_fadd_s => Some (fun d => asm_fadd_s (d_rd d) (d_rs1 d) (d_rs2 d) (d_rm d))
  | rv_op_fsub_s => Some (fun d => asm_fsub_s (d_rd d) (d_rs1 d) (d_rs2 d) (d_rm d))
  | rv_op_fmul_s => Some (fun d => asm_fmul_s (d_rd d) (d_rs1 d) (d_rs2 d) (d_rm d))
  | rv_op_fdiv_s => Some (fun d => asm_fdiv_s (d_rd d) (d_rs1 d) (d_rs2 d) (d_rm d))
  | rv_op_fsgnj_s => Some (fun d => asm_fsgnj_s (d_rd d) (d_rs1 d) (d_rs2 d))
  | rv_op_fsgnjn_s => Some (fun d => asm_fsgnjn_s (d_rd d) (d_rs1 d) (d_rs2 d))
  | rv_op_fsgnjx_s => Some (fun d => asm_fsgnjx_s (d_rd d) (d_rs1 d) (d_rs2 d))
  | rv_op_fmin_s => Some (fun d => asm_fmin_s (d_rd d) (d_rs1 d) (d_rs2 d))
  | rv_op_fmax_s => Some (fun d => asm_fmax_s (d_rd d) (d_rs1 d) (d_rs2 d))
  | rv_op_fsqrt_s => Some (fun d => asm_fsqrt_s (d_rd d) (d_rs1 d) (d_rm d))
  | rv_op_fle_s => Some (fun d => asm_fle_s (d_rd d) (d_rs1 d) (d_rs2 d))
  | rv_op_flt_s => Some (fun d => asm_flt_s (d_rd d) (d_rs1 d) (d_rs2 d))
  | rv_op_feq_s => Some (fun d => asm_feq_s (d_rd d) (d_rs1 d) (d_rs2 d))
  | rv_op_fcvt_w_s => Some (fun d => asm_fcvt_w_s (d_rd d) (d_rs1 d) (d_rm d))
  | rv_op_fcvt_wu_s => Some (fun d => asm_fcvt_wu_s (d_rd d) (d_rs1 d) (d_rm d))
  | rv_op_fcvt_s_w => Some (fun d => asm_fcvt_s_w (d_rd d) (d_rs1 d) (d_rm d))
  | rv_op_fcvt_s_wu => Some (fun d => asm_fcvt_s_wu (d_rd d) (d_rs1 d) (d_rm d))
  | rv_op_fmv_x_s => Some (fun d => asm_fmv_x_s (d_rd d) (d_rs1 d))
  | rv_op_fclass_s => Some (fun d => asm_fclass_s (d_rd d) (d_rs1 d))
  | rv_op_fmv_s_x => Some (fun d => asm_fmv_s_x (d_rd d) (d_rs1 d))
  | rv_op_fcvt_l_s => Some (fun d => asm_fcvt_l_s (d_rd d) (d_rs1 d) (d_rm d))
  | rv_op_fcvt_lu_s => Some (fun d => asm_fcvt_lu_s (d_rd d) (d_rs1 d) (d_rm d))
  | rv_op_fcvt_s_l => Some (fun d => asm_fcvt_s_l (d_rd d) (d_rs1 d) (d_rm d))
  | rv_op_fcvt_s_lu => Some (fun d => asm_fcvt_s_lu (d_rd d) (d_rs1 d) (d_rm d))
  | rv_op_fld => Some (fun d => asm_fld (d_rd d) (d_rs1 d) (d_imm d))
  | rv_op_fsd => Some (fun d => asm_fsd (d_rs1 d) (d_rs2 d) (d_imm d))
  | rv_op_fmadd_d => Some (fun d => asm_fmadd_d (d_rd d) (d_rs1 d) (d_rs2 d) (d_rs3 d) (d_rm d))
  | rv_op_fmsub_d => Some (fun d => asm_fmsub_d (d_rd d) (d_rs1 d) (d_rs2 d) (d_rs3 d) (d_rm d))
  | rv_op_fnmsub_d => Some (fun d => asm_fnmsub_d (d_rd d) (d_rs1 d) (d_rs2 d) (d_rs3 d) (d_rm d))
  | rv_op_fnmadd_d => Some (fun d => asm_fnmadd_d (d_rd d) (d_rs1 d) (d_rs2 d) (d_rs3 d) (d_rm d))
  | rv_op_fadd_d => Some (fun d => asm_fadd_d (d_rd d) (d_rs1 d) (d_rs2 d) (d_rm d))
  | rv_op_fsub_d => Some (fun d => asm_fsub_d (d_rd d) (d_rs1 d) (d_rs2 d) (d_rm d))
  | rv_op_fmul_d => Some (fun d => asm_fmul_d (d_rd d) (d_rs1 d) (d_rs2 d) (d_rm d))
  | rv_op_fdiv_d => Some (fun d => asm_fdiv_d (d_rd d) (d_rs1 d) (d_rs2 d) (d_rm d))
  | rv_op_fsgnj_d => Some (fun d => asm_fsgnj_d (d_rd d) (d_rs1 d) (d_rs2 d))
  | rv_op_fsgnjn_d => Some (fun d => asm_fsgnjn_d (d_rd d) (d_rs1 d) (d_rs2 d))
  | rv_op_fsgnjx_d => Some (fun d => asm_fsgnjx_d (d_rd d) (d_rs1 d) (d_rs2 d))
  | rv_op_fmin_d => Some (fun d => asm_fmin_d (d_rd d) (d_rs1 d) (d_rs2 d))
  | rv_op_fmax_d => Some (fun d => asm_fmax_d (d_rd d) (d_rs1 d) (d_rs2 d))
  | rv_op_fcvt_s_d => Some (fun d => asm_fcvt_s_d (d_rd d) (d_rs1 d) (d_rm d))
  | rv_op_fcvt_d_s => Some (fun d => asm_fcvt_d_s (d_rd d) (d_rs1 d) (d_rm d))
  | rv_op_fsqrt_d => Some (fun d => asm_fsqrt_d (d_rd d) (d_rs1 d) (d_rm d))
  | rv_op_fle_d => Some (fun d => asm_fle_d (d_rd d) (d_rs1 d) (d_rs2 d))
  | rv_op_flt_d => Some (fun d => asm_flt_d (d_rd d) (d_rs1 d) (d_rs2 d))
  | rv_op_feq_d => Some (fun d => asm_feq_d (d_rd d) (d_rs1 d) (d_rs2 d))
  | rv_op_fcvt_w_d => Some (fun d => asm_fcvt_w_d (d_rd d) (d_rs1 d) (d_rm d))
  | rv_op_fcvt_wu_d => Some (fun d => asm_fcvt_wu_d (d_rd d) (d_rs1 d) (d_rm d))
  | rv_op_fcvt_d_w => Some (fun d => asm_fcvt_d_w (d_rd d) (d_rs1 d) (d_rm d))
  | rv_op_fcvt_d_wu => Some (fun d => asm_fcvt_d_wu (d_rd d) (d_rs1 d) (d_rm d))
  | rv_op_fclass_d => Some (fun d => asm_fclass_d (d_rd d) (d_rs1 d))
  | rv_op_fcvt_l_d => Some (fun d => asm_fcvt_l_d (d_rd d) (d_rs1 d) (d_rm d))
  | rv_op_fcvt_lu_d => Some (fun d => asm_fcvt_lu_d (d_rd d) (d_rs1 d) (d_rm d))
  | rv_op_fmv_x_d => Some (fun d => asm_fmv_x_d (d_rd d) (d_rs1 d))
  | rv_op_fcvt_d_l => Some (fun d => asm_fcvt_d_l (d_rd d) (d_rs1 d) (d_rm d))
  | rv_op_fcvt_d_lu => Some (fun d => asm_fcvt_d_lu (d_rd d) (d_rs1 d) (d_rm d))
  | rv_op_fmv_d_x => Some (fun d => asm_fmv_d_x (d_rd d) (d_rs1 d))
  | rv_op_flq => Some (fun d => asm_flq (d_rd d) (d_rs1 d) (d_imm d))
  | rv_op_fsq => Some (fun d => asm_fsq (d_rs1 d) (d_rs2 d) (d_imm d))
  | rv_op_fmadd_q => Some (fun d => asm_fmadd_q (d_rd d) (d_rs1 d) (d_rs2 d) (d_rs3 d) (d_rm d))
  | rv_op_fmsub_q => Some (fun d => asm_fmsub_q (d_rd d) (d_rs1 d) (d_rs2 d) (d_rs3 d) (d_rm d))
  | rv_op_fnmsub_q => Some (fun d => asm_fnmsub_q (d_rd d) (d_rs1 d) (d_rs2 d) (d_rs3 d) (d_rm d))
  | rv_op_fnmadd_q => Some (fun d => asm_fnmadd_q (d_rd d) (d_rs1 d) (d_rs2 d) (d_rs3 d) (d_rm d))
  | rv_op_fadd_q => Some (fun d => asm_fadd_q (d_rd d) (d_rs1 d) (d_rs2 d) (d_rm d))
  | rv_op_fsub_q => Some (fun d => asm_fsub_q (d_rd d) (d_rs1 d) (d_rs2 d) (d_rm d))
  | rv_op_fmul_q => Some (fun d => asm_fmul_q (d_rd d) (d_rs1 d) (d_rs2 d) (d_rm d))
  | rv_op_fdiv_q => Some (fun d => asm_fdiv_q (d_rd d) (d_rs1 d) (d_rs2 d) (d_rm d))
  | rv_op_fsgnj_q => Some (fun d => asm_fsgnj_q (d_rd d) (d_rs1 d) (d_rs2 d))
  | rv_op_fsgnjn_q => Some (fun d => asm_fsgnjn_q (d_rd d) (d_rs1 d) (d_rs2 d))
  | rv_op_fsgnjx_q => Some (fun d => asm_fsgnjx_q (d_rd d) (d_rs1 d) (d_rs2 d))
  | rv_op_fmin_q => Some (fun d => asm_fmin_q (d_rd d) (d_rs1 d) (d_rs2 d))
  | rv_op_fmax_q => Some (fun d => asm_fmax_q (d_rd d) (d_rs1 d) (d_rs2 d))
  | rv_op_fcvt_s_q => Some (fun d => asm_fcvt_s_q (d_rd d) (d_rs1 d) (d_rm d))
  | rv_op_fcvt_q_s => Some (fun d => asm_fcvt_q_s (d_rd d) (d_rs1 d) (d_rm d))
  | rv_op_fcvt_d_q => Some (fun d => asm_fcvt_d_q (d_rd d) (d_rs1 d) (d_rm d))
  | rv_op_fcvt_q_d => Some (fun d => asm_fcvt_q_d (d_rd d) (d_rs1 d) (d_rm d))
  | rv_op_fsqrt_q => Some (fun d => asm_fsqrt_q (d_rd d) (d_rs1 d) (d_rm d))
  | rv_op_fle_q => Some (fun d => asm_fle_q (d_rd d) (d_rs1 d) (d_rs2 d))
  | rv_op_flt_q => Some (fun d => asm_flt_q (d_rd d) (d_rs1 d) (d_rs2 d))
  | rv_op_feq_q => Some (fun d => asm_feq_q (d_rd d) (d_rs1 d) (d_rs2 d))
  | rv_op_fcvt_w_q => Some (fun d => asm_fcvt_w_q (d_rd d) (d_rs1 d) (d_rm d))
  | rv_op_fcvt_wu_q => Some (fun d => asm_fcvt_wu_q (d_rd d) (d_rs1 d) (d_rm d))
  | rv_op_fcvt_q_w => Some (fun d => asm_fcvt_q_w (d_rd d) (d_rs1 d) (d_rm d))
  | rv_op_fcvt_q_wu => Some (fun d => asm_fcvt_q_wu (d_rd d) (d_rs1 d) (d_rm d))
  | rv_op_fclass_q => Some (fun d => asm_fclass_q (d_rd d) (d_rs1 d))
  | rv_op_fcvt_l_q => Some (fun d => asm_fcvt_l_q (d_rd d) (d_rs1 d) (d_rm d))
  | rv_op_fcvt_lu_q => Some (fun d => asm_fcvt_lu_q (d_rd d) (d_rs1 d) (d_rm d))
  | rv_op_fcvt_q_l => Some (fun d => asm_fcvt_q_l (d_rd d) (d_rs1 d) (d_rm d))
  | rv_op_fcvt_q_lu => Some (fun d => asm_fcvt_q_lu (d_rd d) (d_rs1 d) (d_rm d))
  | rv_op_fmv_x_q => Some (fun d => asm_fmv_x_q (d_rd d) (d_rs1 d))
  | rv_op_fmv_q_x => Some (fun d => asm_fmv_q_x (d_rd d) (d_rs1 d))
  | _ => None
  end.

(** What they check and set: fields and types, in the order of the source. *)
Definition signature (op : rv_op) : option (list (dfield * imm_t)) :=
  match op with
  | rv_op_lui => Some [(F_rd, ireg5); (F_imm, simm32)]
  | rv_op_auipc => Some [(F_rd, ireg5); (F_imm, offset32)]
  | rv_op_jal => Some [(F_rd, ireg5); (F_imm, offset21)]
  | rv_op_jalr => Some [(F_rd, ireg5); (F_rs1, ireg5); (F_imm, simm12)]
  | rv_op_beq => Some [(F_rs1, ireg5); (F_rs2, ireg5); (F_imm, offset13)]
  | rv_op_bne => Some [(F_rs1, ireg5); (F_rs2, ireg5); (F_imm, offset13)]
  | rv_op_blt => Some [(F_rs1, ireg5); (F_rs2, ireg5); (F_imm, offset13)]
  | rv_op_bge => Some [(F_rs1, ireg5); (F_rs2, ireg5); (F_imm, offset13)]
  | rv_op_bltu => Some [(F_rs1, ireg5); (F_rs2, ireg5); (F_imm, offset13)]
  | rv_op_bgeu => Some [(F_rs1, ireg5); (F_rs2, ireg5); (F_imm, offset13)]
  | rv_op_lb => Some [(F_rd, ireg5); (F_rs1, ireg5); (F_imm, offset12)]
  | rv_op_lh => Some [(F_rd, ireg5); (F_rs1, ireg5); (F_imm, offset12)]
  | rv_op_lw => Some [(F_rd, ireg5); (F_rs1, ireg5); (F_imm, offset12)]
  | rv_op_lbu => Some [(F_rd, ireg5); (F_rs1, ireg5); (F_imm, offset12)]
  | rv_op_lhu => Some [(F_rd, ireg5); (F_rs1, ireg5); (F_imm, offset12)]
  | rv_op_sb => Some [(F_rs1, ireg5); (F_rs2, ireg5); (F_imm, offset12)]
  | rv_op_sh => Some [(F_rs1, ireg5); (F_rs2, ireg5); (F_imm, offset12)]
  | rv_op_sw => Some [(F_rs1, ireg5); (F_rs2, ireg5); (F_imm, offset12)]
  | rv_op_addi => Some [(F_rd, ireg5); (F_rs1, ireg5); (F_imm, simm12)]
  | rv_op_slti => Some [(F_rd, ireg5); (F_rs1, ireg5); (F_imm, simm12)]
  | rv_op_sltiu => Some [(F_rd, ireg5); (F_rs1, ireg5); (F_imm, simm12)]
  | rv_op_xori => Some [(F_rd, ireg5); (F_rs1, ireg5); (F_imm, simm12)]
  | rv_op_ori => Some [(F_rd, ireg5); (F_rs1, ireg5); (F_imm, simm12)]
  | rv_op_andi => Some [(F_rd, ireg5); (F_rs1, ireg5); (F_imm, simm12)]
  | rv_op_slli => Some [(F_rd, ireg5); (F_rs1, ireg5); (F_imm, uimm7)]
  | rv_op_srli => Some [(F_rd, ireg5); (F_rs1, ireg5); (F_imm, uimm7)]
  | rv_op_srai => Some [(F_rd, ireg5); (F_rs1, ireg5); (F_imm, uimm7)]
  | rv_op_add => Some [(F_rd, ireg5); (F_rs1, ireg5); (F_rs2, ireg5)]
  | rv_op_sub => Some [(F_rd, ireg5); (F_rs1, ireg5); (F_rs2, ireg5)]
  | rv_op_sll => Some [(F_rd, ireg5); (F_rs1, ireg5); (F_rs2, ireg5)]
  | rv_op_slt => Some [(F_rd, ireg5); (F_rs1, ireg5); (F_rs2, ireg5)]
  | rv_op_sltu => Some [(F_rd, ireg5); (F_rs1, ireg5); (F_rs2, ireg5)]
  | rv_op_xor => Some [(F_rd, ireg5); (F_rs1, ireg5); (F_rs2, ireg5)]
  | rv_op_srl => Some [(F_rd, ireg5); (F_rs1, ireg5); (F_rs2, ireg5)]
  | rv_op_sra => Some [(F_rd, ireg5); (F_rs1, ireg5); (F_rs2, ireg5)]
  | rv_op_or => Some [(F_rd, ireg5); (F_rs1, ireg5); (F_rs2, ireg5)]
  | rv_op_and => Some [(F_rd, ireg5); (F_rs1, ireg5); (F_rs2, ireg5)]
  | rv_op_fence => Some [(F_pred, arg4); (F_succ, arg4)]
  | rv_op_fence_i => Some []
  | rv_op_lwu => Some [(F_rd, ireg5); (F_rs1, ireg5); (F_imm, offset12)]
  | rv_op_ld => Some [(F_rd, ireg5); (F_rs1, ireg5); (F_imm, offset12)]
  | rv_op_sd => Some [(F_rs1, ireg5); (F_rs2, ireg5); (F_imm, offset12)]
  | rv_op_addiw => Some [(F_rd, ireg5); (F_rs1, ireg5); (F_imm, simm12)]
  | rv_op_slliw => Some [(F_rd, ireg5); (F_rs1, ireg5); (F_imm, uimm5)]
  | rv_op_srliw => Some [(F_rd, ireg5); (F_rs1, ireg5); (F_imm, uimm5)]
  | rv_op_sraiw => Some [(F_rd, ireg5); (F_rs1, ireg5); (F_imm, uimm5)]
  | rv_op_addw => Some [(F_rd, ireg5); (F_rs1, ireg5); (F_rs2, ireg5)]
  | rv_op_subw => Some [(F_rd, ireg5); (F_rs1, ireg5); (F_rs2, ireg5)]
  | rv_op_sllw => Some [(F_rd, ireg5); (F_rs1, ireg5); (F_rs2, ireg5)]
  | rv_op_srlw => Some [(F_rd, ireg5); (F_rs1, ireg5); (F_rs2, ireg5)]
  | rv_op_sraw => Some [(F_rd, ireg5); (F_rs1, ireg5); (F_rs2, ireg5)]
  | rv_op_ldu => Some [(F_rd, ireg5); (F_rs1, ireg5); (F_imm, offset12)]
  | rv_op_lq => Some [(F_rd, ireg5); (F_rs1, ireg5); (F_imm, offset12)]
  | rv_op_sq => Some [(F_rs1, ireg5); (F_rs2, ireg5); (F_imm, offset12)]
  | rv_op_addid => Some [(F_rd, ireg5); (F_rs1, ireg5); (F_imm, simm12)]
  | rv_op_sllid => Some [(F_rd, ireg5); (F_rs1, ireg5); (F_imm, uimm6)]
  | rv_op_srlid => Some [(F_rd, ireg5); (F_rs1, ireg5); (F_imm, uimm6)]
  | rv_op_sraid => Some [(F_rd, ireg5); (F_rs1, ireg5); (F_imm, uimm6)]
  | rv_op_addd => Some [(F_rd, ireg5); (F_rs1, ireg5); (F_rs2, ireg5)]
  | rv_op_subd => Some [(F_rd, ireg5); (F_rs1, ireg5); (F_rs2, ireg5)]
  | rv_op_slld => Some [(F_rd, ireg5); (F_rs1, ireg5); (F_rs2, ireg5)]
  | rv_op_srld => Some [(F_rd, ireg5); (F_rs1, ireg5); (F_rs2, ireg5)]
  | rv_op_srad => Some [(F_rd, ireg5); (F_rs1, ireg5); (F_rs2, ireg5)]
  | rv_op_mul => Some [(F_rd, ireg5); (F_rs1, ireg5); (F_rs2, ireg5)]
  | rv_op_mulh => Some [(F_rd, ireg5); (F_rs1, ireg5); (F_rs2, ireg5)]
  | rv_op_mulhsu => Some [(F_rd, ireg5); (F_rs1, ireg5); (F_rs2, ireg5)]
  | rv_op_mulhu => Some [(F_rd, ireg5); (F_rs1, ireg5); (F_rs2, ireg5)]
  | rv_op_div => Some [(F_rd, ireg5); (F_rs1, ireg5); (F_rs2, ireg5)]
  | rv_op_divu => Some [(F_rd, ireg5); (F_rs1, ireg5); (F_rs2, ireg5)]
  | rv_op_rem => Some [(F_rd, ireg5); (F_rs1, ireg5); (F_rs2, ireg5)]
  | rv_op_remu => Some [(F_rd, ireg5); (F_rs1, ireg5); (F_rs2, ireg5)]
  | rv_op_mulw => Some [(F_rd, ireg5); (F_rs1, ireg5); (F_rs2, ireg5)]
  | rv_op_divw => Some [(F_rd, ireg5); (F_rs1, ireg5); (F_rs2, ireg5)]
  | rv_op_divuw => Some [(F_rd, ireg5); (F_rs1, ireg5); (F_rs2, ireg5)]
  | rv_op_remw => Some [(F_rd, ireg5); (F_rs1, ireg5); (F_rs2, ireg5)]
  | rv_op_remuw => Some [(F_rd, ireg5); (F_rs1, ireg5); (F_rs2, ireg5)]
  | rv_op_muld => Some [(F_rd, ireg5); (F_rs1, ireg5); (F_rs2, ireg5)]
  | rv_op_divd => Some [(F_rd, ireg5); (F_rs1, ireg5); (F_rs2, ireg5)]
  | rv_op_divud => Some [(F_rd, ireg5); (F_rs1, ireg5); (F_rs2, ireg5)]
  | rv_op_remd => Some [(F_rd, ireg5); (F_rs1, ireg5); (F_rs2, ireg5)]
  | rv_op_remud => Some [(F_rd, ireg5); (F_rs1, ireg5); (F_rs2, ireg5)]
  | rv_op_lr_w => Some [(F_rd, ireg5); (F_rs1, ireg5); (F_aq, arg1); (F_rl, arg1)]
  | rv_op_sc_w => Some [(F_rd, ireg5); (F_rs1, ireg5); (F_rs2, ireg5); (F_aq, arg1); (F_rl, arg1)]
  | rv_op_amoswap_w => Some [(F_rd, ireg5); (F_rs1, ireg5); (F_rs2, ireg5); (F_aq, arg1); (F_rl, arg1)]
  | rv_op_amoadd_w => Some [(F_rd, ireg5); (F_rs1, ireg5); (F_rs2, ireg5); (F_aq, arg1); (F_rl, arg1)]
  | rv_op_amoxor_w => Some [(F_rd, ireg5); (F_rs1, ireg5); (F_rs2, ireg5); (F_aq, arg1); (F_rl, arg1)]
  | rv_op_amoor_w => Some [(F_rd, ireg5); (F_rs1, ireg5); (F_rs2, ireg5); (F_aq, arg1); (F_rl, arg1)]
  | rv_op_amoand_w => Some [(F_rd, ireg5); (F_rs1, ireg5); (F_rs2, ireg5); (F_aq, arg1); (F_rl, arg1)]
  | rv_op_amomin_w => Some [(F_rd, ireg5); (F_rs1, ireg5); (F_rs2, ireg5); (F_aq, arg1); (F_rl, arg1)]
  | rv_op_amomax_w => Some [(F_rd, ireg5); (F_rs1, ireg5); (F_rs2, ireg5); (F_aq, arg1); (F_rl, arg1)]
  | rv_op_amominu_w => Some [(F_rd, ireg5); (F_rs1, ireg5); (F_rs2, ireg5); (F_aq, arg1); (F_rl, arg1)]
  | rv_op_amomaxu_w => Some [(F_rd, ireg5); (F_rs1, ireg5); (F_rs2, ireg5); (F_aq, arg1); (F_rl, arg1)]
  | rv_op_lr_d => Some [(F_rd, ireg5); (F_rs1, ireg5); (F_aq, arg1); (F_rl, arg1)]
  | rv_op_sc_d => Some [(F_rd, ireg5); (F_rs1, ireg5); (F_rs2, ireg5); (F_aq, arg1); (F_rl, arg1)]
  | rv_op_amoswap_d => Some [(F_rd, ireg5); (F_rs1, ireg5); (F_rs2, ireg5); (F_aq, arg1); (F_rl, arg1)]
  | rv_op_amoadd_d => Some [(F_rd, ireg5); (F_rs1, ireg5); (F_rs2, ireg5); (F_aq, arg1); (F_rl, arg1)]
  | rv_op_amoxor_d => Some [(F_rd, ireg5); (F_rs1, ireg5); (F_rs2, ireg5); (F_aq, arg1); (F_rl, arg1)]
  | rv_op_amoor_d => Some [(F_rd, ireg5); (F_rs1, ireg5); (F_rs2, ireg5); (F_aq, arg1); (F_rl, arg1)]
  | rv_op_amoand_d => Some [(F_rd, ireg5); (F_rs1, ireg5); (F_rs2, ireg5); (F_aq, arg1); (F_rl, arg1)]
  | rv_op_amomin_d => Some [(F_rd, ireg5); (F_rs1, ireg5); (F_rs2, ireg5); (F_aq, arg1); (F_rl, arg1)]
  | rv_op_amomax_d => Some [(F_rd, ireg5); (F_rs1, ireg5); (F_rs2, ireg5); (F_aq, arg1); (F_rl, arg1)]
  | rv_op_amominu_d => Some [(F_rd, ireg5); (F_rs1, ireg5); (F_rs2, ireg5); (F_aq, arg1); (F_rl, arg1)]
  | rv_op_amomaxu_d => Some [(F_rd, ireg5); (F_rs1, ireg5); (F_rs2, ireg5); (F_aq, arg1); (F_rl, arg1)]
  | rv_op_lr_q => Some [(F_rd, ireg5); (F_rs1, ireg5); (F_aq, arg1); (F_rl, arg1)]
  | rv_op_sc_q => Some [(F_rd, ireg5); (F_rs1, ireg5); (F_rs2, ireg5); (F_aq, arg1); (F_rl, arg1)]
  | rv_op_amoswap_q => Some [(F_rd, ireg5); (F_rs1, ireg5); (F_rs2, ireg5); (F_aq, arg1); (F_rl, arg1)]
  | rv_op_amoadd_q => Some [(F_rd, ireg5); (F_rs1, ireg5); (F_rs2, ireg5); (F_aq, arg1); (F_rl, arg1)]
  | rv_op_amoxor_q => Some [(F_rd, ireg5); (F_rs1, ireg5); (F_rs2, ireg5); (F_aq, arg1); (F_rl, arg1)]
  | rv_op_amoor_q => Some [(F_rd, ireg5); (F_rs1, ireg5); (F_rs2, ireg5); (F_aq, arg1); (F_rl, arg1)]
  | rv_op_amoand_q => Some [(F_rd, ireg5); (F_rs1, ireg5); (F_rs2, ireg5); (F_aq, arg1); (F_rl, arg1)]
  | rv_op_amomin_q => Some [(F_rd, ireg5); (F_rs1, ireg5); (F_rs2, ireg5); (F_aq, arg1); (F_rl, arg1)]
  | rv_op_amomax_q => Some [(F_rd, ireg5); (F_rs1, ireg5); (F_rs2, ireg5); (F_aq, arg1); (F_rl, arg1)]
  | rv_op_amominu_q => Some [(F_rd, ireg5); (F_rs1, ireg5); (F_rs2, ireg5); (F_aq, arg1); (F_rl, arg1)]
  | rv_op_amomaxu_q => Some [(F_rd, ireg5); (F_rs1, ireg5); (F_rs2, ireg5); (F_aq, arg1); (F_rl, arg1)]
  | rv_op_ecall => Some []
  | rv_op_ebreak => Some []
  | rv_op_uret => Some []
  | rv_op_sret => Some []
  | rv_op_hret => Some []
  | rv_op_mret => Some []
  | rv_op_dret => Some []
  | rv_op_sfence_vm => Some [(F_rs1, ireg5)]
  | rv_op_wfi => Some []
  | rv_op_csrrw => Some [(F_rd, ireg5); (F_rs1, ireg5); (F_imm, uimm12)]
  | rv_op_csrrs => Some [(F_rd, ireg5); (F_rs1, ireg5); (F_imm, uimm12)]
  | rv_op_csrrc => Some [(F_rd, ireg5); (F_rs1, ireg5); (F_imm, uimm12)]
  | rv_op_flw => Some [(F_rd, freg5); (F_rs1, ireg5); (F_imm, offset12)]
  | rv_op_fsw => Some [(F_rs1, ireg5); (F_rs2, freg5); (F_imm, offset12)]
  | rv_op_fmadd_s => Some [(F_rd, freg5); (F_rs1, freg5); (F_rs2, freg5); (F_rs3, freg5); (F_rm, arg3)]
  | rv_op_fmsub_s => Some [(F_rd, freg5); (F_rs1, freg5); (F_rs2, freg5); (F_rs3, freg5); (F_rm, arg3)]
  | rv_op_fnmsub_s => Some [(F_rd, freg5); (F_rs1, freg5); (F_rs2, freg5); (F_rs3, freg5); (F_rm, arg3)]
  | rv_op_fnmadd_s => Some [(F_rd, freg5); (F_rs1, freg5); (F_rs2, freg5); (F_rs3, freg5); (F_rm, arg3)]
  | rv_op_fadd_s => Some [(F_rd, freg5); (F_rs1, freg5); (F_rs2, freg5); (F_rm, arg3)]
  | rv_op_fsub_s => Some [(F_rd, freg5); (F_rs1, freg5); (F_rs2, freg5); (F_rm, arg3)]
  | rv_op_fmul_s => Some [(F_rd, freg5); (F_rs1, freg5); (F_rs2, freg5); (F_rm, arg3)]
  | rv_op_fdiv_s => Some [(F_rd, freg5); (F_rs1, freg5); (F_rs2, freg5); (F_rm, arg3)]
  | rv_op_fsgnj_s => Some [(F_rd, freg5); (F_rs1, freg5); (F_rs2, freg5)]
  | rv_op_fsgnjn_s => Some [(F_rd, freg5); (F_rs1, freg5); (F_rs2, freg5)]
  | rv_op_fsgnjx_s => Some [(F_rd, freg5); (F_rs1, freg5); (F_rs2, freg5)]
  | rv_op_fmin_s => Some [(F_rd, freg5); (F_rs1, freg5); (F_rs2, freg5)]
  | rv_op_fmax_s => Some [(F_rd, freg5); (F_rs1, freg5); (F_rs2, freg5)]
  | rv_op_fsqrt_s => Some [(F_rd, freg5); (F_rs1, freg5); (F_rm, arg3)]
  | rv_op_fle_s => Some [(F_rd, ireg5); (F_rs1, freg5); (F_rs2, freg5)]
  | rv_op_flt_s => Some [(F_rd, ireg5); (F_rs1, freg5); (F_rs2, freg5)]
  | rv_op_feq_s => Some [(F_rd, ireg5); (F_rs1, freg5); (F_rs2, freg5)]
  | rv_op_fcvt_w_s => Some [(F_rd, ireg5); (F_rs1, freg5); (F_rm, arg3)]
  | rv_op_fcvt_wu_s => Some [(F_rd, ireg5); (F_rs1, freg5); (F_rm, arg3)]
  | rv_op_fcvt_s_w => Some [(F_rd, freg5); (F_rs1, ireg5); (F_rm, arg3)]
  | rv_op_fcvt_s_wu => Some [(F_rd, freg5); (F_rs1, ireg5); (F_rm, arg3)]
  | rv_op_fmv_x_s => Some [(F_rd, ireg5); (F_rs1, freg5)]
  | rv_op_fclass_s => Some [(F_rd, ireg5); (F_rs1, freg5)]
  | rv_op_fmv_s_x => Some [(F_rd, freg5); (F_rs1, ireg5)]
  | rv_op_fcvt_l_s => Some [(F_rd, ireg5); (F_rs1, freg5); (F_rm, arg3)]
  | rv_op_fcvt_lu_s => Some [(F_rd, ireg5); (F_rs1, freg5); (F_rm, arg3)]
  | rv_op_fcvt_s_l => Some [(F_rd, freg5); (F_rs1, ireg5); (F_rm, arg3)]
  | rv_op_fcvt_s_lu => Some [(F_rd, freg5); (F_rs1, ireg5); (F_rm, arg3)]
  | rv_op_fld => Some [(F_rd, freg5); (F_rs1, ireg5); (F_imm, offset12)]
  | rv_op_fsd => Some [(F_rs1, ireg5); (F_rs2, freg5); (F_imm, offset12)]
  | rv_op_fmadd_d => Some [(F_rd, freg5); (F_rs1, freg5); (F_rs2, freg5); (F_rs3, freg5); (F_rm, arg3)]
  | rv_op_fmsub_d => Some [(F_rd, freg5); (F_rs1, freg5); (F_rs2, freg5); (F_rs3, freg5); (F_rm, arg3)]
  | rv_op_fnmsub_d => Some [(F_rd, freg5); (F_rs1, freg5); (F_rs2, freg5); (F_rs3, freg5); (F_rm, arg3)]
  | rv_op_fnmadd_d => Some [(F_rd, freg5); (F_rs1, freg5); (F_rs2, freg5); (F_rs3, freg5); (F_rm, arg3)]
  | rv_op_fadd_d => Some [(F_rd, freg5); (F_rs1, freg5); (F_rs2, freg5); (F_rm, arg3)]
  | rv_op_fsub_d => Some [(F_rd, freg5); (F_rs1, freg5); (F_rs2, freg5); (F_rm, arg3)]
  | rv_op_fmul_d => Some [(F_rd, freg5); (F_rs1, freg5); (F_rs2, freg5); (F_rm, arg3)]
  | rv_op_fdiv_d => Some [(F_rd, freg5); (F_rs1, freg5); (F_rs2, freg5); (F_rm, arg3)]
  | rv_op_fsgnj_d => Some [(F_rd, freg5); (F_rs1, freg5); (F_rs2, freg5)]
  | rv_op_fsgnjn_d => Some [(F_rd, freg5); (F_rs1, freg5); (F_rs2, freg5)]
  | rv_op_fsgnjx_d => Some [(F_rd, freg5); (F_rs1, freg5); (F_rs2, freg5)]
  | rv_op_fmin_d => Some [(F_rd, freg5); (F_rs1, freg5); (F_rs2, freg5)]
  | rv_op_fmax_d => Some [(F_rd, freg5); (F_rs1, freg5); (F_rs2, freg5)]
  | rv_op_fcvt_s_d => Some [(F_rd, freg5); (F_rs1, freg5); (F_rm, arg3)]
  | rv_op_fcvt_d_s => Some [(F_rd, freg5); (F_rs1, freg5); (F_rm, arg3)]
  | rv_op_fsqrt_d => Some [(F_rd, freg5); (F_rs1, freg5); (F_rm, arg3)]
  | rv_op_fle_d => Some [(F_rd, ireg5); (F_rs1, freg5); (F_rs2, freg5)]
  | rv_op_flt_d => Some [(F_rd, ireg5); (F_rs1, freg5); (F_rs2, freg5)]
  | rv_op_feq_d => Some [(F_rd, ireg5); (F_rs1, freg5); (F_rs2, freg5)]
  | rv_op_fcvt_w_d => Some [(F_rd, ireg5); (F_rs1, freg5); (F_rm, arg3)]
  | rv_op_fcvt_wu_d => Some [(F_rd, ireg5); (F_rs1, freg5); (F_rm, arg3)]
  | rv_op_fcvt_d_w => Some [(F_rd, freg5); (F_rs1, ireg5); (F_rm, arg3)]
  | rv_op_fcvt_d_wu => Some [(F_rd, freg5); (F_rs1, ireg5); (F_rm, arg3)]
  | rv_op_fclass_d => Some [(F_rd, ireg5); (F_rs1, freg5)]
  | rv_op_fcvt_l_d => Some [(F_rd, ireg5); (F_rs1, freg5); (F_rm, arg3)]
  | rv_op_fcvt_lu_d => Some [(F_rd, ireg5); (F_rs1, freg5); (F_rm, arg3)]
  | rv_op_fmv_x_d => Some [(F_rd, ireg5); (F_rs1, freg5)]
  | rv_op_fcvt_d_l => Some [(F_rd, freg5); (F_rs1, ireg5); (F_rm, arg3)]
  | rv_op_fcvt_d_lu => Some [(F_rd, freg5); (F_rs1, ireg5); (F_rm, arg3)]
  | rv_op_fmv_d_x => Some [(F_rd, freg5); (F_rs1, ireg5)]
  | rv_op_flq => Some [(F_rd, freg5); (F_rs1, ireg5); (F_imm, offset12)]
  | rv_op_fsq => Some [(F_rs1, ireg5); (F_rs2, freg5); (F_imm, offset12)]
  | rv_op_fmadd_q => Some [(F_rd, freg5); (F_rs1, freg5); (F_rs2, freg5); (F_rs3, freg5); (F_rm, arg3)]
  | rv_op_fmsub_q => Some [(F_rd, freg5); (F_rs1, freg5); (F_rs2, freg5); (F_rs3, freg5); (F_rm, arg3)]
  | rv_op_fnmsub_q => Some [(F_rd, freg5); (F_rs1, freg5); (F_rs2, freg5); (F_rs3, freg5); (F_rm, arg3)]
  | rv_op_fnmadd_q => Some [(F_rd, freg5); (F_rs1, freg5); (F_rs2, freg5); (F_rs3, freg5); (F_rm, arg3)]
  | rv_op_fadd_q => Some [(F_rd, freg5); (F_rs1, freg5); (F_rs2, freg5); (F_rm, arg3)]
  | rv_op_fsub_q => Some [(F_rd, freg5); (F_rs1, freg5); (F_rs2, freg5); (F_rm, arg3)]
  | rv_op_fmul_q => Some [(F_rd, freg5); (F_rs1, freg5); (F_rs2, freg5); (F_rm, arg3)]
  | rv_op_fdiv_q => Some [(F_rd, freg5); (F_rs1, freg5); (F_rs2, freg5); (F_rm, arg3)]
  | rv_op_fsgnj_q => Some [(F_rd, freg5); (F_rs1, freg5); (F_rs2, freg5)]
  | rv_op_fsgnjn_q => Some [(F_rd, freg5); (F_rs1, freg5); (F_rs2, freg5)]
  | rv_op_fsgnjx_q => Some [(F_rd, freg5); (F_rs1, freg5); (F_rs2, freg5)]
  | rv_op_fmin_q => Some [(F_rd, freg5); (F_rs1, freg5); (F_rs2, freg5)]
  | rv_op_fmax_q => Some [(F_rd, freg5); (F_rs1, freg5); (F_rs2, freg5)]
  | rv_op_fcvt_s_q => Some [(F_rd, freg5); (F_rs1, freg5); (F_rm, arg3)]
  | rv_op_fcvt_q_s => Some [(F_rd, freg5); (F_rs1, freg5); (F_rm, arg3)]
  | rv_op_fcvt_d_q => Some [(F_rd, freg5); (F_rs1, freg5); (F_rm, arg3)]
  | rv_op_fcvt_q_d => Some [(F_rd, freg5); (F_rs1, freg5); (F_rm, arg3)]
  | rv_op_fsqrt_q => Some [(F_rd, freg5); (F_rs1, freg5); (F_rm, arg3)]
  | rv_op_fle_q => Some [(F_rd, ireg5); (F_rs1, freg5); (F_rs2, freg5)]
  | rv_op_flt_q => Some [(F_rd, ireg5); (F_rs1, freg5); (F_rs2, freg5)]
  | rv_op_feq_q => Some [(F_rd, ireg5); (F_rs1, freg5); (F_rs2, freg5)]
  | rv_op_fcvt_w_q => Some [(F_rd, ireg5); (F_rs1, freg5); (F_rm, arg3)]
  | rv_op_fcvt_wu_q => Some [(F_rd, ireg5); (F_rs1, freg5); (F_rm, arg3)]
  | rv_op_fcvt_q_w => Some [(F_rd, freg5); (F_rs1, ireg5); (F_rm, arg3)]
  | rv_op_fcvt_q_wu => Some [(F_rd, freg5); (F_rs1, ireg5); (F_rm, arg3)]
  | rv_op_fclass_q => Some [(F_rd, ireg5); (F_rs1, freg5)]
  | rv_op_fcvt_l_q => Some [(F_rd, ireg5); (F_rs1, freg5); (F_rm, arg3)]
  | rv_op_fcvt_lu_q => Some [(F_rd, ireg5); (F_rs1, freg5); (F_rm, arg3)]
  | rv_op_fcvt_q_l => Some [(F_rd, freg5); (F_rs1, ireg5); (F_rm, arg3)]
  | rv_op_fcvt_q_lu => Some [(F_rd, freg5); (F_rs1, ireg5); (F_rm, arg3)]
  | rv_op_fmv_x_q => Some [(F_rd, ireg5); (F_rs1, freg5)]
  | rv_op_fmv_q_x => Some [(F_rd, freg5); (F_rs1, ireg5)]
  | _ => None
  end.

(** [a.valid() && b.valid() && ...]. *)
Definition args_valid (sig : list (dfield * imm_t)) (d : decode) : bool :=
  match sig with
  | [] => true
  | s :: sig => fold_left (fun v s => v && valid s.2 (get s.1 d)) sig (valid s.2 (get s.1 d))
  end.

Definition put (f : dfield) (v : Z) : decode -> decode :=
  match f with
  | F_imm => set_imm v | F_rd => set_rd v | F_rs1 => set_rs1 v | F_rs2 => set_rs2 v | F_rs3 => set_rs3 v
  | F_rm => set_rm v | F_aq => set_aq v | F_rl => set_rl v | F_pred => set_pred v | F_succ => set_succ v
  end.

Definition assigned (op : rv_op) (sig : list (dfield * imm_t)) (d : decode) : decode :=
  fold_left (fun r s => put s.1 (get s.1 d) r) sig (set_op op decode_init).

Definition emit_as (op : rv_op) (sig : list (dfield * imm_t)) (d : decode) : option Z :=
  if args_valid sig d then encode_inst (assigned op sig d) else Some 0.

Definition asm_as (op : rv_op) (sig : list (dfield * imm_t)) (d : decode) (a : assembler) : option (bool * assembler) :=
  if args_valid sig d then i ← encode_inst (assigned op sig d); Some (true, add_inst i a) else Some (false, a).

Lemma emitter_signature op : emitter_of op = option_map (emit_as op) (signature op).
Proof. destruct op; reflexivity. Qed.

Lemma asm_fn_signature op : asm_fn op = option_map (asm_as op) (signature op).
Proof. destruct op; reflexivity. Qed.

(** ** Signatures against the formats *)
Definition type_min (t : imm_t) : Z := match t with offset_t W | simm_t W => - 2 ^ (W - 1) | uimm_t _ => 0 end.
Definition type_max (t : imm_t) : Z := match t with offset_t W | simm_t W => 2 ^ (W - 1) | uimm_t W => 2 ^ W end.

Lemma valid_range t v : type_min t <= v < type_max t -> valid t v = true.
Proof. destruct t; cbn; intros H; rewrite ?andb_true_iff, ?Z.leb_le; lia. Qed.

(** An operand that is an argument has a type that holds its values; another is
    fixed by the opcode, or the format has no such field. *)
Definition field_ok (op : rv_op) (sig : list (dfield * imm_t)) (f : dfield) : bool :=
  let s := field_source (codec_layout (rv_inst_codec op)) f in
  match find (fun x => bool_decide (x.1 = f)) sig with
  | Some (_, t) => match s with Bits o b => (b =? 0) && (type_min t <=? op_min o) && (op_max o <=? type_max t) | Fixed _ => false end
  | None =>
      match s with
      | Bits o b => (b =? 0) && operand_valid o 0 && (operand_encode o 0 =? 0) && (Z.land (inst_mask o) (rv_inst_mask op) =? inst_mask o)
      | Fixed v => v =? 0
      end
  end.

Definition apart (c : rv_codec) : bool :=
  forallb (fun s => forallb (fun t => negb (bool_decide (s.1.2 = t.1.2)) || bool_decide (s.1.1 = t.1.1)) (slots (codec_layout c))) (slots (codec_layout c)).

Definition distinct (sig : list (dfield * imm_t)) : bool := bool_decide (NoDup (map fst sig)).

Definition signature_ok (op : rv_op) : bool :=
  match signature op with
  | Some sig => forallb (field_ok op sig) all_fields && apart (rv_inst_codec op) && distinct sig && negb (bool_decide (rv_inst_codec op = rv_codec_cs))
  | None => true
  end.

Lemma signatures_ok op : signature_ok op = true.
Proof. apply all_ops_forallb. vm_compute. reflexivity. Qed.

(** ** The assignments *)
Lemma get_put f g v d : get f (put g v d) = if decide (f = g) then conv f v else get f d.
Proof. destruct f, g; reflexivity. Qed.

Lemma put_op f v d : d_op (put f v d) = d_op d.
Proof. destruct f; reflexivity. Qed.

Lemma assigned_op op sig d : d_op (assigned op sig d) = op.
Proof.
  unfold assigned. assert (H : forall r, d_op (fold_left (fun r s => put s.1 (get s.1 d) r) sig r) = d_op r); [| rewrite H; reflexivity].
  induction sig as [| s sig IH]; intros r; [reflexivity |]. cbn [fold_left]. rewrite IH. apply put_op.
Qed.

Lemma assigned_get op sig d f : NoDup (map fst sig) ->
  get f (assigned op sig d) = match find (fun x => bool_decide (x.1 = f)) sig with Some _ => conv f (get f d) | None => 0 end.
Proof.
  unfold assigned. assert (H : forall r, NoDup (map fst sig) -> get f (fold_left (fun r s => put s.1 (get s.1 d) r) sig r) =
    match find (fun x => bool_decide (x.1 = f)) sig with Some _ => conv f (get f d) | None => get f r end).
  { induction sig as [| [g t] sig IH]; intros r Hn; [reflexivity |]. cbn [map fst] in Hn. apply NoDup_cons in Hn as [Hg Hn].
    cbn [fold_left find fst]. rewrite IH by exact Hn. destruct (find _ sig) as [[h u] |] eqn:E.
    - apply find_some in E as [Hin E]. apply bool_decide_eq_true in E. cbn in E. subst h. case_bool_decide; reflexivity.
    - rewrite get_put. case_bool_decide; destruct (decide (f = g)); subst; try congruence; reflexivity. }
  intros Hn. rewrite (H _ Hn). destruct (find _ sig); [reflexivity |]. destruct f; reflexivity.
Qed.

Lemma args_valid_all sig d : (forall f t, In (f, t) sig -> valid t (get f d) = true) -> args_valid sig d = true.
Proof.
  intros H. destruct sig as [| [f t] sig]; [reflexivity |]. cbn [args_valid fst snd].
  assert (Hs : forall b, b = true -> fold_left (fun v s => v && valid s.2 (get s.1 d)) sig b = true); [| apply Hs, H; left; reflexivity].
  assert (H' : forall g u, In (g, u) sig -> valid u (get g d) = true) by (intros; apply H; right; assumption). clear H.
  induction sig as [| [g u] sig IH]; intros b ->; [reflexivity |]. cbn [fold_left fst snd]. apply IH.
  - intros; apply H'. right; assumption.
  - rewrite H' by (left; reflexivity). reflexivity.
Qed.

(** ** A canonical instruction *)
Section Canonical.
Context (d : decode) (sig : list (dfield * imm_t)) (Hd : canonical d = true) (Hs : signature (d_op d) = Some sig).
Abbreviation op := (d_op d).
Abbreviation c := (rv_inst_codec (d_op d)).
Abbreviation r := (assigned (d_op d) sig d).

Lemma sig_field f : field_ok op sig f = true.
Proof using Hs.
  pose proof (signatures_ok op) as H. unfold signature_ok in H. rewrite Hs, !andb_true_iff, forallb_forall in H. apply H, all_fields_in.
Qed.

Lemma sig_apart f o b f' b' : In (f, o, b) (slots (codec_layout c)) -> In (f', o, b') (slots (codec_layout c)) -> f = f'.
Proof using Hs.
  pose proof (signatures_ok op) as H. unfold signature_ok, apart in H. rewrite Hs, !andb_true_iff, !forallb_forall in H. destruct H as [[[_ H] _] _].
  intros H1 H2. specialize (H _ H1). rewrite forallb_forall in H. specialize (H _ H2). cbn [fst snd] in H.
  rewrite bool_decide_true in H by reflexivity. apply bool_decide_eq_true in H. exact H.
Qed.

Lemma sig_distinct : NoDup (map fst sig) /\ c <> rv_codec_cs.
Proof using Hs.
  pose proof (signatures_ok op) as H. unfold signature_ok, distinct in H. rewrite Hs, !andb_true_iff, negb_true_iff in H. destruct H as [[_ H1] H2].
  apply bool_decide_eq_true in H1. apply bool_decide_eq_false in H2. auto.
Qed.

Lemma slot_range f o b : In (f, o, b) (slots (codec_layout c)) -> b = 0 -> op_min o <= get f d < op_max o /\ conv f (get f d) = get f d.
Proof using Hd.
  intros H ->. destruct (canonical_inv d Hd) as (_ & H2 & _). destruct (layout_slot c f o 0 H) as (Ho & L1 & L2 & _).
  pose proof (canonical_slot c d H2 f o 0 H) as Hv. rewrite Z.sub_0_r in Hv. apply (operand_valid_spec o Ho) in Hv as [Hv _].
  assert (Hr : op_min o <= get f d < op_max o) by (unfold operand_range, op_min, op_max in *; destruct (op_type o); exact Hv).
  split; [exact Hr | apply conv_small; lia].
Qed.

(** A field is as it is in the instruction, or it is 0 and the opcode fixes the
    bits of its operand. *)
Lemma field_cases f : 
  match find (fun x => bool_decide (x.1 = f)) sig with
  | Some (_, t) => exists o, field_source (codec_layout c) f = Bits o 0 /\ get f r = get f d /\ valid t (get f d) = true
  | None => get f r = 0 /\
      match field_source (codec_layout c) f with
      | Bits o b => b = 0 /\ operand_valid o 0 = true /\ operand_encode o 0 = 0 /\ Z.land (inst_mask o) (rv_inst_mask op) = inst_mask o
      | Fixed v => v = 0
      end
  end.
Proof using Hd Hs.
  pose proof (sig_field f) as Hf. unfold field_ok in Hf. pose proof (assigned_get op sig d f (proj1 sig_distinct)) as Hg.
  destruct (find _ sig) as [[g t] |].
  - destruct (field_source (codec_layout c) f) as [o b |] eqn:E; [| discriminate Hf]. rewrite !andb_true_iff, Z.eqb_eq, !Z.leb_le in Hf. destruct Hf as [[-> H1] H2].
    exists o. destruct (slot_range f o 0 (source_slot c f o 0 E) eq_refl) as [Hr Hc]. split; [reflexivity |]. split; [rewrite Hg; exact Hc |].
    apply valid_range. lia.
  - split; [exact Hg |]. destruct (field_source (codec_layout c) f) as [o b | v]; rewrite ?andb_true_iff, !Z.eqb_eq in Hf; tauto.
Qed.

Lemma canonical_args : args_valid sig d = true.
Proof using Hd Hs.
  apply args_valid_all. intros f t Hin. pose proof (field_cases f) as Hf. destruct (find _ sig) as [[g u] |] eqn:E.
  - assert (Eq : (g, u) = (f, t)); [| injection Eq as -> ->; destruct Hf as (o & _ & _ & Hv); exact Hv].
    apply find_some in E as [Hin' E]. apply bool_decide_eq_true in E. cbn in E. subst g. destruct sig_distinct as [Hn _].
    clear -Hin Hin' Hn. induction sig as [| [h w] l IH]; [destruct Hin |]. cbn [map fst] in Hn. apply NoDup_cons in Hn as [Hh Hn].
    assert (Hno : forall w', In (h, w') l -> False) by (intros w' Hw; apply Hh, list_elem_of_In; exact (in_map fst l _ Hw)).
    destruct Hin as [E1 | H1], Hin' as [E2 | H2]; [congruence | injection E1 as <- <-; destruct (Hno _ H2) | injection E2 as <- <-; destruct (Hno _ H1) | auto].
  - apply find_none with (x := (f, t)) in E; [| exact Hin]. cbn in E. rewrite bool_decide_true in E by reflexivity. discriminate E.
Qed.

Lemma assigned_canonical : canonical_at c r = true.
Proof using Hd Hs.
  destruct (canonical_inv d Hd) as (_ & H2 & _). unfold canonical_at. apply andb_true_iff. split.
  - apply forallb_forall. intros f _. pose proof (field_cases f) as Hf. pose proof (canonical_field c d H2 f) as Hv. destruct (find _ sig) as [[g t] |].
    + destruct Hf as (o & E & Hg & _). rewrite E in *. unfold source_valid in *. rewrite Hg. exact Hv.
    + destruct Hf as [Hg Hf]. unfold source_valid. rewrite Hg. destruct (field_source _ f) as [o b | v]; [destruct Hf as (-> & Hf & _); exact Hf | subst v; reflexivity].
  - unfold shared_equal. apply forallb_forall. intros [[f o] b] H1. apply forallb_forall. intros [[f' o'] b'] H1'. cbn [fst snd].
    case_bool_decide as E; [| reflexivity]. subst o'. rewrite (sig_apart f o b f' b' H1 H1'). cbn [negb orb]. apply Z.eqb_refl.
Qed.

Lemma assigned_bits : Z.lor (rv_inst_match op) (enc_bits c r) = enc_word d.
Proof using Hd Hs.
  destruct (canonical_inv d Hd) as (_ & H2 & H3). unfold enc_word, enc_bits.
  assert (H : forall l, (forall s, In s l -> In s (slots (codec_layout c))) ->
    Z.lor (rv_inst_match op) (fold_right (fun s acc => Z.lor (operand_encode s.1.2 (get s.1.1 r)) acc) 0 l) =
    Z.lor (rv_inst_match op) (fold_right (fun s acc => Z.lor (operand_encode s.1.2 (get s.1.1 d)) acc) 0 l)); [| apply H; auto].
  induction l as [| [[f o] b] l IH]; intros Hl; [reflexivity |]. cbn [fold_right fst snd].
  specialize (IH (fun s Hin => Hl s (or_intror Hin))). specialize (Hl _ (or_introl eq_refl)). pose proof (field_cases f) as Hf.
  destruct (layout_slot c f o b Hl) as (_ & _ & _ & _ & E).
  rewrite !Z.lor_assoc, !(Z.lor_comm (rv_inst_match op)), <- !Z.lor_assoc. destruct (find _ sig) as [[g t] |].
  - destruct Hf as (_ & _ & -> & _). rewrite IH. reflexivity.
  - destruct Hf as [-> Hf]. rewrite E in Hf. destruct Hf as (_ & _ & -> & Hm). rewrite IH, Z.lor_0_l.
    rewrite <- (enc_bits_slot c d H2 f o b Hl). rewrite <- Hm, (Z.land_comm (inst_mask o)), Z.land_assoc, H3.
    lor_eq.
Qed.

Lemma assigned_encodes : encode_inst r = Some (enc_word d) /\ encode_inst d = Some (enc_word d).
Proof using Hd Hs.
  split; [| apply (encode_inst_canonical d Hd), sig_distinct]. unfold encode_inst. rewrite assigned_op. cbn [d_codec set_codec].
  assert (E : forall f, get f (set_codec c r) = get f r) by (intros []; reflexivity).
  assert (Hc : canonical_at c (set_codec c r) = true) by exact assigned_canonical.
  rewrite (encode_operands_bits c _ (proj2 sig_distinct) Hc). cbn [d_op set_codec mbind option_bind]. rewrite assigned_op. f_equal. exact assigned_bits.
Qed.
End Canonical.

Lemma signature_side d sig : signature (d_op d) = Some sig -> dec_side d = true.
Proof. unfold dec_side. destruct (d_op d); discriminate || reflexivity. Qed.

Lemma zero_word_op : signature (d_op (decode_inst isa_rv64 decode_init 0)) = None.
Proof. vm_compute. reflexivity. Qed.

Definition operands_valid (d : decode) : bool := match signature (d_op d) with Some sig => args_valid sig d | None => false end.

(** C40 The emitters of the assembler, for every opcode that has one: on the
    operands of a canonical instruction, [emit_<op>] returns the word that
    [encode_inst] gives the instruction, [asm_<op>] adds that word to the current
    section, and for an RV64 opcode the word is not 0 and decodes to the
    instruction; on an operand that is out of the range of its type, [emit_<op>]
    returns 0 and [asm_<op>] returns false and adds nothing. *)
Theorem emitters_spec d e f : emitter_of (d_op d) = Some e -> asm_fn (d_op d) = Some f ->
  (canonical d = true -> exists w, e d = Some w /\ encode_inst d = Some w /\ (forall a, f d a = Some (true, add_inst w a)) /\
     (rv64_op (d_op d) = true -> w <> 0 /\ decode_inst isa_rv64 decode_init w = d)) /\
  (operands_valid d = false -> e d = Some 0 /\ forall a, f d a = Some (false, a)).
Proof.
  rewrite emitter_signature, asm_fn_signature. unfold operands_valid. destruct (signature (d_op d)) as [sig |] eqn:Hs; [| discriminate].
  intros [= <-] [= <-]. unfold emit_as, asm_as. split; [| intros ->; auto]. intros Hd. exists (enc_word d).
  destruct (assigned_encodes d sig Hd Hs) as [E1 E2]. rewrite (canonical_args d sig Hd Hs), E1.
  split; [reflexivity |]. split; [exact E2 |]. split; [reflexivity |]. rewrite rv64_decodable. intros HD.
  destruct (decode_encode_rv64 d Hd HD (signature_side d sig Hs) (proj2 (sig_distinct d sig Hs))) as (w & Ew & Hw). rewrite E2 in Ew. injection Ew as <-.
  split; [| exact Hw]. intros E. rewrite E in Hw. pose proof zero_word_op as H0. rewrite Hw, Hs in H0. discriminate H0.
Qed.

(** [bne a5, zero, -32], and with an offset that is out of reach. *)
Definition bne_back : decode := mkDecode (-32) 0 15 0 0 rv_op_bne rv_codec_sb 0 0 0 0 0.
Definition bne_far : decode := mkDecode 4096 0 15 0 0 rv_op_bne rv_codec_sb 0 0 0 0 0.

Lemma emitters_spec_witness :
  (exists w, emit_bne 15 0 (-32) = Some w /\ decode_inst isa_rv64 decode_init w = bne_back /\ forall a, asm_bne 15 0 (-32) a = Some (true, add_inst w a)) /\
  emit_bne 15 0 4096 = Some 0 /\ (forall a, asm_bne 15 0 4096 a = Some (false, a)) /\ emit_bne 15 0 (-32) = Some 0xfe0790e3.
Proof.
  destruct (emitters_spec bne_back (fun d => emit_bne (d_rs1 d) (d_rs2 d) (d_imm d)) (fun d => asm_bne (d_rs1 d) (d_rs2 d) (d_imm d)) eq_refl eq_refl) as [H _].
  destruct (emitters_spec bne_far (fun d => emit_bne (d_rs1 d) (d_rs2 d) (d_imm d)) (fun d => asm_bne (d_rs1 d) (d_rs2 d) (d_imm d)) eq_refl eq_refl) as [_ H'].
  destruct (H ltac:(vm_compute; reflexivity)) as (w & H1 & _ & H2 & H3). destruct (H' ltac:(vm_compute; reflexivity)) as [H4 H5].
  split; [exists w; split; [exact H1 |]; split; [apply H3; vm_compute; reflexivity | exact H2] |]. split; [exact H4 |]. split; [exact H5 | vm_compute; reflexivity].
Defined.

(** ** What the emitters get wrong *)

(** The emitters of [csrrwi], [csrrsi] and [csrrci] assign the immediate and the
    CSR number to the same field: the immediate is lost. *)
Lemma csr_immediate_lost zimm csr12 rd : valid uimm5 zimm = true ->
  emit_csrrwi rd zimm csr12 = emit_csrrwi rd 0 csr12 /\ emit_csrrsi rd zimm csr12 = emit_csrrsi rd 0 csr12 /\ emit_csrrci rd zimm csr12 = emit_csrrci rd 0 csr12.
Proof. intros H. unfold emit_csrrwi, emit_csrrsi, emit_csrrci. rewrite H. repeat split; destruct (valid ireg5 rd), (valid uimm12 csr12); reflexivity. Qed.

(** An offset is not checked to be even, nor an upper immediate to be a multiple
    of 4096: the low bits are dropped. *)
Lemma low_bits_dropped : emit_beq 1 2 3 = emit_beq 1 2 2 /\ emit_jal 1 5 = emit_jal 1 4 /\ emit_auipc 1 0x1fff = emit_auipc 1 0x1000.
Proof. vm_compute. auto. Qed.
