(* ===== verification/Host.v ===== *)
(** * Host: the host's instructions that the JIT emits, as an interface.

    The emitter calls a third-party assembler; what its instructions do is the
    host's documented behaviour: [host_step] gives it for the instructions the
    emitter uses, [Host] is a machine that behaves so.  The host's register
    [rbp] holds the processor's address: an operand in its register file is
    named by the register's number, its [pc] by [rbp_pc].  The guest's memory
    is the host's; the stack is kept apart from it. *)

From Stdlib Require Import ZArith Lia Bool List.
From stdpp Require Import base numbers list.
From S2P Require Import Prelude Proxy.

(** ** Instructions *)

(** Operands: the low [w] bits of a register by number ([rax] is 0, [rcx] 1,
    [rdx] 2), of a guest register in the register file, of the memory at a
    register and a displacement; the processor's [pc]; immediates. *)
Inductive xarg :=
  | gp (w r : Z) | rbp_reg (w r : Z) | mem_ptr (w base disp : Z) | rbp_pc | Imm (v : Z).

Abbreviation gpq := (gp 64).
Abbreviation gpd := (gp 32).
Abbreviation rbp_reg_q := (rbp_reg 64).
Abbreviation rbp_reg_d := (rbp_reg 32).

Inductive xalu := x_add | x_sub | x_and | x_or | x_xor.
Inductive xshift := x_shl | x_shr | x_sar.
Inductive xcond := kCondE | kCondNE | kCondL | kCondGE | kCondB | kCondAE | kCondNS.

(** A shift count: the register [cl] or an immediate. *)
Inductive xcount := cl | count (n : Z).

(** Where a jump goes: a label local to an instruction's code, the code of the
    guest instruction at [pc], a trampoline that stores [pc] and leaves the
    trace, the end of the trace, an address outside it. *)
Inductive label := Lab (n : Z) | At (pc : Z) | Jump_tramp (pc : Z) | Exit_tramp (pc : Z) | Term | Addr (a : Z) | Caller.

Definition label_eqb (l l' : label) : bool :=
  match l, l' with
  | Lab a, Lab b | At a, At b | Jump_tramp a, Jump_tramp b | Exit_tramp a, Exit_tramp b | Addr a, Addr b => a =? b
  | Term, Term | Caller, Caller => true
  | _, _ => false
  end.

Inductive xinst :=
  | Mov (dst src : xarg)
  | Alu (o : xalu) (dst src : xarg)
  | Imul (dst src : xarg)
  | Mul1 (signed : bool) (src : xarg)      (* [rdx:rax = rax * src] *)
  | Div1 (signed : bool) (src : xarg)      (* [rax, rdx = rdx:rax / src] *)
  | Cqo                                    (* [rdx:rax], [rax] with its sign *)
  | Cdq
  | Neg (dst : xarg)
  | Shift (o : xshift) (dst : xarg) (n : xcount)
  | Cmp (a b : xarg)
  | Test (a b : xarg)
  | Set_ (c : xcond) (dst : xarg)
  | Movzx (dst src : xarg)
  | Movsx (dst src : xarg)
  | Movsxd (dst src : xarg)
  | Lea (dst : xarg) (base : Z) (index : option Z) (disp : Z)
  | Push (r : Z)
  | Pop (r : Z)
  | Jmp (l : label)
  | Jcc (c : xcond) (l : label)
  | Bind (l : label).

(** ** State

    The flags are those of a comparison or a test: equal, less, below,
    negative; [None] after an instruction that leaves them in another way. *)
Abbreviation flags := (option (bool * bool * bool * bool)).

Record xstate := mkX {
  xreg : Z -> Z; xslot : Z -> Z; xpc : Z; xmem : Z -> Z; xstack : list Z; xflags : flags }.

Definition upd (f : Z -> Z) (k v : Z) : Z -> Z := fun k' => if k' =? k then v else f k'.

Section Updates.
Context (x : xstate).
Definition set_xreg (r v : Z) : xstate := mkX (upd (xreg x) r v) (xslot x) (xpc x) (xmem x) (xstack x) (xflags x).
Definition set_xslot (r v : Z) : xstate := mkX (xreg x) (upd (xslot x) r v) (xpc x) (xmem x) (xstack x) (xflags x).
Definition set_xpc (v : Z) : xstate := mkX (xreg x) (xslot x) v (xmem x) (xstack x) (xflags x).
Definition set_xmem (m : Z -> Z) : xstate := mkX (xreg x) (xslot x) (xpc x) m (xstack x) (xflags x).
Definition set_xstack (s : list Z) : xstate := mkX (xreg x) (xslot x) (xpc x) (xmem x) s (xflags x).
Definition set_xflags (f : flags) : xstate := mkX (xreg x) (xslot x) (xpc x) (xmem x) (xstack x) f.
End Updates.

Definition is_mem (a : xarg) : bool := match a with rbp_reg _ _ | mem_ptr _ _ _ | rbp_pc => true | _ => false end.

Definition xwidth (a : xarg) : option Z :=
  match a with gp w _ | rbp_reg w _ | mem_ptr w _ _ => Some w | rbp_pc => Some 64 | Imm _ => None end.

Definition xaddr (x : xstate) (base disp : Z) : Z := u64 (xreg x base + disp).

(** The value of an operand; an immediate is extended to [w] bits. *)
Definition xget (w : Z) (x : xstate) (a : xarg) : Z :=
  match a with
  | gp w r => wrap w (xreg x r)
  | rbp_reg w r => wrap w (xslot x r)
  | mem_ptr w b d => read_T w (xmem x) (xaddr x b d)
  | rbp_pc => xpc x
  | Imm v => wrap w v
  end.

(** The low [w] bits of [old] replaced. *)
Definition merge (w old v : Z) : Z := old / 2 ^ w * 2 ^ w + wrap w v.

(** A 32-bit register is extended with zeros; a narrower part of a register,
    and a part of the memory, is replaced. *)
Definition xput (a : xarg) (v : Z) (x : xstate) : xstate :=
  match a with
  | gp w r => set_xreg x r (if 32 <=? w then wrap w v else merge w (xreg x r) v)
  | rbp_reg w r => set_xslot x r (if w =? 64 then u64 v else merge w (xslot x r) v)
  | mem_ptr w b d => set_xmem x (write_bytes (bytes_of w) (xmem x) (xaddr x b d) v)
  | rbp_pc => set_xpc x (u64 v)
  | Imm _ => x
  end.

(** An immediate that is extended from 32 bits. *)
Definition imm32 (v : Z) : bool := (- 2 ^ 31 <=? v) && (v <? 2 ^ 31).

(** The width of an instruction with two operands that can be encoded: sizes
    agree, at most one operand is in memory, an immediate is of 32 bits. *)
Definition xsize (dst src : xarg) : option Z :=
  w ← xwidth dst;
  match src with
  | Imm v => if imm32 v then Some w else None
  | _ => w' ← xwidth src; if (w =? w') && negb (is_mem dst && is_mem src) then Some w else None
  end.

(** [mov] to a 64-bit register takes any immediate. *)
Definition mov_size (dst src : xarg) : option Z :=
  match dst, src with gp w _, Imm _ => if w =? 64 then Some 64 else xsize dst src | _, _ => xsize dst src end.

Definition xalu_fn (o : xalu) (a b : Z) : Z :=
  match o with x_add => a + b | x_sub => a - b | x_and => Z.land a b | x_or => Z.lor a b | x_xor => Z.lxor a b end.

Definition xshift_fn (o : xshift) (w a n : Z) : Z :=
  match o with x_shl => a * 2 ^ n | x_shr => a / 2 ^ n | x_sar => swrap w a / 2 ^ n end.

Definition xcond_holds (c : xcond) (f : bool * bool * bool * bool) : bool :=
  let '(e, l, b, s) := f in
  match c with
  | kCondE => e | kCondNE => negb e | kCondL => l | kCondGE => negb l | kCondB => b | kCondAE => negb b | kCondNS => negb s
  end.

(** [rdx:rax] divided; an error when the quotient does not fit. *)
Definition div_wide (signed : bool) (w a d b : Z) : option (Z * Z) :=
  let (n, b) := if signed then (swrap w d * 2 ^ w + a, swrap w b) else (d * 2 ^ w + a, b) in
  if b =? 0 then None
  else
    let q := Z.quot n b in
    if (if signed then (- 2 ^ (w - 1) <=? q) && (q <? 2 ^ (w - 1)) else q <? 2 ^ w) then Some (q, Z.rem n b) else None.

Definition host_step (i : xinst) (x : xstate) : option xstate :=
  match i with
  | Mov dst src => w ← mov_size dst src; Some (xput dst (xget w x src) x)
  | Alu o dst src =>
      w ← xsize dst src; Some (set_xflags (xput dst (xalu_fn o (xget w x dst) (xget w x src)) x) None)
  | Imul dst src =>
      w ← xsize dst src;
      if is_mem dst then None else Some (set_xflags (xput dst (xget w x dst * xget w x src) x) None)
  | Mul1 signed src =>
      match xwidth src with
      | Some 64 =>
          let s v := if signed : bool then s64 v else v in
          let p := s (xreg x 0) * s (xget 64 x src) in
          Some (set_xflags (set_xreg (set_xreg x 0 (u64 p)) 2 (u64 (p / 2 ^ 64))) None)
      | _ => None
      end
  | Div1 signed src =>
      w ← xwidth src;
      if (w =? 32) || (w =? 64) then
        '(q, r) ← div_wide signed w (wrap w (xreg x 0)) (wrap w (xreg x 2)) (xget w x src);
        Some (set_xflags (set_xreg (set_xreg x 0 (wrap w q)) 2 (wrap w r)) None)
      else None
  | Cqo => Some (set_xreg x 2 (if s64 (xreg x 0) <? 0 then 2 ^ 64 - 1 else 0))
  | Cdq => Some (set_xreg x 2 (if s32 (xreg x 0) <? 0 then 2 ^ 32 - 1 else 0))
  | Neg dst => w ← xwidth dst; Some (set_xflags (xput dst (- xget w x dst) x) None)
  | Shift o dst n =>
      w ← xwidth dst;
      let n := match n with cl => xreg x 1 | count n => n end mod w in
      Some (set_xflags (xput dst (xshift_fn o w (xget w x dst) n) x) None)
  | Cmp a b =>
      w ← xsize a b;
      let (va, vb) := (xget w x a, xget w x b) in
      Some (set_xflags x (Some (va =? vb, swrap w va <? swrap w vb, va <? vb, swrap w (va - vb) <? 0)))
  | Test a b =>
      w ← xsize a b;
      let v := Z.land (xget w x a) (xget w x b) in
      Some (set_xflags x (Some (v =? 0, swrap w v <? 0, false, swrap w v <? 0)))
  | Set_ c dst =>
      match dst with gp 8 _ => f ← xflags x; Some (xput dst (if xcond_holds c f then 1 else 0) x) | _ => None end
  | Movzx dst src | Movsx dst src =>
      match dst, xwidth src with
      | gp w _, Some w' =>
          if ((w =? 32) || (w =? 64)) && ((w' =? 8) || (w' =? 16)) then
            let v := xget w' x src in
            Some (xput dst match i with Movsx _ _ => swrap w' v | _ => v end x)
          else None
      | _, _ => None
      end
  | Movsxd dst src =>
      match dst, xwidth src with gp 64 _, Some 32 => Some (xput dst (s32 (xget 32 x src)) x) | _, _ => None end
  | Lea dst b i disp =>
      let a := xreg x b + match i with Some r => xreg x r | None => 0 end + disp in
      match dst with gp 64 _ | gp 32 _ => Some (xput dst a x) | _ => None end
  | Push r => Some (set_xstack x (xreg x r :: xstack x))
  | Pop r => match xstack x with v :: s => Some (set_xstack (set_xreg x r v) s) | [] => None end
  | Jmp _ | Jcc _ _ | Bind _ => Some x
  end.

(** A piece of code from its start, or from the label [k] in it: it is run to
    its end, or until it jumps to a label that is not bound further on. *)
Fixpoint host_go (c : list xinst) (k : option label) (x : xstate) : option (xstate * option label) :=
  match c with
  | [] => Some (x, k)
  | i :: c =>
      match k with
      | Some l => host_go c match i with Bind l' => if label_eqb l l' then None else k | _ => k end x
      | None =>
          match i with
          | Jmp l => host_go c (Some l) x
          | Jcc cd l => f ← xflags x; host_go c (if xcond_holds cd f then Some l else None) x
          | _ => x ← host_step i x; host_go c None x
          end
      end
  end.

(** ** The interface

    A host runs code from its start or from a label; seen through the state
    above it does what [host_go] says. *)
Class Host (H : Type) := {
  host_view : H -> xstate;
  host_run : list xinst -> option label -> H -> option (H * option label) }.

Class HostLaws (H : Type) `{Host H} : Prop := {
  host_run_view : forall c k h x k', host_go c k (host_view h) = Some (x, k') ->
    exists h', host_run c k h = Some (h', k') /\ host_view h' = x }.

(** The view itself is a host. *)
#[export] Instance view_host : Host xstate := {| host_view x := x; host_run := host_go |}.
#[export] Instance view_host_laws : HostLaws xstate.
Proof. split. intros c k h x k' E. exists x. split; [exact E | reflexivity]. Qed.

(** ** Functions

    A jump back within a function is to the code of a guest instruction or to
    the end of the trace: the code is run from there. *)
Definition inner (l : label) : bool := match l with At _ | Term => true | _ => false end.

Section Loop.
Context {H : Type} `{Host H}.

Fixpoint host_loop (fuel : nat) (code : list xinst) (k : option label) (h : H) : option (H * option label) :=
  match fuel with
  | O => Some (h, k)
  | S fuel =>
      match host_run code k h with
      | Some (h', Some l) => if inner l then host_loop fuel code (Some l) h' else Some (h', Some l)
      | r => r
      end
  end.
End Loop.

(** What a function does to the view is what the host does. *)
Lemma host_loop_view {H} `{HostLaws H} code n : forall k (h : H) x k',
  host_loop n code k (host_view h) = Some (x, k') ->
  exists h', host_loop n code k h = Some (h', k') /\ host_view h' = x.
Proof.
  induction n as [| n IH]; intros k h x k' E; cbn [host_loop] in *.
  { injection E as <- <-. eauto. }
  change (host_run code k (host_view h)) with (host_go code k (host_view h)) in E.
  destruct (host_go code k (host_view h)) as [[x1 k1] |] eqn:Eg; [| discriminate].
  destruct (host_run_view code k h x1 k1 Eg) as (h1 & -> & <-).
  destruct k1 as [l |]; [| injection E as <- <-; eauto]. destruct (inner l); [apply IH, E | injection E as <- <-; eauto].
Qed.

(** Code is run piece by piece. *)
Lemma host_go_app c c' k x : host_go (c ++ c') k x = ('(x', k') ← host_go c k x; host_go c' k' x').
Proof.
  revert k x. induction c as [| i c IHc]; intros k x; [reflexivity |]. cbn [app host_go].
  destruct k as [l |]; [apply IHc |].
  destruct i; try (match goal with |- context [host_step ?j ?s] => destruct (host_step j s) end;
    cbn [mbind option_bind]; [apply IHc | reflexivity]); [apply IHc |].
  destruct (xflags x); cbn [mbind option_bind]; [apply IHc | reflexivity].
Qed.
