(* ===== verification/Jit.v ===== *)
(** * Jit: the integer part of the RV64 emitter ([jit/jit-emitter-rv64.h]) and
    the fusion of instruction pairs in front of it ([jit/jit-fusion.h]).

    An emitter function is the list of host instructions it appends. *)

From Stdlib Require Import ZArith Lia Bool List.
From stdpp Require Import base numbers list gmap.
From S2P Require Import Prelude Meta Decode Codec Host.

(** ** [jit-decode.h] *)

(** An opcode: an instruction's or a pseudo-instruction's ([enum jit_op]). *)
Inductive jop := Rv (op : rv_op) | jit_op_la | jit_op_call | jit_op_zextw | jit_op_addiwz.

(** [struct jit_decode]; the fields the integer instructions do not read are
    left out. *)
Record jit_decode := mkJit {
  j_pc : Z; j_inst : Z; j_op : jop; j_rd : Z; j_rs1 : Z; j_rs2 : Z; j_imm : Z; j_sz : Z }.

(** What [inst_decode] fills in, with [dec.pc] and [dec.inst]. *)
Definition jit_of (pc inst : Z) (d : decode) : jit_decode :=
  mkJit pc inst (Rv (d_op d)) (d_rd d) (d_rs1 d) (d_rs2 d) (d_imm d) 0.

(** ** Registers *)

(** [x86_reg]: the host register of a guest register, 0 for [x0], -1 for one
    that stays in memory. *)
Definition x86_reg (rd : Z) : Z :=
  switch rd
    [0 ~> 0; 1 ~> 2; 2 ~> 3; 5 ~> 6; 6 ~> 7; 10 ~> 8; 11 ~> 9; 12 ~> 10; 13 ~> 11; 14 ~> 12; 15 ~> 13;
     16 ~> 14; 17 ~> 15] (-1).

Definition rax : xarg := gpq 0.
Definition rcx : xarg := gpq 1.
Definition rdx : xarg := gpq 2.
Definition eax : xarg := gpd 0.
Definition ecx : xarg := gpd 1.
Definition edx : xarg := gpd 2.
Definition al : xarg := gp 8 0.
Definition dl : xarg := gp 8 2.

Section Emitters.
Context (dec : jit_decode).
Abbreviation rd := (j_rd dec).
Abbreviation rs1 := (j_rs1 dec).
Abbreviation rs2 := (j_rs2 dec).
Abbreviation imm := (j_imm dec).
Abbreviation rdx_ := (x86_reg rd).
Abbreviation rs1x := (x86_reg rs1).
Abbreviation rs2x := (x86_reg rs2).

(** ** Moves *)
Definition emit_sx_32_rd : list xinst :=
  if 0 <? rdx_ then [Movsxd (gpq rdx_) (gpd rdx_)]
  else [Movsxd rcx (rbp_reg_d rd); Mov (rbp_reg_q rd) rcx].

Definition emit_zero_rd : list xinst :=
  if 0 <? rdx_ then [Alu x_xor (gpd rdx_) (gpd rdx_)] else [Mov (rbp_reg_q rd) (Imm 0)].

Definition emit_mv_rax_rs1 : list xinst :=
  if 0 <? rs1x then [Mov rax (gpq rs1x)] else [Mov rax (rbp_reg_q rs1)].

Definition emit_mv_rd_rs1 : list xinst :=
  if rd =? rs1 then []
  else if 0 <? rdx_ then
    if 0 <? rs1x then [Mov (gpq rdx_) (gpq rs1x)] else [Mov (gpq rdx_) (rbp_reg_q rs1)]
  else
    if 0 <? rs1x then [Mov (rbp_reg_q rd) (gpq rs1x)]
    else [Mov rax (rbp_reg_q rs1); Mov (rbp_reg_q rd) rax].

Definition emit_mv_rd_rs1_32 : list xinst :=
  if rd =? rs1 then []
  else if 0 <? rdx_ then
    if 0 <? rs1x then [Mov (gpd rdx_) (gpd rs1x)] else [Mov (gpd rdx_) (rbp_reg_d rs1)]
  else
    if 0 <? rs1x then [Mov (rbp_reg_d rd) (gpd rs1x)]
    else [Mov eax (rbp_reg_d rs1); Mov (rbp_reg_d rd) eax].

Definition emit_mv_rd_rs2 : list xinst :=
  if rd =? rs2 then []
  else if 0 <? rdx_ then
    if 0 <? rs2x then [Mov (gpq rdx_) (gpq rs2x)] else [Mov (gpq rdx_) (rbp_reg_q rs2)]
  else
    if 0 <? rs2x then [Mov (rbp_reg_q rd) (gpq rs2x)]
    else [Mov rax (rbp_reg_q rs2); Mov (rbp_reg_q rd) rax].

Definition emit_mv_rd_rs1_sx_32 : list xinst :=
  if 0 <? rdx_ then
    if 0 <? rs1x then [Movsxd (gpq rdx_) (gpd rs1x)] else [Movsxd (gpq rdx_) (rbp_reg_d rs1)]
  else
    if 0 <? rs1x then [Movsxd rax (gpd rs1x); Mov (rbp_reg_q rd) rax]
    else [Movsxd rax (rbp_reg_d rs1); Mov (rbp_reg_q rd) rax].

Definition emit_mv_rd_rs2_sx_32 : list xinst :=
  if 0 <? rdx_ then
    if 0 <? rs2x then [Movsxd (gpq rdx_) (gpd rs2x)] else [Mov (gpq rdx_) (rbp_reg_d rs2)]
  else
    if 0 <? rs2x then [Movsxd rax (gpd rs2x); Mov (rbp_reg_q rd) rax]
    else [Movsxd rax (rbp_reg_d rs2); Mov (rbp_reg_q rd) rax].

Definition emit_mv_cl_rs2 : list xinst :=
  if 0 <? rs2x then [Mov ecx (gpd rs2x)] else [Mov ecx (rbp_reg_d rs2)].

(** ** Register-register instructions *)
Definition emit_auipc : list xinst :=
  if rd =? 0 then []
  else if 0 <? rdx_ then [Mov (gpq rdx_) (Imm (u64 (j_pc dec + imm)))]
  else [Mov (rbp_reg_q rd) (Imm (u64 (j_pc dec + imm)))].

(** The two cases with [rd] a source, common to [emit_add] to [emit_xor]. *)
Definition emit_rd_rs2 (o : xalu) : list xinst :=
  if 0 <? rdx_ then
    if 0 <? rs2x then [Alu o (gpq rdx_) (gpq rs2x)] else [Alu o (gpq rdx_) (rbp_reg_q rs2)]
  else
    if 0 <? rs2x then [Alu o (rbp_reg_q rd) (gpq rs2x)]
    else [Mov rax (rbp_reg_q rs2); Alu o (rbp_reg_q rd) rax].

Definition emit_rd_rs1 (o : xalu) : list xinst :=
  if 0 <? rdx_ then
    if 0 <? rs1x then [Alu o (gpq rdx_) (gpq rs1x)] else [Alu o (gpq rdx_) (rbp_reg_q rs1)]
  else
    if 0 <? rs1x then [Alu o (rbp_reg_q rd) (gpq rs1x)]
    else [Mov rax (rbp_reg_q rs1); Alu o (rbp_reg_q rd) rax].

(** The cases of three registers that differ. *)
Definition emit_rax_rs2 (o : xalu) : list xinst :=
  emit_mv_rax_rs1 ++
  (if 0 <? rs2x then [Alu o rax (gpq rs2x)] else [Alu o rax (rbp_reg_q rs2)]) ++
  [Mov (rbp_reg_q rd) rax].

Definition emit_mv_rs2 (o : xalu) : list xinst :=
  emit_mv_rd_rs1 ++
  (if 0 <? rdx_ then
     if 0 <? rs2x then [Alu o (gpq rdx_) (gpq rs2x)] else [Alu o (gpq rdx_) (rbp_reg_q rs2)]
   else [Alu o (rbp_reg_q rd) (gpq rs2x)]).

Definition emit_add : list xinst :=
  if rd =? 0 then []
  else if rs1 =? 0 then emit_mv_rd_rs2
  else if rs2 =? 0 then emit_mv_rd_rs1
  else if rd =? rs1 then emit_rd_rs2 x_add
  else if rd =? rs2 then emit_rd_rs1 x_add
  else if (0 <? rdx_) && (0 <? rs1x) && (0 <? rs2x) then [Lea (gpq rdx_) rs1x (Some rs2x) 0]
  else if (rdx_ <? 0) && ((rs1x <? 0) || (rs2x <? 0)) then emit_rax_rs2 x_add
  else emit_mv_rs2 x_add.

Definition emit_neg_rd : list xinst := if 0 <? rdx_ then [Neg (gpq rdx_)] else [Neg (rbp_reg_q rd)].

Definition emit_sub : list xinst :=
  if rd =? 0 then []
  else if rs1 =? 0 then emit_mv_rd_rs2 ++ emit_neg_rd
  else if rs2 =? 0 then emit_mv_rd_rs1
  else if rd =? rs1 then emit_rd_rs2 x_sub
  else if rd =? rs2 then emit_rd_rs1 x_sub ++ emit_neg_rd
  else if (rdx_ <? 0) && ((rs1x <? 0) || (rs2x <? 0)) then emit_rax_rs2 x_sub
  else emit_mv_rs2 x_sub.

Definition emit_logic (o : xalu) : list xinst :=
  if rd =? rs1 then emit_rd_rs2 o
  else if rd =? rs2 then emit_rd_rs1 o
  else if (rdx_ <? 0) && ((rs1x <? 0) || (rs2x <? 0)) then emit_rax_rs2 o
  else emit_mv_rs2 o.

Definition emit_and : list xinst :=
  if rd =? 0 then []
  else if (rs1 =? 0) || (rs2 =? 0) then emit_zero_rd
  else emit_logic x_and.

Definition emit_or_xor (o : xalu) : list xinst :=
  if rd =? 0 then []
  else if (rs1 =? 0) && (rs2 =? 0) then emit_zero_rd
  else if rs1 =? 0 then emit_mv_rd_rs2
  else if rs2 =? 0 then emit_mv_rd_rs1
  else emit_logic o.

Definition emit_or : list xinst := emit_or_xor x_or.
Definition emit_xor : list xinst := emit_or_xor x_xor.

Definition emit_mul : list xinst :=
  if rd =? 0 then []
  else if (rs1 =? 0) || (rs2 =? 0) then emit_zero_rd
  else if (rd =? rs1) && (0 <? rdx_) then
    if 0 <? rs2x then [Imul (gpq rdx_) (gpq rs2x)] else [Imul (gpq rdx_) (rbp_reg_q rs2)]
  else if (rd =? rs2) && (0 <? rdx_) then
    if 0 <? rs1x then [Imul (gpq rdx_) (gpq rs1x)] else [Imul (gpq rdx_) (rbp_reg_q rs1)]
  else if rdx_ <? 0 then
    emit_mv_rax_rs1 ++ (if 0 <? rs2x then [Imul rax (gpq rs2x)] else [Imul rax (rbp_reg_q rs2)]) ++
    [Mov (rbp_reg_q rd) rax]
  else
    emit_mv_rd_rs1 ++
    (if 0 <? rs2x then [Imul (gpq rdx_) (gpq rs2x)] else [Imul (gpq rdx_) (rbp_reg_q rs2)]).

(** [mulh] and [mulhu]; [rdx], which holds [ra], is kept in [ra]'s place in memory. *)
Definition emit_mul_high (signed : bool) : list xinst :=
  if rd =? 0 then []
  else if (rs1 =? 0) || (rs2 =? 0) then emit_zero_rd
  else
    (if negb (rdx_ =? 2) then [Mov (rbp_reg_q 1) rdx] else []) ++
    emit_mv_rax_rs1 ++
    (if 0 <? rs2x then [Mul1 signed (gpq rs2x)] else [Mov rcx (rbp_reg_q rs2); Mul1 signed rcx]) ++
    (if 0 <? rdx_ then if negb (rdx_ =? 2) then [Mov (gpq rdx_) rdx] else [] else [Mov (rbp_reg_q rd) rdx]) ++
    (if negb (rdx_ =? 2) then [Mov rdx (rbp_reg_q 1)] else []).

Definition emit_mulh : list xinst := emit_mul_high true.
Definition emit_mulhu : list xinst := emit_mul_high false.

(** The result of a comparison to [rd]. *)
Definition emit_set_rd (c : xcond) : list xinst :=
  Set_ c al :: (if 0 <? rdx_ then [Movzx (gpd rdx_) al] else [Movzx eax al; Mov (rbp_reg_q rd) rax]).

Definition emit_slt_sltu (c : xcond) : list xinst :=
  if rd =? 0 then []
  else
    (if (0 <? rs1x) && (0 <? rs2x) then [Cmp (gpq rs1x) (gpq rs2x)]
     else
       (if rs1 =? 0 then [Alu x_xor eax eax]
        else if 0 <? rs1x then [Mov rax (gpq rs1x)] else [Mov rax (rbp_reg_q rs1)]) ++
       (if rs2 =? 0 then [Cmp rax (Imm 0)]
        else if 0 <? rs2x then [Cmp rax (gpq rs2x)] else [Cmp rax (rbp_reg_q rs2)])) ++
    emit_set_rd c.

Definition emit_slt : list xinst := emit_slt_sltu kCondL.
Definition emit_sltu : list xinst := emit_slt_sltu kCondB.

(** [sll], [srl], [sra]. *)
Definition emit_shift (o : xshift) : list xinst :=
  if rd =? 0 then []
  else if rs1 =? 0 then emit_zero_rd
  else if rs2 =? 0 then emit_mv_rd_rs1
  else if rd =? rs1 then
    emit_mv_cl_rs2 ++ (if 0 <? rdx_ then [Shift o (gpq rdx_) cl] else [Shift o (rbp_reg_q rd) cl])
  else if rdx_ <? 0 then emit_mv_cl_rs2 ++ emit_mv_rax_rs1 ++ [Shift o rax cl; Mov (rbp_reg_q rd) rax]
  else emit_mv_cl_rs2 ++ emit_mv_rd_rs1 ++ [Shift o (gpq rdx_) cl].

Definition emit_sll : list xinst := emit_shift x_shl.
Definition emit_srl : list xinst := emit_shift x_shr.
Definition emit_sra : list xinst := emit_shift x_sar.

(** ** Word instructions *)
Definition emit_mv_eax_rs1 : list xinst :=
  if 0 <? rs1x then [Mov eax (gpd rs1x)] else [Mov eax (rbp_reg_d rs1)].

Definition emit_rd_rs2_32 (o : xalu) : list xinst :=
  if 0 <? rdx_ then
    if 0 <? rs2x then [Alu o (gpd rdx_) (gpd rs2x)] else [Alu o (gpd rdx_) (rbp_reg_d rs2)]
  else
    if 0 <? rs2x then [Alu o (rbp_reg_d rd) (gpd rs2x)]
    else [Mov eax (rbp_reg_d rs2); Alu o (rbp_reg_d rd) eax].

Definition emit_rd_rs1_32 (o : xalu) : list xinst :=
  if 0 <? rdx_ then
    if 0 <? rs1x then [Alu o (gpd rdx_) (gpd rs1x)] else [Alu o (gpd rdx_) (rbp_reg_d rs1)]
  else
    if 0 <? rs1x then [Alu o (rbp_reg_d rd) (gpd rs1x)]
    else [Mov eax (rbp_reg_d rs1); Alu o (rbp_reg_d rd) eax].

Definition emit_eax_rs2_32 (o : xalu) : list xinst :=
  emit_mv_eax_rs1 ++
  (if 0 <? rs2x then [Alu o eax (gpd rs2x)] else [Alu o eax (rbp_reg_d rs2)]) ++
  [Movsxd rax eax; Mov (rbp_reg_q rd) rax].

Definition emit_mv_rs2_32 (o : xalu) : list xinst :=
  emit_mv_rd_rs1 ++
  (if 0 <? rs2x then [Alu o (gpd rdx_) (gpd rs2x)] else [Alu o (gpd rdx_) (rbp_reg_d rs2)]) ++ emit_sx_32_rd.

Definition emit_addw : list xinst :=
  if rd =? 0 then []
  else if rs1 =? 0 then emit_mv_rd_rs2_sx_32
  else if rs2 =? 0 then emit_mv_rd_rs1_sx_32
  else if rd =? rs1 then emit_rd_rs2_32 x_add ++ emit_sx_32_rd
  else if rd =? rs2 then emit_rd_rs1_32 x_add ++ emit_sx_32_rd
  else if (0 <? rdx_) && (0 <? rs1x) && (0 <? rs2x) then Lea (gpd rdx_) rs1x (Some rs2x) 0 :: emit_sx_32_rd
  else if rdx_ <? 0 then emit_eax_rs2_32 x_add
  else emit_mv_rs2_32 x_add.

Definition emit_neg_rd_32 : list xinst := if 0 <? rdx_ then [Neg (gpd rdx_)] else [Neg (rbp_reg_d rd)].

Definition emit_subw : list xinst :=
  if rd =? 0 then []
  else if rs1 =? 0 then (if negb (rd =? rs2) then emit_mv_rd_rs2 else []) ++ emit_neg_rd_32 ++ emit_sx_32_rd
  else if rs2 =? 0 then emit_mv_rd_rs1_sx_32
  else if rd =? rs1 then emit_rd_rs2_32 x_sub ++ emit_sx_32_rd
  else if rd =? rs2 then emit_rd_rs1_32 x_sub ++ emit_neg_rd_32 ++ emit_sx_32_rd
  else if rdx_ <? 0 then emit_eax_rs2_32 x_sub
  else emit_mv_rs2_32 x_sub.

Definition emit_mulw : list xinst :=
  if rd =? 0 then []
  else if (rs1 =? 0) || (rs2 =? 0) then emit_zero_rd
  else if (rd =? rs1) && (0 <? rdx_) then
    (if 0 <? rs2x then [Imul (gpd rdx_) (gpd rs2x)] else [Imul (gpd rdx_) (rbp_reg_d rs2)]) ++ emit_sx_32_rd
  else if (rd =? rs2) && (0 <? rdx_) then
    (if 0 <? rs1x then [Imul (gpd rdx_) (gpd rs1x)] else [Imul (gpd rdx_) (rbp_reg_d rs1)]) ++ emit_sx_32_rd
  else if rdx_ <? 0 then
    emit_mv_eax_rs1 ++ (if 0 <? rs2x then [Imul eax (gpd rs2x)] else [Imul eax (rbp_reg_d rs2)]) ++
    [Mov (rbp_reg_d rd) eax] ++ emit_sx_32_rd
  else
    emit_mv_rd_rs1 ++
    (if 0 <? rs2x then [Imul (gpd rdx_) (gpd rs2x)] else [Imul (gpd rdx_) (rbp_reg_d rs2)]) ++ emit_sx_32_rd.

(** [sllw], [srlw], [sraw]. *)
Definition emit_shiftw (o : xshift) : list xinst :=
  if rd =? 0 then []
  else if rs1 =? 0 then emit_zero_rd
  else if rs2 =? 0 then emit_mv_rd_rs1_sx_32
  else if rd =? rs1 then
    emit_mv_cl_rs2 ++ (if 0 <? rdx_ then [Shift o (gpd rdx_) cl] else [Shift o (rbp_reg_d rd) cl]) ++ emit_sx_32_rd
  else if rdx_ <? 0 then
    emit_mv_cl_rs2 ++ emit_mv_eax_rs1 ++ [Shift o eax cl; Movsxd rax eax; Mov (rbp_reg_q rd) rax]
  else emit_mv_cl_rs2 ++ emit_mv_rd_rs1_32 ++ [Shift o (gpd rdx_) cl] ++ emit_sx_32_rd.

Definition emit_sllw : list xinst := emit_shiftw x_shl.
Definition emit_srlw : list xinst := emit_shiftw x_shr.
Definition emit_sraw : list xinst := emit_shiftw x_sar.

(** ** Immediate instructions *)
Definition emit_li_rd (v : Z) : list xinst :=
  if 0 <? rdx_ then [Mov (gpq rdx_) (Imm v)] else [Mov (rbp_reg_q rd) (Imm v)].

Definition emit_alu_imm_rd (o : xalu) : list xinst :=
  if 0 <? rdx_ then [Alu o (gpq rdx_) (Imm imm)] else [Alu o (rbp_reg_q rd) (Imm imm)].

Definition emit_addi : list xinst :=
  if rd =? 0 then []
  else if rs1 =? 0 then emit_li_rd imm
  else if rd =? rs1 then emit_alu_imm_rd x_add
  else if imm =? 0 then emit_mv_rd_rs1
  else if (0 <? rdx_) && (0 <? rs1x) then [Lea (gpq rdx_) rs1x None imm]
  else emit_mv_rd_rs1 ++ emit_alu_imm_rd x_add.

Definition emit_slti_sltiu (c : xcond) (zero : bool) : list xinst :=
  if rd =? 0 then []
  else if rs1 =? 0 then emit_li_rd (if zero then 1 else 0)
  else
    (if 0 <? rs1x then [Cmp (gpq rs1x) (Imm imm)] else [Cmp (rbp_reg_q rs1) (Imm imm)]) ++ emit_set_rd c.

Definition emit_slti : list xinst := emit_slti_sltiu kCondL (0 <? imm).
Definition emit_sltiu : list xinst := emit_slti_sltiu kCondB (0 <? u64 imm).

Definition emit_logic_imm (o : xalu) : list xinst :=
  if rd =? rs1 then emit_alu_imm_rd o else emit_mv_rd_rs1 ++ emit_alu_imm_rd o.

Definition emit_andi : list xinst :=
  if rd =? 0 then [] else if rs1 =? 0 then emit_zero_rd else emit_logic_imm x_and.
Definition emit_ori : list xinst :=
  if rd =? 0 then [] else if rs1 =? 0 then emit_li_rd imm else emit_logic_imm x_or.
Definition emit_xori : list xinst :=
  if rd =? 0 then [] else if rs1 =? 0 then emit_li_rd imm else emit_logic_imm x_xor.

(** [slli], [srli], [srai]. *)
Definition emit_shift_imm (o : xshift) : list xinst :=
  let shift := if 0 <? rdx_ then [Shift o (gpq rdx_) (count imm)] else [Shift o (rbp_reg_q rd) (count imm)] in
  if rd =? 0 then []
  else if rs1 =? 0 then emit_zero_rd
  else if rd =? rs1 then shift
  else emit_mv_rd_rs1 ++ shift.

Definition emit_slli : list xinst := emit_shift_imm x_shl.
Definition emit_srli : list xinst := emit_shift_imm x_shr.
Definition emit_srai : list xinst := emit_shift_imm x_sar.

Definition emit_addiw : list xinst :=
  if rd =? 0 then []
  else if rs1 =? 0 then
    (if 0 <? rdx_ then [Mov (gpd rdx_) (Imm imm)] else [Mov (rbp_reg_d rd) (Imm imm)]) ++ emit_sx_32_rd
  else if rd =? rs1 then
    (if 0 <? rdx_ then [Alu x_add (gpd rdx_) (Imm imm)] else [Alu x_add (rbp_reg_d rd) (Imm imm)]) ++ emit_sx_32_rd
  else if rdx_ <? 0 then
    emit_mv_eax_rs1 ++ [Alu x_add eax (Imm imm); Movsxd rax eax; Mov (rbp_reg_q rd) rax]
  else emit_mv_rd_rs1_32 ++ [Alu x_add (gpd rdx_) (Imm imm)] ++ emit_sx_32_rd.

(** [slliw], [srliw], [sraiw]. *)
Definition emit_shiftw_imm (o : xshift) : list xinst :=
  if rd =? 0 then []
  else if rs1 =? 0 then emit_zero_rd
  else if rd =? rs1 then
    (if 0 <? rdx_ then [Shift o (gpd rdx_) (count imm)] else [Shift o (rbp_reg_d rd) (count imm)]) ++ emit_sx_32_rd
  else if rdx_ <? 0 then
    emit_mv_eax_rs1 ++ [Shift o eax (count imm); Movsxd rax eax; Mov (rbp_reg_q rd) rax]
  else emit_mv_rd_rs1_32 ++ [Shift o (gpd rdx_) (count imm)] ++ emit_sx_32_rd.

Definition emit_slliw : list xinst := emit_shiftw_imm x_shl.
Definition emit_srliw : list xinst := emit_shiftw_imm x_shr.
Definition emit_sraiw : list xinst := emit_shiftw_imm x_sar.

Definition emit_lui : list xinst := if rd =? 0 then [] else emit_li_rd imm.

(** ** Division

    The labels are local to an instruction's code: [out] is 0, [div1] or
    [umul] 1, [div2] 2. *)
Definition emit_mulhsu : list xinst :=
  if rd =? 0 then []
  else if (rs1 =? 0) || (rs2 =? 0) then emit_zero_rd
  else
    (if negb (rdx_ =? 2) || ((rs1x =? 2) || (rs2x =? 2)) then [Mov (rbp_reg_q 1) rdx] else []) ++
    emit_mv_rax_rs1 ++ [Test rax rax; Jcc kCondNS (Lab 1); Neg rax] ++
    (if 0 <? rs2x then [Mul1 false (gpq rs2x)] else [Mov rcx (rbp_reg_q rs2); Mul1 false rcx]) ++
    [Alu x_xor rdx (Imm (-1)); Mov rcx rdx] ++
    (if (rs1x =? 2) || (rs2x =? 2) then [Mov rdx (rbp_reg_q 1)] else []) ++
    emit_mv_rax_rs1 ++
    (if 0 <? rs2x then [Imul rax (gpq rs2x)] else [Imul rax (rbp_reg_q rs2)]) ++
    [Test rax rax; Set_ kCondE dl; Movzx edx dl; Lea rdx 2 (Some 1) 0; Jmp (Lab 0); Bind (Lab 1)] ++
    (if 0 <? rs2x then [Mul1 false (gpq rs2x)] else [Mov rcx (rbp_reg_q rs2); Mul1 false rcx]) ++
    [Bind (Lab 0)] ++
    (if 0 <? rdx_ then if negb (rdx_ =? 2) then [Mov (gpq rdx_) rdx] else [] else [Mov (rbp_reg_q rd) rdx]) ++
    (if negb (rdx_ =? 2) then [Mov rdx (rbp_reg_q 1)] else []).

(** The cases with [x0] an operand, common to the divisions. *)
Definition emit_div_zero (code : list xinst) : list xinst :=
  if rd =? 0 then []
  else if rs2 =? 0 then if 0 <? rdx_ then [Mov (gpq rdx_) (Imm (-1))] else [Mov (rbp_reg_q rd) (Imm (-1))]
  else if rs1 =? 0 then emit_zero_rd
  else code.

Definition emit_save_rdx : list xinst := if negb (rdx_ =? 2) then [Mov rcx rdx] else [].
Definition emit_restore_rdx : list xinst := if negb (rdx_ =? 2) then [Mov rdx rcx] else [].

(** [rs1] and [rs2] compared with a register and an immediate. *)
Definition emit_cmp_rs1 (w : Z) (a : xarg) : list xinst :=
  if 0 <? rs1x then [Cmp (gp w rs1x) a] else [Cmp (rbp_reg w rs1) a].
Definition emit_cmp_rs2 (w : Z) (a : xarg) : list xinst :=
  if 0 <? rs2x then [Cmp (gp w rs2x) a] else [Cmp (rbp_reg w rs2) a].

(** The zero test of the divisor: of all 64 bits of a register. *)
Definition emit_test_rs2 (w : Z) : list xinst :=
  if 0 <? rs2x then [Test (gpq rs2x) (gpq rs2x)] else [Cmp (rbp_reg w rs2) (Imm 0)].
Definition emit_div1_rs2 (signed : bool) (w : Z) : list xinst :=
  if 0 <? rs2x then [Div1 signed (gp w rs2x)] else [Div1 signed (rbp_reg w rs2)].

Definition emit_result_rax : list xinst :=
  if 0 <? rdx_ then [Mov (gpq rdx_) rax] else [Mov (rbp_reg_q rd) rax].
Definition emit_result_rdx : list xinst :=
  if 0 <? rdx_ then if negb (rdx_ =? 2) then [Mov (gpq rdx_) rdx] else [] else [Mov (rbp_reg_q rd) rdx].
Definition emit_result_eax : list xinst :=
  if 0 <? rdx_ then [Movsxd (gpq rdx_) eax] else [Movsxd rax eax; Mov (rbp_reg_q rd) rax].
Definition emit_result_edx : list xinst :=
  if 0 <? rdx_ then [Movsxd (gpq rdx_) edx] else [Movsxd rdx edx; Mov (rbp_reg_q rd) rdx].

Definition emit_div : list xinst :=
  emit_div_zero
    ([Mov rax (Imm (- 2 ^ 63))] ++ emit_cmp_rs1 64 rax ++ [Jcc kCondNE (Lab 1)] ++
     emit_cmp_rs2 64 (Imm (-1)) ++ [Jcc kCondE (Lab 0); Bind (Lab 1)] ++
     emit_test_rs2 64 ++ [Jcc kCondNE (Lab 2); Mov rax (Imm (-1)); Jmp (Lab 0); Bind (Lab 2)] ++
     emit_mv_rax_rs1 ++ emit_save_rdx ++ [Cqo] ++ emit_div1_rs2 true 64 ++ emit_restore_rdx ++
     [Bind (Lab 0)] ++ emit_result_rax).

Definition emit_rem : list xinst :=
  emit_div_zero
    (emit_save_rdx ++ [Mov rax (Imm (- 2 ^ 63))] ++ emit_cmp_rs1 64 rax ++ [Jcc kCondNE (Lab 1); Alu x_xor edx edx] ++
     emit_cmp_rs2 64 (Imm (-1)) ++ [Jcc kCondE (Lab 0); Bind (Lab 1)] ++ emit_mv_rax_rs1 ++
     emit_test_rs2 64 ++ [Jcc kCondNE (Lab 2); Mov rdx rax; Jmp (Lab 0); Bind (Lab 2); Cqo] ++
     emit_div1_rs2 true 64 ++ [Bind (Lab 0)] ++ emit_result_rdx ++ emit_restore_rdx).

Definition emit_divu : list xinst :=
  emit_div_zero
    (emit_test_rs2 64 ++ [Jcc kCondNE (Lab 1); Mov rax (Imm (-1)); Jmp (Lab 0); Bind (Lab 1)] ++
     emit_mv_rax_rs1 ++ emit_save_rdx ++ [Alu x_xor rdx rdx] ++ emit_div1_rs2 false 64 ++ emit_restore_rdx ++
     [Bind (Lab 0)] ++ emit_result_rax).

Definition emit_remu : list xinst :=
  emit_div_zero
    (emit_save_rdx ++ emit_mv_rax_rs1 ++ emit_test_rs2 64 ++
     [Jcc kCondNE (Lab 1); Mov rdx rax; Jmp (Lab 0); Bind (Lab 1); Alu x_xor rdx rdx] ++
     emit_div1_rs2 false 64 ++ [Bind (Lab 0)] ++ emit_result_rdx ++ emit_restore_rdx).

Definition emit_divw : list xinst :=
  emit_div_zero
    ([Mov eax (Imm (- 2 ^ 31))] ++ emit_cmp_rs1 32 eax ++ [Jcc kCondNE (Lab 1)] ++
     emit_cmp_rs2 32 (Imm (-1)) ++ [Jcc kCondE (Lab 0); Bind (Lab 1)] ++
     emit_test_rs2 32 ++ [Jcc kCondNE (Lab 2); Mov eax (Imm (-1)); Jmp (Lab 0); Bind (Lab 2)] ++
     emit_mv_eax_rs1 ++ emit_save_rdx ++ [Cdq] ++ emit_div1_rs2 true 32 ++ emit_restore_rdx ++
     [Bind (Lab 0)] ++ emit_result_eax).

Definition emit_remw : list xinst :=
  emit_div_zero
    (emit_save_rdx ++ [Mov eax (Imm (- 2 ^ 31))] ++ emit_cmp_rs1 32 eax ++ [Jcc kCondNE (Lab 1); Alu x_xor edx edx] ++
     emit_cmp_rs2 32 (Imm (-1)) ++ [Jcc kCondE (Lab 0); Bind (Lab 1)] ++ emit_mv_eax_rs1 ++
     emit_test_rs2 32 ++ [Jcc kCondNE (Lab 2); Mov edx eax; Jmp (Lab 0); Bind (Lab 2); Cdq] ++
     emit_div1_rs2 true 32 ++ [Bind (Lab 0)] ++ emit_result_edx ++ emit_restore_rdx).

Definition emit_divuw : list xinst :=
  emit_div_zero
    (emit_test_rs2 32 ++ [Jcc kCondNE (Lab 1); Mov eax (Imm (-1)); Jmp (Lab 0); Bind (Lab 1)] ++
     emit_mv_eax_rs1 ++ emit_save_rdx ++ [Alu x_xor edx edx] ++ emit_div1_rs2 false 32 ++ emit_restore_rdx ++
     [Bind (Lab 0)] ++ emit_result_eax).

Definition emit_remuw : list xinst :=
  emit_div_zero
    (emit_save_rdx ++ emit_mv_eax_rs1 ++ emit_test_rs2 32 ++
     [Jcc kCondNE (Lab 1); Mov edx eax; Jmp (Lab 0); Bind (Lab 1); Alu x_xor edx edx] ++
     emit_div1_rs2 false 32 ++ [Bind (Lab 0)] ++ emit_result_edx ++ emit_restore_rdx).

(** ** Loads and stores

    [use_mmu] is false and never set: an access is a host access at the
    guest's address.  [ld] is the host's load to a 64- or a 32-bit register. *)
Definition emit_load (w : Z) (ld : xarg -> xarg -> xinst) (wd : Z) : list xinst :=
  if rd =? 0 then []
  else if 0 <? rdx_ then
    if 0 <? rs1x then [ld (gp wd rdx_) (mem_ptr w rs1x imm)]
    else [Mov rax (rbp_reg_q rs1); ld (gp wd rdx_) (mem_ptr w 0 imm)]
  else
    (if 0 <? rs1x then [ld (gp wd 0) (mem_ptr w rs1x imm)]
     else [Mov rax (rbp_reg_q rs1); ld (gp wd 0) (mem_ptr w 0 imm)]) ++
    [Mov (rbp_reg_q rd) rax].

Definition emit_ld : list xinst := emit_load 64 Mov 64.
Definition emit_lw : list xinst := emit_load 32 Movsxd 64.
Definition emit_lwu : list xinst := emit_load 32 Mov 32.
Definition emit_lh : list xinst := emit_load 16 Movsx 64.
Definition emit_lhu : list xinst := emit_load 16 Movzx 32.
Definition emit_lb : list xinst := emit_load 8 Movsx 64.
Definition emit_lbu : list xinst := emit_load 8 Movzx 32.

Definition emit_store (w : Z) : list xinst :=
  if rs2 =? 0 then
    if 0 <? rs1x then [Mov (mem_ptr w rs1x imm) (Imm 0)] else [Mov rax (rbp_reg_q rs1); Mov (mem_ptr w 0 imm) (Imm 0)]
  else if 0 <? rs2x then
    if 0 <? rs1x then [Mov (mem_ptr w rs1x imm) (gp w rs2x)]
    else [Mov rax (rbp_reg_q rs1); Mov (mem_ptr w 0 imm) (gp w rs2x)]
  else
    [Mov rcx (rbp_reg_q rs2)] ++
    (if 0 <? rs1x then [Mov (mem_ptr w rs1x imm) (gp w 1)]
     else [Mov rax (rbp_reg_q rs1); Mov (mem_ptr w 0 imm) (gp w 1)]).

Definition emit_sd : list xinst := emit_store 64.
Definition emit_sw : list xinst := emit_store 32.
Definition emit_sh : list xinst := emit_store 16.
Definition emit_sb : list xinst := emit_store 8.

(** ** Comparison of a branch *)
Definition emit_cmp : list xinst :=
  if rs1 =? 0 then
    [Alu x_xor eax eax] ++ (if 0 <? rs2x then [Cmp rax (gpq rs2x)] else [Cmp rax (rbp_reg_q rs2)])
  else if rs2 =? 0 then
    if 0 <? rs1x then [Cmp (gpq rs1x) (Imm 0)] else [Cmp (rbp_reg_q rs1) (Imm 0)]
  else if 0 <? rs1x then
    if 0 <? rs2x then [Cmp (gpq rs1x) (gpq rs2x)] else [Cmp (gpq rs1x) (rbp_reg_q rs2)]
  else
    if 0 <? rs2x then [Cmp (rbp_reg_q rs1) (gpq rs2x)]
    else [Mov rax (rbp_reg_q rs1); Cmp rax (rbp_reg_q rs2)].

(** ** Pseudo-instructions *)

(** [j_imm] is added to [pc] as a signed number; [inst] is the second of the pair. *)
Definition emit_la : list xinst :=
  if rd =? 0 then []
  else if 0 <? rdx_ then [Mov (gpq rdx_) (Imm (u64 (j_pc dec + imm)))]
  else [Mov rax (Imm (u64 (j_pc dec + imm))); Mov (rbp_reg_q rd) rax].

Definition emit_addiwz : list xinst :=
  if rd =? 0 then []
  else if 0 <? rdx_ then [Alu x_add (gpd rdx_) (Imm imm); Movzx (gpq rdx_) (gpd rdx_)]
  else [Mov eax (rbp_reg_d rd); Alu x_add eax (Imm imm); Mov (rbp_reg_q rd) rax].
End Emitters.
