(* ===== verification/JitSound.v ===== *)
(** * JitSound: the emitted host code computes what the interpreter does.

    A host state represents the guest's registers when each is in its host
    register or in memory.  An operand that is the place of a guest register
    is [den (Q r)] or [den (D r)]; the lemmas [wp_*] run one host instruction
    on a representation, whatever the places are. *)

From Stdlib Require Import ZArith Lia Bool List.
From stdpp Require Import base numbers list.
From S2P Require Import Prelude Proxy Host Jit.

#[local] Arguments x86_reg : simpl never.
#[local] Arguments wrap : simpl never.

(** ** The places of the registers *)
Lemma x86_reg_cases r : 0 <= r < 32 ->
  (r = 0 /\ x86_reg r = 0) \/ (r <> 0 /\ x86_reg r = -1) \/ (r <> 0 /\ 2 <= x86_reg r <= 15).
Proof.
  intros Hr. unfold x86_reg; cbn [switch].
  repeat match goal with |- context [if ?a =? ?b then _ else _] => destruct (Z.eqb_spec a b); [lia |] end. lia.
Qed.

Definition guest_regs : list Z := map Z.of_nat (seq 0 32).

Lemma guest_regs_in r : 0 <= r < 32 -> In r guest_regs.
Proof. intros Hr. apply in_map_iff. exists (Z.to_nat r). split; [lia |]. apply in_seq. lia. Qed.

Lemma x86_reg_inj r r' : 0 <= r < 32 -> 0 <= r' < 32 -> 0 < x86_reg r -> x86_reg r = x86_reg r' -> r = r'.
Proof.
  intros Hr Hr' H0 E.
  assert (T : forallb (fun r => forallb (fun r' => implb ((0 <? x86_reg r) && (x86_reg r =? x86_reg r')) (r =? r'))
                guest_regs) guest_regs = true) by (vm_compute; reflexivity).
  rewrite forallb_forall in T. specialize (T r (guest_regs_in r Hr)). cbv beta in T.
  rewrite forallb_forall in T. specialize (T r' (guest_regs_in r' Hr')). cbv beta in T.
  rewrite <- E, Z.eqb_refl in T. destruct (Z.ltb_spec 0 (x86_reg r)); [| lia]. apply Z.eqb_eq, T.
Qed.

Definition V (R : list Z) (r : Z) : Z := nth (Z.to_nat r) R 0.

#[local] Arguments V : simpl never.

Definition repr (R : list Z) (x : xstate) : Prop :=
  forall r, 0 <= r < 32 -> (if 0 <? x86_reg r then xreg x (x86_reg r) else xslot x r) = V R r.

Record guest_ok (R : list Z) : Prop := {
  g_length : length R = 32%nat;
  g_range : Forall (fun v => 0 <= v < 2 ^ 64) R }.

Lemma V_range R r : guest_ok R -> 0 <= V R r < 2 ^ 64.
Proof.
  intros [_ H]. unfold V. destruct (nth_in_or_default (Z.to_nat r) R 0) as [Hin | ->]; [| lia].
  rewrite List.Forall_forall in H. exact (H _ Hin).
Qed.

Lemma V_insert R r r' v : guest_ok R -> 0 <= r < 32 -> 0 <= r' < 32 ->
  V (<[Z.to_nat r := v]> R) r' = if r' =? r then v else V R r'.
Proof.
  intros [Hl _] Hr Hr'. unfold V. rewrite !nth_lookup. destruct (Z.eqb_spec r' r) as [-> | Hne].
  - rewrite list_lookup_insert_eq by lia. reflexivity.
  - rewrite list_lookup_insert_ne by lia. reflexivity.
Qed.

Lemma guest_insert R r v : guest_ok R -> 0 <= v < 2 ^ 64 -> guest_ok (<[Z.to_nat r := v]> R).
Proof. intros [Hl Hf] Hv. split; [rewrite length_insert; exact Hl | apply Forall_insert; assumption]. Qed.

(** ** Representations

    The guest's registers and memory with the scratch registers, the place in
    the register file of [ra] (which is in [rdx]), the processor's [pc], the
    stack and the flags. *)
Record arep := mkA {
  aR : list Z; amem : Z -> Z; aa : Z; ac : Z; as1 : Z; apc : Z; astk : list Z; af : flags }.

Record rep (A : arep) (x : xstate) : Prop := {
  rep_repr : repr (aR A) x;
  rep_guest : guest_ok (aR A);
  rep_mem : xmem x = amem A;
  rep_a : xreg x 0 = aa A;
  rep_c : xreg x 1 = ac A;
  rep_s1 : xslot x 1 = as1 A;
  rep_pc : xpc x = apc A;
  rep_stk : xstack x = astk A;
  rep_f : xflags x = af A;
  rep_a_range : 0 <= aa A < 2 ^ 64;
  rep_c_range : 0 <= ac A < 2 ^ 64;
  rep_s1_range : 0 <= as1 A < 2 ^ 64 }.

Section Setters.
Context (A : arep).
Definition set_aR (R : list Z) : arep := mkA R (amem A) (aa A) (ac A) (as1 A) (apc A) (astk A) (af A).
Definition set_amem (m : Z -> Z) : arep := mkA (aR A) m (aa A) (ac A) (as1 A) (apc A) (astk A) (af A).
Definition set_aa (v : Z) : arep := mkA (aR A) (amem A) v (ac A) (as1 A) (apc A) (astk A) (af A).
Definition set_ac (v : Z) : arep := mkA (aR A) (amem A) (aa A) v (as1 A) (apc A) (astk A) (af A).
Definition set_as1 (v : Z) : arep := mkA (aR A) (amem A) (aa A) (ac A) v (apc A) (astk A) (af A).
Definition set_apc (v : Z) : arep := mkA (aR A) (amem A) (aa A) (ac A) (as1 A) v (astk A) (af A).
Definition set_af (f : flags) : arep := mkA (aR A) (amem A) (aa A) (ac A) (as1 A) (apc A) (astk A) f.
End Setters.

(** Operands: the low [w] bits of a guest register's place, of [rax] and of
    [rcx]; the place of [ra]; [pc]; memory at a guest register and at [rax]. *)
Inductive aop := Rg (w r : Z) | Ax (w : Z) | Cx (w : Z) | S1 | PC | Mr (w r d : Z) | Ma (w d : Z) | I (v : Z).

Abbreviation Q := (Rg 64).
Abbreviation D := (Rg 32).

Definition den (o : aop) : xarg :=
  match o with
  | Rg w r => if 0 <? x86_reg r then gp w (x86_reg r) else rbp_reg w r
  | Ax w => gp w 0 | Cx w => gp w 1 | S1 => rbp_reg 64 1 | PC => rbp_pc
  | Mr w r d => mem_ptr w (x86_reg r) d | Ma w d => mem_ptr w 0 d | I v => Imm v
  end.

Definition op_ok (o : aop) : Prop :=
  match o with
  | Rg w r => 0 <= r < 32 /\ 0 < w <= 64 | Ax w | Cx w => 0 < w <= 64
  | Mr _ r _ => 0 <= r < 32 /\ (0 <? x86_reg r) = true | _ => True
  end.

Definition low (w v : Z) : Z := if w =? 64 then v else wrap w v.

Definition aget (w : Z) (A : arep) (o : aop) : Z :=
  match o with
  | Rg w r => low w (V (aR A) r)
  | Ax w => low w (aa A) | Cx w => low w (ac A) | S1 => as1 A | PC => apc A
  | Mr w r d => read_T w (amem A) (u64 (V (aR A) r + d))
  | Ma w d => read_T w (amem A) (u64 (aa A + d))
  | I v => wrap w v
  end.

(** What a write of [w] bits leaves in a host register, in a guest register's place. *)
Definition xmerge (w old v : Z) : Z := if 32 <=? w then wrap w v else merge w old v.
Definition dput (w r old v : Z) : Z := if 0 <? x86_reg r then xmerge w old v else merge w old v.

Definition aput (o : aop) (v : Z) (A : arep) : arep :=
  match o with
  | Rg w r => set_aR A (<[Z.to_nat r := if w =? 64 then u64 v else dput w r (V (aR A) r) v]> (aR A))
  | Ax w => set_aa A (xmerge w (aa A) v)
  | Cx w => set_ac A (xmerge w (ac A) v)
  | S1 => set_as1 A (u64 v)
  | PC => set_apc A (u64 v)
  | Mr w r d => set_amem A (write_bytes (bytes_of w) (amem A) (u64 (V (aR A) r + d)) v)
  | Ma w d => set_amem A (write_bytes (bytes_of w) (amem A) (u64 (aa A + d)) v)
  | I _ => A
  end.

Lemma u32_range_64 v : 0 <= u32 v < 2 ^ 64.
Proof. pose proof (wrap_range 32 ltac:(lia) v). lia. Qed.

Lemma merge_range w old v : 0 < w <= 64 -> 0 <= old < 2 ^ 64 -> 0 <= merge w old v < 2 ^ 64.
Proof.
  intros Hw Ho. unfold merge. pose proof (wrap_range w ltac:(lia) v) as Hv.
  pose proof (Z.pow_pos_nonneg 2 w ltac:(lia) ltac:(lia)).
  pose proof (Z.div_mod old (2 ^ w) ltac:(lia)). pose proof (Z.mod_pos_bound old (2 ^ w) ltac:(lia)).
  assert (E : 2 ^ 64 = 2 ^ (64 - w) * 2 ^ w) by (rewrite <- Z.pow_add_r by lia; f_equal; lia).
  pose proof (Z.div_pos old (2 ^ w) ltac:(lia) ltac:(lia)).
  assert (old / 2 ^ w < 2 ^ (64 - w)) by (apply Z.div_lt_upper_bound; lia). nia.
Qed.

Lemma xmerge_range w old v : 0 < w <= 64 -> 0 <= old < 2 ^ 64 -> 0 <= xmerge w old v < 2 ^ 64.
Proof.
  intros Hw Ho. unfold xmerge. destruct (32 <=? w); [| apply merge_range; assumption].
  pose proof (wrap_range w ltac:(lia) v). pose proof (Z.pow_le_mono_r 2 w 64 ltac:(lia) ltac:(lia)). lia.
Qed.

Lemma dput_range w r old v : 0 < w <= 64 -> 0 <= old < 2 ^ 64 -> 0 <= dput w r old v < 2 ^ 64.
Proof. intros Hw Ho. unfold dput. destruct (0 <? _); [apply xmerge_range | apply merge_range]; assumption. Qed.

Lemma wrap_merge w old v : 0 < w -> wrap w (merge w old v) = wrap w v.
Proof. intros Hw. unfold merge, wrap at 1. rewrite Z.add_comm, Z_mod_plus_full. apply wrap_wrap. Qed.

Lemma wrap_xmerge w old v : 0 < w -> wrap w (xmerge w old v) = wrap w v.
Proof. intros Hw. unfold xmerge. destruct (32 <=? w); [apply wrap_wrap | apply wrap_merge; exact Hw]. Qed.

Lemma wrap_dput w r old v : 0 < w -> wrap w (dput w r old v) = wrap w v.
Proof. intros Hw. unfold dput. destruct (0 <? _); [apply wrap_xmerge | apply wrap_merge]; exact Hw. Qed.

Lemma merge_64 old v : 0 <= old < 2 ^ 64 -> merge 64 old v = u64 v.
Proof. intros Ho. unfold merge. rewrite Z.div_small by exact Ho. reflexivity. Qed.

Section Get_put.
Context (A : arep) (x : xstate) (HA : rep A x).

Lemma rep_reg r : 0 <= r < 32 -> (0 <? x86_reg r) = true -> xreg x (x86_reg r) = V (aR A) r.
Proof using HA. intros Hr Hm. pose proof (rep_repr _ _ HA r Hr) as H. rewrite Hm in H. exact H. Qed.

Lemma rep_slot r : 0 <= r < 32 -> (0 <? x86_reg r) = false -> xslot x r = V (aR A) r.
Proof using HA. intros Hr Hm. pose proof (rep_repr _ _ HA r Hr) as H. rewrite Hm in H. exact H. Qed.

Lemma low_wrap w v : 0 <= v < 2 ^ 64 -> wrap w v = low w v.
Proof using. intros Hv. unfold low. destruct (Z.eqb_spec w 64) as [-> |]; [apply wrap_small, Hv | reflexivity]. Qed.

Lemma xget_den w o : op_ok o -> xget w x (den o) = aget w A o.
Proof using HA.
  destruct HA as [_ Hg Hm Ha Hc Hs Hp _ _ Ra Rc Rs]. intros Ho. destruct o as [w' r | w' | w' | | | w' r d | w' d | v];
    cbn [den aget op_ok] in *.
  - destruct (0 <? x86_reg r) eqn:E; cbn [xget]; [rewrite rep_reg | rewrite rep_slot]; try tauto;
      apply low_wrap, V_range, Hg.
  - cbn [xget]. rewrite Ha. apply low_wrap, Ra.
  - cbn [xget]. rewrite Hc. apply low_wrap, Rc.
  - cbn [xget]. rewrite Hs. apply wrap_small, Rs.
  - exact Hp.
  - cbn [xget]. unfold xaddr. rewrite rep_reg, Hm by tauto. reflexivity.
  - cbn [xget]. unfold xaddr. rewrite Ha, Hm. reflexivity.
  - reflexivity.
Qed.

Lemma rep_put_reg r v :
  0 <= r < 32 -> 0 < x86_reg r -> 0 <= v < 2 ^ 64 -> rep (set_aR A (<[Z.to_nat r := v]> (aR A))) (set_xreg x (x86_reg r) v).
Proof using HA.
  intros Hr Hx Hv. destruct HA as [H1 H2 H3 H4 H5 H6 H7 H8 H9]. split; cbn; try assumption.
  - intros r' Hr'. cbn. rewrite V_insert by assumption. unfold upd. destruct (Z.ltb_spec 0 (x86_reg r')).
    + destruct (Z.eqb_spec (x86_reg r') (x86_reg r)) as [E | E].
      * apply x86_reg_inj in E; [| assumption..]. subst r'. rewrite Z.eqb_refl. reflexivity.
      * destruct (Z.eqb_spec r' r) as [-> | _]; [contradiction |]. rewrite <- H1 by assumption.
        destruct (Z.ltb_spec 0 (x86_reg r')); [reflexivity | lia].
    + destruct (Z.eqb_spec r' r) as [-> | _]; [lia |]. rewrite <- H1 by assumption.
      destruct (Z.ltb_spec 0 (x86_reg r')); [lia | reflexivity].
  - apply guest_insert; assumption.
  - unfold upd. destruct (x86_reg_cases r Hr) as [? | [? | ?]], (Z.eqb_spec 0 (x86_reg r)); try lia; assumption.
  - unfold upd. destruct (x86_reg_cases r Hr) as [? | [? | ?]], (Z.eqb_spec 1 (x86_reg r)); try lia; assumption.
Qed.

Lemma rep_put_slot r v :
  0 <= r < 32 -> x86_reg r <= 0 -> 0 <= v < 2 ^ 64 -> rep (set_aR A (<[Z.to_nat r := v]> (aR A))) (set_xslot x r v).
Proof using HA.
  intros Hr Hx Hv. destruct HA as [H1 H2 H3 H4 H5 H6 H7 H8 H9]. split; cbn; try assumption; [| apply guest_insert; assumption |].
  - intros r' Hr'. cbn. rewrite V_insert by assumption. unfold upd. rewrite <- H1 by assumption.
    destruct (Z.eqb_spec r' r) as [-> | _]; [| reflexivity]. destruct (Z.ltb_spec 0 (x86_reg r)); [lia | reflexivity].
  - unfold upd. destruct (Z.eqb_spec 1 r) as [<- | _]; [vm_compute in Hx; congruence | assumption].
Qed.

(** A scratch register, the place of [ra]: no guest register is there. *)
Lemma rep_put_scratch i v :
  i = 0 \/ i = 1 -> 0 <= v < 2 ^ 64 -> rep (if i =? 0 then set_aa A v else set_ac A v) (set_xreg x i v).
Proof using HA.
  intros Hi Hv. destruct HA as [H1 H2 H3 H4 H5 H6 H7 H8 H9].
  assert (Hrepr : repr (aR A) (set_xreg x i v)).
  { intros r Hr. cbn. rewrite <- H1 by exact Hr. unfold upd. destruct (Z.ltb_spec 0 (x86_reg r)); [| reflexivity].
    destruct (x86_reg_cases r Hr), (Z.eqb_spec (x86_reg r) i); try lia; reflexivity. }
  destruct Hi as [-> | ->]; split; cbn; try assumption; reflexivity.
Qed.

Lemma rep_put_s1 v : 0 <= v < 2 ^ 64 -> rep (set_as1 A v) (set_xslot x 1 v).
Proof using HA.
  intros Hv. destruct HA as [H1 H2 H3 H4 H5 H6 H7 H8 H9]. split; cbn; try assumption; try reflexivity.
  intros r Hr. cbn. rewrite <- H1 by exact Hr. unfold upd. destruct (Z.eqb_spec r 1) as [-> |]; reflexivity.
Qed.

Lemma rep_put_mem m : rep (set_amem A m) (set_xmem x m).
Proof using HA. destruct HA as [H1 H2 H3 H4 H5 H6 H7 H8 H9]. split; try assumption; reflexivity. Qed.

Lemma rep_put_pc v : rep (set_apc A v) (set_xpc x v).
Proof using HA. destruct HA as [H1 H2 H3 H4 H5 H6 H7 H8 H9]. split; try assumption; reflexivity. Qed.

Lemma rep_flags f : rep (set_af A f) (set_xflags x f).
Proof using HA. destruct HA as [H1 H2 H3 H4 H5 H6 H7 H8 H9]. split; try assumption; reflexivity. Qed.

Lemma xput_den o v : op_ok o -> rep (aput o v A) (xput (den o) v x).
Proof using HA.
  pose proof (rep_guest _ _ HA) as Hg. pose proof (wrap_range 64 ltac:(lia) v) as Hv.
  intros Ho. destruct o as [w r | w | w | | | w r d | w d | i]; cbn [den aput op_ok] in *.
  - destruct Ho as [Hr Hw]. pose proof (V_range _ r Hg) as HV.
    destruct (Z.ltb_spec 0 (x86_reg r)) as [Hx | Hx]; cbn [xput].
    + rewrite rep_reg by (first [assumption | apply Z.ltb_lt; assumption]).
      destruct (Z.eqb_spec w 64) as [-> | _]; [apply rep_put_reg; assumption |].
      pose proof (xmerge_range w (V (aR A) r) v Hw HV) as HM. unfold dput.
      destruct (Z.ltb_spec 0 (x86_reg r)); [| lia]. apply rep_put_reg; assumption.
    + rewrite rep_slot by (first [assumption | apply Z.ltb_ge; assumption]).
      destruct (Z.eqb_spec w 64) as [-> | _]; [apply rep_put_slot; assumption |].
      pose proof (merge_range w (V (aR A) r) v Hw HV) as HM. unfold dput.
      destruct (Z.ltb_spec 0 (x86_reg r)); [lia |]. apply rep_put_slot; assumption.
  - cbn [xput]. rewrite (rep_a _ _ HA). apply (rep_put_scratch 0); [lia |]. apply xmerge_range; [exact Ho | apply HA].
  - cbn [xput]. rewrite (rep_c _ _ HA). apply (rep_put_scratch 1); [lia |]. apply xmerge_range; [exact Ho | apply HA].
  - apply rep_put_s1, Hv.
  - apply rep_put_pc.
  - cbn [xput]. unfold xaddr. rewrite rep_reg, (rep_mem _ _ HA) by tauto. apply rep_put_mem.
  - cbn [xput]. unfold xaddr. rewrite (rep_a _ _ HA), (rep_mem _ _ HA). apply rep_put_mem.
  - exact HA.
Qed.
End Get_put.

(** ** Running code on representations *)
Definition runs (c : list xinst) (k : option label) (x : xstate) (post : option label -> xstate -> Prop) : Prop :=
  match host_go c k x with Some (x', k') => post k' x' | None => False end.

(** At the end of the code the registers are [R], the memory [m]; the rest of
    the processor is as it was in [A]. *)
Definition ends (A : arep) (R : list Z) (m : Z -> Z) (k : option label) (x : xstate) : Prop :=
  k = None /\ exists A', rep A' x /\ aR A' = R /\ amem A' = m /\ apc A' = apc A /\ astk A' = astk A.

Definition awidth (o : aop) : option Z :=
  match o with Rg w _ | Ax w | Cx w | Mr w _ _ | Ma w _ => Some w | S1 | PC => Some 64 | I _ => None end.
Definition a_is_mem (o : aop) : bool :=
  match o with Rg _ r => negb (0 <? x86_reg r) | S1 | PC | Mr _ _ _ | Ma _ _ => true | _ => false end.

Definition asize (d s : aop) : option Z :=
  w ← awidth d;
  match s with
  | I v => if imm32 v then Some w else None
  | _ => w' ← awidth s; if (w =? w') && negb (a_is_mem d && a_is_mem s) then Some w else None
  end.

Lemma xwidth_den o : xwidth (den o) = awidth o.
Proof. destruct o as [w r | | | | | | |]; cbn; try reflexivity; destruct (0 <? x86_reg r); reflexivity. Qed.

Lemma is_mem_den o : is_mem (den o) = a_is_mem o.
Proof. destruct o as [w r | | | | | | |]; cbn; try reflexivity; destruct (0 <? x86_reg r); reflexivity. Qed.

Lemma xsize_den d s : xsize (den d) (den s) = asize d s.
Proof.
  unfold xsize, asize. rewrite !xwidth_den, !is_mem_den.
  destruct (awidth d) as [w |]; [| reflexivity]. cbn [mbind option_bind].
  destruct s as [w' r | | | | | | | v]; try reflexivity; cbn [den a_is_mem]; destruct (0 <? x86_reg r); reflexivity.
Qed.

(** A register of the host, not a place in memory. *)
Definition is_reg (w : Z) (o : aop) : Prop := awidth o = Some w /\ a_is_mem o = false.

Lemma is_reg_den w o : is_reg w o -> exists r, den o = gp w r.
Proof.
  intros [Hw Hm]. rewrite <- xwidth_den in Hw. rewrite <- is_mem_den in Hm.
  destruct (den o) as [w' r | w' r | w' b d | | v]; try discriminate. injection Hw as ->. exists r. reflexivity.
Qed.

Lemma xput_u64 o v x : awidth o = Some 64 -> a_is_mem o = false -> xput (den o) (u64 v) x = xput (den o) v x.
Proof. intros Hw Hm. destruct (is_reg_den 64 o (conj Hw Hm)) as [r ->]. cbn. rewrite wrap_wrap. reflexivity. Qed.

Section Wp.
Context (A : arep) (x : xstate) (HA : rep A x) (c : list xinst) (post : option label -> xstate -> Prop).

Lemma runs_step i x1 : (forall l, i <> Jmp l) -> (forall cd l, i <> Jcc cd l) ->
  host_step i x = Some x1 -> runs c None x1 post -> runs (i :: c) None x post.
Proof using.
  intros H1 H2 E Hk. unfold runs. cbn [host_go].
  destruct i; try (rewrite E; exact Hk); [destruct (H1 l eq_refl) | destruct (H2 c0 l eq_refl)].
Qed.

Ltac step := eapply runs_step; [discriminate | discriminate | |].

Lemma wp_mov d s w dx sx :
  dx = den d -> sx = den s -> op_ok d -> op_ok s -> asize d s = Some w ->
  (forall x', rep (aput d (aget w A s) A) x' -> runs c None x' post) -> runs (Mov dx sx :: c) None x post.
Proof using HA.
  intros -> -> Hd Hs Hw Hk. step.
  - cbn [host_step]. assert (E : mov_size (den d) (den s) = Some w).
    { rewrite <- xsize_den in Hw. unfold mov_size. destruct (den d) as [w' r | | | |]; try exact Hw.
      destruct (den s) as [| | | | v]; try exact Hw. destruct (Z.eqb_spec w' 64) as [-> |]; [| exact Hw].
      unfold xsize in Hw. cbn in Hw. destruct (imm32 v); [exact Hw | discriminate]. }
    rewrite E. reflexivity.
  - rewrite (xget_den A x HA) by exact Hs. apply Hk, xput_den; assumption.
Qed.

(** A 64-bit immediate to a register. *)
Lemma wp_mov_imm d v dx :
  dx = den d -> op_ok d -> awidth d = Some 64 -> a_is_mem d = false ->
  (forall x', rep (aput d v A) x' -> runs c None x' post) -> runs (Mov dx (Imm v) :: c) None x post.
Proof using HA.
  intros -> Hd Hw Hm Hk. step.
  - cbn [host_step]. assert (E : mov_size (den d) (Imm v) = Some 64) by
      (destruct (is_reg_den 64 d (conj Hw Hm)) as [r ->]; reflexivity).
    rewrite E. reflexivity.
  - apply Hk. cbn [xget]. rewrite xput_u64 by assumption. apply xput_den; assumption.
Qed.

Lemma wp_alu o d s w dx sx :
  dx = den d -> sx = den s -> op_ok d -> op_ok s -> asize d s = Some w ->
  (forall x', rep (set_af (aput d (xalu_fn o (aget w A d) (aget w A s)) A) None) x' -> runs c None x' post) ->
  runs (Alu o dx sx :: c) None x post.
Proof using HA.
  intros -> -> Hd Hs Hw Hk. step; [cbn [host_step]; rewrite xsize_den, Hw; reflexivity |].
  rewrite !(xget_den A x HA) by assumption. apply Hk, rep_flags, xput_den; assumption.
Qed.

Lemma wp_imul d s w dx sx :
  dx = den d -> sx = den s -> op_ok d -> op_ok s -> asize d s = Some w -> a_is_mem d = false ->
  (forall x', rep (set_af (aput d (aget w A d * aget w A s) A) None) x' -> runs c None x' post) ->
  runs (Imul dx sx :: c) None x post.
Proof using HA.
  intros -> -> Hd Hs Hw Hm Hk. step; [cbn [host_step]; rewrite xsize_den, Hw, is_mem_den, Hm; reflexivity |].
  rewrite !(xget_den A x HA) by assumption. apply Hk, rep_flags, xput_den; assumption.
Qed.

(** The two results of a multiplication or a division, in [rax] and [rdx]. *)
Lemma rep_two q r x' :
  0 <= q < 2 ^ 64 -> 0 <= r < 2 ^ 64 -> x' = set_xflags (set_xreg (set_xreg x 0 q) 2 r) None ->
  rep (set_af (set_aR (set_aa A q) (<[Z.to_nat 1 := r]> (aR A))) None) x'.
Proof using HA.
  intros Hq Hr ->. apply (rep_flags (set_aR (set_aa A q) (<[Z.to_nat 1 := r]> (aR A)))).
  apply (rep_put_reg (set_aa A q) (set_xreg x 0 q)) with (r := 1); try lia; [| reflexivity].
  apply (rep_put_scratch A x HA 0); [lia | exact Hq].
Qed.

(** An operand of [mul] and [imul]. *)
Definition mul_src (sg : bool) (v : Z) : Z := if sg then s64 v else v.

Lemma wp_mul1 (sg : bool) s sx :
  sx = den s -> op_ok s -> awidth s = Some 64 ->
  (forall x', rep (set_af (set_aR (set_aa A (u64 (mul_src sg (aa A) * mul_src sg (aget 64 A s))))
       (<[Z.to_nat 1 := u64 (mul_src sg (aa A) * mul_src sg (aget 64 A s) / 2 ^ 64)]> (aR A))) None) x' -> runs c None x' post) ->
  runs (Mul1 sg sx :: c) None x post.
Proof using HA.
  intros -> Hs Hw Hk. step; [cbn [host_step]; rewrite xwidth_den, Hw; reflexivity |].
  rewrite (xget_den A x HA), (rep_a _ _ HA) by assumption. apply Hk.
  apply rep_two; [apply wrap_range; lia | apply wrap_range; lia | reflexivity].
Qed.

Lemma wp_div1 sg s sx w q r :
  sx = den s -> op_ok s -> awidth s = Some w -> w = 32 \/ w = 64 ->
  div_wide sg w (low w (aa A)) (low w (V (aR A) 1)) (aget w A s) = Some (q, r) ->
  (forall x', rep (set_af (set_aR (set_aa A (wrap w q)) (<[Z.to_nat 1 := wrap w r]> (aR A))) None) x' -> runs c None x' post) ->
  runs (Div1 sg sx :: c) None x post.
Proof using HA.
  intros -> Hs Hw Hww Hq Hk. pose proof (V_range _ 1 (rep_guest _ _ HA)). pose proof (rep_a_range _ _ HA).
  step.
  - cbn [host_step]. rewrite xwidth_den, Hw. cbn [mbind option_bind]. replace ((w =? 32) || (w =? 64)) with true by
      (destruct Hww as [-> | ->]; reflexivity).
    pose proof (rep_reg A x HA 1 ltac:(lia) ltac:(reflexivity)) as Hd. change (x86_reg 1) with 2 in Hd.
    rewrite (xget_den A x HA), (rep_a _ _ HA), Hd, !low_wrap, Hq by assumption. reflexivity.
  - assert (T : forall v, 0 <= wrap w v < 2 ^ 64).
    { intros v. destruct Hww as [-> | ->]; [pose proof (wrap_range 32 ltac:(lia) v); lia | apply wrap_range; lia]. }
    apply Hk, rep_two; [apply T | apply T | reflexivity].
Qed.

Lemma wp_cqo :
  (forall x', rep (set_aR A (<[Z.to_nat 1 := if s64 (aa A) <? 0 then 2 ^ 64 - 1 else 0]> (aR A))) x' -> runs c None x' post) ->
  runs (Cqo :: c) None x post.
Proof using HA.
  intros Hk. step; [reflexivity |]. rewrite (rep_a _ _ HA). apply Hk.
  apply (rep_put_reg A x HA 1); [lia | vm_compute; reflexivity | destruct (_ <? _); lia].
Qed.

Lemma wp_cdq :
  (forall x', rep (set_aR A (<[Z.to_nat 1 := if s32 (aa A) <? 0 then 2 ^ 32 - 1 else 0]> (aR A))) x' -> runs c None x' post) ->
  runs (Cdq :: c) None x post.
Proof using HA.
  intros Hk. step; [reflexivity |]. rewrite (rep_a _ _ HA). apply Hk.
  apply (rep_put_reg A x HA 1); [lia | vm_compute; reflexivity | destruct (_ <? _); lia].
Qed.

Lemma wp_neg d w dx :
  dx = den d -> op_ok d -> awidth d = Some w ->
  (forall x', rep (set_af (aput d (- aget w A d) A) None) x' -> runs c None x' post) -> runs (Neg dx :: c) None x post.
Proof using HA.
  intros -> Hd Hw Hk. step; [cbn [host_step]; rewrite xwidth_den, Hw; reflexivity |].
  rewrite (xget_den A x HA) by assumption. apply Hk, rep_flags, xput_den; assumption.
Qed.

Lemma wp_shift o d n w dx :
  dx = den d -> op_ok d -> awidth d = Some w ->
  (forall x', rep (set_af (aput d (xshift_fn o w (aget w A d) (match n with cl => ac A | count n => n end mod w)) A) None) x' ->
     runs c None x' post) ->
  runs (Shift o dx n :: c) None x post.
Proof using HA.
  intros -> Hd Hw Hk. step; [cbn [host_step]; rewrite xwidth_den, Hw; reflexivity |].
  rewrite (xget_den A x HA) by assumption. rewrite (rep_c _ _ HA). apply Hk, rep_flags, xput_den; assumption.
Qed.

Lemma wp_cmp d s w dx sx :
  dx = den d -> sx = den s -> op_ok d -> op_ok s -> asize d s = Some w ->
  (forall x', rep (set_af A (Some (aget w A d =? aget w A s, swrap w (aget w A d) <? swrap w (aget w A s),
                                 aget w A d <? aget w A s, swrap w (aget w A d - aget w A s) <? 0))) x' -> runs c None x' post) ->
  runs (Cmp dx sx :: c) None x post.
Proof using HA.
  intros -> -> Hd Hs Hw Hk. step; [cbn [host_step]; rewrite xsize_den, Hw; reflexivity |].
  rewrite !(xget_den A x HA) by assumption. apply Hk, rep_flags, HA.
Qed.

(** The flags of a test that gives [v]. *)
Definition test_flags (w v : Z) : flags := Some (v =? 0, swrap w v <? 0, false, swrap w v <? 0).

Lemma wp_test d s w dx sx :
  dx = den d -> sx = den s -> op_ok d -> op_ok s -> asize d s = Some w ->
  (forall x', rep (set_af A (test_flags w (Z.land (aget w A d) (aget w A s)))) x' -> runs c None x' post) ->
  runs (Test dx sx :: c) None x post.
Proof using HA.
  intros -> -> Hd Hs Hw Hk. step; [cbn [host_step]; rewrite xsize_den, Hw; reflexivity |].
  rewrite !(xget_den A x HA) by assumption. apply Hk, rep_flags, HA.
Qed.

Lemma wp_set cd f d dx :
  af A = Some f -> dx = den d -> op_ok d -> is_reg 8 d ->
  (forall x', rep (aput d (if xcond_holds cd f then 1 else 0) A) x' -> runs c None x' post) ->
  runs (Set_ cd dx :: c) None x post.
Proof using HA.
  intros Hf -> Hd Hr Hk. pose proof (xput_den A x HA d (if xcond_holds cd f then 1 else 0) Hd) as H.
  destruct (is_reg_den 8 d Hr) as [r E]. rewrite E in *.
  step; [cbn [host_step]; rewrite (rep_f _ _ HA), Hf; reflexivity |]. apply Hk, H.
Qed.

(** [movzx], [movsx] of a byte or a half word. *)
Lemma wp_movzx d s w w' dx sx :
  dx = den d -> sx = den s -> op_ok d -> op_ok s -> is_reg w d -> awidth s = Some w' ->
  ((w =? 32) || (w =? 64)) && ((w' =? 8) || (w' =? 16)) = true ->
  (forall x', rep (aput d (aget w' A s) A) x' -> runs c None x' post) -> runs (Movzx dx sx :: c) None x post.
Proof using HA.
  intros -> -> Hd Hs Hr Hw Hww Hk. pose proof (xput_den A x HA d (aget w' A s) Hd) as H.
  rewrite <- (xget_den A x HA) in H by exact Hs. rewrite <- (xget_den A x HA w' s Hs) in Hk.
  destruct (is_reg_den w d Hr) as [r E]. rewrite E in *.
  step; [cbn [host_step]; rewrite xwidth_den, Hw, Hww; reflexivity |]. apply Hk, H.
Qed.

Lemma wp_movsx d s w w' dx sx :
  dx = den d -> sx = den s -> op_ok d -> op_ok s -> is_reg w d -> awidth s = Some w' ->
  ((w =? 32) || (w =? 64)) && ((w' =? 8) || (w' =? 16)) = true ->
  (forall x', rep (aput d (swrap w' (aget w' A s)) A) x' -> runs c None x' post) -> runs (Movsx dx sx :: c) None x post.
Proof using HA.
  intros -> -> Hd Hs Hr Hw Hww Hk. pose proof (xput_den A x HA d (swrap w' (aget w' A s)) Hd) as H.
  rewrite <- (xget_den A x HA) in H by exact Hs. rewrite <- (xget_den A x HA w' s Hs) in Hk.
  destruct (is_reg_den w d Hr) as [r E]. rewrite E in *.
  step; [cbn [host_step]; rewrite xwidth_den, Hw, Hww; reflexivity |]. apply Hk, H.
Qed.

Lemma wp_movsxd d s dx sx :
  dx = den d -> sx = den s -> op_ok d -> op_ok s -> is_reg 64 d -> awidth s = Some 32 ->
  (forall x', rep (aput d (s32 (aget 32 A s)) A) x' -> runs c None x' post) -> runs (Movsxd dx sx :: c) None x post.
Proof using HA.
  intros -> -> Hd Hs Hr Hw Hk. pose proof (xput_den A x HA d (s32 (aget 32 A s)) Hd) as H.
  rewrite <- (xget_den A x HA) in H by exact Hs. rewrite <- (xget_den A x HA 32 s Hs) in Hk.
  destruct (is_reg_den 64 d Hr) as [r E]. rewrite E in *.
  step; [cbn [host_step]; rewrite xwidth_den, Hw; reflexivity |]. apply Hk, H.
Qed.

(** [lea] of the sum of two registers, or of a register and a constant. *)
Lemma wp_lea d b i disp w dx :
  dx = den d -> op_ok d -> is_reg w d -> w = 32 \/ w = 64 -> 0 <= b < 32 /\ (0 <? x86_reg b) = true ->
  match i with Some r => 0 <= r < 32 /\ (0 <? x86_reg r) = true | None => True end ->
  (forall x', rep (aput d (V (aR A) b + match i with Some r => V (aR A) r | None => 0 end + disp) A) x' -> runs c None x' post) ->
  runs (Lea dx (x86_reg b) (match i with Some r => Some (x86_reg r) | None => None end) disp :: c) None x post.
Proof using HA.
  intros -> Hd Hr Hw [Hb Hb0] Hi Hk.
  pose proof (xput_den A x HA d (V (aR A) b + match i with Some r => V (aR A) r | None => 0 end + disp) Hd) as H.
  rewrite <- (rep_reg A x HA b Hb Hb0) in H, Hk. destruct (is_reg_den w d Hr) as [r E]. rewrite E in *.
  step; [| apply Hk, H].
  destruct i as [i |]; cbn [host_step]; [rewrite (rep_reg A x HA i) by apply Hi |]; destruct Hw as [-> | ->]; reflexivity.
Qed.

(** [lea] of [rdx + rcx], both scratch. *)
Lemma wp_lea_dc :
  (forall x', rep (set_aR A (<[Z.to_nat 1 := u64 (V (aR A) 1 + ac A)]> (aR A))) x' -> runs c None x' post) ->
  runs (Lea (gp 64 2) 2 (Some 1) 0 :: c) None x post.
Proof using HA.
  intros Hk. step; [reflexivity |]. cbn [xput Z.leb]. rewrite (rep_c _ _ HA), Z.add_0_r.
  pose proof (rep_reg A x HA 1 ltac:(lia) ltac:(reflexivity)) as Hd. change (x86_reg 1) with 2 in Hd. rewrite Hd.
  apply Hk. apply (rep_put_reg A x HA 1); [lia | vm_compute; reflexivity | apply wrap_range; lia].
Qed.

Lemma wp_bind l : runs c None x post -> runs (Bind l :: c) None x post.
Proof using. intros H. exact H. Qed.

Lemma wp_jmp l : runs c (Some l) x post -> runs (Jmp l :: c) None x post.
Proof using. intros H. exact H. Qed.

Lemma wp_jcc cd l f :
  af A = Some f -> runs c (if xcond_holds cd f then Some l else None) x post -> runs (Jcc cd l :: c) None x post.
Proof using HA. intros Hf H. unfold runs. cbn [host_go]. rewrite (rep_f _ _ HA), Hf. exact H. Qed.

(** The end, from the representation [A0] at the start. *)
Lemma wp_end_from A0 R m :
  aR A = R -> amem A = m -> apc A = apc A0 -> astk A = astk A0 -> runs [] None x (ends A0 R m).
Proof using HA.
  intros <- <- Hp Hs. split; [reflexivity |]. exists A. split; [exact HA | repeat split; [exact Hp | exact Hs]].
Qed.
End Wp.

(** Searching a label. *)
Lemma wp_seek i c l x post :
  runs c (match i with Bind l' => if label_eqb l l' then None else Some l | _ => Some l end) x post ->
  runs (i :: c) (Some l) x post.
Proof. intros H. exact H. Qed.

Lemma den_gp w r : (0 <? x86_reg r) = true -> gp w (x86_reg r) = den (Rg w r).
Proof. intros E. cbn. rewrite E. reflexivity. Qed.
Lemma den_slot w r : (0 <? x86_reg r) = false -> rbp_reg w r = den (Rg w r).
Proof. intros E. cbn. rewrite E. reflexivity. Qed.
