(* ===== verification/JitAuto.v ===== *)
(** * JitAuto: automation for the proofs about emitted code. *)

From Stdlib Require Import ZArith Lia Bool List.
From stdpp Require Import base numbers list.
From S2P Require Import Prelude Meta Alu Machine Interp ExecSpec Host Jit JitSound.

#[local] Arguments x86_reg : simpl never.
#[local] Arguments wrap : simpl never.
#[local] Arguments swrap : simpl never.
#[local] Arguments V : simpl never.
#[local] Arguments sext32 : simpl never.

(** ** Automation *)

Lemma x86_neg r : 0 <= r < 32 -> r <> 0 -> (x86_reg r <? 0) = negb (0 <? x86_reg r).
Proof.
  intros Hr Hn. destruct (x86_reg_cases r Hr) as [? | [? | ?]], (Z.ltb_spec (x86_reg r) 0), (Z.ltb_spec 0 (x86_reg r));
    try reflexivity; lia.
Qed.

Lemma x86_reg_2 r : 0 <= r < 32 -> (x86_reg r =? 2) = (r =? 1).
Proof.
  intros Hr. destruct (Z.eqb_spec r 1) as [-> | Hn]; [reflexivity |]. apply Z.eqb_neq. intros E. apply Hn.
  apply (x86_reg_inj r 1); try lia. rewrite E. reflexivity.
Qed.

Lemma V_insert_eq R r v : length R = 32%nat -> 0 <= r < 32 -> V (<[Z.to_nat r := v]> R) r = v.
Proof. intros HR Hr. unfold V. rewrite nth_lookup, list_lookup_insert_eq by lia. reflexivity. Qed.

Lemma V_insert_ne R r r' v : 0 <= r < 32 -> 0 <= r' < 32 -> r' <> r -> V (<[Z.to_nat r := v]> R) r' = V R r'.
Proof. intros Hr Hr' Hn. unfold V. rewrite !nth_lookup, list_lookup_insert_ne by lia. reflexivity. Qed.

Lemma V_self R r : length R = 32%nat -> 0 <= r < 32 -> <[Z.to_nat r := V R r]> R = R.
Proof.
  intros HR Hr. apply list_insert_id. unfold V. destruct (R !! Z.to_nat r) as [v |] eqn:E.
  - erewrite nth_lookup_Some by exact E. reflexivity.
  - apply lookup_ge_None_1 in E. lia.
Qed.

(** Register files are equal when their registers are. *)
Lemma V_ext R R' : length R = 32%nat -> length R' = 32%nat -> (forall r, 0 <= r < 32 -> V R r = V R' r) -> R = R'.
Proof.
  intros HR HR' H. apply nth_ext with (d := 0) (d' := 0); [congruence |]. intros n Hn.
  specialize (H (Z.of_nat n) ltac:(lia)). unfold V in H. rewrite Nat2Z.id in H. exact H.
Qed.

Lemma V_insert_if R i r v : length R = 32%nat -> 0 <= i < 32 -> 0 <= r < 32 ->
  V (<[Z.to_nat i := v]> R) r = if r =? i then v else V R r.
Proof.
  intros HR Hi Hr. destruct (Z.eqb_spec r i) as [-> | Hn]; [apply V_insert_eq | apply V_insert_ne]; assumption.
Qed.

(** A code computes [f] of the guest's registers in [rd], when [pre] holds of
    them, and leaves the other registers and the memory. *)
Definition computes_when (pre : list Z -> Prop) (rd : Z) (f : list Z -> Z) (c : list xinst) : Prop :=
  forall A x, rep A x -> V (aR A) 0 = 0 -> pre (aR A) ->
    runs c None x (ends A (if rd =? 0 then aR A else <[Z.to_nat rd := f (aR A)]> (aR A)) (amem A)).

Definition computes : Z -> (list Z -> Z) -> list xinst -> Prop := computes_when (fun _ => True).

(** A code loads [f] of the memory and the registers to [rd]. *)
Definition loads (rd : Z) (f : (Z -> Z) -> list Z -> Z) (c : list xinst) : Prop :=
  forall A x, rep A x -> V (aR A) 0 = 0 -> True ->
    runs c None x (ends A (if rd =? 0 then aR A else <[Z.to_nat rd := f (amem A) (aR A)]> (aR A)) (amem A)).

(** A code changes the memory to [f] of the memory and the registers. *)
Definition stores (f : (Z -> Z) -> list Z -> Z -> Z) (c : list xinst) : Prop :=
  forall A x, rep A x -> V (aR A) 0 = 0 -> True -> runs c None x (ends A (aR A) (f (amem A) (aR A))).

Lemma imm32_bit (c : bool) : imm32 (if c then 1 else 0) = true.
Proof. destruct c; reflexivity. Qed.

Lemma imm32_range v : imm32 v = true -> - 2 ^ 31 <= v < 2 ^ 31.
Proof. intros H. apply andb_true_iff in H as [H1 H2]. apply Z.leb_le in H1. apply Z.ltb_lt in H2. lia. Qed.

(** Split on the conditions of the emitter. *)
Ltac split_code :=
  repeat match goal with
  | |- runs ?c _ _ _ =>
      match c with
      | context [negb ?b] => match b with true => idtac | false => idtac end; cbn [negb]
      | context [x86_reg 1 =? 2] => change (x86_reg 1 =? 2) with true
      | context [x86_reg ?r =? 2] => rewrite (x86_reg_2 r) by assumption
      | context [0 <? x86_reg 1] => change (0 <? x86_reg 1) with true
      | context [0 <? x86_reg 0] => change (0 <? x86_reg 0) with false
      | context [x86_reg ?r <? 0] => rewrite (x86_neg r) by (assumption || congruence)
      | context [?a =? ?b] =>
          destruct (Z.eqb_spec a b); [first [subst a | subst b | idtac] | idtac]; try contradiction; try congruence
      | context [0 <? x86_reg ?r] =>
          match goal with
          | E : (0 <? x86_reg r) = _ |- _ => rewrite E
          | _ => destruct (0 <? x86_reg r) eqn:?
          end
      end; cbn [andb orb negb app]
  end.

Ltac reify_arg a :=
  match a with
  | gp ?w (x86_reg ?r) => constr:(Rg w r)
  | rbp_reg 64 1 => constr:(S1)
  | rbp_reg ?w ?r => constr:(Rg w r)
  | gp ?w 0 => constr:(Ax w) | gp ?w 1 => constr:(Cx w) | gp ?w 2 => constr:(Rg w 1)
  | rax => constr:(Ax 64) | eax => constr:(Ax 32) | rcx => constr:(Cx 64) | ecx => constr:(Cx 32)
  | rdx => constr:(Rg 64 1) | edx => constr:(Rg 32 1) | al => constr:(Ax 8) | dl => constr:(Rg 8 1)
  | rbp_pc => constr:(PC)
  | mem_ptr ?w (x86_reg ?r) ?d => constr:(Mr w r d) | mem_ptr ?w 0 ?d => constr:(Ma w d)
  | Imm ?v => constr:(I v)
  end.

(** An argument as the place of a register. *)
Ltac den_tac := first [reflexivity | apply den_gp; assumption | apply den_slot; assumption].

Ltac size_tac :=
  cbn [asize awidth a_is_mem mbind option_bind andb negb Z.eqb Pos.eqb];
  change (0 <? x86_reg 1) with true; change (0 <? x86_reg 0) with false;
  repeat match goal with H : (0 <? x86_reg _) = _ |- _ => rewrite H | H : imm32 _ = true |- _ => rewrite H end; rewrite ?imm32_bit;
  cbn [asize awidth a_is_mem mbind option_bind andb negb Z.eqb Pos.eqb]; reflexivity.

Ltac ok_tac := first [exact Logic.I | split; [assumption | lia] | split; lia | split; assumption | lia].
Ltac side_tac :=
  first [ok_tac | den_tac | assumption | reflexivity | size_tac | split; size_tac | (split; [lia | reflexivity]) | (left; reflexivity) | (right; reflexivity)].

Ltac length_tac := rewrite ?length_insert; assumption.

(** Reading an updated register file. *)
Ltac V_simpl :=
  repeat first [rewrite V_insert_eq by (length_tac || lia) | rewrite V_insert_ne by (lia || congruence)].

Ltac V_simpl_in HA :=
  repeat first [rewrite V_insert_eq in HA by (length_tac || lia) | rewrite V_insert_ne in HA by (lia || congruence)].

(** Division of a number that was extended to two words. *)
Lemma div_wide_u w v d u :
  0 < w -> d = 0 -> 0 <= v < 2 ^ w -> 0 < u -> div_wide false w v d u = Some (v / u, v mod u).
Proof.
  intros Hw -> Hv Hu. unfold div_wide. rewrite Z.mul_0_l, Z.add_0_l.
  destruct (Z.eqb_spec u 0); [lia |]. rewrite Z.quot_div_nonneg, Z.rem_mod_nonneg by lia.
  pose proof (Z.div_le_upper_bound v u v ltac:(lia) ltac:(nia)). destruct (Z.ltb_spec (v / u) (2 ^ w)); [reflexivity | lia].
Qed.

Lemma div_wide_s w v d u :
  1 < w -> d = (if swrap w v <? 0 then 2 ^ w - 1 else 0) -> 0 <= v < 2 ^ w -> swrap w u <> 0 ->
  ~ (swrap w v = - 2 ^ (w - 1) /\ swrap w u = -1) ->
  div_wide true w v d u = Some (Z.quot (swrap w v) (swrap w u), Z.rem (swrap w v) (swrap w u)).
Proof.
  intros Hw Hd Hv Hu Ho. unfold div_wide.
  pose proof (pow2_half w ltac:(lia)) as P. pose proof (Z.pow_pos_nonneg 2 (w - 1) ltac:(lia) ltac:(lia)).
  assert (N : swrap w d * 2 ^ w + v = swrap w v).
  { destruct (swrap_cases w v) as [E | E]; rewrite wrap_small in E by exact Hv;
      pose proof (swrap_range w ltac:(lia) v) as R; subst d.
    - destruct (Z.ltb_spec (swrap w v) 0); [lia |]. rewrite (swrap_small w ltac:(lia) 0) by lia. lia.
    - destruct (Z.ltb_spec (swrap w v) 0); [| lia].
      replace (swrap w (2 ^ w - 1)) with (-1); [lia |].
      rewrite <- (swrap_wrap w). replace (2 ^ w - 1) with (2 ^ w + -1) by lia. rewrite wrap_pow_add, swrap_wrap.
      symmetry. apply swrap_small; lia. }
  rewrite N. destruct (Z.eqb_spec (swrap w u) 0); [contradiction |].
  pose proof (swrap_range w ltac:(lia) v) as Rv. pose proof (swrap_range w ltac:(lia) u) as Ru.
  set (s := swrap w v) in *. set (t := swrap w u) in *.
  assert (B : - 2 ^ (w - 1) <= Z.quot s t < 2 ^ (w - 1)).
  { pose proof (Z.quot_abs s t ltac:(assumption)) as QA.
    assert (Z.abs s / Z.abs t <= Z.abs s) by (apply Z.div_le_upper_bound; nia).
    rewrite Z.quot_div_nonneg in QA by lia.
    destruct (Z.eq_dec s (- 2 ^ (w - 1))) as [Es | Es]; [| lia].
    destruct (Z.eq_dec t 1) as [-> | T1]; [rewrite Z.quot_1_r; lia |].
    assert (T : 2 <= Z.abs t) by lia.
    assert (Z.abs s / Z.abs t <= 2 ^ (w - 1) / 2) by
      (replace (Z.abs s) with (2 ^ (w - 1)) by lia; apply Z.div_le_compat_l; lia).
    assert (2 ^ (w - 1) / 2 < 2 ^ (w - 1)) by (apply Z.div_lt; lia). lia. }
  destruct (Z.leb_spec (- 2 ^ (w - 1)) (Z.quot s t)), (Z.ltb_spec (Z.quot s t) (2 ^ (w - 1))); try lia. reflexivity.
Qed.

(** One host instruction on a representation. *)
Ltac wp_apply :=
  match goal with
  | HA : rep ?A ?x |- runs (?i :: ?c) None ?x ?post =>
      match i with
      | Mov (gp 64 ?h) (Imm ?v) => let d := reify_arg (gp 64 h) in eapply (wp_mov_imm A x HA c post d v)
      | Mov rax (Imm ?v) => eapply (wp_mov_imm A x HA c post (Ax 64) v)
      | Mov ?d ?s => let d := reify_arg d in let s := reify_arg s in eapply (wp_mov A x HA c post d s)
      | Alu ?o ?d ?s => let d := reify_arg d in let s := reify_arg s in eapply (wp_alu A x HA c post o d s)
      | Imul ?d ?s => let d := reify_arg d in let s := reify_arg s in eapply (wp_imul A x HA c post d s)
      | Mul1 ?sg ?s => let s := reify_arg s in eapply (wp_mul1 A x HA c post sg s)
      | Cqo => eapply (wp_cqo A x HA c post)
      | Cdq => eapply (wp_cdq A x HA c post)
      | Cmp ?d ?s => let d := reify_arg d in let s := reify_arg s in eapply (wp_cmp A x HA c post d s)
      | Test ?d ?s => let d := reify_arg d in let s := reify_arg s in eapply (wp_test A x HA c post d s)
      | Movsxd ?d ?s => let d := reify_arg d in let s := reify_arg s in eapply (wp_movsxd A x HA c post d s)
      | Movzx ?d ?s => let d := reify_arg d in let s := reify_arg s in eapply (wp_movzx A x HA c post d s)
      | Movsx ?d ?s => let d := reify_arg d in let s := reify_arg s in eapply (wp_movsx A x HA c post d s)
      | Neg ?d => let d := reify_arg d in eapply (wp_neg A x HA c post d)
      | Shift ?o ?d ?n => let d := reify_arg d in eapply (wp_shift A x HA c post o d n)
      | Lea ?d (x86_reg ?b) (Some (x86_reg ?i)) ?v =>
          let d := reify_arg d in eapply (wp_lea A x HA c post d b (Some i) v)
      | Lea ?d (x86_reg ?b) None ?v => let d := reify_arg d in eapply (wp_lea A x HA c post d b None v)
      | Lea rdx 2 (Some 1) 0 => eapply (wp_lea_dc A x HA c post)
      | Set_ ?cd ?d => let d := reify_arg d in eapply (wp_set A x HA c post cd _ d)
      end
  end.

Ltac wp_intro :=
  match goal with
  | HA : rep ?A ?x |- forall x', rep _ x' -> _ =>
      clear x HA; intros x HA;
      cbn [aget aput low xmerge xcond_holds xalu_fn xshift_fn mul_src Z.eqb Pos.eqb Z.leb Z.compare Pos.compare Pos.compare_cont] in HA;
      cbv beta iota delta [aR amem aa ac as1 apc astk af set_aR set_amem set_aa set_ac set_as1 set_apc set_af test_flags] in HA;
      V_simpl_in HA
  end.

(** The arithmetic of a division: what the tests before it found. *)
Ltac flag_facts :=
  repeat match goal with
  | H : context [Z.land ?v ?v] |- _ => rewrite Z.land_diag in H
  | H : context [wrap ?w 0] |- _ => change (wrap w 0) with 0 in H
  | H : context [wrap 64 (V ?R ?r)] |- _ => rewrite (wrap_small 64 (V R r)) in H by (apply V_range; assumption)
  end.

Ltac V_ranges :=
  repeat match goal with
  | Hg : guest_ok ?R |- context [V ?R ?r] =>
      match goal with H : 0 <= V R r < _ |- _ => fail 1 | _ => pose proof (V_range R r Hg) end
  end.

Lemma s64_zero v : 0 <= v < 2 ^ 64 -> (s64 v =? 0) = (v =? 0).
Proof.
  intros Hv. pose proof (swrap_range 64 ltac:(lia) v).
  destruct (swrap_cases 64 v) as [E | E]; rewrite (wrap_small 64 v Hv) in E;
    destruct (Z.eqb_spec (s64 v) 0), (Z.eqb_spec v 0); try reflexivity; lia.
Qed.

Lemma swrap_zero w v : 0 < w -> swrap w v = 0 -> wrap w v = 0.
Proof. intros Hw E. rewrite <- wrap_swrap, E by lia. reflexivity. Qed.

Lemma swrap_wrap_of w v k : 0 < w -> swrap w v = k -> wrap w v = wrap w k.
Proof. intros Hw E. rewrite <- (wrap_swrap w v), E by lia. reflexivity. Qed.

Lemma u64_div v d : 0 <= v < 2 ^ 64 -> 0 <= d -> u64 (v / d) = v / d.
Proof.
  intros Hv Hd. apply wrap_small. destruct (Z.eq_dec d 0) as [-> |]; [rewrite Z.div_0_r; lia |].
  split; [apply Z.div_pos; lia |]. apply Z.div_lt_upper_bound; nia.
Qed.

Lemma u64_mod v d : 0 <= v < 2 ^ 64 -> 0 <= d -> u64 (v mod d) = v mod d.
Proof.
  intros Hv Hd. apply wrap_small. destruct (Z.eq_dec d 0) as [-> |]; [rewrite Z.mod_0_r; lia |].
  pose proof (Z.mod_pos_bound v d ltac:(lia)). pose proof (Z.mod_le v d ltac:(lia) ltac:(lia)). lia.
Qed.

Ltac eqb_facts :=
  repeat match goal with
  | H : (_ =? _) = false |- _ => apply Z.eqb_neq in H
  | H : (_ =? _) = true |- _ => apply Z.eqb_eq in H
  end.

(** The result of a division. *)
Ltac div_close :=
  flag_facts;
  match goal with
  | H : (?v =? 0) = ?c |- context [?v =? 0] => rewrite H; try clear H
  | |- context [?v =? 0] => destruct (Z.eqb_spec v 0)
  end; eqb_facts; subst; rewrite ?Z.quot_0_l, ?Z.rem_0_l, ?Zmod_0_l, ?u64_div, ?u64_mod by (assumption || lia || (intros Es; apply (swrap_zero 64) in Es; [| lia]; rewrite wrap_small in Es by lia; lia));
  first [reflexivity | assumption | lia | symmetry; assumption | vm_compute; reflexivity
        | match goal with H : wrap _ _ = _ |- _ => vm_compute in H; discriminate H end].

Ltac wrap_hyps := repeat match goal with H : (_ =? _) = _ |- _ => progress autorewrite with wrap in H end.

(** A divisor that the tests found not to be zero; a division that does not overflow. *)
Ltac nonzero_tac w :=
  wrap_hyps;
  first [lia
    | match goal with |- 0 < wrap ?w ?v => pose proof (wrap_range w ltac:(lia) v) end; eqb_facts;
      match goal with
      | |- 0 < ?u => assert (u <> 0); [| lia]
      end;
      first [lia | match goal with Hpre : true = true -> _ -> _ |- _ => let Z0 := fresh in intros Z0; apply (Hpre eq_refl) in Z0; lia end]
    | let Es := fresh in intros Es; apply (swrap_zero w) in Es; [| lia]; autorewrite with wrap in Es;
      rewrite ?(wrap_small 64 (V _ _)) in Es by assumption; eqb_facts;
      first [lia | match goal with Hpre : true = true -> _ -> _ |- _ => apply (Hpre eq_refl) in Es; lia end]
    | let Ea := fresh in let Eb := fresh in
      intros [Ea Eb]; apply (swrap_wrap_of w) in Ea; [| lia]; apply (swrap_wrap_of w) in Eb; [| lia];
      autorewrite with wrap in Ea, Eb; rewrite ?(wrap_small 64 (V _ _)) in Ea by assumption;
      rewrite ?(wrap_small 64 (V _ _)) in Eb by assumption;
      change (2 ^ (64 - 1)) with (2 ^ 63) in Ea; change (2 ^ (32 - 1)) with (2 ^ 31) in Ea; eqb_facts; lia ].

(** The result of a word division. *)
Ltac div_close_w :=
  flag_facts; wrap_hyps; eqb_facts;
  match goal with
  | |- context [u32 ?v =? 0] =>
      destruct (Z.eqb_spec (u32 v) 0);
      [first [exfalso; lia | match goal with Hpre : true = true -> _ -> _ |- _ => exfalso; lia end
             | match goal with H : u32 ?v = 0, H' : u32 ?v = wrap _ _ |- _ => rewrite H in H'; discriminate H' end
             | subst; reflexivity | idtac]
      | first [exfalso; lia | subst; exfalso; match goal with H : _ <> _ |- _ => apply H; reflexivity end | reflexivity
             | repeat match goal with H : u32 ?v = u32 ?k |- context [s32 ?v] => rewrite (swrap_eq 32 v k H) end; vm_compute; reflexivity
             | idtac]]
  end.

Ltac div_side_w w :=
  cbn [low aget aR aa Z.eqb Pos.eqb]; V_simpl; rewrite ?wrap_narrow by lia; flag_facts; V_ranges;
  first [apply (div_wide_u w) | apply (div_wide_s w)];
  first [lia | (rewrite ?Z.lxor_nilpotent; reflexivity) | apply wrap_range; lia | rewrite ?wrap_wrap, ?swrap_wrap by lia; reflexivity
        | match goal with |- context [?x <? 0] => destruct (x <? 0); reflexivity end | nonzero_tac w | idtac].

Ltac wp_step :=
  match goal with
  | HA : rep ?A ?x |- runs (Div1 ?sg ?s :: ?c) None ?x ?post =>
      let s := reify_arg s in
      eapply (wp_div1 A x HA c post sg s);
        [den_tac | ok_tac | size_tac | first [left; reflexivity | right; reflexivity]
        | match goal with |- div_wide _ ?w _ _ _ = _ => div_side_w w end | wp_intro]
  | |- runs (Bind _ :: _) None _ _ => apply wp_bind
  | |- runs (Jmp _ :: _) None _ _ => apply wp_jmp
  | |- runs (_ :: _) (Some _) _ _ => apply wp_seek; cbn [label_eqb Z.eqb Pos.eqb]
  | HA : rep ?A ?x |- runs (Jcc _ _ :: ?c) None ?x ?post =>
      eapply (wp_jcc A x HA c post); [reflexivity | cbn [xcond_holds]]
  | |- runs _ (if negb ?b then _ else _) _ _ => destruct b eqn:?; cbn [negb]
  | |- runs _ (if ?b then _ else _) _ _ => destruct b eqn:?
  | |- runs (_ :: _) None _ _ => wp_apply; [solve [side_tac] .. | wp_intro]
  end.


(** The registers at the end: one assignment to [rd]. *)
Ltac wp_end :=
  match goal with
  | HA : rep ?A ?x |- runs [] None ?x _ =>
      apply (wp_end_from A x HA);
        [clear x HA; cbn [aR amem] | reflexivity..]
  end;
  match goal with Hl : length ?R = 32%nat |- ?L = _ =>
    try reflexivity;
    try match L with R =>
      match goal with |- _ = <[Z.to_nat ?r := _]> _ => etransitivity; [symmetry; apply (V_self R r Hl); lia |] end
    end;
    rewrite ?list_insert_insert_eq; f_equal; V_simpl
  end.

(** The same, when scratch values were kept in other registers. *)
Ltac wp_end_ext :=
  match goal with
  | HA : rep ?A ?x |- runs [] None ?x _ =>
      apply (wp_end_from A x HA);
        [clear x HA; cbn [aR amem] | reflexivity..]
  end;
  let r := fresh "r" in let Hr := fresh "Hr" in
  apply V_ext; [length_tac | length_tac | intros r Hr];
  rewrite ?list_insert_insert_eq;
  repeat rewrite (V_insert_if _ _ r) by (length_tac || lia);
  repeat match goal with
  | |- context [r =? ?i] => destruct (Z.eqb_spec r i); [try subst r; try lia |]
  | |- context [1 =? ?i] => destruct (Z.eqb_spec 1 i); [congruence |]
  end; V_simpl; try reflexivity.

Lemma wrap_opp w v : wrap w (- wrap w v) = wrap w (- v).
Proof. rewrite <- (Z.sub_0_l (wrap w v)), wrap_sub_r. reflexivity. Qed.

Lemma land_u64 a b : 0 <= a < 2 ^ 64 -> 0 <= b < 2 ^ 64 -> u64 (Z.land a b) = Z.land a b.
Proof. intros Ha Hb. rewrite wrap_land, !wrap_small by lia. reflexivity. Qed.

(** The byte of [setcc]. *)
Lemma bit_word w (c : bool) : 1 <= w -> wrap w (if c then 1 else 0) = if c then 1 else 0.
Proof. intros Hw. pose proof (Z.pow_le_mono_r 2 1 w ltac:(lia) Hw). destruct c; apply wrap_small; lia. Qed.

Lemma dput_mapped r old v : (0 <? x86_reg r) = true -> dput 32 r old v = u32 v.
Proof. intros E. unfold dput. rewrite E. reflexivity. Qed.

Lemma u32_dput r old v : u32 (dput 32 r old v) = u32 v.
Proof. apply wrap_dput. lia. Qed.

Lemma dput_ra old v : dput 32 1 old v = u32 v.
Proof. reflexivity. Qed.

Lemma u8_dput r old v : u8 (dput 8 r old v) = u8 v.
Proof. apply wrap_dput. lia. Qed.

Lemma u8_merge old v : u8 (merge 8 old v) = u8 v.
Proof. apply wrap_merge. lia. Qed.

(** Shifts of zero, by zero, by the low bits of a count. *)
Lemma xshift_zero o w n : 0 < w -> 0 <= n -> wrap w (xshift_fn o w 0 n) = 0.
Proof.
  intros Hw Hn. assert (S0 : swrap w 0 = 0).
  { apply swrap_small; [lia |]. pose proof (Z.pow_pos_nonneg 2 (w - 1) ltac:(lia) ltac:(lia)). lia. }
  destruct o; cbn [xshift_fn]; rewrite ?S0, ?Zdiv_0_l, ?Z.mul_0_l; reflexivity.
Qed.

Lemma xshift_by_zero o w v : 0 < w -> wrap w (xshift_fn o w v 0) = wrap w v.
Proof.
  intros Hw. destruct o; cbn [xshift_fn]; change (2 ^ 0) with 1; rewrite ?Z.mul_1_r, ?Z.div_1_r; [reflexivity.. |].
  apply wrap_swrap.
Qed.

Lemma u32_mod64 v : u32 v mod 64 = v mod 64.
Proof. apply Z.mod_mod_divide. exists (2 ^ 26). reflexivity. Qed.

Lemma u32_mod32 v : u32 v mod 32 = v mod 32.
Proof. apply Z.mod_mod_divide. exists (2 ^ 27). reflexivity. Qed.

Lemma opp_sub x y : - (x - y) = y - x.
Proof. lia. Qed.

Lemma wrap_0 w : wrap w 0 = 0.
Proof. reflexivity. Qed.

(** The result of a word instruction. *)
Lemma sext32_u32 v : sext32 (u32 v) = sext32 v.
Proof. unfold sext32. rewrite swrap_wrap by lia. reflexivity. Qed.

Lemma sext32_fold v : u64 (s32 v) = sext32 v.
Proof. reflexivity. Qed.

Lemma sext32_congr v v' : u32 v = u32 v' -> sext32 v = sext32 v'.
Proof. intros E. rewrite <- (sext32_u32 v), E. apply sext32_u32. Qed.

Lemma sext32_shift_zero o n : 0 <= n -> sext32 (xshift_fn o 32 0 n) = 0.
Proof. intros Hn. rewrite <- sext32_u32, xshift_zero by lia. reflexivity. Qed.

Lemma sext32_shift_by_zero o v : sext32 (xshift_fn o 32 v 0) = sext32 v.
Proof. rewrite <- sext32_u32, xshift_by_zero by lia. apply sext32_u32. Qed.

Lemma u64_sext32 v : u64 (sext32 v) = sext32 v.
Proof. apply wrap_wrap. Qed.

Lemma u32_u64 v : u32 (u64 v) = u32 v.
Proof. apply wrap_narrow. lia. Qed.

Lemma u64_u32 v : u64 (u32 v) = u32 v.
Proof. apply wrap_small, u32_range_64. Qed.

Lemma u32_add_u64 v w : u32 (v + u64 w) = u32 (v + w).
Proof. rewrite <- wrap_add_r, u32_u64. apply wrap_add_r. Qed.

Ltac sext_end :=
  apply sext32_congr; rewrite ?opp_sub, ?u32_mod32, ?Z.sub_0_l, ?Z.add_0_l, ?Z.sub_0_r, ?Z.add_0_r; autorewrite with wrap;
  rewrite ?wrap_opp, ?u32_u64; autorewrite with wrap; rewrite ?u32_add_u64; first [reflexivity | f_equal; lia | idtac].

(** The values of the registers as words, the arithmetic of wrapping. *)
Ltac regs_gen :=
  repeat match goal with
  | Hz : V ?R 0 = 0 |- context [V ?R 0] => rewrite Hz
  | Hg : guest_ok ?R |- context [V ?R ?r] =>
      let v := fresh "v" in
      pose proof (V_range R r Hg); set (v := V R r) in *; clearbody v
  end.

Ltac wrap_norm :=
  rewrite ?Z.add_0_l, ?Z.add_0_r, ?Z.sub_0_r, ?Z.sub_0_l, ?Z.mul_0_l, ?Z.mul_0_r, ?Z.land_0_l, ?Z.land_0_r, ?Z.lor_0_l,
    ?Z.lor_0_r, ?Z.lxor_0_l, ?Z.lxor_0_r, ?Zdiv_0_l, ?Z.lxor_nilpotent, ?u32_dput, ?wrap_opp, ?wrap_land, ?wrap_lor, ?wrap_lxor,
    ?u8_merge, ?dput_ra, ?u8_dput, ?Z.land_diag, ?u32_u64, ?u64_u32, ?u32_mod64, ?u32_mod32, ?wrap_0, ?sext32_shift_by_zero, ?Z.mod_0_l by lia;
  rewrite ?sext32_shift_by_zero;
  repeat match goal with E : (0 <? x86_reg ?r) = true |- context [dput 32 ?r _ _] => rewrite (dput_mapped r _ _ E) end;
  rewrite ?bit_word by lia;
  autorewrite with wrap; rewrite ?u32_dput, ?u32_u64, ?u64_u32; rewrite ?sext32_fold, ?u64_sext32, ?sext32_u32;
  repeat match goal with
  | |- context [wrap 64 ?v] => is_var v; rewrite (wrap_small 64 v) by lia
  | |- context [sext32 (xshift_fn _ 32 0 (?v mod ?n))] => rewrite (sext32_shift_zero _ (v mod n)) by (apply Z.mod_pos_bound; lia)
  | |- context [wrap _ (xshift_fn _ ?w _ 0)] => rewrite (xshift_by_zero _ w) by lia
  | |- context [wrap _ (xshift_fn _ ?w 0 (?v mod ?n))] => rewrite (xshift_zero _ w (v mod n)) by (try apply Z.mod_pos_bound; lia)
  end.

Ltac wrap_end :=
  first [reflexivity | lia | f_equal; lia | apply Z.land_comm | apply Z.lor_comm | apply Z.lxor_comm
        | match goal with E : (0 <? x86_reg ?r) = _ |- context [dput 32 ?r _ _] => unfold dput; rewrite E; reflexivity end
        | sext_end
        | idtac].

Ltac wrap_tac := wrap_norm; wrap_end.

(** The registers of an instruction are registers. *)
Record regs_ok (dec : jit_decode) : Prop := {
  rd_reg : 0 <= j_rd dec < 32; rs1_reg : 0 <= j_rs1 dec < 32; rs2_reg : 0 <= j_rs2 dec < 32 }.

Ltac unfold_emit :=
  cbv [emit_sx_32_rd emit_zero_rd emit_mv_rax_rs1 emit_mv_rd_rs1 emit_mv_rd_rs1_32 emit_mv_rd_rs2
    emit_mv_rd_rs1_sx_32 emit_mv_rd_rs2_sx_32 emit_mv_cl_rs2 emit_rd_rs2 emit_rd_rs1 emit_rax_rs2 emit_mv_rs2
    emit_add emit_neg_rd emit_sub emit_logic emit_and emit_or_xor emit_or emit_xor emit_mul emit_set_rd
    emit_slt_sltu emit_slt emit_sltu emit_shift emit_mv_eax_rs1 emit_rd_rs2_32 emit_rd_rs1_32 emit_eax_rs2_32
    emit_mv_rs2_32 emit_addw emit_neg_rd_32 emit_subw emit_mulw emit_shiftw emit_li_rd emit_alu_imm_rd emit_addi
    emit_slti_sltiu emit_slti emit_sltiu emit_logic_imm emit_andi emit_ori emit_xori emit_shift_imm emit_addiw
    emit_shiftw_imm emit_lui emit_auipc emit_la emit_cmp emit_mul_high emit_mulh
    emit_mulhu emit_mulhsu emit_div_zero emit_save_rdx emit_restore_rdx emit_cmp_rs1 emit_cmp_rs2 emit_test_rs2
    emit_div1_rs2 emit_result_rax emit_result_rdx emit_result_eax emit_result_edx emit_div emit_rem emit_divu emit_remu
    emit_divw emit_remw emit_divuw emit_remuw emit_load emit_ld emit_lw emit_lwu emit_lh emit_lhu emit_lb emit_lbu emit_store emit_sd emit_sw emit_sh emit_sb].

Ltac emit_start :=
  let dec := fresh "dec" in
  unfold computes; intros dec [Hd H1 H2]; repeat match goal with |- _ -> _ => let Hx := fresh "Hx" in intro Hx end; intros [R m va vc vs1 vpc stk f0] x HA H0 Hpre; cbv beta in Hpre; cbn [aR amem aa ac as1 apc astk af] in *;
  pose proof (rep_guest _ _ HA) as Hg; pose proof (g_length _ Hg) as Hl; cbn [aR] in Hg, Hl;
  destruct dec as [pc inst op rd rs1 rs2 imm sz];
  cbn [j_pc j_inst j_op j_rd j_rs1 j_rs2 j_imm j_sz] in *;
  unfold_emit; cbn [j_pc j_inst j_op j_rd j_rs1 j_rs2 j_imm j_sz]; split_code.

Ltac emit_end := repeat wp_step; wp_end; regs_gen; wrap_tac.
Ltac emit_sim := emit_start; emit_end.
Ltac emit_end_ext := repeat wp_step; wp_end_ext; regs_gen; wrap_tac.
