(* ===== verification/JitInt.v ===== *)
(** * JitInt: the integer emitters compute what the RISC-V specification says. *)

From Stdlib Require Import ZArith Lia Bool List.
From stdpp Require Import base numbers list.
From S2P Require Import Prelude ExecSpec Host Jit JitSound JitAuto.

#[local] Arguments x86_reg : simpl never.
#[local] Arguments wrap : simpl never.
#[local] Arguments swrap : simpl never.
#[local] Arguments V : simpl never.
#[local] Arguments sext32 : simpl never.

Section Int.
Abbreviation a R dec := (V R (j_rs1 dec)).
Abbreviation b R dec := (V R (j_rs2 dec)).
Abbreviation i dec := (u64 (j_imm dec)).
Abbreviation rd dec := (j_rd dec).

(** ** Register-register instructions *)
Lemma emit_add_ok : forall dec, regs_ok dec -> computes (rd dec) (fun R => u64 (a R dec + b R dec)) (emit_add dec).
Proof. emit_sim. Qed.
Lemma emit_sub_ok : forall dec, regs_ok dec -> computes (rd dec) (fun R => u64 (a R dec - b R dec)) (emit_sub dec).
Proof. emit_sim. Qed.
Lemma emit_and_ok : forall dec, regs_ok dec -> computes (rd dec) (fun R => Z.land (a R dec) (b R dec)) (emit_and dec).
Proof. emit_sim. Qed.
Lemma emit_or_ok : forall dec, regs_ok dec -> computes (rd dec) (fun R => Z.lor (a R dec) (b R dec)) (emit_or dec).
Proof. emit_sim. Qed.
Lemma emit_xor_ok : forall dec, regs_ok dec -> computes (rd dec) (fun R => Z.lxor (a R dec) (b R dec)) (emit_xor dec).
Proof. emit_sim. Qed.
Lemma emit_mul_ok : forall dec, regs_ok dec -> computes (rd dec) (fun R => u64 (a R dec * b R dec)) (emit_mul dec).
Proof. emit_sim. Qed.
Lemma emit_slt_ok : forall dec, regs_ok dec ->
  computes (rd dec) (fun R => if s64 (a R dec) <? s64 (b R dec) then 1 else 0) (emit_slt dec).
Proof. emit_sim. Qed.
Lemma emit_sltu_ok : forall dec, regs_ok dec ->
  computes (rd dec) (fun R => if a R dec <? b R dec then 1 else 0) (emit_sltu dec).
Proof. emit_sim. Qed.
Lemma emit_shift_ok o : forall dec, regs_ok dec ->
  computes (rd dec) (fun R => u64 (xshift_fn o 64 (a R dec) (b R dec mod 64))) (emit_shift dec o).
Proof. emit_sim. Qed.

(** ** Word instructions *)

(** The sum of [x0] and a register that is in memory is loaded with an
    instruction of the wrong width, when [rd] is not. *)
Definition addw_encodes (dec : jit_decode) : Prop :=
  j_rs1 dec = 0 -> (0 <? x86_reg (j_rd dec)) = true -> (0 <? x86_reg (j_rs2 dec)) = true.

Lemma emit_addw_ok : forall dec, regs_ok dec -> addw_encodes dec ->
  computes (rd dec) (fun R => sext32 (a R dec + b R dec)) (emit_addw dec).
Proof. unfold addw_encodes. emit_start; try discriminate (Hx eq_refl eq_refl); emit_end. Qed.
Lemma emit_subw_ok : forall dec, regs_ok dec -> computes (rd dec) (fun R => sext32 (a R dec - b R dec)) (emit_subw dec).
Proof. emit_sim. Qed.
Lemma emit_mulw_ok : forall dec, regs_ok dec -> computes (rd dec) (fun R => sext32 (a R dec * b R dec)) (emit_mulw dec).
Proof. emit_sim. Qed.
Lemma emit_shiftw_ok o : forall dec, regs_ok dec ->
  computes (rd dec) (fun R => sext32 (xshift_fn o 32 (u32 (a R dec)) (b R dec mod 32))) (emit_shiftw dec o).
Proof. emit_sim. Qed.

(** ** Immediate instructions *)
Lemma emit_addi_ok : forall dec, regs_ok dec -> imm32 (j_imm dec) = true ->
  computes (rd dec) (fun R => u64 (a R dec + i dec)) (emit_addi dec).
Proof. emit_sim. Qed.
Lemma emit_andi_ok : forall dec, regs_ok dec -> imm32 (j_imm dec) = true ->
  computes (rd dec) (fun R => Z.land (a R dec) (i dec)) (emit_andi dec).
Proof. emit_sim. Qed.
Lemma emit_ori_ok : forall dec, regs_ok dec -> imm32 (j_imm dec) = true ->
  computes (rd dec) (fun R => Z.lor (a R dec) (i dec)) (emit_ori dec).
Proof. emit_sim. Qed.
Lemma emit_xori_ok : forall dec, regs_ok dec -> imm32 (j_imm dec) = true ->
  computes (rd dec) (fun R => Z.lxor (a R dec) (i dec)) (emit_xori dec).
Proof. emit_sim. Qed.
Lemma emit_slti_ok : forall dec, regs_ok dec -> imm32 (j_imm dec) = true ->
  computes (rd dec) (fun R => if s64 (a R dec) <? s64 (i dec) then 1 else 0) (emit_slti dec).
Proof.
  emit_start; emit_end; change (s64 0) with 0; apply imm32_range in Hx; rewrite (swrap_small 64) by lia; reflexivity.
Qed.
Lemma emit_sltiu_ok : forall dec, regs_ok dec -> imm32 (j_imm dec) = true ->
  computes (rd dec) (fun R => if a R dec <? i dec then 1 else 0) (emit_sltiu dec).
Proof. emit_sim. Qed.
Lemma emit_shift_imm_ok o : forall dec, regs_ok dec ->
  computes (rd dec) (fun R => u64 (xshift_fn o 64 (a R dec) (j_imm dec mod 64))) (emit_shift_imm dec o).
Proof. emit_sim. Qed.
Lemma emit_addiw_ok : forall dec, regs_ok dec -> imm32 (j_imm dec) = true ->
  computes (rd dec) (fun R => sext32 (a R dec + i dec)) (emit_addiw dec).
Proof. emit_sim. Qed.
Lemma emit_shiftw_imm_ok o : forall dec, regs_ok dec ->
  computes (rd dec) (fun R => sext32 (xshift_fn o 32 (u32 (a R dec)) (j_imm dec mod 32))) (emit_shiftw_imm dec o).
Proof. emit_sim. Qed.
Lemma emit_lui_ok : forall dec, regs_ok dec -> imm32 (j_imm dec) = true -> computes (rd dec) (fun _ => i dec) (emit_lui dec).
Proof. emit_sim. Qed.

(** An address that is moved to memory must be a 32-bit immediate. *)
Definition auipc_encodes (dec : jit_decode) : Prop :=
  (0 <? x86_reg (j_rd dec)) = false -> imm32 (u64 (j_pc dec + j_imm dec)) = true.

Lemma emit_auipc_ok : forall dec, regs_ok dec -> auipc_encodes dec ->
  computes (rd dec) (fun _ => u64 (j_pc dec + j_imm dec)) (emit_auipc dec).
Proof. unfold auipc_encodes. emit_start; try specialize (Hx eq_refl); emit_end. Qed.
Lemma emit_la_ok : forall dec, regs_ok dec -> computes (rd dec) (fun _ => u64 (j_pc dec + j_imm dec)) (emit_la dec).
Proof. emit_sim. Qed.
End Int.
