(* ===== verification/JitDiv.v ===== *)
(** * JitDiv: the emitted multiplications to the high word, divisions and
    remainders.

    They use [rdx], where the guest's [ra] is: the saved [ra] is in [rcx] or in
    its place in the register file. *)

From Stdlib Require Import ZArith Lia Bool List.
From stdpp Require Import base numbers list.
From S2P Require Import Prelude ExecSpec Host Jit JitSound JitAuto.

#[local] Arguments x86_reg : simpl never.
#[local] Arguments wrap : simpl never.
#[local] Arguments swrap : simpl never.
#[local] Arguments V : simpl never.
#[local] Arguments sext32 : simpl never.

Lemma s64_nonneg v : 0 <= v < 2 ^ 64 -> (s64 v <? 0) = false -> s64 v = v.
Proof.
  intros Hv Hs. apply Z.ltb_ge in Hs. destruct (swrap_cases 64 v) as [H | H]; rewrite wrap_small in H by exact Hv; lia.
Qed.

Lemma lxor_ones q : 0 <= q < 2 ^ 64 -> Z.lxor q (2 ^ 64 - 1) = 2 ^ 64 - 1 - q.
Proof.
  intros Hq. change (2 ^ 64 - 1) with (Z.ones 64). rewrite Z.sub_nocarry_ldiff.
  - rewrite <- (wrap_small 64 q Hq) at 1 2. apply Z.bits_inj'. intros n Hn.
    rewrite Z.lxor_spec, Z.ldiff_spec, wrap_spec by lia. destruct (Z.ltb_spec n 64).
    + rewrite Z.ones_spec_low by lia. destruct (Z.testbit q n); reflexivity.
    + rewrite Z.ones_spec_high by lia. reflexivity.
  - rewrite Z.ldiff_ones_r by lia. rewrite Z.shiftr_div_pow2, Z.div_small by lia. apply Z.shiftl_0_l.
Qed.

Lemma mulhsu_neg v w : 0 <= v < 2 ^ 64 -> 0 <= w < 2 ^ 64 -> s64 v < 0 ->
  u64 ((if u64 (v * w) =? 0 then 1 else 0) + Z.lxor (u64 (u64 (- v) * w / 2 ^ 64)) (2 ^ 64 - 1)) = u64 (s64 v * w / 2 ^ 64).
Proof.
  intros Hv Hw Hs.
  assert (E : s64 v = v - 2 ^ 64).
  { destruct (swrap_cases 64 v) as [H | H]; rewrite wrap_small in H by exact Hv; lia. }
  assert (Hv0 : v <> 0) by (intros ->; discriminate Hs).
  assert (Em : u64 (- v) = 2 ^ 64 - v) by
    (unfold wrap; replace (- v) with (2 ^ 64 - v + (-1) * 2 ^ 64) by lia; rewrite Z_mod_plus_full; apply Z.mod_small; lia).
  rewrite E, Em. set (m := 2 ^ 64 - v) in *. replace (v - 2 ^ 64) with (- m) by lia.
  pose proof (Z.div_mod (m * w) (2 ^ 64) ltac:(lia)) as D. pose proof (Z.mod_pos_bound (m * w) (2 ^ 64) ltac:(lia)) as R.
  set (q := m * w / 2 ^ 64) in *. set (r := (m * w) mod 2 ^ 64) in *.
  assert (Hq : 0 <= q < 2 ^ 64) by (split; [apply Z.div_pos; nia | apply Z.div_lt_upper_bound; nia]).
  assert (X : Z.lxor (u64 q) (2 ^ 64 - 1) = 2 ^ 64 - 1 - q).
  { rewrite wrap_small by exact Hq. apply lxor_ones, Hq. }
  rewrite X. assert (Er : (u64 (v * w) =? 0) = (r =? 0)).
  { assert (P : u64 (v * w) = (- (m * w)) mod 2 ^ 64).
    { unfold wrap. replace (v * w) with (- (m * w) + w * 2 ^ 64) by lia. apply Z_mod_plus_full. }
    rewrite P. unfold r. destruct (Z.eqb_spec ((m * w) mod 2 ^ 64) 0) as [Z0 | Z0].
    - rewrite Z_mod_zero_opp_full by exact Z0. reflexivity.
    - rewrite Z_mod_nz_opp_full by exact Z0. apply Z.eqb_neq. fold r. lia. }
  rewrite Er. replace (- m * w) with (- (m * w)) by lia.
  assert (F : - (m * w) / 2 ^ 64 = (if r =? 0 then 1 else 0) - 1 - q).
  { destruct (Z.eqb_spec r 0) as [Z0 | Z0]; symmetry.
    - apply Z.div_unique with (r := 0); lia.
    - apply Z.div_unique with (r := 2 ^ 64 - r); lia. }
  rewrite F. unfold wrap. replace ((if r =? 0 then 1 else 0) + (2 ^ 64 - 1 - q)) with ((if r =? 0 then 1 else 0) - 1 - q + 1 * 2 ^ 64) by lia.
  apply Z_mod_plus_full.
Qed.

(** The tail of a proof: the code is run, the registers compared. *)
Ltac div_sim :=
  emit_start; repeat wp_step;
  try match goal with |- runs [] _ _ _ => wp_end_ext; flag_facts; regs_gen; wrap_tac end.

Section Div.
Abbreviation a R dec := (V R (j_rs1 dec)).
Abbreviation b R dec := (V R (j_rs2 dec)).
Abbreviation rd dec := (j_rd dec).

(** ** High products *)
Lemma emit_mulh_ok : forall dec, regs_ok dec ->
  computes (rd dec) (fun R => u64 (s64 (a R dec) * s64 (b R dec) / 2 ^ 64)) (emit_mulh dec).
Proof. emit_start; emit_end_ext. Qed.
Lemma emit_mulhu_ok : forall dec, regs_ok dec -> computes (rd dec) (fun R => u64 (a R dec * b R dec / 2 ^ 64)) (emit_mulhu dec).
Proof. emit_start; emit_end_ext. Qed.
Lemma emit_mulhsu_ok : forall dec, regs_ok dec ->
  computes (rd dec) (fun R => u64 (s64 (a R dec) * b R dec / 2 ^ 64)) (emit_mulhsu dec).
Proof.
  emit_start; try (destruct (Z.eq_dec rs2 1); [subst rs2; try discriminate; try congruence |]);
    repeat wp_step; wp_end_ext; regs_gen; wrap_tac;
    match goal with H : (s64 (Z.land (u64 ?v) (u64 ?v)) <? 0) = ?c |- _ => rewrite Z.land_diag, swrap_wrap in H end;
    match goal with
    | H : (s64 ?v <? 0) = true |- _ => apply (mulhsu_neg v); [assumption | assumption | lia]
    | H : (s64 ?v <? 0) = false |- _ => rewrite (s64_nonneg v) by (assumption || lia); reflexivity
    end.
Qed.

(** ** Divisions

    Left out: a divisor in [ra], which is overwritten before the division; a
    dividend that is [x0], for which the quotient by zero is 0; a divisor that
    is [x0], for which the remainder is -1; the remainder of [ra], which is
    lost when it is the least number. *)
Lemma emit_divu_ok : forall dec, regs_ok dec -> j_rs2 dec <> 1 -> j_rs1 dec <> 0 ->
  computes (rd dec) (fun R => if b R dec =? 0 then 2 ^ 64 - 1 else a R dec / b R dec) (emit_divu dec).
Proof. div_sim; div_close. Qed.
Lemma emit_remu_ok : forall dec, regs_ok dec -> j_rs2 dec <> 1 -> j_rs2 dec <> 0 ->
  computes (rd dec) (fun R => if b R dec =? 0 then a R dec else a R dec mod b R dec) (emit_remu dec).
Proof. div_sim; div_close. Qed.
Lemma emit_div_ok : forall dec, regs_ok dec -> j_rs2 dec <> 1 -> j_rs1 dec <> 0 ->
  computes (rd dec) (fun R => if b R dec =? 0 then 2 ^ 64 - 1 else u64 (Z.quot (s64 (a R dec)) (s64 (b R dec)))) (emit_div dec).
Proof. div_sim; div_close. Qed.
Lemma emit_rem_ok : forall dec, regs_ok dec -> j_rs2 dec <> 1 -> j_rs2 dec <> 0 -> j_rs1 dec <> 1 ->
  computes (rd dec) (fun R => if b R dec =? 0 then a R dec else u64 (Z.rem (s64 (a R dec)) (s64 (b R dec)))) (emit_rem dec).
Proof. div_sim; div_close. Qed.

(** The word divisions test all 64 bits of a divisor in a host register. *)
Definition divisor_ok (dec : jit_decode) (R : list Z) : Prop :=
  (0 <? x86_reg (j_rs2 dec)) = true -> u32 (b R dec) = 0 -> b R dec = 0.

Lemma emit_divuw_ok : forall dec, regs_ok dec -> j_rs2 dec <> 1 -> j_rs1 dec <> 0 ->
  computes_when (divisor_ok dec) (rd dec)
    (fun R => if u32 (b R dec) =? 0 then 2 ^ 64 - 1 else sext32 (u32 (a R dec) / u32 (b R dec))) (emit_divuw dec).
Proof. unfold divisor_ok. div_sim; div_close_w. Qed.
Lemma emit_divw_ok : forall dec, regs_ok dec -> j_rs2 dec <> 1 -> j_rs1 dec <> 0 ->
  computes_when (divisor_ok dec) (rd dec)
    (fun R => if u32 (b R dec) =? 0 then 2 ^ 64 - 1 else sext32 (Z.quot (s32 (a R dec)) (s32 (b R dec)))) (emit_divw dec).
Proof. unfold divisor_ok. div_sim; div_close_w. Qed.
Lemma emit_remuw_ok : forall dec, regs_ok dec -> j_rs2 dec <> 1 -> j_rs2 dec <> 0 ->
  computes_when (divisor_ok dec) (rd dec)
    (fun R => if u32 (b R dec) =? 0 then sext32 (a R dec) else sext32 (u32 (a R dec) mod u32 (b R dec))) (emit_remuw dec).
Proof. unfold divisor_ok. div_sim; div_close_w. Qed.
Lemma emit_remw_ok : forall dec, regs_ok dec -> j_rs2 dec <> 1 -> j_rs2 dec <> 0 -> j_rs1 dec <> 1 ->
  computes_when (divisor_ok dec) (rd dec)
    (fun R => if u32 (b R dec) =? 0 then sext32 (a R dec) else sext32 (Z.rem (s32 (a R dec)) (s32 (b R dec)))) (emit_remw dec).
Proof. unfold divisor_ok. div_sim; div_close_w. Qed.
End Div.
