(* ===== verification/JitMem.v ===== *)
(** * JitMem: the emitted loads and stores access the guest's memory as the
    interpreter's MMU does. *)

From Stdlib Require Import ZArith Lia Bool List.
From stdpp Require Import base numbers list.
From S2P Require Import Prelude Proxy Host Jit JitSound JitAuto.

#[local] Arguments x86_reg : simpl never.
#[local] Arguments wrap : simpl never.
#[local] Arguments swrap : simpl never.
#[local] Arguments V : simpl never.

Lemma read_T_range w m va : 0 < w -> 0 <= read_T w m va < 2 ^ w.
Proof. intros Hw. apply wrap_range, Hw. Qed.

Lemma read_T_wrap w w' m va : 0 < w' <= w -> wrap w (read_T w' m va) = read_T w' m va.
Proof.
  intros Hw. apply wrap_small. pose proof (read_T_range w' m va ltac:(lia)).
  pose proof (Z.pow_le_mono_r 2 w' w ltac:(lia) ltac:(lia)). lia.
Qed.

(** A write takes the low bytes of the value. *)
Lemma write_bytes_low n m va v v' :
  wrap (8 * Z.of_nat n) v = wrap (8 * Z.of_nat n) v' -> write_bytes n m va v = write_bytes n m va v'.
Proof.
  revert m va v v'. induction n as [| n IHn]; intros m va v v' E; [reflexivity |]. cbn [write_bytes].
  assert (E8 : u8 v = u8 v').
  { rewrite <- (wrap_narrow 8 (8 * Z.of_nat (S n)) v), <- (wrap_narrow 8 (8 * Z.of_nat (S n)) v') by lia. rewrite E. reflexivity. }
  rewrite E8. destruct n as [| n]; [reflexivity |]. apply IHn. apply Z.bits_inj'. intros i Hi. rewrite !wrap_spec by lia.
  destruct (Z.ltb_spec i (8 * Z.of_nat (S n))); [| reflexivity]. cbn [andb]. rewrite !Z.shiftr_spec by lia.
  pose proof (f_equal (fun z => Z.testbit z (i + 8)) E) as Ei. cbv beta in Ei. rewrite !wrap_spec in Ei by lia.
  destruct (Z.ltb_spec (i + 8) (8 * Z.of_nat (S (S n)))); [exact Ei | lia].
Qed.

Lemma write_bytes_wrap w w' m va v : 0 < w -> w mod 8 = 0 -> w <= w' ->
  write_bytes (bytes_of w) m va (wrap w' v) = write_bytes (bytes_of w) m va v.
Proof.
  intros Hw H8 Hle. apply write_bytes_low. unfold bytes_of. rewrite Z2Nat.id by (apply Z.div_pos; lia).
  apply wrap_narrow. pose proof (Z.div_mod w 8). lia.
Qed.

Ltac load_end :=
  repeat wp_step; wp_end; autorewrite with wrap;
  repeat match goal with E : (0 <? x86_reg ?r) = true |- context [dput 32 ?r _ _] => rewrite (dput_mapped r _ _ E) end;
  rewrite ?read_T_wrap by lia; autorewrite with wrap; try reflexivity.

Ltac store_end :=
  repeat wp_step;
  match goal with
  | HA : rep ?A ?x |- runs [] None ?x _ => apply (wp_end_from A x HA); [reflexivity | cbn [amem] | reflexivity | reflexivity]
  end;
  repeat match goal with Hz : V ?R 0 = 0 |- context [V ?R 0] => rewrite Hz end;
  rewrite ?(wrap_0 64), ?write_bytes_wrap by (lia || reflexivity); autorewrite with wrap;
  rewrite ?write_bytes_wrap by (lia || reflexivity); try reflexivity.

Section Mem.
Abbreviation ea R dec := (u64 (V R (j_rs1 dec) + j_imm dec)).
Abbreviation b R dec := (V R (j_rs2 dec)).
Abbreviation rd dec := (j_rd dec).

(** ** Loads *)
Lemma emit_ld_ok : forall dec, regs_ok dec -> loads (rd dec) (fun m R => read_T 64 m (ea R dec)) (emit_ld dec).
Proof. emit_start; load_end. Qed.
Lemma emit_lw_ok : forall dec, regs_ok dec -> loads (rd dec) (fun m R => u64 (s32 (read_T 32 m (ea R dec)))) (emit_lw dec).
Proof. emit_start; load_end. Qed.
Lemma emit_lwu_ok : forall dec, regs_ok dec -> loads (rd dec) (fun m R => read_T 32 m (ea R dec)) (emit_lwu dec).
Proof. emit_start; load_end. Qed.
Lemma emit_lh_ok : forall dec, regs_ok dec -> loads (rd dec) (fun m R => u64 (s16 (read_T 16 m (ea R dec)))) (emit_lh dec).
Proof. emit_start; load_end. Qed.
Lemma emit_lhu_ok : forall dec, regs_ok dec -> loads (rd dec) (fun m R => read_T 16 m (ea R dec)) (emit_lhu dec).
Proof. emit_start; load_end. Qed.
Lemma emit_lb_ok : forall dec, regs_ok dec -> loads (rd dec) (fun m R => u64 (s8 (read_T 8 m (ea R dec)))) (emit_lb dec).
Proof. emit_start; load_end. Qed.
Lemma emit_lbu_ok : forall dec, regs_ok dec -> loads (rd dec) (fun m R => read_T 8 m (ea R dec)) (emit_lbu dec).
Proof. emit_start; load_end. Qed.

(** ** Stores *)
Lemma emit_sd_ok : forall dec, regs_ok dec ->
  stores (fun m R => write_bytes (bytes_of 64) m (ea R dec) (wrap 64 (b R dec))) (emit_sd dec).
Proof. emit_start; store_end. Qed.
Lemma emit_sw_ok : forall dec, regs_ok dec ->
  stores (fun m R => write_bytes (bytes_of 32) m (ea R dec) (wrap 32 (b R dec))) (emit_sw dec).
Proof. emit_start; store_end. Qed.
Lemma emit_sh_ok : forall dec, regs_ok dec ->
  stores (fun m R => write_bytes (bytes_of 16) m (ea R dec) (wrap 16 (b R dec))) (emit_sh dec).
Proof. emit_start; store_end. Qed.
Lemma emit_sb_ok : forall dec, regs_ok dec ->
  stores (fun m R => write_bytes (bytes_of 8) m (ea R dec) (wrap 8 (b R dec))) (emit_sb dec).
Proof. emit_start; store_end. Qed.
End Mem.
