(* ===== verification/JitEmit.v ===== *)
(** * JitEmit: the emitter's state, control flow and traces
    ([jit/jit-emitter-rv64.h]) and the fusion of instructions in front of it
    ([jit/jit-fusion.h]). *)

From Stdlib Require Import ZArith Lia Bool List.
From stdpp Require Import base numbers list.
From S2P Require Import Prelude Meta Codec ExecControl Host Jit.

(** ** The state of an emitter

    The keys of the maps of labels; the stack of return addresses, its top
    first.  The label of the code of [pc] is [At pc].  The positions that
    [jmp_fixup_labels] records, to patch the jumps later, are left out. *)
Record emitter := mkEmitter {
  labels : list Z; callstack : list Z; term_pc : Z; jmp_tramp_labels : list Z; exit_tramp_labels : list Z }.

Definition new_emitter : emitter := mkEmitter [] [] 0 [] [].

Section Setters.
Context (st : emitter).
Definition with_label (pc : Z) : emitter :=
  mkEmitter (pc :: labels st) (callstack st) (term_pc st) (jmp_tramp_labels st) (exit_tramp_labels st).
Definition set_callstack (s : list Z) : emitter :=
  mkEmitter (labels st) s (term_pc st) (jmp_tramp_labels st) (exit_tramp_labels st).
Definition set_term_pc (pc : Z) : emitter :=
  mkEmitter (labels st) (callstack st) pc (jmp_tramp_labels st) (exit_tramp_labels st).
Definition set_jmp_tramp (l : list Z) : emitter :=
  mkEmitter (labels st) (callstack st) (term_pc st) l (exit_tramp_labels st).
Definition set_exit_tramp (l : list Z) : emitter :=
  mkEmitter (labels st) (callstack st) (term_pc st) (jmp_tramp_labels st) l.
End Setters.

Definition mem_pc (pc : Z) (l : list Z) : bool := existsb (Z.eqb pc) l.

(** A [std::map] keeps its keys in order. *)
Fixpoint insert_key (pc : Z) (l : list Z) : list Z :=
  match l with
  | [] => [pc]
  | q :: l' => if pc =? q then l else if pc <? q then pc :: l else q :: insert_key pc l'
  end.

Definition create_jump_tramp (pc : Z) (st : emitter) : emitter := set_jmp_tramp st (insert_key pc (jmp_tramp_labels st)).
Definition create_exit_tramp (pc : Z) (st : emitter) : emitter := set_exit_tramp st (insert_key pc (exit_tramp_labels st)).

(** The code an instruction appends, the state after it, and whether the trace
    goes on. *)
Abbreviation emission := (list xinst * emitter * bool)%type.

Definition emit_pc (new_pc : Z) : list xinst :=
  if new_pc <? 2 ^ 32 - 1 then [Mov rbp_pc (Imm new_pc)] else [Mov rax (Imm new_pc); Mov rbp_pc rax].

(** ** Entry and exit *)
Definition volatile_regs : list (Z * Z) :=
  [(1, 2); (2, 3); (5, 6); (6, 7); (10, 8); (11, 9); (12, 10); (13, 11); (14, 12); (15, 13); (16, 14); (17, 15)].

Definition emit_prolog : list xinst :=
  [Push 12; Push 13; Push 14; Push 15; Push 3; Push 5; Mov (gpq 5) (gpq 7)] ++
  map (fun '(r, h) => Mov (gpq h) (rbp_reg_q r)) volatile_regs.

Definition emit_tramps (st : emitter) (lookup_trace_fast : Z) : list xinst :=
  concat (map (fun pc => Bind (Jump_tramp pc) :: emit_pc pc ++ [Jmp (Addr lookup_trace_fast)]) (jmp_tramp_labels st)) ++
  concat (map (fun pc => Bind (Exit_tramp pc) :: emit_pc pc ++ [Jmp Term]) (exit_tramp_labels st)).

Definition emit_epilog (st : emitter) (lookup_trace_fast : Z) : list xinst :=
  map (fun '(r, h) => Mov (rbp_reg_q r) (gpq h)) volatile_regs ++
  [Pop 5; Pop 3; Pop 15; Pop 14; Pop 13; Pop 12; Jmp Caller] ++ emit_tramps st lookup_trace_fast.

(** [end]. *)
Definition emit_term (st : emitter) : list xinst :=
  (if term_pc st =? 0 then [] else emit_pc (term_pc st)) ++ [Bind Term].

Section Emit.
(** The compiled traces, by the address of the guest (0 for none), and the
    address of the code that looks a trace up. *)
Context (lookup_trace_slow : Z -> Z) (lookup_trace_fast : Z).

(** ** Control flow *)

(** A jump out of the trace: to the compiled trace of [pc], or to a trampoline. *)
Definition emit_out (j : label -> xinst) (pc : Z) (st : emitter) : list xinst * emitter :=
  if lookup_trace_slow pc =? 0 then ([j (Jump_tramp pc)], create_jump_tramp pc st)
  else ([j (Addr (lookup_trace_slow pc))], st).

Definition emit_branch (dec : jit_decode) (cond : bool) (bf ibf : xcond) (st : emitter) : emission :=
  let branch_pc := u64 (j_pc dec + j_imm dec) in
  let cont_pc := u64 (j_pc dec + inst_length (j_inst dec)) in
  let branch_i := mem_pc branch_pc (labels st) in
  let cont_i := mem_pc cont_pc (labels st) in
  if branch_i && cont_i then (emit_cmp dec ++ [Jcc bf (At branch_pc); Jmp (At cont_pc)], st, true)
  else if cond && branch_i then
    let (c, st) := emit_out Jmp cont_pc st in
    (emit_cmp dec ++ [Jcc bf (At branch_pc)] ++ c, set_term_pc st 0, true)
  else if negb cond && cont_i then
    let (c, st) := emit_out Jmp branch_pc st in
    (emit_cmp dec ++ [Jcc ibf (At cont_pc)] ++ c, set_term_pc st 0, true)
  else if cond then
    let (c, st) := emit_out (Jcc ibf) cont_pc st in (emit_cmp dec ++ c, set_term_pc st branch_pc, true)
  else
    let (c, st) := emit_out (Jcc bf) branch_pc st in (emit_cmp dec ++ c, set_term_pc st cont_pc, true).

(** The conditions [bf] and [ibf] of [emit_bne] to [emit_bgeu]. *)
Definition branch_cond (op : rv_op) : option (xcond * xcond) :=
  match op with
  | rv_op_bne => Some (kCondNE, kCondE) | rv_op_beq => Some (kCondE, kCondNE)
  | rv_op_blt => Some (kCondL, kCondGE) | rv_op_bge => Some (kCondGE, kCondL)
  | rv_op_bltu => Some (kCondB, kCondAE) | rv_op_bgeu => Some (kCondAE, kCondB)
  | _ => None
  end.

(** The comparison of the guest's registers [R] at the time of emission. *)
Definition branch_now (op : rv_op) (R : list Z) (dec : jit_decode) : bool :=
  match branch_spec 64 op with
  | Some cond => cond (nth (Z.to_nat (j_rs1 dec)) R 0) (nth (Z.to_nat (j_rs2 dec)) R 0)
  | None => false
  end.

(** The return address to [rd]. *)
Definition emit_link (dec : jit_decode) (link_addr : Z) : list xinst :=
  if 0 <? x86_reg (j_rd dec) then [Mov (gpq (x86_reg (j_rd dec))) (Imm link_addr)]
  else [Mov rax (Imm link_addr); Mov (rbp_reg_q (j_rd dec)) rax].

Definition emit_jal (dec : jit_decode) (st : emitter) : emission :=
  let st := set_term_pc st (u64 (j_pc dec + j_imm dec)) in
  if j_rd dec =? 0 then ([], st, true)
  else
    let link_addr := u64 (j_pc dec + inst_length (j_inst dec)) in
    (emit_link dec link_addr, set_callstack st (link_addr :: callstack st), true).

(** A return to the address that a call in the trace left is inlined. *)
Definition inlined_ret (dec : jit_decode) (st : emitter) : option (Z * list Z) :=
  match callstack st with
  | link_addr :: s => if (j_rd dec =? 0) && (j_rs1 dec =? 1) then Some (link_addr, s) else None
  | [] => None
  end.

Definition emit_jalr (dec : jit_decode) (st : emitter) : emission :=
  let rs1x := x86_reg (j_rs1 dec) in
  match inlined_ret dec st with
  | Some (link_addr, s) =>
      ([Cmp (gpq (x86_reg 1)) (Imm link_addr); Jcc kCondNE (Exit_tramp (j_pc dec))],
       create_exit_tramp (j_pc dec) (set_callstack (set_term_pc st 0) s), true)
  | None =>
      let link_addr := u64 (j_pc dec + inst_length (j_inst dec)) in
      ((if j_rs1 dec =? 0 then if j_imm dec =? 0 then [Alu x_xor eax eax] else [Mov eax (Imm (j_imm dec))]
        else if 0 <? rs1x then
          if j_imm dec =? 0 then [Mov rbp_pc (gpq rs1x)] else [Lea rax rs1x None (j_imm dec); Mov rbp_pc rax]
        else [Mov rax (rbp_reg_q (j_rs1 dec)); Alu x_add rax (Imm (j_imm dec)); Mov rbp_pc rax]) ++
       (if j_rd dec =? 0 then [] else emit_link dec link_addr) ++ [Jmp (Addr lookup_trace_fast)],
       set_term_pc st 0, false)
  end.

(** [auipc] and [jalr]; [rd] is the register of [auipc]. *)
Definition emit_call (dec : jit_decode) (st : emitter) : emission :=
  let target := u64 (j_pc dec + j_imm dec) in
  let rs1x := x86_reg (j_rd dec) in
  let link_addr := u64 (j_pc dec + inst_length (j_inst dec) + 4) in
  ((if j_rd dec =? 1 then []
    else if 0 <? rs1x then [Mov (gpq rs1x) (Imm target)]
    else [Mov rax (Imm target); Mov (rbp_reg_q (j_rs1 dec)) rax]) ++ [Mov (gpq (x86_reg 1)) (Imm link_addr)],
   set_callstack (set_term_pc st target) (link_addr :: callstack st), true).

Definition emit_zextw (dec : jit_decode) : list xinst :=
  let '(rdx_, rs1x) := (x86_reg (j_rd dec), x86_reg (j_rs1 dec)) in
  if j_rd dec =? j_rs1 dec then
    if 0 <? rdx_ then [Movzx (gpq rdx_) (gpd rdx_)] else [Mov eax (rbp_reg_d (j_rd dec)); Mov (rbp_reg_q (j_rd dec)) rax]
  else if (0 <? rdx_) && (0 <? rs1x) then [Movzx (gpq rdx_) (gpd rs1x)]
  else if 0 <? rdx_ then [Mov (gpd rdx_) (rbp_reg_d (j_rs1 dec))]
  else if 0 <? rs1x then [Movzx rax (gpd rs1x); Mov (rbp_reg_q (j_rd dec)) rax]
  else [Movzx rax (rbp_reg_d (j_rs1 dec)); Mov (rbp_reg_q (j_rd dec)) rax].

(** ** The instructions that go on to the next *)
Definition emit_code (op : rv_op) : option (jit_decode -> list xinst) :=
  match op with
  | rv_op_auipc => Some emit_auipc | rv_op_add => Some emit_add | rv_op_sub => Some emit_sub
  | rv_op_mul => Some emit_mul | rv_op_mulh => Some emit_mulh | rv_op_mulhu => Some emit_mulhu
  | rv_op_mulhsu => Some emit_mulhsu | rv_op_div => Some emit_div | rv_op_rem => Some emit_rem
  | rv_op_divu => Some emit_divu | rv_op_remu => Some emit_remu
  | rv_op_slt => Some emit_slt | rv_op_sltu => Some emit_sltu | rv_op_and => Some emit_and
  | rv_op_or => Some emit_or | rv_op_xor => Some emit_xor | rv_op_sll => Some emit_sll
  | rv_op_srl => Some emit_srl | rv_op_sra => Some emit_sra | rv_op_addw => Some emit_addw
  | rv_op_subw => Some emit_subw | rv_op_mulw => Some emit_mulw | rv_op_divw => Some emit_divw
  | rv_op_remw => Some emit_remw | rv_op_divuw => Some emit_divuw | rv_op_remuw => Some emit_remuw
  | rv_op_sllw => Some emit_sllw | rv_op_srlw => Some emit_srlw | rv_op_sraw => Some emit_sraw
  | rv_op_addi => Some emit_addi | rv_op_slti => Some emit_slti | rv_op_sltiu => Some emit_sltiu
  | rv_op_andi => Some emit_andi | rv_op_ori => Some emit_ori | rv_op_xori => Some emit_xori
  | rv_op_slli => Some emit_slli | rv_op_srli => Some emit_srli | rv_op_srai => Some emit_srai
  | rv_op_addiw => Some emit_addiw | rv_op_slliw => Some emit_slliw | rv_op_srliw => Some emit_srliw
  | rv_op_sraiw => Some emit_sraiw
  | rv_op_ld => Some emit_ld | rv_op_lw => Some emit_lw | rv_op_lwu => Some emit_lwu
  | rv_op_lh => Some emit_lh | rv_op_lhu => Some emit_lhu | rv_op_lb => Some emit_lb | rv_op_lbu => Some emit_lbu
  | rv_op_sd => Some emit_sd | rv_op_sw => Some emit_sw | rv_op_sh => Some emit_sh | rv_op_sb => Some emit_sb
  | rv_op_lui => Some emit_lui
  | _ => None
  end.

(** The [switch] of [emit]; [R] are the guest's registers at that time. *)
Definition emit_inst (dec : jit_decode) (R : list Z) (st : emitter) : emission :=
  let next n := set_term_pc st (u64 (j_pc dec + n)) in
  match j_op dec with
  | Rv op =>
      match emit_code op, branch_cond op with
      | Some code, _ => (code dec, next (inst_length (j_inst dec)), true)
      | _, Some (bf, ibf) => emit_branch dec (branch_now op R dec) bf ibf st
      | _, _ =>
          match op with
          | rv_op_jal => emit_jal dec st | rv_op_jalr => emit_jalr dec st | _ => ([], st, false)
          end
      end
  | jit_op_la => (emit_la dec, next (inst_length (j_inst dec) + 4), true)
  | jit_op_call => emit_call dec st
  | jit_op_zextw => (emit_zextw dec, next (j_sz dec), true)
  | jit_op_addiwz => (emit_addiwz dec, next (j_sz dec), true)
  end.

(** [emit]: a guest instruction that has code already ends the trace. *)
Definition emit (dec : jit_decode) (R : list Z) (st : emitter) : emission :=
  if mem_pc (j_pc dec) (labels st) then ([], st, false)
  else
    let '(c, st, go) := emit_inst dec R (with_label st (j_pc dec)) in (Bind (At (j_pc dec)) :: c, st, go).

(** ** Traces

    The instructions that [jit_trace] runs, with the guest's registers before
    each; the trace ends where [emit] says so.  The code, and the state. *)
Fixpoint emit_trace (ds : list (jit_decode * list Z)) (st : emitter) : list xinst * emitter :=
  match ds with
  | [] => ([], st)
  | (dec, R) :: ds =>
      let '(c, st, go) := emit dec R st in
      if go : bool then let (c', st) := emit_trace ds st in (c ++ c', st) else (c, st)
  end.

(** The function that is compiled. *)
Definition trace_code (ds : list (jit_decode * list Z)) : list xinst :=
  let (c, st) := emit_trace ds new_emitter in
  emit_prolog ++ c ++ emit_term st ++ emit_epilog st lookup_trace_fast.
End Emit.
