(* ===== verification/JitExec.v ===== *)
(** * JitExec: what the interpreter does for the instructions the JIT compiles,
    on the user-mode machine. *)

From Stdlib Require Import ZArith Lia Bool List.
From stdpp Require Import base numbers list.
From S2P Require Import Prelude Operand Meta Decode Codec Alu Machine Fpu Interp InterpSound ExecSpec ExecControl Proxy Model.

Abbreviation m64 := processor_rv64imafdc_model.

#[local] Existing Instance proxy_processor.
#[export] Instance jit_mmu : MMU proxy := proxy_mmu 64.

(** The value that a computation writes to [rd], from the two source registers. *)
Definition int_value (d : decode) (pc a b : Z) : option Z :=
  match rtype_spec 64 (d_op d), rtype_word_spec (d_op d), itype_base (d_op d), itype_word_base (d_op d) with
  | Some f, _, _, _ | _, Some f, _, _ => Some (f a b)
  | _, _, Some rop, _ => f ← rtype_spec 64 rop; Some (f a (u64 (d_imm d)))
  | _, _, _, Some rop => f ← rtype_word_spec rop; Some (f a (u64 (d_imm d)))
  | _, _, _, _ =>
      match d_op d with
      | rv_op_lui => Some (u64 (d_imm d)) | rv_op_auipc => Some (u64 (pc + d_imm d)) | _ => None
      end
  end.

(** The width of a load and of a store, how the loaded value is extended. *)
Definition load64_spec (op : rv_op) : option (Z * (Z -> Z)) :=
  match op with
  | rv_op_ld => Some (64, fun v => v) | rv_op_lwu => Some (32, fun v => v) | _ => load_spec 64 op
  end.

Definition store64_spec (op : rv_op) : option Z :=
  match op with rv_op_sd => Some 64 | _ => store_spec op end.

(** Counts that C++ defines. *)
Definition counts_ok (d : decode) (b : Z) : Prop := shift_ok 64 (d_op d) b /\ imm_ok 64 (d_op d) (d_imm d).

Section Exec.
Context (fpu : host_fpu) (d : decode) (off : Z) (p : proxy).
Abbreviation exec := (inst_exec (P := proxy) fpu m64 d off).

Lemma write_rd_x0 : ireg (px_proc p) !! 0%nat = Some 0 -> write_rd 64 0 0 p = p.
Proof using.
  intros H. unfold write_rd. destruct p as [q m c]. cbn in *. rewrite list_insert_id by exact H. destruct q. reflexivity.
Qed.

Lemma set_rd_x0 (e : M proxy Z) :
  d_rd d = 0 -> ireg (px_proc p) !! 0%nat = Some 0 -> set_rd 64 d e p = Ok tt p.
Proof using.
  intros Hrd H0. rewrite <- (write_rd_x0 H0) at 2. unfold set_rd, bind. rewrite Hrd. cbn [Z.eqb ret].
  apply put_ireg_run. apply lookup_lt_Some in H0. cbn. lia.
Qed.

(** Nothing is computed for [x0]. *)
Lemma exec_int_x0 a b v :
  int_value d (pc (px_proc p)) a b = Some v -> d_rd d = 0 -> ireg (px_proc p) !! 0%nat = Some 0 -> exec p = Ok off p.
Proof using.
  intros Hv Hrd H0.
  unfold inst_exec. cbn [m_xlen m64 Z.eqb Pos.eqb]. unfold exec_inst_rv64, exec_inst_rv64_groups.
  unfold int_value in Hv. destruct (d_op d) eqn:E; try discriminate Hv; clear Hv;
    cbv [exec_common app exec_rvi_jump exec_rvi_mem exec_rvi_imm exec_rvi_reg exec_rvm exec_rva_w exec_rvf exec_rvd
      exec_rv64_mem exec_rv64_word exec_rv64_mword];
    rewrite E; cbn [dispatch guarded]; change (rvi (m_isa m64)) with true; change (rvm (m_isa m64)) with true; cbv iota;
    unfold bind at 1; rewrite set_rd_x0 by assumption; reflexivity.
Qed.

(** A well-formed guest, and the operands of an instruction that has them. *)
Context (Hp : proc_ok 64 (px_proc p)).
Context (Hrd : 0 <= d_rd d < 32) (Hrs1 : 0 <= d_rs1 d < 32) (Hrs2 : 0 <= d_rs2 d < 32).
Abbreviation reg r := (nth (Z.to_nat r) (ireg (px_proc p)) 0).
Abbreviation a := (reg (d_rs1 d)).
Abbreviation b := (reg (d_rs2 d)).

Lemma reg_lookup r : 0 <= r < 32 -> ireg (px_proc p) !! Z.to_nat r = Some (reg r).
Proof using Hp. intros Hr. rewrite nth_lookup. destruct (lookup_lt_is_Some_2 (ireg (px_proc p)) (Z.to_nat r)) as [v E].
  { rewrite (ok_ireg_length _ _ Hp). lia. }
  rewrite E. reflexivity. Qed.

Lemma reg_range r : 0 <= r < 32 -> 0 <= reg r < 2 ^ 64.
Proof using Hp.
  intros Hr. pose proof (reg_lookup r Hr) as L. pose proof (ok_ireg _ _ Hp) as F. rewrite Forall_lookup in F. exact (F _ _ L).
Qed.

Lemma reads_ok : d_rd d <> 0 -> reads 64 d p a b.
Proof using Hp Hrd Hrs1 Hrs2.
  intros Hn. repeat split; try lia; try (apply reg_lookup; assumption); try (apply reg_range; assumption).
  cbn. rewrite (ok_ireg_length _ _ Hp). lia.
Qed.

Definition put_rd (v : Z) (q : proxy) : proxy := if d_rd d =? 0 then q else write_rd 64 (d_rd d) v q.

Lemma exec_int v : int_value d (pc (px_proc p)) a b = Some v -> counts_ok d b -> exec p = Ok off (put_rd v p).
Proof using Hp Hrd Hrs1 Hrs2.
  intros Hv [Hs Hi]. unfold put_rd. destruct (Z.eqb_spec (d_rd d) 0) as [E0 | E0].
  { apply (exec_int_x0 a b v Hv E0), Hp. }
  pose proof (reads_ok E0) as R. pose proof (reads_rs1 _ _ _ _ _ R) as R1. unfold int_value in Hv.
  destruct (rtype_spec 64 (d_op d)) as [f |] eqn:E1.
  { injection Hv as <-. unfold inst_exec. cbn [m_xlen m64 Z.eqb Pos.eqb]. apply (exec_common_rtype fpu 64 ltac:(lia) _ d off p a b R);
      [exact E1 | destruct (d_op d); reflexivity | exact Hs]. }
  destruct (rtype_word_spec (d_op d)) as [f |] eqn:E2.
  { injection Hv as <-. apply (exec_word_rtype fpu _ d off p a b R); [exact E2 | destruct (d_op d); reflexivity]. }
  destruct (itype_base (d_op d)) as [rop |] eqn:E3.
  { destruct (rtype_spec 64 rop) as [f |] eqn:E4; [| discriminate Hv]. injection Hv as <-.
    apply (exec_common_itype fpu 64 ltac:(lia) _ d off p a R1 _ rop f); [exact E3 | exact E4 | reflexivity | exact Hi]. }
  destruct (itype_word_base (d_op d)) as [rop |] eqn:E4.
  { destruct (rtype_word_spec rop) as [f |] eqn:E5; [| discriminate Hv]. injection Hv as <-.
    apply (exec_word_itype fpu _ d off p a R1 rop f); [exact E4 | exact E5 | reflexivity | exact Hi]. }
  assert (Hrd' : 0 < d_rd d < Z.of_nat (length (ireg (base p)))) by apply R1.
  destruct (d_op d) eqn:E; try discriminate Hv; injection Hv as <-; unfold inst_exec; cbn [m_xlen m64 Z.eqb Pos.eqb];
    unfold exec_inst_rv64, exec_inst_rv64_groups; cbv [exec_common app exec_rvi_jump]; rewrite E; cbn [dispatch guarded];
    change (rvi (m_isa m64)) with true; cbv iota; unfold bind at 1.
  - rewrite (set_rd_run 64 d _ (d_imm d) p) by (exact Hrd' || reflexivity). unfold write_rd. rewrite wrap_wrap. reflexivity.
  - rewrite (set_rd_run 64 d _ (u64 (pc (px_proc p) + d_imm d)) p) by (exact Hrd' || reflexivity). reflexivity.
Qed.

Abbreviation ea := (u64 (a + d_imm d)).

Lemma ea_run q : px_proc q = px_proc p -> eff_addr 64 d q = Ok ea q.
Proof using Hp Hrs1. intros E. apply eff_addr_run; [cbn; rewrite E; apply reg_lookup; assumption | lia]. Qed.

Lemma read_T_bound w m va : 0 < w <= 64 -> 0 <= read_T w m va < 2 ^ 64.
Proof using.
  intros Hw. pose proof (wrap_range w ltac:(lia) (read_bytes (bytes_of w) m va)).
  pose proof (Z.pow_le_mono_r 2 w 64 ltac:(lia) ltac:(lia)). unfold read_T. lia.
Qed.

(** A register is written with the value, nothing when it is [x0]. *)
Lemma set_rd_ret v : 0 <= v < 2 ^ 64 -> forall w, u64 w = v -> set_rd 64 d (ret w) p = Ok tt (put_rd v p).
Proof using Hp Hrd.
  intros Hv w E. unfold put_rd. destruct (Z.eqb_spec (d_rd d) 0) as [E0 | E0].
  - apply set_rd_x0; [exact E0 | apply Hp].
  - rewrite (set_rd_run 64 d (ret w) w p); [| cbn; rewrite (ok_ireg_length _ _ Hp); lia | reflexivity].
    unfold write_rd. rewrite E, (wrap_small 64 v) by exact Hv. reflexivity.
Qed.

Lemma wrap_wide w z : 0 < w <= 64 -> u64 (wrap w z) = wrap w z.
Proof using.
  intros Hw. apply wrap_small. pose proof (wrap_range w ltac:(lia) z). pose proof (Z.pow_le_mono_r 2 w 64 ltac:(lia) ltac:(lia)). lia.
Qed.

Lemma exec_load64 w ext :
  load64_spec (d_op d) = Some (w, ext) -> exec p = Ok off (put_rd (ext (read_T w (px_mem p) ea)) p).
Proof using Hp Hrd Hrs1.
  intros Hl. unfold inst_exec. cbn [m_xlen m64 Z.eqb Pos.eqb]. unfold exec_inst_rv64, exec_inst_rv64_groups.
  destruct (d_op d) eqn:E; try discriminate Hl; injection Hl as <- <-;
    cbv [exec_common app exec_rvi_jump exec_rvi_mem exec_rvi_imm exec_rvi_reg exec_rvm exec_rva_w exec_rvf exec_rvd
      exec_rv64_mem]; rewrite E; cbn [dispatch guarded]; change (rvi (m_isa m64)) with true; cbv iota;
    unfold load_rd; unfold bind at 1 2; rewrite ea_run by reflexivity; unfold bind at 1; cbn [mmu_load jit_mmu proxy_mmu proxy_load];
    match goal with |- context [set_rd 64 d (ret (?f ?t)) p] =>
      first [rewrite (set_rd_ret (u64 (f t))) by (reflexivity || (apply wrap_range; lia))] end;
    unfold ret; repeat f_equal; rewrite ?wrap_swrap by lia.
  all: unfold read_T; rewrite ?wrap_swrap by lia; rewrite ?wrap_wrap; try reflexivity.
  all: try (apply wrap_small; apply read_T_bound; lia).
  all: rewrite !wrap_wide, ?wrap_wrap by lia; reflexivity.
Qed.

(** The memory after a store. *)
Definition put_mem (m : Z -> Z) : proxy := mkProxy (px_proc p) m (px_clock p).

Lemma exec_store64 w :
  store64_spec (d_op d) = Some w -> exec p = Ok off (put_mem (write_bytes (bytes_of w) (px_mem p) ea (wrap w b))).
Proof using Hp Hrs1 Hrs2.
  intros Hs. destruct (rv_op_eq_dec (d_op d) rv_op_sd) as [E | E].
  - rewrite E in Hs. injection Hs as <-. unfold inst_exec. cbn [m_xlen m64 Z.eqb Pos.eqb].
    unfold exec_inst_rv64, exec_inst_rv64_groups.
    cbv [exec_common app exec_rvi_jump exec_rvi_mem exec_rvi_imm exec_rvi_reg exec_rvm exec_rva_w exec_rvf exec_rvd
      exec_rv64_mem]; rewrite E; cbn [dispatch guarded]; change (rvi (m_isa m64)) with true; cbv iota.
    unfold bind at 1 2. rewrite ea_run by reflexivity. unfold bind at 1. unfold l_val. unfold bind at 1.
    rewrite (get_raw_run ireg _ b) by (lia || (apply reg_lookup; assumption)). cbn [ret]. unfold ret.
    cbn [mmu_store jit_mmu proxy_mmu proxy_store]. rewrite wrap_swrap. reflexivity.
  - assert (Hs' : store_spec (d_op d) = Some w) by (destruct (d_op d); try exact Hs; congruence).
    unfold inst_exec. cbn [m_xlen m64 Z.eqb Pos.eqb]. unfold exec_inst_rv64, exec_inst_rv64_groups.
    pose proof (reg_lookup _ Hrs1 : ireg (base p) !! Z.to_nat (d_rs1 d) = Some a) as L1.
    pose proof (reg_lookup _ Hrs2 : ireg (base p) !! Z.to_nat (d_rs2 d) = Some b) as L2.
    assert (Z1 : 0 <= d_rs1 d) by lia. assert (Z2 : 0 <= d_rs2 d) by lia.
    rewrite (exec_store_run fpu 64 ltac:(right; reflexivity) (m_isa m64) d off p a b L1 L2 Z1 Z2 _ w Hs' eq_refl). reflexivity.
Qed.

Lemma exec_branch64 cond :
  branch_spec 64 (d_op d) = Some cond -> exec p = Ok (if cond a b then u64 (d_imm d) else off) p.
Proof using Hp Hrs1 Hrs2.
  intros Hc. unfold inst_exec. cbn [m_xlen m64 Z.eqb Pos.eqb]. unfold exec_inst_rv64, exec_inst_rv64_groups.
  apply exec_branch_run; try assumption; try apply reg_lookup; try apply reg_range; try lia; reflexivity.
Qed.

(** The return address in [rd]. *)
Definition linked : proxy := put_rd (u64 (pc (px_proc p) + off)) p.

Lemma link_linked : link 64 off p (d_rd d) = linked.
Proof using Hp.
  unfold link, linked, put_rd. destruct (Z.eqb_spec (d_rd d) 0); [apply write_rd_x0, Hp |].
  unfold write_rd. rewrite wrap_wrap. reflexivity.
Qed.

Lemma exec_jal64 : d_op d = rv_op_jal -> exec p = Ok (u64 (d_imm d)) linked.
Proof using Hp Hrd.
  intros E. rewrite <- link_linked. apply exec_jal_run; [exact E | reflexivity |]. cbn. rewrite (ok_ireg_length _ _ Hp). lia.
Qed.

Lemma exec_jalr64 : d_op d = rv_op_jalr -> Z.even (pc (px_proc p)) = true ->
  exists o, exec p = Ok o linked /\ u64 (pc (px_proc p) + o) = Z.land (u64 (a + d_imm d)) (u64 (-2)).
Proof using Hp Hrd Hrs1.
  intros E He. rewrite <- link_linked. eexists. split.
  - apply (exec_jalr_run _ _ _ _ _ _ a); [exact E | reflexivity | cbn; rewrite (ok_ireg_length _ _ Hp); lia | lia | apply reg_lookup; lia].
  - exact (jalr_target 64 ltac:(right; reflexivity) p a (d_imm d) He).
Qed.
End Exec.
