(* ===== verification/JitSim.v ===== *)
(** * JitSim: the code of an instruction does what the interpreter does.

    [holds] relates a state of the host to the user-mode machine; the code of
    an instruction that goes on to the next keeps it, where [code_ok] leaves
    out the operands for which the emitted code does something else. *)

From Stdlib Require Import ZArith Lia Bool List.
From stdpp Require Import base numbers list.
From S2P Require Import Prelude Meta Decode Codec Alu Machine Fpu Interp InterpSound ExecSpec ExecControl Proxy Model Host Jit JitSound JitAuto JitInt JitDiv JitMem JitEmit JitExec.

#[local] Arguments x86_reg : simpl never.
#[local] Arguments wrap : simpl never.
#[local] Arguments swrap : simpl never.
#[local] Arguments V : simpl never.
#[local] Existing Instance proxy_processor.

(** The registers and the memory of the host are the guest's; [stk] is what the
    host's stack holds. *)
Definition holds (stk : list Z) (p : proxy) (x : xstate) : Prop :=
  exists A, rep A x /\ aR A = ireg (px_proc p) /\ amem A = px_mem p /\ astk A = stk.

(** Code that is run to its end. *)
Definition goes_on (stk : list Z) (p : proxy) (k : option label) (x : xstate) : Prop := k = None /\ holds stk p x.

(** ** Operands that the emitted code handles as the interpreter does *)
Abbreviation mapped r := (0 <? x86_reg r).

Definition code_ok (op : rv_op) (dec : jit_decode) (R : list Z) : bool :=
  let b := V R (j_rs2 dec) in
  let word_divisor := negb (mapped (j_rs2 dec)) || negb (u32 b =? 0) || (b =? 0) in
  imm32 (j_imm dec) &&
  match op with
  | rv_op_addw => negb (j_rs1 dec =? 0) || negb (mapped (j_rd dec)) || mapped (j_rs2 dec)
  | rv_op_auipc => mapped (j_rd dec) || imm32 (u64 (j_pc dec + j_imm dec))
  | rv_op_sll | rv_op_srl | rv_op_sra => b mod 128 <? 64
  | rv_op_slli | rv_op_srli | rv_op_srai => (0 <=? j_imm dec) && (j_imm dec <? 64)
  | rv_op_slliw | rv_op_srliw | rv_op_sraiw => (0 <=? j_imm dec) && (j_imm dec <? 32)
  | rv_op_div | rv_op_divu => negb (j_rs2 dec =? 1) && negb (j_rs1 dec =? 0)
  | rv_op_remu => negb (j_rs2 dec =? 1) && negb (j_rs2 dec =? 0)
  | rv_op_rem => negb (j_rs2 dec =? 1) && negb (j_rs2 dec =? 0) && negb (j_rs1 dec =? 1)
  | rv_op_divw | rv_op_divuw => negb (j_rs2 dec =? 1) && negb (j_rs1 dec =? 0) && word_divisor
  | rv_op_remuw => negb (j_rs2 dec =? 1) && negb (j_rs2 dec =? 0) && word_divisor
  | rv_op_remw => negb (j_rs2 dec =? 1) && negb (j_rs2 dec =? 0) && negb (j_rs1 dec =? 1) && word_divisor
  | _ => true
  end.

(** Operands that are register numbers. *)
Definition regs_in (d : decode) : Prop := 0 <= d_rd d < 32 /\ 0 <= d_rs1 d < 32 /\ 0 <= d_rs2 d < 32.

Section Sim.
Context (fpu : host_fpu) (d : decode) (inst pc off : Z) (stk : list Z) (p : proxy) (x : xstate).
Context (Hp : proc_ok 64 (px_proc p)) (Hd : regs_in d) (Hpc : Machine.pc (px_proc p) = pc) (Hx : holds stk p x).
Abbreviation dec := (jit_of pc inst d).
Abbreviation R := (ireg (px_proc p)).

Lemma V_x0 : V R 0 = 0.
Proof using Hp.
  pose proof (ok_x0 _ _ Hp) as H0. unfold V. rewrite nth_lookup. change (Z.to_nat 0) with 0%nat. rewrite H0. reflexivity.
Qed.

Lemma sim_regs_ok : regs_ok dec.
Proof using Hd. destruct Hd as (? & ? & ?). split; assumption. Qed.

(** From the lemmas of the emitters to the processor. *)
Lemma sim_ends c R' m' (q : proxy) :
  (forall A, rep A x -> V (aR A) 0 = 0 -> aR A = R -> amem A = px_mem p -> runs c None x (ends A R' m')) ->
  (guest_ok R' -> R' = ireg (px_proc q)) -> m' = px_mem q -> runs c None x (goes_on stk q).
Proof using Hp Hx.
  intros Hc HR' ->. destruct Hx as (A & HA & HR & Hm & Hs). pose proof V_x0 as H0. rewrite <- HR in H0.
  specialize (Hc A HA H0 HR Hm). unfold runs in *. destruct (host_go c None x) as [[x' k] |]; [| exact Hc].
  destruct Hc as [-> (A' & HA' & E' & Hm' & _ & Hs')]. split; [reflexivity |]. exists A'. split; [exact HA' |].
  rewrite E', Hm', Hs', Hs. split; [apply HR'; rewrite <- E'; apply (rep_guest _ _ HA') | auto].
Qed.

Lemma put_rd_regs v :
  let R' := if d_rd d =? 0 then R else <[Z.to_nat (d_rd d) := v]> R in guest_ok R' -> R' = ireg (px_proc (put_rd d v p)).
Proof using Hp Hd.
  intros R' G. subst R'. unfold put_rd, write_rd. destruct (d_rd d =? 0); [reflexivity |]. cbn.
  assert (F : 0 <= v < 2 ^ 64).
  { pose proof (g_range _ G) as F. rewrite Forall_lookup in F. apply (F (Z.to_nat (d_rd d))).
    apply list_lookup_insert_eq. rewrite (ok_ireg_length _ _ Hp). destruct Hd as [? _]. lia. }
  rewrite wrap_small by exact F. reflexivity.
Qed.

Lemma put_rd_mem v : px_mem (put_rd d v p) = px_mem p.
Proof using. unfold put_rd. destruct (d_rd d =? 0); reflexivity. Qed.

Lemma sim_computes pre f c v :
  computes_when pre (d_rd d) f c -> pre R -> f R = v -> runs c None x (goes_on stk (put_rd d v p)).
Proof using Hp Hd Hx.
  intros Hc Hpre <-. eapply sim_ends; [| apply put_rd_regs | symmetry; apply put_rd_mem].
  intros A HA H0 HR <-. rewrite <- HR in Hpre |- *. apply Hc; assumption.
Qed.

Lemma sim_loads f c v : loads (d_rd d) f c -> f (px_mem p) R = v -> runs c None x (goes_on stk (put_rd d v p)).
Proof using Hp Hd Hx.
  intros Hl <-. eapply sim_ends; [| apply put_rd_regs | symmetry; apply put_rd_mem].
  intros A HA H0 <- <-. apply Hl; [assumption | assumption | exact Logic.I].
Qed.

Lemma sim_stores f c m : stores f c -> f (px_mem p) R = m -> runs c None x (goes_on stk (put_mem p m)).
Proof using Hp Hx.
  intros Hs <-. apply (sim_ends c R (f (px_mem p) R)); [| reflexivity | reflexivity].
  intros A HA H0 <- <-. apply Hs; [assumption | assumption | exact Logic.I].
Qed.

Abbreviation a := (nth (Z.to_nat (d_rs1 d)) R 0).
Abbreviation b := (nth (Z.to_nat (d_rs2 d)) R 0).

Lemma a_range r : 0 <= nth r R 0 < 2 ^ 64.
Proof using Hp.
  destruct (nth_in_or_default r R 0) as [Hin | ->]; [| lia]. pose proof (ok_ireg _ _ Hp) as F.
  rewrite List.Forall_forall in F. exact (F _ Hin).
Qed.

Lemma sext32_mul u k : sext32 (u32 u * k) = sext32 (u * k).
Proof using. unfold sext32. rewrite <- (swrap_wrap 32), wrap_mul_l, swrap_wrap. reflexivity. Qed.

Lemma mulhu_range u v : 0 <= u < 2 ^ 64 -> 0 <= v < 2 ^ 64 -> u64 (u * v / 2 ^ 64) = u * v / 2 ^ 64.
Proof using. intros. apply wrap_small. split; [apply Z.div_pos; nia | apply Z.div_lt_upper_bound; nia]. Qed.

(** The lemma of an emitter. *)
Ltac emitter_ok op :=
  lazymatch op with
  | rv_op_lui => apply emit_lui_ok | rv_op_auipc => apply emit_auipc_ok | rv_op_add => apply emit_add_ok
  | rv_op_sub => apply emit_sub_ok | rv_op_and => apply emit_and_ok | rv_op_or => apply emit_or_ok
  | rv_op_xor => apply emit_xor_ok | rv_op_slt => apply emit_slt_ok | rv_op_sltu => apply emit_sltu_ok
  | rv_op_sll => apply (emit_shift_ok x_shl) | rv_op_srl => apply (emit_shift_ok x_shr)
  | rv_op_sra => apply (emit_shift_ok x_sar)
  | rv_op_mul => apply emit_mul_ok | rv_op_mulh => apply emit_mulh_ok | rv_op_mulhu => apply emit_mulhu_ok
  | rv_op_mulhsu => apply emit_mulhsu_ok | rv_op_div => apply emit_div_ok | rv_op_divu => apply emit_divu_ok
  | rv_op_rem => apply emit_rem_ok | rv_op_remu => apply emit_remu_ok
  | rv_op_addw => apply emit_addw_ok | rv_op_subw => apply emit_subw_ok | rv_op_mulw => apply emit_mulw_ok
  | rv_op_divw => apply emit_divw_ok | rv_op_divuw => apply emit_divuw_ok | rv_op_remw => apply emit_remw_ok
  | rv_op_remuw => apply emit_remuw_ok
  | rv_op_sllw => apply (emit_shiftw_ok x_shl) | rv_op_srlw => apply (emit_shiftw_ok x_shr)
  | rv_op_sraw => apply (emit_shiftw_ok x_sar)
  | rv_op_addi => apply emit_addi_ok | rv_op_andi => apply emit_andi_ok | rv_op_ori => apply emit_ori_ok
  | rv_op_xori => apply emit_xori_ok | rv_op_slti => apply emit_slti_ok | rv_op_sltiu => apply emit_sltiu_ok
  | rv_op_slli => apply (emit_shift_imm_ok x_shl) | rv_op_srli => apply (emit_shift_imm_ok x_shr)
  | rv_op_srai => apply (emit_shift_imm_ok x_sar) | rv_op_addiw => apply emit_addiw_ok
  | rv_op_slliw => apply (emit_shiftw_imm_ok x_shl) | rv_op_srliw => apply (emit_shiftw_imm_ok x_shr)
  | rv_op_sraiw => apply (emit_shiftw_imm_ok x_sar)
  | rv_op_ld => apply emit_ld_ok | rv_op_lw => apply emit_lw_ok | rv_op_lwu => apply emit_lwu_ok
  | rv_op_lh => apply emit_lh_ok | rv_op_lhu => apply emit_lhu_ok | rv_op_lb => apply emit_lb_ok
  | rv_op_lbu => apply emit_lbu_ok | rv_op_sd => apply emit_sd_ok | rv_op_sw => apply emit_sw_ok
  | rv_op_sh => apply emit_sh_ok | rv_op_sb => apply emit_sb_ok
  end.

(** Its hypotheses, from [code_ok]. *)
Ltac premise :=
  unfold addw_encodes, auipc_encodes, divisor_ok; cbn [j_imm j_rd j_rs1 j_rs2 j_pc jit_of];
  first [assumption | exact Logic.I | lia | intros; lia | let M := fresh in intros M; match goal with H : _ || _ = true |- _ => rewrite M in H; exact H end].

(** The register and the immediate instructions. *)
Lemma code_int code v :
  emit_code (d_op d) = Some code -> int_value d pc a b = Some v -> code_ok (d_op d) dec R = true ->
  runs (code dec) None x (goes_on stk (put_rd d v p)).
Proof using Hp Hd Hx.
  pose proof sim_regs_ok as G. intros Hc Hv Hok. apply andb_true_iff in Hok as [Hi Hok]. change (j_imm dec) with (d_imm d) in Hi.
  pose proof (imm32_range _ Hi) as Ri. pose proof (a_range (Z.to_nat (d_rs1 d))) as Ra. pose proof (a_range (Z.to_nat (d_rs2 d))) as Rb.
  unfold int_value in Hv. destruct (d_op d) eqn:E; try discriminate Hv; injection Hc as <-; injection Hv as <-;
    cbn [j_imm j_rd j_rs1 j_rs2 j_pc jit_of] in Hok;
    match type of E with _ = ?op => eapply sim_computes; [emitter_ok op; premise | premise |] end;
    cbn [j_imm j_rd j_rs1 j_rs2 j_pc jit_of xshift_fn]; try reflexivity; unfold V.
  all: try rewrite (wrap_small 64 (d_imm d)) by lia; rewrite ?swrap_wrap, ?sext32_mul; try reflexivity.
  - apply u64_div; [exact Ra | apply Z.pow_nonneg; lia].
  - apply u64_div; [exact Ra | apply Z.pow_nonneg; lia].
  - apply mulhu_range; assumption.
Qed.

(** Loads and stores. *)
Lemma code_load code w ext :
  emit_code (d_op d) = Some code -> load64_spec (d_op d) = Some (w, ext) ->
  runs (code dec) None x (goes_on stk (put_rd d (ext (read_T w (px_mem p) (u64 (a + d_imm d)))) p)).
Proof using Hp Hd Hx.
  pose proof sim_regs_ok as G. intros Hc Hv. destruct (d_op d) eqn:E; try discriminate Hv; injection Hc as <-; injection Hv as <- <-;
    match type of E with _ = ?op => eapply sim_loads; [emitter_ok op; exact G | reflexivity] end.
Qed.

Lemma code_store code w :
  emit_code (d_op d) = Some code -> store64_spec (d_op d) = Some w ->
  runs (code dec) None x (goes_on stk (put_mem p (write_bytes (bytes_of w) (px_mem p) (u64 (a + d_imm d)) (wrap w b)))).
Proof using Hp Hd Hx.
  pose proof sim_regs_ok as G. intros Hc Hv. destruct (d_op d) eqn:E; try discriminate Hv; injection Hc as <-; injection Hv as <-;
    match type of E with _ = ?op => eapply sim_stores; [emitter_ok op; exact G | reflexivity] end.
Qed.

(** The processor of the proxy, with the interpreter that it runs. *)
Abbreviation exec := (inst_exec (P := proxy) fpu m64 d off).

(** Every instruction that has code: the interpreter's result is the code's. *)
Lemma code_counts : code_ok (d_op d) dec R = true -> counts_ok d b.
Proof using.
  intros Hok. apply andb_true_iff in Hok as [_ Hok]. unfold counts_ok, shift_ok, imm_ok. unfold V in Hok. cbn [j_imm jit_of] in Hok.
  destruct (d_op d); try (split; exact Logic.I); cbn [j_imm j_rs2 jit_of] in Hok; split; try exact Logic.I; lia.
Qed.

Lemma code_classes code : emit_code (d_op d) = Some code ->
  (exists v, int_value d (Machine.pc (px_proc p)) a b = Some v) \/ (exists l, load64_spec (d_op d) = Some l) \/
  (exists w, store64_spec (d_op d) = Some w).
Proof using.
  intros Hc. unfold int_value. destruct (d_op d); try discriminate Hc; cbn; eauto.
Qed.

Lemma code_sim code :
  emit_code (d_op d) = Some code -> code_ok (d_op d) dec R = true ->
  exists q, exec p = Ok off q /\ runs (code dec) None x (goes_on stk q).
Proof using Hp Hd Hpc Hx.
  intros Hc Hok. destruct Hd as (D1 & D2 & D3). destruct (code_classes code Hc) as [[v Hv] | [[[w ext] Hl] | [w Hs]]].
  - exists (put_rd d v p). split; [apply (exec_int fpu d off p Hp D1 D2 D3 v Hv), code_counts, Hok |].
    rewrite Hpc in Hv. apply (code_int code v Hc Hv Hok).
  - eexists. split; [apply (exec_load64 fpu d off p Hp D1 D2 w ext Hl) | apply (code_load code w ext Hc Hl)].
  - eexists. split; [apply (exec_store64 fpu d off p Hp D2 D3 w Hs) | apply (code_store code w Hc Hs)].
Qed.
End Sim.
