(* ===== verification/JitFlow.v ===== *)
(** * JitFlow: the code of branches and jumps does what the interpreter does,
    and leaves the trace at labels that lead to the interpreter's next [pc]. *)

From Stdlib Require Import ZArith Lia Bool List.
From stdpp Require Import base numbers list.
From S2P Require Import Prelude Meta Decode Codec Alu Machine Fpu Interp InterpSound ExecSpec ExecControl Proxy Runloop Model ProxyCpu Host Jit JitSound JitAuto JitEmit JitExec JitSim.

#[local] Arguments x86_reg : simpl never.
#[local] Arguments wrap : simpl never.
#[local] Arguments swrap : simpl never.
#[local] Arguments V : simpl never.
#[local] Existing Instance proxy_processor.

(** ** Comparisons *)

(** The flags of a comparison of two words. *)
Definition cmp_flags (a b : Z) : flags := Some (a =? b, s64 a <? s64 b, a <? b, s64 (a - b) <? 0).

Lemma emit_cmp_ok dec A x c post : regs_ok dec -> rep A x -> V (aR A) 0 = 0 ->
  (forall A' x', rep A' x' -> aR A' = aR A -> amem A' = amem A -> astk A' = astk A -> apc A' = apc A ->
     af A' = cmp_flags (V (aR A) (j_rs1 dec)) (V (aR A) (j_rs2 dec)) -> runs c None x' post) ->
  runs (emit_cmp dec ++ c) None x post.
Proof.
  intros [_ H1 H2] HA H0 Hk. pose proof (rep_guest _ _ HA) as Hg.
  destruct A as [R m va vc vs1 vpc stk f0]. cbn [aR amem aa ac as1 apc astk af] in *.
  destruct dec as [pc inst op rd rs1 rs2 imm sz]. cbn [j_rs1 j_rs2] in *. unfold emit_cmp. cbn [j_rs1 j_rs2].
  split_code; repeat wp_step;
    (eapply Hk; [eassumption | reflexivity | reflexivity | reflexivity | reflexivity |];
     cbn [af set_af aget low Z.eqb Pos.eqb aR aa]; unfold cmp_flags; V_ranges; try rewrite !H0).
  all: rewrite ?Z.lxor_nilpotent, ?(wrap_small 64 (V R rs1)) by assumption; change (u32 0) with 0; change (u64 0) with 0;
    rewrite ?H0; reflexivity.
Qed.

Lemma branch_flags op bf ibf cond a b f : 0 <= a < 2 ^ 64 -> 0 <= b < 2 ^ 64 ->
  branch_cond op = Some (bf, ibf) -> branch_spec 64 op = Some cond -> cmp_flags a b = Some f ->
  xcond_holds bf f = cond a b /\ xcond_holds ibf f = negb (cond a b).
Proof.
  intros Ha Hb Hc Hs Hf. injection Hf as <-.
  destruct op; try discriminate Hc; injection Hc as <- <-; injection Hs as <-; cbn [xcond_holds]; rewrite ?negb_involutive;
    split; try reflexivity; rewrite ?Z.leb_antisym, ?negb_involutive; reflexivity.
Qed.

(** ** Pieces of the code of jumps *)
Lemma runs_app c c' k x post : runs c k x (fun k' x' => runs c' k' x' post) -> runs (c ++ c') k x post.
Proof. unfold runs. rewrite host_go_app. destruct (host_go c k x) as [[x' k'] |]; [exact (fun H => H) | contradiction]. Qed.

Lemma runs_post c k x (P Q : option label -> xstate -> Prop) : runs c k x P -> (forall k' x', P k' x' -> Q k' x') -> runs c k x Q.
Proof. unfold runs. destruct (host_go c k x) as [[x' k'] |]; [intros H HPQ; apply HPQ, H | contradiction]. Qed.

Lemma emit_link_ok l : 0 <= l < 2 ^ 64 -> forall dec, regs_ok dec -> j_rd dec <> 0 -> computes (j_rd dec) (fun _ => l) (emit_link dec l).
Proof. intros Hlink. unfold emit_link. emit_start; destruct (Z.eqb_spec rd 0); try contradiction; repeat wp_step; wp_end;
  rewrite ?(wrap_small 64 l) by exact Hlink; reflexivity. Qed.

(** The target of [jalr], stored in [pc]. *)
Definition jalr_target_code (dec : jit_decode) : list xinst :=
  let rs1x := x86_reg (j_rs1 dec) in
  if 0 <? rs1x then
    if j_imm dec =? 0 then [Mov rbp_pc (gpq rs1x)] else [Lea rax rs1x None (j_imm dec); Mov rbp_pc rax]
  else [Mov rax (rbp_reg_q (j_rs1 dec)); Alu x_add rax (Imm (j_imm dec)); Mov rbp_pc rax].

Lemma jalr_target_ok dec A x : regs_ok dec -> imm32 (j_imm dec) = true -> j_rs1 dec <> 0 -> rep A x ->
  runs (jalr_target_code dec) None x (fun k x' => k = None /\ exists A', rep A' x' /\ aR A' = aR A /\ amem A' = amem A /\
    astk A' = astk A /\ apc A' = u64 (V (aR A) (j_rs1 dec) + j_imm dec)).
Proof.
  intros [_ H1 H2] Hi Hn HA. pose proof (rep_guest _ _ HA) as Hg.
  destruct A as [R m va vc vs1 vpc stk f0]. cbn [aR amem aa ac as1 apc astk af] in *.
  destruct dec as [pc inst op rd rs1 rs2 imm sz]. unfold jalr_target_code. cbn [j_rs1 j_rs2 j_imm] in *.
  split_code; repeat wp_step; (split; [reflexivity | eexists; split; [eassumption |]]); cbn [aR amem astk apc];
    repeat (split; [reflexivity |]); wrap_tac.
Qed.

(** The guest's [pc]. *)
Abbreviation pc_of p := (Machine.pc (px_proc p)).

(** ** The interpreter's step *)
Section Flow.
Context (lookup_trace_slow : Z -> Z) (lookup_trace_fast : Z) (fpu : host_fpu) (syscall : M proxy unit).
#[local] Instance jit_cpu : Cpu proxy := proxy_cpu fpu m64 syscall.

(** The instruction [d] is executed and retired. *)
Definition guest_step (d : decode) (inst : Z) (p q : proxy) : Prop := execute d (inst_length inst) p = Ok tt q.

Definition retired (o : Z) (p : proxy) : proxy :=
  set_base (set_instret (set_pc (base p) (u64 (pc (base p) + o))) (u64 (instret (base p) + 1))) p.

Lemma execute_run d inst o p q : inst_exec (P := proxy) fpu m64 d (inst_length inst) p = Ok o q -> o <> u64 (-1) ->
  guest_step d inst p (retired o q).
Proof using.
  intros E Ho. unfold guest_step, execute, bind. change (cpu_exec d (inst_length inst) p) with (inst_exec (P := proxy) fpu m64 d (inst_length inst) p).
  rewrite E. change cpu_xlen with 64. destruct (Z.eqb_spec o (u64 (-1))); [contradiction |]. reflexivity.
Qed.

Lemma holds_retired stk o p x : holds stk p x -> holds stk (retired o p) x.
Proof using. intros H. exact H. Qed.

Lemma pc_retired o p : Machine.pc (px_proc (retired o p)) = u64 (Machine.pc (px_proc p) + o).
Proof using. reflexivity. Qed.

Lemma pc_put_rd d v p : Machine.pc (px_proc (put_rd d v p)) = Machine.pc (px_proc p).
Proof using. unfold put_rd. destruct (d_rd d =? 0); reflexivity. Qed.

(** ** Where code leads

    A label out of the trace leads to the [pc] of [q]: the code of a guest
    instruction, a trampoline that stores [pc], a compiled trace, or the code
    that looks up the stored [pc]. *)

Definition at_exit (st : emitter) (q : proxy) (l : label) (x : xstate) : Prop :=
  match l with
  | At t => t = pc_of q /\ mem_pc t (labels st) = true
  | Jump_tramp t => t = pc_of q /\ In t (jmp_tramp_labels st)
  | Exit_tramp t => t = pc_of q /\ In t (exit_tramp_labels st)
  | Addr e => e = lookup_trace_slow (pc_of q) /\ e <> 0 \/ e = lookup_trace_fast /\ xpc x = pc_of q
  | _ => False
  end.

Definition lands (op : rv_op) (stk : list Z) (st : emitter) (go : bool) (fol : option Z) (q : proxy) (k : option label) (x : xstate) : Prop :=
  holds stk q x /\ match k with
  | None => go = true /\ fol = Some (pc_of q) /\ (op <> rv_op_jalr -> term_pc st = pc_of q)
  | Some l => at_exit st q l x
  end.

(** The instruction is left to the interpreter. *)
Definition gives_up (stk : list Z) (st : emitter) (p : proxy) (k : option label) (x : xstate) : Prop :=
  holds stk p x /\ k = Some (Exit_tramp (pc_of p)) /\ In (pc_of p) (exit_tramp_labels st).

Definition simulates (stk : list Z) (d : decode) (inst : Z) (p : proxy) (x : xstate) (fol : option Z) (e : emission) : Prop :=
  let '(c, st, go) := e in
  (exists q, guest_step d inst p q /\ runs c None x (lands (d_op d) stk st go fol q)) \/ runs c None x (gives_up stk st p).

Lemma insert_key_in pc l : In pc (insert_key pc l).
Proof using.
  induction l as [| q l IH]; cbn; [auto |]. destruct (Z.eqb_spec pc q) as [-> |]; [left; reflexivity |].
  destruct (pc <? q); [left; reflexivity | right; exact IH].
Qed.

Lemma insert_key_incl pc l : incl l (insert_key pc l).
Proof using.
  induction l as [| q l IH]; intros t Ht; [contradiction |]. cbn. destruct (pc =? q); [exact Ht |].
  destruct (pc <? q); [right; exact Ht |]. destruct Ht as [-> | Ht]; [left; reflexivity | right; apply IH, Ht].
Qed.

(** A jump out of the trace. *)
Lemma emit_out_spec j pc st : exists l st', emit_out lookup_trace_slow j pc st = ([j l], st') /\
  labels st' = labels st /\ forall q x, pc_of q = pc -> at_exit st' q l x.
Proof using.
  unfold emit_out. destruct (Z.eqb_spec (lookup_trace_slow pc) 0) as [E | E]; eexists _, _; (split; [reflexivity |]);
    (split; [reflexivity |]); intros q x Hq; cbn.
  - split; [congruence | apply insert_key_in].
  - left. rewrite Hq. split; [reflexivity | exact E].
Qed.

Lemma at_exit_term st pc q l x : at_exit st q l x -> at_exit (set_term_pc st pc) q l x.
Proof using. destruct l; exact (fun H => H). Qed.

(** A [jalr] that is a return is inlined when a call in the trace left its
    address; a jump is compiled when its base is not [x0]. *)
Definition jalr_static (dec : jit_decode) (st : emitter) : bool :=
  match inlined_ret dec st with
  | Some (l, _) => (j_imm dec =? 0) && imm32 l && (0 <=? l) && (l <? 2 ^ 64)
  | None => negb (j_rs1 dec =? 0) && imm32 (j_imm dec)
  end.

Definition jalr_follow (dec : jit_decode) (st : emitter) : option Z :=
  match inlined_ret dec st with Some (l, _) => Some l | None => None end.

Section Inst.
Context (d : decode) (inst : Z) (stk : list Z) (p : proxy) (x : xstate).
Context (Hh : hart_ok 64 (px_proc p)) (Hd : regs_in d) (Hj : jump_even d) (Hx : holds stk p x).
Abbreviation pc := (pc_of p).
Abbreviation dec := (jit_of pc inst d).
Abbreviation R := (ireg (px_proc p)).
Abbreviation off := (inst_length inst).
Abbreviation exec := (inst_exec (P := proxy) fpu m64 d off).

Lemma hart_proc : proc_ok 64 (px_proc p).
Proof using Hh. apply Hh. Qed.

Lemma even_not_illegal o : Z.even o = true -> o <> u64 (-1).
Proof using. intros H ->. discriminate H. Qed.

Lemma inst_length_legal : off <> u64 (-1) /\ Z.even off = true.
Proof using. unfold inst_length. repeat match goal with |- context [if ?b then _ else _] => destruct b end; split; try reflexivity; discriminate. Qed.

Lemma exec_inv o q : exec p = Ok o q -> proc_ok 64 (px_proc q) /\ pc_of q = pc /\ 0 <= o < 2 ^ 64.
Proof using Hh Hj.
  intros E. assert (L : @MMULaws proxy _ jit_mmu) by apply (proxy_mmu_laws 64).
  assert (Hoff : 0 <= off < 2 ^ 64) by
    (unfold inst_length; repeat match goal with |- context [if ?b then _ else _] => destruct b end; lia).
  pose proof (inst_exec_safe (P := proxy) fpu m64 pc (instret (px_proc p)) d off (or_intror eq_refl) Hoff (proj2 inst_length_legal) Hj p) as S.
  assert (Hi : step_inv 64 pc (instret (px_proc p)) (px_proc p)) by (destruct Hh as (? & _ & ?); unfold step_inv; auto).
  specialize (S Hi). rewrite E in S. destruct S as [(Hq & Hpc & _) [Ho _]]. auto.
Qed.

(** An instruction that has code. *)
Lemma code_simulates code st :
  emit_code (d_op d) = Some code -> code_ok (d_op d) dec R = true ->
  simulates stk d inst p x (Some (u64 (pc + off))) (code dec, set_term_pc st (u64 (pc + off)), true).
Proof using Hh Hd Hx Hj.
  intros Hc Hok. left. destruct (code_sim fpu d inst pc off stk p x hart_proc Hd eq_refl Hx code Hc Hok) as (q & E & Hr).
  exists (retired off q). split; [apply execute_run; [exact E | apply inst_length_legal] |].
  unfold runs in *. destruct (host_go (code dec) None x) as [[x' k] |]; [| exact Hr]. destruct Hr as [-> Hq].
  split; [exact Hq |].
  assert (Ep : u64 (pc + off) = pc_of (retired off q)) by (rewrite pc_retired; destruct (exec_inv off q E) as (_ & -> & _); reflexivity).
  rewrite Ep. auto.
Qed.

(** Branches. *)
Lemma cmp_runs c post :
  (forall x' f, holds stk p x' -> xflags x' = Some f -> cmp_flags (V R (d_rs1 d)) (V R (d_rs2 d)) = Some f -> runs c None x' post) ->
  runs (emit_cmp dec ++ c) None x post.
Proof using Hh Hd Hx.
  intros Hk. pose proof (V_x0 p hart_proc) as H0. destruct Hx as (A & HA & HR & Hm & Hs). rewrite <- HR in H0.
  apply (emit_cmp_ok dec A x c post (sim_regs_ok d inst pc Hd) HA H0).
  intros A' x' HA' E1 E2 E3 _ E5. eapply Hk; [| rewrite (rep_f _ _ HA'), E5, HR; reflexivity | reflexivity].
  exists A'. rewrite E1, E2, E3. auto.
Qed.

(** A jump is taken or not. *)
Lemma runs_jcc cd l c x' f post :
  xflags x' = Some f -> runs c (if xcond_holds cd f then Some l else None) x' post -> runs (Jcc cd l :: c) None x' post.
Proof using. intros E H. unfold runs. cbn [host_go]. rewrite E. exact H. Qed.

Definition branch_pc : Z := u64 (pc + d_imm d).
Definition cont_pc : Z := u64 (pc + off).

Lemma branch_simulates now bf ibf st :
  branch_cond (d_op d) = Some (bf, ibf) ->
  simulates stk d inst p x (Some (if now : bool then branch_pc else cont_pc)) (emit_branch lookup_trace_slow dec now bf ibf st).
Proof using Hh Hd Hx Hj.
  intros Hc. destruct (branch_spec 64 (d_op d)) as [cond |] eqn:Hs; [| destruct (d_op d); discriminate].
  destruct Hd as (D1 & D2 & D3).
  pose proof (exec_branch64 fpu d off p hart_proc D2 D3 cond Hs) as E.
  set (t := cond (nth (Z.to_nat (d_rs1 d)) R 0) (nth (Z.to_nat (d_rs2 d)) R 0)) in *.
  set (q := retired (if t then u64 (d_imm d) else off) p).
  assert (Hq : guest_step d inst p q).
  { apply execute_run; [exact E |]. destruct t; [| apply inst_length_legal]. apply even_not_illegal.
    rewrite wrap_even by lia. apply Hj. destruct (d_op d); try discriminate Hc; reflexivity. }
  assert (Hpc : pc_of q = if t then branch_pc else cont_pc).
  { unfold q, branch_pc, cont_pc. rewrite pc_retired. destruct t; rewrite ?wrap_add_r; reflexivity. }
  assert (F : forall f, cmp_flags (V R (d_rs1 d)) (V R (d_rs2 d)) = Some f -> xcond_holds bf f = t /\ xcond_holds ibf f = negb t).
  { intros f. apply branch_flags with (op := d_op d); try apply a_range; try exact hart_proc; assumption. }
  unfold emit_branch.
  change (u64 (j_pc dec + j_imm dec)) with branch_pc. change (u64 (j_pc dec + inst_length (j_inst dec))) with cont_pc.
  destruct (mem_pc branch_pc (labels st)) eqn:Eb, (mem_pc cont_pc (labels st)) eqn:Ec, now; cbn [andb negb].
  all: repeat match goal with |- context [emit_out lookup_trace_slow ?j ?u ?s] =>
         destruct (emit_out_spec j u s) as (? & ? & -> & ? & Hl) end.
  all: left; exists q; split; [exact Hq |]; apply cmp_runs; intros x' f Hx' Ef Hf; destruct (F f Hf) as [B1 B2];
    cbn [app]; eapply runs_jcc; [exact Ef |]; rewrite ?B1, ?B2.
  all: destruct t; cbn [negb]; (split; [exact Hx' |]).
  all: first [split; [reflexivity | rewrite Hpc; split; reflexivity] | apply at_exit_term, Hl, Hpc | idtac].
  all: split; [symmetry; exact Hpc | cbn [labels set_term_pc]; congruence].
Qed.

(** [jal]. *)
Lemma jal_simulates st :
  d_op d = rv_op_jal -> simulates stk d inst p x (Some (u64 (pc + d_imm d))) (emit_jal dec st).
Proof using Hh Hd Hx Hj.
  intros Hop. destruct Hd as (D1 & D2 & D3).
  pose proof (exec_jal64 fpu d off p hart_proc D1 Hop) as E.
  set (q := retired (u64 (d_imm d)) (linked d off p)).
  assert (Hpc : pc_of q = u64 (pc + d_imm d)).
  { unfold q. rewrite pc_retired. destruct (exec_inv _ _ E) as (_ & -> & _). apply wrap_add_r. }
  assert (Hg : guest_step d inst p q).
  { apply execute_run; [exact E | apply even_not_illegal]. rewrite wrap_even by lia. apply Hj. rewrite Hop. reflexivity. }
  unfold emit_jal. change (j_rd dec) with (d_rd d). destruct (Z.eqb_spec (d_rd d) 0) as [E0 | E0].
  - left. exists q. split; [exact Hg |]. split; [| rewrite Hpc; auto]. unfold q, linked, put_rd. rewrite E0. exact Hx.
  - left. exists q. split; [exact Hg |]. pose proof (wrap_range 64 ltac:(lia) (pc + off)) as Hw.
    eapply runs_post; [apply (sim_computes d stk p x hart_proc Hd Hx _ _ _ (u64 (pc + off)) (emit_link_ok (u64 (pc + off)) Hw dec (sim_regs_ok d inst pc Hd) E0) Logic.I eq_refl) |].
    intros k x' Hgo. destruct Hgo as [-> Hq]. split; [exact Hq |]. rewrite Hpc. auto.
Qed.

Lemma land_even v : 0 <= v < 2 ^ 64 -> Z.even v = true -> Z.land v (u64 (-2)) = v.
Proof using.
  intros Hv He. apply Z.bits_inj'. intros n Hn. rewrite Z.land_spec.
  destruct (Z.testbit v n) eqn:B; [| reflexivity]. cbn.
  assert (Hn64 : n < 64) by (destruct (Z.ltb_spec n 64) as [|H]; [assumption | rewrite <- (wrap_small 64 v Hv), wrap_spec in B by lia; destruct (Z.ltb_spec n 64); [lia | discriminate]]).
  destruct (Z.eqb_spec n 0) as [-> | Hn0]; [rewrite Z.bit0_odd, <- Z.negb_even, He in B; discriminate |].
  change (u64 (-2)) with (2 * Z.ones 63). replace n with (Z.succ (n - 1)) by lia. rewrite Z.double_bits_succ.
  apply Z.ones_spec_low. lia.
Qed.

Abbreviation a := (V R (d_rs1 d)).

(** The step of [jalr] to an even address. *)
Lemma jalr_step : d_op d = rv_op_jalr -> Z.even (u64 (a + d_imm d)) = true ->
  exists o, let q := retired o (linked d off p) in guest_step d inst p q /\ pc_of q = u64 (a + d_imm d).
Proof using Hh Hd Hj.
  intros Hop He. destruct Hd as (D1 & D2 & D3). pose proof Hh as (_ & Hpe & _).
  destruct (exec_jalr64 fpu d off p hart_proc D1 D2 Hop Hpe) as (o & E & Ht).
  change (nth (Z.to_nat (d_rs1 d)) R 0) with a in Ht.
  rewrite land_even in Ht by (apply wrap_range || exact He; lia).
  exists o. cbv zeta. split.
  - apply execute_run; [exact E |]. intros ->. rewrite <- Ht, wrap_even, Z.even_add, Hpe in He by lia. discriminate He.
  - rewrite pc_retired. destruct (exec_inv _ _ E) as (_ & -> & _). exact Ht.
Qed.

Lemma inlined_ret_spec st l s : inlined_ret dec st = Some (l, s) -> d_rd d = 0 /\ d_rs1 d = 1.
Proof using.
  unfold inlined_ret. change (j_rd dec) with (d_rd d). change (j_rs1 dec) with (d_rs1 d).
  destruct (callstack st); [discriminate |]. destruct (Z.eqb_spec (d_rd d) 0), (Z.eqb_spec (d_rs1 d) 1); try discriminate. auto.
Qed.

Lemma ret_runs l post : imm32 l = true -> 0 <= l < 2 ^ 64 ->
  (forall x', holds stk p x' -> post (if V R 1 =? l then None else Some (Exit_tramp pc)) x') ->
  runs [Cmp (gpq (x86_reg 1)) (Imm l); Jcc kCondNE (Exit_tramp pc)] None x post.
Proof using Hh Hx.
  intros Hi Hl Hk. destruct Hx as (A & HA & HR & Hm & Hs).
  assert (Hk' : forall x', rep (set_af A (Some (V R 1 =? l, s64 (V R 1) <? s64 l, V R 1 <? l, s64 (V R 1 - l) <? 0))) x' -> 
     runs [Jcc kCondNE (Exit_tramp pc)] None x' post).
  { intros x' HA'. eapply runs_jcc; [rewrite (rep_f _ _ HA'); reflexivity |]. cbn [xcond_holds].
    assert (Hq : holds stk p x') by (eexists; split; [exact HA' | auto]). specialize (Hk x' Hq).
    destruct (V R 1 =? l); exact Hk. }
  eapply (wp_cmp A x HA _ _ (Rg 64 1) (I l) 64); [reflexivity | reflexivity | cbn; lia | exact Logic.I | | ].
  - cbn. rewrite Hi. reflexivity.
  - intros x' HA'. apply Hk'. cbn [aget low Z.eqb Pos.eqb] in HA'. rewrite HR in HA'. rewrite (wrap_small 64 l) in HA' by exact Hl. exact HA'.
Qed.

Lemma jalr_simulates st :
  d_op d = rv_op_jalr -> jalr_static dec st = true -> Z.even (u64 (a + d_imm d)) = true ->
  simulates stk d inst p x (jalr_follow dec st) (emit_jalr lookup_trace_fast dec st).
Proof using Hh Hd Hx Hj.
  intros Hop Hst He. destruct (jalr_step Hop He) as (o & Hg & Hpc). set (q := retired o (linked d off p)) in *.
  unfold jalr_static, jalr_follow, emit_jalr in *. destruct (inlined_ret dec st) as [[l s] |] eqn:Ei.
  - repeat rewrite andb_true_iff in Hst. destruct Hst as [[[Himm Hi] Hl1] Hl2]. apply Z.eqb_eq in Himm. change (j_imm dec) with (d_imm d) in Himm.
    assert (Hl : 0 <= l < 2 ^ 64) by lia. destruct (inlined_ret_spec st l s Ei) as [Erd Ers].
    assert (Hq : forall x', holds stk p x' -> holds stk q x') by (unfold q, linked, put_rd; rewrite Erd; auto).
    pose proof (a_range p hart_proc (Z.to_nat 1) : 0 <= V R 1 < 2 ^ 64) as Rr.
    rewrite Himm, Ers, Z.add_0_r, (wrap_small 64 _ Rr) in Hpc.
    destruct (Z.eqb_spec (V R 1) l) as [El | El].
    + left. exists q. split; [exact Hg |]. apply ret_runs; [exact Hi | exact Hl |]. intros x' Hx'.
      rewrite El, Z.eqb_refl. split; [apply Hq, Hx' |]. rewrite Hpc, El.
      split; [reflexivity | split; [reflexivity | intros T; contradiction T; exact Hop]].
    + right. apply ret_runs; [exact Hi | exact Hl |]. intros x' Hx'. apply Z.eqb_neq in El. rewrite El.
      split; [exact Hx' |]. split; [reflexivity | apply insert_key_in].
  - apply andb_true_iff in Hst as [Hn Hi]. apply negb_true_iff, Z.eqb_neq in Hn. change (j_rs1 dec) with (d_rs1 d) in Hn. change (j_rs1 dec) with (d_rs1 d). destruct (Z.eqb_spec (d_rs1 d) 0) as [| _]; [contradiction |].
    left. exists q. split; [exact Hg |].
    change (if 0 <? x86_reg (d_rs1 d) then
          if j_imm dec =? 0 then [Mov rbp_pc (gpq (x86_reg (d_rs1 d)))] else [Lea rax (x86_reg (d_rs1 d)) None (j_imm dec); Mov rbp_pc rax]
        else [Mov rax (rbp_reg_q (d_rs1 d)); Alu x_add rax (Imm (j_imm dec)); Mov rbp_pc rax]) with (jalr_target_code dec).
    pose proof (wrap_range 64 ltac:(lia) (pc + off)) as Hw.
    destruct Hx as (A & HA & HR & Hm & Hs).
    apply runs_app. eapply runs_post; [apply (jalr_target_ok dec A x (sim_regs_ok d inst pc Hd) Hi Hn HA) |].
    intros k x1 [-> (A1 & HA1 & HR1 & Hm1 & Hs1 & Hp1)]. change (j_rs1 dec) with (d_rs1 d) in Hp1. change (j_imm dec) with (d_imm d) in Hp1.
    rewrite HR in *. rewrite Hm in *. rewrite Hs in *. rewrite <- Hpc in Hp1.
    assert (Hend : forall x' q', holds stk q' x' -> q' = linked d off p -> xpc x' = pc_of q ->
      runs [Jmp (Addr lookup_trace_fast)] None x' (lands (d_op d) stk (set_term_pc st 0) false None q)).
    { intros x' q' Hq' -> Hxp. split; [exact Hq' |]. right. auto. }
    change (j_rd dec) with (d_rd d). destruct (Z.eqb_spec (d_rd d) 0) as [E0 | E0].
    + eapply Hend; [| reflexivity | rewrite (rep_pc _ _ HA1); exact Hp1]. exists A1. unfold linked, put_rd. rewrite E0. auto.
    + apply runs_app. 
      pose proof (emit_link_ok (u64 (pc + off)) Hw dec (sim_regs_ok d inst pc Hd) E0 A1 x1 HA1) as Hlk.
      rewrite HR1 in Hlk. specialize (Hlk (V_x0 p hart_proc) Logic.I).
      eapply runs_post; [exact Hlk |]. intros k x2 [-> (A2 & HA2 & HR2 & Hm2 & Hp2 & Hs2)].
      eapply Hend; [| reflexivity | rewrite (rep_pc _ _ HA2); congruence].
      exists A2. split; [exact HA2 |]. rewrite HR2, Hm2, Hs2. split; [| split; [rewrite Hm1; symmetry; apply put_rd_mem | exact Hs1]].
      apply put_rd_regs; [exact hart_proc | exact Hd |]. pose proof (rep_guest _ _ HA2) as G. rewrite HR2 in G. exact G.
Qed.
End Inst.
End Flow.
