(* ===== verification/JitPair.v ===== *)
(** * JitPair: the pseudo-instructions of [jit/jit-fusion.h] do what the
    instructions they replace do. *)

From Stdlib Require Import ZArith Lia Bool List.
From stdpp Require Import base numbers list.
From S2P Require Import Prelude Meta Decode Codec Alu Machine Fpu Interp InterpSound ExecSpec ExecControl Proxy Runloop Model ProxyCpu Host Jit JitSound JitAuto JitInt JitEmit JitExec JitSim JitFlow.

#[local] Arguments x86_reg : simpl never.
#[local] Arguments wrap : simpl never.
#[local] Arguments swrap : simpl never.
#[local] Arguments V : simpl never.
#[local] Existing Instance proxy_processor.

(** ** The code of the pseudo-instructions *)

(** The operands for which [emit_zextw] has an encoding. *)
Definition zextw_encodes (dec : jit_decode) : bool :=
  negb (j_rd dec =? 0) && if j_rd dec =? j_rs1 dec then negb (mapped (j_rd dec)) else mapped (j_rd dec) && negb (mapped (j_rs1 dec)).

Lemma emit_zextw_ok : forall dec, regs_ok dec -> zextw_encodes dec = true -> computes (j_rd dec) (fun R => u32 (V R (j_rs1 dec))) (emit_zextw dec).
Proof.
  unfold emit_zextw, zextw_encodes. cbv beta iota. emit_start; cbn [negb andb] in *; try (rewrite ?andb_false_r in *; discriminate); emit_end.
  all: match goal with |- context [if ?b then _ else _] => destruct b; [discriminate | reflexivity] end.
Qed.

Lemma zextw_encodes_rd pc inst d : zextw_encodes (jit_of pc inst d) = true -> d_rd d <> 0.
Proof. intros H. apply andb_true_iff in H as [H _]. apply negb_true_iff, Z.eqb_neq in H. exact H. Qed.

Lemma emit_addiwz_ok : forall dec, regs_ok dec -> mapped (j_rd dec) = false -> imm32 (j_imm dec) = true ->
  computes (j_rd dec) (fun R => u32 (V R (j_rd dec) + j_imm dec)) (emit_addiwz dec).
Proof. unfold emit_addiwz. cbv zeta. emit_start; try discriminate; emit_end. Qed.

Lemma mov_ra_ok l : 0 <= l < 2 ^ 64 -> computes 1 (fun _ => l) [Mov (gpq (x86_reg 1)) (Imm l)].
Proof.
  intros Hl A x HA H0 _. pose proof (wp_mov_imm A x HA [] (ends A (<[Z.to_nat 1 := l]> (aR A)) (amem A)) (Q 1) l (gpq (x86_reg 1)) eq_refl) as W.
  apply W; [cbn; lia | reflexivity | reflexivity |]. intros x' HA'. apply (wp_end_from _ x' HA'); try reflexivity.
  cbn. rewrite (wrap_small 64 l) by exact Hl. reflexivity.
Qed.

(** ** Pseudo-instructions

    What follows the first instruction, at [pc], of a group that is emitted as
    one: the words and the decoded instructions. *)
Inductive pseudo :=
  | Fuse_la (i2 : Z) (d2 : decode) | Fuse_call (i2 : Z) (d2 : decode) | Fuse_zextw (i2 : Z) (d2 : decode)
  | Fuse_addiwz (i2 : Z) (d2 : decode) (i3 : Z) (d3 : decode).

Definition fused_tail (f : pseudo) : list (Z * decode) :=
  match f with
  | Fuse_la i2 d2 | Fuse_call i2 d2 | Fuse_zextw i2 d2 => [(i2, d2)]
  | Fuse_addiwz i2 d2 i3 d3 => [(i2, d2); (i3, d3)]
  end.

(** The pseudo-instruction that [jit_fusion::emit] makes: the sum of the
    immediates is truncated, the size has four bits. *)
Definition fused_jit (pc inst : Z) (d : decode) (f : pseudo) : jit_decode :=
  match f with
  | Fuse_la i2 d2 => mkJit pc i2 jit_op_la (d_rs1 d2) 0 0 (s32 (u64 (d_imm d + d_imm d2))) 0
  | Fuse_call i2 d2 => mkJit pc i2 jit_op_call (d_rs1 d2) 0 0 (s32 (u64 (d_imm d + d_imm d2))) 0
  | Fuse_zextw i2 d2 => mkJit pc i2 jit_op_zextw (d_rd d) (d_rs1 d) 0 0 ((inst_length inst + inst_length i2) mod 16)
  | Fuse_addiwz i2 d2 i3 d3 =>
      mkJit pc i3 jit_op_addiwz (d_rd d) 0 0 (s32 (u64 (d_imm d))) ((inst_length inst + inst_length i2 + inst_length i3) mod 16)
  end.

(** The pseudo-instructions that do what the group does: the code can be
    encoded, the sum of the immediates is not truncated, a call links [ra],
    which [auipc] has written. *)
Definition is_op (d : decode) (op : rv_op) : bool := bool_decide (d_op d = op).

Definition shifts_32 (d : decode) (op : rv_op) (rd : Z) : bool :=
  is_op d op && (d_rd d =? rd) && (d_rs1 d =? rd) && (d_imm d =? 32).

Definition fused_ok (inst : Z) (d : decode) (f : pseudo) : bool :=
  match f with
  | Fuse_la _ d2 =>
      is_op d rv_op_auipc && is_op d2 rv_op_addi && negb (d_rd d =? 0) && (d_rd d2 =? d_rd d) && (d_rs1 d2 =? d_rd d) &&
      imm32 (d_imm d + d_imm d2) && (inst_length inst =? 4)
  | Fuse_call _ d2 =>
      is_op d rv_op_auipc && is_op d2 rv_op_jalr && (d_rd d =? 1) && (d_rd d2 =? 1) && (d_rs1 d2 =? 1) &&
      imm32 (d_imm d + d_imm d2) && (inst_length inst =? 4) && Z.even (d_imm d + d_imm d2)
  | Fuse_zextw i2 d2 =>
      is_op d rv_op_slli && (d_imm d =? 32) && shifts_32 d2 rv_op_srli (d_rd d) && zextw_encodes (jit_of 0 0 d) &&
      (inst_length inst + inst_length i2 <? 16)
  | Fuse_addiwz i2 d2 i3 d3 =>
      is_op d rv_op_addiw && negb (d_rd d =? 0) && (d_rs1 d =? d_rd d) && negb (mapped (d_rd d)) && imm32 (d_imm d) &&
      shifts_32 d2 rv_op_slli (d_rd d) && shifts_32 d3 rv_op_srli (d_rd d) && (inst_length inst + inst_length i2 + inst_length i3 <? 16)
  end.

(** ** The instructions of a group *)
Section Pair.
Context (fpu : host_fpu) (syscall : M proxy unit).

Fixpoint run_all (l : list (Z * decode)) (p q : proxy) : Prop :=
  match l with
  | [] => q = p
  | (i, d) :: l => exists r, guest_step fpu syscall d i p r /\ run_all l r q
  end.

Abbreviation regs p := (ireg (px_proc p)).

(** A register is written and [pc] moves; nothing else changes. *)
Record wrote (p q : proxy) (rd v pc : Z) : Prop := {
  w_ok : proc_ok 64 (px_proc q);
  w_regs : regs q = <[Z.to_nat rd := u64 v]> (regs p);
  w_mem : px_mem q = px_mem p;
  w_pc : pc_of q = u64 pc;
  w_exceptions : exceptions (px_proc q) = exceptions (px_proc p) }.

Lemma put_rd_wrote d v o p : proc_ok 64 (px_proc p) -> regs_in d -> d_rd d <> 0 ->
  wrote p (retired o (put_rd d v p)) (d_rd d) v (pc_of p + o).
Proof using.
  intros [O1 O2 O3 O4 O5 O6 O7] (D1 & _) Hn. unfold put_rd. destruct (Z.eqb_spec (d_rd d) 0) as [| _]; [contradiction |].
  split; try reflexivity. split; cbn; try assumption.
  - apply wrap_range. lia.
  - rewrite length_insert. exact O2.
  - apply Forall_insert; [exact O3 | apply wrap_range; lia].
  - rewrite list_lookup_insert_ne by lia. exact O4.
Qed.

(** An instruction that computes a register. *)
Lemma int_step d i p v :
  proc_ok 64 (px_proc p) -> regs_in d -> d_rd d <> 0 ->
  int_value d (pc_of p) (V (regs p) (d_rs1 d)) (V (regs p) (d_rs2 d)) = Some v -> counts_ok d (V (regs p) (d_rs2 d)) ->
  exists q, guest_step fpu syscall d i p q /\ wrote p q (d_rd d) v (pc_of p + inst_length i).
Proof using.
  intros Hp Hd Hn Hv Hc. destruct Hd as (D1 & D2 & D3). pose proof (exec_int fpu d (inst_length i) p Hp D1 D2 D3 v Hv Hc) as E.
  exists (retired (inst_length i) (put_rd d v p)). split; [apply execute_run; [exact E | apply inst_length_legal] |].
  apply put_rd_wrote; [exact Hp | exact (conj D1 (conj D2 D3)) | exact Hn].
Qed.

(** One after another, to the same register. *)
Lemma wrote_twice p q r rd v w pc1 pc2 : wrote p q rd v pc1 -> wrote q r rd w pc2 -> wrote p r rd w pc2.
Proof using.
  intros [A1 A2 A3 A4 A5] [B1 B2 B3 B4 B5]. split; try congruence. rewrite B2, A2. apply list_insert_insert_eq.
Qed.

Lemma wrote_V p q rd v pc : proc_ok 64 (px_proc p) -> 0 <= rd < 32 -> wrote p q rd v pc -> V (regs q) rd = u64 v.
Proof using. intros Hp Hr [_ W _ _ _]. rewrite W. apply V_insert_eq; [apply Hp | exact Hr]. Qed.

(** What a group writes, and where it goes on. *)
Definition fused_result (pc inst : Z) (d : decode) (f : pseudo) (R : list Z) : Z * Z * Z :=
  match f with
  | Fuse_la i2 d2 => (d_rd d, pc + d_imm d + d_imm d2, pc + 4 + inst_length i2)
  | Fuse_call i2 d2 => (1, pc + 4 + inst_length i2, pc + (d_imm d + d_imm d2))
  | Fuse_zextw i2 _ => (d_rd d, u32 (V R (d_rs1 d)), pc + inst_length inst + inst_length i2)
  | Fuse_addiwz i2 _ i3 _ => (d_rd d, u32 (V R (d_rd d) + d_imm d), pc + inst_length inst + inst_length i2 + inst_length i3)
  end.

(** The upper half is cleared by two shifts. *)
Lemma shifts_zext v : u64 (v * 2 ^ 32) / 2 ^ 32 = u32 v.
Proof using.
  unfold wrap. change (2 ^ 64) with (2 ^ 32 * 2 ^ 32). rewrite Z.mul_mod_distr_r by lia. apply Z.div_mul. lia.
Qed.

Ltac fused_facts H :=
  repeat match type of H with _ && _ = true => let H1 := fresh "F" in apply andb_true_iff in H as [H H1] end;
  repeat match goal with K : is_op _ _ && _ && _ && _ = true |- _ => rewrite !andb_true_iff in K; destruct K as [[[? ?] ?] ?] end;
  repeat match goal with
  | K : is_op _ _ = true |- _ => unfold is_op in K; apply bool_decide_eq_true in K
  | K : negb _ = true |- _ => apply negb_true_iff in K
  | K : (_ =? _) = true |- _ => apply Z.eqb_eq in K
  | K : (_ =? _) = false |- _ => apply Z.eqb_neq in K
  end.

Lemma int_value_auipc d pc a b : d_op d = rv_op_auipc -> int_value d pc a b = Some (u64 (pc + d_imm d)).
Proof using. intros E. unfold int_value. rewrite E. reflexivity. Qed.
Lemma int_value_addi d pc a b : d_op d = rv_op_addi -> int_value d pc a b = Some (u64 (a + u64 (d_imm d))).
Proof using. intros E. unfold int_value. rewrite E. reflexivity. Qed.
Lemma int_value_addiw d pc a b : d_op d = rv_op_addiw -> int_value d pc a b = Some (sext32 (a + u64 (d_imm d))).
Proof using. intros E. unfold int_value. rewrite E. reflexivity. Qed.
Lemma int_value_slli d pc a b : d_op d = rv_op_slli -> d_imm d = 32 -> int_value d pc a b = Some (u64 (a * 2 ^ 32)).
Proof using. intros E Ei. unfold int_value. rewrite E, Ei. reflexivity. Qed.
Lemma int_value_srli d pc a b : d_op d = rv_op_srli -> d_imm d = 32 -> int_value d pc a b = Some (a / 2 ^ 32).
Proof using. intros E Ei. unfold int_value. rewrite E, Ei. reflexivity. Qed.
Lemma wrote_mod p q rd v w pc1 pc2 : wrote p q rd v pc1 -> u64 v = u64 w -> u64 pc1 = u64 pc2 -> wrote p q rd w pc2.
Proof using. intros [A1 A2 A3 A4 A5] E1 E2. split; try congruence. Qed.

(** The next instruction of a group, which changes what the first ones wrote. *)
Lemma int_then p q rd v t d i w :
  proc_ok 64 (px_proc p) -> 0 <= rd < 32 -> wrote p q rd v t -> regs_in d -> d_rd d = rd -> d_rs1 d = rd -> rd <> 0 ->
  (forall b, int_value d (u64 t) (u64 v) b = Some w) -> (forall b, counts_ok d b) ->
  exists r, guest_step fpu syscall d i q r /\ wrote p r rd w (t + inst_length i).
Proof using.
  intros Hp Hr W Hd E1 E2 Hn Hv Hc. rewrite <- E1 in Hn.
  destruct (int_step d i q w (w_ok _ _ _ _ _ W) Hd Hn) as (r & G & W2); [| apply Hc |].
  - rewrite E2, (wrote_V _ _ _ _ _ Hp Hr W), (w_pc _ _ _ _ _ W). apply Hv.
  - exists r. split; [exact G |]. rewrite E1 in W2. eapply wrote_mod; [exact (wrote_twice _ _ _ _ _ _ _ _ W W2) | reflexivity |].
    rewrite (w_pc _ _ _ _ _ W). apply wrap_add_l.
Qed.

Lemma counts_free d b : d_op d = rv_op_auipc \/ d_op d = rv_op_addi \/ d_op d = rv_op_addiw -> counts_ok d b.
Proof using. unfold counts_ok. intros [-> | [-> | ->]]; split; exact Logic.I. Qed.

Lemma counts_32 d b : d_op d = rv_op_slli \/ d_op d = rv_op_srli -> d_imm d = 32 -> counts_ok d b.
Proof using. unfold counts_ok. intros [-> | ->] ->; split; cbn; lia. Qed.

Ltac group_step W d i :=
  match type of W with
  | wrote ?p ?q ?rd ?v ?t =>
      let r := fresh "r" in let G := fresh "G" in let W2 := fresh "W" in
      edestruct (int_then p q rd v t d i) as (r & G & W2);
        [assumption .. |
         intros; first [eapply int_value_addi; assumption | eapply int_value_slli; assumption | eapply int_value_srli; assumption] |
         intros; first [apply counts_32; [auto; fail | assumption] | apply counts_free; auto; fail] |]
  end.

(** What the trace requires of an instruction. *)
Definition decoded (x : Z * decode) : Prop := regs_in x.2 /\ jump_even x.2.

(** [auipc] and [jalr]. *)
Lemma jalr_then p q v t d i :
  hart_ok 64 (px_proc p) -> wrote p q 1 v t -> Z.even t = true -> regs_in d -> jump_even d -> d_op d = rv_op_jalr -> d_rd d = 1 -> d_rs1 d = 1 ->
  Z.even (u64 v + d_imm d) = true ->
  exists r, guest_step fpu syscall d i q r /\ wrote p r 1 (t + inst_length i) (u64 v + d_imm d).
Proof using.
  intros Hh W Et Hd Hj Hop E1 E2 He. assert (Hq : hart_ok 64 (px_proc q)).
  { split; [apply W |]. rewrite (w_pc _ _ _ _ _ W), wrap_even by lia. split; [exact Et |]. rewrite (w_exceptions _ _ _ _ _ W). apply Hh. }
  pose proof (wrote_V p q 1 v t (proj1 Hh) ltac:(lia) W) as EV. rewrite <- E2 in EV.
  destruct (jalr_step fpu syscall d i q Hq Hd Hj Hop) as (o & G & Ep); [rewrite EV, wrap_even by lia; exact He |].
  eexists. split; [exact G |]. rewrite <- E1 in W |- *.
  pose proof (put_rd_wrote d (u64 (pc_of q + inst_length i)) o q (proj1 Hq) Hd ltac:(lia)) as W2.
  eapply wrote_mod; [exact (wrote_twice _ _ _ _ _ _ _ _ W W2) | |].
  - rewrite (w_pc _ _ _ _ _ W), wrap_wrap. apply wrap_add_l.
  - pose proof (w_pc _ _ _ _ _ W2) as Ep'. rewrite <- Ep'. unfold linked in Ep. rewrite Ep, EV. reflexivity.
Qed.

Lemma group_runs inst d f p :
  hart_ok 64 (px_proc p) -> regs_in d -> Forall decoded (fused_tail f) -> fused_ok inst d f = true ->
  let '(rd, v, t) := fused_result (pc_of p) inst d f (regs p) in
  exists q, run_all ((inst, d) :: fused_tail f) p q /\ wrote p q rd v t.
Proof using.
  intros Hh Hd Ht Hok. pose proof Hh as (Hp & He & _). pose proof Hd as (Dr & _).
  destruct f as [i2 d2 | i2 d2 | i2 d2 | i2 d2 i3 d3]; cbn [fused_tail fused_result run_all] in *; cbn [fused_ok] in Hok; unfold shifts_32 in Hok; fused_facts Hok;
    apply Forall_cons in Ht as [[Hd2 Hj2] Ht]; cbn [snd] in Hd2, Hj2.
  - edestruct (int_step d inst p) as (q & G1 & W1); [assumption .. | apply int_value_auipc; assumption | apply counts_free; auto |].
    group_step W1 d2 i2. exists r. split; [eauto |]. eapply wrote_mod; [exact W | |]; [wrap_tac | f_equal; lia].
  - edestruct (int_step d inst p) as (q & G1 & W1); [assumption .. | lia | apply int_value_auipc; assumption | apply counts_free; auto |].
    replace (d_rd d) with 1 in W1 by lia. rewrite F0 in W1. 
    destruct (jalr_then p q _ _ d2 i2 Hh W1) as (r & G2 & W2); try assumption.
    + rewrite Z.even_add, He. reflexivity.
    + rewrite Z.even_add, wrap_wrap, wrap_even, Z.even_add, He by lia. rewrite Z.even_add in F. destruct (Z.even (d_imm d)), (Z.even (d_imm d2)); (reflexivity || discriminate).
    + exists r. split; [eauto |]. eapply wrote_mod; [exact W2 | |]; [f_equal; lia | wrap_tac].
  - assert (Hn : d_rd d <> 0) by (eapply zextw_encodes_rd; eassumption).
    edestruct (int_step d inst p) as (q & G1 & W1); [assumption .. | apply int_value_slli; assumption | apply counts_32; auto |].
    group_step W1 d2 i2. exists r. split; [eauto |]. eapply wrote_mod; [exact W | | reflexivity].
    rewrite wrap_wrap, shifts_zext. reflexivity.
  - apply Forall_cons in Ht as [[Hd3 Hj3] _]. cbn [snd] in Hd3, Hj3.
    edestruct (int_step d inst p) as (q & G1 & W1); [assumption .. | apply int_value_addiw; assumption | apply counts_free; auto |].
    group_step W1 d2 i2. group_step W d3 i3. exists r0. split; [eauto 10 |]. eapply wrote_mod; [exact W0 | | reflexivity].
    rewrite wrap_wrap, shifts_zext. unfold sext32.
    replace (d_rs1 d) with (d_rd d) by congruence. rewrite !u32_u64, wrap_swrap, <- wrap_add_r, u32_u64, wrap_add_r by lia. reflexivity.
Qed.

(** ** The code of a group *)
Context (stk : list Z).

(** The lemma of an emitter, for a state in which a group wrote a register. *)
Lemma wrote_goes_on rd f c p q v t x :
  proc_ok 64 (px_proc p) -> rd <> 0 -> computes rd f c -> f (regs p) = u64 v ->
  wrote p q rd v t -> holds stk p x -> runs c None x (goes_on stk q).
Proof using.
  intros Hp Hn Hc Ef W Hx. apply (sim_ends stk p x Hp Hx c (<[Z.to_nat rd := f (regs p)]> (regs p)) (px_mem p)).
  - intros A HA H0 HR Hm. rewrite <- HR, <- Hm. pose proof (Hc A x HA H0 Logic.I) as Hr.
    destruct (Z.eqb_spec rd 0); [contradiction | exact Hr].
  - intros _. rewrite (w_regs _ _ _ _ _ W), Ef. reflexivity.
  - symmetry. apply (w_mem _ _ _ _ _ W).
Qed.

Lemma fused_jit_regs pc inst d f : regs_in d -> Forall decoded (fused_tail f) -> regs_ok (fused_jit pc inst d f).
Proof using.
  intros (D1 & D2 & D3) Ht. destruct f; cbn [fused_tail] in Ht; apply Forall_cons in Ht as [[(T1 & T2 & T3) _] _]; cbn [snd] in *;
    split; cbn [fused_jit j_rd j_rs1 j_rs2]; lia.
Qed.

Lemma imm_sum z : imm32 z = true -> s32 (u64 z) = z.
Proof using. intros H. apply imm32_range in H. rewrite <- swrap_wrap, u32_u64, swrap_wrap. apply swrap_small; lia. Qed.

Lemma length_mod16 inst : 0 <= inst_length inst.
Proof using. unfold inst_length. repeat match goal with |- context [if ?b then _ else _] => destruct b end; lia. Qed.

Lemma fused_code lookup_trace_slow lookup_trace_fast inst d f p x st :
  hart_ok 64 (px_proc p) -> regs_in d -> Forall decoded (fused_tail f) -> fused_ok inst d f = true -> holds stk p x ->
  let '(c, st', go) := emit_inst lookup_trace_slow lookup_trace_fast (fused_jit (pc_of p) inst d f) (regs p) st in
  exists q, run_all ((inst, d) :: fused_tail f) p q /\ runs c None x (goes_on stk q) /\ pc_of q = term_pc st'.
Proof using.
  intros Hh Hd Ht Hok Hx. pose proof (group_runs inst d f p Hh Hd Ht Hok) as Hg. pose proof (fused_jit_regs (pc_of p) inst d f Hd Ht) as Hr.
  pose proof (proj1 Hh) as Hp. destruct (fused_result _ _ _ _ _) as [[rd v] t] eqn:E. destruct Hg as (q & Hq & W).
  set (dec := fused_jit (pc_of p) inst d f) in *.
  destruct f as [i2 d2 | i2 d2 | i2 d2 | i2 d2 i3 d3]; cbn [fused_result] in E; injection E as <- <- <-; cbn [fused_ok] in Hok; unfold shifts_32 in Hok; fused_facts Hok;
  cbn [emit_inst dec fused_jit j_op]; fold dec.
  - assert (Es : j_imm dec = d_imm d + d_imm d2) by (apply imm_sum; assumption).
    pose proof (emit_la_ok dec Hr) as Hc. change (j_rd dec) with (d_rs1 d2) in Hc. rewrite F1 in Hc.
    exists q. split; [exact Hq |]. split; [apply (wrote_goes_on _ _ _ p q _ _ x Hp F3 Hc) with (2 := W); [| exact Hx] |].
    + rewrite Es. change (j_pc dec) with (pc_of p). f_equal. lia.
    + rewrite (w_pc _ _ _ _ _ W). change (term_pc _) with (u64 (pc_of p + (inst_length i2 + 4))). f_equal. lia.
  - assert (Es : j_imm dec = d_imm d + d_imm d2) by (apply imm_sum; assumption).
    unfold emit_call. change (j_rd _) with (d_rs1 d2). rewrite F2. cbn [Z.eqb Pos.eqb app].
    pose proof (mov_ra_ok (u64 (j_pc dec + inst_length (j_inst dec) + 4)) (wrap_range 64 ltac:(lia) _)) as Hc.
    exists q. split; [exact Hq |]. split.
    + apply (wrote_goes_on 1 _ _ p q _ _ x Hp ltac:(lia) Hc) with (2 := W); [| exact Hx].
      change (j_pc dec) with (pc_of p). change (j_inst dec) with i2. f_equal. lia.
    + rewrite (w_pc _ _ _ _ _ W). change (term_pc _) with (u64 (pc_of p + j_imm dec)). rewrite Es. reflexivity.
  - assert (Hn : d_rd d <> 0) by (eapply zextw_encodes_rd; eassumption).
    assert (Ez : j_sz dec = inst_length inst + inst_length i2).
    { pose proof (length_mod16 inst). pose proof (length_mod16 i2). apply Z.mod_small. lia. }
    pose proof (emit_zextw_ok dec Hr ltac:(assumption)) as Hc. change (j_rd dec) with (d_rd d) in Hc. change (j_rs1 dec) with (d_rs1 d) in Hc.
    exists q. split; [exact Hq |]. split; [apply (wrote_goes_on _ _ _ p q _ _ x Hp Hn Hc) with (2 := W); [| exact Hx] |].
    + symmetry. apply u64_u32.
    + rewrite (w_pc _ _ _ _ _ W). change (term_pc _) with (u64 (pc_of p + j_sz dec)). rewrite Ez. f_equal. lia.
  - assert (Ez : j_sz dec = inst_length inst + inst_length i2 + inst_length i3).
    { pose proof (length_mod16 inst). pose proof (length_mod16 i2). pose proof (length_mod16 i3). apply Z.mod_small. lia. }
    assert (Es : j_imm dec = d_imm d) by (apply imm_sum; assumption).
    assert (Hn : d_rd d <> 0) by assumption.
    pose proof (emit_addiwz_ok dec Hr ltac:(assumption) ltac:(rewrite Es; assumption)) as Hc. change (j_rd dec) with (d_rd d) in Hc.
    exists q. split; [exact Hq |]. split; [apply (wrote_goes_on _ _ _ p q _ _ x Hp Hn Hc) with (2 := W); [| exact Hx] |].
    + rewrite Es. symmetry. apply u64_u32.
    + rewrite (w_pc _ _ _ _ _ W). change (term_pc _) with (u64 (pc_of p + j_sz dec)). rewrite Ez. f_equal. lia.
Qed.

(** Where the trace goes on after a pseudo-instruction. *)
Definition fused_follow (dec : jit_decode) : Z :=
  match j_op dec with
  | jit_op_la => u64 (j_pc dec + (inst_length (j_inst dec) + 4))
  | jit_op_call => u64 (j_pc dec + j_imm dec)
  | _ => u64 (j_pc dec + j_sz dec)
  end.

Lemma fused_emits lookup_trace_slow lookup_trace_fast pc inst d f R st c st' go :
  emit_inst lookup_trace_slow lookup_trace_fast (fused_jit pc inst d f) R st = (c, st', go) ->
  go = true /\ term_pc st' = fused_follow (fused_jit pc inst d f) /\ labels st' = labels st /\
  jmp_tramp_labels st' = jmp_tramp_labels st /\ exit_tramp_labels st' = exit_tramp_labels st.
Proof using. destruct f; cbn [fused_jit emit_inst j_op]; unfold emit_call; intros [= <- <- <-]; auto. Qed.

(** The instructions of a group keep the processor well formed. *)
#[local] Instance pair_cpu : Cpu proxy := proxy_cpu fpu m64 syscall.
Context `{!CpuSafe proxy}.

Lemma guest_step_hart d inst p q : jump_even d -> hart_ok 64 (px_proc p) -> guest_step fpu syscall d inst p q -> hart_ok 64 (px_proc q).
Proof using CpuSafe0.
  intros Hj (H1 & H2 & H3) Hs.
  assert (Hoff : 0 <= inst_length inst < 2 ^ 64) by
    (unfold inst_length; repeat match goal with |- context [if ?b then _ else _] => destruct b end; lia).
  pose proof (execute_turn (P := proxy) (pc_of p) (instret (px_proc p)) d (inst_length inst) p H2 Hoff (proj2 (inst_length_legal inst)) Hj) as T.
  assert (Hi : step_inv 64 (pc_of p) (instret (px_proc p)) (px_proc p)) by (unfold step_inv; auto).
  specialize (T Hi). change (execute d (inst_length inst) p) with (@execute proxy _ (jit_cpu fpu syscall) d (inst_length inst) p) in T.
  rewrite Hs in T. apply T.
Qed.

Lemma run_all_hart l : forall p q, Forall decoded l -> hart_ok 64 (px_proc p) -> run_all l p q -> hart_ok 64 (px_proc q).
Proof using CpuSafe0.
  induction l as [| [i d] l IH]; intros p q Hl Hp; [intros -> ; exact Hp |]. apply Forall_cons in Hl as [[_ Hj] Hl].
  intros (r & Hs & Hr). exact (IH r q Hl (guest_step_hart d i p r Hj Hp Hs) Hr).
Qed.
End Pair.
