(* ===== verification/JitTrace.v ===== *)
(** * JitTrace: the code of a trace runs the guest's instructions.

    A pass over the code of a trace, from its start or from the label of an
    instruction, takes the guest through instructions of the trace; where the
    pass ends says where the guest is. *)

From Stdlib Require Import ZArith Lia Bool List.
From stdpp Require Import base numbers list relations.
From S2P Require Import Prelude Meta Decode Codec Alu Machine Fpu Interp InterpSound ExecSpec ExecControl Proxy Runloop Model ProxyCpu Host Jit JitSound JitAuto JitEmit JitExec JitSim JitFlow JitPair.

#[local] Arguments x86_reg : simpl never.
#[local] Arguments wrap : simpl never.
#[local] Arguments swrap : simpl never.
#[local] Arguments V : simpl never.
#[local] Existing Instance proxy_processor.

(** ** Labels that code binds *)
Definition local_labels (c : list xinst) : bool :=
  forallb (fun i => match i with Bind (Lab _) => true | Bind _ => false | _ => true end) c.

Lemma local_labels_app c c' : local_labels (c ++ c') = local_labels c && local_labels c'.
Proof. apply forallb_app. Qed.

Lemma local_if (b : bool) c c' : local_labels c = true -> local_labels c' = true -> local_labels (if b then c else c') = true.
Proof. destruct b; auto. Qed.

Lemma local_cons i c : match i with Bind (Lab _) => true | Bind _ => false | _ => true end = true -> local_labels c = true ->
  local_labels (i :: c) = true.
Proof. intros H1 H2. cbn. rewrite H1. exact H2. Qed.

Create HintDb local_labels.
#[export] Hint Resolve local_if local_cons : local_labels.

(** The code of an instruction binds no other label. *)
Ltac local_tac :=
  repeat match goal with
  | |- local_labels (_ ++ _) = true => rewrite local_labels_app, andb_true_iff; split
  | |- local_labels (if _ then _ else _) = true => apply local_if
  | |- local_labels (_ :: _) = true => apply local_cons; [reflexivity |]
  | |- local_labels [] = true => reflexivity
  end.

Lemma code_local op code dec : emit_code op = Some code -> local_labels (code dec) = true.
Proof.
  intros H. destruct op; try discriminate H; injection H as <-;
    cbv [emit_sll emit_srl emit_sra emit_slli emit_srli emit_srai emit_sllw emit_srlw emit_sraw emit_slliw emit_srliw
      emit_sraiw]; unfold_emit; cbv zeta; local_tac.
Qed.

Section Trace.
Context (lookup_trace_slow : Z -> Z) (lookup_trace_fast : Z) (fpu : host_fpu) (syscall : M proxy unit).
Abbreviation emit_inst := (emit_inst lookup_trace_slow lookup_trace_fast).
Abbreviation emit := (emit lookup_trace_slow lookup_trace_fast).
Abbreviation emit_trace := (emit_trace lookup_trace_slow lookup_trace_fast).

(** ** Instructions of a trace

    An instruction that was fetched at [g_pc], with the guest's registers at
    that time; or the first one of a group that is emitted as a
    pseudo-instruction. *)
Record ginst := mkG { g_pc : Z; g_inst : Z; g_dec : decode; g_regs : list Z; g_fused : option pseudo }.

Definition g_jit (g : ginst) : jit_decode :=
  match g_fused g with
  | None => jit_of (g_pc g) (g_inst g) (g_dec g) | Some f => fused_jit (g_pc g) (g_inst g) (g_dec g) f
  end.

Lemma g_jit_pc g : j_pc (g_jit g) = g_pc g.
Proof using. unfold g_jit. destruct (g_fused g) as [[] |]; reflexivity. Qed.

(** The instructions that it stands for. *)
Definition g_items (g : ginst) : list (Z * decode) :=
  (g_inst g, g_dec g) :: match g_fused g with None => [] | Some f => fused_tail f end.

(** The emitter has code for the instruction. *)
Definition compiled (g : ginst) : bool :=
  match g_fused g, emit_code (d_op (g_dec g)), branch_cond (d_op (g_dec g)), d_op (g_dec g) with
  | Some _, _, _, _ => true
  | None, None, None, rv_op_jal | None, None, None, rv_op_jalr => true
  | None, None, None, _ => false
  | _, _, _, _ => true
  end.

(** Jumps that are compiled as the interpreter executes them, in the state of
    the emitter; a condition on the registers at run time. *)
Definition static_ok (st : emitter) (g : ginst) : bool :=
  match g_fused g, d_op (g_dec g) with
  | Some f, _ => fused_ok (g_inst g) (g_dec g) f | None, rv_op_jalr => jalr_static (g_jit g) st | _, _ => true
  end.

Definition dynamic_ok (g : ginst) (R : list Z) : bool :=
  match g_fused g, d_op (g_dec g) with
  | Some _, _ => true
  | None, rv_op_jalr => Z.even (u64 (V R (d_rs1 (g_dec g)) + d_imm (g_dec g)))
  | None, op => match emit_code op with Some _ => code_ok op (g_jit g) R | None => true end
  end.

Definition is_jalr (g : ginst) : bool := match g_fused g, d_op (g_dec g) with None, rv_op_jalr => true | _, _ => false end.

(** The [pc] at which the trace goes on. *)
Definition follow (st : emitter) (g : ginst) : option Z :=
  let '(dec, op) := (g_jit g, d_op (g_dec g)) in
  match g_fused g, emit_code op, branch_cond op with
  | Some _, _, _ => Some (fused_follow dec)
  | _, Some _, _ => Some (u64 (g_pc g + inst_length (g_inst g)))
  | _, _, Some _ =>
      Some (if branch_now op (g_regs g) dec then u64 (g_pc g + d_imm (g_dec g)) else u64 (g_pc g + inst_length (g_inst g)))
  | _, _, _ =>
      match op with
      | rv_op_jal => Some (u64 (g_pc g + d_imm (g_dec g))) | rv_op_jalr => jalr_follow dec st | _ => None
      end
  end.

(** The trace of a run from [pc]: each instruction is at the [pc] where the one
    before goes on. *)
Fixpoint chain (gs : list ginst) (st : emitter) (pc : Z) : Prop :=
  match gs with
  | [] => True
  | g :: gs =>
      g_pc g = pc /\ Forall decoded (g_items g) /\
      (mem_pc pc (labels st) = false -> compiled g = true ->
       static_ok (with_label st pc) g = true /\
       forall pc', follow (with_label st pc) g = Some pc' -> chain gs (emit (g_jit g) (g_regs g) st).1.2 pc')
  end.

Lemma inst_simulates stk st g p x :
  hart_ok 64 (px_proc p) -> regs_in (g_dec g) -> jump_even (g_dec g) -> holds stk p x -> pc_of p = g_pc g -> g_fused g = None ->
  compiled g = true -> static_ok st g = true -> dynamic_ok g (ireg (px_proc p)) = true ->
  simulates lookup_trace_slow lookup_trace_fast fpu syscall stk (g_dec g) (g_inst g) p x (follow st g) (emit_inst (g_jit g) (g_regs g) st).
Proof using.
  intros Hh Hd Hj Hx Hpc Hf Hc Hs Hdy. unfold emit_inst, follow, g_jit, compiled, static_ok, dynamic_ok, g_jit in *. rewrite Hf in *.
  cbn [j_op jit_of]. rewrite <- Hpc in *.
  destruct (emit_code (d_op (g_dec g))) as [code |] eqn:Ec.
  { apply code_simulates; try assumption. destruct (d_op (g_dec g)); try exact Hdy; discriminate Ec. }
  destruct (branch_cond (d_op (g_dec g))) as [[bf ibf] |] eqn:Eb.
  { apply branch_simulates; assumption. }
  destruct (d_op (g_dec g)) eqn:Eo; try discriminate Hc; [apply jal_simulates | apply jalr_simulates]; assumption.
Qed.

(** ** What an emission does to the emitter *)
Record grows (st st' : emitter) : Prop := {
  grows_labels : forall t, mem_pc t (labels st) = true -> mem_pc t (labels st') = true;
  grows_jmp : incl (jmp_tramp_labels st) (jmp_tramp_labels st');
  grows_exit : incl (exit_tramp_labels st) (exit_tramp_labels st') }.

#[local] Instance grows_preorder : PreOrder grows.
Proof using.
  split; [intros st; split; auto using incl_refl |].
  intros a b c [A1 A2 A3] [B1 B2 B3]. split; [auto | eapply incl_tran; eassumption ..].
Qed.

Lemma at_exit_grows st st' q l x : grows st st' ->
  at_exit lookup_trace_slow lookup_trace_fast st q l x -> at_exit lookup_trace_slow lookup_trace_fast st' q l x.
Proof using. intros [G1 G2 G3]. destruct l; cbn; try tauto; intros [E H]; auto. Qed.

Lemma grows_out j pc st c st' : emit_out lookup_trace_slow j pc st = (c, st') -> 
  (exists l, c = [j l]) /\ labels st' = labels st /\ grows st st'.
Proof using.
  unfold emit_out. destruct (_ =? 0); intros [= <- <-]; (split; [eexists; reflexivity |]); (split; [reflexivity |]); [| reflexivity].
  split; cbn; auto using insert_key_incl, incl_refl.
Qed.

(** The state's [term_pc] is where the trace goes on, or the code does not go
    on but jumps to the code of that [pc]. *)
Definition term_static (st : emitter) (t : Z) : Prop :=
  term_pc st = t \/ mem_pc t (labels st) = true.

Lemma fused_regs pc inst d f R R' st : emit_inst (fused_jit pc inst d f) R' st = emit_inst (fused_jit pc inst d f) R st.
Proof using. destruct f; reflexivity. Qed.

Lemma fused_local pc inst d f R st : local_labels (emit_inst (fused_jit pc inst d f) R st).1.1 = true.
Proof using.
  destruct f; cbn [fused_jit emit_inst j_op fst]; unfold emit_la, emit_call, emit_zextw, emit_addiwz; cbv zeta; cbn [fst]; local_tac.
Qed.

Lemma emit_inst_compiled st g c st' go :
  compiled g = true -> emit_inst (g_jit g) (g_regs g) st = (c, st', go) ->
  local_labels c = true /\ labels st' = labels st /\ grows st st' /\ (go = true -> exists t, follow st g = Some t /\ (is_jalr g = false -> term_static st' t)).
Proof using.
  unfold compiled, follow, term_static, is_jalr, g_jit. destruct (g_fused g) as [f |].
  { intros _ E. pose proof (fused_local (g_pc g) (g_inst g) (g_dec g) f (g_regs g) st) as L. rewrite E in L.
    apply fused_emits in E as (-> & Et & El & Ej & Ex). split; [exact L |]. split; [exact El |].
    split; [split; rewrite ?El, ?Ej, ?Ex; auto using incl_refl | eauto]. }
  unfold emit_inst. cbn [j_op jit_of]. set (dec := jit_of _ _ _).
  destruct (emit_code (d_op (g_dec g))) as [code |] eqn:Ec.
  { intros _ [= <- <- <-]. split; [apply (code_local _ _ _ Ec) |]. split; [reflexivity |]. split; [split; auto using incl_refl | eauto]. }
  destruct (branch_cond (d_op (g_dec g))) as [[bf ibf] |] eqn:Eb.
  { intros _. unfold emit_branch. repeat match goal with |- context [emit_out _ ?j ?t ?s] => destruct (emit_out lookup_trace_slow j t s) eqn:?Eo end.
    repeat match goal with H : emit_out _ _ _ _ = _ |- _ => apply grows_out in H as ([? ->] & ? & [? ? ?]) end.
    assert (L : local_labels (emit_cmp dec) = true) by (unfold emit_cmp; local_tac).
    repeat match goal with |- context [if ?b then _ else _] => destruct b eqn:? end; intros [= <- <- <-];
      rewrite local_labels_app, L; (split; [reflexivity |]); (split; [cbn; congruence |]);
      (split; [split; cbn; auto using incl_refl | intros _; eexists; split; [reflexivity | intros _]]); cbn; auto.
    all: repeat match goal with H : _ && _ = true |- _ => apply andb_true_iff in H as [? ?] end; auto.
    all: right; match goal with H : labels ?e = labels ?s |- context [labels ?e] => rewrite H end; (assumption || discriminate). }
  destruct (d_op (g_dec g)); try discriminate; intros _.
  - unfold emit_jal. destruct (j_rd dec =? 0); intros [= <- <- <-]; (split; [unfold emit_link; local_tac |]); (split; [reflexivity |]);
      (split; [split; auto using incl_refl | eauto]).
  - unfold emit_jalr, jalr_follow. destruct (inlined_ret dec st) as [[l s] |]; intros [= <- <- <-];
      (split; [cbv zeta; unfold emit_link; local_tac |]); (split; [reflexivity |]);
      (split; [split; cbn; auto using incl_refl, insert_key_incl | first [discriminate | intros _; eexists; split; [reflexivity | discriminate]]]).
Qed.

Lemma emit_inst_other st g : compiled g = false -> emit_inst (g_jit g) (g_regs g) st = ([], st, false).
Proof using.
  unfold compiled, emit_inst, g_jit. destruct (g_fused g); [discriminate |]. cbn [j_op jit_of]. destruct (emit_code _); [discriminate |]. destruct (branch_cond _) as [[] |]; [discriminate |].
  destruct (d_op (g_dec g)); try reflexivity; discriminate.
Qed.

(** The labels that a trace binds are new. *)
Abbreviation items gs := (map (fun g => (g_jit g, g_regs g)) gs).

Definition fresh_label (st st' : emitter) (l : label) : Prop :=
  (exists n, l = Lab n) \/ exists t, l = At t /\ mem_pc t (labels st) = false /\ mem_pc t (labels st') = true.

Lemma local_labels_in c l : local_labels c = true -> In (Bind l) c -> exists n, l = Lab n.
Proof using. unfold local_labels. rewrite forallb_forall. intros H Hin. specialize (H _ Hin). destruct l; try discriminate. eauto. Qed.

Lemma mem_pc_add t st : mem_pc t (labels (with_label st t)) = true.
Proof using. cbn. rewrite Z.eqb_refl. reflexivity. Qed.

Lemma grows_add t st : grows st (with_label st t).
Proof using. split; auto using incl_refl. intros t' H. unfold mem_pc in *. cbn. rewrite H. apply orb_true_r. Qed.

Lemma emit_cases st g c st' go : emit (g_jit g) (g_regs g) st = (c, st', go) ->
  (mem_pc (g_pc g) (labels st) = true /\ c = [] /\ st' = st /\ go = false) \/
  (mem_pc (g_pc g) (labels st) = false /\ compiled g = false /\ c = [Bind (At (g_pc g))] /\ st' = with_label st (g_pc g) /\ go = false) \/
  (mem_pc (g_pc g) (labels st) = false /\ compiled g = true /\
   exists c1, c = Bind (At (g_pc g)) :: c1 /\ emit_inst (g_jit g) (g_regs g) (with_label st (g_pc g)) = (c1, st', go)).
Proof using.
  unfold JitEmit.emit. rewrite (g_jit_pc g). destruct (mem_pc (g_pc g) (labels st)) eqn:M.
  { intros [= <- <- <-]. auto. }
  destruct (compiled g) eqn:C; [| rewrite emit_inst_other by exact C; intros [= <- <- <-]; auto 10].
  destruct (emit_inst _ _ _) as [[c1 st1] go1] eqn:E. intros [= <- <- <-]. right. right. eauto.
Qed.

Lemma emit_grows st g c st' go : emit (g_jit g) (g_regs g) st = (c, st', go) ->
  grows st st' /\ forall l, In (Bind l) c -> fresh_label st st' l.
Proof using.
  intros H. apply emit_cases in H as [(_ & -> & -> & _) | [(M & _ & -> & -> & _) | (M & C & c1 & -> & E)]].
  - split; [reflexivity | contradiction].
  - split; [apply grows_add |]. intros l [[= <-] | []]. right. eexists. split; [reflexivity |]. split; [exact M | apply mem_pc_add].
  - apply emit_inst_compiled in E as (L & El & G & _); [| exact C]. split; [etransitivity; [apply grows_add | exact G] |].
    intros l [[= <-] | Hin]; [| left; apply (local_labels_in c1 l L Hin)].
    right. eexists. split; [reflexivity |]. split; [exact M |]. apply G, mem_pc_add.
Qed.

Lemma emit_trace_grows gs : forall st c st', emit_trace (items gs) st = (c, st') ->
  grows st st' /\ forall l, In (Bind l) c -> fresh_label st st' l.
Proof using.
  induction gs as [| g gs IH]; intros st c st'; cbn [map JitEmit.emit_trace]; [intros [= <- <-]; split; [reflexivity | contradiction] |].
  destruct (emit (g_jit g) (g_regs g) st) as [[c1 st1] go] eqn:E. apply emit_grows in E as [G1 B1].
  destruct go; [| intros [= <- <-]; auto].
  destruct (emit_trace (items gs) st1) as [c2 st2] eqn:E2. intros [= <- <-]. destruct (IH st1 c2 st2 E2) as [G2 B2].
  split; [etransitivity; eassumption |]. intros l Hin. apply in_app_iff in Hin as [Hin | Hin].
  - destruct (B1 l Hin) as [Hn | (t & -> & H1 & H2)]; [left; exact Hn | right]. exists t. split; [reflexivity |]. split; [exact H1 | apply G2, H2].
  - destruct (B2 l Hin) as [Hn | (t & -> & H1 & H2)]; [left; exact Hn | right]. exists t. split; [reflexivity |]. split; [| exact H2].
    destruct (mem_pc t (labels st)) eqn:M; [| reflexivity]. apply G1 in M. congruence.
Qed.

Lemma emit_trace_cons g gs st c st' : emit_trace (items (g :: gs)) st = (c, st') ->
  (mem_pc (g_pc g) (labels st) = true /\ c = [] /\ st' = st) \/
  (mem_pc (g_pc g) (labels st) = false /\ compiled g = false /\ c = [Bind (At (g_pc g))] /\ st' = with_label st (g_pc g)) \/
  (mem_pc (g_pc g) (labels st) = false /\ compiled g = true /\
   exists c1 st1 go c2, emit_inst (g_jit g) (g_regs g) (with_label st (g_pc g)) = (c1, st1, go) /\
     emit (g_jit g) (g_regs g) st = (Bind (At (g_pc g)) :: c1, st1, go) /\ c = Bind (At (g_pc g)) :: c1 ++ c2 /\
     grows st1 st' /\ (forall l, In (Bind l) c2 -> fresh_label st1 st' l) /\
     if go : bool then emit_trace (items gs) st1 = (c2, st') else c2 = [] /\ st' = st1).
Proof using.
  cbn [map JitEmit.emit_trace]. destruct (emit (g_jit g) (g_regs g) st) as [[c1 st1] go] eqn:E. intros Et.
  pose proof (emit_cases _ _ _ _ _ E) as [(M & -> & -> & ->) | [(M & C & -> & -> & ->) | (M & C & c2 & -> & E2)]].
  1, 2: injection Et as <- <-; auto 10.
  right. right. split; [exact M |]. split; [exact C |]. exists c2, st1, go.
  destruct go; [destruct (emit_trace (items gs) st1) as [c3 st3] eqn:E3 |]; injection Et as <- <-; eexists; (split; [exact E2 |]);
    (split; [reflexivity |]).
  - split; [reflexivity |]. destruct (emit_trace_grows _ _ _ _ E3). auto.
  - split; [rewrite app_nil_r; reflexivity |]. split; [reflexivity |]. split; [contradiction | auto].
Qed.

(** A label that code does not bind is passed over. *)
Lemma pass_over c l x : (forall l', In (Bind l') c -> label_eqb l l' = false) -> host_go c (Some l) x = Some (x, Some l).
Proof using.
  induction c as [| i c IH]; intros H; [reflexivity |]. cbn [host_go].
  destruct i; try (apply IH; intros l' Hin; apply H; right; exact Hin).
  rewrite (H l0 (or_introl eq_refl)). apply IH. intros l' Hin. apply H. right. exact Hin.
Qed.

Lemma exit_not_new st st' q l x l' :
  at_exit lookup_trace_slow lookup_trace_fast st q l x -> fresh_label st st' l' -> label_eqb l l' = false.
Proof using.
  intros He [(n & ->) | (t & -> & M & _)]; destruct l; try reflexivity; try contradiction. cbn in *.
  destruct He as [_ He]. apply Z.eqb_neq. intros ->. congruence.
Qed.

(** ** A pass over a trace *)
Context (G : list ginst).
#[local] Instance trace_cpu : Cpu proxy := proxy_cpu fpu m64 syscall.
Context `{!CpuSafe proxy}.

(** The guest executes an instruction of the trace. *)
Definition trace_step (p q : proxy) : Prop :=
  exists g, In g G /\ pc_of p = g_pc g /\ run_all fpu syscall (g_items g) p q.

(** An instruction whose code would not do what the interpreter does. *)
Definition blocked (p : proxy) : Prop := exists g, In g G /\ pc_of p = g_pc g /\ dynamic_ok g (ireg (px_proc p)) = false.

(** The trace ends with a return that is inlined; [ret] is whether the
    instruction before is one. *)
Fixpoint ends_in_ret (gs : list ginst) (st : emitter) (ret : bool) : bool :=
  match gs with
  | [] => ret
  | g :: gs =>
      if mem_pc (g_pc g) (labels st) then ret
      else if compiled g then
        let '(_, st1, go) := emit (g_jit g) (g_regs g) st in if go : bool then ends_in_ret gs st1 (is_jalr g) else false
      else ret
  end.

(** At the end of the code [pc] is the state's [term_pc], unless the trace ends
    with a return. *)
Definition ends_at (stk : list Z) (st : emitter) (ret : bool) (q : proxy) (k : option label) (x : xstate) : Prop :=
  holds stk q x /\
  match k with
  | None => ret = false -> term_pc st = pc_of q
  | Some l => at_exit lookup_trace_slow lookup_trace_fast st q l x
  end.

(** An instruction of the trace. *)
Lemma trace_turn stk st g p x c1 st1 go :
  In g G -> hart_ok 64 (px_proc p) -> Forall decoded (g_items g) -> holds stk p x -> pc_of p = g_pc g ->
  compiled g = true -> static_ok st g = true -> emit_inst (g_jit g) (g_regs g) st = (c1, st1, go) ->
  blocked p \/
  exists q, (q = p \/ trace_step p q) /\ hart_ok 64 (px_proc q) /\
    runs c1 None x (fun k x' => holds stk q x' /\
      match k with
      | None => go = true /\ follow st g = Some (pc_of q) /\ (is_jalr g = false -> term_pc st1 = pc_of q)
      | Some l => at_exit lookup_trace_slow lookup_trace_fast st1 q l x'
      end).
Proof using CpuSafe0.
  intros Hin Hh Hd Hx Hpc Hc Hs E. destruct (dynamic_ok g (ireg (px_proc p))) eqn:Hdy; [right | left; exists g; auto].
  assert (Hstep : forall q, run_all fpu syscall (g_items g) p q -> (q = p \/ trace_step p q) /\ hart_ok 64 (px_proc q)).
  { intros q Hq. split; [right; exists g; auto | exact (run_all_hart fpu syscall _ p q Hd Hh Hq)]. }
  destruct (g_fused g) as [f |] eqn:Ef.
  - unfold g_items, g_jit, static_ok in *. rewrite Ef in *. rewrite <- Hpc in E. apply Forall_cons in Hd as [[Hd _] Ht].
    pose proof (fused_code fpu syscall stk lookup_trace_slow lookup_trace_fast (g_inst g) (g_dec g) f p x st Hh Hd Ht Hs Hx) as C.
    rewrite (fused_regs _ _ _ _ (g_regs g)), E in C. destruct C as (q & Hq & Hr & Ep). exists q. split; [apply Hstep, Hq |]. split; [apply Hstep, Hq |].
    pose proof E as E'. apply fused_emits in E' as (-> & Et & _). 
    eapply runs_post; [exact Hr |]. intros k x' [-> Hx']. split; [exact Hx' |]. split; [reflexivity |].
    split; [| auto]. unfold follow, g_jit. rewrite Ef, <- Hpc, <- Et, Ep. reflexivity.
  - assert (Ei : g_items g = [(g_inst g, g_dec g)]) by (unfold g_items; rewrite Ef; reflexivity).
    rewrite Ei in *. apply Forall_cons in Hd as [[Hd Hj] _]. cbn [snd] in Hd, Hj.
    pose proof (inst_simulates stk st g p x Hh Hd Hj Hx Hpc Ef Hc Hs Hdy) as S. rewrite E in S. destruct S as [(q & Hg & Hr) | Hr].
    + exists q. destruct (Hstep q) as [S1 S2]; [exists q; split; [exact Hg | reflexivity] |]. split; [exact S1 |]. split; [exact S2 |].
      eapply runs_post; [exact Hr |]. intros k x' [Hq Hk]. split; [exact Hq |]. destruct k as [l |]; [exact Hk |].
      destruct Hk as (K1 & K2 & K3). split; [exact K1 |]. split; [exact K2 |]. unfold is_jalr. rewrite Ef. intros T. apply K3.
      intros E0. rewrite E0 in T. discriminate T.
    + exists p. split; [left; reflexivity |]. split; [exact Hh |]. eapply runs_post; [exact Hr |].
      intros k x' (Hq & -> & Hin'). split; [exact Hq |]. split; [reflexivity | exact Hin'].
Qed.

Lemma step_rtc p q r : q = p \/ trace_step p q -> rtc trace_step q r -> rtc trace_step p r.
Proof using. intros [-> | H] R; [exact R | eapply rtc_l; eassumption]. Qed.

Lemma chain_tail g gs st pc c1 st1 go t :
  chain (g :: gs) st pc -> mem_pc pc (labels st) = false -> compiled g = true ->
  emit (g_jit g) (g_regs g) st = (c1, st1, go) -> follow (with_label st pc) g = Some t -> chain gs st1 t.
Proof using. intros (_ & _ & H) M C E F. destruct (H M C) as [_ K]. specialize (K t F). rewrite E in K. exact K. Qed.

Lemma pass_from stk gs : forall st ret c st' p x,
  incl gs G -> emit_trace (items gs) st = (c, st') -> chain gs st (pc_of p) -> hart_ok 64 (px_proc p) -> holds stk p x ->
  (ret = false -> term_pc st = pc_of p) ->
  exists q, rtc trace_step p q /\ hart_ok 64 (px_proc q) /\
    (blocked q \/ runs c None x (ends_at stk st' (ends_in_ret gs st ret) q)).
Proof using CpuSafe0.
  induction gs as [| g gs IH]; intros st ret c st' p x Hincl Et Hch Hh Hx Ht.
  { injection Et as <- <-. exists p. split; [apply rtc_refl |]. split; [exact Hh | right]. split; [exact Hx | exact Ht]. }
  apply emit_trace_cons in Et as [(M & -> & ->) | [(M & C & -> & ->) | (M & C & c1 & st1 & go & c2 & E2 & E & -> & Gr & B & Et)]].
  1, 2: exists p; split; [apply rtc_refl |]; split; [exact Hh | right; split; [exact Hx |]]; cbn [ends_in_ret]; rewrite M, ?C; exact Ht.
  pose proof Hch as (Hpc & Hd & Hs). rewrite Hpc in M, E2. destruct (Hs M C) as [Hst _].
  pose proof (emit_inst_compiled _ _ _ _ _ C E2) as (_ & _ & _ & Hfol).
  destruct (trace_turn stk _ g p x c1 st1 go (Hincl _ (or_introl eq_refl)) Hh Hd Hx (eq_sym Hpc) C Hst E2) as [Hb | (q1 & Hq1 & Hh1 & Hr1)].
  { exists p. split; [apply rtc_refl |]. auto. }
  unfold runs in Hr1. destruct (host_go c1 None x) as [[x1 k1] |] eqn:Ec; [| contradiction]. destruct Hr1 as [Hx1 Hk1].
  assert (Hrun : forall post, runs c2 k1 x1 post -> runs (Bind (At (g_pc g)) :: c1 ++ c2) None x post).
  { intros post Hr. apply wp_bind, runs_app. unfold runs at 1. rewrite Ec. exact Hr. }
  destruct k1 as [l |].
  { exists q1. split; [apply (step_rtc p q1 q1 Hq1), rtc_refl |]. split; [exact Hh1 | right]. apply Hrun. unfold runs.
    rewrite pass_over by (intros l' Hl'; apply (exit_not_new st1 st' q1 l x1 l' Hk1), B, Hl').
    split; [exact Hx1 | apply (at_exit_grows _ _ _ _ _ Gr Hk1)]. }
  destruct Hk1 as (-> & Hf & Ht1). rewrite <- Hpc in M.
  pose proof Hch as Hch'. rewrite <- Hpc in Hch', Hf. pose proof (chain_tail _ _ _ _ _ _ _ _ Hch' M C E Hf) as Hct.
  destruct (IH st1 (is_jalr g) c2 st' q1 x1 (fun t Ht' => Hincl t (or_intror Ht')) Et Hct Hh1 Hx1 Ht1) as (q & Hq & Hhq & Hr).
  exists q. split; [apply (step_rtc p q1 q Hq1 Hq) |]. split; [exact Hhq |]. destruct Hr as [Hb | Hr]; [left; exact Hb | right; apply Hrun].
  cbn [ends_in_ret]. rewrite M, C, E. exact Hr.
Qed.

(** A pass from the label of an instruction. *)
Lemma bind_runs t c x post : runs (Bind (At t) :: c) None x post -> runs (Bind (At t) :: c) (Some (At t)) x post.
Proof using. unfold runs. cbn [host_go label_eqb]. rewrite Z.eqb_refl. exact (fun H => H). Qed.

Lemma pass_from_label stk gs : forall st ret c st' e p x,
  incl gs G -> emit_trace (items gs) st = (c, st') -> chain gs st e -> (ret = false -> term_static st e) ->
  hart_ok 64 (px_proc p) -> holds stk p x ->
  mem_pc (pc_of p) (labels st) = false -> mem_pc (pc_of p) (labels st') = true ->
  exists q, rtc trace_step p q /\ hart_ok 64 (px_proc q) /\ (blocked q \/ runs c (Some (At (pc_of p))) x (ends_at stk st' (ends_in_ret gs st ret) q)).
Proof using CpuSafe0.
  induction gs as [| g gs IH]; intros st ret c st' e p x Hincl Et Hch Hts Hh Hx Hm Hm'.
  { injection Et as <- <-. congruence. }
  pose proof Hch as (Hpc & Hd & Hs).
  destruct (Z.eqb_spec (g_pc g) (pc_of p)) as [Ep | Ep].
  - rewrite Ep in Hpc. rewrite <- Hpc in Hch, Hts.
    assert (Ht : ret = false -> term_pc st = pc_of p) by (intros Ht; destruct (Hts Ht) as [T | T]; congruence).
    destruct (pass_from stk (g :: gs) st ret c st' p x Hincl Et Hch Hh Hx Ht) as (q & Hq & Hhq & Hr).
    exists q. split; [exact Hq |]. split; [exact Hhq |]. destruct Hr as [Hb | Hr]; [left; exact Hb | right].
    apply emit_trace_cons in Et as [(M & _) | [(M & C & -> & ->) | (M & C & c1 & st1 & go & c2 & E2 & E & -> & Gr & B & Et)]];
      [congruence | ..]; rewrite Ep in *; apply bind_runs, Hr.
  - apply emit_trace_cons in Et as [(M & _ & ->) | [(M & C & _ & ->) | (M & C & c1 & st1 & go & c2 & E2 & E & -> & Gr & B & Et)]].
    1: congruence.
    1: { unfold mem_pc in Hm, Hm'. cbn in Hm'. destruct (Z.eqb_spec (pc_of p) (g_pc g)); [congruence |]. cbn in Hm'. congruence. }
    pose proof (emit_inst_compiled _ _ _ _ _ C E2) as (L & El & _ & Hfol).
    assert (Hm1 : mem_pc (pc_of p) (labels st1) = false).
    { rewrite El. unfold mem_pc in *. cbn. rewrite Hm. destruct (Z.eqb_spec (pc_of p) (g_pc g)); [congruence | reflexivity]. }
    destruct go; [| destruct Et as [_ ->]; congruence]. destruct (Hfol eq_refl) as (t & Hf & Ht).
    rewrite <- Hpc in Hch. pose proof (chain_tail _ _ _ _ _ _ _ _ Hch M C E Hf) as Hct.
    destruct (IH st1 (is_jalr g) c2 st' t p x (fun t Ht' => Hincl t (or_intror Ht')) Et Hct Ht Hh Hx Hm1 Hm') as (q & Hq & Hhq & Hr).
    exists q. split; [exact Hq |]. split; [exact Hhq |]. destruct Hr as [Hb | Hr]; [left; exact Hb | right].
    cbn [ends_in_ret]. rewrite M, C, E.
    change (Bind (At (g_pc g)) :: c1 ++ c2) with ((Bind (At (g_pc g)) :: c1) ++ c2). apply runs_app. unfold runs at 1.
    rewrite pass_over; [exact Hr |]. intros l' [[= <-] | Hl'].
    + apply Z.eqb_neq. congruence.
    + apply (local_labels_in c1 l' L) in Hl' as [n ->]. reflexivity.
Qed.
End Trace.
