(* ===== verification/JitFunc.v ===== *)
(** * JitFunc: the function that is compiled for a trace.

    The host runs the function to where it leaves it: back to the caller with
    the processor's registers in the register file and the caller's registers
    restored, or to another trace. *)

From Stdlib Require Import ZArith Lia Bool List.
From stdpp Require Import base numbers list relations.
From S2P Require Import Prelude Meta Decode Codec Alu Machine Fpu Interp InterpSound ExecSpec ExecControl Proxy Runloop Model ProxyCpu Host Jit JitSound JitAuto JitEmit JitExec JitSim JitFlow JitPair JitTrace.

#[local] Arguments x86_reg : simpl never.
#[local] Arguments wrap : simpl never.
#[local] Arguments V : simpl never.
#[local] Existing Instance proxy_processor.

(** An address that [emit_pc] can store. *)
Definition pc_encodes (t : Z) : bool := (0 <=? t) && ((t <? 2 ^ 31) || (2 ^ 32 - 1 <=? t)) && (t <? 2 ^ 64).

Lemma emit_pc_runs t A x c post : pc_encodes t = true -> rep A x ->
  (forall A' x', rep A' x' -> aR A' = aR A -> amem A' = amem A -> astk A' = astk A -> apc A' = t -> runs c None x' post) ->
  runs (emit_pc t ++ c) None x post.
Proof.
  intros Ht HA Hk. assert (R : 0 <= t < 2 ^ 64 /\ (t < 2 ^ 32 - 1 -> imm32 t = true)).
  { unfold pc_encodes, imm32 in *. split; [lia |]. lia. }
  destruct R as [R Hi]. unfold emit_pc. destruct (Z.ltb_spec t (2 ^ 32 - 1)); cbn [app].
  - specialize (Hi ltac:(assumption)). repeat wp_step. eapply Hk; [eassumption | reflexivity ..|]. cbn.
    rewrite !(wrap_small 64 t) by exact R. reflexivity.
  - repeat wp_step. eapply Hk; [eassumption | reflexivity ..|]. cbn. rewrite !(wrap_small 64 t) by exact R. reflexivity.
Qed.

(** ** Registers to and from the register file *)
Definition regs_load (l : list (Z * Z)) (slot reg : Z -> Z) : Z -> Z :=
  fold_left (fun f '(r, h) => upd f h (u64 (u64 (slot r)))) l reg.

Definition regs_store (l : list (Z * Z)) (reg slot : Z -> Z) : Z -> Z :=
  fold_left (fun f '(r, h) => upd f r (u64 (u64 (reg h)))) l slot.

Definition with_xreg (x : xstate) (f : Z -> Z) : xstate := mkX f (xslot x) (xpc x) (xmem x) (xstack x) (xflags x).
Definition with_xslot (x : xstate) (f : Z -> Z) : xstate := mkX (xreg x) f (xpc x) (xmem x) (xstack x) (xflags x).

Lemma load_runs l : forall x c post,
  runs c None (with_xreg x (regs_load l (xslot x) (xreg x))) post ->
  runs (map (fun '(r, h) => Mov (gpq h) (rbp_reg_q r)) l ++ c) None x post.
Proof.
  induction l as [| [r h] l IH]; intros x c post H; [destruct x; exact H |]. cbn [map app].
  eapply runs_step; [discriminate | discriminate | reflexivity |]. apply IH. exact H.
Qed.

Lemma store_runs l : forall x c post,
  runs c None (with_xslot x (regs_store l (xreg x) (xslot x))) post ->
  runs (map (fun '(r, h) => Mov (rbp_reg_q r) (gpq h)) l ++ c) None x post.
Proof.
  induction l as [| [r h] l IH]; intros x c post H; [destruct x; exact H |]. cbn [map app].
  eapply runs_step; [discriminate | discriminate | reflexivity |]. apply IH. exact H.
Qed.

(** A register of the guest is where [x86_reg] says. *)
Lemma volatile_load slot reg r : 0 <= r < 32 -> mapped r = true ->
  regs_load volatile_regs slot reg (x86_reg r) = u64 (u64 (slot r)).
Proof.
  intros Hr. assert (Hin : In r guest_regs) by (apply guest_regs_in; exact Hr).
  unfold guest_regs in Hin. cbn [map seq Z.of_nat] in Hin.
  repeat (destruct Hin as [<- | Hin]; [try discriminate; reflexivity |]). contradiction.
Qed.

Lemma volatile_load_scratch slot reg h : h = 0 \/ h = 1 \/ h = 5 -> regs_load volatile_regs slot reg h = reg h.
Proof. intros [-> | [-> | ->]]; reflexivity. Qed.

Lemma volatile_store reg slot r : 0 <= r < 32 ->
  regs_store volatile_regs reg slot r = if mapped r then u64 (u64 (reg (x86_reg r))) else slot r.
Proof.
  intros Hr. assert (Hin : In r guest_regs) by (apply guest_regs_in; exact Hr).
  unfold guest_regs in Hin. cbn [map seq Z.of_nat] in Hin.
  repeat (destruct Hin as [<- | Hin]; [reflexivity |]). contradiction.
Qed.

(** ** Entry and exit *)
Section Frame.
Context (S0 : list Z).

(** The function was called: the guest's registers are in the register file. *)
Record called (p : proxy) (x : xstate) : Prop := {
  cl_slot : forall r, 0 <= r < 32 -> xslot x r = V (ireg (px_proc p)) r;
  cl_mem : xmem x = px_mem p;
  cl_stk : xstack x = S0;
  cl_a : 0 <= xreg x 0 < 2 ^ 64;
  cl_c : 0 <= xreg x 1 < 2 ^ 64 }.

(** The registers that the function saves, its stack's top first. *)
Definition saved (x : xstate) : list Z := map (xreg x) [5; 3; 15; 14; 13; 12].

(** The function returned: [x0] is the state at the call. *)
Record returned (x0 : xstate) (q : proxy) (x : xstate) : Prop := {
  rt_slot : forall r, 0 <= r < 32 -> xslot x r = V (ireg (px_proc q)) r;
  rt_mem : xmem x = px_mem q;
  rt_stk : xstack x = S0;
  rt_saved : saved x = saved x0;
  rt_pc : pc_of q <> 0 -> xpc x = pc_of q }.

Lemma push_runs x c post : runs c None (set_xstack x (saved x ++ xstack x)) post ->
  runs ([Push 12; Push 13; Push 14; Push 15; Push 3; Push 5] ++ c) None x post.
Proof using. intros H. do 6 (eapply runs_step; [discriminate | discriminate | reflexivity |]). exact H. Qed.

Lemma called_guest p : proc_ok 64 (px_proc p) -> guest_ok (ireg (px_proc p)).
Proof using. intros Hp. split; apply Hp. Qed.

Lemma prolog_runs p x : proc_ok 64 (px_proc p) -> called p x -> runs emit_prolog None x (goes_on (saved x ++ S0) p).
Proof using.
  intros Hp [H1 H2 H3 H4 H5]. pose proof (called_guest p Hp) as Hg. set (R := ireg (px_proc p)) in *.
  change emit_prolog with ([Push 12; Push 13; Push 14; Push 15; Push 3; Push 5] ++
    Mov (gpq 5) (gpq 7) :: map (fun '(r, h) => Mov (gpq h) (rbp_reg_q r)) volatile_regs).
  apply push_runs. eapply runs_step; [discriminate | discriminate | reflexivity |].
  rewrite <- (app_nil_r (map _ volatile_regs)). apply load_runs. split; [reflexivity |]. rewrite H3.
  exists (mkA R (px_mem p) (xreg x 0) (xreg x 1) (V R 1) (xpc x) (saved x ++ S0) (xflags x)).
  split; [| auto]. split; cbn [aR amem aa ac as1 apc astk af]; try assumption.
  all: try reflexivity.
  - intros r Hr. destruct (mapped r) eqn:E.
    + cbn [with_xreg xreg]. rewrite volatile_load by assumption. cbn. rewrite H1 by exact Hr. fold R.
      rewrite wrap_wrap. apply wrap_small, V_range, Hg.
    + cbn. apply H1, Hr.
  - apply (H1 1). lia.
  - apply V_range, Hg.
Qed.

Lemma pop_runs x c vs s post : xstack x = vs ++ s -> length vs = 6%nat ->
  (forall f, map f [5; 3; 15; 14; 13; 12] = vs ->
     runs c None (set_xstack (with_xreg x f) s) post) ->
  runs ([Pop 5; Pop 3; Pop 15; Pop 14; Pop 13; Pop 12] ++ c) None x post.
Proof using.
  intros Hs Hl Hk. do 6 (destruct vs as [| ? vs]; [discriminate |]). destruct vs; [| discriminate]. cbn [app] in Hs.
  destruct x as [xr xs xp xm xk xf]. cbn [xstack] in Hs. subst xk.
  do 6 (eapply runs_step; [discriminate | discriminate | reflexivity |]). apply Hk. reflexivity.
Qed.

(** The labels of the trampolines. *)
Context (lookup_trace_fast : Z).
Abbreviation jump_tramps l :=
  (concat (map (fun pc => Bind (Jump_tramp pc) :: emit_pc pc ++ [Jmp (Addr lookup_trace_fast)]) l)).
Abbreviation exit_tramps l := (concat (map (fun pc => Bind (Exit_tramp pc) :: emit_pc pc ++ [Jmp Term]) l)).

Lemma emit_pc_no_label t l : ~ In (Bind l) (emit_pc t).
Proof using. unfold emit_pc. destruct (_ <? _); cbn; intuition discriminate. Qed.

Lemma tramp_labels b j l lab : In (Bind lab) (concat (map (fun pc => Bind (b pc) :: emit_pc pc ++ [Jmp j]) l)) -> exists t, lab = b t.
Proof using.
  intros H. apply in_concat in H as (c & Hc & Hin). apply in_map_iff in Hc as (t & <- & _).
  destruct Hin as [[= <-] | Hin]; [eauto |]. apply in_app_iff in Hin as [Hin | [Hin | []]]; [contradiction (emit_pc_no_label _ _ Hin) | discriminate].
Qed.

Lemma emit_tramps_labels st lab : In (Bind lab) (emit_tramps st lookup_trace_fast) ->
  (exists t, lab = Jump_tramp t) \/ exists t, lab = Exit_tramp t.
Proof using. intros H. apply in_app_iff in H as [H | H]; [left | right]; eapply tramp_labels, H. Qed.

(** Back to the caller. *)
Lemma leave_runs x0 q st x : holds (saved x0 ++ S0) q x -> (pc_of q <> 0 -> xpc x = pc_of q) ->
  runs (emit_epilog st lookup_trace_fast) None x (fun k x' => k = Some Caller /\ returned x0 q x').
Proof using.
  intros (A & HA & HR & Hm & Hs) Hpc. unfold emit_epilog. apply store_runs.
  change ([Pop 5; Pop 3; Pop 15; Pop 14; Pop 13; Pop 12; Jmp Caller] ++ emit_tramps st lookup_trace_fast) with
    ([Pop 5; Pop 3; Pop 15; Pop 14; Pop 13; Pop 12] ++ Jmp Caller :: emit_tramps st lookup_trace_fast).
  eapply pop_runs; [cbn; rewrite (rep_stk _ _ HA), Hs; reflexivity | reflexivity |].
  intros f Hf. apply wp_jmp. unfold runs. rewrite pass_over.
  2: { intros l' Hin. apply emit_tramps_labels in Hin as [[t ->] | [t ->]]; reflexivity. }
  split; [reflexivity |]. split; cbn [set_xstack with_xreg with_xslot xreg xslot xmem xstack xpc]; [| rewrite (rep_mem _ _ HA); exact Hm | reflexivity | exact Hf | exact Hpc].
  intros r Hr. rewrite volatile_store by exact Hr. pose proof (rep_repr _ _ HA r Hr) as Hrep. rewrite <- HR.
  destruct (mapped r); [| exact Hrep]. rewrite Hrep, wrap_wrap. apply wrap_small, V_range, HA.
Qed.

(** To a trampoline. *)
Lemma tramp_runs b j l t c q stk x post : (forall u v, b u = b v -> u = v) ->
  (forall u v, label_eqb (b u) (b v) = (u =? v)) ->
  In t l -> pc_encodes t = true -> holds stk q x ->
  (forall x', holds stk q x' -> xpc x' = t -> runs c (Some j) x' post) ->
  (forall u, label_eqb j (b u) = false) ->
  runs (concat (map (fun pc => Bind (b pc) :: emit_pc pc ++ [Jmp j]) l) ++ c) (Some (b t)) x post.
Proof using.
  intros Hb Hbe Hin Ht Hx Hk Hj. induction l as [| u l IH]; [contradiction |]. cbn [map concat app].
  unfold runs. cbn [host_go]. rewrite Hbe. destruct (Z.eqb_spec t u) as [<- | Hn].
  - change (runs (((emit_pc t ++ [Jmp j]) ++ concat (map (fun pc => Bind (b pc) :: emit_pc pc ++ [Jmp j]) l)) ++ c) None x post).
    rewrite <- !app_assoc. destruct Hx as (A & HA & HR & Hm & Hs). eapply emit_pc_runs; [exact Ht | exact HA |].
    intros A' x' HA' E1 E2 E3 E4. cbn [app]. apply wp_jmp, runs_app. unfold runs at 1. rewrite pass_over.
    + apply Hk; [exists A'; rewrite E1, E2, E3; auto | rewrite (rep_pc _ _ HA'); exact E4].
    + intros l' Hl'. apply tramp_labels in Hl' as [v ->]. apply Hj.
  - change (runs (((emit_pc u ++ [Jmp j]) ++ concat (map (fun pc => Bind (b pc) :: emit_pc pc ++ [Jmp j]) l)) ++ c) (Some (b t)) x post).
    rewrite <- !app_assoc. apply runs_app. unfold runs at 1. rewrite pass_over by (intros l' Hl'; contradiction (emit_pc_no_label _ _ Hl')).
    apply IH. destruct Hin as [-> | Hin]; [contradiction | exact Hin].
Qed.
End Frame.

(** ** The function of a trace *)
Section Function.
Context (lookup_trace_slow : Z -> Z) (lookup_trace_fast : Z) (fpu : host_fpu) (syscall : M proxy unit).
#[local] Instance func_cpu : Cpu proxy := proxy_cpu fpu m64 syscall.
Context `{!CpuSafe proxy}.

(** A trace of a run from [pc], its code, and the addresses that the code
    stores, which the host's instructions can encode; it has an instruction and
    does not end with a return that is inlined, after which [pc] is not
    stored. *)
Context (G : list ginst) (pc : Z) (c : list xinst) (st : emitter).
Context (Hemit : emit_trace lookup_trace_slow lookup_trace_fast (map (fun g => (g_jit g, g_regs g)) G) new_emitter = (c, st)).
Context (Hchain : chain lookup_trace_slow lookup_trace_fast G new_emitter pc).
Context (Hret : ends_in_ret lookup_trace_slow lookup_trace_fast G new_emitter true = false).
Context (Hjmp : forallb pc_encodes (jmp_tramp_labels st) = true) (Hexit : forallb pc_encodes (exit_tramp_labels st) = true).
Context (Hterm : pc_encodes (term_pc st) = true).

(** What precedes the trace's code, the stack, the state at the call. *)
Context (pre : list xinst) (Hpre : forall l, ~ In (Bind l) pre) (S0 : list Z) (x0 : xstate).
Abbreviation stk := (saved x0 ++ S0).
Definition tail : list xinst := emit_term st ++ emit_epilog st lookup_trace_fast.
Definition func : list xinst := pre ++ c ++ tail.

(** The function is left for its caller, for another trace, or, for a jump
    within the function, for its code. *)
Definition leaves (q : proxy) (l : label) (x : xstate) : Prop :=
  match l with
  | Caller => returned S0 x0 q x
  | Addr e => holds stk q x /\ (e = lookup_trace_slow (pc_of q) /\ e <> 0 \/ e = lookup_trace_fast /\ xpc x = pc_of q)
  | At t => holds stk q x /\ t = pc_of q /\ mem_pc t (labels st) = true
  | Term => holds stk q x /\ (pc_of q <> 0 -> xpc x = pc_of q)
  | _ => False
  end.

Abbreviation leaving q := (fun k x => exists l, k = Some l /\ leaves q l x).

Definition epilog_regs : list xinst :=
  map (fun '(r, h) => Mov (rbp_reg_q r) (gpq h)) volatile_regs ++ [Pop 5; Pop 3; Pop 15; Pop 14; Pop 13; Pop 12; Jmp Caller].

Lemma epilog_split : emit_epilog st lookup_trace_fast = epilog_regs ++ emit_tramps st lookup_trace_fast.
Proof using. reflexivity. Qed.

Lemma epilog_regs_no_label l : ~ In (Bind l) epilog_regs.
Proof using. cbn. intuition discriminate. Qed.

Lemma term_labels l : In (Bind l) (emit_term st) -> l = Term.
Proof using.
  intros H. apply in_app_iff in H as [H | [[= <-] | []]]; [| reflexivity].
  destruct (term_pc st =? 0); [contradiction | contradiction (emit_pc_no_label _ _ H)].
Qed.

(** A label is passed over by code that does not bind it. *)
Lemma skip_runs c1 c2 l x post : (forall l', In (Bind l') c1 -> label_eqb l l' = false) ->
  runs c2 (Some l) x post -> runs (c1 ++ c2) (Some l) x post.
Proof using. intros Hl H. apply runs_app. unfold runs at 1. rewrite pass_over by exact Hl. exact H. Qed.

Lemma skip_all c1 l x (post : option label -> xstate -> Prop) : (forall l', In (Bind l') c1 -> label_eqb l l' = false) ->
  post (Some l) x -> runs c1 (Some l) x post.
Proof using. intros Hl H. unfold runs. rewrite pass_over by exact Hl. exact H. Qed.

Lemma skip_term l x post : label_eqb l Term = false -> runs (emit_epilog st lookup_trace_fast) (Some l) x post -> runs tail (Some l) x post.
Proof using. intros Hl. apply skip_runs. intros l' Hl'. rewrite (term_labels l' Hl'). exact Hl. Qed.

Lemma skip_regs l x post : runs (emit_tramps st lookup_trace_fast) (Some l) x post -> runs (emit_epilog st lookup_trace_fast) (Some l) x post.
Proof using. rewrite epilog_split. apply skip_runs. intros l' Hl'. contradiction (epilog_regs_no_label l' Hl'). Qed.

Lemma skip_tail l x (post : option label -> xstate -> Prop) :
  (forall t, label_eqb l (Jump_tramp t) = false /\ label_eqb l (Exit_tramp t) = false) -> label_eqb l Term = false ->
  post (Some l) x -> runs tail (Some l) x post.
Proof using.
  intros Hl Ht H. apply skip_term; [exact Ht |]. apply skip_regs, skip_all; [| exact H].
  intros l' Hl'. apply emit_tramps_labels in Hl' as [[t ->] | [t ->]]; apply Hl.
Qed.

Lemma encodes_in l t : forallb pc_encodes l = true -> In t l -> pc_encodes t = true.
Proof using. rewrite forallb_forall. auto. Qed.

(** From the end of the trace's code. *)
Lemma tail_runs q k x : ends_at lookup_trace_slow lookup_trace_fast stk st false q k x -> runs tail k x (leaving q).
Proof using Hjmp Hexit Hterm.
  intros [Hx Hk]. destruct k as [l |].
  - destruct l as [n | t | t | t | | e |]; cbn in Hk; try contradiction.
    + apply skip_tail; [split; reflexivity | reflexivity |]. exists (At t). split; [reflexivity |]. cbn. auto.
    + destruct Hk as [Et Hin]. apply skip_term; [reflexivity |]. apply skip_regs.
      apply (tramp_runs Jump_tramp (Addr lookup_trace_fast) _ t _ q stk x);
        [congruence | reflexivity | exact Hin | apply (encodes_in _ _ Hjmp Hin) | exact Hx | | reflexivity].
      intros x' Hx' Hpc. apply skip_all.
      * intros l' Hl'. apply tramp_labels in Hl' as [u ->]. reflexivity.
      * exists (Addr lookup_trace_fast). split; [reflexivity |]. split; [exact Hx' |]. right. split; [reflexivity | congruence].
    + destruct Hk as [Et Hin]. apply skip_term; [reflexivity |]. apply skip_regs. unfold emit_tramps. apply skip_runs.
      { intros l' Hl'. apply tramp_labels in Hl' as [u ->]. reflexivity. }
      rewrite <- (app_nil_r (concat _)).
      apply (tramp_runs Exit_tramp Term _ t _ q stk x);
        [congruence | reflexivity | exact Hin | apply (encodes_in _ _ Hexit Hin) | exact Hx | | reflexivity].
      intros x' Hx' Hpc. exists Term. split; [reflexivity |]. split; [exact Hx' |]. congruence.
    + apply skip_tail; [split; reflexivity | reflexivity |]. exists (Addr e). split; [reflexivity |]. split; assumption.
  - specialize (Hk eq_refl). unfold tail, emit_term. rewrite <- app_assoc.
    assert (Hend : forall x', holds stk q x' -> (pc_of q <> 0 -> xpc x' = pc_of q) ->
      runs ([Bind Term] ++ emit_epilog st lookup_trace_fast) None x' (leaving q)).
    { intros x' Hx' Hpc. apply wp_bind. eapply runs_post; [apply (leave_runs S0 lookup_trace_fast x0 q st x' Hx' Hpc) |].
      intros k' x1 [-> Hr]. exists Caller. auto. }
    revert Hend. generalize (emit_epilog st lookup_trace_fast). intros E Hend.
    destruct (Z.eqb_spec (term_pc st) 0) as [E0 | E0].
    + apply Hend; [exact Hx | congruence].
    + destruct Hx as (A & HA & HR & Hm & Hs). eapply emit_pc_runs; [exact Hterm | exact HA |].
      intros A' x' HA' E1 E2 E3 E4. apply Hend; [exists A'; rewrite E1, E2, E3; auto |].
      rewrite (rep_pc _ _ HA'), E4. auto.
Qed.

Abbreviation steps := (rtc (trace_step fpu syscall G)).
Abbreviation blocked := (blocked G).

Lemma code_labels l : In (Bind l) c -> (exists n, l = Lab n) \/ exists t, l = At t.
Proof using Hemit.
  intros H. destruct (emit_trace_grows _ _ G new_emitter c st Hemit) as [_ B]. destruct (B l H) as [Hn | (t & -> & _)]; [left; exact Hn | right; eauto].
Qed.

Lemma through c1 k x (Q : proxy -> option label -> xstate -> Prop) q :
  runs c1 k x (Q q) -> (forall k' x', Q q k' x' -> runs tail k' x' (leaving q)) -> runs (c1 ++ tail) k x (leaving q).
Proof using. intros H HQ. apply runs_app. eapply runs_post; [exact H | exact HQ]. Qed.

Lemma entered l x q : (exists q', steps q q' /\ hart_ok 64 (px_proc q') /\
    (blocked q' \/ runs c (Some l) x (ends_at lookup_trace_slow lookup_trace_fast stk st false q'))) ->
  exists q', steps q q' /\ hart_ok 64 (px_proc q') /\ (blocked q' \/ runs func (Some l) x (leaving q')).
Proof using Hjmp Hexit Hterm Hpre.
  intros (q' & H1 & H2 & H3). exists q'. split; [exact H1 |]. split; [exact H2 |].
  destruct H3 as [Hb | Hr]; [left; exact Hb | right]. unfold func. apply skip_runs; [intros l' Hl'; contradiction (Hpre l' Hl') |].
  apply runs_app. eapply runs_post; [exact Hr |]. intros k' x'. apply tail_runs.
Qed.

Lemma term_runs E x post : runs E None x post -> runs (emit_term st ++ E) (Some Term) x post.
Proof using.
  intros H. unfold emit_term. rewrite <- app_assoc. apply skip_runs; [| exact H].
  intros l' Hl'. destruct (term_pc st =? 0); [contradiction | contradiction (emit_pc_no_label _ _ Hl')].
Qed.

(** A pass from a jump within the function. *)
Lemma inner_pass q l x : leaves q l x -> inner l = true -> hart_ok 64 (px_proc q) ->
  exists q', steps q q' /\ hart_ok 64 (px_proc q') /\ (blocked q' \/ runs func (Some l) x (leaving q')).
Proof using CpuSafe0 Hemit Hchain Hret Hjmp Hexit Hterm Hpre.
  intros Hl Hi Hh. destruct l as [| t | | | | |]; try discriminate Hi.
  - destruct Hl as (Hx & -> & Hm). apply entered.
    rewrite <- Hret. apply (pass_from_label lookup_trace_slow lookup_trace_fast fpu syscall G stk G new_emitter true c st pc q x);
      try assumption; [apply incl_refl | discriminate | reflexivity].
  - destruct Hl as [Hx Hpc]. exists q. split; [apply rtc_refl |]. split; [exact Hh | right]. unfold func.
    apply skip_runs; [intros l' Hl'; contradiction (Hpre l' Hl') |].
    apply skip_runs; [intros l' Hl'; apply code_labels in Hl' as [[n ->] | [t ->]]; reflexivity |].
    apply term_runs. eapply runs_post; [apply (leave_runs S0 lookup_trace_fast x0 q st x Hx Hpc) |].
    intros k' x1 [-> Hr]. exists Caller. auto.
Qed.

(** Any number of passes. *)
Lemma passes n : forall q l x, leaves q l x -> hart_ok 64 (px_proc q) -> inner l = true ->
  exists q', steps q q' /\ hart_ok 64 (px_proc q') /\
    (blocked q' \/ exists x' l', host_loop n func (Some l) x = Some (x', Some l') /\ leaves q' l' x').
Proof using CpuSafe0 Hemit Hchain Hret Hjmp Hexit Hterm Hpre.
  induction n as [| n IH]; intros q l x Hl Hh Hi.
  { exists q. split; [apply rtc_refl |]. split; [exact Hh | right]. exists x, l. auto. }
  destruct (inner_pass q l x Hl Hi Hh) as (q1 & H1 & H2 & [Hb | Hr]); [exists q1; auto |].
  unfold runs in Hr. cbn [host_loop]. change (host_run func (Some l) x) with (host_go func (Some l) x). destruct (host_go func (Some l) x) as [[x1 k1] |]; [| contradiction].
  destruct Hr as (l1 & -> & Hl1). destruct (inner l1) eqn:Ei.
  - destruct (IH q1 l1 x1 Hl1 H2 Ei) as (q2 & H3 & H4 & H5). exists q2. split; [etransitivity; eassumption | auto].
  - exists q1. split; [exact H1 |]. split; [exact H2 | right]. eauto.
Qed.

Lemma func_passes n x1 p x : hart_ok 64 (px_proc p) -> pc_of p = pc -> holds stk p x1 ->
  runs pre None x (fun k x' => k = None /\ x' = x1) ->
  exists q, steps p q /\ hart_ok 64 (px_proc q) /\
    (blocked q \/ exists x' l, host_loop (S n) func None x = Some (x', Some l) /\ leaves q l x').
Proof using CpuSafe0 Hemit Hchain Hret Hjmp Hexit Hterm Hpre.
  intros Hh Hpc Hx1 Hp. 
  assert (E : exists q, steps p q /\ hart_ok 64 (px_proc q) /\ (blocked q \/ runs func None x (leaving q))).
  { rewrite <- Hpc in Hchain.
    destruct (pass_from lookup_trace_slow lookup_trace_fast fpu syscall G stk G new_emitter true c st p x1 (incl_refl _) Hemit Hchain Hh Hx1
      ltac:(discriminate)) as (q & H1 & H2 & H3). exists q. split; [exact H1 |]. split; [exact H2 |].
    destruct H3 as [Hb | Hr]; [left; exact Hb | right]. unfold func. apply runs_app. eapply runs_post; [exact Hp |].
    intros k' x' [-> ->]. apply runs_app. eapply runs_post; [exact Hr |]. rewrite Hret. intros k' x'. apply tail_runs. }
  destruct E as (q & H1 & H2 & [Hb | Hr]); [exists q; auto |].
  unfold runs in Hr. cbn [host_loop]. change (host_run func None x) with (host_go func None x). destruct (host_go func None x) as [[x' k'] |]; [| contradiction].
  destruct Hr as (l & -> & Hl). destruct (inner l) eqn:Ei; [| exists q; split; [exact H1 |]; split; [exact H2 | right]; eauto].
  destruct (passes n q l x' Hl H2 Ei) as (q2 & H3 & H4 & H5). exists q2. split; [etransitivity; eassumption | auto].
Qed.
End Function.
