(* ===== verification/JitTheorems.v ===== *)
(** * JitTheorems: what compiled traces do. *)

From Stdlib Require Import ZArith Lia Bool List.
From stdpp Require Import base numbers list relations.
From S2P Require Import Prelude Meta Decode Codec Alu Machine Fpu Interp InterpSound ExecSpec ExecControl Proxy Runloop Model ProxyCpu Host Jit JitSound JitAuto JitEmit JitExec JitSim JitFlow JitPair JitTrace JitFunc ExecTheorems RunTheorems.

#[local] Existing Instance proxy_processor.
#[local] Existing Instance func_cpu.

Section Traces.
Context (lookup_trace_slow : Z -> Z) (lookup_trace_fast : Z).

(** A trace that [jit_trace] recorded from [pc], one that its code runs
    faithfully: the addresses that the code stores are encoded by the host, and
    the trace does not end where [pc] is not known. *)
Record trace_ok (G : list ginst) (pc : Z) : Prop := {
  tr_chain : chain lookup_trace_slow lookup_trace_fast G new_emitter pc;
  tr_end : ends_in_ret lookup_trace_slow lookup_trace_fast G new_emitter true = false;
  tr_encodes :
    let st := (emit_trace lookup_trace_slow lookup_trace_fast (map (fun g => (g_jit g, g_regs g)) G) new_emitter).2 in
    forallb pc_encodes (jmp_tramp_labels st ++ exit_tramp_labels st ++ [term_pc st]) = true }.

(** The compiled function, and its part after the entry for other traces. *)
Definition compiled_trace (G : list ginst) : list xinst :=
  trace_code lookup_trace_slow lookup_trace_fast (map (fun g => (g_jit g, g_regs g)) G).

Definition trace_emitter (G : list ginst) : emitter :=
  (emit_trace lookup_trace_slow lookup_trace_fast (map (fun g => (g_jit g, g_regs g)) G) new_emitter).2.

Definition trace_body (G : list ginst) : list xinst :=
  let (c, st) := emit_trace lookup_trace_slow lookup_trace_fast (map (fun g => (g_jit g, g_regs g)) G) new_emitter in
  c ++ emit_term st ++ emit_epilog st lookup_trace_fast.

Lemma compiled_trace_split G : compiled_trace G = emit_prolog ++ trace_body G.
Proof using. unfold compiled_trace, trace_code, trace_body. destruct (emit_trace _ _ _ _). reflexivity. Qed.

Lemma trace_passes fpu syscall `{!@CpuSafe proxy _ (func_cpu fpu syscall)} G pc pre S0 x0 n x1 p x :
  trace_ok G pc -> (forall l, ~ In (Bind l) pre) -> hart_ok 64 (px_proc p) -> pc_of p = pc -> holds (saved x0 ++ S0) p x1 ->
  runs pre None x (fun k x' => k = None /\ x' = x1) ->
  exists q, rtc (trace_step fpu syscall G) p q /\ hart_ok 64 (px_proc q) /\
    (blocked G q \/ exists x' l, host_loop (S n) (pre ++ trace_body G) None x = Some (x', Some l) /\
       leaves lookup_trace_slow lookup_trace_fast (trace_emitter G) S0 x0 q l x').
Proof using.
  intros [Hc He Hen] Hpre Hh Hpc Hx Hr. unfold trace_body, trace_emitter. destruct (emit_trace _ _ _ _) as [c st] eqn:Et. cbn [snd] in *.
  rewrite !forallb_app, !andb_true_iff in Hen. destruct Hen as (Hj & Hx' & Ht). cbn in Ht. rewrite andb_true_r in Ht.
  apply (func_passes lookup_trace_slow lookup_trace_fast fpu syscall G pc c st Et Hc He Hj Hx' Ht pre Hpre S0 x0 n x1 p x Hh Hpc Hx Hr).
Qed.
End Traces.

Lemma compiled_trace_runs {H} `{HostLaws H} slow fast fpu syscall `{!@CpuSafe proxy _ (func_cpu fpu syscall)} G pc S0 n p (h : H) :
  trace_ok slow fast G pc -> hart_ok 64 (px_proc p) -> pc_of p = pc -> called S0 p (host_view h) ->
  exists q, rtc (trace_step fpu syscall G) p q /\ hart_ok 64 (px_proc q) /\
    (blocked G q \/ exists h' l, host_loop (S n) (compiled_trace slow fast G) None h = Some (h', Some l) /\
       leaves slow fast (trace_emitter slow fast G) S0 (host_view h) q l (host_view h')).
Proof.
  intros Ht Hh Hpc Hc. pose proof (prolog_runs S0 p (host_view h) ltac:(apply Hh) Hc) as Hp.
  unfold runs in Hp. destruct (host_go emit_prolog None (host_view h)) as [[x1 k1] |] eqn:Eg; [| contradiction]. destruct Hp as [-> Hx1].
  assert (Hpre : forall l, ~ In (Bind l) emit_prolog) by (intros l; cbn; intuition discriminate).
  destruct (trace_passes slow fast fpu syscall G pc emit_prolog S0 (host_view h) n x1 p (host_view h) Ht Hpre Hh Hpc Hx1) as (q & Q1 & Q2 & Q3).
  { unfold runs. rewrite Eg. auto. }
  exists q. split; [exact Q1 |]. split; [exact Q2 |]. destruct Q3 as [Hb | (x' & l & El & Hl)]; [left; exact Hb | right].
  rewrite <- compiled_trace_split in El. destruct (host_loop_view _ _ _ _ _ _ El) as (h' & Eh & <-). exists h', l. auto.
Qed.

(** ** Claims *)

(** C33 A host in a state that holds the guest's registers and memory runs the
    code emitted for an integer, load or store instruction to its end, and is
    then in a state that holds what the interpreter leaves: [rd] in its host
    register or its place in the register file, memory, nothing else changed.
    [code_ok] leaves out the operands for which the emitter is wrong. *)
Theorem emitted_code_refines {H} `{HostLaws H} fpu d inst pc off stk (p : proxy) (h : H) code :
  proc_ok 64 (px_proc p) -> regs_in d -> pc_of p = pc -> holds stk p (host_view h) ->
  emit_code (d_op d) = Some code -> code_ok (d_op d) (jit_of pc inst d) (ireg (px_proc p)) = true ->
  exists q h', inst_exec fpu m64 d off p = Ok off q /\
    host_run (code (jit_of pc inst d)) None h = Some (h', None) /\ holds stk q (host_view h').
Proof.
  intros Hp Hd Hpc Hx Hc Hok. destruct (code_sim fpu d inst pc off stk p _ Hp Hd Hpc Hx code Hc Hok) as (q & E & Hr).
  unfold runs in Hr. destruct (host_go _ None (host_view h)) as [[x' k] |] eqn:Eg; [| contradiction]. destruct Hr as [-> Hq].
  destruct (host_run_view _ _ h _ _ Eg) as (h' & Eh & <-). exists q, h'. auto.
Qed.

(** C34 The function compiled for a trace, called with the guest's registers in
    the register file, runs on any host without an instruction the host cannot
    execute, and takes the guest through instructions of the trace as the
    interpreter executes them.  It returns with the registers, [pc] and memory
    of the guest's state and the caller's registers and stack restored, or
    jumps to the compiled trace of the guest's [pc], or to the lookup with
    [pc] stored; after any number of turns through a loop of the trace it is
    at the code of the guest's [pc].  This is of traces that pass the checks of
    [trace_ok] (instructions that follow one another with an emitter for each,
    jumps and groups that are compiled rightly, addresses that the host encodes
    as immediates, no return inlined at the end); and of guests that do not come
    to an instruction of the trace for whose operands the emitted code is wrong:
    of one that does ([blocked]) only the run up to there is described. *)
Theorem compiled_trace_refines {H} `{HostLaws H} slow fast fpu syscall `{!@CpuSafe proxy _ (func_cpu fpu syscall)} G pc S0 n p (h : H) :
  trace_ok slow fast G pc -> hart_ok 64 (px_proc p) -> pc_of p = pc -> called S0 p (host_view h) ->
  exists q, rtc (trace_step fpu syscall G) p q /\ hart_ok 64 (px_proc q) /\
    (blocked G q \/ exists h' l, host_loop (S n) (compiled_trace slow fast G) None h = Some (h', Some l) /\
       leaves slow fast (trace_emitter slow fast G) S0 (host_view h) q l (host_view h')).
Proof. intros; eapply compiled_trace_runs; eassumption. Qed.

(** A jump from another trace to the code after the entry, with the guest's
    registers where the traces keep them, runs the trace in the same way. *)
Theorem trace_entry_refines {H} `{HostLaws H} slow fast fpu syscall `{!@CpuSafe proxy _ (func_cpu fpu syscall)} G pc S0 x0 n p (h : H) :
  trace_ok slow fast G pc -> hart_ok 64 (px_proc p) -> pc_of p = pc -> holds (saved x0 ++ S0) p (host_view h) ->
  exists q, rtc (trace_step fpu syscall G) p q /\ hart_ok 64 (px_proc q) /\
    (blocked G q \/ exists h' l, host_loop (S n) (trace_body slow fast G) None h = Some (h', Some l) /\
       leaves slow fast (trace_emitter slow fast G) S0 x0 q l (host_view h')).
Proof.
  intros Ht Hh Hpc Hx.
  destruct (trace_passes slow fast fpu syscall G pc [] S0 x0 n (host_view h) p (host_view h) Ht (fun l H => H) Hh Hpc Hx (conj eq_refl eq_refl))
    as (q & Q1 & Q2 & Q3).
  exists q. split; [exact Q1 |]. split; [exact Q2 |]. destruct Q3 as [Hb | (x' & l & El & Hl)]; [left; exact Hb | right].
  destruct (host_loop_view _ _ _ _ _ _ El) as (h' & Eh & <-). exists h', l. auto.
Qed.

(** ** The witnesses

    [c.addi x10, -1] at 0x2000 and [c.bnez x10, -2] at 0x2002, a loop that is
    traced when [x10] is 3. *)
Definition loop_regs (n : Z) : list Z := <[10%nat := n]> (repeat 0 32).

Definition loop_trace : list ginst :=
  [mkG 0x2000 0x157d (inst_decode m64 decode_init 0x157d) (loop_regs 3) None;
   mkG 0x2002 0xfd7d (inst_decode m64 decode_init 0xfd7d) (loop_regs 2) None].
Definition no_trace (pc : Z) : Z := 0.
Definition lookup : Z := 0x7000.

Lemma loop_trace_ok : trace_ok no_trace lookup loop_trace 0x2000.
Proof.
  assert (R : forall g, In g loop_trace -> Forall decoded (g_items g)).
  { intros g [<- | [<- | []]]; repeat constructor; vm_compute; intuition discriminate. }
  split; [| reflexivity | reflexivity]. cbn [loop_trace chain].
  split; [reflexivity |]. split; [apply R; left; reflexivity |].
  intros _ _. split; [reflexivity |]. intros t Ht. vm_compute in Ht. injection Ht as <-.
  split; [reflexivity |]. split; [apply R; right; left; reflexivity |].
  intros _ _. split; [reflexivity |]. intros t' _. exact Logic.I.
Qed.

(** The guest at 0x2000 with [x10 = n], and a host that calls the function. *)
Definition loop_px (n : Z) : proxy := mkProxy (set_pc (set_ireg proc_init (loop_regs n)) 0x2000) (fun _ => 0) (fun _ => 0).
Definition loop_host (n : Z) : xstate := mkX (fun _ => 0) (V (loop_regs n)) 0 (fun _ => 0) [] None.

Lemma loop_hart n : 0 <= n < 2 ^ 64 -> hart_ok 64 (px_proc (loop_px n)).
Proof.
  intros Hn. split; [split | split]; try reflexivity; cbn; try lia; repeat (apply Forall_cons; split; [lia |]); apply Forall_nil; exact Logic.I.
Qed.

Lemma loop_called n : called [] (loop_px n) (loop_host n).
Proof. split; try reflexivity; cbn; lia. Qed.

Lemma loop_safe : @CpuSafe proxy _ (func_cpu null_fpu (ret tt)).
Proof. apply (demo_safe m64). right. reflexivity. Qed.

(** The loop is left after three turns, with [x10 = 0] and 0x2004 stored. *)
Lemma compiled_trace_refines_witness :
  (exists q, rtc (trace_step null_fpu (ret tt) loop_trace) (loop_px 3) q /\ hart_ok 64 (px_proc q) /\
    (blocked loop_trace q \/ exists h' l, host_loop 4 (compiled_trace no_trace lookup loop_trace) None (loop_host 3) = Some (h', Some l) /\
       leaves no_trace lookup (trace_emitter no_trace lookup loop_trace) [] (host_view (loop_host 3)) q l (host_view h'))) /\
  match host_loop 4 (compiled_trace no_trace lookup loop_trace) None (loop_host 3) with
  | Some (x, Some l) => l = Addr lookup /\ xpc x = 0x2004 /\ xreg x (x86_reg 10) = 0
  | _ => False
  end.
Proof.
  split; [| vm_compute; auto].
  apply (@compiled_trace_refines xstate _ _ no_trace lookup null_fpu (ret tt) loop_safe loop_trace 0x2000 [] 3 (loop_px 3) (loop_host 3) loop_trace_ok);
    [apply loop_hart; lia | reflexivity | apply loop_called].
Defined.

(** A host inside the trace's frame. *)
Lemma loop_holds n : 0 <= n < 2 ^ 64 -> holds (saved (loop_host n) ++ []) (loop_px n)
  (mkX (fun h => if h =? x86_reg 10 then n else 0) (V (loop_regs n)) 0 (fun _ => 0) (saved (loop_host n)) None).
Proof.
  intros Hn. exists (mkA (loop_regs n) (fun _ => 0) 0 0 0 0 (saved (loop_host n)) None). split; [| auto].
  assert (G : guest_ok (loop_regs n)) by exact (called_guest (loop_px n) (proj1 (loop_hart n Hn))).
  split; try reflexivity; try exact G; try (cbn; lia).
  intros r Hr. cbn [xreg xslot aR]. pose proof (guest_regs_in r Hr) as Hin. vm_compute in Hin.
  repeat (destruct Hin as [<- | Hin]; [reflexivity |]). contradiction.
Qed.

Lemma trace_entry_refines_witness :
  exists q, rtc (trace_step null_fpu (ret tt) loop_trace) (loop_px 3) q /\ hart_ok 64 (px_proc q) /\
    (blocked loop_trace q \/ exists h' l,
       host_loop 4 (trace_body no_trace lookup loop_trace) None
         (mkX (fun h => if h =? x86_reg 10 then 3 else 0) (V (loop_regs 3)) 0 (fun _ => 0) (saved (loop_host 3)) None) = Some (h', Some l) /\
       leaves no_trace lookup (trace_emitter no_trace lookup loop_trace) [] (loop_host 3) q l (host_view h')).
Proof.
  apply (@trace_entry_refines xstate _ _ no_trace lookup null_fpu (ret tt) loop_safe loop_trace 0x2000 [] (loop_host 3) 3 (loop_px 3));
    [apply loop_trace_ok | apply loop_hart; lia | reflexivity | apply loop_holds; lia].
Defined.

Lemma emitted_code_refines_witness :
  exists q h', inst_exec null_fpu m64 (inst_decode m64 decode_init 0x157d) 2 (loop_px 3) = Ok 2 q /\
    host_run (emit_addi (jit_of 0x2000 0x157d (inst_decode m64 decode_init 0x157d))) None
      (mkX (fun h => if h =? x86_reg 10 then 3 else 0) (V (loop_regs 3)) 0 (fun _ => 0) (saved (loop_host 3)) None) = Some (h', None) /\
    holds (saved (loop_host 3) ++ []) q (host_view h').
Proof.
  apply (@emitted_code_refines xstate _ _ null_fpu (inst_decode m64 decode_init 0x157d) 0x157d 0x2000 2 (saved (loop_host 3) ++ []) (loop_px 3));
    [apply (loop_hart 3); lia | vm_compute; intuition discriminate | reflexivity | apply loop_holds; lia | reflexivity | reflexivity].
Defined.
