(* ===== verification/JitFusion.v ===== *)
(** * JitFusion: the emitter that fuses instructions ([jit/jit-fusion.h]).

    [fusion_emit] is [jit_fusion::emit] with its states, in front of the
    emitter of JitEmit.v.  [groups] says, without the emitter, which
    instructions are emitted alone and which as one; the fusing emitter's code
    is the code of these groups. *)

From Stdlib Require Import ZArith Lia Bool List.
From stdpp Require Import base numbers list relations.
From S2P Require Import Prelude Meta Decode Codec Alu Machine Fpu Interp InterpSound ExecSpec ExecControl Proxy Runloop Model ProxyCpu Host Jit JitSound JitAuto JitEmit JitExec JitSim JitFlow JitPair JitTrace JitFunc ExecTheorems RunTheorems JitTheorems.

#[local] Arguments x86_reg : simpl never.
#[local] Arguments wrap : simpl never.
#[local] Arguments swrap : simpl never.
#[local] Existing Instance proxy_processor.
#[local] Existing Instance func_cpu.

(** ** The state

    The fields keep what was seen of a group: [queue] its instructions, to be
    emitted alone when the group is not completed. *)
Inductive match_state := match_state_none | match_state_auipc | match_state_zextw | match_state_addiw | match_state_addiwz.

Record fusion := mkFusion {
  fu_imm : Z; fu_rd : Z; fu_rs1 : Z; fu_sz : Z; pseudo_pc : Z; fu_state : match_state; queue : list jit_decode; fu_base : emitter }.

Definition new_fusion : fusion := mkFusion 0 0 0 0 0 match_state_none [] new_emitter.

Definition set_fu_base (z : fusion) (st : emitter) : fusion :=
  mkFusion (fu_imm z) (fu_rd z) (fu_rs1 z) (fu_sz z) (pseudo_pc z) (fu_state z) (queue z) st.

Definition clear_queue (z : fusion) : fusion :=
  mkFusion (fu_imm z) (fu_rd z) (fu_rs1 z) (fu_sz z) (pseudo_pc z) match_state_none [] (fu_base z).

(** The first instruction of a group. *)
Definition match_auipc (dec : jit_decode) (z : fusion) : fusion :=
  mkFusion (u64 (j_imm dec)) (j_rd dec) (fu_rs1 z) (fu_sz z) (j_pc dec) match_state_auipc (queue z ++ [dec]) (fu_base z).
Definition match_addiw (dec : jit_decode) (z : fusion) : fusion :=
  mkFusion (u64 (j_imm dec)) (j_rd dec) (fu_rs1 z) (inst_length (j_inst dec)) (j_pc dec) match_state_addiw (queue z ++ [dec]) (fu_base z).
Definition match_zextw (dec : jit_decode) (z : fusion) : fusion :=
  mkFusion (fu_imm z) (j_rd dec) (j_rs1 dec) (inst_length (j_inst dec)) (j_pc dec) match_state_zextw (queue z ++ [dec]) (fu_base z).

Definition match_addiwz (dec : jit_decode) (z : fusion) : fusion :=
  mkFusion (fu_imm z) (fu_rd z) (fu_rs1 z) (fu_sz z + inst_length (j_inst dec)) (pseudo_pc z) match_state_addiwz (queue z ++ [dec]) (fu_base z).

(** [imm += dec.imm]. *)
Definition add_imm (dec : jit_decode) (z : fusion) : fusion :=
  mkFusion (u64 (fu_imm z + j_imm dec)) (fu_rd z) (fu_rs1 z) (fu_sz z) (pseudo_pc z) (fu_state z) (queue z) (fu_base z).

Section Fusion.
Context (lookup_trace_slow : Z -> Z) (lookup_trace_fast : Z).
Abbreviation base_emit := (emit lookup_trace_slow lookup_trace_fast).

(** What an emission appends, the state, whether the trace goes on. *)
Abbreviation fused_emission := (list xinst * fusion * bool)%type.

Section Emit.
Context (R : list Z).

(** [emit_queue]: the results of [E::emit] are ignored. *)
Fixpoint emit_all (l : list jit_decode) (st : emitter) : list xinst * emitter :=
  match l with
  | [] => ([], st)
  | dec :: l => let '(c, st, _) := base_emit dec R st in let (c', st) := emit_all l st in (c ++ c', st)
  end.

Definition emit_queue (z : fusion) : list xinst * fusion :=
  let (c, st) := emit_all (queue z) (fu_base z) in (c, clear_queue (set_fu_base z st)).

(** [return E::emit(dec)]. *)
Definition emit_base (dec : jit_decode) (z : fusion) : fused_emission :=
  let '(c, st, go) := base_emit dec R (fu_base z) in (c, set_fu_base z st, go).

(** The queue, then the instruction. *)
Definition emit_both (dec : jit_decode) (z : fusion) : fused_emission :=
  let (c, z) := emit_queue z in let '(c', z, go) := emit_base dec z in (c ++ c', z, go).

(** A pseudo-instruction in place of the queue; its result is ignored. *)
Definition emit_pseudo (dec : jit_decode) (z : fusion) : fused_emission :=
  let '(c, st, _) := base_emit dec R (fu_base z) in (c, clear_queue (set_fu_base z st), true).

(** [rd == dec.rd && rd == dec.rs1 && dec.imm == 32]. *)
Definition same_rd (dec : jit_decode) (z : fusion) : bool := (fu_rd z =? j_rd dec) && (fu_rd z =? j_rs1 dec).

Definition in_none (dec : jit_decode) (z : fusion) : fused_emission :=
  match j_op dec with
  | Rv rv_op_auipc => ([], match_auipc dec z, true)
  | Rv rv_op_addiw =>
      if j_rd dec =? j_rs1 dec then ([], match_addiw dec z, true)
      else if j_imm dec =? 32 then ([], match_zextw dec z, true) else emit_base dec z
  | Rv rv_op_slli => if j_imm dec =? 32 then ([], match_zextw dec z, true) else emit_base dec z
  | _ => emit_base dec z
  end.

Definition in_addiw (dec : jit_decode) (z : fusion) : fused_emission :=
  match j_op dec with
  | Rv rv_op_slli =>
      if same_rd dec z && (j_imm dec =? 32) then ([], match_addiwz dec z, true)
      else if j_imm dec =? 32 then let (c, z) := emit_queue z in (c, match_zextw dec z, true)
      else emit_both dec z
  | _ => emit_both dec z
  end.

Definition in_addiwz (dec : jit_decode) (z : fusion) : fused_emission :=
  match j_op dec with
  | Rv rv_op_srli =>
      if same_rd dec z && (j_imm dec =? 32) then
        emit_pseudo (mkJit (pseudo_pc z) (j_inst dec) jit_op_addiwz (fu_rd z) 0 0 (s32 (fu_imm z)) ((fu_sz z + inst_length (j_inst dec)) mod 16)) z
      else emit_both dec z
  | _ => emit_both dec z
  end.

Definition auipc_pseudo (op : jop) (dec : jit_decode) (z : fusion) : jit_decode :=
  mkJit (pseudo_pc z) (j_inst dec) op (j_rs1 dec) 0 0 (s32 (fu_imm z)) 0.

(** [case rv_op_jalr] of the state [match_state_auipc]. *)
Definition in_auipc_jalr (dec : jit_decode) (z : fusion) : fused_emission :=
  if (fu_rd z =? j_rs1 dec) && (j_rd dec =? 1) then let z := add_imm dec z in emit_pseudo (auipc_pseudo jit_op_call dec z) z
  else emit_both dec z.

Definition in_auipc (dec : jit_decode) (z : fusion) : fused_emission :=
  match j_op dec with
  | Rv rv_op_addi =>
      if same_rd dec z then let z := add_imm dec z in emit_pseudo (auipc_pseudo jit_op_la dec z) z else in_auipc_jalr dec z
  | Rv rv_op_jalr => in_auipc_jalr dec z
  | _ => emit_both dec z
  end.

Definition in_zextw (dec : jit_decode) (z : fusion) : fused_emission :=
  match j_op dec with
  | Rv rv_op_srli =>
      if same_rd dec z && (j_imm dec =? 32) then
        emit_pseudo (mkJit (pseudo_pc z) (j_inst dec) jit_op_zextw (fu_rd z) (fu_rs1 z) 0 0 ((fu_sz z + inst_length (j_inst dec)) mod 16)) z
      else emit_both dec z
  | _ => emit_both dec z
  end.

(** [emit]. *)
Definition fusion_emit (dec : jit_decode) (z : fusion) : fused_emission :=
  match fu_state z with
  | match_state_none => in_none dec z | match_state_addiw => in_addiw dec z | match_state_addiwz => in_addiwz dec z
  | match_state_auipc => in_auipc dec z | match_state_zextw => in_zextw dec z
  end.
End Emit.

(** The instructions that [jit_trace] runs, and [end]; [Re] are the registers
    at the end. *)
Fixpoint fusion_trace (ds : list (jit_decode * list Z)) (z : fusion) : list xinst * fusion :=
  match ds with
  | [] => ([], z)
  | (dec, R) :: ds =>
      let '(c, z, go) := fusion_emit R dec z in
      if go : bool then let (c', z) := fusion_trace ds z in (c ++ c', z) else (c, z)
  end.

Definition fusion_end (Re : list Z) (ds : list (jit_decode * list Z)) (z : fusion) : list xinst * emitter :=
  let (c, z) := fusion_trace ds z in let (c', z) := emit_queue Re z in (c ++ c', fu_base z).

Definition fusion_code (Re : list Z) (ds : list (jit_decode * list Z)) : list xinst :=
  let (c, st) := fusion_end Re ds new_fusion in emit_prolog ++ c ++ emit_term st ++ emit_epilog st lookup_trace_fast.

(** ** Groups

    What is waited for, with the instructions in the queue. *)
Inductive waiting := W_none | W_auipc (a : ginst) | W_zextw (a : ginst) | W_addiw (a : ginst) | W_addiwz (a b : ginst).

Definition waits_for (w : waiting) : list ginst :=
  match w with W_none => [] | W_auipc a | W_zextw a | W_addiw a => [a] | W_addiwz a b => [a; b] end.

Definition as_one (f : pseudo) (a : ginst) : ginst := mkG (g_pc a) (g_inst a) (g_dec a) (g_regs a) (Some f).

(** An instruction: what is emitted without regard to the result, what is
    emitted last, what is waited for then. *)
Definition request (w : waiting) (g : ginst) : list ginst * option ginst * waiting :=
  let d := g_dec g in
  let rd_of a := (d_rd (g_dec a) =? d_rd d) && (d_rd (g_dec a) =? d_rs1 d) in
  let wait_32 (l : list ginst) := if d_imm d =? 32 then (l, None, W_zextw g) else (l, Some g, W_none) in
  let shifts a (one : pseudo) (alone : list ginst) :=
    if is_op d rv_op_srli && (rd_of a && (d_imm d =? 32)) then ([as_one one a], None, W_none) else (alone, Some g, W_none) in
  match w with
  | W_none =>
      match d_op d with
      | rv_op_auipc => ([], None, W_auipc g)
      | rv_op_addiw => if d_rd d =? d_rs1 d then ([], None, W_addiw g) else wait_32 []
      | rv_op_slli => wait_32 []
      | _ => ([], Some g, W_none)
      end
  | W_auipc a =>
      let call := (d_rd (g_dec a) =? d_rs1 d) && (d_rd d =? 1) in
      if is_op d rv_op_addi && rd_of a then ([as_one (Fuse_la (g_inst g) d) a], None, W_none)
      else if (is_op d rv_op_addi || is_op d rv_op_jalr) && call then ([as_one (Fuse_call (g_inst g) d) a], None, W_none)
      else ([a], Some g, W_none)
  | W_zextw a => shifts a (Fuse_zextw (g_inst g) d) [a]
  | W_addiw a =>
      if is_op d rv_op_slli then if rd_of a && (d_imm d =? 32) then ([], None, W_addiwz a g) else wait_32 [a]
      else ([a], Some g, W_none)
  | W_addiwz a b => shifts a (Fuse_addiwz (g_inst b) (g_dec b) (g_inst g) d) [a; b]
  end.

(** Everything that is emitted, with whether the result is ignored. *)
Fixpoint requests (w : waiting) (gs : list ginst) : list (bool * ginst) :=
  match gs with
  | [] => map (pair true) (waits_for w)
  | g :: gs =>
      let '(rs, fin, w) := request w g in
      map (pair true) rs ++ (match fin with Some g => [(false, g)] | None => [] end) ++ requests w gs
  end.

(** An emission whose result is ignored does nothing when there is code
    already. *)
Fixpoint keep (ls : list Z) (rs : list (bool * ginst)) : list ginst :=
  match rs with
  | [] => []
  | (ignored, g) :: rs =>
      if mem_pc (g_pc g) ls then if ignored : bool then keep ls rs else g :: keep ls rs
      else g :: keep (g_pc g :: ls) rs
  end.

Definition groups (gs : list ginst) : list ginst := keep [] (requests W_none gs).

(** Every instruction is emitted, alone or in a group, in order. *)
Definition alone (g : ginst) : Prop := g_fused g = None.

Lemma request_items w g : alone g -> Forall alone (waits_for w) ->
  let '(rs, fin, w') := request w g in
  concat (map g_items (rs ++ match fin with Some g => [g] | None => [] end ++ waits_for w')) = concat (map g_items (waits_for w)) ++ g_items g /\
  Forall alone (waits_for w').
Proof using.
  unfold alone. intros Hg Hw. destruct w; cbn [waits_for request] in *; repeat (apply Forall_cons in Hw as [? Hw]).
  all: repeat match goal with
    | |- context [match d_op ?d with _ => _ end] => destruct (d_op d)
    | |- context [if ?b then _ else _] => destruct b
    end; cbn [waits_for map concat app]; (split; [| repeat constructor; assumption]).
  all: unfold g_items; cbn [as_one g_fused g_inst g_dec fused_tail app]; repeat match goal with H : g_fused _ = None |- _ => rewrite H end; reflexivity.
Qed.

Lemma requests_items gs : forall w, Forall alone gs -> Forall alone (waits_for w) ->
  concat (map (fun r => g_items r.2) (requests w gs)) = concat (map g_items (waits_for w)) ++ concat (map g_items gs).
Proof using.
  induction gs as [| g gs IH]; intros w Hgs Hw; cbn [requests].
  - rewrite app_nil_r, map_map. reflexivity.
  - apply Forall_cons in Hgs as [Hg Hgs]. pose proof (request_items w g Hg Hw) as Hr.
    destruct (request w g) as [[rs fin] w']. destruct Hr as [Hr Hw']. rewrite !map_app, !concat_app, map_map, IH by assumption.
    cbn [map concat]. rewrite (app_assoc (concat (map g_items (waits_for w)))), <- Hr, !map_app, !concat_app. destruct fin; cbn [map concat]; rewrite ?app_nil_r, <- ?app_assoc; reflexivity.
Qed.

(** ** The fusing emitter emits the groups *)

(** Instructions that go on to the next, whatever the registers. *)
Definition steady (g : ginst) : Prop := g_fused g <> None \/ emit_code (d_op (g_dec g)) <> None.

Lemma steady_emit g R st : steady g ->
  base_emit (g_jit g) R st = base_emit (g_jit g) (g_regs g) st /\
  let '(c, st', go) := base_emit (g_jit g) (g_regs g) st in
  if mem_pc (g_pc g) (labels st) then c = [] /\ st' = st else go = true /\ labels st' = g_pc g :: labels st.
Proof using.
  intros Hs. unfold emit. rewrite g_jit_pc. destruct (mem_pc (g_pc g) (labels st)); [auto |].
  destruct (g_fused g) as [f |] eqn:Ef.
  - unfold g_jit. rewrite Ef, (fused_regs _ _ _ _ _ _ (g_regs g) R). split; [reflexivity |].
    destruct (emit_inst _ _ _ _ _) as [[c st'] go] eqn:E. apply fused_emits in E as (-> & _ & -> & _). auto.
  - destruct Hs as [Hs | Hs]; [contradiction |]. unfold g_jit. rewrite Ef. unfold emit_inst. cbn [jit_of j_op].
    destruct (emit_code (d_op (g_dec g))); [| contradiction]. auto.
Qed.

Abbreviation base_trace gs := (emit_trace lookup_trace_slow lookup_trace_fast (map (fun g => (g_jit g, g_regs g)) gs)).

(** Code that the results of emissions do not stop. *)
Lemma emit_all_keep R rs rest : forall st, Forall steady rs ->
  base_trace (keep (labels st) (map (pair true) rs ++ rest)) st =
  let (c, st1) := emit_all R (map g_jit rs) st in let (c', st2) := base_trace (keep (labels st1) rest) st1 in (c ++ c', st2).
Proof using.
  induction rs as [| g rs IH]; intros st Hs; cbn [map app keep emit_all].
  - destruct (base_trace _ _). reflexivity.
  - apply Forall_cons in Hs as [Hg Hs]. destruct (steady_emit g R st Hg) as [-> E].
    destruct (base_emit (g_jit g) (g_regs g) st) as [[c st'] go] eqn:Ee. destruct (mem_pc (g_pc g) (labels st)) eqn:M.
    + destruct E as [-> ->]. rewrite IH by exact Hs. destruct (emit_all R (map g_jit rs) st). reflexivity.
    + destruct E as [-> El]. cbn [map emit_trace]. rewrite Ee. rewrite <- El, IH by exact Hs. destruct (emit_all R (map g_jit rs) st') as [c1 st1].
      destruct (base_trace _ st1). rewrite app_assoc. reflexivity.
Qed.

(** The last emission of a step. *)
Lemma emit_keep g rest st : alone g ->
  base_trace (keep (labels st) ((false, g) :: rest)) st =
  let '(c, st', go) := base_emit (g_jit g) (g_regs g) st in
  if go : bool then let (c', st2) := base_trace (keep (labels st') rest) st' in (c ++ c', st2) else (c, st').
Proof using.
  intros Ha. cbn [keep]. destruct (base_emit (g_jit g) (g_regs g) st) as [[c st'] go] eqn:E.
  pose proof (emit_cases _ _ st g c st' go E) as [(M & -> & -> & ->) | [(M & C & -> & -> & ->) | (M & C & c1 & -> & E2)]]; rewrite M;
    cbn [map emit_trace]; rewrite E; try reflexivity.
  apply emit_inst_compiled in E2 as (_ & El & _ & _); [| exact C]. cbn [with_label labels] in El. rewrite El. reflexivity.
Qed.

(** What the fields of the emitter say of the group that is waited for. *)
Definition fields (w : waiting) (z : fusion) : Prop :=
  match w with
  | W_none => fu_state z = match_state_none
  | W_auipc a => fu_state z = match_state_auipc /\ fu_rd z = d_rd (g_dec a) /\ fu_imm z = u64 (d_imm (g_dec a)) /\ pseudo_pc z = g_pc a
  | W_zextw a =>
      fu_state z = match_state_zextw /\ fu_rd z = d_rd (g_dec a) /\ fu_rs1 z = d_rs1 (g_dec a) /\ fu_sz z = inst_length (g_inst a) /\ pseudo_pc z = g_pc a
  | W_addiw a =>
      fu_state z = match_state_addiw /\ fu_rd z = d_rd (g_dec a) /\ fu_imm z = u64 (d_imm (g_dec a)) /\ fu_sz z = inst_length (g_inst a) /\ pseudo_pc z = g_pc a
  | W_addiwz a b =>
      fu_state z = match_state_addiwz /\ fu_rd z = d_rd (g_dec a) /\ fu_imm z = u64 (d_imm (g_dec a)) /\
      fu_sz z = inst_length (g_inst a) + inst_length (g_inst b) /\ pseudo_pc z = g_pc a
  end.

Record waits (w : waiting) (z : fusion) : Prop := {
  wt_queue : queue z = map g_jit (waits_for w);
  wt_alone : Forall alone (waits_for w);
  wt_steady : Forall steady (waits_for w);
  wt_fields : fields w z }.

(** A step of the emitter is the step of the groups. *)
Definition requested (R : list Z) (z : fusion) (q : list ginst * option ginst * waiting) (e : list xinst * fusion * bool) : Prop :=
  let '(rs, fin, w) := q in let '(c, z', go) := e in
  Forall steady rs /\ waits w z' /\
  let (c1, st1) := emit_all R (map g_jit rs) (fu_base z) in
  match fin with
  | None => c = c1 /\ fu_base z' = st1 /\ go = true
  | Some g => alone g /\ let '(c2, st2, go2) := base_emit (g_jit g) R st1 in c = c1 ++ c2 /\ fu_base z' = st2 /\ go = go2
  end.

Lemma requested_both R z w g : waits w z -> alone g -> requested R z (waits_for w, Some g, W_none) (emit_both R (g_jit g) z).
Proof using.
  intros [Wq Wa Ws Wf] Ha. unfold emit_both, emit_queue, emit_base. rewrite Wq.
  destruct (emit_all R (map g_jit (waits_for w)) (fu_base z)) as [c1 st1] eqn:E1. cbn [fu_base clear_queue set_fu_base].
  destruct (base_emit (g_jit g) R st1) as [[c2 st2] go] eqn:E2. cbn [requested]. split; [exact Ws |].
  split; [split; cbn; auto |]. rewrite E1. split; [exact Ha |]. rewrite E2. auto.
Qed.

Lemma requested_pseudo R z f a dec : dec = g_jit (as_one f a) ->
  requested R z ([as_one f a], None, W_none) (emit_pseudo R dec z).
Proof using.
  intros ->. unfold emit_pseudo. destruct (base_emit (g_jit (as_one f a)) R (fu_base z)) as [[c st] go] eqn:E.
  cbn [requested map emit_all]. rewrite E. split; [constructor; [left; discriminate | constructor] |].
  split; [split; cbn; auto |]. rewrite app_nil_r. auto.
Qed.

Lemma requested_base R z g : waits W_none z -> alone g -> requested R z ([], Some g, W_none) (emit_base R (g_jit g) z).
Proof using.
  intros [Wq Wa Ws Wf] Ha. unfold emit_base. destruct (base_emit (g_jit g) R (fu_base z)) as [[c st] go] eqn:E.
  cbn [requested map emit_all]. rewrite E. split; [constructor |]. split; [split; cbn; auto |]. auto.
Qed.

Lemma requested_wait R z (w : waiting) z' : waits w z' -> fu_base z' = fu_base z -> requested R z ([], None, w) ([], z', true).
Proof using. intros W E. cbn [requested map emit_all]. auto. Qed.

Lemma waits_alone w g l z : waits w z -> alone g -> emit_code (d_op (g_dec g)) <> None ->
  l = waits_for w ++ [g] -> Forall alone l /\ Forall steady l /\ queue z ++ [g_jit g] = map g_jit l.
Proof using.
  intros [Wq Wa Ws _] Ha Hs ->. rewrite Wq, map_app. repeat split; try apply Forall_app; repeat split; try assumption.
  - apply Forall_cons. split; [exact Ha | constructor].
  - apply Forall_cons. split; [right; exact Hs | constructor].
Qed.

Lemma g_jit_alone g : alone g -> g_jit g = jit_of (g_pc g) (g_inst g) (g_dec g).
Proof using. unfold alone, g_jit. intros ->. reflexivity. Qed.

(** The steps that keep an instruction. *)
Ltac wait_tac W Ha g :=
  let Q := fresh "Q" in
  match goal with |- waits ?w' _ => assert (Q := waits_alone _ g (waits_for w') _ W Ha) end;
  cbn [waits_for app] in Q; destruct Q as (? & ? & Q); [first [assumption | match goal with E : d_op _ = _ |- _ => rewrite E; discriminate end] | reflexivity |];
  split; cbn [waits_for]; [exact Q | assumption | assumption |];
  pose proof (wt_fields _ _ W); rewrite (g_jit_alone g Ha); cbn in *.

Lemma waits_auipc g z : waits W_none z -> alone g -> d_op (g_dec g) = rv_op_auipc -> waits (W_auipc g) (match_auipc (g_jit g) z).
Proof using. intros W Ha Eo. wait_tac W Ha g. auto. Qed.

Lemma waits_addiw g z : waits W_none z -> alone g -> d_op (g_dec g) = rv_op_addiw -> waits (W_addiw g) (match_addiw (g_jit g) z).
Proof using. intros W Ha Eo. wait_tac W Ha g. auto. Qed.

Lemma waits_zextw g z : waits W_none z -> alone g -> emit_code (d_op (g_dec g)) <> None -> waits (W_zextw g) (match_zextw (g_jit g) z).
Proof using. intros W Ha Eo. wait_tac W Ha g. auto. Qed.

Lemma waits_addiwz a g z : waits (W_addiw a) z -> alone g -> d_op (g_dec g) = rv_op_slli -> waits (W_addiwz a g) (match_addiwz (g_jit g) z).
Proof using. intros W Ha Eo. wait_tac W Ha g. match goal with H : _ /\ _ |- _ => destruct H as (_ & ? & ? & -> & ?) end. auto. Qed.

(** The queue is emitted, then an instruction is kept. *)
Lemma requested_flush R w z g : waits w z -> alone g -> emit_code (d_op (g_dec g)) <> None ->
  requested R z (waits_for w, None, W_zextw g) (let (c, z) := emit_queue R z in (c, match_zextw (g_jit g) z, true)).
Proof using.
  intros [Wq Wa Ws _] Ha Hs. unfold emit_queue. rewrite Wq. destruct (emit_all R (map g_jit (waits_for w)) (fu_base z)) as [c st] eqn:E.
  cbn [requested]. rewrite E. split; [exact Ws |]. split; [| auto]. apply waits_zextw; [split; cbn; auto | exact Ha | exact Hs].
Qed.

Lemma is_op_other d op : d_op d <> op -> is_op d op = false.
Proof using. unfold is_op. intros H. apply bool_decide_eq_false. exact H. Qed.

Lemma is_op_same d op : d_op d = op -> is_op d op = true.
Proof using. unfold is_op. intros H. apply bool_decide_eq_true. exact H. Qed.

Lemma requested_none R z g : waits W_none z -> alone g -> requested R z (request W_none g) (in_none R (g_jit g) z).
Proof using.
  intros W Ha. pose proof (requested_base R z g W Ha) as P. cbn [request]. unfold in_none. rewrite (g_jit_alone g Ha) at 1. cbn [j_op jit_of].
  assert (E : j_imm (g_jit g) = d_imm (g_dec g) /\ j_rd (g_jit g) = d_rd (g_dec g) /\ j_rs1 (g_jit g) = d_rs1 (g_dec g))
    by (rewrite (g_jit_alone g Ha); auto). destruct E as (-> & -> & ->).
  destruct (d_op (g_dec g)) eqn:Eo; try exact P; repeat match goal with |- context [if ?b then _ else _] => destruct b end; try exact P;
    apply requested_wait; try reflexivity;
    first [apply waits_auipc; assumption | apply waits_addiw; assumption | apply waits_zextw; [assumption .. | rewrite Eo; discriminate]].
Qed.

(** Waiting for [srli]. *)
Lemma fu_same w z g a : waits w z -> alone g -> fu_rd z = d_rd (g_dec a) ->
  same_rd (g_jit g) z = (d_rd (g_dec a) =? d_rd (g_dec g)) && (d_rd (g_dec a) =? d_rs1 (g_dec g)).
Proof using. intros _ Ha E. unfold same_rd. rewrite E, (g_jit_alone g Ha). reflexivity. Qed.

Ltac op_cases B g Ha :=
  rewrite (g_jit_alone g Ha) at 1; cbn [j_op jit_of];
  let Eo := fresh "Eo" in
  destruct (d_op (g_dec g)) eqn:Eo; rewrite ?(is_op_same _ _ Eo), ?is_op_other by (rewrite Eo; discriminate); cbn [andb orb]; try exact B.

Lemma requested_auipc R a z g : waits (W_auipc a) z -> alone g -> requested R z (request (W_auipc a) g) (in_auipc R (g_jit g) z).
Proof using.
  intros W Ha. pose proof (requested_both R z _ g W Ha) as B. pose proof (wt_fields _ _ W) as (Es & Er & Ei & Ep). cbn [waits_for] in B.
  assert (P : forall op f, g_jit (as_one f a) = mkJit (g_pc a) (g_inst g) op (d_rs1 (g_dec g)) 0 0 (s32 (u64 (d_imm (g_dec a) + d_imm (g_dec g)))) 0 ->
    requested R z ([as_one f a], None, W_none)
      (emit_pseudo R (auipc_pseudo op (g_jit g) (add_imm (g_jit g) z)) (add_imm (g_jit g) z))).
  { intros op f Hf. apply (requested_pseudo R (add_imm (g_jit g) z) f a). rewrite Hf. unfold auipc_pseudo. cbn [fu_imm add_imm pseudo_pc].
    rewrite Ei, Ep, (g_jit_alone g Ha), wrap_add_l. reflexivity. }
  cbn [request]. unfold in_auipc, in_auipc_jalr. rewrite (fu_same _ z g a W Ha Er), Er.
  assert (E : j_rd (g_jit g) = d_rd (g_dec g) /\ j_rs1 (g_jit g) = d_rs1 (g_dec g)) by (rewrite (g_jit_alone g Ha); auto). destruct E as (-> & ->).
  op_cases B g Ha; repeat match goal with |- context [if ?b then _ else _] => destruct b end; try exact B; apply P; reflexivity.
Qed.

Lemma requested_addiw R a z g : waits (W_addiw a) z -> alone g -> requested R z (request (W_addiw a) g) (in_addiw R (g_jit g) z).
Proof using.
  intros W Ha. pose proof (requested_both R z _ g W Ha) as B. pose proof (wt_fields _ _ W) as (Es & Er & _). cbn [waits_for] in B.
  cbn [request]. unfold in_addiw. rewrite (fu_same _ z g a W Ha Er).
  assert (E : j_imm (g_jit g) = d_imm (g_dec g)) by (rewrite (g_jit_alone g Ha); auto). rewrite E.
  op_cases B g Ha; repeat match goal with |- context [if ?b then _ else _] => destruct b end; try exact B.
  { apply requested_wait; [apply waits_addiwz; assumption | reflexivity]. }
  apply (requested_flush R (W_addiw a) z g W Ha). match goal with E : d_op _ = _ |- _ => rewrite E; discriminate end.
Qed.

(** Waiting for [srli]. *)
Lemma requested_srli R w a z g f dec one : waits w z -> alone g -> fu_rd z = d_rd (g_dec a) ->
  dec = g_jit (as_one f a) ->
  one = (let d := g_dec g in
    if is_op d rv_op_srli && ((d_rd (g_dec a) =? d_rd d) && (d_rd (g_dec a) =? d_rs1 d) && (d_imm d =? 32)) then ([as_one f a], None, W_none)
    else (waits_for w, Some g, W_none)) ->
  requested R z one
    match j_op (g_jit g) with
    | Rv rv_op_srli =>
        if same_rd (g_jit g) z && (j_imm (g_jit g) =? 32) then emit_pseudo R dec z else emit_both R (g_jit g) z
    | _ => emit_both R (g_jit g) z
    end.
Proof using.
  intros W Ha Er Ed ->. pose proof (requested_both R z _ g W Ha) as B. rewrite (fu_same _ z g a W Ha Er). cbv zeta.
  assert (E : j_imm (g_jit g) = d_imm (g_dec g)) by (rewrite (g_jit_alone g Ha); auto). rewrite E.
  op_cases B g Ha. match goal with |- context [if ?b then _ else _] => destruct b end; [apply requested_pseudo, Ed | exact B].
Qed.

Lemma fusion_requests R w z g : waits w z -> alone g -> requested R z (request w g) (fusion_emit R (g_jit g) z).
Proof using.
  intros W Ha. pose proof (wt_fields _ _ W) as F. unfold fusion_emit.
  destruct w as [| a | a | a | a b]; cbn [fields] in F; [| destruct F as [Es F] ..]; [rewrite F | rewrite Es ..].
  - apply requested_none; assumption.
  - apply requested_auipc; assumption.
  - destruct F as (Er & E1 & Ez & Ep). eapply (requested_srli R (W_zextw a) a); try eassumption; [| reflexivity].
    rewrite Er, E1, Ez, Ep, (g_jit_alone g Ha). reflexivity.
  - apply requested_addiw; assumption.
  - destruct F as (Er & E1 & Ez & Ep). eapply (requested_srli R (W_addiwz a b) a); try eassumption; [| reflexivity].
    rewrite Er, E1, Ez, Ep, (g_jit_alone g Ha). reflexivity.
Qed.

Lemma request_last w g rs g' w' : request w g = (rs, Some g', w') -> g' = g /\ w' = W_none.
Proof using.
  destruct w; cbn [request]; repeat match goal with
    | |- context [match d_op ?d with _ => _ end] => destruct (d_op d)
    | |- context [if ?b then _ else _] => destruct b
    end; intros [=]; auto.
Qed.

(** The code of the fusing emitter is the code of the groups. *)
Lemma steady_regs g R R' st : steady g -> base_emit (g_jit g) R st = base_emit (g_jit g) R' st.
Proof using. intros Hg. rewrite (proj1 (steady_emit g R st Hg)), (proj1 (steady_emit g R' st Hg)). reflexivity. Qed.

Lemma fusion_groups Re gs : forall w z, Forall alone gs -> waits w z ->
  fusion_end Re (map (fun g => (g_jit g, g_regs g)) gs) z = base_trace (keep (labels (fu_base z)) (requests w gs)) (fu_base z).
Proof using.
  induction gs as [| g gs IH]; intros w z Hgs W.
  - unfold fusion_end, emit_queue. cbn [map fusion_trace requests]. rewrite (wt_queue _ _ W).
    rewrite <- (app_nil_r (map (pair true) _)), (emit_all_keep Re) by apply W.
    destruct (emit_all Re _ (fu_base z)) as [c st]. cbn. rewrite app_nil_r. reflexivity.
  - apply Forall_cons in Hgs as [Hg Hgs]. pose proof (fusion_requests (g_regs g) w z g W Hg) as Q.
    unfold fusion_end. cbn [map fusion_trace requests]. destruct (fusion_emit (g_regs g) (g_jit g) z) as [[c z'] go].
    destruct (request w g) as [[rs fin] w'] eqn:Eq. cbn [requested] in Q. destruct Q as (Hs & W' & Q).
    rewrite (emit_all_keep (g_regs g)) by exact Hs. destruct (emit_all (g_regs g) (map g_jit rs) (fu_base z)) as [c1 st1].
    specialize (IH w' z' Hgs W'). unfold fusion_end in IH. destruct fin as [g' |].
    + destruct (request_last w g rs g' w' Eq) as [-> ->]. destruct Q as [_ Q]. cbn [app]. rewrite (emit_keep g _ st1 Hg).
      destruct (base_emit (g_jit g) (g_regs g) st1) as [[c2 st2] go2]. destruct Q as (-> & <- & ->). destruct go2.
      * rewrite <- IH. destruct (fusion_trace _ z') as [c3 z3]. destruct (emit_queue Re z3). rewrite !app_assoc. reflexivity.
      * unfold emit_queue. rewrite (wt_queue _ _ W'). cbn. rewrite app_nil_r. reflexivity.
    + destruct Q as (-> & <- & ->). cbn [app]. rewrite <- IH. destruct (fusion_trace _ z') as [c2 z2]. destruct (emit_queue Re z2).
      rewrite app_assoc. reflexivity.
Qed.

Lemma waits_new : waits W_none new_fusion.
Proof using. split; cbn; auto. Qed.

(** The function that is compiled is the function of the trace of the groups. *)
Theorem fusion_code_groups Re gs : Forall alone gs ->
  fusion_code Re (map (fun g => (g_jit g, g_regs g)) gs) = compiled_trace lookup_trace_slow lookup_trace_fast (groups gs).
Proof using.
  intros Hgs. unfold fusion_code, compiled_trace, trace_code. rewrite (fusion_groups Re gs W_none new_fusion Hgs waits_new). reflexivity.
Qed.

(** Without an instruction that is run twice nothing is left out. *)
Lemma request_pcs w g : let '(rs, fin, w') := request w g in
  map g_pc (rs ++ match fin with Some g => [g] | None => [] end ++ waits_for w') `sublist_of` map g_pc (waits_for w ++ [g]).
Proof using.
  destruct w; cbn [waits_for request]; repeat match goal with
    | |- context [match d_op ?d with _ => _ end] => destruct (d_op d)
    | |- context [if ?b then _ else _] => destruct b
    end; cbn [waits_for map app as_one g_pc]; repeat constructor.
Qed.

Lemma requests_pcs gs : forall w, map (fun r => g_pc r.2) (requests w gs) `sublist_of` map g_pc (waits_for w ++ gs).
Proof using.
  induction gs as [| g gs IH]; intros w; cbn [requests].
  - rewrite app_nil_r, map_map. reflexivity.
  - pose proof (request_pcs w g) as Hr. destruct (request w g) as [[rs fin] w']. specialize (IH w').
    change (g :: gs) with ([g] ++ gs). rewrite (app_assoc (waits_for w)), map_app. rewrite !map_app, map_map in *.
    etransitivity; [| apply sublist_app; [exact Hr | reflexivity]]. rewrite <- !app_assoc.
    apply sublist_app; [reflexivity |]. apply sublist_app; [destruct fin; reflexivity |]. exact IH.
Qed.

Lemma keep_all rs : forall ls, NoDup (map (fun r : bool * ginst => g_pc r.2) rs) -> (forall t, mem_pc t ls = true -> t ∉ map (fun r : bool * ginst => g_pc r.2) rs) ->
  keep ls rs = map snd rs.
Proof using.
  induction rs as [| [b g] rs IH]; intros ls Hn Hls; [reflexivity |]. cbn [map keep snd] in *. apply NoDup_cons in Hn as [Hg Hn].
  destruct (mem_pc (g_pc g) ls) eqn:M; [contradiction (Hls _ M); constructor |]. f_equal. apply IH; [exact Hn |].
  intros t. unfold mem_pc. cbn [existsb]. intros Ht Hin. apply orb_true_iff in Ht as [Ht | Ht].
  - apply Z.eqb_eq in Ht. subst t. contradiction.
  - apply (Hls t Ht). constructor; exact Hin.
Qed.

Lemma groups_items gs : Forall alone gs -> NoDup (map g_pc gs) -> concat (map g_items (groups gs)) = concat (map g_items gs).
Proof using.
  intros Ha Hn. unfold groups. rewrite keep_all.
  - rewrite map_map. apply (requests_items gs W_none Ha). constructor.
  - eapply sublist_NoDup; [exact Hn | apply (requests_pcs gs W_none)].
  - discriminate.
Qed.
End Fusion.

(** ** Claims *)

(** C35 The function that is compiled with [jit_fusion] in front of the
    emitter is the function the emitter makes of the trace of [groups], for
    every run of instructions; when no instruction is run twice the groups
    are, one after another, all the instructions of the run, in order. *)
Theorem fusion_equivalent slow fast Re gs : Forall alone gs ->
  fusion_code slow fast Re (map (fun g => (g_jit g, g_regs g)) gs) = compiled_trace slow fast (groups gs) /\
  (NoDup (map g_pc gs) -> concat (map g_items (groups gs)) = concat (map g_items gs)).
Proof. intros H. split; [apply fusion_code_groups, H | apply groups_items, H]. Qed.

(** The function that is compiled with fusion, called with the guest's
    registers in the register file, takes the guest through the instructions of
    the groups of the trace as the interpreter executes them, a fused group
    all its instructions, and is left with the guest's state: the property of
    compiled traces, for the fused trace. *)
Theorem fused_trace_refines {H} `{HostLaws H} slow fast fpu syscall `{!@CpuSafe proxy _ (func_cpu fpu syscall)} Re gs pc S0 n p (h : H) :
  Forall alone gs -> trace_ok slow fast (groups gs) pc -> hart_ok 64 (px_proc p) -> pc_of p = pc -> called S0 p (host_view h) ->
  exists q, rtc (trace_step fpu syscall (groups gs)) p q /\ hart_ok 64 (px_proc q) /\
    (blocked (groups gs) q \/ exists h' l,
       host_loop (S n) (fusion_code slow fast Re (map (fun g => (g_jit g, g_regs g)) gs)) None h = Some (h', Some l) /\
       leaves slow fast (trace_emitter slow fast (groups gs)) S0 (host_view h) q l (host_view h')).
Proof. intros Ha Ht Hh Hp Hc. rewrite (fusion_code_groups slow fast Re gs Ha). eapply compiled_trace_runs; eassumption. Qed.

(** A trace, by its first instruction and the rest. *)
Lemma chain_cons slow fast g gs st pc t :
  g_pc g = pc -> Forall decoded (g_items g) -> static_ok (with_label st pc) g = true -> follow (with_label st pc) g = Some t ->
  chain slow fast gs (emit slow fast (g_jit g) (g_regs g) st).1.2 t -> chain slow fast (g :: gs) st pc.
Proof.
  intros Hp Hd Hs Hf Hc. split; [exact Hp |]. split; [exact Hd |]. intros _ _. split; [exact Hs |].
  intros t' Ht. rewrite Hf in Ht. injection Ht as <-. exact Hc.
Qed.

(** ** The witnesses

    [auipc x5, 1], [addi x5, x5, 16], and the loop of [c.addi x10, -1] and
    [c.bnez x10, -2] at 0x2008. *)
Definition la_loop_run : list ginst :=
  [mkG 0x2000 0x1297 (inst_decode m64 decode_init 0x1297) (loop_regs 3) None;
   mkG 0x2004 0x1028293 (inst_decode m64 decode_init 0x1028293) (<[5%nat := 0x3000]> (loop_regs 3)) None;
   mkG 0x2008 0x157d (inst_decode m64 decode_init 0x157d) (<[5%nat := 0x3010]> (loop_regs 3)) None;
   mkG 0x200a 0xfd7d (inst_decode m64 decode_init 0xfd7d) (<[5%nat := 0x3010]> (loop_regs 2)) None].

Lemma la_loop_alone : Forall alone la_loop_run.
Proof. repeat constructor. Qed.

Lemma la_loop_ok : trace_ok no_trace lookup (groups la_loop_run) 0x2000.
Proof.
  split; [| vm_compute; reflexivity ..].
  assert (E : groups la_loop_run = as_one (Fuse_la 0x1028293 (inst_decode m64 decode_init 0x1028293))
    (mkG 0x2000 0x1297 (inst_decode m64 decode_init 0x1297) (loop_regs 3) None) :: skipn 2 la_loop_run) by (vm_compute; reflexivity).
  rewrite E. cbn [skipn la_loop_run].
  match goal with |- chain _ _ ?l _ _ => assert (R : Forall (fun g => Forall decoded (g_items g)) l) end.
  { repeat constructor; vm_compute; intuition discriminate. }
  repeat (apply Forall_cons in R as [? R]; eapply chain_cons; [reflexivity | assumption | vm_compute; reflexivity .. |]).
  exact Logic.I.
Qed.

Lemma fusion_equivalent_witness :
  fusion_code no_trace lookup [] (map (fun g => (g_jit g, g_regs g)) la_loop_run) = compiled_trace no_trace lookup (groups la_loop_run) /\
  length (groups la_loop_run) = 3%nat /\ concat (map g_items (groups la_loop_run)) = concat (map g_items la_loop_run).
Proof.
  split; [| split; [reflexivity |]]; apply (fusion_equivalent no_trace lookup [] la_loop_run la_loop_alone). apply (bool_decide_unpack _). vm_compute. exact Logic.I.
Defined.

Lemma fused_trace_refines_witness :
  (exists q, rtc (trace_step null_fpu (ret tt) (groups la_loop_run)) (loop_px 3) q /\ hart_ok 64 (px_proc q) /\
    (blocked (groups la_loop_run) q \/ exists h' l,
       host_loop 4 (fusion_code no_trace lookup [] (map (fun g => (g_jit g, g_regs g)) la_loop_run)) None (loop_host 3) = Some (h', Some l) /\
       leaves no_trace lookup (trace_emitter no_trace lookup (groups la_loop_run)) [] (host_view (loop_host 3)) q l (host_view h'))) /\
  match host_loop 4 (fusion_code no_trace lookup [] (map (fun g => (g_jit g, g_regs g)) la_loop_run)) None (loop_host 3) with
  | Some (x, Some l) => l = Addr lookup /\ xpc x = 0x200c /\ xreg x (x86_reg 10) = 0 /\ xreg x (x86_reg 5) = 0x3010
  | _ => False
  end.
Proof.
  split; [| vm_compute; auto].
  apply (@fused_trace_refines xstate _ _ no_trace lookup null_fpu (ret tt) loop_safe [] la_loop_run 0x2000 [] 3 (loop_px 3) (loop_host 3));
    [exact la_loop_alone | exact la_loop_ok | apply loop_hart; lia | reflexivity | apply loop_called].
Defined.
