(* ===== verification/JitRecord.v ===== *)
(** * JitRecord: what the interpreter did while a trace was recorded makes the
    trace one that its code runs faithfully. *)

From Stdlib Require Import ZArith Lia Bool List.
From stdpp Require Import base numbers list.
From S2P Require Import Prelude Operand Meta Decode Codec CodecRound Compress Alu Machine Fpu Interp InterpSound ExecSpec ExecControl Proxy Runloop Model ProxyCpu Host Jit JitSound JitEmit JitExec JitSim JitFlow JitPair JitTrace JitFunc JitTheorems JitFusion.

#[local] Existing Instance proxy_processor.

(** ** Fetching and decoding *)

(** The operands that are registers. *)
Definition reg_source (s : source) : bool :=
  match s with Bits o b => (0 <=? op_min o + b) && (op_max o + b <=? 32) | Fixed v => (0 <=? v) && (v <? 32) end.

Lemma reg_sources c f : f = F_rd \/ f = F_rs1 \/ f = F_rs2 -> reg_source (field_source (codec_layout c) f) = true.
Proof. intros [-> | [-> | ->]]; destruct c; vm_compute; reflexivity. Qed.

Lemma decode_reg F inst f : f = F_rd \/ f = F_rs1 \/ f = F_rs2 -> 0 <= get f (decode_inst F decode_init inst) < 32.
Proof.
  intros Hf. unfold decode_inst, decode_inst_type. cbn [d_op d_codec set_op set_codec].
  rewrite decode_operands_field by (intros []; reflexivity). pose proof (reg_sources (rv_inst_codec (decode_inst_op F inst)) f Hf) as Hs.
  destruct (field_source _ f) as [o b | v] eqn:E; cbn [reg_source] in Hs; apply andb_true_iff in Hs as [H1 H2].
  - destruct (layout_slot _ f o b (source_slot _ _ _ _ E)) as (Ho & _). pose proof (operand_decode_bounds o inst Ho). lia.
  - lia.
Qed.

Lemma decode_regs inst : regs_in (inst_decode m64 decode_init inst).
Proof.
  assert (E : forall f, f = F_rd \/ f = F_rs1 \/ f = F_rs2 ->
    get f (inst_decode m64 decode_init inst) = get f (decode_inst (m_isa m64) decode_init inst)).
  { intros f [-> | [-> | ->]]; unfold inst_decode; cbn [rvc m_isa m64 m_xlen Z.eqb Pos.eqb]; unfold decompress_inst_rv64, decompress;
      destruct (decide _); reflexivity. }
  assert (R : forall f, f = F_rd \/ f = F_rs1 \/ f = F_rs2 -> 0 <= get f (inst_decode m64 decode_init inst) < 32).
  { intros f Hf. rewrite (E f Hf). apply decode_reg, Hf. }
  split; [apply (R F_rd); auto | split; [apply (R F_rs1) | apply (R F_rs2)]; auto].
Qed.

Lemma decode_decoded inst : decoded (inst, inst_decode m64 decode_init inst).
Proof. split; [apply decode_regs | apply inst_decode_jump_even]. Qed.

(** [pc_offset] is the instruction's length, but for an encoding that is too
    long. *)
Lemma fetch_length mem a inst off : inst_fetch mem a = (inst, off) -> off = inst_length inst \/ (inst, off) = (0, 0).
Proof.
  unfold inst_fetch. cbv zeta. set (i := le32 mem a). intros E.
  assert (Hi : inst_length i = if negb (Z.land i 0x3 =? 0x3) then 2 else if negb (Z.land i 0x1c =? 0x1c) then 4
    else if Z.land i 0x3f =? 0x1f then 6 else if Z.land i 0x7f =? 0x3f then 8 else 0) by reflexivity.
  destruct (negb (Z.land i 0x3 =? 0x3)).
  - injection E as <- <-. left. rewrite <- Hi. apply inst_length_low. rewrite <- Z.land_assoc. reflexivity.
  - destruct (negb (Z.land i 0x1c =? 0x1c)); [injection E as <- <-; left; rewrite Hi; reflexivity |].
    destruct (Z.land i 0x3f =? 0x1f); [| destruct (Z.land i 0x7f =? 0x3f); [| right; symmetry; exact E]];
      injection E as <- <-; left; rewrite <- Hi; apply inst_length_low; symmetry; apply land_lor_high; lia.
Qed.

(** ** The interpreter, one instruction at a time *)
Lemma bind_off {A} (m : M proxy A) (off : Z) p o q : bind m (fun _ => ret off) p = Ok o q -> o = off.
Proof. unfold bind, ret. destruct (m p); congruence. Qed.

Lemma exec_straight fpu d off p o q code : emit_code (d_op d) = Some code -> inst_exec (P := proxy) fpu m64 d off p = Ok o q -> o = off.
Proof.
  intros Hc. unfold inst_exec. cbn [m_xlen m64 Z.eqb Pos.eqb]. unfold exec_inst_rv64, exec_inst_rv64_groups.
  destruct (d_op d) eqn:E; try discriminate Hc; clear Hc;
    cbv [exec_common app exec_rvi_jump exec_rvi_mem exec_rvi_imm exec_rvi_reg exec_rvm exec_rva_w exec_rvf exec_rvd
      exec_rv64_mem exec_rv64_word exec_rv64_mword];
    rewrite E; cbn [dispatch guarded]; change (rvi (m_isa m64)) with true; change (rvm (m_isa m64)) with true; cbv iota;
    apply bind_off.
Qed.

(** What the emitter has code for never traps. *)
Definition quiet {P A} (m : M P A) : Prop := forall p c q, m p <> Raise c q.

Lemma quiet_bind {P A B} (m : M P A) (k : A -> M P B) : quiet m -> (forall a, quiet (k a)) -> quiet (bind m k).
Proof. intros Hm Hk p c q. unfold bind. specialize (Hm p). destruct (m p) as [a p' | c' p' |]; [apply Hk | destruct (Hm c' p' eq_refl) | discriminate]. Qed.
Lemma quiet_if {P A} (b : bool) (m n : M P A) : quiet m -> quiet n -> quiet (if b then m else n).
Proof. destruct b; auto. Qed.
Lemma quiet_ret {P A} (a : A) : quiet (ret a : M P A). Proof. intros p c q. discriminate. Qed.
Lemma quiet_undefined {P A} : quiet (undefined : M P A). Proof. intros p c q. discriminate. Qed.
Lemma quiet_gets {P} `{Processor P} {A} (f : proc -> A) : quiet (gets f : M P A). Proof. intros p c q. discriminate. Qed.
Lemma quiet_modify {P} `{Processor P} (f : proc -> proc) : quiet (modify f : M P unit). Proof. intros p c q. discriminate. Qed.
Lemma quiet_get {P} `{Processor P} (f : proc -> list Z) i : quiet (get_raw f i : M P Z).
Proof. intros p c q. unfold get_raw. unfold bind, gets. destruct (if 0 <=? i then _ else _); discriminate. Qed.

Ltac quiet := repeat first
  [ apply quiet_ret | apply quiet_undefined | apply quiet_gets | apply quiet_modify | apply quiet_get | apply quiet_bind; [| intros ?] | apply quiet_if
  | progress cbv beta zeta delta [x_val xu_val w_val wu_val l_val lu_val eff_addr branch load_rd set_rd shl shr put_ireg mmu_load mmu_store proxy_mmu]
  | intros ? ? ?; discriminate ].

Lemma exec_quiet fpu d off : (exists code, emit_code (d_op d) = Some code) \/ (exists c, branch_cond (d_op d) = Some c) \/ d_op d = rv_op_jal \/ d_op d = rv_op_jalr ->
  quiet (inst_exec (P := proxy) fpu m64 d off).
Proof.
  intros Hc. unfold inst_exec. cbn [m_xlen m64 Z.eqb Pos.eqb]. unfold exec_inst_rv64, exec_inst_rv64_groups.
  destruct (d_op d) eqn:E; try (destruct Hc as [[? Hc] | [[? Hc] | [Hc | Hc]]]; discriminate Hc); clear Hc;
    cbv [exec_common app exec_rvi_jump exec_rvi_mem exec_rvi_imm exec_rvi_reg exec_rvm exec_rva_w exec_rvf exec_rvd
      exec_rv64_mem exec_rv64_word exec_rv64_mword];
    rewrite E; cbn [dispatch guarded guarded_jump]; change (rvi (m_isa m64)) with true; change (rvm (m_isa m64)) with true; cbv iota; quiet.
Qed.

Section Guest.
Context (fpu : host_fpu) (syscall : M proxy unit).
#[local] Instance guest_cpu : Cpu proxy := proxy_cpu fpu m64 syscall.
Abbreviation guest_step := (guest_step fpu syscall).
Abbreviation run_all := (run_all fpu syscall).

Lemma guest_step_fun d i p q q' : guest_step d i p q -> guest_step d i p q' -> q = q'.
Proof using. unfold JitFlow.guest_step. congruence. Qed.

Lemma run_all_fun l : forall p q q', run_all l p q -> run_all l p q' -> q = q'.
Proof using.
  induction l as [| [i d] l IH]; cbn; intros p q q'; [congruence |].
  intros (r & Hr & Hq) (r' & Hr' & Hq'). rewrite (guest_step_fun d i p r' r Hr' Hr) in Hq'. apply (IH r); assumption.
Qed.

Lemma run_all_app l l' : forall p r q, run_all l p r -> run_all l' r q -> run_all (l ++ l') p q.
Proof using.
  induction l as [| [i d] l IH]; cbn; intros p r q; [intros ->; auto |]. intros (s & Hs & Hr) Hq. eauto.
Qed.

Lemma straight_next d i p r code : hart_ok 64 (px_proc p) -> jump_even d -> emit_code (d_op d) = Some code -> guest_step d i p r ->
  pc_of r = u64 (pc_of p + inst_length i).
Proof using.
  intros Hh Hj Hc. unfold JitFlow.guest_step, execute, bind.
  change (cpu_exec d (inst_length i) p) with (inst_exec (P := proxy) fpu m64 d (inst_length i) p).
  destruct (inst_exec fpu m64 d (inst_length i) p) as [o q | c q |] eqn:E; [| discriminate..].
  pose proof (exec_straight fpu d (inst_length i) p o q code Hc E) as ->. change cpu_xlen with 64.
  destruct (Z.eqb_spec (inst_length i) (u64 (-1))) as [El | _]; [contradiction (proj1 (inst_length_legal i) El) |]. cbn [negb].
  intros [= <-]. destruct (exec_inv fpu d i p Hh Hj _ q E) as (_ & Ep & _). cbn. rewrite Ep. reflexivity.
Qed.

(** Where an instruction that is not [jalr] goes on is what the emitter takes. *)
Lemma alone_next g st p r : hart_ok 64 (px_proc p) -> regs_in (g_dec g) -> jump_even (g_dec g) -> pc_of p = g_pc g ->
  ireg (px_proc p) = g_regs g -> g_fused g = None -> compiled g = true -> is_jalr g = false -> guest_step (g_dec g) (g_inst g) p r ->
  follow st g = Some (pc_of r).
Proof using.
  intros Hh (D1 & D2 & D3) Hj Hpc HR Hf Hc Hn Hs. unfold compiled, is_jalr, follow, g_jit in *. rewrite Hf in *. cbv zeta.
  destruct (emit_code (d_op (g_dec g))) as [code |] eqn:Ec.
  { rewrite (straight_next _ _ p r code Hh Hj Ec Hs), Hpc. reflexivity. }
  destruct (branch_cond (d_op (g_dec g))) as [[bf ibf] |] eqn:Eb.
  - destruct (branch_spec 64 (d_op (g_dec g))) as [cond |] eqn:Es; [| destruct (d_op (g_dec g)); discriminate].
    pose proof (exec_branch64 fpu (g_dec g) (inst_length (g_inst g)) p (proj1 Hh) D2 D3 cond Es) as E.
    assert (Ho : (if cond (nth (Z.to_nat (d_rs1 (g_dec g))) (ireg (px_proc p)) 0) (nth (Z.to_nat (d_rs2 (g_dec g))) (ireg (px_proc p)) 0)
      then u64 (d_imm (g_dec g)) else inst_length (g_inst g)) <> u64 (-1)).
    { destruct (cond _ _); [| apply inst_length_legal]. apply even_not_illegal. rewrite wrap_even by lia. apply Hj.
      destruct (d_op (g_dec g)); try discriminate Eb; reflexivity. }
    rewrite (guest_step_fun _ _ _ _ _ Hs (execute_run fpu syscall _ _ _ _ _ E Ho)). rewrite pc_retired, Hpc.
    unfold branch_now. rewrite Es. cbn [j_rs1 j_rs2 jit_of]. rewrite <- HR.
    match goal with |- context [if ?b then u64 (d_imm _) else _] => destruct b end; rewrite ?wrap_add_r; reflexivity.
  - destruct (d_op (g_dec g)) eqn:Eo; try discriminate Hc; try discriminate Hn.
    pose proof (exec_jal64 fpu (g_dec g) (inst_length (g_inst g)) p (proj1 Hh) D1 Eo) as E.
    assert (Ho : u64 (d_imm (g_dec g)) <> u64 (-1)) by (apply even_not_illegal; rewrite wrap_even by lia; apply Hj; rewrite Eo; reflexivity).
    rewrite (guest_step_fun _ _ _ _ _ Hs (execute_run fpu syscall _ _ _ _ _ E Ho)), pc_retired.
    destruct (exec_inv fpu _ _ p Hh Hj _ _ E) as (_ & Ep & _). rewrite Ep, Hpc, wrap_add_r. reflexivity.
Qed.

(** The same for a group. *)
Lemma fused_next g f st p r : hart_ok 64 (px_proc p) -> Forall decoded (g_items g) -> pc_of p = g_pc g -> g_fused g = Some f ->
  static_ok st g = true -> run_all (g_items g) p r -> follow st g = Some (pc_of r).
Proof using.
  intros Hh Hd Hpc Hf Hs Hr. unfold follow, static_ok, g_items, g_jit in *. rewrite Hf in *. cbv zeta. apply Forall_cons in Hd as [[Hd _] Ht].
  pose proof (group_runs fpu syscall (g_inst g) (g_dec g) f p Hh Hd Ht Hs) as Hg. destruct (fused_result _ _ _ _ _) as [[rd v] t] eqn:E.
  destruct Hg as (q & Hq & W). rewrite (run_all_fun _ p r q Hr Hq), (w_pc _ _ _ _ _ W), <- Hpc. f_equal.
  destruct f as [i2 d2 | i2 d2 | i2 d2 | i2 d2 i3 d3]; cbn [fused_result] in E; injection E as _ _ <-; unfold fused_follow, fused_jit;
    cbn [j_op j_pc j_inst j_imm j_sz]; cbn [fused_ok] in Hs; rewrite !andb_true_iff in Hs.
  - f_equal. lia.
  - rewrite imm_sum by tauto. reflexivity.
  - rewrite Z.mod_small; [f_equal; lia |]. pose proof (length_mod16 (g_inst g)). pose proof (length_mod16 i2). lia.
  - rewrite Z.mod_small; [f_equal; lia |]. pose proof (length_mod16 (g_inst g)). pose proof (length_mod16 i2). pose proof (length_mod16 i3). lia.
Qed.
End Guest.
