(* ===== verification/JitReplay.v ===== *)
(** * JitReplay: a run of the interpreter, its instructions grouped, is a chain
    for the code of the groups. *)

From Stdlib Require Import ZArith Lia Bool List.
From stdpp Require Import base numbers list.
From S2P Require Import Prelude Meta Decode Codec Alu Machine Fpu Interp InterpSound Proxy Runloop Model ProxyCpu Host Jit JitSound JitEmit JitExec JitSim JitFlow JitPair JitTrace JitFunc JitTheorems JitFusion JitRecord.

#[local] Existing Instance proxy_processor.

Section Replay.
Context (slow : Z -> Z) (fast : Z) (fpu : host_fpu) (syscall : M proxy unit).
#[local] Instance replay_cpu : Cpu proxy := proxy_cpu fpu m64 syscall.
Abbreviation run_all := (run_all fpu syscall).

(** The interpreter runs the groups from [p], each where it is and with the
    registers it has; the last one need not be executed. *)
Fixpoint replay (G : list ginst) (p : proxy) : Prop :=
  match G with
  | [] => True
  | g :: G =>
      pc_of p = g_pc g /\ ireg (px_proc p) = g_regs g /\ Forall decoded (g_items g) /\
      (G = [] \/ exists r, run_all (g_items g) p r /\ replay G r)
  end.

Lemma replay_app A B B' : forall p, (forall r, replay B r -> replay B' r) -> (B = [] -> B' = []) -> replay (A ++ B) p -> replay (A ++ B') p.
Proof using.
  induction A as [| a A IH]; intros p Hr He; [apply Hr |]. cbn [app replay]. intros (H1 & H2 & H3 & H4). repeat (split; [assumption |]).
  destruct H4 as [E | (r & Hs & Hp)]; [left | right; exists r; auto]. apply app_eq_nil in E as [-> EB]. rewrite He by exact EB. reflexivity.
Qed.

Lemma replay_prefix A B p : replay (A ++ B) p -> replay A p.
Proof using.
  revert p. induction A as [| a A IH]; intros p; [intros _; exact Logic.I |]. cbn [app replay]. intros (H1 & H2 & H3 & H4).
  repeat (split; [assumption |]). destruct H4 as [E | (r & Hs & Hp)]; [left | right; exists r; auto]. apply app_eq_nil in E. apply E.
Qed.

Lemma replay_run A : forall B p, replay (A ++ B) p -> Forall decoded (concat (map g_items A)) /\
  (B = [] \/ exists q, run_all (concat (map g_items A)) p q /\ replay B q).
Proof using.
  induction A as [| a A IH]; intros B p; cbn [app replay map concat].
  - intros H. split; [constructor |]. right. exists p. split; [reflexivity | exact H].
  - intros (_ & _ & H3 & [E | (r & Hs & Hp)]).
    + apply app_eq_nil in E as [-> ->]. cbn. rewrite app_nil_r. auto.
    + destruct (IH B r Hp) as [Hd Hq]. split; [apply Forall_app; auto |]. destruct Hq as [-> | (q & Hq & HB)]; [left; reflexivity |].
      right. exists q. split; [| exact HB]. apply (run_all_app fpu syscall _ _ p r q Hs Hq).
Qed.

Lemma replay_group f a A B p : g_items (as_one f a) = concat (map g_items (a :: A)) -> replay (a :: A ++ B) p -> replay (as_one f a :: B) p.
Proof using.
  intros Ei H. destruct (replay_run (a :: A) B p H) as [Hd Hq]. cbn [replay]. rewrite Ei.
  destruct H as (H1 & H2 & _). repeat (split; [assumption |]). exact Hq.
Qed.

(** ** The groups of a run *)
Lemma request_replay w g gs p : Forall alone (waits_for w ++ g :: gs) -> replay (waits_for w ++ g :: gs) p ->
  let '(rs, fin, w') := request w g in replay (rs ++ (match fin with Some g => [g] | None => [] end) ++ waits_for w' ++ gs) p.
Proof using.
  intros Ha H. assert (Hi : Forall (fun a => g_items a = [(g_inst a, g_dec a)]) (waits_for w ++ g :: gs)).
  { eapply Forall_impl; [exact Ha |]. intros a Hf. unfold g_items. rewrite Hf. reflexivity. }
  destruct w as [| a | a | a | a b]; cbn [waits_for app request] in *; repeat (apply Forall_cons in Hi as [? Hi]); clear Hi Ha;
    repeat match goal with
    | |- context [match d_op ?d with _ => _ end] => destruct (d_op d)
    | |- context [if ?b then _ else _] => destruct b
    end; cbn [waits_for app]; first
    [ exact H
    | apply (replay_group _ a [g] gs p); [| exact H]; cbn [map concat]; rewrite ?app_nil_r; repeat match goal with E : g_items _ = _ |- _ => rewrite E; clear E end; reflexivity
    | apply (replay_group _ a [b; g] gs p); [| exact H]; cbn [map concat]; rewrite ?app_nil_r; repeat match goal with E : g_items _ = _ |- _ => rewrite E; clear E end; reflexivity ].
Qed.

Lemma request_alone w g : Forall alone (waits_for w ++ [g]) -> Forall alone (waits_for (request w g).2).
Proof using.
  intros Ha. destruct w; cbn [waits_for request app] in *; repeat (apply Forall_cons in Ha as [? Ha]);
    repeat match goal with
    | |- context [match d_op ?d with _ => _ end] => destruct (d_op d)
    | |- context [if ?b then _ else _] => destruct b
    end; cbn [waits_for snd]; repeat constructor; assumption.
Qed.

Lemma requests_replay gs : forall w p, Forall alone (waits_for w ++ gs) -> replay (waits_for w ++ gs) p -> replay (map snd (requests w gs)) p.
Proof using.
  induction gs as [| g gs IH]; intros w p Ha H; cbn [requests].
  - rewrite map_map, map_id. rewrite app_nil_r in H. exact H.
  - pose proof (request_replay w g gs p Ha H) as Hr. pose proof (request_alone w g) as Hw.
    destruct (request w g) as [[rs fin] w']. cbn [snd] in Hw. rewrite !map_app, map_map, map_id.
    replace (map snd (match fin with Some g0 => [(false, g0)] | None => [] end)) with (match fin with Some g0 => [g0] | None => [] end) by (destruct fin; reflexivity).
    rewrite app_assoc in *. eapply replay_app; [| | exact Hr].
    + intros r. apply IH. apply Forall_app in Ha as [Ha1 Ha2]. apply Forall_cons in Ha2 as [Hg Ha2]. apply Forall_app. split; [| exact Ha2].
      apply Hw, Forall_app. auto.
    + intros E. apply app_eq_nil in E as [E1 ->]. destruct w'; try discriminate E1. reflexivity.
Qed.

(** What [keep] leaves out when no instruction but the last is run twice. *)
Lemma removelast_sublist {A} (l l' : list A) : l `sublist_of` l' -> NoDup (removelast l') -> NoDup (removelast l).
Proof using.
  intros Hs Hn. destruct l as [| x l0 _] using rev_ind; [constructor |]. destruct l' as [| y l1 _] using rev_ind.
  { apply sublist_nil_r in Hs. destruct l0; discriminate. }
  rewrite removelast_last in *. apply sublist_app_r in Hs as (k1 & k2 & E & H1 & H2). eapply sublist_NoDup; [exact Hn |].
  destruct k2 as [| z k2 _] using rev_ind.
  - rewrite app_nil_r in E. subst k1. etransitivity; [| exact H1]. apply sublist_inserts_r. reflexivity.
  - rewrite app_assoc in E. apply app_inj_tail in E as [-> ->]. apply sublist_length in H2. rewrite length_app in H2. cbn in H2.
    destruct k2; [| cbn in H2; lia]. rewrite app_nil_r. exact H1.
Qed.

Lemma keep_last rs : forall ls, NoDup (removelast (map (fun r : bool * ginst => g_pc r.2) rs)) ->
  (forall t, mem_pc t ls = true -> t ∉ removelast (map (fun r : bool * ginst => g_pc r.2) rs)) ->
  keep ls rs = map snd rs \/ keep ls rs = removelast (map snd rs).
Proof using.
  induction rs as [| [b g] rs IH]; intros ls Hn Hls; [left; reflexivity |]. destruct rs as [| r rs].
  { cbn. destruct (mem_pc (g_pc g) ls); [destruct b |]; auto. }
  remember (r :: rs) as rs' eqn:E. assert (Ec : forall (x : Z), removelast (x :: map (fun r : bool * ginst => g_pc r.2) rs') = x :: removelast (map (fun r : bool * ginst => g_pc r.2) rs')) by (intros x; subst rs'; reflexivity).
  assert (Es : removelast (g :: map snd rs') = g :: removelast (map snd rs')) by (subst rs'; reflexivity).
  cbn [map keep snd] in *. rewrite Ec in Hn, Hls. rewrite Es. apply NoDup_cons in Hn as [Hg Hn].
  destruct (mem_pc (g_pc g) ls) eqn:M; [contradiction (Hls _ M); constructor |].
  destruct (IH (g_pc g :: ls)) as [-> | ->]; [exact Hn | | left; reflexivity | right; reflexivity].
  intros t. unfold mem_pc. cbn [existsb]. intros Ht Hin. apply orb_true_iff in Ht as [Ht | Ht].
  - apply Z.eqb_eq in Ht. subst t. contradiction.
  - apply (Hls t Ht). constructor; exact Hin.
Qed.

Lemma groups_replay gs p : Forall alone gs -> NoDup (removelast (map g_pc gs)) -> replay gs p -> replay (groups gs) p.
Proof using.
  intros Ha Hn H. pose proof (requests_replay gs W_none p Ha H) as Hr. unfold groups.
  destruct (keep_last (requests W_none gs) []) as [-> | ->]; [| discriminate | exact Hr |].
  - eapply removelast_sublist; [apply (requests_pcs gs W_none) | exact Hn].
  - destruct (map snd (requests W_none gs)) as [| x l _] using rev_ind; [exact Logic.I |]. rewrite removelast_last. apply (replay_prefix _ [x]), Hr.
Qed.

(** ** The chain *)

(** What the code of a trace is not right without, checked as it is emitted: each
    jump and each group is one that is compiled as it is executed, and a return
    that is inlined went where the code takes it. *)
Fixpoint checked (G : list ginst) (st : emitter) : bool :=
  match G with
  | [] => true
  | g :: G =>
      if mem_pc (g_pc g) (labels st) || negb (compiled g) then true
      else
        let st' := with_label st (g_pc g) in
        static_ok st' g &&
        match G with
        | g' :: _ => if is_jalr g then match follow st' g with Some t => t =? g_pc g' | None => true end else true
        | [] => true
        end &&
        checked G (emit slow fast (g_jit g) (g_regs g) st).1.2
  end.

Context `{!CpuSafe proxy}.

Lemma replay_chain G : forall st p, hart_ok 64 (px_proc p) -> replay G p -> checked G st = true -> chain slow fast G st (pc_of p).
Proof using CpuSafe0.
  induction G as [| g G IH]; intros st p Hh H Hc; [exact Logic.I |]. cbn [chain]. cbn [replay] in H. destruct H as (H1 & H2 & H3 & H4).
  split; [symmetry; exact H1 |]. split; [exact H3 |]. rewrite H1. intros Hm Hcm. cbn [checked] in Hc. rewrite Hm, Hcm in Hc. cbn [orb negb] in Hc.
  rewrite !andb_true_iff in Hc. destruct Hc as [[Hs Hj] Hc]. split; [exact Hs |]. intros t Ht.
  destruct G as [| g' G']; [exact Logic.I |]. destruct H4 as [E | (r & Hr & H)]; [discriminate E |].
  assert (Hpc : t = pc_of r).
  { destruct (is_jalr g) eqn:Ej.
    - rewrite Ht in Hj. apply Z.eqb_eq in Hj. rewrite Hj. symmetry. apply H.
    - enough (E : follow (with_label st (g_pc g)) g = Some (pc_of r)) by congruence.
      destruct (g_fused g) as [f |] eqn:Ef; [apply (fused_next fpu syscall g f _ p r); assumption |].
      pose proof H3 as H3'. unfold g_items in H3', Hr. rewrite Ef in H3', Hr. apply Forall_cons in H3' as [[D1 D2] _]. cbn in Hr. destruct Hr as (s & Hg & ->).
      apply (alone_next fpu syscall g _ p s); assumption. }
  subst t. apply IH; [apply (run_all_hart fpu syscall _ p r H3 Hh Hr) | exact H | exact Hc].
Qed.

(** The checks of a trace: the chain's, that [pc] is known where it ends, and
    that the host encodes the addresses. *)
Definition trace_checks (G : list ginst) : bool :=
  checked G new_emitter && negb (ends_in_ret slow fast G new_emitter true) &&
  (let st := (emit_trace slow fast (map (fun g => (g_jit g, g_regs g)) G) new_emitter).2 in
   forallb pc_encodes (jmp_tramp_labels st ++ exit_tramp_labels st ++ [term_pc st])).

Lemma replay_trace_ok G p : hart_ok 64 (px_proc p) -> replay G p -> trace_checks G = true -> trace_ok slow fast G (pc_of p).
Proof using CpuSafe0.
  intros Hh H Hc. unfold trace_checks in Hc. rewrite !andb_true_iff, negb_true_iff in Hc. destruct Hc as [[Hc He] Hp].
  split; [apply replay_chain; assumption | exact He | exact Hp].
Qed.
End Replay.
