(* ===== verification/JitRun.v ===== *)
(** * JitRun: the run loop of [jit/jit-runloop.h] over the user-mode RV64
    processor: hot addresses, the recording of a trace, the cache of compiled
    functions, and the stepper that runs them.

    The host runs compiled code: [host_call].  The audit mode, the debugger and
    the patching of jumps between functions are left out. *)

From Stdlib Require Import ZArith Lia Bool List.
From stdpp Require Import base numbers list gmap.
From S2P Require Import Prelude Meta Decode Codec Alu Machine Fpu Interp Proxy Runloop Model ProxyCpu ExecTheorems RunTheorems Host Jit JitEmit JitFusion.

#[local] Existing Instance proxy_processor.

Definition hostspot_trace_limit : Z := 2 ^ 64 - 2.
Definition hostspot_trace_skip : Z := 2 ^ 64 - 1.

(** [jit_runloop]: the processor with its instruction cache,
    [trace_cache_prolog] and [trace_cache_entry], which have the same keys,
    [hist_pc], and the flag [proc_log_jit_trap]. *)
Record jit_loop := mkJitLoop {
  jl_rl : runloop proxy; trace_cache : gmap Z (list xinst); hist_pc : gmap Z Z; jit_trap : bool }.

Inductive jit_outcome :=
  | JitExit (e : exit_cause) (s : jit_loop)
  | JitStuck
  | JitOutOfFuel.

Definition jl_proxy (s : jit_loop) : proxy := rl_proc (jl_rl s).

Definition on_rl {A} (m : M (runloop proxy) A) : M jit_loop A := fun s =>
  match m (jl_rl s) with
  | Ok a r => Ok a (mkJitLoop r (trace_cache s) (hist_pc s) (jit_trap s))
  | Raise c r => Raise c (mkJitLoop r (trace_cache s) (hist_pc s) (jit_trap s))
  | Undefined => Undefined
  end.

Definition on_guest {A} (m : M proxy A) : M jit_loop A := on_rl (on_proc m).

Definition set_trap (b : bool) : M jit_loop unit := fun s =>
  Ok tt (mkJitLoop (jl_rl s) (trace_cache s) (hist_pc s) b).
Definition set_traces (c : gmap Z (list xinst)) : M jit_loop unit := fun s =>
  Ok tt (mkJitLoop (jl_rl s) c (hist_pc s) (jit_trap s)).
Definition histogram_set_pc (key val : Z) : M jit_loop unit := fun s =>
  Ok tt (mkJitLoop (jl_rl s) (trace_cache s) (<[key := val]> (hist_pc s)) (jit_trap s)).

Definition histogram_add_pc (key : Z) : M jit_loop Z := fun s =>
  let n := match hist_pc s !! key with
           | None => 1
           | Some n => if n <? hostspot_trace_limit then n + 1 else n
           end in
  (histogram_set_pc key n ;; ret n) s.

Section JitRun.
Context (lookup_trace_slow : Z -> Z) (lookup_trace_fast : Z) (fpu : host_fpu) (syscall : M proxy unit).
(** [rt.add], which can fail, and a call of a compiled function, which can go
    on to the other ones. *)
Context (rt_add : list xinst -> bool) (host_call : gmap Z (list xinst) -> list xinst -> M proxy unit).
(** [proc_log_hist_pc], [trace_iters] and [trace_length]. *)
Context (log_hist_pc : bool) (trace_iters trace_length : Z).
#[local] Instance run_cpu : Cpu proxy := proxy_cpu fpu m64 syscall.
Abbreviation J := (M jit_loop).
Abbreviation illegal := (u64 (-1)).

(** [mmu_proxy::inst_fetch]. *)
Definition jit_fetch (a : Z) : J (Z * Z) :=
  (if log_hist_pc then
     iters <- histogram_add_pc a ;;
     trap <- (fun s => Ok (jit_trap s) s) ;;
     if (trap : bool) && negb (iters =? hostspot_trace_skip) && (trace_iters <=? iters)
     then on_guest (raise internal_cause_hotspot a) else ret tt
   else ret tt) ;;
  on_guest (cpu_fetch a).

(** ** Recording *)
Definition at_length (start now : Z) : bool := negb (trace_length =? 0) && (trace_length <=? u64 (now - start)).

(** The loop of [jit_trace]: the code, and the emitter's state; [None] when the
    fuel is not enough. *)
Fixpoint record (fuel : nat) (trace_instret : Z) (z : fusion) : J (option (list xinst * fusion)) :=
  match fuel with
  | O => ret None
  | S fuel =>
      a <- on_guest (gets pc) ;;
      f <- jit_fetch a ;;
      let dec := cpu_decode decode_init f.1 in
      R <- on_guest (gets ireg) ;;
      let '(c, z, go) := fusion_emit lookup_trace_slow lookup_trace_fast R (jit_of a f.1 dec) z in
      if negb go then ret (Some (c, z))
      else
        new_offset <- on_guest (cpu_exec dec f.2) ;;
        if new_offset =? illegal then ret (Some (c, z))
        else
          on_guest (retire new_offset) ;;
          n <- on_guest (gets instret) ;;
          if at_length trace_instret n then ret (Some (c, z))
          else
            r <- record fuel trace_instret z ;;
            ret (match r with Some (c', z) => Some (c ++ c', z) | None => None end)
  end.

Definition jit_cache (a : Z) (code : list xinst) : J unit :=
  if rt_add code then fun s => set_traces (<[a := code]> (trace_cache s)) s else ret tt.

Definition jit_trace (fuel : nat) : J (option unit) :=
  trace_pc <- on_guest (gets pc) ;;
  trace_instret <- on_guest (gets instret) ;;
  set_trap false ;;
  r <- record fuel trace_instret new_fusion ;;
  match r with
  | None => ret None
  | Some (c, z) =>
      R <- on_guest (gets ireg) ;;
      let (c', z) := emit_queue lookup_trace_slow lookup_trace_fast R z in
      let st := fu_base z in
      set_trap true ;;
      n <- on_guest (gets instret) ;;
      (if n =? trace_instret then histogram_set_pc trace_pc hostspot_trace_skip
       else jit_cache trace_pc (emit_prolog ++ (c ++ c') ++ emit_term st ++ emit_epilog st lookup_trace_fast)) ;;
      ret (Some tt)
  end.

(** ** Running *)
Definition jit_exec (a : Z) : J bool := fun s =>
  match trace_cache s !! a with
  | Some fn => (on_guest (host_call (trace_cache s) fn) ;; ret true) s
  | None => Ok false s
  end.

Definition clear_trace_cache_prolog : J unit := set_traces ∅.

Definition inst_fence_i (d : decode) (pc_offset : Z) : J Z :=
  match d_op d with rv_op_fence_i => clear_trace_cache_prolog ;; ret pc_offset | _ => ret illegal end.

(** [inst_exec], [inst_fence_i], [inst_priv], or the illegal instruction trap. *)
Definition jit_execute (d : decode) (pc_offset : Z) : J unit :=
  new_offset <- on_guest (cpu_exec d pc_offset) ;;
  if negb (new_offset =? illegal) then on_guest (retire new_offset)
  else
    new_offset <- inst_fence_i d pc_offset ;;
    if negb (new_offset =? illegal) then on_guest (retire new_offset)
    else
      new_offset <- on_guest (cpu_priv d pc_offset) ;;
      if negb (new_offset =? illegal) then on_guest (retire new_offset)
      else a <- on_guest (gets pc) ;; on_guest (raise rv_cause_illegal_instruction a).

Definition jit_step_inst : J unit :=
  a <- on_guest (gets pc) ;;
  f <- jit_fetch a ;;
  d <- on_rl (cached_decode f.1) ;;
  jit_execute d f.2.

(** [if ((log & proc_log_jit_trap) && jit_exec(pc))]. *)
Definition jit_try : J bool := fun s => if jit_trap s then jit_exec (pc (px_proc (jl_proxy s))) s else Ok false s.

(** The loop of [step], as [step_loop]; [trace_fuel] is for [jit_trace]. *)
Fixpoint jit_step_loop (trace_fuel : nat) (inststop : Z) (fuel : nat) (resume : option Z) (s : jit_loop) : jit_outcome :=
  match fuel with
  | O => JitOutOfFuel
  | S fuel =>
      let next := jit_step_loop trace_fuel inststop fuel in
      let b := px_proc (jl_proxy s) in
      match resume with
      | Some cause =>
          if cause =? internal_cause_cli then JitExit exit_cause_cli s
          else if cause =? internal_cause_fatal then JitExit exit_cause_poweroff s
          else if cause =? internal_cause_poweroff then JitExit exit_cause_poweroff s
          else if cause =? internal_cause_hotspot then
            match jit_trace trace_fuel s with
            | Ok (Some _) s => JitExit exit_cause_continue s
            | Ok None _ => JitOutOfFuel
            | Raise c s => next (Some c) s
            | Undefined => JitStuck
            end
          else
            match on_guest (cpu_trap (rl_dec (jl_rl s)) cause) s with
            | Ok _ s => if negb (running (px_proc (jl_proxy s))) then JitExit exit_cause_poweroff s else next None s
            | Raise c s => next (Some c) s
            | Undefined => JitStuck
            end
      | None =>
          if instret b =? inststop then JitExit exit_cause_continue s
          else
            match jit_try s with
            | Ok true s => next None s
            | Ok false s =>
                if (pc b =? breakpoint b) && negb (breakpoint b =? 0) then JitExit exit_cause_cli s
                else
                  match jit_step_inst s with
                  | Ok _ s => next None s
                  | Raise c s => next (Some c) s
                  | Undefined => JitStuck
                  end
            | Raise c s => next (Some c) s
            | Undefined => JitStuck
            end
      end
  end.

Definition jit_step (trace_fuel fuel : nat) (count : Z) (s : jit_loop) : jit_outcome :=
  let inststop := u64 (instret (px_proc (jl_proxy s)) + count) in
  match on_guest (read_clock ;; cpu_isr)
          (mkJitLoop (mkRunloop (rl_proc (jl_rl s)) (inst_cache (jl_rl s)) decode_init) (trace_cache s) (hist_pc s) (jit_trap s)) with
  | Ok _ s => jit_step_loop trace_fuel inststop fuel None s
  | _ => JitStuck
  end.
End JitRun.
