(* ===== verification/JitRunTheorems.v ===== *)
(** * JitRunTheorems: a trace that the run loop records and compiles. *)

From Stdlib Require Import ZArith Lia Bool List.
From stdpp Require Import base numbers list gmap relations.
From S2P Require Import Prelude Meta Decode Codec Alu Machine Fpu Interp InterpSound ExecSpec ExecControl Proxy Runloop Model ProxyCpu ExecTheorems RunTheorems Host Jit JitSound JitEmit JitExec JitSim JitFlow JitPair JitTrace JitFunc JitTheorems JitFusion JitRecord JitReplay JitRun.

#[local] Existing Instance proxy_processor.

(** ** Computations of the loop *)
Definition with_proxy (p : proxy) (s : jit_loop) : jit_loop :=
  mkJitLoop (mkRunloop p (inst_cache (jl_rl s)) (rl_dec (jl_rl s))) (trace_cache s) (hist_pc s) (jit_trap s).

(** What recording leaves alone: both caches. *)
Definition same_caches (s s' : jit_loop) : Prop := trace_cache s' = trace_cache s /\ inst_cache (jl_rl s') = inst_cache (jl_rl s).
#[local] Hint Unfold same_caches : core.

Lemma bind_ok {P A B} (m : M P A) (k : A -> M P B) s b s' : bind m k s = Ok b s' -> exists a s1, m s = Ok a s1 /\ k a s1 = Ok b s'.
Proof. unfold bind. destruct (m s) as [a s1 | |]; [eauto | discriminate..]. Qed.

Lemma on_guest_run {A} (m : M proxy A) s : on_guest m s =
  match m (jl_proxy s) with Ok a p => Ok a (with_proxy p s) | Raise c p => Raise c (with_proxy p s) | Undefined => Undefined end.
Proof. unfold on_guest, on_rl, on_proc, jl_proxy. destruct (m _); reflexivity. Qed.

Lemma on_guest_ok {A} (m : M proxy A) s a s' : on_guest m s = Ok a s' -> exists p, m (jl_proxy s) = Ok a p /\ s' = with_proxy p s.
Proof. rewrite on_guest_run. destruct (m _) as [b p | |]; [intros [= <- <-]; eauto | discriminate..]. Qed.

Lemma read_ok {A} (f : proc -> A) s a s' : on_guest (gets f) s = Ok a s' -> a = f (px_proc (jl_proxy s)) /\ s' = s.
Proof. rewrite on_guest_run. intros [= <- <-]. split; [reflexivity |]. destruct s as [[] ? ? ?]. reflexivity. Qed.

Lemma bind_raise {P A B} (m : M P A) (k : A -> M P B) s c q : bind m k s = Raise c q ->
  m s = Raise c q \/ exists a s1, m s = Ok a s1 /\ k a s1 = Raise c q.
Proof. unfold bind. destruct (m s) as [a s1 | |]; [eauto 6 | intros [= <- <-]; auto | discriminate]. Qed.

Lemma guest_quiet {A} (m : M proxy A) : quiet m -> quiet (on_guest m).
Proof. intros Hm s c q. rewrite on_guest_run. specialize (Hm (jl_proxy s)). destruct (m _) as [a p | c' p |]; [discriminate | destruct (Hm c' p eq_refl) | discriminate]. Qed.

Section Run.
Context (slow : Z -> Z) (fast : Z) (fpu : host_fpu) (syscall : M proxy unit).
Context (rt_add : list xinst -> bool) (log_hist_pc : bool) (trace_iters trace_length : Z).
#[local] Instance loop_cpu : Cpu proxy := proxy_cpu fpu m64 syscall.
Abbreviation jit_fetch := (jit_fetch fpu syscall log_hist_pc trace_iters).
Abbreviation record := (record slow fast fpu syscall log_hist_pc trace_iters trace_length).
Abbreviation jit_trace := (jit_trace slow fast fpu syscall rt_add log_hist_pc trace_iters trace_length).
Abbreviation run_all := (run_all fpu syscall).
Abbreviation replay := (replay fpu syscall).

Lemma loop_decode d i : cpu_decode d i = inst_decode m64 d i.
Proof using. reflexivity. Qed.
Lemma loop_exec d off : cpu_exec d off = inst_exec (P := proxy) fpu m64 d off.
Proof using. reflexivity. Qed.

Lemma jit_fetch_ok a s f s' : jit_trap s = false -> jit_fetch a s = Ok f s' ->
  f = inst_fetch (px_mem (jl_proxy s)) a /\ jl_proxy s' = jl_proxy s /\ jit_trap s' = false /\ same_caches s s'.
Proof using.
  intros Ht. unfold JitRun.jit_fetch. intros H. apply bind_ok in H as ([] & s1 & H1 & H2).
  assert (E1 : jl_proxy s1 = jl_proxy s /\ jit_trap s1 = false /\ same_caches s s1).
  { destruct log_hist_pc; [| injection H1 as <-; auto]. apply bind_ok in H1 as (n & s2 & H3 & H1).
    assert (E : jl_proxy s2 = jl_proxy s /\ jit_trap s2 = false /\ same_caches s s2).
    { unfold histogram_add_pc, histogram_set_pc, bind, ret in H3. injection H3 as _ <-. auto. }
    apply bind_ok in H1 as (t & s3 & H3' & H1). injection H3' as <- <-. destruct E as (E & Ef & Ec). rewrite Ef in H1. cbn [andb] in H1.
    injection H1 as <-. auto. }
  apply on_guest_ok in H2 as (p & H2 & ->). injection H2 as <- <-. destruct E1 as (E1 & E2 & E3). cbn. rewrite E1. auto.
Qed.

(** What the emitter has no code for ends the trace. *)
Lemma refused R g z : alone g -> compiled g = false -> (fusion_emit slow fast R (g_jit g) z).2 = false.
Proof using.
  intros Ha Hc. set (dec := g_jit g).
  assert (Hb : forall st, (JitEmit.emit slow fast dec R st).2 = false).
  { intros st. unfold JitEmit.emit. destruct (mem_pc _ _); [reflexivity |]. unfold dec, emit_inst, g_jit, compiled in *. rewrite Ha in *. cbn [j_op jit_of].
    destruct (emit_code (d_op (g_dec g))); [discriminate |]. destruct (branch_cond (d_op (g_dec g))); [discriminate |]. destruct (d_op (g_dec g)); discriminate || reflexivity. }
  assert (Hbase : forall y, (emit_base slow fast R dec y).2 = false).
  { intros y. unfold emit_base. specialize (Hb (fu_base y)). destruct (JitEmit.emit slow fast dec R (fu_base y)) as [[c st] go]. exact Hb. }
  assert (Hboth : (emit_both slow fast R dec z).2 = false).
  { unfold emit_both. destruct (emit_queue slow fast R z) as [c y]. specialize (Hbase y). destruct (emit_base slow fast R dec y) as [[c' y'] go]. exact Hbase. }
  assert (Ho : exists op, j_op dec = Rv op /\ op = d_op (g_dec g)) by (unfold dec, g_jit; rewrite Ha; eauto). destruct Ho as (op & Ho & Eo).
  unfold compiled in Hc. rewrite Ha, <- Eo in Hc. unfold fusion_emit, in_none, in_addiw, in_addiwz, in_auipc, in_zextw.
  destruct (fu_state z); rewrite Ho; destruct op; try discriminate Hc; auto.
Qed.

(** What it has code for is legal. *)
Lemma compiled_legal g off p o q : hart_ok 64 (px_proc p) -> alone g -> decoded (g_inst g, g_dec g) -> compiled g = true -> off <> u64 (-1) ->
  inst_exec (P := proxy) fpu m64 (g_dec g) off p = Ok o q -> o <> u64 (-1).
Proof using.
  intros Hh Ha [(D1 & D2 & D3) Hj] Hc Hoff E. cbn [snd] in *. unfold compiled in Hc. rewrite Ha in Hc.
  assert (Hu : forall v, Z.even v = true -> u64 v <> u64 (-1)) by (intros v Hv; apply even_not_illegal; rewrite wrap_even by lia; exact Hv).
  destruct (emit_code (d_op (g_dec g))) as [code |] eqn:Ec; [rewrite (exec_straight fpu _ _ p o q code Ec E); exact Hoff |].
  destruct (branch_cond (d_op (g_dec g))) as [[bf ibf] |] eqn:Eb.
  - destruct (branch_spec 64 (d_op (g_dec g))) as [cond |] eqn:Es; [| destruct (d_op (g_dec g)); discriminate].
    rewrite (exec_branch64 fpu _ _ p (proj1 Hh) D2 D3 cond Es) in E. injection E as <- _. destruct (cond _ _); [apply Hu, Hj | exact Hoff].
    destruct (d_op (g_dec g)); try discriminate Eb; reflexivity.
  - destruct (d_op (g_dec g)) eqn:Eo; try discriminate Hc.
    + rewrite (exec_jal64 fpu _ _ p (proj1 Hh) D1 Eo) in E. injection E as <- _. apply Hu, Hj. rewrite Eo. reflexivity.
    + destruct Hh as (Hp & He & _). destruct (exec_jalr64 fpu _ off p Hp D1 D2 Eo He) as (o' & E' & Ht).
      rewrite E' in E. injection E as <- _. intros ->. apply (f_equal Z.even) in Ht.
      rewrite wrap_even, Z.even_add, He in Ht by lia. change (Z.even (u64 (-1))) with false in Ht. cbn in Ht.
      rewrite <- Z.negb_odd, <- Z.bit0_odd, Z.land_spec in Ht. change (Z.testbit (u64 (-2)) 0) with false in Ht. rewrite andb_false_r in Ht. discriminate Ht.
Qed.

(** An instruction that is retired keeps the processor well formed, and counts. *)
Lemma retire_hart d off o p q : @CpuSafe proxy _ loop_cpu -> hart_ok 64 (px_proc p) -> jump_even d -> 0 <= off < 2 ^ 64 -> Z.even off = true ->
  inst_exec (P := proxy) fpu m64 d off p = Ok o q -> o <> u64 (-1) ->
  hart_ok 64 (px_proc (retired o q)) /\ instret (px_proc (retired o q)) = u64 (instret (px_proc p) + 1).
Proof using.
  intros Hsafe (H1 & H2 & H3) Hj Hoff He E Ho. assert (Hi : step_inv 64 (pc_of p) (instret (px_proc p)) (px_proc p)) by (unfold step_inv; auto).
  pose proof (execute_turn (P := proxy) (pc_of p) (instret (px_proc p)) d off p H2 Hoff He Hj Hi) as T. unfold execute, bind in T.
  change (cpu_exec d off p) with (inst_exec (P := proxy) fpu m64 d off p) in T. rewrite E in T. change cpu_xlen with 64 in T.
  destruct (Z.eqb_spec o (u64 (-1))) as [|_]; [contradiction |]. exact T.
Qed.

(** An encoding of more than 64 bits is fetched as 0, with the length 0. *)
Definition short (g : ginst) : Prop := g_inst g <> 0.

Lemma fetch_even mem a : 0 <= (inst_fetch mem a).2 < 2 ^ 64 /\ Z.even (inst_fetch mem a).2 = true.
Proof using.
  destruct (inst_fetch mem a) as [i off] eqn:E. cbn [snd]. destruct (fetch_length mem a i off E) as [-> | [= _ ->]]; [| split; [lia | reflexivity]].
  split; [| apply inst_length_legal]. unfold inst_length. repeat match goal with |- context [if ?b then _ else _] => destruct b end; lia.
Qed.

(** One turn of the loop: the emitter refuses the instruction, or it is executed
    and the loop ends there or goes on. *)
Record turned (s s2 : jit_loop) (g : ginst) : Prop := {
  t_hart : hart_ok 64 (px_proc (jl_proxy s2));
  t_trap : jit_trap s2 = false;
  t_cache : same_caches s s2;
  t_instret : instret (px_proc (jl_proxy s2)) = u64 (instret (px_proc (jl_proxy s)) + 1);
  t_run : short g -> run_all (g_items g) (jl_proxy s) (jl_proxy s2) }.

Lemma record_turn fuel n z s r s' : hart_ok 64 (px_proc (jl_proxy s)) -> @CpuSafe proxy _ loop_cpu -> jit_trap s = false ->
  record (S fuel) n z s = Ok r s' ->
  exists i d c z1 go, let g := mkG (pc_of (jl_proxy s)) i d (ireg (px_proc (jl_proxy s))) None in
    decoded (i, d) /\ fusion_emit slow fast (g_regs g) (g_jit g) z = (c, z1, go) /\
    match go with
    | false => r = Some (c, z1) /\ jl_proxy s' = jl_proxy s /\ same_caches s s'
    | true => exists s2, turned s s2 g /\
        if at_length trace_length n (instret (px_proc (jl_proxy s2))) then r = Some (c, z1) /\ s' = s2
        else exists r2, record fuel n z1 s2 = Ok r2 s' /\ r = match r2 with Some (c', z) => Some (c ++ c', z) | None => None end
    end.
Proof using.
  intros Hh Hsafe Ht H. cbn [JitRun.record] in H. apply bind_ok in H as (a & s1 & H1 & H). apply read_ok in H1 as [-> ->].
  apply bind_ok in H as (f & s2 & H1 & H). apply jit_fetch_ok in H1 as (Ef & Ep & Ht2 & Ec); [| exact Ht].
  apply bind_ok in H as (R & s3 & H1 & H). apply read_ok in H1 as [-> ->]. rewrite Ep, loop_decode, loop_exec in H. set (p := jl_proxy s) in *.
  pose proof (decode_decoded f.1) as Hd. exists f.1, (inst_decode m64 decode_init f.1). set (d := inst_decode m64 decode_init f.1) in *. clearbody d.
  set (g := mkG (pc_of p) f.1 d (ireg (px_proc p)) None). change (jit_of _ f.1 d) with (g_jit g) in H. change (ireg (px_proc p)) with (g_regs g) in H.
  destruct (fusion_emit slow fast (g_regs g) (g_jit g) z) as [[c1 z1] go] eqn:Ee. exists c1, z1, go. split; [exact Hd |]. split; [exact Ee |].
  destruct go; cbn [negb] in H; [| injection H as <- <-; auto].
  apply bind_ok in H as (o & s4 & H1 & H). apply on_guest_ok in H1 as (p1 & H1 & ->). rewrite Ep in H1.
  assert (Hcm : compiled g = true) by (destruct (compiled g) eqn:Hcm; [reflexivity |]; pose proof (refused (g_regs g) g z eq_refl Hcm) as Hr; rewrite Ee in Hr; discriminate Hr).
  assert (Hoff : 0 <= f.2 < 2 ^ 64 /\ Z.even f.2 = true) by (rewrite Ef; apply fetch_even). destruct Hoff as [Hoff He].
  pose proof (compiled_legal g f.2 p o p1 Hh eq_refl Hd Hcm (even_not_illegal _ He) H1) as Eo. destruct (Z.eqb_spec o (u64 (-1))) as [|_]; [contradiction |].
  destruct (retire_hart d f.2 o p p1 Hsafe Hh (proj2 Hd) Hoff He H1 Eo) as [Hh2 Hi].
  apply bind_ok in H as ([] & s5 & H2 & H). apply on_guest_ok in H2 as (p2 & H2 & ->).
  assert (E2 : p2 = retired o p1) by (unfold retire, modify in H2; injection H2 as <-; reflexivity). subst p2.
  apply bind_ok in H as (m & s6 & H3 & H). apply read_ok in H3 as [-> ->]. exists (with_proxy (retired o p1) (with_proxy p1 s2)). split; cycle 1.
  - destruct (at_length _ _ _); [injection H as <- <-; split; reflexivity |]. apply bind_ok in H as (r2 & s7 & H3 & H). exists r2.
    destruct r2 as [[c2 z2] |]; injection H as <- <-; auto.
  - split; [exact Hh2 | exact Ht2 | exact Ec | exact Hi |]. intros Hs. exists (retired o p1). split; [| reflexivity]. apply execute_run; [| exact Eo].
    change (g_inst g) with f.1. change (g_dec g) with d. replace (inst_length f.1) with f.2; [exact H1 |]. destruct f as [i off].
    destruct (fetch_length _ _ i off (eq_sym Ef)) as [El | [= -> _]]; [exact El | contradiction Hs; reflexivity].
Qed.

(** [trace_length] bounds the loop. *)
Lemma at_length_next n i k : u64 (i - n) = k -> k + 1 < 2 ^ 64 -> u64 (u64 (i + 1) - n) = k + 1.
Proof using.
  intros <-. unfold wrap. intros Hk. rewrite Zminus_mod_idemp_l. replace (i + 1 - n) with (i - n + 1) by lia.
  rewrite <- (Zplus_mod_idemp_l (i - n)), Z.mod_small; [reflexivity |]. pose proof (Z.mod_pos_bound (i - n) (2 ^ 64)). lia.
Qed.

Lemma record_total fuel : forall k n z s r s', hart_ok 64 (px_proc (jl_proxy s)) -> @CpuSafe proxy _ loop_cpu -> jit_trap s = false ->
  u64 (instret (px_proc (jl_proxy s)) - n) = k -> k < trace_length -> trace_length <= k + Z.of_nat fuel -> trace_length < 2 ^ 64 ->
  record fuel n z s = Ok r s' -> r <> None.
Proof using.
  induction fuel as [| fuel IH]; intros k n z s r s' Hh Hsafe Ht Hn Hk Hf Hl H; [lia |].
  assert (Hk0 : 0 <= k) by (rewrite <- Hn; apply Z.mod_pos_bound; lia).
  destruct (record_turn fuel n z s r s' Hh Hsafe Ht H) as (i & d & c & z1 & go & _ & _ & T). destruct go; [| destruct T as [-> _]; discriminate].
  destruct T as (s2 & [T1 T2 _ T4 _] & T). pose proof (at_length_next n _ k Hn ltac:(lia)) as Hn'. rewrite <- T4 in Hn'.
  unfold at_length in T. rewrite Hn' in T. destruct (Z.eqb_spec trace_length 0); [lia |]. cbn [negb andb] in T.
  destruct (Z.leb_spec trace_length (k + 1)); [destruct T as [-> _]; discriminate |]. destruct T as (r2 & H2 & ->).
  assert (Hr : r2 <> None) by (eapply (IH (k + 1)); try exact H2; try assumption; lia). destruct r2 as [[c2 z2] |]; [discriminate | contradiction].
Qed.

(** Nothing raises while a trace is recorded. *)
Lemma fetch_quiet a s c q : jit_trap s = false -> jit_fetch a s <> Raise c q.
Proof using.
  intros Ht H. unfold JitRun.jit_fetch in H. apply bind_raise in H as [H | (u & s1 & _ & H)]; [| discriminate H].
  destruct log_hist_pc; [| discriminate H]. apply bind_raise in H as [H | (n & s1 & H1 & H)]; [discriminate H |].
  assert (Ht1 : jit_trap s1 = false) by (unfold histogram_add_pc, histogram_set_pc, bind, ret in H1; injection H1 as _ <-; exact Ht).
  unfold bind in H. rewrite Ht1 in H. discriminate H.
Qed.

Lemma compiled_quiet g off : alone g -> compiled g = true -> quiet (inst_exec (P := proxy) fpu m64 (g_dec g) off).
Proof using.
  intros Ha Hc. apply exec_quiet. unfold compiled in Hc. rewrite Ha in Hc. destruct (emit_code _); [eauto |].
  destruct (branch_cond _); [eauto |]. destruct (d_op (g_dec g)); discriminate Hc || auto.
Qed.

Lemma record_quiet fuel : forall n z s c q, jit_trap s = false -> record fuel n z s <> Raise c q.
Proof using.
  induction fuel as [| fuel IH]; intros n z s c q Ht; cbn [JitRun.record]; [discriminate |]. intros H.
  apply bind_raise in H as [H | (a & s1 & H1 & H)]; [discriminate H | apply read_ok in H1 as [-> ->]].
  apply bind_raise in H as [H | (f & s2 & H1 & H)]; [eapply fetch_quiet; eassumption | apply jit_fetch_ok in H1 as (_ & _ & Ht2 & _); [| exact Ht]].
  apply bind_raise in H as [H | (R & s3 & H1 & H)]; [discriminate H | apply read_ok in H1 as [-> ->]].
  set (R := ireg _) in H. rewrite loop_decode, loop_exec in H. set (d := inst_decode m64 decode_init f.1) in *. clearbody d.
  set (g := mkG (pc_of (jl_proxy s)) f.1 d R None). change (jit_of _ f.1 d) with (g_jit g) in H. destruct (fusion_emit slow fast R (g_jit g) z) as [[c1 z1] go] eqn:Ee.
  destruct go; cbn [negb] in H; [| discriminate H].
  assert (Hcm : compiled g = true) by (destruct (compiled g) eqn:Hcm; [reflexivity |]; pose proof (refused R g z eq_refl Hcm) as Hr; rewrite Ee in Hr; discriminate Hr).
  apply bind_raise in H as [H | (o & s3 & H1 & H)]; [exact (guest_quiet _ (compiled_quiet g f.2 eq_refl Hcm) s2 c q H) |].
  apply on_guest_ok in H1 as (p1 & _ & ->). destruct (o =? u64 (-1)); [discriminate H |].
  apply bind_raise in H as [H | ([] & s4 & H1 & H)]; [discriminate H | apply on_guest_ok in H1 as (p2 & _ & ->)].
  apply bind_raise in H as [H | (m & s5 & H1 & H)]; [discriminate H | apply read_ok in H1 as [-> ->]].
  destruct (at_length _ _ _); [discriminate H |]. apply bind_raise in H as [H | (r & s5 & _ & H)]; [| discriminate H].
  revert H. apply IH. exact Ht2.
Qed.

(** What is recorded is what was executed, and maybe one instruction more that
    the emitter refused. *)
Lemma record_runs fuel : forall n z s c z' s', hart_ok 64 (px_proc (jl_proxy s)) -> @CpuSafe proxy _ loop_cpu -> jit_trap s = false ->
  record fuel n z s = Ok (Some (c, z')) s' ->
  exists ex more, let gs := ex ++ more in
    (length more <= 1)%nat /\ Forall alone gs /\
    (Forall short gs -> replay gs (jl_proxy s) /\ run_all (concat (map g_items ex)) (jl_proxy s) (jl_proxy s')) /\
    fusion_trace slow fast (map (fun g => (g_jit g, g_regs g)) gs) z = (c, z') /\
    hart_ok 64 (px_proc (jl_proxy s')) /\ same_caches s s'.
Proof using.
  induction fuel as [| fuel IH]; intros n z s c z' s' Hh Hsafe Ht H; [discriminate H |].
  destruct (record_turn fuel n z s _ s' Hh Hsafe Ht H) as (i & d & c1 & z1 & go & Hd & Ee & T). clear H. set (p := jl_proxy s) in *.
  set (g := mkG (pc_of p) i d (ireg (px_proc p)) None) in *.
  assert (Hg : forall gs, (gs = [] \/ exists r, run_all (g_items g) p r /\ replay gs r) -> replay (g :: gs) p).
  { intros gs Hgs. cbn [JitReplay.replay]. repeat (split; [reflexivity |]). split; [apply Forall_singleton, Hd | exact Hgs]. }
  destruct go.
  2: { destruct T as ([= <- <-] & Ep & Ec). exists [], [g]. cbn [app length map concat JitPair.run_all fusion_trace]. rewrite Ee. split; [lia |].
    split; [repeat constructor |]. split; [intros _; split; [apply Hg; left; reflexivity | exact Ep] |]. rewrite Ep. auto. }
  destruct T as (s2 & [T1 T2 T3 _ T5] & T). destruct (at_length _ _ _).
  - destruct T as ([= <- <-] & ->). exists [g], []. cbn [app length map concat fusion_trace]. rewrite Ee, !app_nil_r. split; [lia |]. split; [repeat constructor |].
    split; [| auto]. intros Hs. apply Forall_cons in Hs as [Hs _]. split; [apply Hg; left; reflexivity | exact (T5 Hs)].
  - destruct T as (r & H & E). destruct r as [[c2 z2] |]; [| discriminate E]. injection E as -> ->.
    destruct (IH n z1 s2 c2 z2 s' T1 Hsafe T2 H) as (ex & more & I1 & I2 & I3 & I4 & I5 & I8).
    assert (Hsame : same_caches s s') by (destruct T3, I8; split; congruence).
    exists (g :: ex), more. cbn [app map fusion_trace]. rewrite Ee, I4. split; [exact I1 |]. split; [constructor; [reflexivity | exact I2] |]. split; [| auto].
    intros Hs. apply Forall_cons in Hs as [Hs Hss]. destruct (I3 Hss) as [I6 I7].
    split; [apply Hg; right; exists (jl_proxy s2); auto | apply (run_all_app fpu syscall _ _ p (jl_proxy s2) _ (T5 Hs) I7)].
Qed.

Lemma jit_trace_total fuel s r s' : hart_ok 64 (px_proc (jl_proxy s)) -> @CpuSafe proxy _ loop_cpu ->
  0 < trace_length < 2 ^ 64 -> trace_length <= Z.of_nat fuel -> jit_trace fuel s = Ok r s' -> r = Some tt.
Proof using.
  intros Hh Hsafe Hl Hf H. unfold JitRun.jit_trace in H.
  apply bind_ok in H as (a & s1 & H1 & H). apply read_ok in H1 as [-> ->]. apply bind_ok in H as (n & s1 & H1 & H). apply read_ok in H1 as [-> ->].
  apply bind_ok in H as ([] & s1 & H1 & H). injection H1 as <-. set (s0 := mkJitLoop _ _ _ false) in H.
  apply bind_ok in H as (o & s2 & H1 & H).
  assert (Ho : o <> None) by (apply (record_total fuel 0 _ new_fusion s0 o s2 Hh Hsafe eq_refl) in H1; [exact H1 | | lia..]; cbn; rewrite Z.sub_diag; reflexivity).
  destruct o as [[c z] |]; [| contradiction]. apply bind_ok in H as (R & s3 & H2 & H). destruct (emit_queue slow fast R z) as [c' z'].
  apply bind_ok in H as ([] & s4 & H3 & H). apply bind_ok in H as (m & s5 & H4 & H). apply bind_ok in H as ([] & s6 & H5 & H). injection H as <- _. reflexivity.
Qed.

Lemma jit_trace_quiet fuel : quiet (jit_trace fuel).
Proof using.
  intros s c q H. unfold JitRun.jit_trace in H.
  apply bind_raise in H as [H | (a & s1 & H1 & H)]; [discriminate H | apply read_ok in H1 as [-> ->]].
  apply bind_raise in H as [H | (n & s1 & H1 & H)]; [discriminate H | apply read_ok in H1 as [-> ->]].
  apply bind_raise in H as [H | ([] & s1 & H1 & H)]; [discriminate H | injection H1 as <-].
  apply bind_raise in H as [H | (r & s2 & _ & H)]; [revert H; apply record_quiet; reflexivity |].
  destruct r as [[code z] |]; [| discriminate H]. apply bind_raise in H as [H | (R & s3 & _ & H)]; [discriminate H |].
  destruct (emit_queue slow fast R z) as [c' z']. apply bind_raise in H as [H | ([] & s4 & _ & H)]; [discriminate H |].
  apply bind_raise in H as [H | (m & s5 & _ & H)]; [discriminate H |]. apply bind_raise in H as [H | ([] & s6 & _ & H)]; [| discriminate H].
  unfold jit_cache, histogram_set_pc in H. destruct (m =? _); [discriminate H |]. destruct (rt_add _); discriminate H.
Qed.

Definition recorded (gs : list ginst) : list (jit_decode * list Z) := map (fun g => (g_jit g, g_regs g)) gs.

Lemma jit_trace_runs fuel s s' : hart_ok 64 (px_proc (jl_proxy s)) -> @CpuSafe proxy _ loop_cpu -> jit_trace fuel s = Ok (Some tt) s' ->
  exists ex more R, let gs := ex ++ more in let code := fusion_code slow fast R (recorded gs) in
    (length more <= 1)%nat /\ Forall alone gs /\
    (Forall short gs -> replay gs (jl_proxy s) /\ run_all (concat (map g_items ex)) (jl_proxy s) (jl_proxy s')) /\
    trace_cache s' = (if (instret (px_proc (jl_proxy s')) =? instret (px_proc (jl_proxy s))) || negb (rt_add code) then trace_cache s
                      else <[pc_of (jl_proxy s) := code]> (trace_cache s)) /\
    hart_ok 64 (px_proc (jl_proxy s')) /\ inst_cache (jl_rl s') = inst_cache (jl_rl s).
Proof using.
  intros Hh Hsafe H. unfold JitRun.jit_trace in H.
  apply bind_ok in H as (a & s1 & H1 & H). apply read_ok in H1 as [-> ->]. apply bind_ok in H as (n & s1 & H1 & H). apply read_ok in H1 as [-> ->].
  apply bind_ok in H as ([] & s1 & H1 & H). injection H1 as <-. set (s0 := mkJitLoop _ _ _ false) in H.
  apply bind_ok in H as (r & s2 & H1 & H). destruct r as [[c z] |]; [| discriminate H].
  destruct (record_runs fuel _ new_fusion s0 c z s2 Hh Hsafe eq_refl H1) as (ex & more & R1 & R2 & R3 & R4 & R5 & R6 & R7).
  apply bind_ok in H as (R & s3 & H2 & H). apply read_ok in H2 as [-> ->]. set (R := ireg (px_proc (jl_proxy s2))) in *.
  exists ex, more, R. split; [exact R1 |]. split; [exact R2 |].
  assert (Ecode : fusion_code slow fast R (recorded (ex ++ more)) =
    let (c', z') := emit_queue slow fast R z in emit_prolog ++ (c ++ c') ++ emit_term (fu_base z') ++ emit_epilog (fu_base z') fast).
  { unfold fusion_code, fusion_end, recorded. rewrite R4. destruct (emit_queue slow fast R z). reflexivity. }
  destruct (emit_queue slow fast R z) as [c' z']. cbv zeta. rewrite Ecode.
  apply bind_ok in H as ([] & s3 & H2 & H). injection H2 as <-. apply bind_ok in H as (m & s3 & H2 & H). apply read_ok in H2 as [-> ->].
  apply bind_ok in H as ([] & s3 & H2 & H). injection H as <-. cbn [jl_proxy jl_rl] in H2.
  assert (E : jl_proxy s3 = jl_proxy s2 /\ inst_cache (jl_rl s3) = inst_cache (jl_rl s) /\ trace_cache s3 = if (instret (px_proc (jl_proxy s2)) =? instret (px_proc (jl_proxy s))) ||
      negb (rt_add (emit_prolog ++ (c ++ c') ++ emit_term (fu_base z') ++ emit_epilog (fu_base z') fast)) then trace_cache s
    else <[pc_of (jl_proxy s) := emit_prolog ++ (c ++ c') ++ emit_term (fu_base z') ++ emit_epilog (fu_base z') fast]> (trace_cache s)).
  { change (trace_cache s0) with (trace_cache s) in R6. fold (jl_proxy s2) in H2. destruct (instret _ =? instret _); cbn [orb]; [injection H2 as <-; auto |].
    unfold jit_cache in H2. destruct (rt_add _); cbn [negb]; injection H2 as <-; [| auto]. cbn [trace_cache]. rewrite R6. auto. }
  destruct E as (Ep & Ei & Ecache). rewrite Ep. split; [exact R3 |]. split; [exact Ecache | auto].
Qed.
End Run.


(** ** The witness

    The loop of [la_loop_run], whose first instruction has become hot. *)
Definition code_bytes : list Z := [0x97; 0x12; 0; 0; 0x93; 0x82; 0x02; 0x01; 0x7d; 0x15; 0x7d; 0xfd].
Definition code_mem (a : Z) : Z := nth (Z.to_nat (a - 0x2000)) code_bytes 0.
Definition hot_loop : jit_loop :=
  mkJitLoop (runloop_init (mkProxy (px_proc (loop_px 3)) code_mem (fun _ => 0))) ∅ {[0x2000 := 100]} true.

(** The run of the recorder. *)
Definition hot_run : res jit_loop (option unit) :=
  jit_trace no_trace lookup null_fpu (ret tt) (fun _ => true) true 100 4 5 hot_loop.

Definition trace_of_hot_run : option (list xinst) :=
  match hot_run with Ok (Some tt) s => trace_cache s !! 0x2000 | _ => None end.

