(* ===== verification/JitStep.v ===== *)
(** * JitStep: what the run loop of [jit/jit-runloop.h] keeps. *)

From Stdlib Require Import ZArith Lia Bool List.
From stdpp Require Import base numbers list gmap relations.
From S2P Require Import Prelude Meta Decode Codec Alu Machine Fpu Interp InterpSound Proxy InstEquiv Runloop Model ProxyCpu ExecTheorems RunTheorems Host Jit JitSound JitEmit JitExec JitSim JitFlow JitPair JitTrace JitFunc JitTheorems JitFusion JitRecord JitReplay JitRun JitRunTheorems.

#[local] Existing Instance proxy_processor.

Section Step.
Context (slow : Z -> Z) (fast : Z) (fpu : host_fpu) (syscall : M proxy unit).
Context (rt_add : list xinst -> bool) (host_call : gmap Z (list xinst) -> list xinst -> M proxy unit).
Context (log_hist_pc : bool) (trace_iters trace_length : Z).
#[local] Instance step_cpu : Cpu proxy := proxy_cpu fpu m64 syscall.
Abbreviation jit_fetch := (jit_fetch fpu syscall log_hist_pc trace_iters).
Abbreviation jit_trace := (jit_trace slow fast fpu syscall rt_add log_hist_pc trace_iters trace_length).
Abbreviation jit_execute := (jit_execute fpu syscall).
Abbreviation jit_step_inst := (jit_step_inst fpu syscall log_hist_pc trace_iters).
Abbreviation jit_step_loop := (jit_step_loop slow fast fpu syscall rt_add host_call log_hist_pc trace_iters trace_length).

(** A function that is right for the guests at [a]: the one that is compiled for
    a run of instructions there, and that takes any guest there through those
    instructions as the interpreter does, when no instruction of the run but
    the last is there twice and the checks of the trace hold. *)
Definition sound_function (a : Z) (code : list xinst) : Prop :=
  exists gs R, Forall alone gs /\ code = fusion_code slow fast R (recorded gs) /\
    (Forall short gs -> NoDup (removelast (map g_pc gs)) -> trace_checks slow fast (groups gs) = true ->
     forall (H : Type) (hh : Host H) (hl : HostLaws H) S0 n p (h : H), hart_ok 64 (px_proc p) -> pc_of p = a -> called S0 p (host_view h) ->
       exists q, rtc (trace_step fpu syscall (groups gs)) p q /\ hart_ok 64 (px_proc q) /\
         (blocked (groups gs) q \/ exists h' l, host_loop (S n) code None h = Some (h', Some l) /\
            leaves slow fast (trace_emitter slow fast (groups gs)) S0 (host_view h) q l (host_view h'))).

(** The invariant: the processor and the instruction cache are well formed, and
    every compiled function is right for its address. *)
Definition jl_ok (s : jit_loop) : Prop := rl_ok (jl_rl s) /\ map_Forall sound_function (trace_cache s).

(** What a call of a function that is right must keep. *)
Definition host_safe : Prop := forall fns code p, map_Forall sound_function fns -> fns !! pc_of p = Some code -> hart_ok 64 (px_proc p) ->
  match host_call fns code p with Ok _ q | Raise _ q => hart_ok 64 (px_proc q) | Undefined => True end.

Definition upholds {A} (Q : A -> Prop) (m : M jit_loop A) : Prop := forall s, jl_ok s ->
  match m s with Ok a s' => jl_ok s' /\ Q a | Raise _ s' => jl_ok s' | Undefined => True end.

Lemma upholds_bind {A B} (m : M jit_loop A) (k : A -> M jit_loop B) Q R :
  upholds Q m -> (forall a, Q a -> upholds R (k a)) -> upholds R (bind m k).
Proof using.
  intros Hm Hk s Hs. unfold bind. specialize (Hm s Hs). destruct (m s) as [a s' | c s' |]; [| exact Hm | exact Logic.I].
  destruct Hm as [Hs' Ha]. apply (Hk a Ha s' Hs').
Qed.

Lemma upholds_weaken {A} (Q R : A -> Prop) m : (forall a, Q a -> R a) -> upholds Q m -> upholds R m.
Proof using. intros HQ Hm s Hs. specialize (Hm s Hs). destruct (m s); [destruct Hm; auto | exact Hm | exact Logic.I]. Qed.

Lemma upholds_if {A} (b : bool) (m n : M jit_loop A) Q : upholds Q m -> upholds Q n -> upholds Q (if b then m else n).
Proof using. destruct b; auto. Qed.

Lemma upholds_ret {A} (a : A) (Q : A -> Prop) : Q a -> upholds Q (ret a).
Proof using. intros Ha s Hs. split; assumption. Qed.

(** A part of the processor's. *)
Lemma upholds_guest {A} (m : M proxy A) Q :
  (forall p, hart_ok 64 (px_proc p) -> match m p with Ok a q => hart_ok 64 (px_proc q) /\ Q a | Raise _ q => hart_ok 64 (px_proc q) | Undefined => True end) ->
  upholds Q (on_guest m).
Proof using.
  intros Hm s [[Hh Hi] Hc]. rewrite on_guest_run. specialize (Hm (jl_proxy s) Hh).
  destruct (m (jl_proxy s)) as [a q | c q |]; [destruct Hm as [Hq Ha]; split; [split; [split; assumption | exact Hc] | exact Ha] | | exact Logic.I].
  split; [split; [exact Hm | exact Hi] | exact Hc].
Qed.

Lemma upholds_read {A} (f : proc -> A) : upholds (fun _ => True) (on_guest (gets f)).
Proof using. apply upholds_guest. intros p Hp. split; [exact Hp | exact Logic.I]. Qed.

Lemma upholds_raise {A} c a (Q : A -> Prop) (k : unit -> M jit_loop A) : upholds Q (bind (on_guest (raise c a)) k).
Proof using.
  apply upholds_bind with (Q := fun _ => False); [| contradiction]. apply upholds_guest. intros p (H1 & H2 & H3). unfold raise, gets, modify, bind.
  cbn [base set_base proxy_processor px_proc exceptions set_badaddr]. rewrite H3. split; [| split; assumption]. destruct H1. split; assumption.
Qed.

Context `{!CpuSafe proxy} (Hhost : host_safe).

(** ** Interpreting *)
Lemma fetch_keeps a : upholds (fun f => 0 <= f.2 < 2 ^ 64 /\ Z.even f.2 = true) (jit_fetch a).
Proof using.
  unfold JitRun.jit_fetch. apply upholds_bind with (Q := fun _ => True).
  - apply upholds_if; [| apply upholds_ret; exact Logic.I]. apply upholds_bind with (Q := fun _ => True); [intros s Hs; split; [exact Hs | exact Logic.I] |].
    intros n _. apply upholds_bind with (Q := fun _ => True); [intros s Hs; split; [exact Hs | exact Logic.I] |]. intros b _.
    apply upholds_if; [| apply upholds_ret; exact Logic.I]. intros s Hs. pose proof (upholds_raise (A := unit) internal_cause_hotspot a (fun _ => True) ret s Hs) as Hr.
    unfold bind in Hr. destruct (on_guest _ s); exact Hr.
  - intros _ _. apply upholds_guest. intros p Hp. cbn. split; [exact Hp | apply fetch_even].
Qed.

Lemma decode_keeps i : upholds jump_even (on_rl (cached_decode i)).
Proof using CpuSafe0.
  intros s [[Hh Hi] Hc]. unfold on_rl. destruct (cached_decode_ok i (jl_rl s) Hi) as (d & r & -> & Ep & Hd & Hi'). split; [| exact Hd].
  split; [| exact Hc]. split; [| exact Hi']. unfold rl_base. cbn [jl_rl]. rewrite Ep. exact Hh.
Qed.

Lemma inv_hart pc0 n0 b : Z.even pc0 = true -> step_inv 64 pc0 n0 b -> hart_ok 64 b.
Proof using. intros He (Hb & E1 & _ & E3). split; [exact Hb |]. rewrite E1. auto. Qed.

Lemma exec_keeps d off : 0 <= off < 2 ^ 64 -> Z.even off = true -> jump_even d ->
  upholds (fun o => Z.even o = true \/ o = u64 (-1)) (on_guest (cpu_exec d off)).
Proof using CpuSafe0.
  intros Ho He Hd. apply upholds_guest. intros p (H1 & H2 & H3). assert (Hi : step_inv 64 (pc_of p) (instret (px_proc p)) (px_proc p)) by (split; auto).
  pose proof (exec_safe _ _ d off Ho He Hd p Hi) as Hx.
  destruct (cpu_exec d off p) as [o q | c q |]; [split; [eapply inv_hart; [exact H2 | apply Hx] | apply Hx] | eapply inv_hart; [exact H2 | exact Hx] | exact Logic.I].
Qed.

Lemma priv_keeps d off : 0 <= off < 2 ^ 64 -> Z.even off = true ->
  upholds (fun o => Z.even o = true \/ o = u64 (-1)) (on_guest (cpu_priv d off)).
Proof using CpuSafe0.
  intros Ho He. apply upholds_guest. intros p (H1 & H2 & H3). assert (Hi : step_inv 64 (pc_of p) (instret (px_proc p)) (px_proc p)) by (split; auto).
  pose proof (priv_safe _ _ d off Ho He p Hi) as Hx.
  destruct (cpu_priv d off p) as [o q | c q |]; [split; [eapply inv_hart; [exact H2 | apply Hx] | apply Hx] | eapply inv_hart; [exact H2 | exact Hx] | exact Logic.I].
Qed.

Lemma retire_keeps o : Z.even o = true -> upholds (fun _ => True) (on_guest (retire o)).
Proof using CpuSafe0.
  intros Ho. apply upholds_guest. intros p (H1 & H2 & H3).
  assert (Hi : step_inv cpu_xlen (pc_of p) (instret (px_proc p)) (base p)) by (split; [exact H1 | auto]).
  destruct (retire_ok (P := proxy) (Cpu0 := step_cpu) _ _ o p H2 Ho Hi) as (q & -> & Hq & _). split; [exact Hq | exact Logic.I].
Qed.

Lemma fence_keeps d off : Z.even off = true -> upholds (fun o => Z.even o = true \/ o = u64 (-1)) (inst_fence_i d off).
Proof using.
  intros He. unfold inst_fence_i. destruct (d_op d); try (apply upholds_ret; auto).
  apply upholds_bind with (Q := fun _ => True); [| intros _ _; apply upholds_ret; auto]. intros s [Hr _]. split; [split; [exact Hr | apply map_Forall_empty] | exact Logic.I].
Qed.

Lemma execute_keeps d off : 0 <= off < 2 ^ 64 -> Z.even off = true -> jump_even d -> upholds (fun _ => True) (jit_execute d off).
Proof using CpuSafe0.
  intros Ho He Hd. unfold JitRun.jit_execute.
  assert (Hturn : forall o (m : M jit_loop unit), Z.even o = true \/ o = u64 (-1) -> upholds (fun _ => True) m ->
    upholds (fun _ => True) (if negb (o =? u64 (-1)) then on_guest (retire o) else m)).
  { intros o m [Hev | ->] Hm; [| exact Hm]. apply upholds_if; [apply retire_keeps, Hev | exact Hm]. }
  apply upholds_bind with (1 := exec_keeps d off Ho He Hd). intros o1 H1. apply (Hturn o1 _ H1).
  apply upholds_bind with (1 := fence_keeps d off He). intros o2 H2. apply (Hturn o2 _ H2).
  apply upholds_bind with (1 := priv_keeps d off Ho He). intros o3 H3. apply (Hturn o3 _ H3).
  apply upholds_bind with (1 := upholds_read pc). intros a _ s Hs. pose proof (upholds_raise (A := unit) rv_cause_illegal_instruction a (fun _ => True) ret s Hs) as Hr.
  unfold bind in Hr. destruct (on_guest _ s); exact Hr.
Qed.

Lemma step_inst_keeps : upholds (fun _ => True) jit_step_inst.
Proof using CpuSafe0.
  unfold JitRun.jit_step_inst. apply upholds_bind with (1 := upholds_read pc). intros a _. apply upholds_bind with (1 := fetch_keeps a). intros f [Hf He].
  apply upholds_bind with (1 := decode_keeps f.1). intros d Hd. apply execute_keeps; assumption.
Qed.

(** ** Recording and running *)
Lemma trace_keeps fuel s s' : jl_ok s -> jit_trace fuel s = Ok (Some tt) s' -> jl_ok s'.
Proof using CpuSafe0.
  intros [[Hh Hi] Hc] H. destruct (jit_trace_runs slow fast fpu syscall rt_add log_hist_pc trace_iters trace_length fuel s s' Hh _ H)
    as (ex & more & R & T1 & T2 & T3 & T4 & T5 & T6). split; [split; [exact T5 | unfold cache_even; rewrite T6; exact Hi] |].
  rewrite T4. destruct (_ || _); [exact Hc |]. apply map_Forall_insert_2; [| exact Hc]. exists (ex ++ more), R. split; [exact T2 |]. split; [reflexivity |].
  intros Hs Hn Hk H0 HH HL S0 n p h Hp Hpc Hcall. destruct (T3 Hs) as [T7 _]. unfold recorded. rewrite (fusion_code_groups slow fast R (ex ++ more) T2).
  apply (compiled_trace_runs slow fast fpu syscall (groups (ex ++ more)) (pc_of (jl_proxy s)) S0 n p h); try assumption.
  apply (replay_trace_ok slow fast fpu syscall); [exact Hh | apply groups_replay; assumption | exact Hk].
Qed.

Lemma try_keeps : upholds (fun _ => True) (jit_try host_call).
Proof using Hhost.
  intros s Hs. unfold jit_try. destruct (jit_trap s); [| auto]. unfold jit_exec. destruct (trace_cache s !! _) as [fn |] eqn:E; [| auto].
  unfold bind. rewrite on_guest_run. destruct Hs as [[Hh Hi] Hc]. pose proof (Hhost (trace_cache s) fn (jl_proxy s) Hc E Hh) as Hx.
  assert (Hq : forall q, hart_ok 64 (px_proc q) -> jl_ok (with_proxy q s)) by (intros q Hq; split; [split; assumption | exact Hc]).
  destruct (host_call _ fn _) as [[] q | c q |]; [split; [apply Hq, Hx | exact Logic.I] | apply Hq, Hx | exact Logic.I].
Qed.

Lemma loop_keeps tf stop fuel : forall resume s e s', jl_ok s -> jit_step_loop tf stop fuel resume s = JitExit e s' -> jl_ok s'.
Proof using CpuSafe0 Hhost.
  induction fuel as [| fuel IH]; intros resume s e s' Hs; [discriminate |]. destruct resume as [c |]; cbn [JitRun.jit_step_loop].
  - do 3 (destruct (c =? _); [intros [= <- <-]; exact Hs |]). destruct (c =? _).
    + destruct (jit_trace tf s) as [[[] |] t | c' t |] eqn:Et; [| discriminate | | discriminate].
      * intros [= <- <-]. eapply trace_keeps; eassumption.
      * destruct (jit_trace_quiet slow fast fpu syscall rt_add log_hist_pc trace_iters trace_length tf s c' t Et).
    + assert (Ht : upholds (fun _ => True) (on_guest (cpu_trap (rl_dec (jl_rl s)) c))).
      { apply upholds_guest. intros p Hp. pose proof (trap_safe (rl_dec (jl_rl s)) c p Hp) as Ht. destruct (cpu_trap _ c p); [split; [apply Ht | exact Logic.I] | apply Ht | exact Logic.I]. }
      specialize (Ht s Hs). destruct (on_guest _ s) as [a t | c' t |]; [| apply IH, Ht | discriminate].
      destruct (negb _); [intros [= <- <-]; apply Ht | apply IH, Ht].
  - destruct (_ =? stop); [intros [= <- <-]; exact Hs |]. pose proof (try_keeps s Hs) as Ht.
    destruct (jit_try host_call s) as [b t | c t |]; [| apply IH, Ht | discriminate]. destruct Ht as [Ht _]. destruct b; [apply IH, Ht |].
    destruct (_ && _); [intros [= <- <-]; exact Ht |]. pose proof (step_inst_keeps t Ht) as Hx.
    destruct (jit_step_inst t) as [a u | c u |]; [apply IH, Hx | apply IH, Hx | discriminate].
Qed.
End Step.

(** However [step] of the just-in-time run loop ends, having interpreted,
    trapped, recorded traces, run compiled functions or been told to forget them
    by [fence.i], the processor and the instruction cache are well formed and
    every function in the trace cache is right for the guests at its address
    ([sound_function]); the host is asked to run only functions that are right
    for the guest's [pc], and to leave a well-formed processor. *)
Theorem jit_step_invariant slow fast fpu syscall `{!@CpuSafe proxy _ (step_cpu fpu syscall)} rt_add host_call log_hist_pc trace_iters trace_length
    trace_fuel fuel count s e s' :
  host_safe slow fast fpu syscall host_call -> jl_ok slow fast fpu syscall s ->
  jit_step slow fast fpu syscall rt_add host_call log_hist_pc trace_iters trace_length trace_fuel fuel count s = JitExit e s' ->
  jl_ok slow fast fpu syscall s'.
Proof.
  intros Hhost Hs. unfold jit_step. set (s0 := mkJitLoop _ _ _ _). assert (Hs0 : jl_ok slow fast fpu syscall s0) by (destruct Hs; split; assumption).
  assert (Hi : upholds slow fast fpu syscall (fun _ => True) (on_guest (read_clock (Cpu0 := step_cpu fpu syscall) ;; cpu_isr (Cpu := step_cpu fpu syscall)))).
  { apply upholds_guest. intros p Hp. pose proof (@isr_safe proxy _ (step_cpu fpu syscall) _ p Hp) as Hi. destruct (bind _ _ p); [split; [apply Hi | exact Logic.I] | apply Hi | exact Logic.I]. }
  specialize (Hi s0 Hs0). destruct (on_guest _ s0) as [a t | c t |]; [| discriminate..]. apply loop_keeps; [assumption | exact Hhost | apply Hi].
Qed.

(** The first instruction of [la_loop_run] is hot: [step] records the run. *)
Definition hot_step : jit_outcome :=
  jit_step no_trace lookup null_fpu (ret tt) (fun _ => true) (fun _ _ => ret tt) true 100 4 5 3 10 hot_loop.

Lemma jit_step_invariant_witness :
  match hot_step with
  | JitExit e s' => e = exit_cause_continue /\ jl_ok no_trace lookup null_fpu (ret tt) s'
  | _ => False
  end /\
  match hot_step with
  | JitExit _ s' => trace_cache s' !! 0x2000 = Some (fusion_code no_trace lookup (<[5%nat := 0x3010]> (loop_regs 2)) (recorded la_loop_run))
  | _ => False
  end.
Proof.
  split; [| vm_compute; reflexivity].
  assert (Hok : match hot_step with JitExit exit_cause_continue _ => true | _ => false end = true) by (vm_compute; reflexivity).
  pose proof (@jit_step_invariant no_trace lookup null_fpu (ret tt) loop_safe (fun _ => true) (fun _ _ => ret tt) true 100 4 5 3 10 hot_loop) as W.
  unfold hot_step in *. destruct (jit_step no_trace lookup null_fpu (ret tt) _ _ _ _ _ _ _ _ _) as [[] s' | |]; try discriminate Hok.
  split; [reflexivity |]. apply (W exit_cause_continue s'); [intros fns code p _ _ Hp; exact Hp | | reflexivity].
  split; [split; [apply (loop_hart 3); lia | intros k Hk; discriminate Hk] | apply map_Forall_empty].
Defined.

(** ** What the run loop gets wrong *)
Definition zero_loop : jit_loop :=
  mkJitLoop (runloop_init (mkProxy (px_proc (loop_px 3)) (fun _ => 0) (fun _ => 0))) ∅ ∅ true.

(** The word 0 is an illegal instruction for the interpreter, since the empty
    entries of its instruction cache are for that word; a trace has it as
    [addi x8, x2, 0], so that what traps when it is interpreted is executed when
    it is recorded and when it is compiled. *)
Lemma zero_word_is_recorded :
  match jit_step_inst null_fpu (ret tt) false 100 zero_loop with Raise c _ => c = rv_cause_illegal_instruction | _ => False end /\
  match jit_trace no_trace lookup null_fpu (ret tt) (fun _ => true) false 100 2 3 zero_loop with
  | Ok (Some tt) s => pc (px_proc (jl_proxy s)) = 0x2004 /\ instret (px_proc (jl_proxy s)) = 2 /\ is_Some (trace_cache s !! 0x2000)
  | _ => False
  end.
Proof. vm_compute. repeat split; try discriminate. eexists; reflexivity. Qed.

(** An encoding of more than 64 bits is fetched as the word 0 of length 0: it is
    recorded at one address until the trace is full, and compiled as an
    instruction of two bytes. *)
Definition long_loop : jit_loop :=
  mkJitLoop (runloop_init (mkProxy (px_proc (loop_px 3)) (fun a => if a =? 0x2000 then 0x7f else 0) (fun _ => 0))) ∅ ∅ true.

Lemma long_word_stays :
  match jit_trace no_trace lookup null_fpu (ret tt) (fun _ => true) false 100 1 2 long_loop with
  | Ok (Some tt) s => pc (px_proc (jl_proxy s)) = 0x2000 /\ instret (px_proc (jl_proxy s)) = 1
  | _ => False
  end /\
  term_pc (emit no_trace lookup (jit_of 0x2000 0 (inst_decode m64 decode_init 0)) (repeat 0 32) new_emitter).1.2 = 0x2002.
Proof. vm_compute. auto. Qed.

(** The user-mode processor has no [fence]: it traps as illegal, interpreted or
    with traces, where [fence.i] is executed and empties the trace cache. *)
Definition fence_loop (i : Z) : jit_loop :=
  mkJitLoop (runloop_init (mkProxy (px_proc (loop_px 3)) (fun a => nth (Z.to_nat (a - 0x2000)) [0x0f; i; 0xf0; 0x0f] 0) (fun _ => 0)))
    {[0x4000 := []]} ∅ true.

Lemma fence_traps :
  match jit_step_inst null_fpu (ret tt) false 100 (fence_loop 0) with Raise c _ => c = rv_cause_illegal_instruction | _ => False end /\
  match jit_step_inst null_fpu (ret tt) false 100 (fence_loop 0x10) with
  | Ok _ s => pc (px_proc (jl_proxy s)) = 0x2004 /\ trace_cache s = ∅
  | _ => False
  end.
Proof. vm_compute. auto. Qed.
