(* ===== verification/JitLimits.v ===== *)
(** * JitLimits: operands for which the emitted code is not the instruction.

    Each case that [code_ok] and [trace_ok] leave out is shown on a concrete
    host: what the code leaves, or that the host cannot run it. *)

From Stdlib Require Import ZArith Lia Bool List.
From stdpp Require Import base numbers list.
From S2P Require Import Prelude Meta Decode Codec Alu Machine Fpu Interp InterpSound ExecSpec ExecControl Proxy Runloop Model ProxyCpu Host Jit JitSound JitEmit JitPair JitTrace ExecTheorems RunTheorems JitTheorems JitFusion.

(** An instruction at 0x2000, and a host whose registers and register file hold
    [a0 = 7], [a1 = v], [ra = w], [s2 = 5]. *)
Definition at_2000 (op : rv_op) (rd rs1 rs2 imm : Z) : jit_decode := mkJit 0x2000 3 (Rv op) rd rs1 rs2 imm 0.

Definition host_ab (v w : Z) : xstate :=
  mkX (fun h => if h =? 8 then 7 else if h =? 9 then v else if h =? 2 then w else 0)
      (fun r => if r =? 18 then 5 else 0) 0 (fun _ => 0) [] None.

(** What the code leaves in [a2]. *)
Definition result (c : list xinst) (x : xstate) : option Z := option_map (fun p => xreg p.1 (x86_reg 12)) (host_go c None x).

(** The remainder of a division by [x0] is -1, not the dividend. *)
Lemma rem_by_x0 : result (emit_rem (at_2000 rv_op_rem 12 10 0 0)) (host_ab 0 0) = Some (2 ^ 64 - 1) /\
  option_map (fun f => f 7 0) (rtype_spec 64 rv_op_rem) = Some 7.
Proof. vm_compute. auto. Qed.

(** The quotient of [x0] by a register that is 0 is 0, not -1. *)
Lemma div_x0_by_zero : result (emit_div (at_2000 rv_op_div 12 0 11 0)) (host_ab 0 0) = Some 0 /\
  option_map (fun f => f 0 0) (rtype_spec 64 rv_op_div) = Some (2 ^ 64 - 1).
Proof. vm_compute. auto. Qed.

(** A divisor in [ra] is overwritten before the division: the host faults. *)
Lemma divu_by_ra : host_go (emit_divu (at_2000 rv_op_divu 12 10 1 0)) None (host_ab 0 2) = None /\
  option_map (fun f => f 7 2) (rtype_spec 64 rv_op_divu) = Some 3.
Proof. vm_compute. auto. Qed.

(** The word divisions test all 64 bits of the divisor: the host faults. *)
Lemma divuw_high_bits : host_go (emit_divuw (at_2000 rv_op_divuw 12 10 11 0)) None (host_ab (2 ^ 32) 0) = None /\
  option_map (fun f => f 7 (2 ^ 32)) (rtype_word_spec rv_op_divuw) = Some (2 ^ 64 - 1).
Proof. vm_compute. auto. Qed.

(** The remainder of [ra], the least number, by -1 loses [ra]. *)
Lemma rem_ra_lost :
  option_map (fun p => xreg p.1 (x86_reg 1)) (host_go (emit_rem (at_2000 rv_op_rem 12 1 11 0)) None (host_ab 3 (2 ^ 63))) = Some (2 ^ 63) /\
  result (emit_rem (at_2000 rv_op_rem 12 1 11 0)) (host_ab 3 (2 ^ 63)) = Some 0 /\
  option_map (fun f => f (2 ^ 63) 3) (rtype_spec 64 rv_op_rem) = Some (2 ^ 64 - 2).
Proof. vm_compute. auto. Qed.

(** [addw] of [x0] and a register in memory has no encoding. *)
Lemma addw_x0_memory : host_go (emit_addw (at_2000 rv_op_addw 12 0 18 0)) None (host_ab 0 0) = None.
Proof. reflexivity. Qed.

(** [auipc] to a register in memory has no encoding above 2^31. *)
Lemma auipc_memory : host_go (emit_auipc (at_2000 rv_op_auipc 18 0 0 0x7ffff000)) None (host_ab 0 0) = None.
Proof. reflexivity. Qed.

(** Nor has the store of such a [pc]. *)
Lemma pc_above_2_31 : host_go (emit_pc 0x80000000) None (host_ab 0 0) = None.
Proof. reflexivity. Qed.

(** An inlined return ignores the immediate. *)
Lemma ret_ignores_imm fast s :
  (emit_jalr fast (at_2000 rv_op_jalr 0 1 0 8) (set_callstack new_emitter (0x3000 :: s))).1.1 =
  (emit_jalr fast (at_2000 rv_op_jalr 0 1 0 0) (set_callstack new_emitter (0x3000 :: s))).1.1.
Proof. reflexivity. Qed.

(** [jalr] keeps bit 0 of the target, and with the base [x0] stores no [pc]. *)
Lemma jalr_keeps_bit_0 :
  option_map (fun p => xpc p.1) (host_go (emit_jalr 0x7000 (at_2000 rv_op_jalr 0 10 0 0) new_emitter).1.1 None (host_ab 0 0)) = Some 7.
Proof. reflexivity. Qed.

Lemma jalr_x0_no_pc :
  option_map (fun p => xpc p.1) (host_go (emit_jalr 0x7000 (at_2000 rv_op_jalr 0 0 0 0x100) new_emitter).1.1 None (host_ab 0 0)) = Some 0.
Proof. reflexivity. Qed.

(** The pseudo-instruction [zext.w] is emitted with a [movzx] that does not exist. *)
Lemma zextw_no_encoding :
  host_go (emit_zextw (mkJit 0x2000 3 jit_op_zextw 12 10 0 0 8)) None (host_ab 0 0) = None.
Proof. reflexivity. Qed.

(** A call through a register in memory writes the place of [x0]. *)
Lemma call_writes_x0 :
  option_map (fun p => xslot p.1 0) (host_go (emit_call (mkJit 0x2000 3 jit_op_call 18 0 0 0x1000 0) new_emitter).1.1 None (host_ab 0 0)) = Some 0x3000.
Proof. reflexivity. Qed.

(** ** Fusion *)

(** The code of a pair of instructions at 0x2000. *)
Definition pair_run (i1 i2 : Z) : list ginst :=
  [mkG 0x2000 i1 (inst_decode m64 decode_init i1) [] None; mkG 0x2004 i2 (inst_decode m64 decode_init i2) [] None].

Definition pair_code (i1 i2 : Z) : list xinst :=
  (fusion_end no_trace lookup [] (map (fun g => (g_jit g, g_regs g)) (pair_run i1 i2)) new_fusion).1.

(** [addiw a2, s2, 32] and [srli a2, a2, 32] are taken for the pair of shifts of
    [zext.w]: 5 is left where the instructions leave 0. *)
Lemma addiw_as_zextw :
  result (pair_code 0x209061b 0x2065613) (host_ab 0 0) = Some 5 /\ sext32 (5 + 32) / 2 ^ 32 = 0 /\
  map (fun g => d_op (g_dec g)) (pair_run 0x209061b 0x2065613) = [rv_op_addiw; rv_op_srli].
Proof. vm_compute. auto. Qed.

(** [auipc t0, 0] and [addi ra, t0, 16] are taken for a call: [ra] is the address
    of the next instruction and the trace goes on at the sum. *)
Lemma addi_as_call :
  option_map (fun p => xreg p.1 (x86_reg 1)) (host_go (pair_code 0x297 0x1028093) None (host_ab 0 0)) = Some 0x2008 /\
  term_pc (fusion_end no_trace lookup [] (map (fun g => (g_jit g, g_regs g)) (pair_run 0x297 0x1028093)) new_fusion).2 = 0x2010 /\
  map (fun g => d_op (g_dec g)) (pair_run 0x297 0x1028093) = [rv_op_auipc; rv_op_addi].
Proof. vm_compute. auto. Qed.

(** The sum of the immediates of [auipc a2, 0x80000] and [addi a2, a2, -1] is
    truncated to 32 bits. *)
Lemma la_truncates :
  result (pair_code 0x80000617 0xfff60613) (host_ab 0 0) = Some 0x80001fff /\ u64 (0x2000 - 2 ^ 31 - 1) = 0xffffffff80001fff.
Proof. vm_compute. auto. Qed.
